(* ===== verification/_CoqProject ===== *)
-Q . S2P
Prelude.v
JsNum.v
Fairness.v
HandEval.v
SidePots.v
StateMachine.v
HandSafety.v
Store.v
JsText.v
WalletModel.v
WalletCash.v
WalletLedger.v
WalletFlows.v
Engine.v
EngineSafety.v
EngineWallet.v
TournamentPay.v
Tournament.v
TournamentSafety.v
Events.v
Room.v
Gateway.v
GatewaySafety.v
GatewayFrames.v
JsMap.v
Collusion.v
Rating.v
Leaderboard.v
LeaderboardSafety.v
Auth.v
AuthSafety.v
Kyc.v
KycSafety.v
Spectator.v
Compliance.v
Schemas.v
EventTypes.v
AuditLog.v
Alerts.v
Analytics.v
HandAccess.v
History.v
FeatureFlags.v
ClientSocket.v
Consumers.v
Tables.v
Promotions.v
Bonus.v
Simulator.v
WalletRoutes.v
MoneyRoutes.v
TablePage.v
TournamentRoutes.v
TournamentLevels.v
UserRoutes.v
AuthRoutes.v
ApiClient.v
HttpRoutes.v
ApiCalls.v
BlockedCountries.v
Metrics.v
GatewayRestart.v
WireSchemas.v
Transactions.v
TransactionPages.v
SiteTables.v
AdminCrud.v
PageCache.v
BonusPage.v
SettingsPage.v
AccountForms.v
