(* ===== verification/Prelude.v ===== *)
(** * PokerHub: a verification library for the poker platform

    The repository is a multiplayer poker platform in TypeScript: a NestJS
    backend, a shared library and a frontend. This development models the parts
    whose correctness is money, cards and accounts: the hand engine, the wallet,
    the tournaments, the gateway, sessions, ratings and collusion reviews; the
    routes before them, the tables that administrators edit, and the pages that
    call them; and proves what they promise. Paths below are relative to src/.

    ** The program and its model

    - [JsNum], [JsText]: the JavaScript arithmetic and text the code uses
      (binary64 doubles on the standard library's executable SpecFloat, signed
      32-bit words, hex, decimal, dates).
    - [Fairness]: shared/verify/index.ts and backend/src/game/rng.ts. Commitment,
      reveal, the generator and the shuffle, on arrays whose elements may end up
      under any property key. SHA-256 is a parameter.
    - [HandEval]: shared/poker/cards.ts and the evaluator of
      shared/poker/sidePots.ts: [evaluate5], [score], [evaluateHand].
    - [SidePots]: the rest of sidePots.ts: [calculateSidePots], [settlePots].
    - [StateMachine], [HandSafety]: backend/src/game/state-machine.ts. A machine
      is a [GameStateInternal] with the blinds posted; [hsm_apply] is [apply],
      one definition per phase, in the monad [M] of this file, which keeps the
      state reached before a throw.
    - [Engine], [EngineSafety]: engine/index.ts with hand-log.ts and
      settlement.ts ([applyAction], log, journal, proof), state-sanitize.ts, the
      message handlers of room.worker.ts and room.follower.ts, clock.service.ts.
    - [Store]: what the backend takes from TypeORM, Redis and the message bus, as
      classes of operations with laws ([TableOps]/[TableLaws],
      [RedisOps]/[RedisLaws], [BusOps]/[BusLaws]), with instances on lists and
      maps on which everything runs.
    - [WalletModel], [WalletCash], [WalletLedger], [WalletFlows]:
      backend/src/wallet and withdrawals over those classes. [record] posts a
      balanced set of movements; reserve, commit, rollback, deposits,
      withdrawals, confirmations, webhooks, limits, reconciliation and
      administration are written on top of it, one definition a method.
    - [Room]: backend/src/game/room.service.ts with both threads. A room is driven
      by a schedule; the worker's asynchronous message handler gives way at its
      awaits, so actions interleave, and a dead primary is replaced by the
      follower. [handler_alone_is_worker_apply] links it to [Engine].
    - [Gateway], [GatewaySafety], [GatewayFrames]: backend/src/game/game.gateway.ts.
      Rate limits, ownership, identifiers of actions, the engine's turn, state
      frames with their retries, snapshots, seats, connections and time-outs.
    - [Events]: backend/src/events/events.service.ts, the event publisher behind
      the bus interface of [Store].
    - [EngineWallet]: backend/src/wallet/hand-ledger.ts and the wallet calls of
      the engine, where hands and money meet.
    - [TournamentPay], [Tournament], [TournamentSafety]: backend/src/tournament
      and shared/utils/icm.ts. Prizes, ICM, bubble, table balance; the service's
      lifecycle, entry, cancellation and balancing, with the same wallet.

    - [JsMap]: JavaScript's [Map] and [Set] in insertion order, and grouping.
    - [Collusion]: shared/analytics/collusion.ts and backend/src/analytics
      (collusion.ts, collusion.service.ts). Scores, the detection run, reviews.
    - [Rating], [Leaderboard], [LeaderboardSafety]: backend/src/leaderboard. The
      Glicko-2 update on doubles, scores, ranking, rebuild and restart.
    - [Auth], [AuthSafety]: backend/src/session, auth and users. Tokens, log-in,
      resets, guards, the limit of requests, and a refresh split at its awaits.
    - [Kyc], [KycSafety]: backend/src/common/kyc.service.ts. Lists, the checks in
      their order, the cache of verdicts, verification jobs and provider updates.
      [Compliance] puts it behind the wallet's cash operations.
    - [Spectator]: backend/src/game/spectator.gateway.ts and pqueue-loader.ts.
      Spectators, their queues and the frames they are sent.
    - [Schemas], [EventTypes]: shared/events.ts and the other schemas, as data
      with the laws of the zod package, and the payloads the wallet publishes.
    - [AuditLog], [Alerts], [Analytics]: backend/src/analytics (analytics.service.ts,
      etl.service.ts). Audit logs, acknowledgements over WATCH and MULTI, classes of
      log types, streams, heuristics and delivery.
    - [HandAccess]: backend/src/game/hand.controller.ts with the files of
      hand-log.ts. Who may read a hand back, and what they get.
    - [History]: backend/src/history/history.service.ts. Queries, pages, amounts.
    - [FeatureFlags]: backend/src/feature-flags, flags over a typed key space.
    - [ClientSocket]: frontend/src/lib/socket-core.ts. Listeners and requests
      with retries, joined with [Gateway] by a network that loses and repeats.
    - [GatewayRestart]: what game.gateway.ts brings back after a restart, and its
      proof, replay and resume messages. [TournamentLevels]: blind levels across
      restarts. [Metrics]: the samples of latency the gateway keeps.
    - [Consumers], [Tables], [Promotions], [Bonus], [Simulator],
      [BlockedCountries], [Transactions], [SiteTables]: the services of
      notifications, tables and chat, promotions, bonuses, simulated tournaments,
      blocked countries, the log of transactions, and the tables behind navigation,
      tabs, chips, themes, messages and broadcasts.
    - [WalletRoutes], [MoneyRoutes], [TournamentRoutes], [UserRoutes], [AuthRoutes]:
      backend/src/routes and the controllers, each route with its guards and the
      schema of its body over the service it calls. [HttpRoutes] is the table of all
      routes with the passage through router and guards.
    - [ApiClient], [ApiCalls], [WireSchemas]: frontend/src/lib/api. A page's request
      over fetch, every function of the library as the request it makes, and the
      schemas with which routes answer and pages read.
    - [TablePage], [TransactionPages], [AdminCrud], [PageCache], [BonusPage],
      [SettingsPage], [AccountForms]: pages of the frontend as states changed by keys,
      clicks and answers: the table, transactions, lists of administrators, changes
      shown before they are made, bonuses, settings, resets and log-ins.

    The worker drives one engine per table; the engine drives the state machine,
    which calls the evaluator and the pot code; the engine and the tournaments
    call the wallet, the wallet calls the store; routes call services, and pages
    call routes. The model composes the definitions the same way.

    ** What is shown

    - Cards. One deck is in play from the deal to the end of every hand, no card
      burned, whatever the generator delivers; dealing never blocks; the evaluator
      returns the best five-card score; a viewer of a sanitized state learns exactly
      its own cards; a proof that passes shows the committed bytes or a collision of
      the digest. Against that: the shuffle loses cards on a negative word, a
      straight flush can score below a high card, all hands of one engine are dealt
      the same cards, and a proof that passes may list another deck.
    - Chips. Every action conserves them, up to the side pots no one left can
      claim, whose amount is exact; settlement pays every pot to its best hands
      to the last chip; a rejected action changes nothing.
    - Engine and worker. The log is the history and replays to the same engine;
      the settlement journal balances; the worker answers every action and comes
      to rest. Under every interleaving a room runs the posted actions in order,
      each once. A restarted gateway has the tables it had, and tables change by
      admitted actions only. Against that: an action that arrives during a deal kills the
      thread, a promoted follower never answers an action, the committed
      settlement key is not the reserved one, and an interrupted deal on the turn
      stops a table for good.
    - Events. An event is delivered once, stored once or refused; replay keeps the
      order, but a failed replay stores its first event again.
    - Wallet. After any sequence of calls that name players' accounts, errors
      included, the books balance and the reconciliation report is empty; confirmed deposits are credited once;
      limits hold; repeated requests are answered from the cache. Against that:
      dropped reserves, lost updates (of the house's own row when it is adjusted),
      ignored callbacks, released locks, and a hand settlement that does not pay the
      winner.
    - Tournaments. The service refines the tournament lifecycle; table balancing
      ends and balances; prizes, ICM and bubble shares add up. Against that: of
      the entrants only the first is charged, and a failed entry can keep the
      buy-in.

    - Gateway. A message is applied once, by an admitted player, within the limits;
      frames are retried until acknowledged, five times at most.
    - Accounts. A refresh token is good for one refresh, a password changes only by a
      mailed code, which ends all sessions of its user, answers tell no passwords.
      Against that: overlapping refreshes both succeed, bans and demotions end
      nothing, and from the page no password can be reset and nobody can log out.
    - Identity. validate follows its list of checks, a verified record belongs to a
      verified account, the table of blocked countries is obeyed, and with a cache
      cash moves only for cleared accounts. Against that: without the optional cache
      the lists are not obeyed, and the setting of blocked countries blocks nobody.
    - Spectators. They are sent sanitized states of their table only, in order.
    - Ratings and reviews. The stored leaderboard is the ranking of the scores, and
      a rebuild adds up its events; reviews go one step at a time. Against that: the
      rating of a new player's first win never returns and blocks the process, and
      flagging a session again forgets its reviews.
    - Events and analytics. Every event of the wallet has the type of its schema,
      and only valid events reach Kafka; an acknowledgement takes effect at one
      point. Against that: three streams have readers and no writer, the alarm for
      chip dumping never parses, a review can overwrite another log.
    - Histories. A replay is the sanitized history of the hand the log wrote; pages
      list every matching row once. Against that: a player can read the raw log with
      all cards, proofs with lost cards cannot be read, and the histories of games
      and transactions are not separated by user.
    - Flags and clients. Flags are a map; a request ends, and an action a page sends
      over a bad network takes effect at most once, as long as no two handlers of
      the gateway overlap.
    - Routes. A request reaches its handler only past its guards; wallet routes serve
      their user and touch that account only, money and tournaments change by those
      who may. Every call of a page with plain identifiers reaches the route it means,
      and an answer that its handler parses, or builds and does not parse, reaches the
      page as it was sent. The tables of the site refine maps and lists.
    - Pages. The buttons of the table are what the state machine takes; the pages of
      transactions show the whole log, each page sorted; edits of navigation stay in
      place unless a stored flag has blanks around it; saved columns are served; a page that shows changes early ends at what the server
      has. Against that: failed saves and fetches drop what was typed, cleared values
      come back, and the server's reasons are hidden.

    Invariants ([chips_wf], [cards_wf], [engine_inv], [wallet_inv]) are proved by
    induction over all calls, accepted and rejected, and the properties read off
    them.

    ** Conventions, bounds and fuel

    Chips, cents and identifiers counted in code as safe integers are [Z]; where
    fractions occur they are doubles. Strings are [string]; maps are [gmap];
    tables are lists of rows or any lawful [TableOps]. Loops that are not
    structural carry fuel with a proof that it is enough, or, for the rating's
    search, that no fuel is: the worker's dealing
    loop needs two rounds and its handler six resumptions
    ([worker_comes_to_rest], [handler_alone_is_worker_apply]), table balancing fewer rounds
    than the sum of the squared table sizes ([balanceTables_balances]), the search for a
    free column name as many rounds as there are columns ([free_name_free]).
    Randomness, time, identifiers, hashes and provider answers are parameters; no
    theorem assumes that a hash has no collisions.

    ** Not modelled

    Sockets and files around the worker, follower and log; a follower thread that
    dies; lost connections; the expiry of Redis keys outside [AuthSafety]; tables
    of more than 26 seats; the SQL of analytics reports and their archive; routes that
    only list rows or constants (languages, tiers, game types, history tabs); the
    answer of the package that looks countries up. Markup, styles and animation, and
    the pages that only show what they fetch; scripts, deployment and load tests, which
    run outside the program; telemetry and the wiring of modules, on which no
    operation depends. Third-party packages (database, Redis, bus, schemas, forms,
    query cache) are classes with laws. What the wallet asks the identity service
    before cash moves is a function of account and address, and the flag that such a
    question may set on the row it is about is left out; the route that asks for a
    check ([WalletRoutes]) sets it. This file holds the shared monad, its triples, sums, the stable
    sort of [Array.prototype.sort], list lemmas and the automation. *)

From stdpp Require Export base tactics numbers list gmap strings sorting.
From Stdlib Require Export Ascii ZArith Lia.

#[global] Set Default Goal Selector "!".

(** ** Scope and notations of the development *)

Declare Scope hub_scope.
Delimit Scope hub_scope with hub.
#[global] Open Scope Z_scope.
#[global] Open Scope hub_scope.

(** ** JavaScript failures: a computation returns a value or throws *)

Inductive outcome (A : Type) : Type :=
| Ret (a : A)
| Throw (msg : string).
Arguments Ret {A} a.
Arguments Throw {A} msg.

#[export] Instance outcome_ret : MRet outcome := @Ret.
#[export] Instance outcome_bind : MBind outcome := λ A B f o,
  match o with Ret a => f a | Throw e => Throw e end.

Definition is_ret {A} (o : outcome A) : bool :=
  match o with Ret _ => true | Throw _ => false end.

(** A stateful computation. The state reached before a [Throw] is kept: a
    JavaScript exception does not undo the assignments made before it. *)
Definition M (S A : Type) : Type := S → outcome A * S.

#[export] Instance M_ret S : MRet (M S) := λ A a s, (Ret a, s).
#[export] Instance M_bind S : MBind (M S) := λ A B f m s,
  match m s with
  | (Ret a, s') => f a s'
  | (Throw e, s') => (Throw e, s')
  end.

Section StateOps.
Context {S : Type}.

Definition throw {A} (e : string) : M S A := λ s, (Throw e, s).
Definition gets {A} (f : S → A) : M S A := λ s, (Ret (f s), s).
Definition modify (f : S → S) : M S unit := λ s, (Ret tt, f s).
Definition lift {A} (o : outcome A) : M S A := λ s, (o, s).
(** [try { m } catch (e) { h e }] *)
Definition try_catch {A} (m : M S A) (h : string → M S A) : M S A := λ s,
  match m s with
  | (Ret a, s') => (Ret a, s')
  | (Throw e, s') => h e s'
  end.
(** [try { m } finally { f }], for a finaliser that does not throw *)
Definition try_finally {A} (m : M S A) (f : S → S) : M S A := λ s,
  let '(r, s') := m s in (r, f s').
(** [if (c) throw new Error(e)] *)
Definition throw_if (c : bool) (e : string) : M S unit :=
  if c then throw e else mret tt.
(** [for (const x of l) await f(x)] *)
Fixpoint for_each {A} (l : list A) (f : A → M S unit) : M S unit :=
  match l with
  | [] => mret tt
  | x :: l' => f x ;; for_each l' f
  end.
Definition when (c : bool) (m : M S unit) : M S unit :=
  if c then m else mret tt.
End StateOps.

Lemma bind_eq {S A B} (m : M S A) (k : A → M S B) s :
  (m ≫= k) s = match m s with (Ret x, s') => k x s' | (Throw e, s') => (Throw e, s') end.
Proof. reflexivity. Qed.

Lemma ret_bind {S A B} (m : M S A) (f : A → M S B) s b :
  ((m ≫= f) s).1 = Ret b → ∃ a s', m s = (Ret a, s') ∧ (f a s').1 = Ret b.
Proof. unfold mbind, M_bind. destruct (m s) as [[a|e] s']; [|done]. intros H. by exists a, s'. Qed.

Lemma throw_if_ret {S} c e (s : S) a s' : throw_if c e s = (Ret a, s') → c = false.
Proof. by destruct c. Qed.

(** Hoare triples over [M]: the postcondition sees the outcome, so it speaks
    of the error paths too. *)
Definition hoare {S A} (P : S → Prop) (m : M S A) (Q : outcome A → S → Prop) : Prop :=
  ∀ s, P s → Q (fst (m s)) (snd (m s)).

(** [m] keeps [I] on every path, errors included. *)
Definition preserves {S A} (I : S → Prop) (m : M S A) : Prop :=
  ∀ s, I s → I (snd (m s)).

Section Preserves.
Context {S : Type} (I : S → Prop).

Lemma preserves_ret {A} (a : A) : preserves I (mret a : M S A).
Proof. intros s Hs; exact Hs. Qed.

Lemma preserves_throw {A} e : preserves I (throw e : M S A).
Proof. intros s Hs; exact Hs. Qed.

Lemma preserves_gets {A} (f : S → A) : preserves I (gets f).
Proof. intros s Hs; exact Hs. Qed.

Lemma preserves_bind {A B} (m : M S A) (k : A → M S B) :
  preserves I m → (∀ a, preserves I (k a)) → preserves I (m ≫= k).
Proof.
  intros Hm Hk s Hs; specialize (Hm s Hs); unfold mbind, M_bind.
  destruct (m s) as [[a|e] s']; simpl in *; [by apply Hk | done].
Qed.

Lemma preserves_modify f : (∀ s, I s → I (f s)) → preserves I (modify f).
Proof. intros Hf s Hs; by apply Hf. Qed.

Lemma preserves_throw_if c e : preserves I (throw_if c e).
Proof. destruct c; intros s Hs; exact Hs. Qed.

Lemma preserves_when c m : preserves I m → preserves I (when c m).
Proof. destruct c; [done | intros _; apply preserves_ret]. Qed.

Lemma preserves_lift {A} (o : outcome A) : preserves I (lift o).
Proof. intros s Hs; exact Hs. Qed.

Lemma preserves_catch {A} (m : M S A) h :
  preserves I m → (∀ e, preserves I (h e)) → preserves I (try_catch m h).
Proof.
  intros Hm Hh s Hs; specialize (Hm s Hs); unfold try_catch.
  destruct (m s) as [[a|e] s']; simpl in *; [done | by apply Hh].
Qed.

Lemma preserves_finally {A} (m : M S A) f :
  preserves I m → (∀ s, I s → I (f s)) → preserves I (try_finally m f).
Proof.
  intros Hm Hf s Hs; specialize (Hm s Hs); unfold try_finally.
  destruct (m s) as [r s']; simpl in *; by apply Hf.
Qed.

Lemma preserves_for_each {A} (l : list A) f :
  (∀ x, x ∈ l → preserves I (f x)) → preserves I (for_each l f).
Proof.
  induction l as [|x l IH]; intros Hf; simpl; [apply preserves_ret|].
  apply preserves_bind; [apply Hf; set_solver | intros _; apply IH; set_solver].
Qed.
End Preserves.

Create HintDb hub.
#[export] Hint Resolve preserves_ret preserves_throw preserves_gets preserves_throw_if
  preserves_lift preserves_when : hub.

(** Walk through a monadic body, leaving the leaves that are not structural. *)
Ltac preserve_step :=
  lazymatch goal with
  | |- preserves _ (mbind _ _) => apply preserves_bind
  | |- preserves _ (try_catch _ _) => apply preserves_catch
  | |- preserves _ (try_finally _ _) => apply preserves_finally
  | |- preserves _ (for_each _ _) => apply preserves_for_each
  | |- preserves _ (when _ _) => apply preserves_when
  | |- preserves _ (mret _) => apply preserves_ret
  | |- preserves _ (throw _) => apply preserves_throw
  | |- preserves _ (throw_if _ _) => apply preserves_throw_if
  | |- preserves _ (gets _) => apply preserves_gets
  | |- preserves _ (lift _) => apply preserves_lift
  | |- preserves _ (if ?c then _ else _) => destruct c
  | |- preserves _ (match ?x with _ => _ end) => destruct x
  | |- ∀ _, preserves _ _ => intros ?
  | |- ∀ _, _ ∈ _ → preserves _ _ => intros ? ?
  end.
Ltac preserve := repeat (preserve_step; try (solve [eauto with hub])).

(** ** Triples with a separate postcondition for the error path *)

Definition triple {S A} (P : S → Prop) (m : M S A) (Q : A → S → Prop) (E : S → Prop) : Prop :=
  ∀ s, P s → match m s with (Ret a, s') => Q a s' | (Throw _, s') => E s' end.

Section Triples.
Context {S : Type}.
Implicit Types (P E : S → Prop).

Lemma preserves_triple {A} (I : S → Prop) (m : M S A) :
  preserves I m ↔ triple I m (λ _, I) I.
Proof.
  split; intros H s Hs; specialize (H s Hs); destruct (m s) as [[a|e] s']; done.
Qed.

Lemma triple_ret {A} P (a : A) (Q : A → S → Prop) E :
  (∀ s, P s → Q a s) → triple P (mret a : M S A) Q E.
Proof. intros H s Hs. by apply H. Qed.

Lemma triple_throw {A} P (e : string) (Q : A → S → Prop) E : (∀ s, P s → E s) → triple P (throw e : M S A) Q E.
Proof. intros H s Hs. by apply H. Qed.

Lemma triple_bind {A B} P (m : M S A) (k : A → M S B) Q1 Q E :
  triple P m Q1 E → (∀ a, triple (Q1 a) (k a) Q E) → triple P (m ≫= k) Q E.
Proof.
  intros Hm Hk s Hs. specialize (Hm s Hs). unfold mbind, M_bind.
  destruct (m s) as [[a|e] s']; [by apply Hk | done].
Qed.

Lemma triple_gets {A} P (f : S → A) (Q : A → S → Prop) E :
  (∀ s, P s → Q (f s) s) → triple P (gets f) Q E.
Proof. intros H s Hs. by apply H. Qed.

Lemma triple_modify P (f : S → S) (Q : unit → S → Prop) E :
  (∀ s, P s → Q tt (f s)) → triple P (modify f) Q E.
Proof. intros H s Hs. by apply H. Qed.

Lemma triple_throw_if P (c : bool) (e : string) (Q : unit → S → Prop) E :
  (∀ s, P s → if c then E s else Q tt s) → triple P (throw_if c e) Q E.
Proof. intros H s Hs. specialize (H s Hs). by destruct c. Qed.

Lemma triple_weaken {A} P P' (m : M S A) (Q Q' : A → S → Prop) E E' :
  triple P m Q E → (∀ s, P' s → P s) → (∀ a s, Q a s → Q' a s) → (∀ s, E s → E' s) →
  triple P' m Q' E'.
Proof.
  intros H HP HQ HE s Hs. specialize (H s (HP s Hs)). destruct (m s) as [[a|e] s']; auto.
Qed.

Lemma triple_for_each {A} I (l : list A) (f : A → M S unit) E :
  (∀ x, x ∈ l → triple I (f x) (λ _, I) E) → triple I (for_each l f : M S unit) (λ _, I) E.
Proof.
  induction l as [|x l IH]; intros H; [by apply (triple_ret I tt)|]; cbn [for_each].
  eapply triple_bind; [apply H, elem_of_cons; by left|]. intros [].
  apply IH. intros y Hy. apply H, elem_of_cons. by right.
Qed.

Lemma triple_catch {A} P (m : M S A) h (Q : A → S → Prop) E E' :
  triple P m Q E → (∀ e, triple E (h e) Q E') → triple P (try_catch m h) Q E'.
Proof.
  intros Hm Hh s Hs. specialize (Hm s Hs). unfold try_catch.
  destruct (m s) as [[a|e] s']; [done | by apply Hh].
Qed.

Lemma triple_finally {A} P (m : M S A) f (Q Q' : A → S → Prop) E E' :
  triple P m Q E → (∀ a s, Q a s → Q' a (f s)) → (∀ s, E s → E' (f s)) →
  triple P (try_finally m f) Q' E'.
Proof.
  intros Hm HQ HE s Hs. specialize (Hm s Hs). unfold try_finally.
  destruct (m s) as [[a|e] s']; auto.
Qed.
End Triples.

(** ** Sums of integers *)

Fixpoint sumZ (l : list Z) : Z :=
  match l with [] => 0 | x :: l' => x + sumZ l' end.
Definition sum_by {A} (f : A → Z) (l : list A) : Z := sumZ (f <$> l).

Lemma sumZ_app l1 l2 : sumZ (l1 ++ l2) = sumZ l1 + sumZ l2.
Proof. induction l1 as [|x l1 IH]; simpl; lia. Qed.

#[export] Instance sumZ_perm : Proper ((≡ₚ) ==> (=)) sumZ.
Proof. intros l1 l2 H; induction H; simpl; lia. Qed.

#[export] Instance sum_by_perm {A} (f : A → Z) : Proper ((≡ₚ) ==> (=)) (sum_by f).
Proof. intros l1 l2 H; unfold sum_by; by rewrite H. Qed.

Section SumBy.
Context {A : Type}.
Implicit Types (f g : A → Z) (l : list A).

Lemma sum_by_nil f : sum_by f [] = 0.
Proof. done. Qed.
Lemma sum_by_cons f x l : sum_by f (x :: l) = f x + sum_by f l.
Proof. done. Qed.
Lemma sum_by_app f l1 l2 : sum_by f (l1 ++ l2) = sum_by f l1 + sum_by f l2.
Proof. unfold sum_by; rewrite fmap_app; apply sumZ_app. Qed.
Lemma sum_by_ext f g l : (∀ x, x ∈ l → f x = g x) → sum_by f l = sum_by g l.
Proof.
  induction l as [|x l IH]; intros H; [done|].
  rewrite !sum_by_cons, H, IH; [done | set_solver | set_solver].
Qed.
Lemma sum_by_add f g l : sum_by (λ x, f x + g x) l = sum_by f l + sum_by g l.
Proof. induction l as [|x l IH]; [done|]; rewrite !sum_by_cons; lia. Qed.
Lemma sum_by_const c l : sum_by (λ _, c) l = c * Z.of_nat (length l).
Proof.
  induction l as [|x l IH]; [by rewrite Z.mul_0_r|].
  rewrite sum_by_cons, IH, length_cons, Nat2Z.inj_succ; lia.
Qed.
Lemma sum_by_nonneg f l : (∀ x, x ∈ l → 0 <= f x) → 0 <= sum_by f l.
Proof.
  induction l as [|x l IH]; intros H; [done|]. rewrite sum_by_cons.
  assert (0 <= f x) by (apply H; set_solver).
  assert (0 <= sum_by f l) by (apply IH; set_solver). lia.
Qed.
Lemma sum_by_le f g l : (∀ x, x ∈ l → f x <= g x) → sum_by f l <= sum_by g l.
Proof.
  induction l as [|x l IH]; intros H; [done|]; rewrite !sum_by_cons.
  assert (f x <= g x) by (apply H; set_solver).
  assert (sum_by f l <= sum_by g l) by (apply IH; set_solver). lia.
Qed.
Lemma sum_by_fmap {B} (f : A → Z) (h : B → A) (l : list B) :
  sum_by f (h <$> l) = sum_by (f ∘ h) l.
Proof. unfold sum_by; by rewrite <- list_fmap_compose. Qed.
Lemma sum_by_filter_split f (P : A → Prop) `{!∀ x, Decision (P x)} l :
  sum_by f l = sum_by f (filter P l) + sum_by f (filter (λ x, ¬ P x) l).
Proof.
  induction l as [|x l IH]; [done|]. rewrite sum_by_cons, IH.
  rewrite !filter_cons. case_decide; case_decide; try tauto;
    rewrite sum_by_cons; lia.
Qed.
Lemma sum_by_insert f l i x y :
  l !! i = Some x → sum_by f (<[i:=y]> l) = sum_by f l - f x + f y.
Proof.
  revert i; induction l as [|z l IH]; intros [|i] H; simplify_eq/=.
  - rewrite !sum_by_cons; lia.
  - rewrite !sum_by_cons, (IH i H); lia.
Qed.
End SumBy.


(** ** [Array.prototype.sort]: stable, by a comparator given as "not after" *)

Section JsSort.
Context {A : Type} (le : A → A → bool).

Fixpoint sort_insert (x : A) (l : list A) : list A :=
  match l with
  | [] => [x]
  | y :: l' => if le x y then x :: y :: l' else y :: sort_insert x l'
  end.
Definition js_sort (l : list A) : list A := foldr sort_insert [] l.

Lemma sort_insert_perm x l : sort_insert x l ≡ₚ x :: l.
Proof.
  induction l as [|y l IH]; simpl; [done|].
  destruct (le x y); [done|]. rewrite IH; apply Permutation_swap.
Qed.

Lemma js_sort_perm l : js_sort l ≡ₚ l.
Proof. induction l as [|x l IH]; simpl; [done|]; by rewrite sort_insert_perm, IH. Qed.

Lemma js_sort_length l : length (js_sort l) = length l.
Proof. by rewrite js_sort_perm. Qed.

Context (le_total : ∀ x y, le x y = true ∨ le y x = true)
        (le_trans : ∀ x y z, le x y = true → le y z = true → le x z = true).

Lemma sort_insert_sorted x l :
  StronglySorted (λ a b, le a b = true) l →
  StronglySorted (λ a b, le a b = true) (sort_insert x l).
Proof.
  induction 1 as [|y l Hl IH Hy]; simpl; [by repeat constructor|].
  destruct (le x y) eqn:E.
  - constructor; [by constructor|]. constructor; [done|].
    eapply Forall_impl; [exact Hy|]; eauto.
  - constructor; [done|]. rewrite sort_insert_perm. constructor; [|done].
    destruct (le_total x y); congruence.
Qed.

Lemma js_sort_sorted l : StronglySorted (λ a b, le a b = true) (js_sort l).
Proof. induction l; simpl; [constructor | by apply sort_insert_sorted]. Qed.
End JsSort.

(** ** Small facts on lists the components share *)

Lemma NoDup_fmap_filter {A B} (f : A → B) (P : A → Prop) `{!∀ x, Decision (P x)} l :
  NoDup (f <$> l) → NoDup (f <$> filter P l).
Proof.
  induction l as [|x l IH]; simpl; [done|].
  rewrite NoDup_cons; intros [Hx Hl]. rewrite filter_cons. case_decide; simpl; [|auto].
  constructor; [|auto]. intros Hin; apply Hx.
  apply list_elem_of_fmap in Hin as (y & -> & Hy).
  apply list_elem_of_filter in Hy as [_ Hy]. by apply list_elem_of_fmap_2.
Qed.

Lemma NoDup_fmap_inj_in {A B} (f : A → B) l x y :
  NoDup (f <$> l) → x ∈ l → y ∈ l → f x = f y → x = y.
Proof.
  induction l as [|z l IH]; simpl; [set_solver|].
  rewrite NoDup_cons; intros [Hz Hl] Hx Hy E.
  apply elem_of_cons in Hx as [->|Hx]; apply elem_of_cons in Hy as [->|Hy]; auto.
  - destruct Hz; rewrite E; by apply list_elem_of_fmap_2.
  - destruct Hz; rewrite <- E; by apply list_elem_of_fmap_2.
Qed.

(** Two sorts of the same multiset agree when the order is antisymmetric. *)
Lemma js_sort_unique {A} (le : A → A → bool) (l1 l2 : list A) :
  (∀ x y, le x y = true ∨ le y x = true) →
  (∀ x y z, le x y = true → le y z = true → le x z = true) →
  (∀ x y, le x y = true → le y x = true → x = y) →
  l1 ≡ₚ l2 → js_sort le l1 = js_sort le l2.
Proof.
  intros Htot Htrans Hanti Hl.
  assert (AntiSymm (=) (λ a b, le a b = true)) by (intros x y; apply Hanti).
  apply (StronglySorted_unique (λ a b, le a b = true)).
  - by apply js_sort_sorted.
  - by apply js_sort_sorted.
  - by rewrite !js_sort_perm.
Qed.

Lemma Forall_filter_keep {A} (Q P : A → Prop) `{!∀ x, Decision (P x)} l :
  Forall Q l → Forall Q (filter P l).
Proof.
  rewrite !Forall_forall. intros HQ x [_ Hx]%list_elem_of_filter. by apply HQ.
Qed.

Lemma Forall_sublist_keep {A} (Q : A → Prop) l1 l2 :
  l1 `sublist_of` l2 → Forall Q l2 → Forall Q l1.
Proof.
  rewrite !Forall_forall. intros Hsub HQ x Hx. apply HQ.
  eapply elem_of_submseteq; [exact Hx | by apply sublist_submseteq].
Qed.

(** Filtering, sorting and reversing. *)
Lemma filter_all {A} (P : A → Prop) `{!∀ x, Decision (P x)} (l : list A) : (∀ x, x ∈ l → P x) → filter P l = l.
Proof.
  induction l as [|x l IH]; intros HP; [done|]. rewrite filter_cons, decide_True by (apply HP; by left).
  f_equal. apply IH. intros y Hy. apply HP. by right.
Qed.

Lemma omap_same {A B} (f g : A → option B) (l : list A) : (∀ x, x ∈ l → f x = g x) → omap f l = omap g l.
Proof.
  induction l as [|x l IH]; intros Hfg; [done|]. cbn. rewrite Hfg by (by left). rewrite IH; [done|].
  intros y Hy. apply Hfg. by right.
Qed.

Lemma omap_reverse {A B} (f : A → option B) (l : list A) : omap f (reverse l) = reverse (omap f l).
Proof.
  induction l as [|x l IH]; [done|]. rewrite reverse_cons, omap_app, IH.
  change (omap f (x :: l)) with (match f x with Some y => y :: omap f l | None => omap f l end).
  change (omap f [x]) with (match f x with Some y => [y] | None => [] end).
  destruct (f x); [by rewrite reverse_cons | by rewrite app_nil_r].
Qed.

Lemma sorted_reverse {A} (R : A → A → Prop) (l : list A) :
  StronglySorted R l → StronglySorted (λ a b, R b a) (reverse l).
Proof.
  induction 1 as [|x l Hl IH Hx]; [constructor|]. rewrite reverse_cons. apply StronglySorted_app_2; [|done|].
  - intros a b Ha ->%list_elem_of_singleton. rewrite Forall_forall in Hx. apply Hx. by apply elem_of_reverse.
  - repeat constructor.
Qed.

Lemma sorted_filter {A} (R : A → A → Prop) (P : A → Prop) `{!∀ x, Decision (P x)} (l : list A) :
  StronglySorted R l → StronglySorted R (filter P l).
Proof.
  induction 1 as [|x l Hl IH Hx]; [constructor|]. rewrite filter_cons. case_decide; [|done]. constructor; [done|].
  apply Forall_forall. intros y [_ Hy]%list_elem_of_filter. by apply (proj1 (Forall_forall _ _) Hx).
Qed.

(** A list in order whose keys differ is in strict order, and conversely. *)
Lemma sorted_strictly {A B} (R S : A → A → Prop) (key : A → B) (l : list A) :
  (∀ x y, R x y → key x ≠ key y → S x y) → StronglySorted R l → NoDup (key <$> l) → StronglySorted S l.
Proof.
  intros HS. induction 1 as [|x l Hl IH Hx]; [constructor|]. rewrite fmap_cons. intros [Hn Hnd]%NoDup_cons.
  constructor; [by apply IH|]. apply Forall_forall. intros y Hy. rewrite Forall_forall in Hx.
  apply HS; [by apply Hx|]. intros E. apply Hn. rewrite E. by apply list_elem_of_fmap_2.
Qed.
Lemma strictly_NoDup {A B} (R : A → A → Prop) (key : A → B) (l : list A) :
  (∀ x y, R x y → key x ≠ key y) → StronglySorted R l → NoDup (key <$> l).
Proof.
  intros HR. induction 1 as [|x l Hl IH Hx]; [constructor|]. rewrite fmap_cons. apply NoDup_cons. split; [|done].
  intros (y & E & Hy)%list_elem_of_fmap. rewrite Forall_forall in Hx. by apply (HR x y (Hx y Hy)).
Qed.

(** Sorting by numbers that differ. *)
Lemma js_sort_by_key {A} (le : A → A → bool) (key : A → Z) (l l' : list A) :
  (∀ x y, le x y = (key x <=? key y)) → l' ≡ₚ l → StronglySorted (λ x y, key x < key y) l → js_sort le l' = l.
Proof.
  intros Hle Hp Hs. assert (∀ a b, a ∈ l → b ∈ l → key a = key b → a = b) as Heq.
  { intros a b Ha Hb Heq. apply (NoDup_fmap_inj_in key l); [|done..].
    revert Hs. apply (strictly_NoDup (λ x y, key x < key y) key). intros x y ? ?. lia. }
  apply (StronglySorted_unique_strong (λ a b, le a b = true)).
  - intros a b Ha Hb. rewrite js_sort_perm, Hp in Ha. rewrite !Hle. intros. apply Heq; [done..|lia].
  - apply js_sort_sorted; intros *; rewrite !Hle; lia.
  - clear Heq Hp. induction Hs as [|x l Hs IH Hx]; constructor; [done|]. eapply Forall_impl; [exact Hx|]. cbn. intros y ?. rewrite Hle. lia.
  - by rewrite js_sort_perm.
Qed.

(** A property every step keeps holds at the end of a fold. *)
Lemma foldl_invariant {A B} (I : A → Prop) (f : A → B → A) (l : list B) (a : A) :
  (∀ a b, b ∈ l → I a → I (f a b)) → I a → I (foldl f a l).
Proof.
  revert a. induction l as [|b l IH]; intros a Hf Ha; [done|]. cbn [foldl].
  apply IH; [intros; apply Hf; [by right | done] | apply Hf; [by left | done]].
Qed.
