(* ===== verification/JsNum.v ===== *)
(** * JavaScript numbers

    The part of the ECMAScript number semantics the modelled code relies on:
    [Number] as IEEE binary64 (the standard library's executable [SpecFloat]
    model at precision 53, exponent bound 1024), the 32-bit integers of the
    bitwise operators, and [Uint8] conversion. Chip counts and minor currency
    units are integers below 2^53 in the code (the wire schemas demand
    [z.number().int()], the columns are ['int']), so the components model those
    as [Z]; this file serves the places where fractions really occur. *)

From stdpp Require Export pretty.
From Corelib Require Export SpecFloat.
From S2P Require Import Prelude.
#[local] Open Scope Z_scope.

(** ** Doubles *)

Abbreviation double := spec_float (only parsing).

Definition dbl_of_Z (z : Z) : double := binary_normalize 53 1024 z 0 false.
Definition dbl_add : double → double → double := SFadd 53 1024.
Definition dbl_sub : double → double → double := SFsub 53 1024.
Definition dbl_mul : double → double → double := SFmul 53 1024.
Definition dbl_div : double → double → double := SFdiv 53 1024.
Definition dbl_ltb : double → double → bool := SFltb.
Definition dbl_leb : double → double → bool := SFleb.
Definition dbl_eqb : double → double → bool := SFeqb.

(** [Math.floor] on a finite double; [None] for NaN and the infinities. *)
Definition dbl_floor (f : double) : option Z :=
  match f with
  | S754_zero _ => Some 0
  | S754_finite s m e =>
      let v := if s then Zneg m else Zpos m in
      Some (if 0 <=? e then v * 2 ^ e else v / 2 ^ (- e))
  | _ => None
  end.

(** ** 32-bit integers of [<<] and [|] *)

Definition to_int32 (z : Z) : Z := (z + 2 ^ 31) mod 2 ^ 32 - 2 ^ 31.
Definition shl32 (z n : Z) : Z := to_int32 (Z.shiftl z n).
Definition or32 (a b : Z) : Z := to_int32 (Z.lor a b).

Lemma to_int32_range z : - 2 ^ 31 <= to_int32 z < 2 ^ 31.
Proof. unfold to_int32. pose proof (Z.mod_pos_bound (z + 2 ^ 31) (2 ^ 32)); lia. Qed.

Lemma to_int32_id z : - 2 ^ 31 <= z < 2 ^ 31 → to_int32 z = z.
Proof. intros H; unfold to_int32. rewrite Z.mod_small; lia. Qed.

(** ** Bytes *)

Definition to_uint8 (z : Z) : Z := z mod 256.
Definition is_byte (b : Z) : Prop := 0 <= b < 256.

Lemma to_uint8_byte z : is_byte (to_uint8 z).
Proof. unfold is_byte, to_uint8; by apply Z.mod_pos_bound. Qed.

Lemma to_uint8_id b : is_byte b → to_uint8 b = b.
Proof. unfold is_byte, to_uint8; intros; by apply Z.mod_small. Qed.

Ltac solve_bytes := repeat (apply Forall_cons; split); try apply Forall_nil; unfold is_byte; lia.

(** ** Hexadecimal digits *)

Definition hex_digit (d : Z) : ascii :=
  if d <? 10 then ascii_of_nat (Z.to_nat (48 + d)) else ascii_of_nat (Z.to_nat (87 + d)).

Definition hex_value (c : ascii) : option Z :=
  let n := Z.of_nat (nat_of_ascii c) in
  if (48 <=? n) && (n <=? 57) then Some (n - 48)
  else if (97 <=? n) && (n <=? 102) then Some (n - 87)
  else if (65 <=? n) && (n <=? 70) then Some (n - 55)
  else None.

Definition is_space (c : ascii) : bool :=
  let n := nat_of_ascii c in
  (n =? 32)%nat || ((9 <=? n)%nat && (n <=? 13)%nat) || (n =? 160)%nat.

Fixpoint hex_prefix (acc : Z) (some : bool) (l : list ascii) : option Z :=
  match l with
  | [] => if some then Some acc else None
  | c :: l' =>
      match hex_value c with
      | Some d => hex_prefix (16 * acc + d) true l'
      | None => if some then Some acc else None
      end
  end.

Fixpoint trim_start (l : list ascii) : list ascii :=
  match l with
  | c :: l' => if is_space c then trim_start l' else l
  | [] => []
  end.

Definition strip_0x (l : list ascii) : list ascii :=
  match l with
  | "0"%char :: "x"%char :: l' | "0"%char :: "X"%char :: l' => l'
  | _ => l
  end.

(** [parseInt(s, 16)]: leading white space, an optional sign, an optional
    [0x], then the longest run of digits; [None] is NaN. *)
Definition parseInt16 (l : list ascii) : option Z :=
  match trim_start l with
  | "-"%char :: l' => Z.opp <$> hex_prefix 0 false (strip_0x l')
  | "+"%char :: l' => hex_prefix 0 false (strip_0x l')
  | l' => hex_prefix 0 false (strip_0x l')
  end.

(** Facts about all sixteen digits (or all pairs of them) hold by enumeration. *)
Lemma digit_forall (P : Z → Prop) `{!∀ d, Decision (P d)} :
  bool_decide (Forall P (seqZ 0 16)) = true → ∀ d, 0 <= d < 16 → P d.
Proof.
  intros Hall d Hd; apply bool_decide_eq_true_1 in Hall.
  eapply Forall_forall in Hall; [exact Hall|]. apply elem_of_seqZ; lia.
Qed.

Lemma hex_value_digit d : 0 <= d < 16 → hex_value (hex_digit d) = Some d.
Proof. revert d; by apply (digit_forall _). Qed.

Lemma parseInt16_two d1 d2 :
  0 <= d1 < 16 → 0 <= d2 < 16 →
  parseInt16 [hex_digit d1; hex_digit d2] = Some (16 * d1 + d2).
Proof.
  intros H1 H2; revert d2 H2.
  assert (bool_decide (Forall (λ d1, bool_decide (Forall (λ d2,
    parseInt16 [hex_digit d1; hex_digit d2] = Some (16 * d1 + d2)) (seqZ 0 16)) = true)
    (seqZ 0 16)) = true) as H by (vm_compute; reflexivity).
  apply (digit_forall _). exact (digit_forall _ H d1 H1).
Qed.

(** ** Strings as their character codes *)

Definition utf8_ascii (s : string) : list Z :=
  (λ c, Z.of_nat (nat_of_ascii c)) <$> String.list_ascii_of_string s.
