(* ===== verification/Fairness.v ===== *)
(** * Commit-reveal and the deck shuffle

    [shared/verify/index.ts] and [backend/src/game/rng.ts]: hexadecimal
    encoding of the seed, the commitment, the counter-mode generator over
    SHA-256, the Fisher-Yates shuffle, the proof check and the per-hand RNG.
    [js-sha256] is third-party, so the digest is a parameter of the file. *)

From S2P Require Import Prelude JsNum.
#[local] Open Scope Z_scope.

(** ** Hex encoding *)

Definition byte_at (l : list ascii) (i : nat) : Z :=
  to_uint8 (default 0 (parseInt16 (take 2 (drop (2 * i) l)))).

Definition hexToBytes (hex : list ascii) : list Z :=
  byte_at hex <$> seq 0 (length hex / 2).

Definition hex_of_byte (b : Z) : list ascii :=
  if b <? 16 then ["0"%char; hex_digit b] else [hex_digit (b / 16); hex_digit (b mod 16)].

Definition bytesToHex (bytes : list Z) : list ascii := bytes ≫= hex_of_byte.

Definition standardDeck : list Z := seqZ 0 52.

Record HandProofResponse := {
  proof_commitment : list ascii;
  proof_seed : list ascii;
  proof_nonce : list ascii;
  proof_deck : list (option Z) }.

(** ** JavaScript arrays as the shuffle uses them

    An assignment to a negative index creates an ordinary property and leaves
    the length alone; reading a missing index gives [undefined] ([None]). *)
Record js_array (T : Type) := JsArray { props : gmap Z T; js_length : Z }.
Arguments JsArray {T} _ _.
Arguments props {T} _.
Arguments js_length {T} _.

Definition arr_get {T} (a : js_array T) (k : Z) : option T := props a !! k.
Definition arr_set {T} (a : js_array T) (k : Z) (v : option T) : js_array T :=
  {| props := match v with Some x => <[k:=x]> (props a) | None => delete k (props a) end;
     js_length := if js_length a <=? k then k + 1 else js_length a |}.
Definition arr_of_list {T} (l : list T) : js_array T :=
  {| props := list_to_map (zip (seqZ 0 (Z.of_nat (length l))) l);
     js_length := Z.of_nat (length l) |}.
Definition arr_to_list {T} (a : js_array T) : list (option T) :=
  arr_get a <$> seqZ 0 (js_length a).
Definition arr_swap {T} (a : js_array T) (i j : Z) : js_array T :=
  let vj := arr_get a j in let vi := arr_get a i in
  arr_set (arr_set a i vj) j vi.

Section Rng.
Context (sha256 : list Z → list Z).

Definition hashCommitment (seed nonce : list Z) : list ascii :=
  bytesToHex (sha256 (seed ++ nonce)).

(** One draw of the generator: the first four digest bytes as a signed
    32-bit word, divided by [0xffffffff]. *)
Definition prng_word (seed : list Z) (counter : Z) : Z :=
  let bytes := sha256 (seed ++ utf8_ascii (pretty counter)) in
  let b k := default 0 (bytes !! k) in
  or32 (or32 (or32 (shl32 (b 0%nat) 24) (shl32 (b 1%nat) 16)) (shl32 (b 2%nat) 8)) (b 3%nat).

Definition prng (seed : list Z) (counter : Z) : double :=
  dbl_div (dbl_of_Z (prng_word seed counter)) (dbl_of_Z 4294967295).

(** The index drawn for position [i]. *)
Definition draw_index (seed : list Z) (counter i : Z) : Z :=
  default 0 (dbl_floor (dbl_mul (prng seed counter) (dbl_of_Z (i + 1)))).

Fixpoint shuffle_loop {T} (seed : list Z) (i : nat) (counter : Z) (a : js_array T) : js_array T :=
  match i with
  | O => a
  | S i' =>
      let j := draw_index seed counter (Z.of_nat i) in
      shuffle_loop seed i' (counter + 1) (arr_swap a (Z.of_nat i) j)
  end.

Definition shuffle {T} (items : list T) (seed : list Z) : list (option T) :=
  arr_to_list (shuffle_loop seed (length items - 1) 0 (arr_of_list items)).

Definition verifyProof (p : HandProofResponse) : bool :=
  bool_decide (hashCommitment (hexToBytes (proof_seed p)) (hexToBytes (proof_nonce p))
               = proof_commitment p).

(** ** [HandRNG]: the seed and nonce are drawn by [randomBytes] *)

Record HandRNG := { rng_seed : list Z; rng_nonce : list Z; rng_commitment : list ascii }.

Definition new_HandRNG (seed nonce : list Z) : HandRNG :=
  {| rng_seed := seed; rng_nonce := nonce; rng_commitment := hashCommitment seed nonce |}.


Definition reveal (r : HandRNG) : HandProofResponse :=
  {| proof_commitment := rng_commitment r;
     proof_seed := bytesToHex (rng_seed r);
     proof_nonce := bytesToHex (rng_nonce r);
     proof_deck := shuffle standardDeck (rng_seed r) |}.
End Rng.

(** ** Encoding round trip *)







(** ** The shuffle on arrays that stay in range *)

Definition arr_rep {T} (a : js_array T) (l : list T) : Prop :=
  js_length a = Z.of_nat (length l) ∧
  ∀ k : nat, (k < length l)%nat → arr_get a (Z.of_nat k) = l !! k.

Lemma lookup_arr_of_list {T} (l : list T) (n k : nat) :
  (list_to_map (zip (seqZ (Z.of_nat n) (Z.of_nat (length l))) l) : gmap Z T)
    !! Z.of_nat (n + k) = l !! k.
Proof.
  revert n k; induction l as [|x l IH]; intros n k; [done|].
  rewrite length_cons, Nat2Z.inj_succ, seqZ_cons, Z.pred_succ by lia. simpl.
  destruct k as [|k].
  - rewrite Nat.add_0_r. by rewrite lookup_insert_eq.
  - rewrite lookup_insert_ne by lia. rewrite <- Nat2Z.inj_succ.
    replace (n + S k)%nat with (S n + k)%nat by lia. by rewrite IH.
Qed.

Lemma arr_of_list_rep {T} (l : list T) : arr_rep (arr_of_list l) l.
Proof.
  split; [done|]. intros k _. unfold arr_get, arr_of_list; simpl.
  exact (lookup_arr_of_list l 0 k).
Qed.

Lemma arr_rep_to_list {T} (a : js_array T) l : arr_rep a l → arr_to_list a = Some <$> l.
Proof.
  intros [Hlen Hget]. unfold arr_to_list. rewrite Hlen.
  apply list_eq; intros k. rewrite !list_lookup_fmap.
  destruct (decide (k < length l)%nat) as [Hk|Hk].
  - rewrite lookup_seqZ_lt by lia; simpl. rewrite Z.add_0_l, Hget by done.
    destruct (lookup_lt_is_Some_2 l k Hk) as [x Hx]; by rewrite Hx.
  - rewrite lookup_seqZ_ge, (lookup_ge_None_2 l) by lia. done.
Qed.

Lemma arr_swap_rep {T} (a : js_array T) l (i j : nat) xi xj :
  arr_rep a l → l !! i = Some xi → l !! j = Some xj →
  arr_rep (arr_swap a (Z.of_nat i) (Z.of_nat j)) (<[j:=xi]> (<[i:=xj]> l)).
Proof.
  intros [Hlen Hget] Hi Hj.
  pose proof (lookup_lt_Some _ _ _ Hi) as Li. pose proof (lookup_lt_Some _ _ _ Hj) as Lj.
  unfold arr_swap. rewrite !Hget, Hi, Hj by done. split.
  - rewrite !length_insert. unfold arr_set; simpl.
    rewrite Hlen. destruct (Z.leb_spec (Z.of_nat (length l)) (Z.of_nat i)); [lia|].
    destruct (Z.leb_spec (Z.of_nat (length l)) (Z.of_nat j)); lia.
  - intros k Hk. rewrite !length_insert in Hk. unfold arr_get, arr_set; simpl.
    destruct (decide (k = j)) as [->|Hkj].
    + rewrite lookup_insert_eq, list_lookup_insert_eq by (by rewrite length_insert). done.
    + rewrite lookup_insert_ne, list_lookup_insert_ne by lia.
      destruct (decide (k = i)) as [->|Hki].
      * rewrite lookup_insert_eq, list_lookup_insert_eq by done. done.
      * rewrite lookup_insert_ne, list_lookup_insert_ne by lia. by apply Hget.
Qed.

Lemma list_swap_perm {T} (l : list T) (i j : nat) xi xj :
  l !! i = Some xi → l !! j = Some xj → <[j:=xi]> (<[i:=xj]> l) ≡ₚ l.
Proof.
  intros Hi Hj.
  pose proof (lookup_lt_Some _ _ _ Hi) as Li. pose proof (lookup_lt_Some _ _ _ Hj) as Lj.
  apply Permutation_inj; split; [by rewrite !length_insert|].
  exists (λ k, if decide (k = i) then j else if decide (k = j) then i else k). split.
  - intros x y. repeat case_decide; congruence.
  - intros k. repeat case_decide; subst.
    + destruct (decide (i = j)) as [->|]; [by rewrite list_lookup_insert_eq, Hi
        by (by rewrite length_insert)|].
      by rewrite list_lookup_insert_ne, list_lookup_insert_eq.
    + by rewrite list_lookup_insert_eq by (by rewrite length_insert).
    + by rewrite !list_lookup_insert_ne.
Qed.

(** Every element held at any property satisfies [P]. *)
Definition arr_all {T} (P : T → Prop) (a : js_array T) : Prop :=
  ∀ k x, arr_get a k = Some x → P x.

Lemma arr_set_all {T} (P : T → Prop) (a : js_array T) k v :
  arr_all P a → (∀ x, v = Some x → P x) → arr_all P (arr_set a k v).
Proof.
  intros Ha Hv k' x. unfold arr_get, arr_set; simpl. destruct v as [y|].
  - rewrite lookup_insert. case_decide; intros E; [by apply Hv | by eapply Ha].
  - rewrite lookup_delete. case_decide; intros E; [done | by eapply Ha].
Qed.

Lemma arr_swap_all {T} (P : T → Prop) (a : js_array T) i j :
  arr_all P a → arr_all P (arr_swap a i j).
Proof.
  intros Ha. apply arr_set_all; [apply arr_set_all; [done|]|]; intros x E; by eapply Ha.
Qed.

Section ShuffleFacts.
Context (sha256 : list Z → list Z) {T : Type}.

Definition draws_in_range (seed : list Z) (n : nat) : Prop :=
  ∀ i : nat, (1 ≤ i < n)%nat →
    0 <= draw_index sha256 seed (Z.of_nat (n - 1 - i)) (Z.of_nat i) <= Z.of_nat i.

Lemma shuffle_loop_perm seed n i (a : js_array T) l :
  draws_in_range seed n → (i < n)%nat → (i < length l)%nat ∨ i = 0%nat → arr_rep a l →
  ∃ l', l' ≡ₚ l ∧ arr_rep (shuffle_loop sha256 seed i (Z.of_nat (n - 1 - i)) a) l'.
Proof.
  intros Hdraw. revert a l; induction i as [|i IH]; intros a l Hn Hl Hrep; [by exists l|].
  destruct Hl as [Hl|Hl]; [|done].
  destruct (Hdraw (S i)) as [H0 H1]; [lia|].
  set (j := draw_index sha256 seed (Z.of_nat (n - 1 - S i)) (Z.of_nat (S i))) in *.
  destruct (lookup_lt_is_Some_2 l (S i) Hl) as [xi Hxi].
  assert (Z.to_nat j < length l)%nat as Hj by lia.
  destruct (lookup_lt_is_Some_2 l _ Hj) as [xj Hxj].
  pose proof (arr_swap_rep a l _ _ _ _ Hrep Hxi Hxj) as Hrep'.
  pose proof (list_swap_perm l _ _ _ _ Hxi Hxj) as Hperm.
  rewrite Z2Nat.id in Hrep' by lia.
  destruct (IH (arr_swap a (Z.of_nat (S i)) j) (<[Z.to_nat j:=xi]> (<[S i:=xj]> l)))
    as (l' & Hl' & Hr); [lia | left; rewrite !length_insert; lia | exact Hrep' |].
  exists l'. split; [by rewrite Hl', Hperm|].
  replace (Z.of_nat (n - 1 - i)) with (Z.of_nat (n - 1 - S i) + 1) in Hr by lia.
  exact Hr.
Qed.

(** Whatever the draws are, the shuffle invents no element. *)
Lemma shuffle_loop_all (P : T → Prop) seed i c (a : js_array T) :
  arr_all P a → arr_all P (shuffle_loop sha256 seed i c a).
Proof.
  revert c a; induction i as [|i IH]; intros c a Ha; simpl; [done|].
  by apply IH, arr_swap_all.
Qed.
End ShuffleFacts.

Lemma shuffle_sub (sha256 : list Z → list Z) {T} (items : list T) seed x :
  Some x ∈ shuffle sha256 items seed → x ∈ items.
Proof.
  unfold shuffle, arr_to_list. intros H.
  apply list_elem_of_fmap in H as (k & Hk & _). symmetry in Hk.
  eapply (shuffle_loop_all sha256 (.∈ items)); [|exact Hk]. intros k' y Hy.
  unfold arr_get, arr_of_list in Hy; simpl in Hy.
  apply elem_of_list_to_map_2 in Hy. by apply elem_of_zip_r in Hy.
Qed.

(** ** The proof protocol *)






(** A proof that passes and lists another deck; and, cut after its first byte,
    one that passes and shuffles another. *)
Example verifyProof_ignores_deck_and_cut :
  let digest := λ m : list Z, take 4 (drop 1 m ++ [0; 0; 0; 0]) in
  let rng := new_HandRNG digest [1; 100] [3; 4] in
  let cut := {| proof_commitment := rng_commitment rng; proof_seed := bytesToHex [1];
                proof_nonce := bytesToHex [100; 3; 4]; proof_deck := [Some 7] |} in
  verifyProof digest cut = true ∧
  bool_decide (proof_deck cut = proof_deck (reveal digest rng)) = false ∧
  bool_decide (shuffle digest standardDeck (hexToBytes (proof_seed cut))
               = proof_deck (reveal digest rng)) = false.
Proof. split_and!; vm_compute; reflexivity. Qed.

(** Fisher-Yates of shared/verify. When every drawn index lies in [0, i]
    (the generator's word is non-negative), [shuffle] returns a permutation of
    its input with no [undefined] in it. *)
Lemma shuffle_permutes_when_in_range (sha256 : list Z → list Z) {T} (items : list T) seed
    (Hdraw : draws_in_range sha256 seed (length items)) :
  ∃ l, l ≡ₚ items ∧ shuffle sha256 items seed = Some <$> l.
Proof.
  unfold shuffle. destruct (decide (length items = 0)%nat) as [E|E].
  { destruct items; [|done]. by exists []. }
  edestruct (shuffle_loop_perm sha256 seed (length items) (length items - 1)
    (arr_of_list items) items) as (l & Hl & Hrep); [done|lia|lia|apply arr_of_list_rep|].
  rewrite Nat.sub_diag in Hrep. exists l. split; [done|]. by apply arr_rep_to_list.
Qed.

Lemma shuffle_permutes_when_in_range_witness :
  ∃ l, l ≡ₚ [10; 20; 30] ∧ shuffle (λ _, [100; 1; 2; 3]) [10; 20; 30] [5] = Some <$> l.
Proof.
  apply (shuffle_permutes_when_in_range (λ _, [100; 1; 2; 3]) [10; 20; 30] [5]).
  intros i [Hi1 Hi2]. simpl in Hi2.
  destruct i as [|[|[|i]]]; [lia| | |lia]; vm_compute; split; discriminate.
Defined.

(** The generator of shared/verify reads its word as a signed integer, so
    half of all digests give a negative draw; the swap then writes to a
    negative property and drops a card. Concretely, with digest bytes
    [80 00 00 00] (hex) the shuffled deck has [undefined] entries and fewer
    than 52 cards, so it is no permutation of the deck. *)
Lemma shuffle_negative_draw_loses_cards :
  let deck := shuffle (λ _, [128; 0; 0; 0]) standardDeck [] in
  None ∈ deck ∧ length (omap id deck) = 26%nat ∧ ¬ (deck ≡ₚ Some <$> standardDeck).
Proof.
  assert (None ∈ shuffle (λ _, [128; 0; 0; 0]) standardDeck []) as H.
  { apply (list_elem_of_lookup_2 _ 2). vm_compute. reflexivity. }
  split_and!; [exact H | vm_compute; reflexivity |].
  intros E. rewrite E in H. apply list_elem_of_fmap in H as (? & ? & _). done.
Qed.
