(* ===== verification/HandEval.v ===== *)
(** * Cards and hand evaluation

    [shared/poker/cards.ts] and the evaluator of [shared/poker/sidePots.ts]:
    a card is an integer 0..51, its rank [floor(c/4)], its suit [c % 4]. *)

From S2P Require Import Prelude.
#[local] Open Scope Z_scope.

Definition RANKS : list string :=
  ["2"; "3"; "4"; "5"; "6"; "7"; "8"; "9"; "T"; "J"; "Q"; "K"; "A"]%string.

Inductive Suit := clubs | diamonds | hearts | spades.
#[export] Instance Suit_eq_dec : EqDecision Suit.
Proof. solve_decision. Defined.

(** [SUITS] and [SUIT_MAP] in one table, by position. *)
Definition SUITS : list Suit := [clubs; diamonds; hearts; spades].

Inductive HandRank :=
| HIGH_CARD | PAIR | TWO_PAIR | THREE_OF_A_KIND | STRAIGHT
| FLUSH | FULL_HOUSE | FOUR_OF_A_KIND | STRAIGHT_FLUSH.
#[export] Instance HandRank_eq_dec : EqDecision HandRank.
Proof. solve_decision. Defined.

Definition rank_num (r : HandRank) : Z :=
  match r with
  | HIGH_CARD => 0 | PAIR => 1 | TWO_PAIR => 2 | THREE_OF_A_KIND => 3 | STRAIGHT => 4
  | FLUSH => 5 | FULL_HOUSE => 6 | FOUR_OF_A_KIND => 7 | STRAIGHT_FLUSH => 8
  end.

Record HandValue := { hv_rank : HandRank; hv_kickers : list Z }.

Definition BASE : Z := 15.

Definition score (v : HandValue) : Z :=
  foldl (λ s k, s * BASE + k) (rank_num (hv_rank v)) (hv_kickers v).

(** [new Set(l)] in insertion order. *)
Definition js_set_of {A} `{EqDecision A} (l : list A) : list A :=
  foldl (λ acc x, if bool_decide (x ∈ acc) then acc else acc ++ [x]) [] l.

Definition asc (a b : Z) : bool := a <=? b.
Definition desc (a b : Z) : bool := b <=? a.

Definition card_rank (c : Z) : Z := c / 4.
Definition card_suit (c : Z) : Z := Z.rem c 4.

Definition is_flush (suits : list Z) : bool :=
  match suits with [] => true | s0 :: _ => forallb (λ s, s =? s0) suits end.

(** The straight search over the sorted distinct ranks: windows of five, the
    last hit wins, then the wheel. *)
Fixpoint straight_windows (unique : list Z) (high : Z) : Z :=
  match unique with
  | a :: rest =>
      match rest with
      | _ :: _ :: _ :: e :: _ => straight_windows rest (if e - a =? 4 then e else high)
      | _ => high
      end
  | [] => high
  end.

Definition straight_high (unique : list Z) : Z :=
  let h := straight_windows unique (-1) in
  if (h =? -1) && forallb (λ r, bool_decide (r ∈ unique)) [12; 0; 1; 2; 3] then 3 else h.

(** [countMap]: an insertion-ordered map from rank to multiplicity. *)
Fixpoint count_bump (r : Z) (m : list (Z * Z)) : list (Z * Z) :=
  match m with
  | [] => [(r, 1)]
  | (k, c) :: m' => if k =? r then (k, c + 1) :: m' else (k, c) :: count_bump r m'
  end.
Definition count_map (ranks : list Z) : list (Z * Z) :=
  foldl (λ m r, count_bump r m) [] ranks.

(** Not-after in the sort of [counts]: larger count first, then larger rank. *)
Definition count_le (a b : Z * Z) : bool :=
  if a.2 =? b.2 then b.1 <=? a.1 else b.2 <=? a.2.

Definition find_kicker (p : Z → bool) (ranks : list Z) : Z :=
  default 0 (head (filter (λ r, p r) ranks)).

Definition evaluate5 (cards : list Z) : HandValue :=
  let ranks := js_sort desc (card_rank <$> cards) in
  let suits := card_suit <$> cards in
  let isFlush := is_flush suits in
  let unique := js_sort asc (js_set_of ranks) in
  let straightHigh := straight_high unique in
  let isStraight := negb (straightHigh =? -1) in
  let counts := js_sort count_le (count_map ranks) in
  let c0 := default (0, 0) (counts !! 0%nat) in
  let c1_is_2 := match counts !! 1%nat with Some (_, c) => c =? 2 | None => false end in
  let r1 := match counts !! 1%nat with Some (r, _) => r | None => 0 end in
  if isStraight && isFlush then {| hv_rank := STRAIGHT_FLUSH; hv_kickers := [straightHigh] |}
  else if c0.2 =? 4 then
    let quad := c0.1 in
    {| hv_rank := FOUR_OF_A_KIND;
       hv_kickers := [quad; find_kicker (λ r, negb (r =? quad)) ranks] |}
  else if (c0.2 =? 3) && c1_is_2 then
    {| hv_rank := FULL_HOUSE; hv_kickers := [c0.1; r1] |}
  else if isFlush then {| hv_rank := FLUSH; hv_kickers := ranks |}
  else if isStraight then {| hv_rank := STRAIGHT; hv_kickers := [straightHigh] |}
  else if c0.2 =? 3 then
    let trip := c0.1 in
    {| hv_rank := THREE_OF_A_KIND;
       hv_kickers := trip :: take 2 (filter (λ r, r ≠ trip) ranks) |}
  else if (c0.2 =? 2) && c1_is_2 then
    let highPair := Z.max c0.1 r1 in
    let lowPair := Z.min c0.1 r1 in
    {| hv_rank := TWO_PAIR;
       hv_kickers := [highPair; lowPair;
         find_kicker (λ r, negb (r =? highPair) && negb (r =? lowPair)) ranks] |}
  else if c0.2 =? 2 then
    let pair := c0.1 in
    {| hv_rank := PAIR; hv_kickers := pair :: take 3 (filter (λ r, r ≠ pair) ranks) |}
  else {| hv_rank := HIGH_CARD; hv_kickers := take 5 ranks |}.

(** The index tuples of the five nested loops, in their order. *)
Fixpoint choose {A} (k : nat) (l : list A) : list (list A) :=
  match k, l with
  | O, _ => [[]]
  | S _, [] => []
  | S k', x :: l' => ((x ::.) <$> choose k' l') ++ choose k l'
  end.

Definition evaluateHand (cards : list Z) : outcome Z :=
  if (length cards <? 5)%nat then Throw "Need at least 5 cards"
  else Ret (foldl (λ best five, let val := score (evaluate5 five) in
                                if best <? val then val else best) 0 (choose 5 cards)).

(** A legal set of cards. *)
Definition legal_cards (cards : list Z) : Prop :=
  NoDup cards ∧ Forall (λ c, 0 <= c < 52) cards.

(** ** Scores are base-15 numerals *)

(** Lexicographic order on kicker lists of equal length. *)
Fixpoint lex_ltb (k1 k2 : list Z) : bool :=
  match k1, k2 with
  | x :: k1', y :: k2' => (x <? y) || ((x =? y) && lex_ltb k1' k2')
  | _, _ => false
  end.

Definition digit (k : Z) : Prop := 0 <= k < BASE.

Lemma foldl_base_bounds s ks :
  Forall digit ks →
  s * BASE ^ Z.of_nat (length ks) <= foldl (λ s k, s * BASE + k) s ks
    < (s + 1) * BASE ^ Z.of_nat (length ks).
Proof.
  unfold digit, BASE. intros H; revert s; induction H as [|k ks Hk Hks IH]; intros s.
  - simpl; lia.
  - specialize (IH (s * 15 + k)). rewrite length_cons, Nat2Z.inj_succ, Z.pow_succ_r by lia.
    simpl foldl. pose proof (Z.pow_pos_nonneg 15 (Z.of_nat (length ks))). nia.
Qed.

Lemma foldl_base_lex s1 s2 k1 k2 :
  Forall digit k1 → Forall digit k2 → length k1 = length k2 →
  (foldl (λ s k, s * BASE + k) s1 k1 < foldl (λ s k, s * BASE + k) s2 k2
   ↔ s1 < s2 ∨ (s1 = s2 ∧ lex_ltb k1 k2 = true)).
Proof.
  intros H1; revert s1 s2 k2; induction H1 as [|x k1 Hx H1 IH]; intros s1 s2 k2 H2 Hlen.
  - destruct k2; [|done]. simpl. split; [lia | intros [?|[_ ?]]; [lia|done]].
  - destruct k2 as [|y k2]; [done|]. apply Forall_cons in H2 as [Hy H2].
    simpl. rewrite IH by (done || (simpl in Hlen; lia)).
    unfold digit, BASE in Hx, Hy |- *. rewrite orb_true_iff, andb_true_iff, Z.ltb_lt, Z.eqb_eq.
    destruct (lex_ltb k1 k2); lia.
Qed.

Lemma foldl_base_nonneg s ks :
  0 <= s → Forall (λ k, 0 <= k) ks → 0 <= foldl (λ s k, s * BASE + k) s ks.
Proof.
  intros Hs H; revert s Hs; induction H as [|k ks Hk Hks IH]; intros s Hs; simpl; [done|].
  apply IH. unfold BASE; lia.
Qed.

Lemma rank_num_nonneg r : 0 <= rank_num r <= 8.
Proof. destruct r; simpl; lia. Qed.

(** ** The evaluation of legal cards stays in range *)

Definition rank_ok (r : Z) : Prop := 0 <= r <= 12.

Lemma card_rank_ok c : 0 <= c < 52 → rank_ok (card_rank c).
Proof.
  intros H; unfold rank_ok, card_rank.
  split; [apply Z.div_pos; lia | apply Z.lt_succ_r, Z.div_lt_upper_bound; lia].
Qed.

Lemma js_set_of_sub {A} `{EqDecision A} (l : list A) x : x ∈ js_set_of l → x ∈ l.
Proof.
  unfold js_set_of.
  cut (∀ acc, x ∈ foldl (λ acc x, if bool_decide (x ∈ acc) then acc else acc ++ [x]) acc l →
         x ∈ acc ∨ x ∈ l).
  { intros H Hx. destruct (H [] Hx) as [Hn|]; [by apply elem_of_nil in Hn | done]. }
  induction l as [|y l IH]; intros acc Hx; simpl in Hx; [by left|].
  rewrite elem_of_cons. apply IH in Hx as [Hx|Hx]; [|auto].
  case_bool_decide; [auto|]. apply elem_of_app in Hx as [Hx|Hx]; [auto|].
  apply list_elem_of_singleton in Hx; auto.
Qed.

Lemma js_set_of_elem {A} `{EqDecision A} (l : list A) x : x ∈ js_set_of l ↔ x ∈ l.
Proof.
  split; [apply js_set_of_sub|]. intros Hx. unfold js_set_of.
  cut (∀ acc, x ∈ acc ∨ x ∈ l →
         x ∈ foldl (λ acc x, if bool_decide (x ∈ acc) then acc else acc ++ [x]) acc l).
  { intros H. apply H. by right. }
  clear Hx. induction l as [|y l IH]; intros acc; simpl.
  - intros [?|Hn]; [done | by apply elem_of_nil in Hn].
  - rewrite elem_of_cons. intros Hx. apply IH. case_bool_decide as Hy.
    + destruct Hx as [?|[->|?]]; auto.
    + rewrite elem_of_app, list_elem_of_singleton. tauto.
Qed.

Lemma straight_windows_range u h : rank_ok h ∨ h = -1 → Forall rank_ok u →
  rank_ok (straight_windows u h) ∨ straight_windows u h = -1.
Proof.
  intros Hh Hu; revert h Hh; induction Hu as [|a u Ha Hu IH]; intros h Hh; simpl; [done|].
  destruct u as [|b [|c [|d [|e u]]]]; try done. apply IH.
  destruct (e - a =? 4); [left | done].
  do 4 apply Forall_cons in Hu as [? Hu]. done.
Qed.

Lemma straight_high_range u : Forall rank_ok u →
  rank_ok (straight_high u) ∨ straight_high u = -1.
Proof.
  intros Hu. unfold straight_high. case_match; [left; unfold rank_ok; lia|].
  by apply straight_windows_range; [right|].
Qed.

Lemma count_bump_keys (P : Z → Prop) r m :
  P r → Forall (λ kc, P kc.1) m → Forall (λ kc, P kc.1) (count_bump r m).
Proof.
  intros Hr H; induction H as [|[k c] m Hk Hm IH]; simpl; [by repeat constructor|].
  destruct (k =? r); constructor; done.
Qed.

Lemma count_map_keys (P : Z → Prop) ranks :
  Forall P ranks → Forall (λ kc, P kc.1) (count_map ranks).
Proof.
  unfold count_map. intros H.
  cut (∀ m, Forall (λ kc, P kc.1) m →
    Forall (λ kc, P kc.1) (foldl (λ m r, count_bump r m) m ranks)); [auto|].
  induction H as [|r ranks Hr H IH]; intros m Hm; simpl; [done|].
  apply IH. by apply count_bump_keys.
Qed.

Lemma sorted_counts_ok ranks (i : nat) :
  Forall rank_ok ranks →
  rank_ok (match js_sort count_le (count_map ranks) !! i with Some (r, _) => r | None => 0 end).
Proof.
  intros H. apply (count_map_keys _) in H.
  assert (Forall (λ kc, rank_ok kc.1) (js_sort count_le (count_map ranks))) as H'
    by (by rewrite js_sort_perm).
  destruct (js_sort count_le (count_map ranks) !! i) as [[r c]|] eqn:E; [|unfold rank_ok; lia].
  by apply (Forall_lookup_1 _ _ _ _ H') in E.
Qed.

Lemma find_kicker_ok p ranks : Forall rank_ok ranks → rank_ok (find_kicker p ranks).
Proof.
  intros H. unfold find_kicker.
  destruct (head (filter (λ r, p r) ranks)) as [r|] eqn:E; simpl; [|unfold rank_ok; lia].
  apply head_Some_elem_of in E. apply list_elem_of_filter in E as [_ E].
  by eapply Forall_forall in H.
Qed.

Lemma evaluate5_kickers_ok cards :
  Forall (λ c, 0 <= c < 52) cards → Forall rank_ok (hv_kickers (evaluate5 cards)).
Proof.
  intros H. unfold evaluate5.
  set (ranks := js_sort desc (card_rank <$> cards)).
  assert (Forall rank_ok ranks) as Hr.
  { unfold ranks. rewrite js_sort_perm. apply Forall_fmap.
    eapply Forall_impl; [exact H|]. intros c; apply card_rank_ok. }
  pose proof (sorted_counts_ok ranks 0 Hr) as H0. pose proof (sorted_counts_ok ranks 1 Hr) as H1.
  assert (rank_ok (default (0, 0) (js_sort count_le (count_map ranks) !! 0%nat)).1) as H0'.
  { destruct (js_sort count_le (count_map ranks) !! 0%nat) as [[? ?]|]; [done|unfold rank_ok; simpl; lia]. }
  assert (Forall rank_ok (js_sort asc (js_set_of ranks))) as Hu.
  { rewrite js_sort_perm. apply Forall_forall. intros x Hx%js_set_of_sub.
    by eapply Forall_forall in Hr. }
  apply straight_high_range in Hu.
  assert (∀ r n, Forall rank_ok (take n (filter (λ x, x ≠ r) ranks))) as Hf
    by (intros; by apply Forall_take, Forall_filter_keep).
  assert (∀ a b, rank_ok a → rank_ok b → rank_ok (Z.max a b) ∧ rank_ok (Z.min a b)) as Hmm
    by (unfold rank_ok; lia).
  specialize (Hmm _ _ H0' H1) as [??].
  assert (∀ b, negb (straight_high (js_sort asc (js_set_of ranks)) =? -1) && b = true →
    rank_ok (straight_high (js_sort asc (js_set_of ranks)))) as Hs.
  { intros b Hb. destruct Hu as [Hu|Hu]; [done|]. by rewrite Hu in Hb. }
  repeat case_match; simpl; eauto 7 using find_kicker_ok, Forall_take.
  all: repeat (apply Forall_cons; split); eauto using find_kicker_ok.
Qed.

Lemma score_nonneg cards : Forall (λ c, 0 <= c < 52) cards → 0 <= score (evaluate5 cards).
Proof.
  intros H. apply foldl_base_nonneg; [apply rank_num_nonneg|].
  eapply Forall_impl; [by apply evaluate5_kickers_ok|]. unfold rank_ok; lia.
Qed.

(** ** The card order is irrelevant *)

Lemma js_sort_desc_perm l1 l2 : l1 ≡ₚ l2 → js_sort desc l1 = js_sort desc l2.
Proof. apply js_sort_unique; unfold desc; intros; lia. Qed.

Lemma is_flush_alt suits : is_flush suits = true ↔ ∀ a b, a ∈ suits → b ∈ suits → a = b.
Proof.
  destruct suits as [|s0 suits]; [simpl; split; [intros _ a b []%elem_of_nil | done]|].
  unfold is_flush. rewrite forallb_forall. split.
  - intros H a b Ha Hb. apply list_elem_of_In, H, Z.eqb_eq in Ha, Hb. congruence.
  - intros H x Hx%list_elem_of_In. apply Z.eqb_eq, H; [done | apply elem_of_cons; auto].
Qed.

Lemma is_flush_perm s1 s2 : s1 ≡ₚ s2 → is_flush s1 = is_flush s2.
Proof.
  intros Hs. apply eq_true_iff_eq. rewrite !is_flush_alt.
  by setoid_rewrite Hs.
Qed.

Lemma evaluate5_perm c1 c2 : c1 ≡ₚ c2 → evaluate5 c1 = evaluate5 c2.
Proof.
  intros Hc. unfold evaluate5.
  rewrite (js_sort_desc_perm (card_rank <$> c1) (card_rank <$> c2)) by (by rewrite Hc).
  by rewrite (is_flush_perm (card_suit <$> c1) (card_suit <$> c2)) by (by rewrite Hc).
Qed.

(** [choose k] lists the sublists of length [k]. *)
Lemma elem_of_choose {A} k (l five : list A) :
  five ∈ choose k l ↔ five `sublist_of` l ∧ length five = k.
Proof.
  revert k five; induction l as [|x l IH]; intros [|k] five; simpl.
  - rewrite list_elem_of_singleton. split; [intros ->; split; [constructor|done]|].
    intros [H%sublist_nil_r _]; done.
  - rewrite elem_of_nil. split; [done|]. intros [H%sublist_nil_r E]; by subst.
  - rewrite list_elem_of_singleton. split; [intros ->; split; [apply sublist_nil_l|done]|].
    intros [_ E]; by destruct five.
  - rewrite elem_of_app, list_elem_of_fmap. split.
    + intros [(f & -> & [Hf <-]%IH)|[Hf <-]%IH]; split; try done; by constructor.
    + intros [Hf E]. apply sublist_cons_r in Hf as [Hf|(f & -> & Hf)].
      * right. by apply IH.
      * left. exists f. split; [done|]. apply IH. by simplify_eq/=.
Qed.

(** The running maximum of the loop. *)
Definition run_best (best : Z) (fives : list (list Z)) : Z :=
  foldl (λ best five, let val := score (evaluate5 five) in if best <? val then val else best)
    best fives.

Lemma run_best_spec best fives :
  best <= run_best best fives ∧
  (∀ five, five ∈ fives → score (evaluate5 five) <= run_best best fives) ∧
  (run_best best fives = best ∨ ∃ five, five ∈ fives ∧ run_best best fives = score (evaluate5 five)).
Proof.
  revert best; induction fives as [|f fives IH]; intros best; simpl.
  - split_and!; [lia | intros five []%elem_of_nil | by left].
  - destruct (IH (if best <? score (evaluate5 f) then score (evaluate5 f) else best))
      as (H1 & H2 & H3). destruct (Z.ltb_spec best (score (evaluate5 f))).
    all: split_and!; [lia | intros five [->|Hf]%elem_of_cons; [lia | by apply H2] |].
    all: destruct H3 as [H3|(five & Hf & H3)];
      [|right; exists five; split; [apply elem_of_cons; by right|done]].
    + right. exists f; split; [apply elem_of_cons; by left | done].
    + by left.
Qed.

(** ** The kicker count of each category *)

Definition kickers_len (r : HandRank) : nat :=
  match r with
  | STRAIGHT_FLUSH | STRAIGHT => 1
  | FOUR_OF_A_KIND | FULL_HOUSE => 2
  | THREE_OF_A_KIND | TWO_PAIR => 3
  | PAIR => 4
  | FLUSH | HIGH_CARD => 5
  end.

(** The multiplicity of a rank. *)
Definition mult (r : Z) (ranks : list Z) : Z := Z.of_nat (length (filter (λ x, x = r) ranks)).

Lemma mult_snoc k seen r : mult k (seen ++ [r]) = mult k seen + (if decide (r = k) then 1 else 0).
Proof.
  unfold mult. rewrite filter_app, length_app. rewrite filter_cons, filter_nil.
  case_decide; simpl; lia.
Qed.

Lemma count_bump_fst r m :
  (count_bump r m).*1 = if decide (r ∈ m.*1) then m.*1 else m.*1 ++ [r].
Proof.
  induction m as [|[k c] m IH]; [done|]. simpl count_bump.
  destruct (Z.eqb_spec k r) as [->|Hne]; rewrite !fmap_cons; simpl.
  - rewrite decide_True by (apply elem_of_cons; by left). done.
  - rewrite IH. destruct (decide (r ∈ m.*1)) as [Hin|Hin].
    + rewrite decide_True by (apply elem_of_cons; by right). done.
    + rewrite decide_False; [done|]. rewrite elem_of_cons; intros [?|?]; congruence.
Qed.

Lemma count_bump_elem r m k c :
  NoDup m.*1 → (k, c) ∈ count_bump r m →
  (k ≠ r ∧ (k, c) ∈ m) ∨ (k = r ∧ ((r, c - 1) ∈ m ∨ (c = 1 ∧ r ∉ m.*1))).
Proof.
  induction m as [|[k0 c0] m IH]; simpl.
  - intros _ H%list_elem_of_singleton. simplify_eq. right. split; [done|]. right.
    split; [done | apply not_elem_of_nil].
  - rewrite NoDup_cons. intros [Hk0 Hm]. destruct (Z.eqb_spec k0 r) as [->|Hne].
    + intros [E|H]%elem_of_cons.
      * simplify_eq. right. split; [done|]. left. replace (c0 + 1 - 1) with c0 by lia.
        apply elem_of_cons; by left.
      * left. split; [|apply elem_of_cons; by right].
        intros ->. apply Hk0. by apply (list_elem_of_fmap_2 fst) in H.
    + intros [E|H]%elem_of_cons.
      * simplify_eq. left. split; [done|]. apply elem_of_cons; by left.
      * destruct (IH Hm H) as [[? ?]|[-> [?|[-> ?]]]].
        -- left. split; [done|]. apply elem_of_cons; by right.
        -- right. split; [done|]. left. apply elem_of_cons; by right.
        -- right. split; [done|]. right. split; [done|]. rewrite elem_of_cons.
           by intros [?|?]; simplify_eq/=.
Qed.

Definition counts_ok (seen : list Z) (m : list (Z * Z)) : Prop :=
  NoDup m.*1 ∧ (∀ k c, (k, c) ∈ m → c = mult k seen) ∧ (∀ k, k ∉ m.*1 → mult k seen = 0).

Lemma count_bump_ok seen m r : counts_ok seen m → counts_ok (seen ++ [r]) (count_bump r m).
Proof.
  intros (Hnd & Hc & H0). split_and!.
  - rewrite count_bump_fst. destruct (decide (r ∈ m.*1)); [done|].
    apply NoDup_app. split_and!; [done| |apply NoDup_singleton].
    intros x Hx ->%list_elem_of_singleton; done.
  - intros k c H. rewrite mult_snoc. destruct (count_bump_elem _ _ _ _ Hnd H)
      as [[Hne Hin]|[-> [Hin|[-> Hnin]]]].
    + rewrite decide_False by done. rewrite (Hc _ _ Hin); lia.
    + rewrite decide_True by done. specialize (Hc _ _ Hin); lia.
    + rewrite decide_True by done. specialize (H0 _ Hnin); lia.
  - intros k Hk. rewrite count_bump_fst in Hk. rewrite mult_snoc.
    destruct (decide (r ∈ m.*1)) as [Hr|Hr].
    + rewrite decide_False by congruence. rewrite (H0 k) by done; lia.
    + rewrite elem_of_app, list_elem_of_singleton in Hk.
      rewrite decide_False by naive_solver. rewrite (H0 k) by naive_solver; lia.
Qed.

Lemma count_map_ok ranks : counts_ok ranks (count_map ranks).
Proof.
  unfold count_map. cut (∀ seen m, counts_ok seen m →
    counts_ok (seen ++ ranks) (foldl (λ m r, count_bump r m) m ranks)).
  { intros H. apply (H [] []). split_and!; [constructor | intros ?? []%elem_of_nil | done]. }
  induction ranks as [|r ranks IH]; intros seen m H; simpl; [by rewrite app_nil_r|].
  rewrite cons_middle, app_assoc. by apply IH, count_bump_ok.
Qed.

Lemma length_filter_ne r ranks :
  Z.of_nat (length (filter (λ x, x ≠ r) ranks)) = Z.of_nat (length ranks) - mult r ranks.
Proof.
  unfold mult. induction ranks as [|x ranks IH]; [done|].
  rewrite !filter_cons. destruct (decide (x = r)); simpl;
    repeat case_decide; simpl; try done; try lia.
Qed.

(** The first count of the sorted list is the multiplicity of its rank. *)
Lemma first_count_mult ranks :
  let c0 := default (0, 0) (js_sort count_le (count_map ranks) !! 0%nat) in
  c0.2 ≠ 0 → c0.2 = mult c0.1 ranks.
Proof.
  destruct (js_sort count_le (count_map ranks) !! 0%nat) as [[r c]|] eqn:E; simpl; [|done].
  intros _. apply (proj1 (proj2 (count_map_ok ranks))).
  apply list_elem_of_lookup_2 in E. by rewrite js_sort_perm in E.
Qed.

Lemma evaluate5_kickers_len cards :
  length cards = 5%nat →
  length (hv_kickers (evaluate5 cards)) = kickers_len (hv_rank (evaluate5 cards)).
Proof.
  intros Hlen. unfold evaluate5.
  set (ranks := js_sort desc (card_rank <$> cards)).
  assert (length ranks = 5%nat) as Hr by (unfold ranks; by rewrite js_sort_length, length_fmap).
  pose proof (first_count_mult ranks) as Hc; simpl in Hc.
  pose proof (length_filter_ne (default (0, 0) (js_sort count_le (count_map ranks) !! 0%nat)).1 ranks) as Hf.
  repeat case_match; simpl; rewrite ?length_take; try lia.
  all: rewrite !andb_true_iff, ?Z.eqb_eq in *; lia.
Qed.

(** A high-card value lists all five ranks, and five distinct cards have one
    of rank at least 1. *)
Lemma sorted_desc_head ranks r rest :
  js_sort desc ranks = r :: rest → ∀ x, x ∈ ranks → x <= r.
Proof.
  intros E x Hx.
  assert (StronglySorted (λ a b, desc a b = true) (js_sort desc ranks)) as Hs.
  { apply js_sort_sorted; unfold desc; intros; lia. }
  assert (x ∈ js_sort desc ranks) as Hx' by (by rewrite js_sort_perm).
  rewrite E in Hs, Hx'. apply StronglySorted_inv in Hs as [_ Hs].
  apply elem_of_cons in Hx' as [->|Hx']; [lia|].
  eapply Forall_forall in Hs; [|done]. unfold desc in Hs; lia.
Qed.

Lemma five_cards_top_rank b :
  legal_cards b → length b = 5%nat → ∃ c, c ∈ b ∧ 1 <= card_rank c.
Proof.
  intros [Hnd Hb] Hl.
  destruct (decide (Exists (λ c, 4 <= c) b)) as [H|H].
  - apply Exists_exists in H as (c & Hc & H4). exists c. split; [done|].
    unfold card_rank. apply Z.div_le_lower_bound; lia.
  - exfalso. assert (b ⊆ seqZ 0 4) as Hsub.
    { intros c Hc. apply elem_of_seqZ. eapply Forall_forall in Hb; [|done].
      destruct (Z.le_gt_cases 4 c) as [H4|H4]; [|lia].
      destruct H. apply Exists_exists; eauto. }
    pose proof (submseteq_length _ _ (NoDup_submseteq _ _ Hnd Hsub)) as Hle.
    rewrite Hl in Hle. simpl in Hle. lia.
Qed.

Lemma evaluate5_high_card b :
  hv_rank (evaluate5 b) = HIGH_CARD →
  hv_kickers (evaluate5 b) = take 5 (js_sort desc (card_rank <$> b)).
Proof. unfold evaluate5. by repeat case_match. Qed.

Lemma high_card_lower b :
  legal_cards b → length b = 5%nat → hv_rank (evaluate5 b) = HIGH_CARD →
  15 ^ 4 <= score (evaluate5 b).
Proof.
  intros Hleg Hl Hr. pose proof Hleg as [_ Hb].
  destruct (five_cards_top_rank b Hleg Hl) as (c & Hc & H1).
  pose proof (evaluate5_kickers_ok b Hb) as Hk. pose proof (evaluate5_kickers_len b Hl) as Hlen.
  pose proof (evaluate5_high_card b Hr) as E. unfold score. rewrite Hr in Hlen |- *.
  destruct (hv_kickers (evaluate5 b)) as [|k ks] eqn:Ek; [done|].
  apply Forall_cons in Hk as [_ Hk].
  assert (js_sort desc (card_rank <$> b) = k :: ks) as Es.
  { rewrite E. rewrite take_ge; [done|]. rewrite js_sort_length, length_fmap. lia. }
  assert (card_rank c <= k) by (eapply sorted_desc_head; [exact Es|]; by apply list_elem_of_fmap_2).
  assert (Forall digit ks) as Hd.
  { eapply Forall_impl; [exact Hk|]. unfold rank_ok, digit, BASE; lia. }
  simpl. pose proof (foldl_base_bounds (0 * BASE + k) ks Hd) as [Hlow _].
  simpl in Hlen. injection Hlen as Hlen. rewrite Hlen in Hlow. simpl rank_num.
  unfold BASE in *. simpl Z.of_nat in Hlow. lia.
Qed.

(** ** Properties *)

(** C31: [evaluateHand] (shared/poker/sidePots.ts) on five or more legal cards
    returns, never throwing, the score of one of the five-card subsets, and no
    subset scores higher; the order in which hole and board cards are given is
    irrelevant. With fewer than five cards it throws. *)
Theorem evaluateHand_is_best_subset (cards : list Z)
    (Hrange : Forall (λ c, 0 <= c < 52) cards) :
  ((length cards < 5)%nat → is_ret (evaluateHand cards) = false) ∧
  ((5 ≤ length cards)%nat → ∃ five,
     five `sublist_of` cards ∧ length five = 5%nat ∧
     evaluateHand cards = Ret (score (evaluate5 five)) ∧
     (∀ f, f `sublist_of` cards → length f = 5%nat →
        score (evaluate5 f) <= score (evaluate5 five))) ∧
  (∀ cards', cards' ≡ₚ cards → evaluateHand cards' = evaluateHand cards).
Proof.
  assert (∀ cs, (5 ≤ length cs)%nat → evaluateHand cs = Ret (run_best 0 (choose 5 cs))) as Hrun.
  { intros cs H. unfold evaluateHand. by destruct (Nat.ltb_spec (length cs) 5); [lia|]. }
  split_and!.
  - intros H. unfold evaluateHand. by destruct (Nat.ltb_spec (length cards) 5); [|lia].
  - intros H. rewrite Hrun by done.
    destruct (run_best_spec 0 (choose 5 cards)) as (H0 & Hub & Hatt).
    assert (take 5 cards ∈ choose 5 cards) as Htake.
    { apply elem_of_choose. split; [apply sublist_take | rewrite length_take; lia]. }
    assert (∀ f, f `sublist_of` cards → 0 <= score (evaluate5 f)) as Hnn.
    { intros f Hf. apply score_nonneg. by eapply Forall_sublist_keep. }
    destruct Hatt as [Hatt|(five & [Hf1 Hf2]%elem_of_choose & Hatt)].
    + exists (take 5 cards). pose proof (Hub _ Htake) as Hub'. rewrite Hatt in Hub'.
      apply elem_of_choose in Htake as [Ht1 Ht2]. pose proof (Hnn _ Ht1).
      split_and!; try done; [rewrite Hatt; f_equal; lia|].
      intros f Hf Hl. specialize (Hub f). rewrite elem_of_choose in Hub.
      specialize (Hub (conj Hf Hl)); lia.
    + exists five. split_and!; try done; [by rewrite Hatt|].
      intros f Hf Hl. rewrite <- Hatt. apply Hub, elem_of_choose; done.
  - intros cards' Hp. pose proof (Permutation_length Hp) as Hl. unfold evaluateHand. rewrite Hl.
    destruct (length cards <? 5)%nat; [done|]. f_equal.
    assert (∀ a b, a ≡ₚ b → run_best 0 (choose 5 a) <= run_best 0 (choose 5 b)) as Hle.
    { intros a b Hab. destruct (run_best_spec 0 (choose 5 a)) as (_ & _ & [->|(f & Hf & ->)]).
      - by destruct (run_best_spec 0 (choose 5 b)).
      - apply elem_of_choose in Hf as [Hf Hfl].
        assert (f ⊆+ b) as Hfb by (rewrite <- Hab; by apply sublist_submseteq).
        apply submseteq_sublist_r in Hfb as (f' & Hff & Hf').
        rewrite (evaluate5_perm _ _ Hff). apply (run_best_spec 0 (choose 5 b)).
        apply elem_of_choose. split; [done|]. by rewrite <- Hff. }
    apply Z.le_antisymm; apply Hle; by rewrite Hp.
Qed.

Lemma evaluateHand_is_best_subset_witness :
  evaluateHand [51; 47; 3; 8; 12; 30; 33] = evaluateHand [33; 30; 12; 8; 3; 47; 51].
Proof.
  apply (evaluateHand_is_best_subset [33; 30; 12; 8; 3; 47; 51]).
  - repeat (apply Forall_cons; split); try apply Forall_nil; lia.
  - apply (Permutation_rev [51; 47; 3; 8; 12; 30; 33]).
Defined.

(** Within one category the comparison of [score] is the poker comparison:
    for five-card hands of the same rank, one scores less than the other
    exactly when its kicker list is lexicographically smaller. *)
Lemma score_orders_within_category (a b : list Z)
    (Ha : Forall (λ c, 0 <= c < 52) a) (Hb : Forall (λ c, 0 <= c < 52) b)
    (La : length a = 5%nat) (Lb : length b = 5%nat)
    (Hcat : hv_rank (evaluate5 a) = hv_rank (evaluate5 b)) :
  score (evaluate5 a) < score (evaluate5 b) ↔
  lex_ltb (hv_kickers (evaluate5 a)) (hv_kickers (evaluate5 b)) = true.
Proof.
  assert (∀ c, Forall (λ c, 0 <= c < 52) c → Forall digit (hv_kickers (evaluate5 c))) as Hd.
  { intros c Hc. eapply Forall_impl; [by apply evaluate5_kickers_ok|].
    unfold rank_ok, digit, BASE; lia. }
  unfold score. rewrite foldl_base_lex.
  - rewrite Hcat. split; [intros [?|[_ ?]]; [lia|done] | by right].
  - by apply Hd.
  - by apply Hd.
  - by rewrite !evaluate5_kickers_len, Hcat.
Qed.

(** Two pairs: kings up lose to aces up. *)
Lemma score_orders_within_category_witness :
  score (evaluate5 [44; 45; 4; 5; 20]) < score (evaluate5 [48; 49; 0; 1; 8]).
Proof.
  apply (score_orders_within_category [44; 45; 4; 5; 20] [48; 49; 0; 1; 8]).
  - repeat (apply Forall_cons; split); try apply Forall_nil; lia.
  - repeat (apply Forall_cons; split); try apply Forall_nil; lia.
  - reflexivity.
  - reflexivity.
  - reflexivity.
  - reflexivity.
Defined.

(** Across categories [score] does not follow the hand ranking: the lists
    of kickers have different lengths, and the category digit is not padded to
    a common width. Every straight flush scores below every legal five-card
    hand that is neither a straight flush nor a straight, so it loses to any
    bare high card. *)
Lemma straight_flush_scores_below_high_card (a b : list Z)
    (Ha : Forall (λ c, 0 <= c < 52) a) (Hb : legal_cards b)
    (La : length a = 5%nat) (Lb : length b = 5%nat)
    (Hsf : hv_rank (evaluate5 a) = STRAIGHT_FLUSH)
    (Hnot : hv_rank (evaluate5 b) ≠ STRAIGHT_FLUSH ∧ hv_rank (evaluate5 b) ≠ STRAIGHT) :
  score (evaluate5 a) < score (evaluate5 b).
Proof.
  destruct Hb as [Hnd Hb].
  pose proof (evaluate5_kickers_len a La) as Lka. pose proof (evaluate5_kickers_len b Lb) as Lkb.
  pose proof (evaluate5_kickers_ok a Ha) as Hka. pose proof (evaluate5_kickers_ok b Hb) as Hkb.
  assert (score (evaluate5 a) <= 132) as Hsa.
  { unfold score. rewrite Hsf in *.
    destruct (hv_kickers (evaluate5 a)) as [|k [|? ?]]; try done.
    apply Forall_cons in Hka as [Hk _]. unfold rank_ok, BASE in *; simpl; lia. }
  assert (Forall digit (hv_kickers (evaluate5 b))) as Hd.
  { eapply Forall_impl; [exact Hkb|]. unfold rank_ok, digit, BASE; lia. }
  pose proof (foldl_base_bounds (rank_num (hv_rank (evaluate5 b))) _ Hd) as [Hlow _].
  fold (score (evaluate5 b)) in Hlow. rewrite Lkb in Hlow.
  destruct (hv_rank (evaluate5 b)) eqn:Er; simpl in Hlow; unfold BASE in Hlow; try lia;
    try (destruct Hnot; congruence).
  (* a high card: some rank is at least 1, so the leading digit is *)
  enough (15 ^ 4 <= score (evaluate5 b)) by lia.
  apply high_card_lower; done.
Qed.

Lemma straight_flush_scores_below_high_card_witness :
  score (evaluate5 [11; 15; 19; 23; 27]) < score (evaluate5 [5; 9; 14; 18; 28]).
Proof.
  apply (straight_flush_scores_below_high_card [11; 15; 19; 23; 27] [5; 9; 14; 18; 28]).
  - repeat (apply Forall_cons; split); try apply Forall_nil; lia.
  - split; [apply (bool_decide_unpack _); vm_compute; exact I|].
    repeat (apply Forall_cons; split); try apply Forall_nil; lia.
  - reflexivity.
  - reflexivity.
  - reflexivity.
  - split; vm_compute; discriminate.
Defined.
