(* ===== verification/SidePots.v ===== *)
(** * Table state and pot settlement

    The state of a hand ([GameStateInternal] of backend/src/game/state-machine.ts)
    and the pot logic of shared/poker/sidePots.ts: [calculateSidePots] and
    [settlePots], which mutates the players' stacks. Players are addressed by
    their seat index, as the code's object references are. *)

From S2P Require Import Prelude HandEval.
#[local] Open Scope Z_scope.

Inductive Street := preflop | flop | turn | river | showdown.
#[export] Instance Street_eq_dec : EqDecision Street.
Proof. solve_decision. Defined.

Inductive HandPhase :=
| WAIT_BLINDS | DEAL | BETTING_ROUND | SHOWDOWN | SETTLE | NEXT_HAND.
#[export] Instance HandPhase_eq_dec : EqDecision HandPhase.
Proof. solve_decision. Defined.

Record PlayerStateInternal := Player {
  p_id : string;
  p_stack : Z;
  p_folded : bool;
  p_bet : Z;
  p_allIn : bool;
  p_holeCards : option (list Z) }.

Record SidePot := {
  sp_amount : Z;
  sp_players : list string;
  sp_contributions : list (string * Z) }.

Record GameStateInternal := GameState {
  g_phase : HandPhase;
  g_street : Street;
  g_pot : Z;
  g_sidePots : list SidePot;
  g_currentBet : Z;
  g_players : list PlayerStateInternal;
  g_deck : list Z;
  g_communityCards : list Z }.

(** ** [calculateSidePots] *)

Record SidePotResult := { r_main : Z; r_sidePots : list Z }.

Fixpoint pot_layers (prev : Z) (commitments : list Z) : list Z :=
  match commitments with
  | [] => []
  | c :: rest =>
      let remaining := Z.of_nat (length commitments) in
      let diff := c - prev in
      if (0 <? diff) && (1 <? remaining) then diff * remaining :: pot_layers c rest
      else pot_layers prev rest
  end.

Definition commitments_of (players : list (option Z)) : list Z :=
  js_sort asc (filter (λ c, 0 < c) ((λ p, default 0 p) <$> players)).

Definition calculateSidePots (players : list (option Z)) (totalPot : Z) : SidePotResult :=
  let layers := pot_layers 0 (commitments_of players) in
  let sidePots := drop 1 layers in
  {| r_main := totalPot - sumZ sidePots; r_sidePots := sidePots |}.

(** ** [settlePots] *)

Definition set_stack (f : Z → Z) (p : PlayerStateInternal) : PlayerStateInternal :=
  {| p_id := p_id p; p_stack := f (p_stack p); p_folded := p_folded p; p_bet := p_bet p;
     p_allIn := p_allIn p; p_holeCards := p_holeCards p |}.

(** [state.players.filter((p) => !p.folded)], as seat indices. *)
Definition seat_active (ps : list PlayerStateInternal) (i : nat) : bool :=
  match ps !! i with Some p => negb (p_folded p) | None => false end.
Definition active_seats (ps : list PlayerStateInternal) : list nat :=
  filter (λ i, seat_active ps i) (seq 0 (length ps)).

(** [evaluateHand] inside the [try]: a throw scores 0. *)
Definition hand_score (board : list Z) (p : PlayerStateInternal) : Z :=
  match evaluateHand (default [] (p_holeCards p) ++ board) with
  | Ret s => s
  | Throw _ => 0
  end.

(** [scores]: a map keyed by player id, filled in seat order. *)
Definition scores_of (board : list Z) (ps : list PlayerStateInternal) : gmap string Z :=
  foldl (λ m i, match ps !! i with
                | Some p => <[p_id p := hand_score board p]> m
                | None => m
                end) ∅ (active_seats ps).

Definition seat_id (ps : list PlayerStateInternal) (i : nat) : string :=
  match ps !! i with Some p => p_id p | None => EmptyString end.

Definition seat_score (scores : gmap string Z) (ps : list PlayerStateInternal) (i : nat) : Z :=
  default 0 (scores !! seat_id ps i).

Definition contenders (ps : list PlayerStateInternal) (pot : SidePot) : list nat :=
  filter (λ i, seat_id ps i ∈ sp_players pot) (active_seats ps).

(** [Math.max(...scores)] of a non-empty list. *)
Definition max_of (l : list Z) : Z :=
  match l with [] => 0 | x :: l' => foldl Z.max x l' end.

Definition winners (scores : gmap string Z) (ps : list PlayerStateInternal) (pot : SidePot) : list nat :=
  let cs := contenders ps pot in
  let best := max_of (seat_score scores ps <$> cs) in
  filter (λ i, seat_score scores ps i = best) cs.

Definition settle_pot (scores : gmap string Z) (ps : list PlayerStateInternal) (pot : SidePot)
    : list PlayerStateInternal :=
  match contenders ps pot with
  | [] => ps
  | _ =>
      let ws := winners scores ps pot in
      let n := Z.of_nat (length ws) in
      let share := sp_amount pot / n in
      let ps1 := foldl (λ acc w, alter (set_stack (Z.add share)) w acc) ps ws in
      let remainder := sp_amount pot - share * n in
      match ws with
      | w0 :: _ => if 0 <? remainder then alter (set_stack (Z.add remainder)) w0 ps1 else ps1
      | [] => ps1
      end
  end.

Definition pots_to_settle (s : GameStateInternal) : list SidePot :=
  match g_sidePots s with
  | [] =>
      let ids := seat_id (g_players s) <$> active_seats (g_players s) in
      [{| sp_amount := g_pot s; sp_players := ids; sp_contributions := (λ i, (i, 0)) <$> ids |}]
  | pots => pots
  end.

Definition settlePots (s : GameStateInternal) : GameStateInternal :=
  match active_seats (g_players s) with
  | [] => s
  | _ =>
      let scores := scores_of (g_communityCards s) (g_players s) in
      {| g_phase := g_phase s; g_street := g_street s; g_pot := 0; g_sidePots := [];
         g_currentBet := g_currentBet s;
         g_players := foldl (settle_pot scores) (g_players s) (pots_to_settle s);
         g_deck := g_deck s; g_communityCards := g_communityCards s |}
  end.

(** ** What a pot pays, declaratively *)

(** The amount seat [i] draws from [pot]: an equal floor share for every best
    hand among the contenders, the odd chips to the first of them. *)
Definition payout (scores : gmap string Z) (ps : list PlayerStateInternal) (pot : SidePot) (i : nat) : Z :=
  let ws := winners scores ps pot in
  let n := Z.of_nat (length ws) in
  if decide (i ∈ ws) then
    sp_amount pot / n + (if decide (head ws = Some i) then sp_amount pot mod n else 0)
  else 0.

Definition contended (ps : list PlayerStateInternal) (pot : SidePot) : bool :=
  bool_decide (contenders ps pot ≠ []).

(** ** Settlement as payouts *)

(** The part of a table that settlement reads but never writes. *)
Definition seat_key (p : PlayerStateInternal) : string * bool := (p_id p, p_folded p).

Definition same_seats (ps ps' : list PlayerStateInternal) : Prop :=
  seat_key <$> ps = seat_key <$> ps'.

Section SameSeats.
Context (ps ps' : list PlayerStateInternal) (Hsame : same_seats ps ps').

Lemma same_seats_lookup i : seat_key <$> ps !! i = seat_key <$> ps' !! i.
Proof. by rewrite <- !list_lookup_fmap, Hsame. Qed.

Lemma same_seats_id i : seat_id ps i = seat_id ps' i.
Proof.
  pose proof (same_seats_lookup i) as H. unfold seat_id.
  destruct (ps !! i), (ps' !! i); simplify_eq/=; done.
Qed.

Lemma same_seats_active : active_seats ps = active_seats ps'.
Proof.
  assert (length ps = length ps') as Hl
    by (rewrite <- (length_fmap seat_key ps), Hsame; apply length_fmap).
  unfold active_seats. rewrite Hl. apply list_filter_iff. intros i.
  pose proof (same_seats_lookup i) as H. unfold seat_active.
  destruct (ps !! i), (ps' !! i); try done. injection H as _ ->. done.
Qed.

Lemma same_seats_contenders pot : contenders ps pot = contenders ps' pot.
Proof.
  unfold contenders. rewrite same_seats_active. apply list_filter_iff. intros i.
  by rewrite same_seats_id.
Qed.

Lemma same_seats_winners scores pot : winners scores ps pot = winners scores ps' pot.
Proof.
  unfold winners. rewrite same_seats_contenders.
  assert (∀ i, seat_score scores ps i = seat_score scores ps' i) as Hs
    by (intros i; unfold seat_score; by rewrite same_seats_id).
  rewrite (list_fmap_ext (seat_score scores ps) (seat_score scores ps')
    (contenders ps' pot)) by (intros; apply Hs).
  apply list_filter_iff. intros i. by rewrite Hs.
Qed.

Lemma same_seats_payout scores pot i : payout scores ps pot i = payout scores ps' pot i.
Proof. unfold payout. by rewrite same_seats_winners. Qed.
End SameSeats.

Lemma max_of_spec l : l ≠ [] → max_of l ∈ l ∧ ∀ x, x ∈ l → x <= max_of l.
Proof.
  destruct l as [|x l]; [done|]. intros _. simpl. revert x.
  induction l as [|y l IH]; intros x; simpl.
  - split; [apply list_elem_of_singleton; done | intros z ->%list_elem_of_singleton; lia].
  - destruct (IH (Z.max x y)) as [Hin Hub]. split.
    + apply elem_of_cons in Hin as [E|Hin]; [|apply elem_of_cons; right; apply elem_of_cons; by right].
      rewrite E. destruct (Z.max_spec x y) as [[_ ->]|[_ ->]].
      * apply elem_of_cons; right; apply elem_of_cons; by left.
      * apply elem_of_cons; by left.
    + intros z [->|[->|Hz]%elem_of_cons]%elem_of_cons;
        try (specialize (Hub (Z.max x y) ltac:(apply elem_of_cons; by left)); lia).
      apply Hub, elem_of_cons; by right.
Qed.

Lemma winners_nonempty scores ps pot : contenders ps pot ≠ [] → winners scores ps pot ≠ [].
Proof.
  intros Hc. unfold winners.
  destruct (max_of_spec (seat_score scores ps <$> contenders ps pot)) as [Hin _].
  { by destruct (contenders ps pot). }
  apply list_elem_of_fmap in Hin as (i & Hi & Hic). intros E.
  assert (i ∈ []) as []%elem_of_nil. rewrite <- E. by apply list_elem_of_filter.
Qed.

Lemma NoDup_active ps : NoDup (active_seats ps).
Proof. apply NoDup_filter, NoDup_seq. Qed.

Lemma NoDup_winners scores ps pot : NoDup (winners scores ps pot).
Proof. by apply NoDup_filter, NoDup_filter, NoDup_active. Qed.

Lemma winners_active scores ps pot i : i ∈ winners scores ps pot → i ∈ active_seats ps.
Proof. intros [_ [_ H]%list_elem_of_filter]%list_elem_of_filter. done. Qed.

Lemma foldl_alter_lookup (f : PlayerStateInternal → PlayerStateInternal) (ws : list nat)
    (ps : list PlayerStateInternal) (i : nat) :
  NoDup ws →
  foldl (λ acc w, alter f w acc) ps ws !! i = (if decide (i ∈ ws) then f <$> ps !! i else ps !! i).
Proof.
  revert ps; induction ws as [|w ws IH]; intros ps Hws.
  - simpl foldl. by case_decide as Hi; [apply elem_of_nil in Hi|].
  - apply NoDup_cons in Hws as [Hw Hnd]. simpl foldl. rewrite IH by done.
    destruct (decide (i = w)) as [->|Hne].
    + rewrite decide_False by done. rewrite decide_True by (apply elem_of_cons; by left).
      by rewrite list_lookup_alter_eq.
    + rewrite list_lookup_alter_ne by done.
      destruct (decide (i ∈ ws)); [rewrite decide_True|rewrite decide_False]; try done.
      * apply elem_of_cons; by right.
      * rewrite elem_of_cons; by intros [?|?].
Qed.

Lemma set_stack_id p : set_stack (Z.add 0) p = p.
Proof. by destruct p. Qed.

Lemma set_stack_add a b p : set_stack (Z.add a) (set_stack (Z.add b) p) = set_stack (Z.add (a + b)) p.
Proof. unfold set_stack; simpl. f_equal; lia. Qed.

(** Shares to every seat of [ws], the remainder to its head. *)
Lemma pay_lookup (amount : Z) (w0 : nat) (ws : list nat) (ps : list PlayerStateInternal) (i : nat) :
  let n := Z.of_nat (length (w0 :: ws)) in
  let ps1 := foldl (λ acc w, alter (set_stack (Z.add (amount / n))) w acc) ps (w0 :: ws) in
  NoDup (w0 :: ws) →
  (if 0 <? amount - amount / n * n then alter (set_stack (Z.add (amount - amount / n * n))) w0 ps1
   else ps1) !! i
  = set_stack (Z.add (if decide (i ∈ w0 :: ws)
      then amount / n + (if decide (head (w0 :: ws) = Some i) then amount mod n else 0) else 0))
    <$> ps !! i.
Proof.
  intros n ps1 Hnd.
  assert (0 < n) as Hn by (unfold n; simpl; lia).
  pose proof (Z.mod_pos_bound amount n Hn) as Hmod.
  replace (amount - amount / n * n) with (amount mod n)
    by (pose proof (Z.div_mod amount n); lia).
  assert (∀ j, ps1 !! j = (if decide (j ∈ w0 :: ws)
    then set_stack (Z.add (amount / n)) <$> ps !! j else ps !! j)) as Hl
    by (intros j; by apply foldl_alter_lookup).
  clearbody ps1 n. destruct (Z.ltb_spec 0 (amount mod n)) as [Hr|Hr].
  - destruct (decide (i = w0)) as [->|Hi].
    + rewrite list_lookup_alter_eq, Hl, !decide_True by (done || (apply elem_of_cons; by left)).
      destruct (ps !! w0); simpl; [|done]. rewrite set_stack_add. do 3 f_equal; lia.
    + rewrite list_lookup_alter_ne, Hl by done. simpl head.
      rewrite (decide_False (P := Some w0 = Some i)) by congruence. rewrite Z.add_0_r.
      case_decide; [done|]. destruct (ps !! i); simpl; by rewrite ?set_stack_id.
  - rewrite Hl. replace (amount mod n) with 0 by lia.
    case_decide.
    + by case_decide; rewrite Z.add_0_r.
    + destruct (ps !! i); simpl; by rewrite ?set_stack_id.
Qed.

(** One pot adds exactly [payout] to every seat. *)
Lemma settle_pot_lookup scores ps pot i :
  settle_pot scores ps pot !! i = set_stack (Z.add (payout scores ps pot i)) <$> ps !! i.
Proof.
  unfold settle_pot, payout.
  destruct (contenders ps pot) as [|c cs] eqn:Ec.
  - unfold winners. rewrite Ec, filter_nil. case_decide as Hi; [by apply elem_of_nil in Hi|].
    destruct (ps !! i); simpl; by rewrite ?set_stack_id.
  - pose proof (winners_nonempty scores ps pot) as Hne. rewrite Ec in Hne. specialize (Hne ltac:(done)).
    pose proof (NoDup_winners scores ps pot) as Hnd.
    destruct (winners scores ps pot) as [|w0 ws]; [done|].
    by apply pay_lookup.
Qed.

Lemma settle_pot_same_seats scores ps pot : same_seats (settle_pot scores ps pot) ps.
Proof.
  apply list_eq; intros i. rewrite !list_lookup_fmap, settle_pot_lookup.
  by destruct (ps !! i).
Qed.

Lemma settle_pots_lookup scores ps pots i :
  foldl (settle_pot scores) ps pots !! i
  = set_stack (Z.add (sum_by (λ pot, payout scores ps pot i) pots)) <$> ps !! i.
Proof.
  revert ps; induction pots as [|pot pots IH]; intros ps; simpl.
  - destruct (ps !! i); simpl; by rewrite ?set_stack_id.
  - rewrite IH, settle_pot_lookup, <- option_fmap_compose.
    destruct (ps !! i) as [p|]; simpl; [|done]. rewrite set_stack_add.
    do 3 f_equal. rewrite sum_by_cons.
    rewrite (sum_by_ext _ (λ pot, payout scores ps pot i) pots);
      [lia|]. intros pot' _. apply same_seats_payout, settle_pot_same_seats.
Qed.

(** The seats of a table together receive the whole pot, if anyone contends it. *)
Lemma payout_total scores ps pot :
  sum_by (payout scores ps pot) (seq 0 (length ps))
  = if contended ps pot then sp_amount pot else 0.
Proof.
  unfold payout, contended.
  pose proof (NoDup_winners scores ps pot) as Hnd.
  assert (∀ w, w ∈ winners scores ps pot → w ∈ seq 0 (length ps)) as Hsub.
  { intros w [_ Hw]%winners_active%list_elem_of_filter. done. }
  rewrite (sum_by_filter_split _ (λ i, i ∈ winners scores ps pot)).
  rewrite (sum_by_ext _ (λ _, 0) (filter (λ i, i ∉ winners scores ps pot) _)).
  2: { intros i [Hi _]%list_elem_of_filter. by rewrite decide_False. }
  rewrite sum_by_const, Z.mul_0_l, Z.add_0_r.
  assert (filter (λ i, i ∈ winners scores ps pot) (seq 0 (length ps)) ≡ₚ winners scores ps pot) as ->.
  { apply NoDup_Permutation; [apply NoDup_filter, NoDup_seq | done|].
    intros i. rewrite list_elem_of_filter. split; [by intros [? _] | auto]. }
  destruct (decide (contenders ps pot = [])) as [Ec|Ec].
  - rewrite bool_decide_eq_false_2 by naive_solver.
    unfold winners. by rewrite Ec, filter_nil.
  - rewrite bool_decide_eq_true_2 by done.
    pose proof (winners_nonempty scores ps pot Ec) as Hne.
    destruct (winners scores ps pot) as [|w0 ws]; [done|]. clear Hsub Ec Hne.
    set (n := Z.of_nat (length (w0 :: ws))).
    assert (0 < n) as Hn by (unfold n; simpl; lia).
    rewrite (sum_by_ext _ (λ i, sp_amount pot / n
      + (if decide (head (w0 :: ws) = Some i) then sp_amount pot mod n else 0)))
      by (intros i Hi; by rewrite decide_True).
    rewrite sum_by_add, sum_by_const. rewrite sum_by_cons.
    rewrite decide_True by done.
    rewrite (sum_by_ext _ (λ _, 0) ws).
    2: { intros i Hi. rewrite decide_False; [done|]. simpl. apply NoDup_cons in Hnd as [Hw _].
         congruence. }
    rewrite sum_by_const. fold n. pose proof (Z.div_mod (sp_amount pot) n); lia.
Qed.

(** ** Layers of commitments *)

(** The second highest commitment: what is committed above it is uncalled. *)
Fixpoint called_cap (prev : Z) (cs : list Z) : Z :=
  match cs with
  | [] => prev
  | c :: rest => match rest with [] => prev | _ => called_cap c rest end
  end.

Lemma asc_total x y : asc x y = true ∨ asc y x = true.
Proof. unfold asc. rewrite !Z.leb_le. lia. Qed.
Lemma asc_trans x y z : asc x y = true → asc y z = true → asc x z = true.
Proof. unfold asc. rewrite !Z.leb_le. lia. Qed.

Lemma called_cap_ge prev cs :
  StronglySorted (λ a b, asc a b = true) (prev :: cs) → prev <= called_cap prev cs.
Proof.
  revert prev; induction cs as [|c cs IH]; intros prev Hs; simpl; [lia|].
  inversion Hs as [|? ? Hcs Hp]; subst. inversion Hp as [|? ? Hpc _]; subst.
  unfold asc in Hpc. apply Z.leb_le in Hpc.
  destruct cs; [lia|]. specialize (IH c Hcs). lia.
Qed.

Lemma pot_layers_sum prev cs :
  StronglySorted (λ a b, asc a b = true) (prev :: cs) →
  sumZ (pot_layers prev cs) = sum_by (λ c, Z.min c (called_cap prev cs) - prev) cs.
Proof.
  revert prev; induction cs as [|c cs IH]; intros prev Hs; [done|].
  inversion Hs as [|? ? Hcs Hp]; subst. inversion Hp as [|? ? Hpc _]; subst.
  unfold asc in Hpc. apply Z.leb_le in Hpc.
  destruct cs as [|d cs].
  - cbn [pot_layers length]. rewrite andb_false_r. simpl. rewrite sum_by_cons, sum_by_nil. lia.
  - pose proof (called_cap_ge c (d :: cs) Hcs) as Hcap. specialize (IH c Hcs).
    change (called_cap prev (c :: d :: cs)) with (called_cap c (d :: cs)).
    rewrite sum_by_cons. assert (0 < length (d :: cs))%nat as Hlen by (simpl; lia).
    remember (d :: cs) as rest. clear Heqrest.
    assert (sum_by (λ x, Z.min x (called_cap c rest) - prev) rest
            = sumZ (pot_layers c rest) + (c - prev) * Z.of_nat (length rest)) as ->.
    { rewrite IH, <- sum_by_const, <- sum_by_add. apply sum_by_ext. intros; lia. }
    cbn [pot_layers]. rewrite length_cons, Nat2Z.inj_succ.
    destruct (Z.ltb_spec 0 (c - prev)); simpl.
    + destruct (Z.ltb_spec 1 (Z.succ (Z.of_nat (length rest)))); simpl; lia.
    + assert (c = prev) as -> by lia. lia.
Qed.

Lemma pot_layers_pos prev cs : Forall (Z.lt 0) (pot_layers prev cs).
Proof.
  revert prev; induction cs as [|c cs IH]; intros prev; cbn [pot_layers]; [constructor|].
  destruct ((0 <? c - prev) && (1 <? Z.of_nat (length (c :: cs)))) eqn:E; [|apply IH].
  apply andb_true_iff in E as [E1%Z.ltb_lt E2%Z.ltb_lt].
  constructor; [nia | apply IH].
Qed.

(** [calculateSidePots] splits the pot into a main pot and side pots. Every
    side pot is positive, main and side pots add up to the total, and the main
    pot is the first layer plus whatever the layers do not cover, which for
    [totalPot] equal to the commitments is exactly the uncalled excess over the
    second highest commitment. *)
Lemma calculateSidePots_layers (players : list (option Z)) (totalPot : Z)
    (Hpot : totalPot = sumZ (commitments_of players)) :
  let r := calculateSidePots players totalPot in
  let cs := commitments_of players in
  Forall (Z.lt 0) (r_sidePots r) ∧
  r_main r + sumZ (r_sidePots r) = totalPot ∧
  r_main r = default 0 (head (pot_layers 0 cs))
             + sum_by (λ c, Z.max 0 (c - called_cap 0 cs)) cs.
Proof.
  intros r cs. split_and!.
  - apply (Forall_drop _ 1), pot_layers_pos.
  - unfold r, calculateSidePots; simpl. lia.
  - assert (StronglySorted (λ a b, asc a b = true) (0 :: cs)) as Hs.
    { constructor; [apply js_sort_sorted; [apply asc_total | apply asc_trans]|].
      unfold cs, commitments_of. rewrite js_sort_perm. apply Forall_forall.
      intros x [Hx _]%list_elem_of_filter. unfold asc. apply Z.leb_le. lia. }
    pose proof (pot_layers_sum 0 cs Hs) as Hsum.
    unfold r, calculateSidePots; simpl. fold cs. rewrite Hpot. fold cs.
    assert (sumZ cs = sum_by (λ c, Z.min c (called_cap 0 cs) - 0) cs
                      + sum_by (λ c, Z.max 0 (c - called_cap 0 cs)) cs) as ->.
    { rewrite <- sum_by_add. unfold sum_by at 1.
      rewrite <- (list_fmap_id cs) at 1. apply (sum_by_ext id _ cs). intros; unfold id; lia. }
    rewrite <- Hsum. destruct (pot_layers 0 cs); simpl; rewrite ?drop_0; lia.
Qed.

Lemma calculateSidePots_layers_witness :
  let r := calculateSidePots [Some 10; Some 25; None; Some 40] 75 in
  Forall (Z.lt 0) (r_sidePots r) ∧ r_main r + sumZ (r_sidePots r) = 75 ∧ r_main r = 30 + 15.
Proof. exact (calculateSidePots_layers [Some 10; Some 25; None; Some 40] 75 eq_refl). Defined.

(** ** Settlement of a whole table *)

Definition chips_on_stacks (ps : list PlayerStateInternal) : Z := sum_by p_stack ps.

Definition uncontended_amount (s : GameStateInternal) : Z :=
  sum_by sp_amount (filter (λ pot, contended (g_players s) pot = false) (pots_to_settle s)).

Lemma sum_by_seats (f : PlayerStateInternal → Z) (ps : list PlayerStateInternal) :
  sum_by f ps = sum_by (λ i, from_option f 0 (ps !! i)) (seq 0 (length ps)).
Proof.
  induction ps as [|p ps IH]; [done|].
  rewrite sum_by_cons, IH. cbn [length seq]. rewrite sum_by_cons. cbn [lookup list_lookup from_option].
  rewrite <- fmap_S_seq, sum_by_fmap. done.
Qed.

Lemma settle_pots_stacks scores ps pots :
  chips_on_stacks (foldl (settle_pot scores) ps pots)
  = chips_on_stacks ps + sum_by sp_amount (filter (λ pot, contended ps pot = true) pots).
Proof.
  unfold chips_on_stacks. rewrite !sum_by_seats.
  assert (length (foldl (settle_pot scores) ps pots) = length ps) as ->.
  { apply Nat.le_antisymm; apply Nat.nlt_ge; intros Hlt.
    - apply lookup_lt_is_Some_2 in Hlt. rewrite settle_pots_lookup in Hlt.
      rewrite fmap_is_Some in Hlt. apply lookup_lt_is_Some in Hlt. lia.
    - assert (is_Some (foldl (settle_pot scores) ps pots !! length (foldl (settle_pot scores) ps pots)))
        as H%lookup_lt_is_Some; [|lia].
      rewrite settle_pots_lookup, fmap_is_Some. by apply lookup_lt_is_Some. }
  rewrite (sum_by_ext _ (λ i, from_option p_stack 0 (ps !! i)
    + sum_by (λ pot, payout scores ps pot i) pots) (seq 0 (length ps))).
  2: { intros i Hi%elem_of_seq. rewrite settle_pots_lookup.
       destruct (lookup_lt_is_Some_2 ps i) as [p Hp]; [lia|]. rewrite Hp; simpl. lia. }
  rewrite sum_by_add. f_equal.
  induction pots as [|pot pots IH]; [exact (sum_by_const 0 _)|].
  rewrite (sum_by_ext _ (λ i, payout scores ps pot i + sum_by (λ pot, payout scores ps pot i) pots)
    (seq 0 (length ps))) by (intros i _; apply (sum_by_cons (λ pot, payout scores ps pot i))).
  rewrite sum_by_add, payout_total, filter_cons, IH.
  destruct (contended ps pot); [rewrite decide_True | rewrite decide_False]; try done.
Qed.

Lemma settlePots_stacks s :
  active_seats (g_players s) ≠ [] →
  chips_on_stacks (g_players (settlePots s)) + uncontended_amount s
  = chips_on_stacks (g_players s) + sum_by sp_amount (pots_to_settle s).
Proof.
  intros Ha. unfold settlePots, uncontended_amount.
  destruct (active_seats (g_players s)) eqn:E; [done|]. simpl g_players. rewrite settle_pots_stacks.
  rewrite (sum_by_filter_split sp_amount (λ pot, contended (g_players s) pot = true) (pots_to_settle s)).
  rewrite (list_filter_iff (λ pot, ¬ contended (g_players s) pot = true)
    (λ pot, contended (g_players s) pot = false)); [lia|].
  intros pot. destruct (contended (g_players s) pot); naive_solver.
Qed.

(** C4: [settlePots] pays every seat exactly its payouts: for each pot an equal
    floor share to every best hand among the contenders, the odd chips to the
    first of them, nothing to anyone else; it clears the pot and the side pots,
    and the chips on the stacks grow by the amounts of the contended pots. *)
Theorem settlePots_pays_each_pot (s : GameStateInternal)
    (Hactive : active_seats (g_players s) ≠ []) :
  let sc := scores_of (g_communityCards s) (g_players s) in
  let s' := settlePots s in
  (∀ i, g_players s' !! i
        = set_stack (Z.add (sum_by (λ pot, payout sc (g_players s) pot i) (pots_to_settle s)))
          <$> g_players s !! i) ∧
  g_pot s' = 0 ∧ g_sidePots s' = [] ∧
  chips_on_stacks (g_players s') + uncontended_amount s
  = chips_on_stacks (g_players s) + sum_by sp_amount (pots_to_settle s).
Proof.
  intros sc s'. split_and!; [..|by apply settlePots_stacks];
    unfold s', settlePots; destruct (active_seats (g_players s)) eqn:E; try done.
  intros i. apply settle_pots_lookup.
Qed.

Definition witness_player (id : string) (stack : Z) (folded : bool) (cards : list Z) : PlayerStateInternal :=
  {| p_id := id; p_stack := stack; p_folded := folded; p_bet := 0; p_allIn := false;
     p_holeCards := Some cards |}.

Definition witness_table : GameStateInternal :=
  {| g_phase := SHOWDOWN; g_street := showdown; g_pot := 45;
     g_sidePots := [{| sp_amount := 45; sp_players := ["a"; "b"; "c"]; sp_contributions := [] |}];
     g_currentBet := 0;
     g_players := [witness_player "a" 5 false [48; 44]; witness_player "b" 0 false [49; 45];
                   witness_player "c" 7 true [50; 51]];
     g_deck := []; g_communityCards := [0; 5; 10; 23; 24] |}%string.

Lemma settlePots_pays_each_pot_witness :
  g_pot (settlePots witness_table) = 0 ∧
  (p_stack <$> g_players (settlePots witness_table)) = [28; 22; 7] ∧
  chips_on_stacks (g_players (settlePots witness_table)) + uncontended_amount witness_table
  = chips_on_stacks (g_players witness_table) + sum_by sp_amount (pots_to_settle witness_table).
Proof.
  destruct (settlePots_pays_each_pot witness_table) as (_ & Hpot & _ & Hsum); [done|].
  split_and!; [exact Hpot | vm_compute; reflexivity | exact Hsum].
Defined.

(** only best hands are paid. A seat that draws chips from a pot has not
    folded, is eligible for that pot and no contender of it holds a better
    hand; two winners of one pot differ by less than the number of winners. *)
Lemma payout_only_to_best_hands (s : GameStateInternal) (pot : SidePot) (i : nat)
    (Hpaid : payout (scores_of (g_communityCards s) (g_players s)) (g_players s) pot i ≠ 0) :
  let ps := g_players s in
  let sc := scores_of (g_communityCards s) ps in
  seat_active ps i = true ∧ seat_id ps i ∈ sp_players pot ∧
  (∀ j, j ∈ contenders ps pot → seat_score sc ps j <= seat_score sc ps i) ∧
  (∀ j, j ∈ winners sc ps pot →
     Z.abs (payout sc ps pot i - payout sc ps pot j) < Z.of_nat (length (winners sc ps pot))).
Proof.
  intros ps sc. unfold payout in Hpaid. fold ps sc in Hpaid.
  case_decide as Hi; [|done]. clear Hpaid.
  pose proof Hi as Hi'. apply list_elem_of_filter in Hi' as [Hbest Hc].
  pose proof Hc as Hc'. apply list_elem_of_filter in Hc' as [Hel Hact].
  apply list_elem_of_filter in Hact as [Hact _].
  split_and!; [by destruct (seat_active ps i) | done | |].
  - intros j Hj. rewrite Hbest.
    destruct (max_of_spec (seat_score sc ps <$> contenders ps pot)) as [_ Hub].
    { destruct (contenders ps pot); [by apply elem_of_nil in Hc | done]. }
    apply Hub. by apply list_elem_of_fmap_2.
  - intros j Hj. unfold payout. rewrite !decide_True by done.
    assert (0 < Z.of_nat (length (winners sc ps pot))) as Hn.
    { destruct (winners sc ps pot); [by apply elem_of_nil in Hi | simpl; lia]. }
    pose proof (Z.mod_pos_bound (sp_amount pot) _ Hn) as Hr.
    revert Hr. generalize (sp_amount pot / Z.of_nat (length (winners sc ps pot))).
    generalize (sp_amount pot mod Z.of_nat (length (winners sc ps pot))).
    intros r q Hr. repeat case_decide; done || lia.
Qed.

Lemma payout_only_to_best_hands_witness :
  seat_active (g_players witness_table) 0 = true.
Proof.
  refine (proj1 (payout_only_to_best_hands witness_table
    {| sp_amount := 45; sp_players := ["a"; "b"]%string; sp_contributions := [] |} 0 _)).
  vm_compute. discriminate.
Defined.

Lemma settlePots_settled s : g_pot s = 0 → g_sidePots s = [] → settlePots s = s.
Proof.
  destruct s as [ph st pot sides cb ps deck comm]; simpl; intros -> ->.
  unfold settlePots; simpl. destruct (active_seats ps) eqn:E; [done|]. f_equal.
  apply list_eq. intros i. rewrite settle_pot_lookup. unfold payout; simpl sp_amount.
  rewrite Zdiv_0_l, Zmod_0_l.
  repeat case_decide; simpl; destruct (ps !! i); simpl; by rewrite ?set_stack_id.
Qed.

Lemma settlePots_clears s :
  active_seats (g_players s) ≠ [] → g_pot (settlePots s) = 0 ∧ g_sidePots (settlePots s) = [].
Proof. unfold settlePots. by destruct (active_seats (g_players s)). Qed.

(** Settling a settled table changes nothing. The engine settles twice, in
    the state machine's showdown step and again in [GameEngine.settle]: the
    second call pays an empty pot. *)
Lemma settlePots_idempotent (s : GameStateInternal) :
  settlePots (settlePots s) = settlePots s.
Proof.
  destruct (decide (active_seats (g_players s) = [])) as [E|E].
  - assert (settlePots s = s) as Hs by (unfold settlePots; by rewrite E). by rewrite !Hs.
  - destruct (settlePots_clears s E). by apply settlePots_settled.
Qed.
