(* ===== verification/StateMachine.v ===== *)
(** * The hand state machine

    backend/src/game/state-machine.ts: the phases of a hand, betting, side pots
    per betting round, streets, the deck. [HandStateMachine.apply] is a
    computation over the machine's mutable fields; a thrown error keeps the
    fields written before it. Amounts are integers, as the client schema
    demands; the deck is popped from its end. *)

From S2P Require Import Prelude Fairness HandEval SidePots.
#[local] Open Scope Z_scope.

Definition ORDER : list Street := [preflop; flop; turn; river; showdown].

Inductive GameAction :=
| PostBlind (playerId : string) (amount : Z)
| BetAction (playerId : string) (amount : Z)
| RaiseAction (playerId : string) (amount : Z)
| CallAction (playerId : string)
| CheckAction (playerId : string)
| FoldAction (playerId : string)
| NextAction.

(** The fields of [HandStateMachine]; [rng] is the seed of its [HandRNG]. *)
Record HandStateMachine := Machine {
  m_state : GameStateInternal;
  m_blindsPosted : gset string }.

Abbreviation HSM := (M HandStateMachine).

(** ** Field updates *)

Definition set_phase (ph : HandPhase) (s : GameStateInternal) : GameStateInternal :=
  GameState ph (g_street s) (g_pot s) (g_sidePots s) (g_currentBet s) (g_players s) (g_deck s)
    (g_communityCards s).
Definition set_street (st : Street) (s : GameStateInternal) : GameStateInternal :=
  GameState (g_phase s) st (g_pot s) (g_sidePots s) (g_currentBet s) (g_players s) (g_deck s)
    (g_communityCards s).
Definition set_currentBet (b : Z) (s : GameStateInternal) : GameStateInternal :=
  GameState (g_phase s) (g_street s) (g_pot s) (g_sidePots s) b (g_players s) (g_deck s)
    (g_communityCards s).
Definition set_players (ps : list PlayerStateInternal) (s : GameStateInternal) : GameStateInternal :=
  GameState (g_phase s) (g_street s) (g_pot s) (g_sidePots s) (g_currentBet s) ps (g_deck s)
    (g_communityCards s).
Definition set_cards (deck community : list Z) (s : GameStateInternal) : GameStateInternal :=
  GameState (g_phase s) (g_street s) (g_pot s) (g_sidePots s) (g_currentBet s) (g_players s) deck
    community.

Definition state_modify (f : GameStateInternal → GameStateInternal) : HSM unit :=
  modify (λ m, Machine (f (m_state m)) (m_blindsPosted m)).
Definition blinds_modify (f : gset string → gset string) : HSM unit :=
  modify (λ m, Machine (m_state m) (f (m_blindsPosted m))).

(** ** Players and bets *)

Definition activePlayers (s : GameStateInternal) : list PlayerStateInternal :=
  filter (λ p, p_folded p = false) (g_players s).

Definition find_seat (id : string) (ps : list PlayerStateInternal) : option nat :=
  fst <$> list_find (λ p, p_id p = id) ps.

(** [findPlayer]: the first player object with that id, as its seat. *)
Definition findPlayer (id : string) : HSM nat := λ m,
  match find_seat id (g_players (m_state m)) with
  | Some i => (Ret i, m)
  | None => (Throw ("Unknown player " +:+ id), m)
  end.

Definition bet_player (amount : Z) (p : PlayerStateInternal) : PlayerStateInternal :=
  Player (p_id p) (p_stack p - amount) (p_folded p) (p_bet p + amount)
    (if p_stack p - amount =? 0 then true else p_allIn p) (p_holeCards p).

Definition placed_bet (i : nat) (p : PlayerStateInternal) (amount : Z) (s : GameStateInternal)
    : GameStateInternal :=
  let p' := bet_player amount p in
  GameState (g_phase s) (g_street s) (g_pot s + amount) (g_sidePots s)
    (if g_currentBet s <? p_bet p' then p_bet p' else g_currentBet s)
    (<[i := p']> (g_players s)) (g_deck s) (g_communityCards s).

Definition placeBet (i : nat) (amount : Z) : HSM unit := λ m,
  match g_players (m_state m) !! i with
  | None => (Ret tt, m)
  | Some p =>
      if amount <=? 0 then (Throw "amount must be positive", m)
      else if p_stack p <? amount then (Throw "bet exceeds stack", m)
      else (Ret tt, Machine (placed_bet i p amount (m_state m)) (m_blindsPosted m))
  end.

(** ** The end of a betting round *)

(** [contributions[id] = v] on an object used as a record. *)
Fixpoint obj_set (k : string) (v : Z) (o : list (string * Z)) : list (string * Z) :=
  match o with
  | [] => [(k, v)]
  | (k', v') :: o' => if decide (k = k') then (k, v) :: o' else (k', v') :: obj_set k v o'
  end.
Definition obj_has (k : string) (o : list (string * Z)) : bool := bool_decide (k ∈ o.*1).

Definition level_pot (s : GameStateInternal) (bettors : list PlayerStateInternal) (previous level : Z)
    : list SidePot :=
  let contributors := filter (λ p, level <= p_bet p) bettors in
  let contenders := filter (λ p, p_folded p = false) contributors in
  let potAmount := (level - previous) * Z.of_nat (length contributors) in
  if 0 <? potAmount then
    let contributions := foldl (λ o p, obj_set (p_id p) (level - previous) o) [] contributors in
    let active := activePlayers s in
    let '(contenders, contributions) :=
      match contenders with
      | [] => (active, foldl (λ o p, if obj_has (p_id p) o then o else obj_set (p_id p) 0 o)
                         contributions active)
      | _ => (contenders, contributions)
      end in
    let contenders := match contenders with [] => contributors | _ => contenders end in
    [{| sp_amount := potAmount; sp_players := p_id <$> contenders; sp_contributions := contributions |}]
  else [].

Fixpoint level_pots (s : GameStateInternal) (bettors : list PlayerStateInternal) (previous : Z)
    (levels : list Z) : list SidePot :=
  match levels with
  | [] => []
  | level :: rest => level_pot s bettors previous level ++ level_pots s bettors level rest
  end.

Definition clear_bet (p : PlayerStateInternal) : PlayerStateInternal :=
  Player (p_id p) (p_stack p) (p_folded p) 0 (p_allIn p) (p_holeCards p).

Definition bettors_of (s : GameStateInternal) : list PlayerStateInternal :=
  filter (λ p, 0 < p_bet p) (g_players s).

Definition finishBettingRound (s : GameStateInternal) : GameStateInternal :=
  match bettors_of s with
  | [] => set_currentBet 0 s
  | bettors =>
      let levels := js_sort asc (js_set_of (p_bet <$> bettors)) in
      GameState (g_phase s) (g_street s) (g_pot s)
        (g_sidePots s ++ level_pots s bettors 0 levels) 0
        (clear_bet <$> g_players s) (g_deck s) (g_communityCards s)
  end.

Definition street_index (st : Street) : nat :=
  match st with preflop => 0 | flop => 1 | turn => 2 | river => 3 | showdown => 4 end.

Definition advanceStreet (s : GameStateInternal) : GameStateInternal :=
  set_street (default showdown (ORDER !! Nat.min (street_index (g_street s) + 1) (length ORDER - 1))) s.

(** ** The deck *)

Definition pop (deck : list Z) : option Z * list Z := (last deck, take (length deck - 1) deck).

(** The cards a [Set<number>] of used cards marks. *)
Definition hole_cards (p : PlayerStateInternal) : list Z := default [] (p_holeCards p).
Definition used_cards (s : GameStateInternal) : list Z :=
  g_communityCards s ++ (g_players s ≫= hole_cards).

Section Deck.
Context (sha256 : list Z → list Z) (seed : list Z).

Fixpoint dedupe_into (excluded seen : list Z) (shuffled : list (option Z)) : list Z :=
  match shuffled with
  | [] => []
  | Some card :: rest =>
      if (bool_decide (card ∉ excluded)) && bool_decide (card ∉ seen)
      then card :: dedupe_into excluded (card :: seen) rest
      else dedupe_into excluded seen rest
  | None :: rest => dedupe_into excluded seen rest
  end.

Definition buildDeck (excluded : list Z) : list Z :=
  let available := filter (λ card, card ∉ excluded) standardDeck in
  let shuffled := shuffle sha256 available seed in
  let deck := dedupe_into excluded [] shuffled in
  if (length deck <? length available)%nat
  then deck ++ filter (λ card, card ∉ deck) available
  else deck.

Definition expectedCommunityCountBeforeDeal (s : GameStateInternal) : nat :=
  match g_street s with
  | flop => 0 | turn => 3 | river => 4 | _ => length (g_communityCards s)
  end.

Definition ensureDeckCapacity (n : nat) : HSM unit := λ m,
  let s := m_state m in
  let used := remove_dups (used_cards s) in
  if bool_decide (((length (g_deck s) + length used)%nat ≠ length standardDeck)
                  ∨ (length (g_deck s) < n)%nat) then
    if bool_decide (length (filter (λ card, card ∉ used) standardDeck) < n)%nat
    then (Throw "insufficient cards to continue hand", m)
    else (Ret tt, Machine (set_cards (buildDeck used) (g_communityCards s) s) (m_blindsPosted m))
  else (Ret tt, m).

Definition deal_one : HSM unit := λ m,
  let s := m_state m in
  match pop (g_deck s) with
  | (Some card, deck) =>
      (Ret tt, Machine (set_cards deck (g_communityCards s ++ [card]) s) (m_blindsPosted m))
  | (None, deck) => (Throw "deck exhausted", Machine (set_cards deck (g_communityCards s) s) (m_blindsPosted m))
  end.

Definition dealCommunity (n : nat) : HSM unit :=
  ok ← gets (λ m, bool_decide (length (g_communityCards (m_state m))
                               = expectedCommunityCountBeforeDeal (m_state m)));
  throw_if (negb ok) "community cards already dealt for street" ;;
  ensureDeckCapacity n ;;
  for_each (replicate n tt) (λ _, deal_one).

(** [p.holeCards = [deck.pop()!, deck.pop()!]] for every player; a deck of 52
    covers 26 of them. *)
Fixpoint deal_holes (deck : list Z) (ps : list PlayerStateInternal) : list PlayerStateInternal * list Z :=
  match ps with
  | [] => ([], deck)
  | p :: ps' =>
      let '(c1, deck1) := pop deck in
      let '(c2, deck2) := pop deck1 in
      let p' := Player (p_id p) (p_stack p) (p_folded p) (p_bet p) (p_allIn p)
                  (Some (option_list c1 ++ option_list c2)) in
      let '(rest, deck3) := deal_holes deck2 ps' in
      (p' :: rest, deck3)
  end.

(** ** [apply], a case per phase *)

Definition invalid_action : HSM unit := throw "invalid action for phase".

Definition deal_hands (s : GameStateInternal) : GameStateInternal :=
  let '(ps, deck) := deal_holes (buildDeck []) (g_players s) in
  set_phase DEAL (set_cards deck (g_communityCards s) (set_players ps s)).

Definition apply_blinds (a : GameAction) : HSM unit :=
  match a with
  | PostBlind id amount =>
      i ← findPlayer id;
      placeBet i amount ;;
      blinds_modify (λ b, {[ id ]} ∪ b) ;;
      all ← gets (λ m, bool_decide (size (m_blindsPosted m) = length (g_players (m_state m))));
      when all (state_modify deal_hands ;; blinds_modify (λ _, ∅))
  | _ => invalid_action
  end.

Definition apply_deal (a : GameAction) : HSM unit :=
  match a with
  | NextAction =>
      st ← gets (λ m, g_street (m_state m));
      (match st with
       | flop => dealCommunity 3
       | turn | river => dealCommunity 1
       | _ => mret tt
       end) ;;
      state_modify (set_phase BETTING_ROUND)
  | _ => invalid_action
  end.

Definition fold_player (p : PlayerStateInternal) : PlayerStateInternal :=
  Player (p_id p) (p_stack p) true (p_bet p) (p_allIn p) (p_holeCards p).

(** The check after the inner switch: at most one player left ends the hand. *)
Definition close_if_alone (s : GameStateInternal) : GameStateInternal :=
  if bool_decide (g_phase s = BETTING_ROUND ∧ (length (activePlayers s) ≤ 1)%nat) then
    set_phase SHOWDOWN
      (if existsb (λ p, 0 <? p_bet p) (g_players s) then finishBettingRound s
       else set_currentBet 0 s)
  else s.

Definition next_street (s : GameStateInternal) : GameStateInternal :=
  let s := finishBettingRound s in
  if decide (g_street s = river)
  then set_phase SHOWDOWN (advanceStreet s)
  else set_phase DEAL (advanceStreet s).

Definition apply_betting (a : GameAction) : HSM unit :=
  (match a with
   | BetAction id amount | RaiseAction id amount | PostBlind id amount =>
       i ← findPlayer id; placeBet i amount
   | CallAction id =>
       i ← findPlayer id;
       toCall ← gets (λ m, g_currentBet (m_state m)
                           - from_option p_bet 0 (g_players (m_state m) !! i));
       placeBet i toCall
   | CheckAction _ => mret tt
   | FoldAction id =>
       i ← findPlayer id;
       state_modify (λ s, set_players (alter fold_player i (g_players s)) s)
   | NextAction => state_modify next_street
   end) ;;
  state_modify close_if_alone.

Definition apply_showdown (a : GameAction) : HSM unit :=
  match a with
  | NextAction => state_modify settlePots ;; state_modify (set_phase SETTLE)
  | _ => invalid_action
  end.

Definition clear_player (p : PlayerStateInternal) : PlayerStateInternal :=
  Player (p_id p) (p_stack p) false 0 false None.

Definition clear_hand (s : GameStateInternal) : GameStateInternal :=
  GameState NEXT_HAND preflop 0 [] 0 (clear_player <$> g_players s) [] [].

Definition apply_settle (a : GameAction) : HSM unit :=
  match a with
  | NextAction => state_modify clear_hand ;; blinds_modify (λ _, ∅)
  | _ => invalid_action
  end.

Definition hsm_apply (a : GameAction) : HSM GameStateInternal :=
  ph ← gets (λ m, g_phase (m_state m));
  (match ph with
   | WAIT_BLINDS | NEXT_HAND => apply_blinds a
   | DEAL => apply_deal a
   | BETTING_ROUND => apply_betting a
   | SHOWDOWN => apply_showdown a
   | SETTLE => apply_settle a
   end) ;;
  gets m_state.
End Deck.

(** A fresh machine, as [GameEngine] builds it. *)
Definition new_player (stack : Z) (id : string) : PlayerStateInternal :=
  Player id stack false 0 false None.
Definition new_machine (ids : list string) (startingStack : Z) : HandStateMachine :=
  Machine (GameState WAIT_BLINDS preflop 0 [] 0 (new_player startingStack <$> ids) [] []) ∅.

(** Actions in a row; a rejected action leaves what it wrote. *)
Definition run_actions (sha256 : list Z → list Z) (seed : list Z) (acts : list GameAction)
    (m : HandStateMachine) : HandStateMachine :=
  foldl (λ m a, snd (hsm_apply sha256 seed a m)) m acts.
