(* ===== verification/HandSafety.v ===== *)
(** * Safety of the hand state machine

    Invariants of [StateMachine.hsm_apply] over every reachable state: chips are
    neither created nor destroyed by betting, the cards in play are one deck,
    and a rejected action changes nothing. *)

From S2P Require Import Prelude Fairness HandEval SidePots StateMachine.
#[local] Open Scope Z_scope.

(** ** Running the monad *)

Lemma bind_ret {S A B} (m : M S A) (k : A → M S B) s a s' :
  m s = (Ret a, s') → (m ≫= k) s = k a s'.
Proof. intros E. unfold mbind, M_bind. by rewrite E. Qed.
Lemma bind_throw {S A B} (m : M S A) (k : A → M S B) s e s' :
  m s = (Throw e, s') → (m ≫= k) s = (Throw e, s').
Proof. intros E. unfold mbind, M_bind. by rewrite E. Qed.

(** ** Decks *)

Lemma NoDup_standardDeck : NoDup standardDeck.
Proof. apply (bool_decide_eq_true_1 (NoDup standardDeck)). vm_compute. done. Qed.

Lemma dedupe_into_spec excluded seen shuffled :
  NoDup (dedupe_into excluded seen shuffled) ∧
  ∀ c, (c ∈ dedupe_into excluded seen shuffled) →
       (Some c ∈ shuffled) ∧ (c ∉ excluded) ∧ (c ∉ seen).
Proof.
  revert seen; induction shuffled as [|[c|] l IH]; intros seen; simpl.
  - split; [constructor | intros c []%elem_of_nil].
  - destruct (bool_decide (c ∉ excluded) && bool_decide (c ∉ seen)) eqn:Hc.
    + destruct (IH (c :: seen)) as [Hnd Hin]. split.
      * constructor; [|done]. intros (_ & _ & H)%Hin. apply H, elem_of_cons. by left.
      * apply andb_true_iff in Hc as [H1%bool_decide_eq_true H2%bool_decide_eq_true].
        intros x [->|Hx]%elem_of_cons; [split; [apply elem_of_cons; by left | done]|].
        apply Hin in Hx as (Hx & He & Hs). split; [apply elem_of_cons; by right|].
        split; [done|]. intros H. apply Hs, elem_of_cons. by right.
    + destruct (IH seen) as [Hnd Hin]. split; [done|].
      intros x (Hx & He & Hs)%Hin. split; [apply elem_of_cons; by right | done].
  - destruct (IH seen) as [Hnd Hin]. split; [done|].
    intros x (Hx & He & Hs)%Hin. split; [apply elem_of_cons; by right | done].
Qed.

Section Deck.
Context (sha256 : list Z → list Z) (seed : list Z).

Lemma buildDeck_perm excluded :
  buildDeck sha256 seed excluded ≡ₚ filter (λ c, c ∉ excluded) standardDeck.
Proof.
  unfold buildDeck. set (available := filter (λ c, c ∉ excluded) standardDeck).
  set (deck := dedupe_into excluded [] (shuffle sha256 available seed)).
  assert (NoDup available) as Hav by (apply NoDup_filter, NoDup_standardDeck).
  destruct (dedupe_into_spec excluded [] (shuffle sha256 available seed)) as [Hnd Hin].
  fold deck in Hnd, Hin.
  assert (∀ c, c ∈ deck → c ∈ available) as Hsub.
  { intros c (Hc & _)%Hin. by eapply shuffle_sub. }
  destruct (Nat.ltb_spec (length deck) (length available)) as [Hlt|Hge].
  - apply NoDup_Permutation; [|done|].
    + apply NoDup_app. split_and!; [done | | by apply NoDup_filter].
      intros c Hc [Hn _]%list_elem_of_filter. done.
    + intros c. rewrite elem_of_app, list_elem_of_filter. split.
      * intros [Hc|[_ Hc]]; [by apply Hsub | done].
      * intros Hc. destruct (decide (c ∈ deck)); [by left | by right].
  - apply submseteq_length_Permutation; [by apply NoDup_submseteq | done].
Qed.

Lemma pop_snoc deck (c : Z) : pop (deck ++ [c]) = (Some c, deck).
Proof.
  unfold pop. rewrite last_snoc, length_app. simpl.
  by rewrite Nat.add_sub, take_app_length.
Qed.

Lemma deal_holes_spec ps deck :
  (2 * length ps ≤ length deck)%nat →
  let '(ps', deck') := deal_holes deck ps in
  deck' ++ (ps' ≫= hole_cards) ≡ₚ deck ∧
  Forall (λ p, length (hole_cards p) = 2%nat) ps' ∧
  length deck' = (length deck - 2 * length ps)%nat ∧
  clear_player <$> ps' = clear_player <$> ps ∧
  clear_bet <$> ps' = clear_bet <$> ps' ∧
  (λ p, (p_folded p, p_bet p, p_stack p)) <$> ps' = (λ p, (p_folded p, p_bet p, p_stack p)) <$> ps.
Proof.
  revert deck; induction ps as [|p ps IH]; intros deck Hl.
  { simpl. rewrite app_nil_r. split_and!; try done. simpl in Hl. lia. }
  simpl in Hl.
  destruct deck as [|c2 deck _] using rev_ind; [simpl in Hl; lia|].
  destruct deck as [|c1 deck _] using rev_ind; [simpl in Hl; lia|].
  rewrite !length_app in *. simpl length in *.
  cbn [deal_holes]. rewrite !pop_snoc.
  specialize (IH deck ltac:(lia)). destruct (deal_holes deck ps) as [ps' deck'].
  destruct IH as (Hp & Hf & Hd & Hc & _ & He). split_and!.
  - rewrite bind_cons. unfold hole_cards at 1. simpl.
    rewrite <- Hp, <- !app_assoc. solve_Permutation.
  - by constructor.
  - lia.
  - rewrite !fmap_cons, Hc. done.
  - done.
  - rewrite !fmap_cons, He. done.
Qed.
End Deck.

(** ** Chips *)

Definition bets_total (s : GameStateInternal) : Z := sum_by p_bet (g_players s).
Definition table_chips (s : GameStateInternal) : Z := chips_on_stacks (g_players s) + g_pot s.
Definition active_count (ps : list PlayerStateInternal) : nat :=
  length (filter (λ p, p_folded p = false) ps).

(** The layers of a round: each level above [prev] takes its slice from every
    bettor that reached it, and together they take everything above [prev]. *)
Lemma level_pot_amount s bettors prev level :
  prev <= level →
  sum_by sp_amount (level_pot s bettors prev level)
  = sum_by (λ p, if decide (level <= p_bet p) then level - prev else 0) bettors.
Proof.
  intros Hle. unfold level_pot.
  assert (sum_by (λ p, if decide (level <= p_bet p) then level - prev else 0) bettors
          = (level - prev) * Z.of_nat (length (filter (λ p, level <= p_bet p) bettors))) as ->.
  { induction bettors as [|b bs IH]; [by rewrite filter_nil, sum_by_nil, Z.mul_0_r|].
    rewrite sum_by_cons, filter_cons, IH. case_decide; [|done].
    rewrite length_cons, Nat2Z.inj_succ. lia. }
  set (n := Z.of_nat _). destruct (Z.ltb_spec 0 ((level - prev) * n)) as [H|H].
  - destruct (filter _ (filter _ bettors)); unfold sum_by; simpl; lia.
  - rewrite sum_by_nil. assert (0 <= n) by (unfold n; lia). nia.
Qed.

Lemma level_pot_positive s bettors prev level :
  Forall (λ sp, 0 < sp_amount sp) (level_pot s bettors prev level).
Proof.
  unfold level_pot. destruct (Z.ltb_spec 0 ((level - prev) *
    Z.of_nat (length (filter (λ p, level <= p_bet p) bettors)))); [|constructor].
  destruct (filter _ (filter _ bettors)); by repeat constructor.
Qed.

Lemma level_pots_amount s bettors prev levels :
  StronglySorted (λ a b, asc a b = true) (prev :: levels) →
  Forall (λ p, p_bet p ∈ levels ∨ p_bet p <= prev) bettors →
  sum_by sp_amount (level_pots s bettors prev levels) = sum_by (λ p, Z.max 0 (p_bet p - prev)) bettors.
Proof.
  revert prev; induction levels as [|l levels IH]; intros prev Hs Hb; simpl.
  - rewrite sum_by_nil, (sum_by_ext _ (λ _, 0)), sum_by_const; [lia|].
    intros p Hp. rewrite Forall_forall in Hb. destruct (Hb p Hp) as [[]%elem_of_nil|]; lia.
  - inversion Hs as [|? ? Hs' Hall]; subst. inversion Hall as [|? ? Hpl _]; subst.
    unfold asc in Hpl. apply Z.leb_le in Hpl.
    rewrite sum_by_app, level_pot_amount, IH, <- sum_by_add; [|done| |done].
    + apply sum_by_ext. intros p Hp. rewrite Forall_forall in Hb.
      inversion Hs' as [|? ? _ Hl]; subst. rewrite Forall_forall in Hl.
      destruct (Hb p Hp) as [[->|Hin]%elem_of_cons|Hle].
      * rewrite decide_True by lia. lia.
      * specialize (Hl _ Hin). unfold asc in Hl. apply Z.leb_le in Hl.
        rewrite decide_True by lia. lia.
      * case_decide; lia.
    + rewrite Forall_forall in *. intros p Hp.
      destruct (Hb p Hp) as [[->|Hin]%elem_of_cons|Hle]; [right; lia | by left | right; lia].
Qed.

Lemma level_pots_positive s bettors prev levels :
  Forall (λ sp, 0 < sp_amount sp) (level_pots s bettors prev levels).
Proof.
  revert prev; induction levels as [|l levels IH]; intros prev; simpl; [constructor|].
  apply Forall_app. split; [apply level_pot_positive | apply IH].
Qed.

Lemma bettors_sum s :
  Forall (λ p, 0 <= p_bet p) (g_players s) →
  sum_by p_bet (bettors_of s) = bets_total s.
Proof.
  intros H. unfold bets_total, bettors_of.
  rewrite (sum_by_filter_split p_bet (λ p, 0 < p_bet p) (g_players s)).
  rewrite (sum_by_ext p_bet (λ _, 0) (filter (λ p, ¬ 0 < p_bet p) _)), sum_by_const; [lia|].
  intros p [Hn Hp]%list_elem_of_filter. rewrite Forall_forall in H. specialize (H p Hp); simpl in *. lia.
Qed.

Lemma clear_bets_total (ps : list PlayerStateInternal) : sum_by p_bet (clear_bet <$> ps) = 0.
Proof. rewrite sum_by_fmap. rewrite (sum_by_ext _ (λ _, 0)), sum_by_const; done. Qed.

Lemma zero_bets (ps : list PlayerStateInternal) :
  Forall (λ p, 0 <= p_bet p) ps → filter (λ p, 0 < p_bet p) ps = [] → Forall (λ p, p_bet p = 0) ps.
Proof.
  intros H E. rewrite Forall_forall in *. intros p Hp. specialize (H p Hp). simpl in *.
  destruct (decide (0 < p_bet p)) as [Hpos|]; [|lia].
  assert (p ∈ filter (λ p, 0 < p_bet p) ps) as Hin by (by apply list_elem_of_filter).
  rewrite E in Hin. by apply elem_of_nil in Hin.
Qed.

(** Closing a round moves every bet into the side pots. *)
Lemma finish_round_spec s :
  Forall (λ p, 0 <= p_bet p) (g_players s) →
  let s' := finishBettingRound s in
  sum_by sp_amount (g_sidePots s') = sum_by sp_amount (g_sidePots s) + bets_total s ∧
  g_players s' = clear_bet <$> g_players s ∧
  g_pot s' = g_pot s ∧ g_currentBet s' = 0 ∧ g_street s' = g_street s ∧ g_phase s' = g_phase s ∧
  g_deck s' = g_deck s ∧ g_communityCards s' = g_communityCards s ∧
  (Forall (λ sp, 0 < sp_amount sp) (g_sidePots s) → Forall (λ sp, 0 < sp_amount sp) (g_sidePots s')).
Proof.
  intros Hb s'. pose proof (bettors_sum s Hb) as Hsum. unfold s', finishBettingRound.
  destruct (bettors_of s) as [|b bs] eqn:E.
  - rewrite sum_by_nil in Hsum. split_and!; simpl; try done; [lia|].
    pose proof (zero_bets _ Hb E) as Hz. symmetry.
    rewrite <- (list_fmap_id (g_players s)) at 2. apply list_fmap_ext. intros i p Hp.
    rewrite Forall_lookup in Hz. specialize (Hz i p Hp). destruct p; simpl in *; by subst.
  - rewrite <- E in *. cbn [g_sidePots g_players g_pot g_currentBet g_street g_phase g_deck
      g_communityCards]. split_and!; try done.
    + rewrite sum_by_app. f_equal. rewrite level_pots_amount.
      * rewrite <- Hsum. apply sum_by_ext. intros p [Hp _]%list_elem_of_filter. lia.
      * constructor; [apply js_sort_sorted; [apply asc_total|apply asc_trans]|].
        rewrite js_sort_perm. apply Forall_forall. intros x Hx.
        apply js_set_of_sub in Hx. apply list_elem_of_fmap in Hx as (p & -> & Hp).
        apply list_elem_of_filter in Hp as [Hp _]. unfold asc. apply Z.leb_le. lia.
      * apply Forall_forall. intros p Hp. left. rewrite js_sort_perm, js_set_of_elem.
        by apply list_elem_of_fmap_2.
    + intros H. apply Forall_app. split; [done | apply level_pots_positive].
Qed.

(** ** The chip invariant *)

(** The part of it that no phase change touches. *)
Record money_wf (s : GameStateInternal) : Prop := {
  mw_pot : g_pot s = bets_total s + sum_by sp_amount (g_sidePots s);
  mw_seats : Forall (λ p, 0 <= p_stack p ∧ 0 <= p_bet p <= g_currentBet s) (g_players s);
  mw_sides : Forall (λ sp, 0 < sp_amount sp) (g_sidePots s);
  mw_size : (2 ≤ length (g_players s))%nat }.

(** What each phase adds. *)
Definition phase_wf (s : GameStateInternal) : Prop :=
  match g_phase s with
  | WAIT_BLINDS | NEXT_HAND => Forall (λ p, p_folded p = false) (g_players s)
  | DEAL | BETTING_ROUND => (2 ≤ active_count (g_players s))%nat
  | SHOWDOWN => (1 ≤ active_count (g_players s))%nat ∧ bets_total s = 0
  | SETTLE => bets_total s = 0 ∧ g_pot s = 0
  end.

Definition chips_wf (s : GameStateInternal) : Prop := money_wf s ∧ phase_wf s.

(** The invariant reached, with the same chips on the table. *)
Definition chips_kept (s s' : GameStateInternal) : Prop :=
  chips_wf s' ∧ table_chips s' = table_chips s.

Lemma active_count_ext ps ps' :
  p_folded <$> ps = p_folded <$> ps' → active_count ps = active_count ps'.
Proof.
  revert ps'; induction ps as [|p ps IH]; intros [|p' ps'] E; try done.
  rewrite !fmap_cons in E. injection E as E1 E2. unfold active_count in *. rewrite !filter_cons, E1.
  case_decide; simpl; [f_equal|]; by apply IH.
Qed.

Lemma active_count_all ps : Forall (λ p, p_folded p = false) ps → active_count ps = length ps.
Proof.
  induction 1 as [|p ps Hp _ IH]; [done|]. unfold active_count in *.
  rewrite filter_cons, decide_True by done. simpl. by f_equal.
Qed.

Lemma active_count_alter i ps :
  (active_count ps ≤ S (active_count (alter fold_player i ps)))%nat.
Proof.
  revert i; induction ps as [|p ps IH]; intros i; [unfold active_count; simpl; lia|].
  unfold active_count in *. destruct i as [|i].
  - change (alter fold_player 0%nat (p :: ps)) with (fold_player p :: ps).
    rewrite !filter_cons, (decide_False (P := p_folded (fold_player p) = false)) by done.
    case_decide; simpl; lia.
  - change (alter fold_player (S i) (p :: ps)) with (p :: alter fold_player i ps).
    specialize (IH i). rewrite !filter_cons. case_decide; simpl in *; lia.
Qed.

Lemma active_clear_bet ps : active_count (clear_bet <$> ps) = active_count ps.
Proof. apply active_count_ext. by rewrite <- list_fmap_compose. Qed.

Lemma chips_clear_bet ps : chips_on_stacks (clear_bet <$> ps) = chips_on_stacks ps.
Proof. unfold chips_on_stacks. rewrite sum_by_fmap. done. Qed.

Lemma list_fmap_insert_same {A B} (f : A → B) (l : list A) i x y :
  l !! i = Some x → f y = f x → f <$> <[i := y]> l = f <$> l.
Proof.
  intros Hi Hf. rewrite list_fmap_insert, Hf. apply list_insert_id. by rewrite list_lookup_fmap, Hi.
Qed.

Lemma list_fmap_alter_same {A B} (f : A → B) (g : A → A) (l : list A) i :
  (∀ x, f (g x) = f x) → f <$> alter g i l = f <$> l.
Proof.
  intros Hf. apply list_eq. intros j. rewrite !list_lookup_fmap.
  destruct (decide (i = j)) as [->|Hne].
  - rewrite list_lookup_alter_eq. destruct (l !! j); simpl; by rewrite ?Hf.
  - by rewrite list_lookup_alter_ne.
Qed.

Lemma fmap_same_compose {A B C} (f : A → B) (h : B → C) (l l' : list A) :
  f <$> l = f <$> l' → (λ x, h (f x)) <$> l = (λ x, h (f x)) <$> l'.
Proof. intros E. change (λ x, h (f x)) with (h ∘ f). by rewrite !list_fmap_compose, E. Qed.

Lemma fmap_same_Forall {A B} (f : A → B) (P : B → Prop) (l l' : list A) :
  f <$> l = f <$> l' → Forall (λ x, P (f x)) l → Forall (λ x, P (f x)) l'.
Proof. intros E H. rewrite <- (Forall_fmap f P), <- E, Forall_fmap. exact H. Qed.

(** Only stacks and bets matter to the money. *)
Definition seat_money (p : PlayerStateInternal) : Z * Z := (p_stack p, p_bet p).

Lemma money_same s s' :
  money_wf s → seat_money <$> g_players s = seat_money <$> g_players s' →
  g_pot s' = g_pot s → g_sidePots s' = g_sidePots s → g_currentBet s' = g_currentBet s →
  money_wf s' ∧ table_chips s' = table_chips s ∧ bets_total s' = bets_total s.
Proof.
  intros [Hpot Hseats Hsides Hsize] E Ep Es Ec.
  assert (bets_total s' = bets_total s) as Hb.
  { unfold bets_total, sum_by. f_equal. symmetry. exact (fmap_same_compose _ snd _ _ E). }
  split_and!; [split|..]; try done.
  - by rewrite Ep, Es, Hb.
  - rewrite Ec. exact (fmap_same_Forall seat_money
      (λ x, 0 <= x.1 ∧ 0 <= x.2 <= g_currentBet s) _ _ E Hseats).
  - by rewrite Es.
  - apply (f_equal length) in E. rewrite !length_fmap in E. lia.
  - unfold table_chips, chips_on_stacks, sum_by. rewrite Ep. f_equal. f_equal. symmetry.
    exact (fmap_same_compose _ fst _ _ E).
Qed.

Lemma seats_bets_nonneg s : money_wf s → Forall (λ p, 0 <= p_bet p) (g_players s).
Proof. intros H. eapply Forall_impl; [apply (mw_seats _ H)|]. simpl; lia. Qed.

(** A bet within the stack. *)
Lemma placed_bet_money s i p amount :
  money_wf s → g_players s !! i = Some p → 0 < amount <= p_stack p →
  money_wf (placed_bet i p amount s) ∧ table_chips (placed_bet i p amount s) = table_chips s ∧
  p_folded <$> g_players (placed_bet i p amount s) = p_folded <$> g_players s.
Proof.
  intros [Hpot Hseats Hsides Hsize] Hi Ham.
  pose proof (Forall_lookup_1 _ _ _ _ Hseats Hi) as [Hst Hbet].
  split_and!; [split|..].
  - unfold bets_total; simpl. rewrite (sum_by_insert _ _ _ _ _ Hi); simpl.
    rewrite Hpot. unfold bets_total. lia.
  - simpl. apply Forall_insert.
    + eapply Forall_impl; [exact Hseats|]. intros q Hq; simpl in *.
      destruct (Z.ltb_spec (g_currentBet s) (p_bet p + amount)); lia.
    + simpl. destruct (Z.ltb_spec (g_currentBet s) (p_bet p + amount)); lia.
  - done.
  - simpl. by rewrite length_insert.
  - unfold table_chips, chips_on_stacks; simpl. rewrite (sum_by_insert _ _ _ _ _ Hi); simpl. lia.
  - by eapply list_fmap_insert_same.
Qed.

Lemma placed_bet_kept s i p amount :
  chips_wf s → g_phase s ≠ SHOWDOWN → g_phase s ≠ SETTLE →
  g_players s !! i = Some p → 0 < amount <= p_stack p →
  chips_kept s (placed_bet i p amount s).
Proof.
  intros [Hm Hp] Hph1 Hph2 Hi Ham.
  destruct (placed_bet_money s i p amount Hm Hi Ham) as (Hm' & Ht & Hf).
  split; [split; [done|] | done]. unfold phase_wf in *. rewrite (active_count_ext _ _ Hf).
  change (g_phase (placed_bet i p amount s)) with (g_phase s).
  destruct (g_phase s); try done.
  all: exact (fmap_same_Forall p_folded (λ b, b = false) _ _ (eq_sym Hf) Hp).
Qed.

(** A closed round: the bets are in the side pots. *)
Lemma finish_round_money s :
  money_wf s →
  let s' := finishBettingRound s in
  money_wf s' ∧ table_chips s' = table_chips s ∧ bets_total s' = 0 ∧
  active_count (g_players s') = active_count (g_players s) ∧
  g_phase s' = g_phase s ∧ g_street s' = g_street s.
Proof.
  intros Hm s'.
  destruct (finish_round_spec s (seats_bets_nonneg s Hm))
    as (Hsum & Hps & Hp & Hcb & Hst & Hph & _ & _ & Hpos). fold s' in Hsum, Hps, Hp, Hcb, Hst, Hph, Hpos.
  destruct Hm as [Hpot Hseats Hsides Hsize].
  assert (bets_total s' = 0) as Hb by (unfold bets_total; rewrite Hps; apply clear_bets_total).
  split_and!; [split|..]; try done.
  - rewrite Hb, Hp, Hsum. lia.
  - rewrite Hps, Hcb. apply Forall_fmap. eapply Forall_impl; [exact Hseats|]. simpl; lia.
  - by apply Hpos.
  - by rewrite Hps, length_fmap.
  - unfold table_chips. by rewrite Hps, Hp, chips_clear_bet.
  - by rewrite Hps, active_clear_bet.
Qed.

Lemma existsb_bettors s :
  existsb (λ p, 0 <? p_bet p) (g_players s) = false → finishBettingRound s = set_currentBet 0 s.
Proof.
  intros Ex. unfold finishBettingRound.
  assert (bettors_of s = []) as ->; [|done].
  unfold bettors_of. apply elem_of_nil_inv. intros p [Hp Hin]%list_elem_of_filter.
  assert (existsb (λ p, 0 <? p_bet p) (g_players s) = true); [|congruence].
  apply existsb_exists. exists p. split; [by apply list_elem_of_In | by apply Z.ltb_lt].
Qed.

(** The guard on [hasCommitted] is redundant: closing an empty round is the same. *)
Lemma close_if_alone_eq s :
  close_if_alone s
  = if bool_decide (g_phase s = BETTING_ROUND ∧ (length (activePlayers s) ≤ 1)%nat)
    then set_phase SHOWDOWN (finishBettingRound s) else s.
Proof.
  unfold close_if_alone. case_bool_decide; [|done]. f_equal.
  destruct (existsb _ (g_players s)) eqn:E; [done|]. by rewrite existsb_bettors.
Qed.

Lemma close_if_alone_kept s :
  money_wf s → g_phase s = BETTING_ROUND → (1 ≤ active_count (g_players s))%nat →
  chips_kept s (close_if_alone s).
Proof.
  intros Hm Hph Ha. rewrite close_if_alone_eq. case_bool_decide as Hc.
  - destruct (finish_round_money s Hm) as (Hm' & Ht & Hb & Hact & _ & _).
    destruct (money_same (finishBettingRound s) (set_phase SHOWDOWN (finishBettingRound s)))
      as (Hm'' & Ht' & Hb'); try done.
    split; [split; [done|]|congruence]. unfold phase_wf; simpl g_phase.
    split; [simpl; lia | congruence].
  - split; [split; [done|]|done]. unfold phase_wf. rewrite Hph.
    unfold active_count, activePlayers in *. destruct (decide (2 <= length
      (filter (λ p, p_folded p = false) (g_players s)))%nat); [done|].
    destruct Hc. split; [done | lia].
Qed.

Lemma close_if_alone_other s : g_phase s ≠ BETTING_ROUND → close_if_alone s = s.
Proof. intros H. unfold close_if_alone. rewrite bool_decide_eq_false_2; [done|]. by intros [? _]. Qed.

Lemma fold_kept s i :
  chips_wf s → g_phase s = BETTING_ROUND →
  let s' := set_players (alter fold_player i (g_players s)) s in
  chips_kept s (close_if_alone s').
Proof.
  intros [Hm Hp] Hph s'. unfold phase_wf in Hp. rewrite Hph in Hp.
  pose proof (active_count_alter i (g_players s)) as Hact.
  destruct (money_same s s') as (Hm' & Ht & Hb); try done.
  { simpl. symmetry. by apply list_fmap_alter_same. }
  destruct (close_if_alone_kept s') as [Hwf Ht']; [done | done | simpl; lia |].
  split; [done | congruence].
Qed.

Lemma next_street_kept s :
  chips_wf s → g_phase s = BETTING_ROUND →
  chips_kept s (next_street s) ∧ g_phase (next_street s) ≠ BETTING_ROUND.
Proof.
  intros [Hm Hp] Hph. unfold phase_wf in Hp. rewrite Hph in Hp.
  destruct (finish_round_money s Hm) as (Hm' & Ht & Hb & Hact & _ & _).
  unfold next_street.
  assert (∀ ph, money_wf (set_phase ph (advanceStreet (finishBettingRound s))) ∧
    table_chips (set_phase ph (advanceStreet (finishBettingRound s))) = table_chips s ∧
    bets_total (set_phase ph (advanceStreet (finishBettingRound s))) = 0) as Hset.
  { intros ph. destruct (money_same (finishBettingRound s)
      (set_phase ph (advanceStreet (finishBettingRound s)))) as (? & ? & ?);
      [done..|]. by split_and!; [|congruence..]. }
  case_decide; (split; [|done]).
  - destruct (Hset SHOWDOWN) as (? & ? & ?). split; [split; [done|]|done].
    unfold phase_wf; simpl g_phase. split; [simpl; lia | done].
  - destruct (Hset DEAL) as (? & ? & ?). split; [split; [done|]|done].
    unfold phase_wf; simpl; lia.
Qed.

(** ** Settlement and dealing *)

Lemma payout_nonneg sc ps pot i : 0 <= sp_amount pot → 0 <= payout sc ps pot i.
Proof.
  intros H. unfold payout. case_decide as Hi; [|lia].
  assert (0 < Z.of_nat (length (winners sc ps pot))) as Hn.
  { destruct (winners sc ps pot); [by apply elem_of_nil in Hi | simpl; lia]. }
  pose proof (Z.div_pos (sp_amount pot) _ H Hn).
  pose proof (Z.mod_pos_bound (sp_amount pot) _ Hn).
  case_decide; lia.
Qed.

Lemma active_seats_nonempty ps : (1 ≤ active_count ps)%nat → active_seats ps ≠ [].
Proof.
  intros H E. unfold active_count in H.
  destruct (filter (λ p, p_folded p = false) ps) as [|p l] eqn:El; [simpl in H; lia|].
  assert (p ∈ filter (λ p, p_folded p = false) ps) as Hp by (rewrite El; apply elem_of_cons; by left).
  apply list_elem_of_filter in Hp as [Hf (i & Hi)%list_elem_of_lookup].
  assert (i ∈ active_seats ps) as Hin; [|rewrite E in Hin; by apply elem_of_nil in Hin].
  apply list_elem_of_filter. split; [by unfold seat_active; rewrite Hi, Hf|].
  apply elem_of_seq. split; [lia|]. simpl. by eapply lookup_lt_Some.
Qed.

Lemma pots_to_settle_sum s :
  money_wf s → bets_total s = 0 →
  sum_by sp_amount (pots_to_settle s) = g_pot s ∧
  Forall (λ sp, 0 <= sp_amount sp) (pots_to_settle s).
Proof.
  intros [Hpot _ Hsides _] Hb. unfold pots_to_settle. destruct (g_sidePots s) as [|sp l] eqn:E.
  - rewrite sum_by_cons, sum_by_nil; simpl. rewrite sum_by_nil in Hpot.
    split; [lia|]. repeat constructor. simpl. lia.
  - split; [lia|]. eapply Forall_impl; [exact Hsides|]. simpl; lia.
Qed.

(** The showdown step: the pot goes to the stacks, less what no one contends. *)
Lemma settle_kept s :
  chips_wf s → g_phase s = SHOWDOWN →
  chips_wf (set_phase SETTLE (settlePots s)) ∧
  table_chips (set_phase SETTLE (settlePots s)) + uncontended_amount s = table_chips s.
Proof.
  intros [Hm Hp] Hph. unfold phase_wf in Hp. rewrite Hph in Hp. destruct Hp as [Hact Hb].
  pose proof (active_seats_nonempty _ Hact) as Hne.
  pose proof (settlePots_stacks s Hne) as Hst.
  destruct (pots_to_settle_sum s Hm Hb) as [Hsum Hnn].
  destruct Hm as [Hpot Hseats Hsides Hsize].
  set (s' := settlePots s) in *.
  assert (g_pot s' = 0 ∧ g_sidePots s' = [] ∧ g_currentBet s' = g_currentBet s ∧
          ∃ d : nat → Z, (∀ i, 0 <= d i) ∧
            ∀ i, g_players s' !! i = set_stack (Z.add (d i)) <$> g_players s !! i)
    as (Hpot' & Hside' & Hcb & d & Hd & Hl).
  { unfold s', settlePots. destruct (active_seats (g_players s)); [done|]. split_and!; try done.
    exists (λ i, sum_by (λ pot, payout (scores_of (g_communityCards s) (g_players s))
                                  (g_players s) pot i) (pots_to_settle s)).
    split; [|intros i; exact (settle_pots_lookup _ _ _ i)]. intros i. apply sum_by_nonneg. intros pot Hin.
    rewrite Forall_forall in Hnn. by apply payout_nonneg, Hnn. }
  assert (p_bet <$> g_players s' = p_bet <$> g_players s) as Hbets.
  { apply list_eq. intros i. rewrite !list_lookup_fmap, Hl. by destruct (g_players s !! i). }
  assert (bets_total s' = 0) as Hb' by (unfold bets_total, sum_by; rewrite Hbets; exact Hb).
  split; [split; [split|]|].
  - simpl. rewrite Hpot', Hside', sum_by_nil. change (bets_total (set_phase SETTLE s')) with (bets_total s').
    lia.
  - simpl. apply Forall_lookup. intros i p. rewrite Hl, Hcb.
    destruct (g_players s !! i) as [q|] eqn:Eq; intros Ep; simplify_eq/=.
    pose proof (Forall_lookup_1 _ _ _ _ Hseats Eq). specialize (Hd i). simpl in *. lia.
  - simpl. by rewrite Hside'.
  - simpl. apply (f_equal length) in Hbets. rewrite !length_fmap in Hbets. lia.
  - split; [exact Hb' | exact Hpot'].
  - unfold table_chips. simpl. rewrite Hpot'. lia.
Qed.

Lemma clear_hand_kept s :
  chips_wf s → g_phase s = SETTLE → chips_kept s (clear_hand s).
Proof.
  intros [[Hpot Hseats Hsides Hsize] Hp] Hph. unfold phase_wf in Hp. rewrite Hph in Hp.
  destruct Hp as [Hb Hpot0].
  assert (bets_total (clear_hand s) = 0) as Hb'.
  { unfold bets_total; simpl. rewrite sum_by_fmap, (sum_by_ext _ (λ _, 0)), sum_by_const; done. }
  split; [split; [split|]|].
  - by rewrite Hb'.
  - simpl. apply Forall_fmap. eapply Forall_impl; [exact Hseats|]. simpl; lia.
  - constructor.
  - simpl. by rewrite length_fmap.
  - unfold phase_wf; simpl. apply Forall_fmap, Forall_true. done.
  - unfold table_chips, chips_on_stacks. simpl. rewrite sum_by_fmap, Hpot0. done.
Qed.

Section ApplyChips.
Context (sha256 : list Z → list Z) (seed : list Z).

Lemma deal_holes_seats deck ps :
  (λ p, (p_folded p, seat_money p)) <$> (deal_holes deck ps).1
  = (λ p, (p_folded p, seat_money p)) <$> ps.
Proof.
  revert deck; induction ps as [|p ps IH]; intros deck; [done|].
  cbn [deal_holes]. destruct (pop deck) as [c1 d1]. destruct (pop d1) as [c2 d2].
  specialize (IH d2). destruct (deal_holes d2 ps) as [ps' d3]. rewrite !fmap_cons, <- IH. done.
Qed.

Lemma deal_hands_kept s :
  chips_wf s → g_phase s = WAIT_BLINDS ∨ g_phase s = NEXT_HAND →
  chips_kept s (deal_hands sha256 seed s).
Proof.
  intros [Hm Hp] Hph. unfold deal_hands.
  pose proof (deal_holes_seats (buildDeck sha256 seed []) (g_players s)) as E.
  destruct (deal_holes _ (g_players s)) as [ps deck]. simpl in E.
  pose proof (fmap_same_compose _ fst _ _ E) as Ef.
  pose proof (fmap_same_compose _ snd _ _ E) as Em. simpl in Ef, Em.
  destruct (money_same s (set_phase DEAL (set_cards deck (g_communityCards s) (set_players ps s))))
    as (Hm' & Ht & _); [done | by symmetry | done..|].
  split; [split; [done|]|done]. unfold phase_wf; simpl.
  rewrite (active_count_ext _ _ Ef), active_count_all; [apply (mw_size _ Hm)|].
  unfold phase_wf in Hp. by destruct Hph as [Hph|Hph]; rewrite Hph in Hp.
Qed.

Lemma set_cards_kept s deck community : chips_wf s → chips_kept s (set_cards deck community s).
Proof. intros [Hm Hp]. destruct (money_same s (set_cards deck community s)) as (? & ? & ?); done. Qed.

(** Dealing only touches cards. *)
Definition cards_only (m m' : HandStateMachine) : Prop :=
  ∃ deck community, m' = Machine (set_cards deck community (m_state m)) (m_blindsPosted m).

Lemma cards_only_refl m : cards_only m m.
Proof. exists (g_deck (m_state m)), (g_communityCards (m_state m)). by destruct m as [[] ?]. Qed.
Lemma cards_only_trans m1 m2 m3 : cards_only m1 m2 → cards_only m2 m3 → cards_only m1 m3.
Proof. intros (d & c & ->) (d' & c' & ->). by exists d', c'. Qed.

Lemma deal_loop_cards {A} (l : list A) m : cards_only m (snd (for_each l (λ _, deal_one) m)).
Proof.
  revert m; induction l as [|x l IH]; intros m; [apply cards_only_refl|].
  cbn [for_each]. unfold mbind, M_bind. unfold deal_one at 1.
  destruct (pop (g_deck (m_state m))) as [[c|] deck]; simpl.
  - eapply cards_only_trans; [|apply IH]. by eexists _, _.
  - by eexists _, _.
Qed.

Lemma dealCommunity_cards n m : cards_only m (snd (dealCommunity sha256 seed n m)).
Proof.
  unfold dealCommunity, mbind, M_bind, gets, throw_if, throw, mret, M_ret. cbv beta iota.
  case_bool_decide; cbn [negb]; [|apply cards_only_refl].
  unfold ensureDeckCapacity. case_bool_decide; [case_bool_decide|]; simpl.
  - apply cards_only_refl.
  - eapply cards_only_trans; [|apply deal_loop_cards]. by eexists _, _.
  - apply deal_loop_cards.
Qed.
End ApplyChips.

(** ** One action *)

Lemma findPlayer_cases id m :
  (∃ i p, findPlayer id m = (Ret i, m) ∧ g_players (m_state m) !! i = Some p ∧ p_id p = id) ∨
  (∃ e, findPlayer id m = (Throw e, m)).
Proof.
  unfold findPlayer, find_seat.
  destruct (list_find (λ p, p_id p = id) (g_players (m_state m))) as [[i p]|] eqn:E; simpl.
  - apply list_find_Some in E as (Hi & Hid & _). left. by exists i, p.
  - right. by eexists.
Qed.

Lemma placeBet_cases i p amount m :
  g_players (m_state m) !! i = Some p →
  (0 < amount <= p_stack p ∧
   placeBet i amount m = (Ret tt, Machine (placed_bet i p amount (m_state m)) (m_blindsPosted m))) ∨
  (¬ 0 < amount <= p_stack p ∧ ∃ e, placeBet i amount m = (Throw e, m)).
Proof.
  intros Hi. unfold placeBet. rewrite Hi.
  destruct (Z.leb_spec amount 0); [right; split; [lia | by eexists]|].
  destruct (Z.ltb_spec (p_stack p) amount); [right; split; [lia | by eexists]|].
  left. split; [lia | done].
Qed.

(** Finding a player and placing a bet computed from the machine. *)
Lemma bet_cases id (amount : HandStateMachine → nat → Z) m :
  (∃ i p a, g_players (m_state m) !! i = Some p ∧ p_id p = id ∧ a = amount m i ∧
     0 < a <= p_stack p ∧
     (i ← findPlayer id; a ← gets (λ m, amount m i); placeBet i a) m
     = (Ret tt, Machine (placed_bet i p a (m_state m)) (m_blindsPosted m))) ∨
  (∃ e, (i ← findPlayer id; a ← gets (λ m, amount m i); placeBet i a) m = (Throw e, m)).
Proof.
  destruct (findPlayer_cases id m) as [(i & p & Hf & Hi & Hid)|[e He]].
  - erewrite bind_ret by done. cbn. destruct (placeBet_cases i p (amount m i) m Hi)
      as [[Ha Hp]|[_ [e He]]].
    + left. by exists i, p, (amount m i).
    + right. by exists e.
  - right. exists e. by erewrite bind_throw.
Qed.

(** The chips an action makes disappear: those no contender can claim. *)
Definition vanished (m : HandStateMachine) (a : GameAction) : Z :=
  match g_phase (m_state m), a with
  | SHOWDOWN, NextAction => uncontended_amount (m_state m)
  | _, _ => 0
  end.

Definition chips_after (m m' : HandStateMachine) (lost : Z) : Prop :=
  chips_wf (m_state m') ∧ table_chips (m_state m') + lost = table_chips (m_state m).

Lemma chips_after_refl m : chips_wf (m_state m) → chips_after m m 0.
Proof. intros H. split; [done | lia]. Qed.

Section ApplyOne.
Context (sha256 : list Z → list Z) (seed : list Z).

Lemma apply_blinds_chips a m :
  chips_wf (m_state m) → g_phase (m_state m) = WAIT_BLINDS ∨ g_phase (m_state m) = NEXT_HAND →
  chips_after m (snd (apply_blinds sha256 seed a m)) 0.
Proof.
  intros Hwf Hph. destruct a as [id amount| | | | | |]; try (by apply chips_after_refl).
  unfold apply_blinds. destruct (findPlayer_cases id m) as [(i & p & Hf & Hi & Hid)|[e He]].
  2: { erewrite bind_throw by done. by apply chips_after_refl. }
  erewrite bind_ret by done.
  destruct (placeBet_cases i p amount m Hi) as [[Ha Hp]|[_ [e He]]].
  2: { erewrite bind_throw by done. by apply chips_after_refl. }
  erewrite bind_ret by done.
  destruct (placed_bet_kept (m_state m) i p amount) as [Hwf1 Ht1]; try done.
  { by destruct Hph as [-> | ->]. } { by destruct Hph as [-> | ->]. }
  unfold mbind, M_bind, blinds_modify, modify, gets. cbn.
  case_bool_decide; cbn.
  - destruct (deal_hands_kept sha256 seed (placed_bet i p amount (m_state m))) as [Hwf2 Ht2];
      [done | done|]. split; [done | simpl; lia].
  - split; [done | simpl; lia].
Qed.

Lemma apply_deal_chips a m :
  chips_wf (m_state m) → g_phase (m_state m) = DEAL →
  chips_after m (snd (apply_deal sha256 seed a m)) 0.
Proof.
  intros Hwf Hph. destruct a; try (by apply chips_after_refl).
  unfold apply_deal.
  set (body := λ st, match st with flop => dealCommunity sha256 seed 3
    | turn | river => dealCommunity sha256 seed 1 | _ => mret tt end).
  assert (cards_only m (snd (body (g_street (m_state m)) m))) as Hc.
  { unfold body. destruct (g_street (m_state m)); try apply cards_only_refl; apply dealCommunity_cards. }
  unfold mbind, M_bind, gets. fold (body (g_street (m_state m))).
  change (match g_street (m_state m) with flop => dealCommunity sha256 seed 3
    | turn | river => dealCommunity sha256 seed 1 | _ => mret tt end)
    with (body (g_street (m_state m))).
  destruct (body (g_street (m_state m)) m) as [r m'] eqn:E. simpl in Hc.
  destruct Hc as (deck & comm & ->).
  destruct (set_cards_kept (m_state m) deck comm Hwf) as [[Hm Hp] Ht].
  destruct r as [[]|e]; simpl.
  - destruct (money_same _ (set_phase BETTING_ROUND (set_cards deck comm (m_state m))) Hm)
      as (Hm' & Ht' & _); [done..|].
    split; [split; [done|] | simpl in *; lia].
    unfold phase_wf in *. simpl in *. by rewrite Hph in Hp.
  - split; [done | simpl in *; lia].
Qed.

Lemma close_after m s' :
  chips_kept (m_state m) s' → chips_after m (Machine s' (m_blindsPosted m)) 0.
Proof. intros [? ?]. split; [done | simpl; lia]. Qed.

Lemma apply_betting_chips a m :
  chips_wf (m_state m) → g_phase (m_state m) = BETTING_ROUND →
  chips_after m (snd (apply_betting a m)) 0.
Proof.
  intros Hwf Hph.
  assert (∀ s, chips_kept (m_state m) s → g_phase s = BETTING_ROUND →
    chips_kept (m_state m) (close_if_alone s)) as Hclose.
  { intros s [[Hm Hp] Ht] Hps. unfold phase_wf in Hp. rewrite Hps in Hp.
    destruct (close_if_alone_kept s Hm Hps) as [? ?]; [lia|]. split; [done | lia]. }
  assert (∀ id amount, chips_after m (snd (((i ← findPlayer id; a ← gets (λ m, amount m i);
    placeBet i a) ;; state_modify close_if_alone) m)) 0) as Hbet.
  { intros id amount. destruct (bet_cases id amount m) as [(i & p & v & Hi & _ & _ & Hv & E)|[e E]].
    - rewrite (bind_ret _ _ _ _ _ E). apply (close_after m), Hclose; [|done].
      apply placed_bet_kept; try done; by rewrite Hph.
    - rewrite (bind_throw _ _ _ _ _ E). by apply chips_after_refl. }
  destruct a as [id v|id v|id v|id|id|id|]; unfold apply_betting.
  - exact (Hbet id (λ _ _, v)).
  - exact (Hbet id (λ _ _, v)).
  - exact (Hbet id (λ _ _, v)).
  - exact (Hbet id (λ m i, g_currentBet (m_state m)
                           - from_option p_bet 0 (g_players (m_state m) !! i))).
  - apply (close_after m), Hclose; done.
  - destruct (findPlayer_cases id m) as [(i & p & Hf & _)|[e E]].
    + unfold mbind, M_bind. rewrite Hf. apply (close_after m). by apply fold_kept.
    + unfold mbind, M_bind. rewrite E. by apply chips_after_refl.
  - apply (close_after m). destruct (next_street_kept (m_state m) Hwf Hph) as [? Hne].
    by rewrite close_if_alone_other.
Qed.

Lemma apply_chips a m :
  chips_wf (m_state m) → chips_after m (snd (hsm_apply sha256 seed a m)) (vanished m a).
Proof.
  intros Hwf.
  assert (∀ body : HSM unit,
    snd ((body ;; gets m_state) m) = snd (body m)) as Hgets.
  { intros body. unfold mbind, M_bind, gets. by destruct (body m) as [[[]|e] m']. }
  unfold hsm_apply, vanished. unfold mbind at 1, M_bind at 1, gets at 1.
  destruct (g_phase (m_state m)) eqn:Hph; rewrite Hgets.
  - by apply apply_blinds_chips; auto.
  - by apply apply_deal_chips.
  - by apply apply_betting_chips.
  - destruct a; try (by apply chips_after_refl).
    destruct (settle_kept (m_state m) Hwf Hph) as [? ?]. by split.
  - destruct a; try (by apply chips_after_refl).
    destruct (clear_hand_kept (m_state m) Hwf Hph) as [? ?]. split; [done | simpl in *; lia].
  - by apply apply_blinds_chips; auto.
Qed.

(** States a hand can be driven to; rejected actions included, since the
    caller keeps using the machine. *)
Inductive reachable (ids : list string) (stack : Z) : HandStateMachine → Prop :=
| reach_new : reachable ids stack (new_machine ids stack)
| reach_apply m a : reachable ids stack m →
    reachable ids stack (snd (hsm_apply sha256 seed a m)).

Lemma reachable_chips ids stack m :
  (2 ≤ length ids)%nat → 0 <= stack → reachable ids stack m → chips_wf (m_state m).
Proof.
  intros Hn Hs. induction 1 as [|m a Hr IH]; [|by apply apply_chips].
  split; [split|]; simpl.
  - unfold bets_total; simpl. rewrite sum_by_fmap, sum_by_nil, (sum_by_ext _ (λ _, 0)), sum_by_const;
      [done | done].
  - apply Forall_fmap, Forall_true. intros id. simpl. lia.
  - constructor.
  - by rewrite length_fmap.
  - apply Forall_fmap, Forall_true. done.
Qed.

Lemma reachable_run ids stack acts :
  reachable ids stack (run_actions sha256 seed acts (new_machine ids stack)).
Proof.
  unfold run_actions.
  cut (∀ m, reachable ids stack m →
    reachable ids stack (foldl (λ m a, snd (hsm_apply sha256 seed a m)) m acts));
    [intros H; apply H; constructor|].
  induction acts as [|a acts IH]; intros m Hm; [done|]. simpl. apply IH. by constructor.
Qed.
End ApplyOne.

(** C1: chips are conserved. In every state a table of at least two seats can
    reach, an action (accepted or rejected) leaves stacks plus pot unchanged,
    except the showdown settlement, which loses exactly the side pots that no
    remaining player contends; no stack or bet goes negative, no bet exceeds
    the current bet, and the pot is the bets of the round plus the side pots. *)
Theorem apply_conserves_chips (sha256 : list Z → list Z) (seed : list Z) (ids : list string)
    (stack : Z) (m : HandStateMachine) (a : GameAction)
    (Hids : (2 ≤ length ids)%nat) (Hstack : 0 <= stack)
    (Hr : reachable sha256 seed ids stack m) :
  let m' := snd (hsm_apply sha256 seed a m) in
  table_chips (m_state m') + vanished m a = table_chips (m_state m) ∧
  g_pot (m_state m') = bets_total (m_state m') + sum_by sp_amount (g_sidePots (m_state m')) ∧
  Forall (λ p, 0 <= p_stack p ∧ 0 <= p_bet p <= g_currentBet (m_state m')) (g_players (m_state m')).
Proof.
  intros m'.
  destruct (apply_chips sha256 seed a m) as [[Hm' _] Ht]; [by eapply reachable_chips|].
  split_and!; [done | apply (mw_pot _ Hm') | apply (mw_seats _ Hm')].
Qed.

Definition demo_actions : list GameAction :=
  [PostBlind "a" 1; PostBlind "b" 2; NextAction; CallAction "a"; NextAction; NextAction;
   BetAction "b" 10]%string.

Lemma apply_conserves_chips_witness :
  table_chips (m_state (snd (hsm_apply (λ _, [1; 2; 3; 4]) [] (FoldAction "a")
    (run_actions (λ _, [1; 2; 3; 4]) [] demo_actions (new_machine ["a"; "b"] 100)))))%string + 0 = 200.
Proof.
  refine (proj1 (apply_conserves_chips (λ _, [1; 2; 3; 4]) [] ["a"; "b"]%string 100
    (run_actions (λ _, [1; 2; 3; 4]) [] demo_actions (new_machine ["a"; "b"]%string 100))
    (FoldAction "a"%string) _ _ _)).
  - simpl; lia.
  - lia.
  - apply reachable_run.
Defined.

(** Three players: [a] all in for 5, then [b] and [c] fold on the flop. *)
Definition abandoned_side_pot : list GameAction :=
  [PostBlind "a" 5; PostBlind "b" 5; PostBlind "c" 5; NextAction; BetAction "b" 10; CallAction "c";
   NextAction; NextAction; FoldAction "b"; FoldAction "c"]%string.

(** a side pot whose eligible players all fold later is paid to nobody and
    its chips leave the table: after this hand of three players with 100 chips
    each, only 280 of the 300 chips remain, and the pot is empty. *)
Lemma abandoned_side_pot_vanishes :
  let run acts := run_actions (λ _, [1; 2; 3; 4]) [] acts (new_machine ["a"; "b"; "c"]%string 100) in
  let before := m_state (run abandoned_side_pot) in
  let after := m_state (run (abandoned_side_pot ++ [NextAction])) in
  table_chips before = 300 ∧ g_phase before = SHOWDOWN ∧
  g_phase after = SETTLE ∧ g_pot after = 0 ∧ table_chips after = 280 ∧
  p_stack <$> g_players after = [110; 85; 85].
Proof. vm_compute. split_and!; reflexivity. Qed.

(** A check is accepted from anyone at any time. While at least two players
    are in the hand, [check] by any id (a player facing a bet, a folded player,
    a stranger, out of turn) succeeds and changes nothing. *)
Lemma check_never_rejected (sha256 : list Z → list Z) (seed : list Z) (m : HandStateMachine)
    (id : string) (Hph : g_phase (m_state m) = BETTING_ROUND)
    (Hact : (2 ≤ active_count (g_players (m_state m)))%nat) :
  hsm_apply sha256 seed (CheckAction id) m = (Ret (m_state m), m).
Proof.
  unfold hsm_apply, mbind, M_bind, gets. rewrite Hph. unfold apply_betting, mbind, M_bind. simpl.
  assert (close_if_alone (m_state m) = m_state m) as ->; [|by destruct m].
  unfold close_if_alone. rewrite bool_decide_eq_false_2; [done|].
  unfold active_count, activePlayers in *. intros [_ H]. lia.
Qed.

Lemma check_never_rejected_witness :
  let m := run_actions (λ _, [1; 2; 3; 4]) [] demo_actions (new_machine ["a"; "b"]%string 100) in
  g_currentBet (m_state m) = 10 ∧
  hsm_apply (λ _, [1; 2; 3; 4]) [] (CheckAction "a"%string) m = (Ret (m_state m), m).
Proof.
  intros m. split; [vm_compute; reflexivity|].
  apply (check_never_rejected (λ _, [1; 2; 3; 4]) [] m); [vm_compute; reflexivity|].
  vm_compute. repeat constructor.
Defined.

(** ** Rejected actions *)

(** [m] either succeeds or leaves the machine as it found it. *)
Definition atomic {S A} (c : M S A) (s : S) : Prop := is_ret (fst (c s)) = false → snd (c s) = s.

Lemma atomic_gets_r {S A B} (c : M S A) (f : S → B) s : atomic c s → atomic (c ;; gets f) s.
Proof. unfold atomic, mbind, M_bind, gets. by destruct (c s) as [[a|e] s']. Qed.

Lemma atomic_modify_r {S A} (c : M S A) (f : S → S) s : atomic c s → atomic (c ;; modify f) s.
Proof. unfold atomic, mbind, M_bind, modify. by destruct (c s) as [[a|e] s']. Qed.

Lemma pop_some deck : (0 < length deck)%nat →
  ∃ c, fst (pop deck) = Some c ∧ length (snd (pop deck)) = (length deck - 1)%nat.
Proof.
  intros H. destruct deck as [|c deck _] using rev_ind; [simpl in H; lia|].
  exists c. rewrite pop_snoc. simpl. rewrite length_app. simpl. split; [done | lia].
Qed.

Lemma deal_loop_total {A} (l : list A) m :
  (length l ≤ length (g_deck (m_state m)))%nat → fst (for_each l (λ _, deal_one) m) = Ret tt.
Proof.
  revert m; induction l as [|x l IH]; intros m Hl; [done|]. simpl in Hl.
  cbn [for_each]. unfold mbind, M_bind. unfold deal_one at 1.
  destruct (pop_some (g_deck (m_state m))) as (c & Hc & Hlen); [lia|].
  destruct (pop (g_deck (m_state m))) as [o deck]; simpl in *; subst o. apply IH. simpl. lia.
Qed.

Section Atomic.
Context (sha256 : list Z → list Z) (seed : list Z).

Lemma length_buildDeck excluded :
  length (buildDeck sha256 seed excluded) = length (filter (λ c, c ∉ excluded) standardDeck).
Proof. by rewrite buildDeck_perm. Qed.

Lemma dealCommunity_atomic n m : atomic (dealCommunity sha256 seed n) m.
Proof.
  unfold atomic, dealCommunity, mbind, M_bind, gets, throw_if, throw, mret, M_ret. cbv beta iota.
  case_bool_decide; cbn [negb]; [|done]. unfold ensureDeckCapacity.
  case_bool_decide as H1; [case_bool_decide as H2; [done|]|].
  - cbv iota beta. rewrite deal_loop_total; [done|].
    rewrite length_replicate. cbn [m_state g_deck set_cards]. rewrite length_buildDeck. lia.
  - cbv iota beta. rewrite deal_loop_total; [done|]. rewrite length_replicate. lia.
Qed.
End Atomic.

Lemma hsm_apply_atomic (sha256 : list Z → list Z) (seed : list Z) (a : GameAction)
    (m : HandStateMachine) : atomic (hsm_apply sha256 seed a) m.
Proof.
  unfold hsm_apply.
  assert (atomic ((match g_phase (m_state m) with
     | WAIT_BLINDS | NEXT_HAND => apply_blinds sha256 seed a
     | DEAL => apply_deal sha256 seed a
     | BETTING_ROUND => apply_betting a
     | SHOWDOWN => apply_showdown a
     | SETTLE => apply_settle a end) ;; gets m_state) m) as H; [|exact H].
  apply atomic_gets_r.
  assert (apply_blinds_atomic : atomic (apply_blinds sha256 seed a) m).
  { destruct a as [id v| | | | | |]; try done. unfold atomic, apply_blinds.
    destruct (findPlayer_cases id m) as [(i & p & Hf & Hi & _)|[e He]].
    2: { by rewrite (bind_throw _ _ _ _ _ He). }
    rewrite (bind_ret _ _ _ _ _ Hf).
    destruct (placeBet_cases i p v m Hi) as [[_ Hp]|[_ [e He]]].
    2: { by rewrite (bind_throw _ _ _ _ _ He). }
    rewrite (bind_ret _ _ _ _ _ Hp).
    unfold mbind, M_bind, blinds_modify, modify, gets. cbn. by case_bool_decide. }
  destruct (g_phase (m_state m)); [done| | |by destruct a|by destruct a|done].
  - destruct a; try done. unfold apply_deal. apply atomic_modify_r.
    change (atomic (match g_street (m_state m) with flop => dealCommunity sha256 seed 3
      | turn | river => dealCommunity sha256 seed 1 | _ => mret tt end) m).
    destruct (g_street (m_state m)); try done; apply dealCommunity_atomic.
  - apply atomic_modify_r.
    assert (∀ id amount, atomic (i ← findPlayer id; v ← gets (λ m, amount m i); placeBet i v) m) as Hbet.
    { intros id amount. unfold atomic.
      destruct (bet_cases id amount m) as [(i & p & v & _ & _ & _ & _ & E)|[e E]]; by rewrite E. }
    destruct a as [id v|id v|id v|id|id|id|].
    1-3: exact (Hbet id (λ _ _, v)).
    2, 4: done.
    + exact (Hbet id (λ m i, g_currentBet (m_state m)
                             - from_option p_bet 0 (g_players (m_state m) !! i))).
    + unfold atomic, mbind, M_bind, findPlayer.
      by destruct (find_seat id (g_players (m_state m))).
Qed.

(** C32: a rejected action changes nothing: whenever [hsm_apply] throws, in any
    phase and from any state, the machine is exactly as it was before. *)
Theorem rejected_action_changes_nothing (sha256 : list Z → list Z) (seed : list Z)
    (a : GameAction) (m : HandStateMachine)
    (Hrej : is_ret (fst (hsm_apply sha256 seed a m)) = false) :
  snd (hsm_apply sha256 seed a m) = m.
Proof. exact (hsm_apply_atomic sha256 seed a m Hrej). Qed.

Lemma rejected_action_changes_nothing_witness :
  let m := run_actions (λ _, [1; 2; 3; 4]) [] demo_actions (new_machine ["a"; "b"]%string 100) in
  snd (hsm_apply (λ _, [1; 2; 3; 4]) [] (BetAction "a" 101)%string m) = m.
Proof.
  exact (rejected_action_changes_nothing (λ _, [1; 2; 3; 4]) [] (BetAction "a" 101)%string
    (run_actions (λ _, [1; 2; 3; 4]) [] demo_actions (new_machine ["a"; "b"]%string 100)) eq_refl).
Defined.

(** ** Cards *)

Definition cards_in_play (s : GameStateInternal) : list Z := g_deck s ++ used_cards s.

(** Community cards by street: before the street is dealt, and after. *)
Definition dealt_before (st : Street) : option nat :=
  match st with preflop | flop => Some 0 | turn => Some 3 | river => Some 4 | showdown => None end%nat.
Definition dealt_after (st : Street) : option nat :=
  match st with preflop => Some 0 | flop => Some 3 | turn => Some 4 | river => Some 5
  | showdown => None end%nat.

Definition street_wf (s : GameStateInternal) : Prop :=
  match g_phase s with
  | WAIT_BLINDS | NEXT_HAND => g_communityCards s = [] ∧ g_street s = preflop
  | DEAL => dealt_before (g_street s) = Some (length (g_communityCards s))
  | BETTING_ROUND => dealt_after (g_street s) = Some (length (g_communityCards s))
  | SHOWDOWN | SETTLE => (length (g_communityCards s) ≤ 5)%nat
  end.

Definition cards_wf (s : GameStateInternal) : Prop :=
  (2 * length (g_players s) + 5 ≤ length standardDeck)%nat ∧ street_wf s ∧
  match g_phase s with
  | WAIT_BLINDS | NEXT_HAND => True
  | _ => cards_in_play s ≡ₚ standardDeck ∧
         Forall (λ p, length (hole_cards p) = 2%nat) (g_players s)
  end.

(** What the invariant reads of a table. *)
Definition same_cards (s s' : GameStateInternal) : Prop :=
  g_deck s' = g_deck s ∧ g_communityCards s' = g_communityCards s ∧
  hole_cards <$> g_players s' = hole_cards <$> g_players s.

Lemma same_cards_play s s' : same_cards s s' → cards_in_play s' = cards_in_play s.
Proof.
  intros (Hd & Hc & Hh). unfold cards_in_play, used_cards. rewrite Hd, Hc. do 2 f_equal.
  rewrite !list_bind_fmap_join || idtac.
  assert (∀ ps : list PlayerStateInternal, ps ≫= hole_cards = mjoin (hole_cards <$> ps)) as Hj.
  { induction ps as [|p ps IH]; [done|]. rewrite bind_cons, IH. done. }
  by rewrite !Hj, Hh.
Qed.

Lemma same_cards_holes s s' :
  same_cards s s' → Forall (λ p, length (hole_cards p) = 2%nat) (g_players s) →
  Forall (λ p, length (hole_cards p) = 2%nat) (g_players s').
Proof.
  intros (_ & _ & Hh). exact (fmap_same_Forall hole_cards (λ l, length l = 2%nat) _ _ (eq_sym Hh)).
Qed.

Lemma same_cards_size s s' : same_cards s s' → length (g_players s') = length (g_players s).
Proof. intros (_ & _ & Hh). apply (f_equal length) in Hh. by rewrite !length_fmap in Hh. Qed.

(** Moving between dealt phases with the same cards. *)
Lemma cards_wf_move s s' :
  cards_wf s → same_cards s s' → street_wf s' →
  match g_phase s with WAIT_BLINDS | NEXT_HAND => False | _ => True end → cards_wf s'.
Proof.
  intros (Hsize & _ & Hc) Hsame Hst Hph. split_and!; [by rewrite (same_cards_size _ _ Hsame) | done |].
  assert (cards_in_play s' ≡ₚ standardDeck ∧
          Forall (λ p, length (hole_cards p) = 2%nat) (g_players s')) as H.
  { rewrite (same_cards_play _ _ Hsame). destruct (g_phase s); try done.
    all: destruct Hc; split; [done | by eapply same_cards_holes]. }
  by destruct (g_phase s').
Qed.

Lemma used_snoc deck comm ps (c : Z) :
  deck ++ (comm ++ [c]) ++ (ps ≫= hole_cards) ≡ₚ (deck ++ [c]) ++ comm ++ (ps ≫= hole_cards).
Proof. solve_Permutation. Qed.

(** Dealing [n] community cards from a deck that holds them. *)
Lemma deal_loop_cards_perm {A} (l : list A) m :
  (length l ≤ length (g_deck (m_state m)))%nat →
  let m' := snd (for_each l (λ _, deal_one) m) in
  ∃ deck comm, m' = Machine (set_cards deck comm (m_state m)) (m_blindsPosted m) ∧
    cards_in_play (m_state m') ≡ₚ cards_in_play (m_state m) ∧
    length comm = (length (g_communityCards (m_state m)) + length l)%nat.
Proof.
  revert m; induction l as [|x l IH]; intros m Hl; simpl in Hl.
  - exists (g_deck (m_state m)), (g_communityCards (m_state m)). simpl.
    split_and!; [by destruct m as [[] ?] | done | lia].
  - cbn [for_each]. unfold mbind, M_bind. unfold deal_one at 1 2 3.
    destruct (g_deck (m_state m)) as [|c deck _] eqn:E using rev_ind; [simpl in Hl; lia|].
    rewrite pop_snoc. rewrite length_app in Hl. simpl in Hl.
    destruct (IH (Machine (set_cards deck (g_communityCards (m_state m) ++ [c]) (m_state m))
      (m_blindsPosted m))) as (d' & c' & Em & Hp & Hlen); [simpl; lia|].
    exists d', c'. split_and!.
    + exact Em.
    + etransitivity; [exact Hp|]. unfold cards_in_play, used_cards. simpl. rewrite E. apply used_snoc.
    + simpl in Hlen. rewrite length_app in Hlen. simpl in *. lia.
Qed.

Section ApplyCards.
Context (sha256 : list Z → list Z) (seed : list Z).

Lemma NoDup_used s : cards_in_play s ≡ₚ standardDeck → NoDup (used_cards s).
Proof.
  intros H. pose proof NoDup_standardDeck as Hnd. rewrite <- H in Hnd.
  unfold cards_in_play in Hnd. by apply NoDup_app in Hnd as (_ & _ & ?).
Qed.

Lemma remove_dups_NoDup (l : list Z) : NoDup l → length (remove_dups l) = length l.
Proof.
  intros H. assert (remove_dups l ≡ₚ l) as ->; [|done].
  apply NoDup_Permutation; [apply NoDup_remove_dups | done | apply elem_of_remove_dups].
Qed.

Lemma length_in_play s : cards_in_play s ≡ₚ standardDeck →
  (length (g_deck s) + length (used_cards s))%nat = length standardDeck.
Proof. intros H. rewrite <- H. unfold cards_in_play. by rewrite length_app. Qed.

(** With one deck in play no reshuffle happens and the cards come off the deck. *)
Lemma dealCommunity_one_deck n m :
  cards_in_play (m_state m) ≡ₚ standardDeck → (n ≤ length (g_deck (m_state m)))%nat →
  length (g_communityCards (m_state m)) = expectedCommunityCountBeforeDeal (m_state m) →
  ∃ deck comm, dealCommunity sha256 seed n m
      = (Ret tt, Machine (set_cards deck comm (m_state m)) (m_blindsPosted m)) ∧
    deck ++ comm ++ (g_players (m_state m) ≫= hole_cards) ≡ₚ standardDeck ∧
    length comm = (length (g_communityCards (m_state m)) + n)%nat.
Proof.
  intros Hone Hn Hexp. unfold dealCommunity, mbind, M_bind, gets, throw_if, throw, mret, M_ret.
  cbv beta iota. rewrite bool_decide_eq_true_2 by done. cbn [negb]. unfold ensureDeckCapacity.
  pose proof (length_in_play _ Hone) as Hlen.
  rewrite (remove_dups_NoDup _ (NoDup_used _ Hone)).
  rewrite bool_decide_eq_false_2 by (intros [?|?]; lia). cbv beta iota.
  pose proof (deal_loop_total (replicate n tt) m) as Ht.
  pose proof (deal_loop_cards_perm (replicate n tt) m) as Hp.
  rewrite length_replicate in Ht, Hp. specialize (Ht Hn).
  destruct (Hp Hn) as (deck & comm & Em & Hperm & Hc).
  exists deck, comm. split_and!; [| |done].
  - by rewrite (surjective_pairing (for_each _ _ m)), Ht, Em.
  - rewrite Em in Hperm. rewrite <- Hone. exact Hperm.
Qed.

Lemma deal_hands_cards s :
  cards_wf s → g_phase s = WAIT_BLINDS ∨ g_phase s = NEXT_HAND → cards_wf (deal_hands sha256 seed s).
Proof.
  intros (Hsize & Hst & _) Hph.
  assert (g_communityCards s = [] ∧ g_street s = preflop) as [Hcm Hstr]
    by (unfold street_wf in Hst; by destruct Hph as [E|E]; rewrite E in Hst).
  unfold deal_hands.
  pose proof (buildDeck_perm sha256 seed []) as Hdeck.
  assert (filter (λ c : Z, c ∉ []) standardDeck = standardDeck) as Hall by (vm_compute; reflexivity).
  rewrite Hall in Hdeck.
  assert (length (buildDeck sha256 seed []) = length standardDeck) as Hlen by (by rewrite Hdeck).
  pose proof (deal_holes_spec (g_players s) (buildDeck sha256 seed [])) as H.
  rewrite Hlen in H. specialize (H ltac:(lia)).
  destruct (deal_holes _ (g_players s)) as [ps deck].
  destruct H as (Hp & Hf & _ & Hc & _).
  apply (f_equal length) in Hc. rewrite !length_fmap in Hc. rewrite <- Hc in Hsize.
  split_and!; [exact Hsize | |split; [|exact Hf]].
  - unfold street_wf; simpl. by rewrite Hcm, Hstr.
  - unfold cards_in_play, used_cards; simpl. by rewrite Hcm, app_nil_l, Hp.
Qed.
End ApplyCards.

Lemma finish_round_cards s :
  let s' := finishBettingRound s in
  same_cards s s' ∧ g_street s' = g_street s ∧ g_phase s' = g_phase s.
Proof.
  unfold finishBettingRound. destruct (bettors_of s); simpl; [done|]. unfold same_cards; simpl.
  split_and!; try done. by rewrite <- list_fmap_compose.
Qed.

Lemma street_wf_le s :
  street_wf s → match g_phase s with WAIT_BLINDS | NEXT_HAND => False | _ => True end →
  (length (g_communityCards s) ≤ 5)%nat.
Proof.
  unfold street_wf, dealt_before, dealt_after.
  destruct (g_phase s), (g_street s); intros H Hp; try done; injection H; lia.
Qed.

Lemma close_if_alone_cards s : cards_wf s → cards_wf (close_if_alone s).
Proof.
  intros Hwf. rewrite close_if_alone_eq. case_bool_decide as Hc; [|done]. destruct Hc as [Hph _].
  destruct (finish_round_cards s) as ((Hd & Hcm & Hh) & _ & _).
  apply (cards_wf_move s); [done | done | | by rewrite Hph].
  unfold street_wf; simpl. rewrite Hcm. apply street_wf_le; [apply Hwf | by rewrite Hph].
Qed.

Lemma next_street_cards s : cards_wf s → g_phase s = BETTING_ROUND → cards_wf (next_street s).
Proof.
  intros Hwf Hph. destruct (finish_round_cards s) as ((Hd & Hcm & Hh) & Hst & _).
  pose proof Hwf as (_ & Hs & _). unfold street_wf in Hs. rewrite Hph in Hs.
  apply (cards_wf_move s); [done | | | by rewrite Hph].
  - unfold next_street. case_decide; done.
  - unfold next_street. case_decide as Hr; rewrite Hst in Hr; unfold street_wf; simpl; rewrite Hcm.
    + rewrite Hr in Hs. injection Hs. lia.
    + rewrite Hst. by destruct (g_street s).
Qed.

Lemma settlePots_cards s :
  same_cards s (settlePots s) ∧ g_street (settlePots s) = g_street s.
Proof.
  unfold settlePots. destruct (active_seats (g_players s)); [done|]. split; [split_and!|]; try done.
  simpl. apply list_eq. intros i. rewrite !list_lookup_fmap, settle_pots_lookup.
  by destruct (g_players s !! i).
Qed.

Section ApplyCards2.
Context (sha256 : list Z → list Z) (seed : list Z).

Lemma placed_bet_cards s i p v :
  g_players s !! i = Some p → cards_wf s → cards_wf (placed_bet i p v s).
Proof.
  intros Hi Hwf.
  assert (same_cards s (placed_bet i p v s)) as Hsame.
  { split_and!; try done. simpl. by eapply list_fmap_insert_same. }
  destruct Hwf as (Hsize & Hst & Hc). split_and!; [|done|].
  - by rewrite (same_cards_size _ _ Hsame).
  - rewrite (same_cards_play _ _ Hsame). simpl g_phase. destruct (g_phase s); try done.
    all: split; [apply Hc | by eapply same_cards_holes; [exact Hsame | apply Hc]].
Qed.

Lemma apply_betting_cards a m :
  cards_wf (m_state m) → g_phase (m_state m) = BETTING_ROUND →
  cards_wf (m_state (snd (apply_betting a m))).
Proof.
  intros Hwf Hph.
  assert (∀ id amount, cards_wf (m_state (snd (((i ← findPlayer id; a ← gets (λ m, amount m i);
    placeBet i a) ;; state_modify close_if_alone) m)))) as Hbet.
  { intros id amount. destruct (bet_cases id amount m) as [(i & p & v & Hi & _ & _ & _ & E)|[e E]].
    - rewrite (bind_ret _ _ _ _ _ E). by apply close_if_alone_cards, placed_bet_cards.
    - by rewrite (bind_throw _ _ _ _ _ E). }
  destruct a as [id v|id v|id v|id|id|id|]; unfold apply_betting.
  - exact (Hbet id (λ _ _, v)).
  - exact (Hbet id (λ _ _, v)).
  - exact (Hbet id (λ _ _, v)).
  - exact (Hbet id (λ m i, g_currentBet (m_state m)
                           - from_option p_bet 0 (g_players (m_state m) !! i))).
  - by apply close_if_alone_cards.
  - unfold mbind, M_bind, findPlayer. destruct (find_seat id (g_players (m_state m))) as [i|]; [|done].
    apply close_if_alone_cards. apply (cards_wf_move (m_state m)); [done | | | by rewrite Hph].
    + split_and!; try done. simpl. by apply list_fmap_alter_same.
    + apply Hwf.
  - by apply close_if_alone_cards, next_street_cards.
Qed.

Lemma apply_blinds_cards a m :
  cards_wf (m_state m) → g_phase (m_state m) = WAIT_BLINDS ∨ g_phase (m_state m) = NEXT_HAND →
  cards_wf (m_state (snd (apply_blinds sha256 seed a m))).
Proof.
  intros Hwf Hph. destruct a as [id v| | | | | |]; try done. unfold apply_blinds.
  destruct (findPlayer_cases id m) as [(i & p & Hf & Hi & _)|[e He]].
  2: { by rewrite (bind_throw _ _ _ _ _ He). }
  rewrite (bind_ret _ _ _ _ _ Hf).
  destruct (placeBet_cases i p v m Hi) as [[_ Hp]|[_ [e He]]].
  2: { by rewrite (bind_throw _ _ _ _ _ He). }
  rewrite (bind_ret _ _ _ _ _ Hp).
  pose proof (placed_bet_cards _ i p v Hi Hwf) as Hwf1.
  unfold mbind, M_bind, blinds_modify, modify, gets. cbn. case_bool_decide; [|exact Hwf1].
  exact (deal_hands_cards sha256 seed _ Hwf1 Hph).
Qed.

(** A deal in a state with one deck in play always goes through. *)
Lemma apply_deal_cards m :
  cards_wf (m_state m) → g_phase (m_state m) = DEAL →
  ∃ deck comm,
    apply_deal sha256 seed NextAction m
    = (Ret tt, Machine (set_phase BETTING_ROUND (set_cards deck comm (m_state m))) (m_blindsPosted m)) ∧
    cards_wf (set_phase BETTING_ROUND (set_cards deck comm (m_state m))).
Proof.
  intros (Hsize & Hst & Hone) Hph. unfold street_wf in Hst. rewrite Hph in Hst, Hone.
  destruct Hone as [Hone Hh]. pose proof (length_in_play _ Hone) as Hlen.
  assert (length (g_players (m_state m) ≫= hole_cards) = 2 * length (g_players (m_state m)))%nat as Hhl.
  { clear -Hh. induction Hh as [|p ps Hp _ IH]; [done|].
    rewrite bind_cons, length_app, Hp, IH. simpl. lia. }
  unfold used_cards in Hlen. rewrite length_app, Hhl in Hlen.
  assert (∀ n, dealt_after (g_street (m_state m))
               = Some (length (g_communityCards (m_state m)) + n)%nat →
     length (g_communityCards (m_state m)) = expectedCommunityCountBeforeDeal (m_state m) →
     (length (g_communityCards (m_state m)) + n ≤ 5)%nat →
     ∃ deck comm, (dealCommunity sha256 seed n ;; state_modify (set_phase BETTING_ROUND)) m
       = (Ret tt, Machine (set_phase BETTING_ROUND (set_cards deck comm (m_state m))) (m_blindsPosted m)) ∧
       cards_wf (set_phase BETTING_ROUND (set_cards deck comm (m_state m)))) as Hdeal.
  { intros n Hn Hexp H5.
    destruct (dealCommunity_one_deck sha256 seed n m Hone) as (deck & comm & E & Hp & Hc);
      [lia | done |].
    exists deck, comm. rewrite (bind_ret _ _ _ _ _ E). split; [done|].
    split_and!; [done | | by split]. unfold street_wf; simpl. by rewrite Hn, Hc. }
  unfold apply_deal, mbind at 1, M_bind at 1, gets at 1. unfold dealt_before in Hst.
  destruct (g_street (m_state m)) eqn:Es; try discriminate Hst; injection Hst as Hst.
  - exists (g_deck (m_state m)), (g_communityCards (m_state m)). split; [by destruct m as [[] ?]|].
    split_and!; [done | | by split]. unfold street_wf; simpl. rewrite Es. simpl. by rewrite <- Hst.
  - apply Hdeal; simpl; unfold expectedCommunityCountBeforeDeal; rewrite ?Es, <- ?Hst; simpl; done || lia.
  - apply Hdeal; simpl; unfold expectedCommunityCountBeforeDeal; rewrite ?Es, <- ?Hst; simpl; done || lia.
  - apply Hdeal; simpl; unfold expectedCommunityCountBeforeDeal; rewrite ?Es, <- ?Hst; simpl; done || lia.
Qed.

Lemma apply_cards a m :
  cards_wf (m_state m) → cards_wf (m_state (snd (hsm_apply sha256 seed a m))).
Proof.
  intros Hwf.
  assert (∀ body : HSM unit, snd ((body ;; gets m_state) m) = snd (body m)) as Hgets.
  { intros body. unfold mbind, M_bind, gets. by destruct (body m) as [[[]|e] m']. }
  unfold hsm_apply. unfold mbind at 1, M_bind at 1, gets at 1.
  destruct (g_phase (m_state m)) eqn:Hph; rewrite Hgets.
  - by apply apply_blinds_cards; auto.
  - destruct a; try done. destruct (apply_deal_cards m Hwf Hph) as (d & c & E & H). by rewrite E.
  - by apply apply_betting_cards.
  - destruct a; try done. destruct (settlePots_cards (m_state m)) as [Hsame Hst].
    apply (cards_wf_move (m_state m)); [done | done | | by rewrite Hph].
    unfold street_wf; simpl. destruct Hsame as (_ & Hcm & _). rewrite Hcm.
    apply street_wf_le; [apply Hwf | by rewrite Hph].
  - destruct a; try done. destruct Hwf as (Hsize & _ & _). split_and!; [|done|done].
    simpl g_players. by rewrite length_fmap.
  - by apply apply_blinds_cards; auto.
Qed.

Lemma reachable_cards ids stack m :
  (2 * length ids + 5 ≤ length standardDeck)%nat → reachable sha256 seed ids stack m →
  cards_wf (m_state m).
Proof.
  intros Hn. induction 1 as [|m a Hr IH]; [|by apply apply_cards].
  split_and!; [|done|done]. simpl g_players. by rewrite length_fmap.
Qed.
End ApplyCards2.

(** C5: one deck. In every reachable state of a table of at most 23 seats, from
    the deal to the end of the hand, deck, community cards and hole cards are
    together exactly the 52 cards, each once, every player holds two, and the
    number of community cards is the street's (none, 3, 4, 5) -- whatever bytes
    the generator delivers, since [buildDeck] repairs a defective shuffle. In
    particular no card is burned before a street, other than docs/game-engine.md
    says. *)
Theorem hand_uses_one_deck (sha256 : list Z → list Z) (seed : list Z) (ids : list string)
    (stack : Z) (m : HandStateMachine)
    (Hids : (2 * length ids + 5 ≤ length standardDeck)%nat)
    (Hr : reachable sha256 seed ids stack m)
    (Hph : g_phase (m_state m) ≠ WAIT_BLINDS ∧ g_phase (m_state m) ≠ NEXT_HAND) :
  g_deck (m_state m) ++ g_communityCards (m_state m) ++ (g_players (m_state m) ≫= hole_cards)
    ≡ₚ standardDeck ∧
  Forall (λ p, length (hole_cards p) = 2%nat) (g_players (m_state m)) ∧
  (g_phase (m_state m) = BETTING_ROUND →
   dealt_after (g_street (m_state m)) = Some (length (g_communityCards (m_state m)))).
Proof.
  destruct (reachable_cards sha256 seed ids stack m Hids Hr) as (_ & Hst & Hc).
  unfold street_wf in Hst. destruct Hph as [H1 H2].
  destruct (g_phase (m_state m)); try done; destruct Hc; by split_and!.
Qed.

Lemma hand_uses_one_deck_witness :
  let m := run_actions (λ _, [128; 0; 0; 0]) [] demo_actions (new_machine ["a"; "b"]%string 100) in
  g_deck (m_state m) ++ g_communityCards (m_state m) ++ (g_players (m_state m) ≫= hole_cards)
    ≡ₚ standardDeck.
Proof.
  refine (proj1 (hand_uses_one_deck (λ _, [128; 0; 0; 0]) [] ["a"; "b"]%string 100
    (run_actions (λ _, [128; 0; 0; 0]) [] demo_actions (new_machine ["a"; "b"]%string 100)) _ _ _)).
  - vm_compute. repeat constructor.
  - apply reachable_run.
  - vm_compute. split; discriminate.
Defined.

(** C36: dealing never blocks. From every reachable state in phase [DEAL] the
    [next] action succeeds, opens the betting round and deals the cards of the
    street: three on the flop, one on turn and river, none before the flop. *)
Theorem deal_always_succeeds (sha256 : list Z → list Z) (seed : list Z) (ids : list string)
    (stack : Z) (m : HandStateMachine)
    (Hids : (2 * length ids + 5 ≤ length standardDeck)%nat)
    (Hr : reachable sha256 seed ids stack m) (Hph : g_phase (m_state m) = DEAL) :
  ∃ s, fst (hsm_apply sha256 seed NextAction m) = Ret s ∧ g_phase s = BETTING_ROUND ∧
    g_street s = g_street (m_state m) ∧ table_chips s = table_chips (m_state m) ∧
    dealt_after (g_street s) = Some (length (g_communityCards s)).
Proof.
  pose proof (reachable_cards sha256 seed ids stack m Hids Hr) as Hwf.
  destruct (apply_deal_cards sha256 seed m Hwf Hph) as (deck & comm & E & (_ & Hst & _)).
  exists (set_phase BETTING_ROUND (set_cards deck comm (m_state m))). split; [|by split_and!].
  unfold hsm_apply, mbind, M_bind, gets. rewrite Hph. unfold mbind, M_bind, gets in E. by rewrite E.
Qed.

Lemma deal_always_succeeds_witness :
  let m := run_actions (λ _, [1; 2; 3; 4]) [] (take 2 demo_actions) (new_machine ["a"; "b"]%string 100) in
  ∃ s, fst (hsm_apply (λ _, [1; 2; 3; 4]) [] NextAction m) = Ret s ∧ g_phase s = BETTING_ROUND ∧
    g_street s = g_street (m_state m) ∧ table_chips s = table_chips (m_state m) ∧
    dealt_after (g_street s) = Some (length (g_communityCards s)).
Proof.
  apply (deal_always_succeeds (λ _, [1; 2; 3; 4]) [] ["a"; "b"]%string 100).
  - vm_compute. repeat constructor.
  - apply reachable_run.
  - vm_compute. reflexivity.
Defined.
