(* ===== verification/Store.v ===== *)
(** * Interfaces of the services the backend stores its state in

    TypeORM repositories ([TableOps], [TableLaws]), Redis ([RedisOps],
    [RedisLaws], and its lists and hashes) and the event publisher ([BusOps], [BusLaws]) are classes: the
    components are defined over the operations and proved from the laws, which
    state the documented behaviour of those packages. [list_table], [map_redis]
    and [list_bus] are concrete instances on which the definitions run. Lost
    connections and the expiry of Redis keys are not modelled. *)

From S2P Require Import Prelude.
#[local] Open Scope Z_scope.

(** ** Tables *)

(** An entity has a primary key, and unique columns that a row can clash on. *)
Class Entity (Row : Type) := {
  row_id : Row → string;
  row_clash : Row → Row → bool }.

Class TableOps (T : Type → Type) := {
  (** [repo.find()] *)
  rows {Row : Type} : T Row → list Row;
  (** [repo.insert(r)]: fails when a unique column is already taken *)
  insert_row {Row : Type} {E : Entity Row} : Row → T Row → option (T Row);
  (** [repo.save(r)]: replaces the row with that key, or adds it *)
  save_row {Row : Type} {E : Entity Row} : Row → T Row → T Row;
  (** [repo.delete(where)] and [repo.update(where, set)] *)
  delete_where {Row : Type} : (Row → bool) → T Row → T Row;
  update_where {Row : Type} : (Row → bool) → (Row → Row) → T Row → T Row }.

Class TableLaws (T : Type → Type) `{!TableOps T} := {
  rows_insert {Row} `{!Entity Row} (r : Row) (t t' : T Row) :
    insert_row r t = Some t' → rows t' ≡ₚ r :: rows t;
  insert_clash {Row} `{!Entity Row} (r : Row) (t : T Row) :
    insert_row r t = None ↔ ∃ r', r' ∈ rows t ∧ (row_id r' = row_id r ∨ row_clash r' r = true);
  rows_save {Row} `{!Entity Row} (r : Row) (t : T Row) :
    rows (save_row r t) ≡ₚ r :: filter (λ r', row_id r' ≠ row_id r) (rows t);
  rows_delete {Row} (p : Row → bool) (t : T Row) :
    rows (delete_where p t) ≡ₚ filter (λ r, ¬ p r) (rows t);
  rows_update {Row} (p : Row → bool) (f : Row → Row) (t : T Row) :
    rows (update_where p f t) ≡ₚ (λ r, if p r then f r else r) <$> rows t }.

(** [repo.find({ where })] and [repo.findOne({ where })]. *)
Definition find_rows {T} `{!TableOps T} {Row} (p : Row → bool) (t : T Row) : list Row :=
  filter (λ r, p r) (rows t).
Definition find_row {T} `{!TableOps T} {Row} (p : Row → bool) (t : T Row) : option Row :=
  head (find_rows p t).

(** Lists as tables. *)
#[export] Instance list_table_ops : TableOps list := {
  rows _ t := t;
  insert_row _ _ r t :=
    if existsb (λ r', bool_decide (row_id r' = row_id r) || row_clash r' r) t then None
    else Some (t ++ [r]);
  save_row _ _ r t :=
    if existsb (λ r', bool_decide (row_id r' = row_id r)) t
    then (fix go (t : list _) := match t with
          | [] => []
          | r' :: t' => if bool_decide (row_id r' = row_id r)
                        then r :: filter (λ x, row_id x ≠ row_id r) t' else r' :: go t'
          end) t
    else t ++ [r];
  delete_where _ p t := filter (λ r, ¬ p r) t;
  update_where _ p f t := (λ r, if p r then f r else r) <$> t }.

Lemma existsb_id_false {Row} `{!Entity Row} (r : Row) (t : list Row) :
  existsb (λ r', bool_decide (row_id r' = row_id r)) t = false →
  filter (λ r', row_id r' ≠ row_id r) t = t.
Proof.
  induction t as [|x t IH]; simpl; [done|]. intros [Hx Ht]%orb_false_iff.
  apply bool_decide_eq_false in Hx. by rewrite filter_cons, decide_True, IH.
Qed.

Lemma save_go_perm {Row} `{!Entity Row} (r : Row) (t : list Row) :
  existsb (λ r', bool_decide (row_id r' = row_id r)) t = true →
  (fix go (t : list Row) := match t with
          | [] => []
          | r' :: t' => if bool_decide (row_id r' = row_id r)
                        then r :: filter (λ x, row_id x ≠ row_id r) t' else r' :: go t'
          end) t ≡ₚ r :: filter (λ r', row_id r' ≠ row_id r) t.
Proof.
  induction t as [|x t IH]; [done|]. cbn [existsb]. rewrite filter_cons. case_bool_decide as Hx.
  - intros _. rewrite decide_False by tauto. done.
  - intros Ht. rewrite decide_True by done. rewrite (IH Ht). apply Permutation_swap.
Qed.

#[export] Instance list_table_laws : TableLaws list.
Proof.
  split; unfold rows, insert_row, save_row, delete_where, update_where, list_table_ops.
  - intros Row E r t t'. destruct (existsb _ t); [done|]. intros [= <-]. by rewrite Permutation_app_comm.
  - intros Row E r t. destruct (existsb _ t) eqn:Hx.
    + split; [intros _|done]. apply existsb_exists in Hx as (r' & Hr' & H%orb_true_iff).
      exists r'. split; [by apply list_elem_of_In|]. destruct H as [H%bool_decide_eq_true|H]; auto.
    + split; [done|]. intros (r' & Hr' & H).
      assert (existsb (λ r', bool_decide (row_id r' = row_id r) || row_clash r' r) t = true); [|congruence].
      apply existsb_exists. exists r'. split; [by apply list_elem_of_In|].
      apply orb_true_iff. destruct H; [left; by apply bool_decide_eq_true | by right].
  - intros Row E r t. destruct (existsb _ t) eqn:Hx; [by apply save_go_perm|].
    by rewrite existsb_id_false, Permutation_app_comm.
  - done.
  - done.
Qed.

Section TableFacts.
Context {T : Type → Type} `{!TableOps T, !TableLaws T} {Row : Type} `{!Entity Row}.
Implicit Types (t : T Row) (r : Row).

Definition unique_ids (t : T Row) : Prop := NoDup (row_id <$> rows t).

Lemma find_row_Some p t r : find_row p t = Some r → r ∈ rows t ∧ p r = true.
Proof.
  unfold find_row, find_rows. intros H.
  assert (r ∈ filter (λ r, p r) (rows t)) as Hin.
  { destruct (filter _ (rows t)); simplify_eq/=. apply elem_of_cons; by left. }
  apply list_elem_of_filter in Hin as [Hp Hin]. split; [done|]. by destruct (p r).
Qed.

Lemma find_row_None p t : find_row p t = None → ∀ r, r ∈ rows t → p r = false.
Proof.
  unfold find_row, find_rows. intros H r Hr.
  destruct (p r) eqn:E; [|done].
  assert (r ∈ filter (λ r, p r) (rows t)) as Hin
    by (apply list_elem_of_filter; split; [by rewrite E | done]).
  destruct (filter _ (rows t)); [by apply elem_of_nil in Hin | done].
Qed.

Lemma unique_ids_insert r t t' : insert_row r t = Some t' → unique_ids t → unique_ids t'.
Proof.
  intros H Hu. unfold unique_ids. rewrite (rows_insert _ _ _ H), fmap_cons.
  apply NoDup_cons. split; [|done]. intros (r' & Hid & Hr')%list_elem_of_fmap.
  assert (insert_row r t = None) as E; [|congruence].
  apply insert_clash. exists r'. split; [done | by left].
Qed.

Lemma unique_ids_save r t : unique_ids t → unique_ids (save_row r t).
Proof.
  intros Hu. unfold unique_ids. rewrite rows_save, fmap_cons. apply NoDup_cons. split.
  - intros (r' & Hid & [Hne _]%list_elem_of_filter)%list_elem_of_fmap. congruence.
  - by apply NoDup_fmap_filter.
Qed.

Lemma unique_ids_delete p t : unique_ids t → unique_ids (delete_where p t).
Proof. intros Hu. unfold unique_ids. rewrite rows_delete. by apply NoDup_fmap_filter. Qed.

(** With unique keys, the row of a key is found whatever the order of the rows. *)
Lemma find_by_key t k r :
  unique_ids t → find_row (λ x, bool_decide (row_id x = k)) t = Some r ↔ r ∈ rows t ∧ row_id r = k.
Proof.
  intros Hu. split.
  - intros [Hr Hk%bool_decide_eq_true]%find_row_Some. done.
  - intros [Hr Hk]. destruct (find_row (λ x, bool_decide (row_id x = k)) t) as [r'|] eqn:E.
    + apply find_row_Some in E as [Hr' Hk'%bool_decide_eq_true]. f_equal.
      apply list_elem_of_lookup in Hr as [i Hi], Hr' as [j Hj].
      assert (i = j) as ->; [|congruence].
      eapply (NoDup_lookup _ i j (row_id r)); [exact Hu | |]; rewrite list_lookup_fmap.
      * by rewrite Hi.
      * rewrite Hj. simpl. by rewrite Hk, Hk'.
    + pose proof (find_row_None _ _ E r Hr) as H. by apply bool_decide_eq_false in H.
Qed.

Lemma find_save t k r :
  unique_ids t → find_row (λ x, bool_decide (row_id x = k)) (save_row r t)
                 = if decide (row_id r = k) then Some r
                   else find_row (λ x, bool_decide (row_id x = k)) t.
Proof.
  intros Hu. pose proof (unique_ids_save r t Hu) as Hu'. case_decide as Hk.
  - apply find_by_key; [done|]. rewrite rows_save. split; [by left | done].
  - destruct (find_row _ t) as [r0|] eqn:E.
    + apply find_by_key in E as [Hr Hk0]; [|done]. apply find_by_key; [done|]. rewrite rows_save.
      split; [|done]. right. apply list_elem_of_filter. split; [congruence | done].
    + destruct (find_row _ (save_row r t)) as [r0|] eqn:E'; [|done]. exfalso.
      apply find_by_key in E' as [Hr Hk0]; [|done]. rewrite rows_save in Hr.
      apply elem_of_cons in Hr as [->|[_ Hr]%list_elem_of_filter]; [done|].
      pose proof (find_row_None _ _ E r0 Hr) as H. by apply bool_decide_eq_false in H.
Qed.

(** Saving a row over its own current version. *)
Lemma sum_save f r r0 t :
  unique_ids t → r0 ∈ rows t → row_id r = row_id r0 →
  sum_by f (rows (save_row r t)) = sum_by f (rows t) - f r0 + f r.
Proof.
  intros Hu Hr Hid. rewrite rows_save, sum_by_cons.
  rewrite (sum_by_filter_split f (λ r', row_id r' ≠ row_id r) (rows t)).
  assert (filter (λ r', ¬ row_id r' ≠ row_id r) (rows t) ≡ₚ [r0]) as ->.
  { apply NoDup_Permutation.
    - apply (NoDup_fmap_1 row_id). by apply NoDup_fmap_filter.
    - apply NoDup_singleton.
    - intros x. rewrite list_elem_of_filter, list_elem_of_singleton. split.
      + intros [Hx Hin]. apply (NoDup_fmap_inj_in row_id (rows t)); try done.
        destruct (decide (row_id x = row_id r)); [congruence | done].
      + intros ->. split; [by intros [] | done]. }
  rewrite sum_by_cons, sum_by_nil. lia.
Qed.
End TableFacts.

(** ** Redis *)

Class RedisOps (R V : Type) := {
  r_get : string → R → option V;
  (** [SET key value EX ttl] and [SET key value EX ttl NX] *)
  r_set : string → V → Z → R → R;
  r_setnx : string → V → Z → R → bool * R;
  r_del : string → R → R;
  (** counters: [INCRBY], and the value [GET] would show *)
  r_count : string → R → Z;
  r_incrby : string → Z → R → Z * R;
  (** [EXPIRE] answers 1 or 0 *)
  r_expire : string → Z → R → Z * R;
  (** sorted sets *)
  r_zset : string → R → list (Z * string);
  r_zadd : string → Z → string → R → R;
  r_zremrangebyscore : string → Z → Z → R → R }.

Class RedisLaws (R V : Type) `{!RedisOps R V} := {
  get_set k k' v ttl r : r_get k' (r_set k v ttl r) = if decide (k' = k) then Some v else r_get k' r;
  setnx_spec k v ttl r : r_setnx k v ttl r =
    match r_get k r with Some _ => (false, r) | None => (true, r_set k v ttl r) end;
  get_del k k' r : r_get k' (r_del k r) = if decide (k' = k) then None else r_get k' r;
  count_set k k' v ttl r : k' ≠ k → r_count k' (r_set k v ttl r) = r_count k' r;
  count_del k k' r : r_count k' (r_del k r) = if decide (k' = k) then 0 else r_count k' r;
  incrby_fst k n r : fst (r_incrby k n r) = r_count k r + n;
  count_incrby k k' n r :
    r_count k' (snd (r_incrby k n r)) = if decide (k' = k) then r_count k r + n else r_count k' r;
  get_incrby k k' n r : k' ≠ k → r_get k' (snd (r_incrby k n r)) = r_get k' r;
  (** a counter is never read as a stored value *)
  get_counter k k' n r v : r_get k' (snd (r_incrby k n r)) = Some v → r_get k' r = Some v;
  count_expire k k' ttl r : r_count k' (snd (r_expire k ttl r)) = r_count k' r;
  get_expire k k' ttl r : r_get k' (snd (r_expire k ttl r)) = r_get k' r;
  count_zadd k k' s m r : r_count k' (r_zadd k s m r) = r_count k' r;
  count_zrem k k' lo hi r : r_count k' (r_zremrangebyscore k lo hi r) = r_count k' r;
  get_zadd k k' s m r v : r_get k' (r_zadd k s m r) = Some v → r_get k' r = Some v;
  get_zrem k k' lo hi r v : r_get k' (r_zremrangebyscore k lo hi r) = Some v → r_get k' r = Some v;
  zset_zadd k k' s m r : r_zset k' (r_zadd k s m r)
    ≡ₚ if decide (k' = k) then (s, m) :: filter (λ x, x.2 ≠ m) (r_zset k r) else r_zset k' r;
  zset_zrem k k' lo hi r : r_zset k' (r_zremrangebyscore k lo hi r)
    ≡ₚ if decide (k' = k) then filter (λ x, ¬ (lo <= x.1 <= hi)) (r_zset k r) else r_zset k' r }.

(** Maps as a Redis server. *)
Record map_redis (V : Type) := MapRedis {
  mr_vals : gmap string V; mr_counts : gmap string Z; mr_zsets : gmap string (list (Z * string)) }.
Arguments MapRedis {V}. Arguments mr_vals {V}. Arguments mr_counts {V}. Arguments mr_zsets {V}.

#[export] Instance map_redis_ops V : RedisOps (map_redis V) V := {
  r_get k r := mr_vals r !! k;
  r_set k v _ r := MapRedis (<[k := v]> (mr_vals r)) (mr_counts r) (mr_zsets r);
  r_setnx k v _ r := match mr_vals r !! k with
    | Some _ => (false, r)
    | None => (true, MapRedis (<[k := v]> (mr_vals r)) (mr_counts r) (mr_zsets r))
    end;
  r_del k r := MapRedis (delete k (mr_vals r)) (delete k (mr_counts r)) (mr_zsets r);
  r_count k r := default 0 (mr_counts r !! k);
  r_incrby k n r := let c := default 0 (mr_counts r !! k) + n in
    (c, MapRedis (mr_vals r) (<[k := c]> (mr_counts r)) (mr_zsets r));
  r_expire _ _ r := (1, r);
  r_zset k r := default [] (mr_zsets r !! k);
  r_zadd k s m r := MapRedis (mr_vals r) (mr_counts r)
    (<[k := (s, m) :: filter (λ x, x.2 ≠ m) (default [] (mr_zsets r !! k))]> (mr_zsets r));
  r_zremrangebyscore k lo hi r := MapRedis (mr_vals r) (mr_counts r)
    (<[k := filter (λ x, ¬ (lo <= x.1 <= hi)) (default [] (mr_zsets r !! k))]> (mr_zsets r)) }.

#[export] Instance map_redis_laws V : RedisLaws (map_redis V) V.
Proof.
  split; intros; simpl; rewrite ?lookup_insert, ?lookup_delete; repeat case_decide; try done.
  all: congruence.
Qed.

(** Lists under a key: [RPUSH], [LREM key 1 x], [LRANGE key 0 -1]. *)
Class RedisListOps (L X : Type) := {
  l_range : L → list X;
  l_push : X → L → L;
  l_rem : X → L → L }.

Fixpoint remove_first {A} `{!EqDecision A} (x : A) (l : list A) : list A :=
  match l with
  | [] => []
  | y :: l' => if decide (y = x) then l' else y :: remove_first x l'
  end.

Lemma remove_first_head {A} `{!EqDecision A} (x : A) l : remove_first x (x :: l) = l.
Proof. simpl. by rewrite decide_True. Qed.

Class RedisListLaws (L X : Type) `{!EqDecision X, !RedisListOps L X} := {
  range_push x l : l_range (l_push x l) = l_range l ++ [x];
  range_rem x l : l_range (l_rem x l) = remove_first x (l_range l) }.

#[export] Instance list_redis_list_ops X `{!EqDecision X} : RedisListOps (list X) X := {
  l_range l := l; l_push x l := l ++ [x]; l_rem := remove_first }.
#[export] Instance list_redis_list_laws X `{!EqDecision X} : RedisListLaws (list X) X.
Proof. done. Qed.

(** Sets under keys: [SMEMBERS], [SADD]. *)
Class RedisSetOps (S X : Type) := {
  s_members : string → S → list X;
  s_add : string → X → S → S }.

Class RedisSetLaws (S X : Type) `{!RedisSetOps S X} := {
  members_NoDup k s : NoDup (s_members k s);
  elem_of_add k k' x y s : y ∈ s_members k' (s_add k x s) ↔ (k' = k ∧ y = x) ∨ y ∈ s_members k' s }.

#[export] Instance map_redis_set_ops : RedisSetOps (gmap string (gset string)) string := {
  s_members k s := elements (default ∅ (s !! k)); s_add k x s := <[k := {[x]} ∪ default ∅ (s !! k)]> s }.
#[export] Instance map_redis_set_laws : RedisSetLaws (gmap string (gset string)) string.
Proof.
  split; intros; simpl; [apply NoDup_elements|]. rewrite !elem_of_elements, lookup_insert.
  case_decide; subst; set_solver.
Qed.

(** Hashes under a key: [HGET], [HSET], [HDEL], [HGETALL]. *)
Class RedisHashOps (H V : Type) := {
  h_get : string → H → option V;
  h_set : string → V → H → H;
  h_del : string → H → H;
  h_all : H → list (string * V) }.

Class RedisHashLaws (H V : Type) `{!RedisHashOps H V} := {
  hget_set k k' v h : h_get k' (h_set k v h) = if decide (k' = k) then Some v else h_get k' h;
  hget_del k k' h : h_get k' (h_del k h) = if decide (k' = k) then None else h_get k' h;
  h_all_get k v h : (k, v) ∈ h_all h ↔ h_get k h = Some v }.

#[export] Instance map_redis_hash_ops V : RedisHashOps (gmap string V) V := {
  h_get k h := h !! k; h_set k v h := <[k := v]> h; h_del k h := delete k h; h_all h := map_to_list h }.
#[export] Instance map_redis_hash_laws V : RedisHashLaws (gmap string V) V.
Proof.
  split; intros; simpl; rewrite ?lookup_insert, ?lookup_delete; repeat case_decide; try congruence.
  apply elem_of_map_to_list.
Qed.

(** [KEYS prefix*]: every stored value under the prefix is listed, and only keys with the prefix. *)
Class RedisKeysOps (R : Type) := { r_keys : string → R → list string }.
Class RedisKeysLaws (R V : Type) `{!RedisOps R V, !RedisKeysOps R} := {
  keys_all p k v r : r_get k r = Some v → String.prefix p k = true → k ∈ r_keys p r;
  keys_prefix p k r : k ∈ r_keys p r → String.prefix p k = true }.
#[export] Instance map_redis_keys_ops V : RedisKeysOps (map_redis V) := {
  r_keys p r := filter (λ k, String.prefix p k = true) (map_to_list (mr_vals r)).*1 }.
#[export] Instance map_redis_keys_laws V : RedisKeysLaws (map_redis V) V.
Proof.
  split; simpl; intros p k.
  - intros v r Hk Hp. apply list_elem_of_filter. split; [done|].
    apply list_elem_of_fmap. exists (k, v). split; [done | by apply elem_of_map_to_list].
  - by intros r [? _]%list_elem_of_filter.
Qed.

(** ** The event bus *)

(** What publishing promises its callers: an event is appended to what was
    published, or the call throws and nothing was published. *)
Class BusOps (B Ev : Type) := {
  published : B → list Ev;
  bus_emit : Ev → B → outcome unit * B }.

Class BusLaws (B Ev : Type) `{!BusOps B Ev} := {
  emit_spec ev b :
    match bus_emit ev b with
    | (Ret _, b') => published b' = published b ++ [ev]
    | (Throw _, b') => published b' = published b
    end }.

#[export] Instance list_bus_ops Ev : BusOps (list Ev) Ev := {
  published b := b; bus_emit ev b := (Ret tt, b ++ [ev]) }.
#[export] Instance list_bus_laws Ev : BusLaws (list Ev) Ev.
Proof. done. Qed.
