(* ===== verification/JsText.v ===== *)
(** * Strings and dates of JavaScript

    What the services use of [String] and [Date]: template strings over decimal
    numbers, [split], [slice], trimming, padding, and the UTC calendar date of a
    timestamp in milliseconds. *)

From stdpp Require Export pretty.
From S2P Require Import Prelude.
#[local] Open Scope Z_scope.

(** [${n}] for an integer. *)
Definition str_of_Z (n : Z) : string := pretty n.

(** [s.padStart(n, '0')] *)
Definition pad_start (n : nat) (s : string) : string :=
  String.string_of_list_ascii (replicate (n - String.length s) "0"%char ++ String.list_ascii_of_string s).

Definition str_rev_append (acc : list ascii) : string := String.string_of_list_ascii (rev acc).

Lemma length_string_of_list_ascii l : String.length (String.string_of_list_ascii l) = length l.
Proof. induction l as [|c l IH]; cbn; [done | by rewrite IH]. Qed.

(** [s.split(c)] for a one-character separator. *)
Fixpoint split_on (c : ascii) (acc : list ascii) (l : list ascii) : list string :=
  match l with
  | [] => [str_rev_append acc]
  | x :: l' => if Ascii.eqb x c then str_rev_append acc :: split_on c [] l'
               else split_on c (x :: acc) l'
  end.
Definition js_split (c : ascii) (s : string) : list string := split_on c [] (String.list_ascii_of_string s).

Lemma split_on_app c acc l1 l2 : split_on c acc (l1 ++ c :: l2) = split_on c acc l1 ++ split_on c [] l2.
Proof.
  revert acc. induction l1 as [|x l1 IH]; intros acc; cbn [app split_on]; [by rewrite Ascii.eqb_refl|].
  destruct (Ascii.eqb x c); cbn; by rewrite IH.
Qed.

Lemma split_on_plain c acc l rest :
  c ∉ l → split_on c acc (l ++ c :: rest) = str_rev_append (rev l ++ acc) :: split_on c [] rest.
Proof.
  revert acc. induction l as [|x l IH]; intros acc H; cbn [app split_on]; [by rewrite Ascii.eqb_refl|].
  apply not_elem_of_cons in H as [Hx Hl]. destruct (Ascii.eqb_spec x c); [done|]. rewrite IH by done. cbn [rev].
  by rewrite <- app_assoc.
Qed.
Lemma split_on_none c acc l : c ∉ l → split_on c acc l = [str_rev_append (rev l ++ acc)].
Proof.
  revert acc. induction l as [|x l IH]; intros acc H; cbn [split_on]; [done|].
  apply not_elem_of_cons in H as [Hx Hl]. destruct (Ascii.eqb_spec x c); [done|]. rewrite IH by done. cbn [rev].
  by rewrite <- app_assoc.
Qed.
Lemma str_rev_append_rev s : str_rev_append (rev (String.list_ascii_of_string s)) = s.
Proof. unfold str_rev_append. rewrite rev_involutive. apply String.string_of_list_ascii_of_string. Qed.
Lemma list_ascii_of_app (s t : string) :
  String.list_ascii_of_string (s +:+ t) = String.list_ascii_of_string s ++ String.list_ascii_of_string t.
Proof. induction s as [|c s IH]; simpl; [done | by f_equal]. Qed.
Lemma js_split_none c s : c ∉ String.list_ascii_of_string s → js_split c s = [s].
Proof. intros H. unfold js_split. by rewrite split_on_none, app_nil_r, str_rev_append_rev. Qed.
Lemma js_split_first c s t :
  c ∉ String.list_ascii_of_string s → js_split c (s +:+ String c t) = s :: js_split c t.
Proof.
  intros H. unfold js_split. rewrite list_ascii_of_app. cbn [String.list_ascii_of_string].
  by rewrite split_on_plain, app_nil_r, str_rev_append_rev.
Qed.

Lemma split_on_length c acc l :
  (sum_list (String.length <$> split_on c acc l) + length (split_on c acc l) = length acc + length l + 1)%nat.
Proof.
  assert (∀ a, String.length (str_rev_append a) = length a) as Hl.
  { intros a. unfold str_rev_append. rewrite length_string_of_list_ascii. apply length_rev. }
  revert acc. induction l as [|x l IH]; intros acc; cbn [split_on].
  - cbn. rewrite Hl. lia.
  - destruct (Ascii.eqb x c).
    + rewrite fmap_cons. cbn [sum_list length]. specialize (IH []). rewrite Hl. cbn in *. lia.
    + rewrite IH. cbn. lia.
Qed.

Definition is_blank (c : ascii) : bool :=
  let n := nat_of_ascii c in (n =? 32)%nat || ((9 <=? n)%nat && (n <=? 13)%nat).

Fixpoint drop_blank (l : list ascii) : list ascii :=
  match l with c :: l' => if is_blank c then drop_blank l' else l | [] => [] end.
(** [s.trim()] *)
Definition js_trim (s : string) : string :=
  String.string_of_list_ascii (rev (drop_blank (rev (drop_blank (String.list_ascii_of_string s))))).

(** [s.slice(-n)] and [s.slice(a, -n)] on characters. *)
Definition slice_last {A} (n : nat) (l : list A) : list A := drop (length l - n) l.
Definition slice_mid {A} (a n : nat) (l : list A) : list A := drop a (take (length l - n) l).

(** [Number(s)] for a string of decimal digits. *)
Definition digit_val (c : ascii) : option Z :=
  let n := Z.of_nat (nat_of_ascii c) in
  if (48 <=? n) && (n <=? 57) then Some (n - 48) else None.
Fixpoint parse_digits (acc : Z) (l : list ascii) : option Z :=
  match l with
  | [] => Some acc
  | c :: l' => match digit_val c with Some d => parse_digits (acc * 10 + d) l' | None => None end
  end.
Definition js_number (s : string) : option Z := parse_digits 0 (String.list_ascii_of_string s).

(** Reading back a number that was written as a text. *)
Lemma digit_val_pretty (d : N) : (d < 10)%N → digit_val (pretty_N_char d) = Some (Z.of_N d).
Proof.
  intros H. assert (d = 0 ∨ d = 1 ∨ d = 2 ∨ d = 3 ∨ d = 4 ∨ d = 5 ∨ d = 6 ∨ d = 7 ∨ d = 8 ∨ d = 9)%N
    as Hd by lia. by destruct_or! Hd; subst.
Qed.

Lemma parse_pretty_go (x : N) s :
  parse_digits 0 (String.list_ascii_of_string (pretty_N_go x s)) = parse_digits (Z.of_N x) (String.list_ascii_of_string s).
Proof.
  revert s. induction (N.lt_wf_0 x) as [x _ IH]; intros s.
  destruct (decide (x = 0)%N) as [->|Hx]; [by rewrite pretty_N_go_0|].
  rewrite pretty_N_go_step by lia. rewrite IH by (apply N.div_lt; lia). cbn [String.list_ascii_of_string parse_digits].
  rewrite digit_val_pretty by (apply N.mod_lt; lia). f_equal.
  pose proof (N.div_mod x 10 ltac:(done)). lia.
Qed.

Lemma js_number_str (n : Z) : 0 <= n → js_number (str_of_Z n) = Some n.
Proof.
  intros Hn. unfold js_number, str_of_Z. destruct n as [|p|p]; [done| |lia].
  change (pretty (Z.pos p)) with (pretty (N.pos p)). unfold pretty, pretty_N.
  destruct (decide (N.pos p = 0)%N); [done|]. by rewrite parse_pretty_go.
Qed.

(** ** Dates *)

Definition ms_per_day : Z := 86400000.

(** The proleptic Gregorian date of a day number, counted from 1970-01-01. *)
Definition civil_of_days (days : Z) : Z * Z * Z :=
  let z := days + 719468 in
  let era := z / 146097 in
  let doe := z mod 146097 in
  let yoe := (doe - doe / 1460 + doe / 36524 - doe / 146096) / 365 in
  let doy := doe - (365 * yoe + yoe / 4 - yoe / 100) in
  let mp := (5 * doy + 2) / 153 in
  let d := doy - (153 * mp + 2) / 5 + 1 in
  let m := if mp <? 10 then mp + 3 else mp - 9 in
  ((yoe + era * 400) + (if m <=? 2 then 1 else 0), m, d).

(** [new Date(ms).toISOString().slice(0, 10)], for years 0 to 9999. *)
Definition iso_day (ms : Z) : string :=
  let '(y, m, d) := civil_of_days (ms / ms_per_day) in
  (pad_start 4 (str_of_Z y) +:+ "-" +:+ pad_start 2 (str_of_Z m) +:+ "-"
    +:+ pad_start 2 (str_of_Z d))%string.

(** [new Date(ms).toISOString()], for years 0 to 9999. *)
Definition iso_time (ms : Z) : string :=
  let t := ms mod ms_per_day in
  (iso_day ms +:+ "T" +:+ pad_start 2 (str_of_Z (t / 3600000)) +:+ ":"
    +:+ pad_start 2 (str_of_Z (t / 60000 mod 60)) +:+ ":" +:+ pad_start 2 (str_of_Z (t / 1000 mod 60))
    +:+ "." +:+ pad_start 3 (str_of_Z (t mod 1000)) +:+ "Z")%string.

Lemma iso_time_sample : iso_time 1709210096789 = "2024-02-29T12:34:56.789Z"%string.
Proof. vm_compute. reflexivity. Qed.

(** Seconds to the next UTC midnight, rounded up. *)
Definition seconds_to_midnight (ms : Z) : Z := (ms_per_day - ms mod ms_per_day + 999) / 1000.

Lemma iso_day_sample : iso_day 1709210096789 = "2024-02-29"%string.
Proof. vm_compute. reflexivity. Qed.

Lemma seconds_to_midnight_bounds ms : 0 < seconds_to_midnight ms <= 86400.
Proof.
  unfold seconds_to_midnight, ms_per_day. pose proof (Z.mod_pos_bound ms 86400000).
  split; [apply Z.div_str_pos; lia|]. apply Z.lt_succ_r, Z.div_lt_upper_bound; lia.
Qed.

(** ** Decimal strings are unambiguous *)

Lemma str_of_Z_inj a b : str_of_Z a = str_of_Z b → a = b.
Proof. apply (inj pretty). Qed.


Lemma str_app_inj_r (s t u : string) : (s +:+ u = t +:+ u)%string → s = t.
Proof.
  intros H. apply (f_equal String.list_ascii_of_string) in H. rewrite !list_ascii_of_app in H.
  apply app_inv_tail in H. rewrite <- (String.string_of_list_ascii_of_string s), H.
  apply String.string_of_list_ascii_of_string.
Qed.

Lemma str_app_inj_l (s t u : string) : (u +:+ s = u +:+ t)%string → s = t.
Proof. induction u as [|c u IH]; simpl; [done|]. by intros [= ?%IH]. Qed.
