(* ===== verification/WalletModel.v ===== *)
(** * The wallet: entities, state and ledger operations

    backend/src/wallet: the entities, and the ledger half of wallet.service.ts
    ([record] and the operations that move money through it), with
    settlement.service.ts and chargeback.service.ts. An account passed to
    [record] is the snapshot the caller loaded: [record] adds to that snapshot's
    balance and saves it, as the code does with the entity object. Tracing and
    metric counters are left out. *)

From S2P Require Import Prelude JsText SidePots Store.
#[local] Open Scope Z_scope.

(** ** Entities *)

Record Account := {
  a_id : string; a_name : string; a_currency : string;
  a_balance : Z; a_creditBalance : Z; a_kycVerified : bool }.

Record JournalEntry := {
  j_id : string; j_accountId : string; j_amount : Z; j_currency : string;
  j_refType : string; j_refId : string;
  j_providerTxnId : option string; j_providerStatus : option string;
  j_hash : string; j_createdAt : Z }.

Inductive DisbursementStatus := DisbPending | DisbCompleted.
Record Disbursement := {
  d_id : string; d_accountId : string; d_amount : Z; d_idempotencyKey : string;
  d_status : DisbursementStatus; d_providerRef : option string;
  d_createdAt : Z; d_completedAt : option Z }.

Inductive SettlementStatus := SettlementReserved | SettlementCommitted.
Record SettlementJournal := {
  sj_id : string; sj_idempotencyKey : string; sj_status : SettlementStatus }.

Inductive DepositStatus := DepPending | DepConfirmed | DepRejected.
Record PendingDeposit := {
  pd_id : string; pd_userId : string; pd_amount : Z; pd_currency : string;
  pd_reference : string; pd_status : DepositStatus; pd_actionRequired : bool;
  pd_expiresAt : Z; pd_confirmedBy : option string; pd_confirmedAt : option Z;
  pd_rejectedBy : option string; pd_rejectedAt : option Z;
  pd_rejectionReason : option string; pd_createdAt : Z }.

Record DepositIban := {
  di_id : string; di_iban : string; di_masked : string; di_holder : string;
  di_instructions : string; di_updatedBy : string; di_updatedAt : Z }.

Record DepositIbanHistory := {
  dh_id : string; dh_date : Z; dh_oldIban : string; dh_newIban : string;
  dh_by : string; dh_notes : string }.

#[export] Instance DisbursementStatus_eq_dec : EqDecision DisbursementStatus.
Proof. solve_decision. Defined.
#[export] Instance SettlementStatus_eq_dec : EqDecision SettlementStatus.
Proof. solve_decision. Defined.
#[export] Instance DepositStatus_eq_dec : EqDecision DepositStatus.
Proof. solve_decision. Defined.

(** Primary keys and unique indices, from the entity decorators. *)
#[export] Instance Account_entity : Entity Account := {
  row_id := a_id;
  row_clash a b := bool_decide (a_name a = a_name b) && bool_decide (a_currency a = a_currency b) }.
#[export] Instance JournalEntry_entity : Entity JournalEntry := {
  row_id := j_id; row_clash a b := bool_decide (j_hash a = j_hash b) }.
#[export] Instance Disbursement_entity : Entity Disbursement := {
  row_id := d_id; row_clash a b := bool_decide (d_idempotencyKey a = d_idempotencyKey b) }.
#[export] Instance SettlementJournal_entity : Entity SettlementJournal := {
  row_id := sj_id; row_clash a b := bool_decide (sj_idempotencyKey a = sj_idempotencyKey b) }.
#[export] Instance PendingDeposit_entity : Entity PendingDeposit := {
  row_id := pd_id; row_clash a b := bool_decide (pd_reference a = pd_reference b) }.
#[export] Instance DepositIban_entity : Entity DepositIban := {
  row_id := di_id; row_clash _ _ := false }.
#[export] Instance DepositIbanHistory_entity : Entity DepositIbanHistory := {
  row_id := dh_id; row_clash _ _ := false }.

(** ** Events, cached values, configuration *)

Inductive CashOp := OpDeposit | OpWithdraw.
#[export] Instance CashOp_eq_dec : EqDecision CashOp.
Proof. solve_decision. Defined.
Definition op_name (op : CashOp) : string :=
  match op with OpDeposit => "deposit" | OpWithdraw => "withdraw" end.

Inductive ProviderStatus := Approved | Risky | Chargeback.
#[export] Instance ProviderStatus_eq_dec : EqDecision ProviderStatus.
Proof. solve_decision. Defined.
Definition status_name (s : ProviderStatus) : string :=
  match s with Approved => "approved" | Risky => "risky" | Chargeback => "chargeback" end.

Record ProviderCallback := {
  cb_eventId : string; cb_idempotencyKey : string; cb_providerTxnId : string;
  cb_status : ProviderStatus }.

Record ReconcileRow := { rr_account : string; rr_balance : Z; rr_journal : Z }.

Inductive WalletEvent :=
| WalletCredit (accountId : string) (amount : Z) (refType refId currency : string)
| WalletDebit (accountId : string) (amount : Z) (refType refId currency : string)
| NotificationCreate (userId message : string)
| DisbursementRequest (id accountId : string) (amount : Z) (currency idempotencyKey : string)
| MismatchResolved (account acknowledgedBy : string) (acknowledgedAt : Z)
| AntiCheatFlag (accountId : string) (op : CashOp) (amount dailyTotal limit : Z) (currency : string)
| VelocityLimit (accountId : string) (op : CashOp) (type window : string) (limit value : Z)
| ChargebackFlag (accountId deviceId : string) (count limit : Z)
| DepositConfirmed (accountId depositId : string) (amount : Z) (currency : string)
| DepositRejected (accountId depositId currency : string) (reason : option string)
| AdminDepositPending (depositId userId : string) (amount : Z) (currency : string)
    (expectedBalance : option Z) (jobId : option string)
| AdminDepositConfirmed (depositId : string)
| AdminDepositRejected (depositId : string) (reason : option string)
| ReconcileMismatch (date : string) (total : Z) (report : list ReconcileRow).

Record BankDetails := { bank_name : string; bank_account : string; bank_routing : string }.

(** What the wallet keeps under a Redis key; JSON texts as the value they encode. *)
Inductive CachedValue :=
| CachedOne
| CachedLock
| CachedChallenge (op : CashOp) (accountId : string) (amount : Z) (currency : string)
    (deviceId : option string)
| CachedProviderChallenge (id : string)
| CachedBankTransfer (reference : string) (bank : BankDetails)
| CachedCallback (event : ProviderCallback).

(** The environment of the service: hashing, identifiers, the other services it
    calls, and the process configuration ([None] for an unset limit). *)
Record WalletEnv := {
  sha256_hex : string → string;
  randomUUID : nat → string;
  (** answer to the n-th HTTP request to the payment provider *)
  provider_http : nat → outcome string;
  kyc_validate : Account → outcome unit;
  kyc_isVerified : string → string → bool;
  kyc_denialReason : string → option string;
  geo_isAllowed : option (string → bool);
  system_accounts : list string;
  daily_limit : CashOp → option Z;
  hourly_count_limit : CashOp → option Z;
  hourly_amount_limit : CashOp → option Z;
  daily_count_limit : CashOp → option Z;
  bank_config : option BankDetails;
  queue_connected : bool;
  chargeback_limits : option (Z * Z * Z) (* window in ms, account limit, device limit *) }.

Record WalletState (T : Type → Type) (R B : Type) := WalletWorld {
  accounts : T Account;
  journals : T JournalEntry;
  disbursements : T Disbursement;
  settlements : T SettlementJournal;
  pendingDeposits : T PendingDeposit;
  depositIbans : T DepositIban;
  ibanHistory : T DepositIbanHistory;
  redis : R;
  bus : B;
  payoutJobs : list (string * string);
  pendingJobs : list string;
  acknowledgedMismatches : list (string * (string * Z));
  uuids : nat;
  http_calls : nat;
  now : Z }.
Arguments WalletWorld {T R B}.
Arguments accounts {T R B}. Arguments journals {T R B}. Arguments disbursements {T R B}.
Arguments settlements {T R B}. Arguments pendingDeposits {T R B}. Arguments depositIbans {T R B}.
Arguments ibanHistory {T R B}. Arguments redis {T R B}. Arguments bus {T R B}.
Arguments payoutJobs {T R B}. Arguments pendingJobs {T R B}. Arguments uuids {T R B}.
Arguments acknowledgedMismatches {T R B}. Arguments http_calls {T R B}. Arguments now {T R B}.

Section Wallet.
Context {T : Type → Type} `{!TableOps T} {R : Type} `{!RedisOps R CachedValue}
  {B : Type} `{!BusOps B WalletEvent} (env : WalletEnv).

Abbreviation WM := (M (WalletState T R B)).
Abbreviation W := (WalletState T R B).

(** ** Field updates *)

Definition set_accounts (x : T Account) (w : W) : W :=
  WalletWorld x (journals w) (disbursements w) (settlements w) (pendingDeposits w) (depositIbans w)
    (ibanHistory w) (redis w) (bus w) (payoutJobs w) (pendingJobs w) (acknowledgedMismatches w)
    (uuids w) (http_calls w) (now w).
Definition set_ledger (a : T Account) (j : T JournalEntry) (n : nat) (w : W) : W :=
  WalletWorld a j (disbursements w) (settlements w) (pendingDeposits w) (depositIbans w)
    (ibanHistory w) (redis w) (bus w) (payoutJobs w) (pendingJobs w) (acknowledgedMismatches w)
    n (http_calls w) (now w).
Definition set_disbursements (x : T Disbursement) (w : W) : W :=
  WalletWorld (accounts w) (journals w) x (settlements w) (pendingDeposits w) (depositIbans w)
    (ibanHistory w) (redis w) (bus w) (payoutJobs w) (pendingJobs w) (acknowledgedMismatches w)
    (uuids w) (http_calls w) (now w).
Definition set_settlements (x : T SettlementJournal) (w : W) : W :=
  WalletWorld (accounts w) (journals w) (disbursements w) x (pendingDeposits w) (depositIbans w)
    (ibanHistory w) (redis w) (bus w) (payoutJobs w) (pendingJobs w) (acknowledgedMismatches w)
    (uuids w) (http_calls w) (now w).
Definition set_pendingDeposits (x : T PendingDeposit) (w : W) : W :=
  WalletWorld (accounts w) (journals w) (disbursements w) (settlements w) x (depositIbans w)
    (ibanHistory w) (redis w) (bus w) (payoutJobs w) (pendingJobs w) (acknowledgedMismatches w)
    (uuids w) (http_calls w) (now w).
Definition set_ibans (x : T DepositIban) (h : T DepositIbanHistory) (w : W) : W :=
  WalletWorld (accounts w) (journals w) (disbursements w) (settlements w) (pendingDeposits w) x
    h (redis w) (bus w) (payoutJobs w) (pendingJobs w) (acknowledgedMismatches w)
    (uuids w) (http_calls w) (now w).
Definition set_redis (x : R) (w : W) : W :=
  WalletWorld (accounts w) (journals w) (disbursements w) (settlements w) (pendingDeposits w)
    (depositIbans w) (ibanHistory w) x (bus w) (payoutJobs w) (pendingJobs w)
    (acknowledgedMismatches w) (uuids w) (http_calls w) (now w).
Definition set_bus (x : B) (w : W) : W :=
  WalletWorld (accounts w) (journals w) (disbursements w) (settlements w) (pendingDeposits w)
    (depositIbans w) (ibanHistory w) (redis w) x (payoutJobs w) (pendingJobs w)
    (acknowledgedMismatches w) (uuids w) (http_calls w) (now w).
Definition set_jobs (payout : list (string * string)) (pending : list string) (w : W) : W :=
  WalletWorld (accounts w) (journals w) (disbursements w) (settlements w) (pendingDeposits w)
    (depositIbans w) (ibanHistory w) (redis w) (bus w) payout pending
    (acknowledgedMismatches w) (uuids w) (http_calls w) (now w).
Definition set_acknowledged (x : list (string * (string * Z))) (w : W) : W :=
  WalletWorld (accounts w) (journals w) (disbursements w) (settlements w) (pendingDeposits w)
    (depositIbans w) (ibanHistory w) (redis w) (bus w) (payoutJobs w) (pendingJobs w) x
    (uuids w) (http_calls w) (now w).
Definition set_counters (u h : nat) (w : W) : W :=
  WalletWorld (accounts w) (journals w) (disbursements w) (settlements w) (pendingDeposits w)
    (depositIbans w) (ibanHistory w) (redis w) (bus w) (payoutJobs w) (pendingJobs w)
    (acknowledgedMismatches w) u h (now w).

(** ** Primitive calls *)

Definition emit (ev : WalletEvent) : WM unit := λ w,
  let '(o, b) := bus_emit ev (bus w) in (o, set_bus b w).
Definition fresh_uuid : WM string := λ w,
  (Ret (randomUUID env (uuids w)), set_counters (S (uuids w)) (http_calls w) w).
Definition redis_get (k : string) : WM (option CachedValue) := gets (λ w, r_get k (redis w)).
Definition redis_set (k : string) (v : CachedValue) (ttl : Z) : WM unit :=
  modify (λ w, set_redis (r_set k v ttl (redis w)) w).
(** [setWithOptions(..., { nx: true, ex })]: true when the key was set. *)
Definition redis_setnx (k : string) (v : CachedValue) (ttl : Z) : WM bool := λ w,
  let '(ok, r) := r_setnx k v ttl (redis w) in (Ret ok, set_redis r w).
Definition redis_del (k : string) : WM unit := modify (λ w, set_redis (r_del k (redis w)) w).
Definition redis_incrby (k : string) (n : Z) : WM Z := λ w,
  let '(c, r) := r_incrby k n (redis w) in (Ret c, set_redis r w).
Definition redis_expire (k : string) (ttl : Z) : WM Z := λ w,
  let '(ok, r) := r_expire k ttl (redis w) in (Ret ok, set_redis r w).

Definition or_fail {A} (e : string) (o : option A) : WM A :=
  match o with Some a => mret a | None => throw e end.

(** [accounts.findOneByOrFail({ id, currency })] and its variants. *)
Definition account_by_id (id currency : string) : WM Account :=
  o ← gets (λ w, find_row (λ a, bool_decide (a_id a = id) && bool_decide (a_currency a = currency))
                   (accounts w));
  or_fail "EntityNotFoundError" o.
Definition account_by_name (name currency : string) : WM Account :=
  o ← gets (λ w, find_row (λ a, bool_decide (a_name a = name) && bool_decide (a_currency a = currency))
                   (accounts w));
  or_fail "EntityNotFoundError" o.
Definition account_of (id : string) : WM Account :=
  o ← gets (λ w, find_row (λ a, bool_decide (a_id a = id)) (accounts w));
  or_fail "EntityNotFoundError" o.

(** ** [record] *)

Record Movement := { mv_account : Account; mv_amount : Z }.

Definition buildHash (refType refId accountId : string) (amount : Z) : string :=
  sha256_hex env (refType +:+ ":" +:+ refId +:+ ":" +:+ accountId +:+ ":" +:+ str_of_Z amount).

Definition entry_hash (refType refId : string) (e : Movement) : string :=
  buildHash refType refId (a_id (mv_account e)) (mv_amount e).

Definition credited (e : Movement) : Account :=
  let a := mv_account e in
  {| a_id := a_id a; a_name := a_name a; a_currency := a_currency a;
     a_balance := a_balance a + mv_amount e; a_creditBalance := a_creditBalance a;
     a_kycVerified := a_kycVerified a |}.

Definition meta : Type := option (string * string).

Definition journal_row (refType refId : string) (m : meta) (id : string) (at_ : Z) (e : Movement)
    : JournalEntry :=
  {| j_id := id; j_accountId := a_id (mv_account e); j_amount := mv_amount e;
     j_currency := a_currency (mv_account e); j_refType := refType; j_refId := refId;
     j_providerTxnId := fst <$> m; j_providerStatus := snd <$> m;
     j_hash := entry_hash refType refId e; j_createdAt := at_ |}.

(** The body of the transaction; a failed insert undoes it. *)
Fixpoint post_entries (refType refId : string) (m : meta) (at_ : Z) (entries : list Movement)
    (a : T Account) (j : T JournalEntry) (n : nat) : option (T Account * T JournalEntry * nat) :=
  match entries with
  | [] => Some (a, j, n)
  | e :: rest =>
      match insert_row (journal_row refType refId m (randomUUID env n) at_ e) j with
      | Some j' => post_entries refType refId m at_ rest (save_row (credited e) a) j' (S n)
      | None => None
      end
  end.

Definition announce (refType refId : string) (e : Movement) : WM unit :=
  let a := credited e in
  let user := negb (bool_decide (a_name a ∈ system_accounts env)) in
  if 0 <? mv_amount e then
    emit (WalletCredit (a_id a) (Z.abs (mv_amount e)) refType refId (a_currency a)) ;;
    when user (emit (NotificationCreate (a_id a)
      ("Wallet credited " +:+ str_of_Z (mv_amount e) +:+ " " +:+ a_currency a)))
  else
    emit (WalletDebit (a_id a) (Z.abs (mv_amount e)) refType refId (a_currency a)) ;;
    when user (emit (NotificationCreate (a_id a)
      ("Wallet debited " +:+ str_of_Z (Z.abs (mv_amount e)) +:+ " " +:+ a_currency a))).

Definition already_recorded (hashes : list string) (w : W) : bool :=
  match find_rows (λ j, bool_decide (j_hash j ∈ hashes)) (journals w) with [] => false | _ => true end.

Definition post (refType refId : string) (entries : list Movement) (m : meta) : WM unit := λ w,
  match post_entries refType refId m (now w) entries (accounts w) (journals w) (uuids w) with
  | Some (a, j, n) => (Ret tt, set_ledger a j n w)
  | None => (Throw "QueryFailedError", w)
  end.

Definition record (refType refId : string) (entries : list Movement) (m : meta) : WM unit :=
  throw_if (negb (sum_by mv_amount entries =? 0)) "Journal entries must sum to 0" ;;
  seen ← gets (already_recorded (entry_hash refType refId <$> entries));
  if (seen : bool) then mret tt
  else
    post refType refId entries m ;;
    for_each entries (announce refType refId).

(** ** SettlementService *)

Definition buildKey (handId street : string) (idx : string) : string :=
  handId +:+ "#" +:+ street +:+ "#" +:+ idx.

(** An insert with [orIgnore]. *)
Definition insert_settlement (key : string) : WM unit :=
  id ← fresh_uuid;
  modify (λ w,
    let row := {| sj_id := id; sj_idempotencyKey := key; sj_status := SettlementReserved |} in
    set_settlements (default (settlements w) (insert_row row (settlements w))) w).

Definition settlement_is (key : string) (st : SettlementStatus) (s : SettlementJournal) : bool :=
  bool_decide (sj_idempotencyKey s = key) && bool_decide (sj_status s = st).
Definition committed_row (s : SettlementJournal) : SettlementJournal :=
  {| sj_id := sj_id s; sj_idempotencyKey := sj_idempotencyKey s; sj_status := SettlementCommitted |}.

Definition settlement_reserve (handId street idx : string) : WM unit :=
  insert_settlement (buildKey handId street idx).
Definition settlement_commit (handId street idx : string) : WM unit :=
  modify (λ w, set_settlements (update_where
    (settlement_is (buildKey handId street idx) SettlementReserved) committed_row (settlements w)) w).
Definition settlement_cancel (handId street idx : string) : WM unit :=
  modify (λ w, set_settlements (delete_where
    (settlement_is (buildKey handId street idx) SettlementReserved) (settlements w)) w).

(** ** Moving money *)

(** A string argument that JavaScript treats as present. *)
Definition truthy (s : option string) : option string :=
  match s with Some EmptyString => None | _ => s end.

Definition reserve (accountId : string) (amount : Z) (refId currency : string)
    (idempotencyKey : option string) : WM unit :=
  user ← account_by_id accountId currency;
  reserve_ ← account_by_name "reserve" currency;
  match truthy idempotencyKey with
  | Some key => insert_settlement key
  | None => mret tt
  end ;;
  record "reserve" refId
    [{| mv_account := user; mv_amount := - amount |};
     {| mv_account := reserve_; mv_amount := amount |}] None.

(** The metric of revenue that the code counts after a commit is left out. *)
Definition commit (refId : string) (amount rakeAmount : Z) (currency : string)
    (idempotencyKey : option string) : WM unit :=
  reserve_ ← account_by_name "reserve" currency;
  prize ← account_by_name "prize" currency;
  rakeAcc ← account_by_name "rake" currency;
  record "commit" refId
    [{| mv_account := reserve_; mv_amount := - amount |};
     {| mv_account := prize; mv_amount := amount - rakeAmount |};
     {| mv_account := rakeAcc; mv_amount := rakeAmount |}] None ;;
  match truthy idempotencyKey with
  | Some key =>
      modify (λ w, set_settlements (update_where
        (λ s, bool_decide (sj_idempotencyKey s = key)) committed_row (settlements w)) w)
  | None => mret tt
  end.

Definition rollback (accountId : string) (amount : Z) (refId currency : string)
    (idempotencyKey : option string) : WM unit :=
  reserve_ ← account_by_name "reserve" currency;
  user ← account_by_id accountId currency;
  record "rollback" refId
    [{| mv_account := reserve_; mv_amount := - amount |};
     {| mv_account := user; mv_amount := amount |}] None ;;
  match truthy idempotencyKey with
  | Some key =>
      match js_split "#" key with
      | handId :: street :: idx :: _ =>
          if bool_decide (handId = "" ∨ street = "" ∨ idx = "")%string then mret tt
          else settlement_cancel handId street
                 (match js_number idx with Some n => str_of_Z n | None => "NaN" end)
      | _ => mret tt
      end
  | None => mret tt
  end.

(** ** Disbursements *)

Definition requestDisbursement (id currency : string) : WM unit :=
  o ← gets (λ w, find_row (λ d, bool_decide (d_id d = id)) (disbursements w));
  disb ← or_fail "EntityNotFoundError" o;
  account ← account_by_id (d_accountId disb) currency;
  lift (kyc_validate env account) ;;
  emit (DisbursementRequest (d_id disb) (d_accountId disb) (d_amount disb) currency
          (d_idempotencyKey disb)).

Definition enqueueDisbursement (id currency : string) : WM unit :=
  if queue_connected env
  then modify (λ w, set_jobs (payoutJobs w ++ [(id, currency)]) (pendingJobs w) w)
  else requestDisbursement id currency.

Definition refundDisbursement (disb : Disbursement) : WM unit :=
  account ← account_of (d_accountId disb);
  house ← account_by_name "house" (a_currency account);
  record "withdraw_reject" (d_id disb)
    [{| mv_account := house; mv_amount := - d_amount disb |};
     {| mv_account := account; mv_amount := d_amount disb |}] None.

Definition disb_is_pending (d : Disbursement) : bool := bool_decide (d_status d = DisbPending).

Definition retryPendingPayouts : WM unit :=
  pending ← gets (λ w, find_rows disb_is_pending (disbursements w));
  for_each pending (λ disb,
    account ← account_of (d_accountId disb);
    enqueueDisbursement (d_id disb) (a_currency account)).

Record WalletStatus := {
  ws_kycVerified : bool; ws_denialReason : option string; ws_realBalance : Z;
  ws_creditBalance : Z; ws_currency : string }.

Definition status (accountId : string) : WM WalletStatus :=
  account ← account_of accountId;
  mret {| ws_kycVerified := a_kycVerified account;
          ws_denialReason := kyc_denialReason env accountId;
          ws_realBalance := a_balance account - a_creditBalance account;
          ws_creditBalance := a_creditBalance account; ws_currency := a_currency account |}.

(** True when the event was seen before. *)
Definition isDuplicateWebhook (eventId : string) : WM bool :=
  set_ ← redis_setnx ("wallet:webhook:" +:+ eventId) CachedOne 86400;
  mret (negb set_).

Definition challengeKey (id : string) : string := "wallet:3ds:" +:+ id.

(** ** Chargebacks (chargeback.service.ts) *)

Definition accKey (id : string) : string := "wallet:cb:a:" +:+ id.
Definition devKey (id : string) : string := "wallet:cb:d:" +:+ id.

Definition chargeback_record (windowMs : Z) (accountId deviceId : string) : WM unit :=
  t ← gets now;
  u ← fresh_uuid;
  let member := str_of_Z t +:+ ":" +:+ u in
  let ttl := (windowMs + 999) / 1000 in
  modify (λ w, set_redis (r_zadd (devKey deviceId) t member
                            (r_zadd (accKey accountId) t member (redis w))) w) ;;
  redis_expire (accKey accountId) ttl ;;
  redis_expire (devKey deviceId) ttl ;;
  mret tt.

Record CheckResult := {
  cr_flagged : bool; cr_accountCount : Z; cr_deviceCount : Z;
  cr_accountLimit : Z; cr_deviceLimit : Z }.

Definition chargeback_check (limits : Z * Z * Z) (accountId deviceId : string) : WM CheckResult :=
  let '(windowMs, accountLimit, deviceLimit) := limits in
  t ← gets now;
  let cutoff := t - windowMs in
  modify (λ w, set_redis (r_zremrangebyscore (devKey deviceId) 0 cutoff
                            (r_zremrangebyscore (accKey accountId) 0 cutoff (redis w))) w) ;;
  aCount ← gets (λ w, Z.of_nat (length (r_zset (accKey accountId) (redis w))));
  dCount ← gets (λ w, Z.of_nat (length (r_zset (devKey deviceId) (redis w))));
  mret {| cr_flagged := (accountLimit <=? aCount) || (deviceLimit <=? dCount);
          cr_accountCount := aCount; cr_deviceCount := dCount;
          cr_accountLimit := accountLimit; cr_deviceLimit := deviceLimit |}.

(** ** Provider callbacks *)

Definition new_disbursement (id accountId : string) (amount : Z) (key : string) (at_ : Z) : Disbursement :=
  {| d_id := id; d_accountId := accountId; d_amount := amount; d_idempotencyKey := key;
     d_status := DisbPending; d_providerRef := None; d_createdAt := at_; d_completedAt := None |}.

(** [confirm3DS] once the stored challenge is decoded. *)
Definition settle_challenge (event : ProviderCallback) (op : CashOp) (accountId : string) (amount : Z)
    (currency : string) (deviceId : option string) : WM unit :=
  user ← account_by_id accountId currency;
  house ← account_by_name "house" currency;
  ref ← fresh_uuid;
  let m := Some (cb_providerTxnId event, status_name (cb_status event)) in
  match op, cb_status event with
  | OpDeposit, Approved =>
      record "deposit" ref
        [{| mv_account := house; mv_amount := - amount |};
         {| mv_account := user; mv_amount := amount |}] m
  | OpDeposit, Chargeback =>
      match truthy deviceId, chargeback_limits env with
      | Some dev, Some (windowMs, _, _) => chargeback_record windowMs accountId dev
      | _, _ => mret tt
      end
  | OpDeposit, Risky => mret tt
  | OpWithdraw, Approved =>
      record "withdraw" ref
        [{| mv_account := user; mv_amount := - amount |};
         {| mv_account := house; mv_amount := amount |}] m ;;
      id ← fresh_uuid;
      key ← fresh_uuid;
      t ← gets now;
      modify (λ w, set_disbursements
        (save_row (new_disbursement id accountId amount key t) (disbursements w)) w) ;;
      enqueueDisbursement id currency
  | OpWithdraw, _ => mret tt
  end.

Definition confirm3DS (event : ProviderCallback) : WM unit :=
  dup ← isDuplicateWebhook (cb_eventId event);
  if (dup : bool) then mret tt else
  stored ← redis_get (challengeKey (cb_providerTxnId event));
  match stored with
  | Some (CachedChallenge op accountId amount currency deviceId) =>
      redis_del (challengeKey (cb_providerTxnId event)) ;;
      settle_challenge event op accountId amount currency deviceId
  | _ => mret tt
  end.

Definition completed_disbursement (providerTxnId : string) (at_ : Z) (d : Disbursement) : Disbursement :=
  {| d_id := d_id d; d_accountId := d_accountId d; d_amount := d_amount d;
     d_idempotencyKey := d_idempotencyKey d; d_status := DisbCompleted;
     d_providerRef := Some providerTxnId; d_createdAt := d_createdAt d; d_completedAt := Some at_ |}.

Definition processDisbursement (eventId idempotencyKey providerTxnId : string)
    (st : ProviderStatus) : WM unit :=
  dup ← isDuplicateWebhook eventId;
  if (dup : bool) then mret tt else
  o ← gets (λ w, find_row (λ d, bool_decide (d_idempotencyKey d = idempotencyKey)) (disbursements w));
  match o with
  | Some disb =>
      if bool_decide (d_status disb = DisbCompleted) then mret tt else
      user ← account_of (d_accountId disb);
      house ← account_by_name "house" (a_currency user);
      record "payout" (d_id disb) [{| mv_account := house; mv_amount := 0 |}]
        (Some (providerTxnId, status_name st)) ;;
      if decide (st = Approved) then
        t ← gets now;
        modify (λ w, set_disbursements
          (save_row (completed_disbursement providerTxnId t disb) (disbursements w)) w)
      else enqueueDisbursement (d_id disb) (a_currency user)
  | None => mret tt
  end.

(** ** Totals and reconciliation *)

Definition totalBalance (w : W) : Z := sum_by a_balance (rows (accounts w)).
Definition totalJournal (w : W) : Z := sum_by j_amount (rows (journals w)).

Definition journal_sum (id : string) (w : W) : Z :=
  sum_by j_amount (find_rows (λ j, bool_decide (j_accountId j = id)) (journals w)).

Definition reconcile (w : W) : list ReconcileRow :=
  (λ a, {| rr_account := a_name a; rr_balance := a_balance a; rr_journal := journal_sum (a_id a) w |})
  <$> filter (λ a, journal_sum (a_id a) w ≠ a_balance a) (rows (accounts w)).

(** [Map.set]: an existing key keeps its place. *)
Definition ack_set (k : string) (v : string * Z) (m : list (string * (string * Z)))
    : list (string * (string * Z)) :=
  if bool_decide (k ∈ m.*1) then (λ p, if bool_decide (p.1 = k) then (k, v) else p) <$> m
  else m ++ [(k, v)].

Definition acknowledgeMismatch (account adminId : string) : WM unit :=
  t ← gets now;
  modify (λ w, set_acknowledged (ack_set account (adminId, t) (acknowledgedMismatches w)) w) ;;
  emit (MismatchResolved account adminId t).

Definition filterAcknowledgedMismatches (report : list ReconcileRow) : WM (list ReconcileRow) := λ w,
  let acked := acknowledgedMismatches w in
  (Ret (filter (λ r, rr_account r ∉ acked.*1) report),
   set_acknowledged (filter (λ p, p.1 ∈ (rr_account <$> report)) acked) w).

(** [runReconcile] of reconcile.job.ts; [logged] is the total of yesterday's logs. *)
Definition runReconcile (logged : Z) : WM unit :=
  report ← gets reconcile;
  t ← gets now;
  let bad := negb (bool_decide (report = []) && (logged =? 0)) in
  when bad (emit (ReconcileMismatch (iso_day (t - ms_per_day)) logged report)) ;;
  throw_if bad "wallet reconciliation discrepancies".

(** ** Administration *)

Inductive AdminAction := AdminAdd | AdminRemove | AdminFreeze.

Definition adminAdjustBalance (userId : string) (action : AdminAction) (amount : Z)
    (currency : string) : WM unit :=
  user ← account_by_id userId currency;
  house ← account_by_name "house" currency;
  refId ← fresh_uuid;
  match action with
  | AdminAdd =>
      record "admin_add" refId
        [{| mv_account := house; mv_amount := - amount |};
         {| mv_account := user; mv_amount := amount |}] None
  | AdminRemove =>
      record "admin_remove" refId
        [{| mv_account := user; mv_amount := - amount |};
         {| mv_account := house; mv_amount := amount |}] None
  | AdminFreeze => reserve userId amount refId currency None
  end.

Definition confirmPendingWithdrawal (id : string) : WM unit :=
  o ← gets (λ w, find_row (λ d, bool_decide (d_id d = id) && disb_is_pending d) (disbursements w));
  match o with
  | Some disb =>
      account ← account_of (d_accountId disb);
      requestDisbursement (d_id disb) (a_currency account)
  | None => mret tt
  end.

Definition rejectPendingWithdrawal (id : string) : WM unit :=
  o ← gets (λ w, find_row (λ d, bool_decide (d_id d = id) && disb_is_pending d) (disbursements w));
  match o with
  | Some disb =>
      refundDisbursement disb ;;
      modify (λ w, set_disbursements
        (delete_where (λ d, bool_decide (d_id d = d_id disb)) (disbursements w)) w)
  | None => mret tt
  end.
End Wallet.
