(* ===== verification/WalletCash.v ===== *)
(** * The wallet: cash in and out

    The other half of backend/src/wallet/wallet.service.ts: rate, velocity and
    daily limits, withdrawals, deposits and bank transfers with their
    idempotency lock, the life of a pending deposit, listings and the deposit
    IBAN; with payment-provider.service.ts, webhook.controller.ts,
    bank-reconciliation.service.ts and withdrawals.service.ts. *)

From S2P Require Import Prelude JsText SidePots Store WalletModel.
#[local] Open Scope Z_scope.

Section Cash.
Context {T : Type → Type} `{!TableOps T} {R : Type} `{!RedisOps R CachedValue}
  {B : Type} `{!BusOps B WalletEvent} (env : WalletEnv).

Abbreviation WM := (M (WalletState T R B)).
Abbreviation W := (WalletState T R B).

(** ** Limits *)

Definition checkVelocity (op : CashOp) (deviceId ip : string) : WM unit :=
  let limit := 3 in
  let ttl := 3600 in
  let ipKey := op_name op +:+ ":ip:" +:+ ip in
  let devKey := op_name op +:+ ":dev:" +:+ deviceId in
  ipCount ← redis_incrby ipKey 1;
  when (ipCount =? 1) (redis_expire ipKey ttl ;; mret tt) ;;
  devCount ← redis_incrby devKey 1;
  when (devCount =? 1) (redis_expire devKey ttl ;; mret tt) ;;
  throw_if ((limit <? ipCount) || (limit <? devCount)) "Rate limit exceeded".

Definition daily_key (op : CashOp) (accountId : string) (t : Z) : string :=
  "wallet:" +:+ op_name op +:+ ":" +:+ accountId +:+ ":" +:+ iso_day t.

Definition enforceDailyLimit (op : CashOp) (accountId : string) (amount : Z) (currency : string)
    : WM unit :=
  t ← gets now;
  let key := daily_key op accountId t in
  total ← redis_incrby key amount;
  when (total =? amount) (redis_expire key (seconds_to_midnight t) ;; mret tt) ;;
  match daily_limit env op with
  | Some limit =>
      if limit <? total then
        redis_incrby key (- amount) ;;
        emit (AntiCheatFlag accountId op amount total limit currency) ;;
        throw "Daily limit exceeded"
      else mret tt
  | None => mret tt
  end.

(** One window of [enforceVelocity]: count [step] against [limit]. In the code
    the [catch] undoes the increment of an error that did not already undo it;
    every error raised here comes after its own decrement. *)
Definition velocity_window (key : string) (step limit ttl : Z) (ev : Z → WalletEvent) : WM unit :=
  value ← redis_incrby key step;
  when (value =? step)
    (ok ← redis_expire key ttl;
     if negb (ok =? 1) then redis_incrby key (- step) ;; throw "Failed to set expiry"
     else mret tt) ;;
  if limit <? value then
    redis_incrby key (- step) ;;
    emit (ev value) ;;
    throw "Velocity limit exceeded"
  else mret tt.

Definition velocity_key (op : CashOp) (accountId suffix : string) : string :=
  "wallet:" +:+ op_name op +:+ ":" +:+ accountId +:+ suffix.

Definition enforceVelocity (op : CashOp) (accountId : string) (amount : Z) : WM unit :=
  match hourly_count_limit env op with
  | Some limit => velocity_window (velocity_key op accountId ":h:count") 1 limit 3600
                    (VelocityLimit accountId op "count" "hour" limit)
  | None => mret tt
  end ;;
  match hourly_amount_limit env op with
  | Some limit => velocity_window (velocity_key op accountId ":h:amount") amount limit 3600
                    (VelocityLimit accountId op "amount" "hour" limit)
  | None => mret tt
  end ;;
  match daily_count_limit env op with
  | Some limit => velocity_window (velocity_key op accountId ":d:count") 1 limit 86400
                    (VelocityLimit accountId op "count" "day" limit)
  | None => mret tt
  end.

(** ** The payment provider *)

(** [request]: up to three attempts. *)
Fixpoint request_attempts (n : nat) (last_ : string) : WM string :=
  match n with
  | O => throw ("Request failed after 3 attempts: " +:+ last_)
  | S n' => λ w,
      let w' := set_counters (uuids w) (S (http_calls w)) w in
      match provider_http env (http_calls w) with
      | Ret id => (Ret id, w')
      | Throw e => request_attempts n' e w'
      end
  end.
Definition initiate3DS (accountId : string) (amount : Z) : WM string := request_attempts 3 "".

(** ** Idempotent requests *)

Definition idem_key (k : string) : string := "wallet:idemp:" +:+ k.

(** A cached answer, the acquired lock, or the error of a request in progress. *)
Definition idem_enter (key : option string) : WM (option CachedValue) :=
  match key with
  | None => mret None
  | Some k =>
      existing ← redis_get (idem_key k);
      match existing with
      | Some CachedLock | None =>
          lock ← redis_setnx (idem_key k) CachedLock 600;
          if (lock : bool) then mret None
          else
            cached ← redis_get (idem_key k);
            match cached with
            | Some CachedLock | None => throw "Duplicate request in progress"
            | Some v => mret (Some v)
            end
      | Some v => mret (Some v)
      end
  end.

Definition idem_store (key : option string) (v : CachedValue) : WM unit :=
  match key with Some k => redis_set (idem_key k) v 600 | None => mret tt end.

(** The [try]/[catch] the three cash operations share: run [body] once per key,
    answer repeats from the cache, drop the key on any error. *)
Definition idempotent (idempotencyKey : option string) (body : WM CachedValue) : WM CachedValue :=
  let key := truthy idempotencyKey in
  try_catch
    (cached ← idem_enter key;
     match cached with
     | Some v => mret v
     | None =>
         res ← body;
         idem_store key res ;;
         mret res
     end)
    (λ e, match key with Some k => redis_del (idem_key k) | None => mret tt end ;; throw e).

Definition check_geo (ip : string) : WM unit :=
  throw_if (match geo_isAllowed env with Some allowed => negb (allowed ip) | None => false end)
    "Country not allowed".

Definition withdraw_body (accountId : string) (amount : Z) (deviceId ip currency : string)
    : WM CachedValue :=
  check_geo ip ;;
  account_by_id accountId currency ;;
  throw_if (negb (kyc_isVerified env accountId ip)) "KYC required" ;;
  throw_if (100000 <? amount) "AML limit exceeded" ;;
  checkVelocity OpWithdraw deviceId ip ;;
  enforceVelocity OpWithdraw accountId amount ;;
  enforceDailyLimit OpWithdraw accountId amount currency ;;
  id ← initiate3DS accountId amount;
  redis_set (challengeKey id) (CachedChallenge OpWithdraw accountId amount currency None) 600 ;;
  mret (CachedProviderChallenge id).

Definition withdraw (accountId : string) (amount : Z) (deviceId ip currency : string)
    (idempotencyKey : option string) : WM CachedValue :=
  idempotent idempotencyKey (withdraw_body accountId amount deviceId ip currency).

Definition check_chargebacks (accountId deviceId : string) : WM unit :=
  match chargeback_limits env with
  | Some limits =>
      cb ← chargeback_check limits accountId deviceId;
      when (cr_flagged cb)
        (let by_account := cr_accountLimit cb <=? cr_accountCount cb in
         emit (ChargebackFlag accountId deviceId
           (if by_account then cr_accountCount cb else cr_deviceCount cb)
           (if by_account then cr_accountLimit cb else cr_deviceLimit cb)) ;;
         throw "Chargeback threshold exceeded")
  | None => mret tt
  end.

Definition deposit_body (accountId : string) (amount : Z) (deviceId ip currency : string)
    : WM CachedValue :=
  check_geo ip ;;
  checkVelocity OpDeposit deviceId ip ;;
  enforceVelocity OpDeposit accountId amount ;;
  user ← account_by_id accountId currency;
  throw_if (negb (a_kycVerified user)) "KYC required" ;;
  enforceDailyLimit OpDeposit accountId amount currency ;;
  check_chargebacks accountId deviceId ;;
  id ← initiate3DS accountId amount;
  redis_set (challengeKey id)
    (CachedChallenge OpDeposit accountId amount currency (Some deviceId)) 600 ;;
  mret (CachedProviderChallenge id).

Definition deposit (accountId : string) (amount : Z) (deviceId ip currency : string)
    (idempotencyKey : option string) : WM CachedValue :=
  idempotent idempotencyKey (deposit_body accountId amount deviceId ip currency).

(** ** Pending deposits *)

Definition deposit_by_id (id : string) (w : W) : option PendingDeposit :=
  find_row (λ d, bool_decide (pd_id d = id)) (pendingDeposits w).
Definition dep_is_pending (d : PendingDeposit) : bool := bool_decide (pd_status d = DepPending).

Definition save_deposit (d : PendingDeposit) : WM unit :=
  modify (λ w, set_pendingDeposits (save_row d (pendingDeposits w)) w).

Definition confirmed_deposit (adminId : string) (at_ : Z) (d : PendingDeposit) : PendingDeposit :=
  {| pd_id := pd_id d; pd_userId := pd_userId d; pd_amount := pd_amount d;
     pd_currency := pd_currency d; pd_reference := pd_reference d; pd_status := DepConfirmed;
     pd_actionRequired := false; pd_expiresAt := pd_expiresAt d; pd_confirmedBy := Some adminId;
     pd_confirmedAt := Some at_; pd_rejectedBy := pd_rejectedBy d; pd_rejectedAt := pd_rejectedAt d;
     pd_rejectionReason := pd_rejectionReason d; pd_createdAt := pd_createdAt d |}.

Definition rejected_deposit (by_ : string) (reason : option string) (at_ : Z) (d : PendingDeposit)
    : PendingDeposit :=
  {| pd_id := pd_id d; pd_userId := pd_userId d; pd_amount := pd_amount d;
     pd_currency := pd_currency d; pd_reference := pd_reference d; pd_status := DepRejected;
     pd_actionRequired := false; pd_expiresAt := pd_expiresAt d; pd_confirmedBy := pd_confirmedBy d;
     pd_confirmedAt := pd_confirmedAt d; pd_rejectedBy := Some by_; pd_rejectedAt := Some at_;
     pd_rejectionReason := reason; pd_createdAt := pd_createdAt d |}.

Definition flagged_deposit (d : PendingDeposit) : PendingDeposit :=
  {| pd_id := pd_id d; pd_userId := pd_userId d; pd_amount := pd_amount d;
     pd_currency := pd_currency d; pd_reference := pd_reference d; pd_status := pd_status d;
     pd_actionRequired := true; pd_expiresAt := pd_expiresAt d; pd_confirmedBy := pd_confirmedBy d;
     pd_confirmedAt := pd_confirmedAt d; pd_rejectedBy := pd_rejectedBy d;
     pd_rejectedAt := pd_rejectedAt d; pd_rejectionReason := pd_rejectionReason d;
     pd_createdAt := pd_createdAt d |}.

Definition drop_job (id : string) : W → W := λ w,
  set_jobs (payoutJobs w) (filter (λ j, j ≠ id) (pendingJobs w)) w.

Definition markActionRequiredIfPending (id : string) (jobId : option string) : WM unit :=
  let waiting := λ d, bool_decide (pd_id d = id) && dep_is_pending d && negb (pd_actionRequired d) in
  affected ← gets (λ w, length (find_rows waiting (pendingDeposits w)));
  modify (λ w, set_pendingDeposits (update_where waiting flagged_deposit (pendingDeposits w)) w) ;;
  when (0 <? affected)%nat
    (o ← gets (deposit_by_id id);
     match o with
     | Some d =>
         account ← gets (λ w, find_row (λ a, bool_decide (a_id a = pd_userId d)
                                        && bool_decide (a_currency a = pd_currency d)) (accounts w));
         emit (AdminDepositPending id (pd_userId d) (pd_amount d) (pd_currency d)
                 ((λ a, a_balance a + pd_amount d) <$> account) (truthy jobId))
     | None => mret tt
     end).

Definition bank_body (accountId : string) (amount : Z) (deviceId ip currency : string)
    : WM CachedValue :=
  match bank_config env with
  | None => throw "Bank transfer configuration missing"
  | Some bank =>
      checkVelocity OpDeposit deviceId ip ;;
      enforceVelocity OpDeposit accountId amount ;;
      account_by_id accountId currency ;;
      throw_if (negb (kyc_isVerified env accountId ip)) "KYC required" ;;
      enforceDailyLimit OpDeposit accountId amount currency ;;
      refNum ← redis_incrby "wallet:deposit:ref" 1;
      let reference := "DEP" +:+ pad_start 5 (str_of_Z refNum) in
      id ← fresh_uuid env;
      t ← gets now;
      save_deposit
        {| pd_id := id; pd_userId := accountId; pd_amount := amount; pd_currency := currency;
           pd_reference := reference; pd_status := DepPending; pd_actionRequired := false;
           pd_expiresAt := t + ms_per_day; pd_confirmedBy := None; pd_confirmedAt := None;
           pd_rejectedBy := None; pd_rejectedAt := None; pd_rejectionReason := None;
           pd_createdAt := t |} ;;
      modify (λ w, set_jobs (payoutJobs w) (pendingJobs w ++ [id]) w) ;;
      when (negb (queue_connected env)) (markActionRequiredIfPending id None) ;;
      mret (CachedBankTransfer reference bank)
  end.

Definition initiateBankTransfer (accountId : string) (amount : Z) (deviceId ip currency : string)
    (idempotencyKey : option string) : WM CachedValue :=
  idempotent idempotencyKey (bank_body accountId amount deviceId ip currency).

Definition cancelPendingDeposit (userId depositId : string) : WM unit :=
  o ← gets (λ w, find_row (λ d, bool_decide (pd_id d = depositId) && bool_decide (pd_userId d = userId))
                   (pendingDeposits w));
  match o with
  | Some d =>
      if dep_is_pending d then
        t ← gets now;
        save_deposit (rejected_deposit userId (pd_rejectionReason d) t d) ;;
        emit (NotificationCreate (pd_userId d) "Deposit cancelled") ;;
        emit (DepositRejected (pd_userId d) (pd_id d) (pd_currency d) (Some "cancelled"%string)) ;;
        modify (drop_job depositId)
      else mret tt
  | None => mret tt
  end.

Definition lock_key (id : string) : string := "wallet:pending:" +:+ id +:+ ":lock".

(** The part of [confirmPendingDeposit] under the lock. *)
Definition confirm_locked (id adminId : string) : WM unit :=
  o ← gets (deposit_by_id id);
  match o with
  | Some d =>
      if dep_is_pending d then
        user ← account_by_id (pd_userId d) (pd_currency d);
        house ← account_by_name "house" (pd_currency d);
        record env "deposit" (pd_id d)
          [{| mv_account := house; mv_amount := - pd_amount d |};
           {| mv_account := user; mv_amount := pd_amount d |}] None ;;
        t ← gets now;
        save_deposit (confirmed_deposit adminId t d) ;;
        emit (NotificationCreate (pd_userId d) "Deposit confirmed") ;;
        emit (DepositConfirmed (pd_userId d) (pd_id d) (pd_amount d) (pd_currency d)) ;;
        emit (AdminDepositConfirmed (pd_id d))
      else mret tt
  | None => mret tt
  end.

Definition confirmPendingDeposit (id adminId : string) : WM unit :=
  lock ← redis_setnx (lock_key id) CachedOne 30;
  throw_if (negb lock) "Deposit locked" ;;
  try_finally (confirm_locked id adminId)
    (λ w, let w := drop_job id w in set_redis (r_del (lock_key id) (redis w)) w).

Definition reject_locked (id adminId : string) (reason : option string) : WM unit :=
  o ← gets (deposit_by_id id);
  match o with
  | Some d =>
      if dep_is_pending d then
        t ← gets now;
        save_deposit (rejected_deposit adminId reason t d) ;;
        emit (NotificationCreate (pd_userId d)
          (match truthy reason with Some r => "Deposit rejected: " +:+ r | None => "Deposit rejected" end)) ;;
        emit (DepositRejected (pd_userId d) (pd_id d) (pd_currency d) reason) ;;
        emit (AdminDepositRejected (pd_id d) reason)
      else mret tt
  | None => mret tt
  end.

Definition rejectPendingDeposit (id adminId : string) (reason : option string) : WM unit :=
  lock ← redis_setnx (lock_key id) CachedOne 30;
  throw_if (negb lock) "Deposit locked" ;;
  try_finally (reject_locked id adminId reason)
    (λ w, set_redis (r_del (lock_key id) (redis w)) w).

Definition rejectExpiredPendingDeposits : WM unit :=
  t ← gets now;
  expired ← gets (λ w, find_rows (λ d, dep_is_pending d && (pd_expiresAt d <? t)) (pendingDeposits w));
  for_each expired (λ d, rejectPendingDeposit (pd_id d) "system" (Some "expired"%string)).

(** ** Listings *)

Record TransactionView := {
  tv_id : string; tv_type : string; tv_amount : Z; tv_currency : string; tv_status : string;
  tv_createdAt : Z }.
Record TransactionsView := {
  tvs_realBalance : Z; tvs_creditBalance : Z; tvs_transactions : list TransactionView }.

Definition transactions (accountId : string) : WM TransactionsView :=
  entries ← gets (λ w, js_sort (λ x y, j_createdAt y <=? j_createdAt x)
                         (find_rows (λ j, bool_decide (j_accountId j = accountId)) (journals w)));
  account ← account_of accountId;
  mret {| tvs_realBalance := a_balance account - a_creditBalance account;
          tvs_creditBalance := a_creditBalance account;
          tvs_transactions := (λ e, {| tv_id := j_id e; tv_type := j_refType e;
            tv_amount := j_amount e; tv_currency := j_currency e;
            tv_status := default "completed"%string (j_providerStatus e);
            tv_createdAt := j_createdAt e |}) <$> entries |}.

Definition disb_status_name (s : DisbursementStatus) : string :=
  match s with DisbPending => "pending" | DisbCompleted => "completed" end.

Definition pending (accountId : string) : WM TransactionsView :=
  disbs ← gets (λ w, js_sort (λ x y, d_createdAt y <=? d_createdAt x)
    (find_rows (λ d, bool_decide (d_accountId d = accountId) && disb_is_pending d) (disbursements w)));
  account ← account_of accountId;
  mret {| tvs_realBalance := a_balance account - a_creditBalance account;
          tvs_creditBalance := a_creditBalance account;
          tvs_transactions := (λ d, {| tv_id := d_id d; tv_type := "withdraw";
            tv_amount := d_amount d; tv_currency := a_currency account;
            tv_status := disb_status_name (d_status d); tv_createdAt := d_createdAt d |}) <$> disbs |}.

Definition listPendingDeposits (w : W) : list PendingDeposit :=
  js_sort (λ x y, pd_createdAt x <=? pd_createdAt y)
    (find_rows (λ d, dep_is_pending d && pd_actionRequired d) (pendingDeposits w)).

Record PendingWithdrawal := {
  pw_id : string; pw_userId : string; pw_amount : Z; pw_currency : string;
  pw_status : DisbursementStatus; pw_createdAt : Z }.

Definition listPendingWithdrawals (w : W) : list PendingWithdrawal :=
  let disbs := js_sort (λ x y, d_createdAt x <=? d_createdAt y)
                 (find_rows disb_is_pending (disbursements w)) in
  let accs := find_rows (λ a, bool_decide (a_id a ∈ (d_accountId <$> disbs))) (accounts w) in
  (λ d, {| pw_id := d_id d; pw_userId := d_accountId d; pw_amount := d_amount d;
           pw_currency := from_option a_currency ""%string
             (head (filter (λ a, a_id a = d_accountId d) accs));
           pw_status := d_status d; pw_createdAt := d_createdAt d |}) <$> disbs.

(** ** The deposit IBAN *)

(** [.replace(/(.{4})/g, '$1 ')] *)
Fixpoint group4 (n : nat) (l : list ascii) : list ascii :=
  match l with
  | [] => []
  | c :: l' => match n with
               | S (S (S O)) => c :: " "%char :: group4 0 l'
               | _ => c :: group4 (S n) l'
               end
  end.

Definition maskIban (iban : string) : string :=
  let cleaned := filter (λ c, is_blank c = false) (String.list_ascii_of_string iban) in
  let start := take 4 cleaned in
  let end_ := slice_last 4 cleaned in
  let middle := (λ _, "*"%char) <$> slice_mid 4 4 cleaned in
  js_trim (String.string_of_list_ascii (group4 0 (start ++ middle ++ end_))).

Definition latest_iban (w : W) : option DepositIban :=
  head (js_sort (λ x y, di_updatedAt y <=? di_updatedAt x) (rows (depositIbans w))).

Definition getDepositIban : WM DepositIban :=
  o ← gets latest_iban; or_fail "IBAN not configured" o.

Definition getIbanHistory (w : W) : list DepositIbanHistory :=
  js_sort (λ x y, dh_date y <=? dh_date x) (rows (ibanHistory w)).

Record IbanUpdateRequest := {
  iu_iban : string; iu_holder : string; iu_instructions : string; iu_notes : option string }.

Definition updateDepositIban (data : IbanUpdateRequest) (userId : string) : WM DepositIban :=
  t ← gets now;
  current ← gets (λ w, head (rows (depositIbans w)));
  hid ← fresh_uuid env;
  id ← (match current with Some c => mret (di_id c) | None => fresh_uuid env end);
  let entity := {| di_id := id; di_iban := iu_iban data; di_masked := maskIban (iu_iban data);
                   di_holder := iu_holder data; di_instructions := iu_instructions data;
                   di_updatedBy := userId; di_updatedAt := t |} in
  let history := {| dh_id := hid; dh_date := t;
                    dh_oldIban := from_option di_iban ""%string current;
                    dh_newIban := iu_iban data; dh_by := userId;
                    dh_notes := default ""%string (iu_notes data) |} in
  modify (λ w, set_ibans (save_row entity (depositIbans w)) (save_row history (ibanHistory w)) w) ;;
  mret entity.

(** ** Webhooks (payment-provider.service.ts, webhook.controller.ts) *)

Definition webhook_key (idempotencyKey : string) : string := "provider:webhook:" +:+ idempotencyKey.

(** [handleWebhook] with the handler registered for 3-D Secure; with a retry
    queue a failed event is queued for a retry and the call succeeds. *)
Definition handleWebhook (event : ProviderCallback) : WM unit :=
  stored ← redis_setnx (webhook_key (cb_idempotencyKey event)) (CachedCallback event) 3600;
  if (stored : bool) then
    try_catch
      (confirm3DS env event ;; redis_del (webhook_key (cb_idempotencyKey event)))
      (λ e, if queue_connected env then mret tt else throw e)
  else mret tt.

(** The body of a callback: [type], [id] and [data.object]. *)
Record ProviderPayload := {
  pp_type : option string; pp_id : option string;
  pp_intent : option (string * option string * option string) (* id, status, idempotency key *) }.

Definition intent_status (s : option string) : ProviderStatus :=
  match s with
  | Some s => if bool_decide (s = "succeeded")%string then Approved
              else if bool_decide (s = "requires_action")%string then Risky else Chargeback
  | None => Chargeback
  end.

Definition provider_confirm3DS (p : ProviderPayload) : WM unit :=
  throw_if (match truthy (pp_type p) with
            | Some t => negb (String.prefix "payment_intent." t)
            | None => true end) "invalid event type" ;;
  match pp_intent p with
  | Some (id, st, key) =>
      throw_if (bool_decide (id = ""%string)) "invalid event payload" ;;
      handleWebhook {| cb_eventId := default id (pp_id p); cb_idempotencyKey := default id key;
                       cb_providerTxnId := id; cb_status := intent_status st |}
  | None => throw "invalid event payload"
  end.

(** [WebhookController.callback]; [signed] is the outcome of the signature check. *)
Definition callback (x_event_id : option string) (signed : bool) (p : ProviderPayload) : WM string :=
  match truthy x_event_id with
  | None => throw "missing event id"
  | Some eventId =>
      throw_if (negb signed) "invalid signature" ;;
      stored ← redis_setnx ("wallet:webhook:" +:+ eventId) CachedOne 86400;
      if (stored : bool) then provider_confirm3DS p ;; mret "acknowledged"%string
      else mret "acknowledged"%string
  end.

(** ** Bank reconciliation and withdrawal review *)

Record BankEntry := { be_reference : string; be_amount : Z }.

Fixpoint match_entries (entries : list BankEntry) (mismatch : Z) : WM Z :=
  match entries with
  | [] => mret mismatch
  | e :: rest =>
      o ← gets (λ w, find_row (λ d, bool_decide (pd_reference d = be_reference e)
                  && bool_decide (pd_amount d = be_amount e) && dep_is_pending d) (pendingDeposits w));
      match o with
      | Some d => confirmPendingDeposit (pd_id d) "system" ;; match_entries rest mismatch
      | None => match_entries rest (mismatch + be_amount e)
      end
  end.

Definition bank_reconcile (entries : list BankEntry) : WM unit :=
  total ← match_entries entries 0;
  t ← gets now;
  when (negb (total =? 0)) (emit (ReconcileMismatch (iso_day t) total [])).

(** [reconcileCsv] on lines already split on line feeds and blanks removed; a
    cell that is not a decimal number is an invalid row. *)
Definition column_index (name : string) (headers : list string) : option nat :=
  fst <$> list_find (λ h, h = name) headers.

Definition csv_entry (refIdx amtIdx : nat) (line : string) : option BankEntry :=
  let cols := js_split "," line in
  reference ← truthy (js_trim <$> cols !! refIdx);
  amount ← (cols !! amtIdx : option string) ≫= js_number;
  Some {| be_reference := reference; be_amount := amount |}.

Definition lower (s : string) : string :=
  String.string_of_list_ascii ((λ c, let n := nat_of_ascii c in
    if (65 <=? n)%nat && (n <=? 90)%nat then ascii_of_nat (n + 32) else c)
    <$> String.list_ascii_of_string s).

Definition reconcileCsv (lines : list string) : WM unit :=
  match lines with
  | [] => mret tt
  | header :: body =>
      let headers := (λ h, lower (js_trim h)) <$> js_split "," header in
      match column_index "reference" headers, column_index "amount" headers with
      | Some refIdx, Some amtIdx => bank_reconcile (omap (csv_entry refIdx amtIdx) body)
      | _, _ => mret tt
      end
  end.

(** [WithdrawalsService]: the decision rows carry no state the wallet reads. *)
Definition latest_pending (userId : string) (w : W) : option Disbursement :=
  head (js_sort (λ x y, d_createdAt y <=? d_createdAt x)
    (find_rows (λ d, bool_decide (d_accountId d = userId) && disb_is_pending d) (disbursements w))).

Definition approve_withdrawal (userId : string) : WM unit :=
  o ← gets (latest_pending userId);
  match o with
  | Some disb => account ← account_of userId; requestDisbursement env (d_id disb) (a_currency account)
  | None => mret tt
  end.

Definition reject_withdrawal (userId : string) : WM unit :=
  o ← gets (latest_pending userId);
  match o with
  | Some disb =>
      refundDisbursement env disb ;;
      modify (λ w, set_disbursements
        (delete_where (λ d, bool_decide (d_id d = d_id disb)) (disbursements w)) w)
  | None => mret tt
  end.
End Cash.
