(* ===== verification/WalletLedger.v ===== *)
(** * The ledger of the wallet

    Double entry: every posted movement is backed by a journal row and the rows
    of one posting sum to zero, so every account's balance is the sum of its
    journal rows, after any sequence of wallet calls and on every error path. *)

From S2P Require Import Prelude JsText SidePots Store WalletModel WalletCash.
#[local] Open Scope Z_scope.

Section Ledger.
Context {T : Type → Type} `{!TableOps T, !TableLaws T} {R : Type} `{!RedisOps R CachedValue}
  {B : Type} `{!BusOps B WalletEvent} (env : WalletEnv).
Abbreviation WM := (M (WalletState T R B)).
Abbreviation W := (WalletState T R B).

(** ** Posting *)

Definition journal_of (j : T JournalEntry) (id : string) : Z :=
  sum_by j_amount (filter (λ r, j_accountId r = id) (rows j)).

Lemma journal_sum_alt id (w : W) : journal_sum id w = journal_of (journals w) id.
Proof.
  unfold journal_sum, journal_of, find_rows. f_equal. apply list_filter_iff. intros r.
  by rewrite bool_decide_spec.
Qed.

(** Accounts and journal agree, and nothing is created or destroyed. *)
Record books_ok (a : T Account) (j : T JournalEntry) : Prop := {
  bo_ids : unique_ids a;
  bo_backed : ∀ r, r ∈ rows a → a_balance r = journal_of j (a_id r);
  bo_zero : sum_by j_amount (rows j) = 0 }.

(** What holds in the middle of a posting that still owes [rest]. *)
Definition owed (rest : list Movement) (id : string) : Z :=
  sum_by mv_amount (filter (λ e, a_id (mv_account e) = id) rest).

Lemma owed_cons e rest id :
  owed (e :: rest) id = (if decide (a_id (mv_account e) = id) then mv_amount e else 0) + owed rest id.
Proof. unfold owed. rewrite filter_cons. case_decide; [by rewrite sum_by_cons | lia]. Qed.

Lemma owed_notin rest id : id ∉ ((λ e, a_id (mv_account e)) <$> rest) → owed rest id = 0.
Proof.
  intros H. unfold owed.
  assert (filter (λ e, a_id (mv_account e) = id) rest = []) as ->; [|done].
  apply elem_of_nil_inv. intros e [He Hin]%list_elem_of_filter. apply H.
  rewrite <- He. by apply (list_elem_of_fmap_2 (λ e, a_id (mv_account e))).
Qed.

Lemma journal_of_insert j j' row id :
  insert_row row j = Some j' →
  journal_of j' id = (if decide (j_accountId row = id) then j_amount row else 0) + journal_of j id.
Proof.
  intros H. unfold journal_of. rewrite (rows_insert _ _ _ H), filter_cons.
  case_decide; [by rewrite sum_by_cons | lia].
Qed.

Definition snapshots_current (entries : list Movement) (a : T Account) : Prop :=
  Forall (λ e, mv_account e ∈ rows a) entries ∧ NoDup ((λ e, a_id (mv_account e)) <$> entries).

Lemma snapshots_tail e rest a :
  snapshots_current (e :: rest) a → unique_ids a → snapshots_current rest (save_row (credited e) a).
Proof.
  intros [Hin Hnd] Hu. inversion Hin as [|? ? He Hrest]; subst.
  apply NoDup_cons in Hnd as [Hne Hnd]. split; [|done].
  rewrite Forall_forall in *. intros e' He'. rewrite rows_save. apply elem_of_cons. right.
  apply list_elem_of_filter. split; [|by apply Hrest]. simpl. intros E. apply Hne. rewrite <- E.
  by apply (list_elem_of_fmap_2 (λ e, a_id (mv_account e))).
Qed.

(** Names and ids never change: what is true of every (id, name, currency) of
    the accounts stays true. *)
Definition account_key (a : Account) : string * string * string := (a_id a, a_name a, a_currency a).

Lemma save_credited_keys e a k :
  mv_account e ∈ rows a →
  k ∈ (account_key <$> rows (save_row (credited e) a)) → k ∈ (account_key <$> rows a).
Proof.
  intros He (r & -> & Hr)%list_elem_of_fmap. rewrite rows_save in Hr.
  apply elem_of_cons in Hr as [->|[_ Hr]%list_elem_of_filter].
  - by apply (list_elem_of_fmap_2 account_key) in He.
  - by apply list_elem_of_fmap_2.
Qed.

Lemma post_entries_books refType refId m t entries a j n a' j' n' :
  post_entries env refType refId m t entries a j n = Some (a', j', n') →
  unique_ids a → snapshots_current entries a →
  (∀ r, r ∈ rows a → a_balance r = journal_of j (a_id r)) →
  unique_ids a' ∧ (∀ r, r ∈ rows a' → a_balance r = journal_of j' (a_id r)) ∧
  sum_by j_amount (rows j') = sum_by j_amount (rows j) + sum_by mv_amount entries ∧
  (∀ k, k ∈ (account_key <$> rows a') → k ∈ (account_key <$> rows a)).
Proof.
  revert a j n; induction entries as [|e rest IH]; intros a j n H Hu Hs Hb; simpl in H.
  - injection H as <- <- <-. rewrite sum_by_nil. split_and!; auto. lia.
  - destruct (insert_row _ j) as [j1|] eqn:Ej; [|done].
    pose proof Hs as [Hin _]. inversion Hin as [|? ? He _]; subst.
    apply IH in H as (Hu' & Hb' & Hsum & Hk).
    + split_and!; [done|done| |].
      * rewrite Hsum, (rows_insert _ _ _ Ej), !sum_by_cons. simpl. lia.
      * intros k Hkin. eapply save_credited_keys; [exact He | by apply Hk].
    + by apply unique_ids_save.
    + by apply snapshots_tail.
    + intros r Hr. rewrite (journal_of_insert _ _ _ _ Ej). simpl.
      rewrite rows_save in Hr. apply elem_of_cons in Hr as [->|[Hne Hr]%list_elem_of_filter].
      * simpl. rewrite decide_True by done. rewrite (Hb _ He). lia.
      * simpl in Hne. rewrite decide_False by congruence. rewrite (Hb _ Hr). lia.
Qed.
(** ** The invariant of the service *)

Definition system_names : list string := ["reserve"; "house"; "rake"; "prize"]%string.

(** [ord] holds of the ids of ordinary users: none is a system account, and only
    such ids occur in disbursements, pending deposits and stored challenges. *)
Context `{!RedisLaws R CachedValue} (ord : string → Prop).

Record wallet_inv (w : W) : Prop := {
  wi_books : books_ok (accounts w) (journals w);
  wi_ord : ∀ k, k ∈ (account_key <$> rows (accounts w)) → ord k.1.1 → k.1.2 ∉ system_names;
  wi_disb : ∀ d, d ∈ rows (disbursements w) → ord (d_accountId d);
  wi_dep : ∀ d, d ∈ rows (pendingDeposits w) → ord (pd_userId d);
  wi_chal : ∀ k op acc amt cur dev,
    r_get k (redis w) = Some (CachedChallenge op acc amt cur dev) → ord acc }.

(** The invariant with the accounts fixed: what calls that move no money keep. *)
Definition inv_at (a : T Account) (w : W) : Prop := wallet_inv w ∧ accounts w = a.

Lemma inv_same w w' :
  wallet_inv w → accounts w' = accounts w → journals w' = journals w →
  disbursements w' = disbursements w → pendingDeposits w' = pendingDeposits w →
  (∀ k v, r_get k (redis w') = Some v → r_get k (redis w) = Some v) → wallet_inv w'.
Proof.
  intros [Hb Ho Hd Hp Hc] Ea Ej Ed Ep Er. split.
  - by rewrite Ea, Ej.
  - by rewrite Ea.
  - by rewrite Ed.
  - by rewrite Ep.
  - intros k op acc amt cur dev H%Er. by eapply Hc.
Qed.

(** [m] keeps the invariant and touches no account. *)
Definition quiet {A} (m : WM A) : Prop := ∀ a, preserves (inv_at a) m.

Lemma quiet_triple {A} (m : WM A) a : quiet m → triple (inv_at a) m (λ _, inv_at a) (inv_at a).
Proof. intros H. apply preserves_triple, H. Qed.

Lemma quiet_modify (f : W → W) :
  (∀ w, wallet_inv w → wallet_inv (f w) ∧ accounts (f w) = accounts w) → quiet (modify f).
Proof. intros H a w [Hi <-]. exact (H w Hi). Qed.

Ltac quiet_fields := intros w Hw; split; [eapply inv_same; [exact Hw|..]; done | done].

Lemma quiet_emit ev : quiet (emit ev).
Proof.
  intros a w [Hi <-]. unfold emit. destruct (bus_emit ev (bus w)) as [o b]. simpl.
  split; [by eapply inv_same | done].
Qed.
Lemma quiet_uuid : quiet (fresh_uuid env).
Proof. intros a w [Hi <-]. split; [by eapply inv_same | done]. Qed.
Lemma quiet_gets {A} (f : W → A) : quiet (gets f).
Proof. intros a w H. exact H. Qed.
Lemma quiet_ret {A} (x : A) : quiet (mret x).
Proof. intros a w H. exact H. Qed.
Lemma quiet_throw {A} e : quiet (throw e : WM A).
Proof. intros a w H. exact H. Qed.
Lemma quiet_throw_if c e : quiet (throw_if c e).
Proof. destruct c; intros a w H; exact H. Qed.
Lemma quiet_lift {A} (o : outcome A) : quiet (lift o).
Proof. intros a w H. exact H. Qed.
Lemma quiet_or_fail {A} e (o : option A) : quiet (or_fail e o).
Proof. destruct o; intros acc w H; exact H. Qed.
Lemma quiet_bind {A C} (m : WM A) (k : A → WM C) : quiet m → (∀ x, quiet (k x)) → quiet (m ≫= k).
Proof. intros Hm Hk a. apply preserves_bind; [apply Hm | intros x; apply Hk]. Qed.
Lemma quiet_when c (m : WM unit) : quiet m → quiet (when c m).
Proof. destruct c; [done | intros _; apply quiet_ret]. Qed.
Lemma quiet_for_each {A} (l : list A) f : (∀ x, x ∈ l → quiet (f x)) → quiet (for_each l f).
Proof. intros H a. apply preserves_for_each. intros x Hx. by apply H. Qed.
Lemma quiet_catch {A} (m : WM A) h : quiet m → (∀ e, quiet (h e)) → quiet (try_catch m h).
Proof. intros Hm Hh a. apply preserves_catch; [apply Hm | intros e; apply Hh]. Qed.

Lemma redis_quiet (f : R → R) :
  (∀ r k v, r_get k (f r) = Some v → r_get k r = Some v) →
  quiet (modify (λ w, set_redis (f (redis w)) w)).
Proof.
  intros Hf. apply quiet_modify. intros w Hw. split; [eapply inv_same; try done|done].
  intros k v. apply Hf.
Qed.

Lemma quiet_redis_get k : quiet (redis_get k).
Proof. apply quiet_gets. Qed.
Lemma quiet_redis_set k v ttl :
  (∀ op acc amt cur dev, v = CachedChallenge op acc amt cur dev → ord acc) →
  quiet (redis_set k v ttl).
Proof.
  intros Hv a w [[Hb Ho Hd Hp Hc] <-]. split; [|done]. split; try done.
  intros k' op acc amt cur dev. simpl. rewrite get_set. case_decide; [|apply Hc].
  intros [= ->]. by eapply Hv.
Qed.
Lemma quiet_redis_setnx k v ttl :
  (∀ op acc amt cur dev, v = CachedChallenge op acc amt cur dev → ord acc) →
  quiet (redis_setnx k v ttl).
Proof.
  intros Hv a w Hw. unfold redis_setnx. rewrite setnx_spec.
  destruct (r_get k (redis w)); simpl.
  - destruct Hw as [Hi <-]. split; [by eapply inv_same | done].
  - exact (quiet_redis_set k v ttl Hv a w Hw).
Qed.
Lemma quiet_redis_del k : quiet (redis_del k).
Proof.
  apply (redis_quiet (r_del k)). intros r k' v. rewrite get_del. by case_decide.
Qed.
Lemma quiet_redis_incrby k n : quiet (redis_incrby k n).
Proof.
  intros a w [Hi <-]. unfold redis_incrby. destruct (r_incrby k n (redis w)) as [c r] eqn:E.
  split; [|done]. eapply inv_same; try done. intros k' v H. simpl in H.
  eapply (get_counter k k' n). by rewrite E.
Qed.
Lemma quiet_redis_expire k ttl : quiet (redis_expire k ttl).
Proof.
  intros a w [Hi <-]. unfold redis_expire. destruct (r_expire k ttl (redis w)) as [c r] eqn:E.
  split; [|done]. eapply inv_same; try done. intros k' v H. simpl in H.
  rewrite <- (get_expire k k' ttl (redis w)), E. exact H.
Qed.

Lemma quiet_settlements (f : W → T SettlementJournal) :
  quiet (modify (λ w, set_settlements (f w) w)).
Proof. apply quiet_modify. quiet_fields. Qed.
Lemma quiet_jobs f g : quiet (modify (λ w, set_jobs (f w) (g w) w)).
Proof. apply quiet_modify. quiet_fields. Qed.
Lemma quiet_ibans f g : quiet (modify (λ w, set_ibans (f w) (g w) w)).
Proof. apply quiet_modify. quiet_fields. Qed.
Lemma quiet_acknowledged f : quiet (modify (λ w, set_acknowledged (f w) w)).
Proof. apply quiet_modify. quiet_fields. Qed.

Create HintDb quiet.
#[local] Hint Resolve quiet_emit quiet_uuid quiet_gets quiet_ret quiet_throw quiet_throw_if
  quiet_lift quiet_or_fail quiet_redis_get quiet_redis_del quiet_redis_incrby quiet_redis_expire
  quiet_settlements quiet_jobs quiet_ibans quiet_acknowledged : quiet.

Ltac quiet_step :=
  lazymatch goal with
  | |- quiet (mbind _ _) => apply quiet_bind
  | |- quiet (try_catch _ _) => apply quiet_catch
  | |- quiet (for_each _ _) => apply quiet_for_each
  | |- quiet (when _ _) => apply quiet_when
  | |- quiet (redis_set _ _ _) => apply quiet_redis_set; intros ? ? ? ? ? ?; simplify_eq
  | |- quiet (redis_setnx _ _ _) => apply quiet_redis_setnx; intros ? ? ? ? ? ?; simplify_eq
  | |- quiet (match ?x with _ => _ end) => destruct x
  | |- ∀ _, _ ∈ _ → quiet _ => intros ? ?
  | |- ∀ _, quiet _ => intros ?
  end.
Ltac quiet := repeat first [solve [eauto with quiet] | quiet_step].

(** Finding accounts changes nothing and yields rows. *)
Lemma account_by_id_spec a id currency :
  triple (inv_at a) (account_by_id id currency)
    (λ r w, inv_at a w ∧ r ∈ rows a ∧ a_id r = id ∧ a_currency r = currency) (inv_at a).
Proof.
  intros w Hw. unfold account_by_id, or_fail, mbind, M_bind, gets. destruct (find_row _ (accounts w)) as [r|] eqn:E; [|exact Hw].
  apply find_row_Some in E as [Hin [H1%bool_decide_eq_true H2%bool_decide_eq_true]%andb_true_iff].
  pose proof Hw as [_ <-]. by split_and!.
Qed.
Lemma account_by_name_spec a name currency :
  triple (inv_at a) (account_by_name name currency)
    (λ r w, inv_at a w ∧ r ∈ rows a ∧ a_name r = name ∧ a_currency r = currency) (inv_at a).
Proof.
  intros w Hw. unfold account_by_name, or_fail, mbind, M_bind, gets. destruct (find_row _ (accounts w)) as [r|] eqn:E; [|exact Hw].
  apply find_row_Some in E as [Hin [H1%bool_decide_eq_true H2%bool_decide_eq_true]%andb_true_iff].
  pose proof Hw as [_ <-]. by split_and!.
Qed.
Lemma account_of_spec a id :
  triple (inv_at a) (account_of id) (λ r w, inv_at a w ∧ r ∈ rows a ∧ a_id r = id) (inv_at a).
Proof.
  intros w Hw. unfold account_of, or_fail, mbind, M_bind, gets. destruct (find_row _ (accounts w)) as [r|] eqn:E; [|exact Hw].
  apply find_row_Some in E as [Hin H1%bool_decide_eq_true]. pose proof Hw as [_ <-]. by split_and!.
Qed.

Lemma quiet_find {A} (m : WM A) Q :
  (∀ a, triple (inv_at a) m (λ r w, inv_at a w ∧ Q a r) (inv_at a)) → quiet m.
Proof.
  intros H a w Hw. specialize (H a w Hw). destruct (m w) as [[x|e] w']; simpl; [by destruct H | done].
Qed.
Lemma quiet_account_by_id id currency : quiet (account_by_id id currency).
Proof. eapply quiet_find. intros a. apply account_by_id_spec. Qed.
Lemma quiet_account_by_name name currency : quiet (account_by_name name currency).
Proof. eapply quiet_find. intros a. apply account_by_name_spec. Qed.
Lemma quiet_account_of id : quiet (account_of id).
Proof. eapply quiet_find. intros a. apply account_of_spec. Qed.
#[local] Hint Resolve quiet_account_by_id quiet_account_by_name quiet_account_of : quiet.

Lemma user_not_system w u s :
  wallet_inv w → u ∈ rows (accounts w) → ord (a_id u) → s ∈ rows (accounts w) →
  a_name s ∈ system_names → a_id u ≠ a_id s.
Proof.
  intros [[Hu _ _] Ho _ _ _] Hin Hord Hs Hn E.
  assert (u = s) as -> by (by apply (NoDup_fmap_inj_in row_id (rows (accounts w)))).
  apply (Ho (account_key s)); [by apply list_elem_of_fmap_2 | done | done].
Qed.

Lemma system_distinct w s s' :
  wallet_inv w → s ∈ rows (accounts w) → s' ∈ rows (accounts w) → a_name s ≠ a_name s' →
  a_id s ≠ a_id s'.
Proof.
  intros [[Hu _ _] _ _ _ _] Hs Hs' Hn E.
  assert (s = s') as -> by (by apply (NoDup_fmap_inj_in row_id (rows (accounts w)))). done.
Qed.

(** [record] with current snapshots of distinct accounts. *)
Lemma record_inv refType refId entries m a :
  (∀ w, inv_at a w → snapshots_current entries (accounts w)) →
  triple (inv_at a) (record env refType refId entries m) (λ _, wallet_inv) wallet_inv.
Proof.
  intros Hs. unfold record.
  eapply (triple_bind _ _ _ (λ _ w, inv_at a w ∧ sum_by mv_amount entries = 0)).
  { apply triple_throw_if. intros w Hw.
    destruct (Z.eqb_spec (sum_by mv_amount entries) 0); simpl; [by split | apply Hw]. }
  intros []. eapply triple_bind; [apply (triple_gets _ _ (λ _ w, inv_at a w ∧ sum_by mv_amount entries = 0)); auto|].
  intros [|]; [intros w [[Hw _] _]; exact Hw|].
  eapply (triple_bind _ _ _ (λ _, wallet_inv)).
  - intros w [[Hw Ha] Hsum]. unfold post.
    destruct (post_entries _ _ _ _ _ _ _ _ _) as [[[a' j'] n']|] eqn:E; [|done].
    pose proof Hw as [[Hu Hb Hz] Ho Hd Hp Hc].
    destruct (post_entries_books _ _ _ _ _ _ _ _ _ _ _ E Hu (Hs w (conj Hw Ha)) Hb)
      as (Hu' & Hb' & Hsum' & Hk).
    split; simpl; try done.
    + split; [done | done | lia].
    + intros k Hkin. by apply Ho, Hk.
  - intros [] w Hw. assert (quiet (for_each entries (announce env refType refId))) as Hq.
    { unfold announce. quiet. }
    specialize (Hq (accounts w) w (conj Hw eq_refl)).
    destruct (for_each _ _ w) as [[x|e] w']; apply Hq.
Qed.

Lemma pair_current u s a ua sa :
  u ∈ rows a → s ∈ rows a → a_id u ≠ a_id s →
  snapshots_current [{| mv_account := u; mv_amount := ua |}; {| mv_account := s; mv_amount := sa |}] a.
Proof.
  intros Hu Hs Hne. split; [by repeat constructor|]. simpl.
  apply NoDup_cons. split; [by rewrite list_elem_of_singleton | apply NoDup_singleton].
Qed.

(** ** Every operation keeps the invariant *)

Definition safe {A} (m : WM A) : Prop := triple wallet_inv m (λ _, wallet_inv) wallet_inv.

Lemma safe_at {A} (m : WM A) :
  (∀ a, triple (inv_at a) m (λ _, wallet_inv) wallet_inv) → safe m.
Proof. intros H w Hw. exact (H (accounts w) w (conj Hw eq_refl)). Qed.

Lemma quiet_safe {A} (m : WM A) : quiet m → safe m.
Proof.
  intros H w Hw. specialize (H (accounts w) w (conj Hw eq_refl)).
  destruct (m w) as [[x|e] w']; apply H.
Qed.

Lemma safe_bind {A C} (m : WM A) (k : A → WM C) : safe m → (∀ x, safe (k x)) → safe (m ≫= k).
Proof. intros Hm Hk. by eapply triple_bind. Qed.

Lemma quiet_at {A} a (m : WM A) :
  quiet m → triple (inv_at a) m (λ _, wallet_inv) wallet_inv.
Proof. intros H w Hw. specialize (H a w Hw). destruct (m w) as [[x|e] w']; apply H. Qed.

(** A quiet step before money moves. *)
Lemma at_bind {A C} a (m : WM A) (k : A → WM C) :
  quiet m → (∀ x, triple (inv_at a) (k x) (λ _, wallet_inv) wallet_inv) →
  triple (inv_at a) (m ≫= k) (λ _, wallet_inv) wallet_inv.
Proof.
  intros Hm Hk. eapply triple_bind; [|exact Hk].
  eapply triple_weaken; [apply (quiet_triple _ a Hm)|done|done|]. by intros w [].
Qed.

(** Money moves, then the rest. *)
Lemma at_then {C} a (m : WM unit) (k : unit → WM C) :
  triple (inv_at a) m (λ _, wallet_inv) wallet_inv → (∀ x, safe (k x)) →
  triple (inv_at a) (m ≫= k) (λ _, wallet_inv) wallet_inv.
Proof. intros Hm Hk. by eapply triple_bind. Qed.

Lemma at_find {A C} a (m : WM A) (Q : A → Prop) (k : A → WM C) :
  triple (inv_at a) m (λ x w, inv_at a w ∧ Q x) (inv_at a) →
  (∀ x, Q x → triple (inv_at a) (k x) (λ _, wallet_inv) wallet_inv) →
  triple (inv_at a) (m ≫= k) (λ _, wallet_inv) wallet_inv.
Proof.
  intros Hm Hk. eapply triple_bind.
  - eapply triple_weaken; [exact Hm|done| |]; [intros x w H; exact H | by intros w []].
  - intros x w [Hw HQ]. exact (Hk x HQ w Hw).
Qed.

Lemma at_user {C} a id currency (k : Account → WM C) :
  (∀ u, u ∈ rows a → a_id u = id → a_currency u = currency →
    triple (inv_at a) (k u) (λ _, wallet_inv) wallet_inv) →
  triple (inv_at a) (account_by_id id currency ≫= k) (λ _, wallet_inv) wallet_inv.
Proof.
  intros Hk. eapply at_find; [apply account_by_id_spec|]. intros x (? & ? & ?). auto.
Qed.
Lemma at_account {C} a id (k : Account → WM C) :
  (∀ u, u ∈ rows a → a_id u = id → triple (inv_at a) (k u) (λ _, wallet_inv) wallet_inv) →
  triple (inv_at a) (account_of id ≫= k) (λ _, wallet_inv) wallet_inv.
Proof. intros Hk. eapply at_find; [apply account_of_spec|]. intros x (? & ?). auto. Qed.
Lemma at_system {C} a name currency (k : Account → WM C) :
  (∀ s, s ∈ rows a → a_name s = name → triple (inv_at a) (k s) (λ _, wallet_inv) wallet_inv) →
  triple (inv_at a) (account_by_name name currency ≫= k) (λ _, wallet_inv) wallet_inv.
Proof. intros Hk. eapply at_find; [apply account_by_name_spec|]. intros x (? & ? & ?). auto. Qed.

(** The two shapes of transfer between a user and a system account. *)
Lemma record_user_system refType refId m a u s ua sa :
  u ∈ rows a → ord (a_id u) → s ∈ rows a → a_name s ∈ system_names →
  triple (inv_at a) (record env refType refId
    [{| mv_account := u; mv_amount := ua |}; {| mv_account := s; mv_amount := sa |}] m)
    (λ _, wallet_inv) wallet_inv.
Proof.
  intros Hu Hord Hs Hn. apply record_inv. intros w [Hw Ha]. subst a. apply pair_current; try done.
  by apply (user_not_system w).
Qed.
Lemma record_system_user refType refId m a u s ua sa :
  u ∈ rows a → ord (a_id u) → s ∈ rows a → a_name s ∈ system_names →
  triple (inv_at a) (record env refType refId
    [{| mv_account := s; mv_amount := sa |}; {| mv_account := u; mv_amount := ua |}] m)
    (λ _, wallet_inv) wallet_inv.
Proof.
  intros Hu Hord Hs Hn. apply record_inv. intros w [Hw Ha]. subst a. apply pair_current; try done.
  apply not_eq_sym. by apply (user_not_system w).
Qed.

Lemma is_system (s : Account) n : a_name s = n → n ∈ system_names → a_name s ∈ system_names.
Proof. by intros ->. Qed.
Ltac system := eapply is_system; [eassumption | by apply (bool_decide_eq_true_1 (_ ∈ system_names))].

Lemma quiet_insert_settlement key : quiet (insert_settlement env key).
Proof. unfold insert_settlement. quiet. Qed.
#[local] Hint Resolve quiet_insert_settlement : quiet.

Lemma reserve_safe accountId amount refId currency key :
  ord accountId → safe (reserve env accountId amount refId currency key).
Proof.
  intros Ho. apply safe_at. intros a. unfold reserve.
  apply at_user. intros u Hu <- Hc. apply at_system. intros s Hs Hn.
  apply at_bind; [quiet|]. intros _. apply record_user_system; try done. system.
Qed.

Lemma commit_safe refId amount rake currency key : safe (commit env refId amount rake currency key).
Proof.
  apply safe_at. intros a. unfold commit.
  apply at_system. intros s Hs Hn. apply at_system. intros p Hp Hpn. apply at_system. intros r Hr Hrn.
  apply at_then; [|intros _; apply quiet_safe; quiet].
  apply record_inv. intros w [Hw Ha]. subst a. split; [by repeat constructor|]. simpl.
  pose proof (system_distinct w s p Hw Hs Hp ltac:(congruence)).
  pose proof (system_distinct w s r Hw Hs Hr ltac:(congruence)).
  pose proof (system_distinct w p r Hw Hp Hr ltac:(congruence)).
  repeat (apply NoDup_cons; split); [..|apply NoDup_nil; done];
    rewrite ?elem_of_cons, elem_of_nil; intuition congruence.
Qed.

Lemma quiet_settlement_cancel h st i : quiet (settlement_cancel h st i).
Proof. apply quiet_settlements. Qed.
#[local] Hint Resolve quiet_settlement_cancel : quiet.

Lemma rollback_safe accountId amount refId currency key :
  ord accountId → safe (rollback env accountId amount refId currency key).
Proof.
  intros Ho. apply safe_at. intros a. unfold rollback.
  apply at_system. intros s Hs Hn. apply at_user. intros u Hu <- Hc.
  apply at_then; [|intros _; apply quiet_safe; quiet].
  apply record_system_user; try done. system.
Qed.

Lemma refund_safe d : ord (d_accountId d) → safe (refundDisbursement env d).
Proof.
  intros Ho. apply safe_at. intros a. unfold refundDisbursement.
  apply at_account. intros u Hu Hid. apply at_system. intros s Hs Hn.
  apply record_system_user; try done; [by rewrite Hid | system].
Qed.

Lemma quiet_requestDisbursement id currency : quiet (requestDisbursement env id currency).
Proof. unfold requestDisbursement. quiet. Qed.
#[local] Hint Resolve quiet_requestDisbursement : quiet.
Lemma quiet_enqueueDisbursement id currency : quiet (enqueueDisbursement env id currency).
Proof. unfold enqueueDisbursement. quiet. Qed.
#[local] Hint Resolve quiet_enqueueDisbursement : quiet.

Lemma quiet_chargeback_record x y z : quiet (chargeback_record env x y z).
Proof.
  unfold chargeback_record. apply quiet_bind; [quiet|]. intros t. apply quiet_bind; [quiet|]. intros u.
  apply quiet_bind; [|quiet].
  apply (redis_quiet (λ r, r_zadd (devKey z) t _ (r_zadd (accKey y) t _ r))).
  intros r k v H. by do 2 apply get_zadd in H.
Qed.
#[local] Hint Resolve quiet_chargeback_record : quiet.
Lemma quiet_chargeback_check x y z : quiet (chargeback_check x y z).
Proof.
  destruct x as [[wms al] dl]. unfold chargeback_check.
  apply quiet_bind; [quiet|]. intros t. apply quiet_bind; [|quiet].
  apply (redis_quiet (λ r, r_zremrangebyscore (devKey z) 0 _ (r_zremrangebyscore (accKey y) 0 _ r))).
  intros r k v H. by do 2 apply get_zrem in H.
Qed.
#[local] Hint Resolve quiet_chargeback_check : quiet.

Lemma save_disbursement_safe (f : W → Disbursement) :
  (∀ w, wallet_inv w → ord (d_accountId (f w))) →
  safe (modify (λ w, set_disbursements (save_row (f w) (disbursements w)) w)).
Proof.
  intros Hf w Hw. pose proof (Hf w Hw) as Hfo. destruct Hw as [Hb Ho Hd Hp Hc]. split; try done. simpl.
  intros d. rewrite rows_save. intros [->|[_ ?]%list_elem_of_filter]%elem_of_cons; [done | by apply Hd].
Qed.

Lemma settle_challenge_safe ev op accountId amount currency dev :
  ord accountId → safe (settle_challenge env ev op accountId amount currency dev).
Proof.
  intros Ho. apply safe_at. intros a. unfold settle_challenge.
  apply at_user. intros u Hu <- Hc. apply at_system. intros s Hs Hn.
  apply at_bind; [quiet|]. intros ref.
  destruct op, (cb_status ev);
    try (solve [apply quiet_at; quiet]).
  - apply record_system_user; try done. system.
  - apply at_then; [apply record_user_system; try done; system|]. intros _.
    apply safe_bind; [apply quiet_safe; quiet|]. intros id.
    apply safe_bind; [apply quiet_safe; quiet|]. intros key.
    apply safe_bind; [apply quiet_safe; quiet|]. intros t.
    apply safe_bind; [by apply (save_disbursement_safe (λ _, _))|]. intros _. apply quiet_safe; quiet.
Qed.

Lemma quiet_duplicate id : quiet (isDuplicateWebhook id).
Proof. unfold isDuplicateWebhook. quiet. Qed.
#[local] Hint Resolve quiet_duplicate : quiet.

Lemma confirm3DS_safe ev : safe (confirm3DS env ev).
Proof.
  unfold confirm3DS. apply safe_bind; [apply quiet_safe; quiet|]. intros [|]; [apply quiet_safe; quiet|].
  eapply (triple_bind _ _ _ (λ v w, wallet_inv w ∧ ∀ op acc amt cur dev,
    v = Some (CachedChallenge op acc amt cur dev) → ord acc)).
  { apply triple_gets. intros w Hw. split; [done|]. intros op acc amt cur dev E.
    by eapply (wi_chal w Hw). }
  intros v w [Hw Hv]. destruct v as [[| |op acc amt cur dev| | |]|]; try exact Hw.
  assert (safe (redis_del (challengeKey (cb_providerTxnId ev)) ;;
    settle_challenge env ev op acc amt cur dev)) as H; [|exact (H w Hw)].
  apply safe_bind; [apply quiet_safe; quiet|]. intros _. apply settle_challenge_safe.
  by eapply Hv.
Qed.

Lemma processDisbursement_safe eventId key txn st : safe (processDisbursement env eventId key txn st).
Proof.
  unfold processDisbursement. apply safe_bind; [apply quiet_safe; quiet|].
  intros [|]; [apply quiet_safe; quiet|].
  eapply (triple_bind _ _ _ (λ o w, wallet_inv w ∧ ∀ d, o = Some d → ord (d_accountId d))).
  { apply triple_gets. intros w Hw. split; [done|]. intros d E. apply find_row_Some in E as [Hin _].
    by apply (wi_disb w Hw). }
  intros o w [Hw Hd]. destruct o as [d|]; [|exact Hw]. specialize (Hd d eq_refl).
  case_bool_decide; [exact Hw|]. revert w Hw.
  match goal with |- ∀ w, wallet_inv w → match (?m w) with _ => _ end => change (safe m) end.
  apply safe_at. intros a. apply at_account. intros u Hu _. apply at_system. intros s Hs Hn.
  apply at_then.
  - apply record_inv. intros w [Hw Ha]. split; [repeat constructor; by subst a | apply NoDup_singleton].
  - intros _. case_decide; [|apply quiet_safe; quiet].
    apply safe_bind; [apply quiet_safe; quiet|]. intros t. by apply (save_disbursement_safe (λ _, _)).
Qed.

Lemma adminAdjustBalance_safe userId action amount currency :
  ord userId → safe (adminAdjustBalance env userId action amount currency).
Proof.
  intros Ho. apply safe_at. intros a. unfold adminAdjustBalance.
  apply at_user. intros u Hu <- Hc. apply at_system. intros s Hs Hn. apply at_bind; [quiet|]. intros ref.
  destruct action.
  - apply record_system_user; try done. system.
  - apply record_user_system; try done. system.
  - intros w [Hw _]. by apply reserve_safe.
Qed.

Lemma delete_disbursement_safe p :
  safe (modify (λ w, set_disbursements (delete_where p (disbursements w)) w)).
Proof.
  intros w [Hb Ho Hd Hp Hc]. split; try done. simpl. intros d. rewrite rows_delete.
  intros [_ ?]%list_elem_of_filter. by apply Hd.
Qed.

(** Refund a disbursement found in the table, then delete it. *)
Lemma find_refund_safe (f : W → option Disbursement) :
  (∀ w d, f w = Some d → d ∈ rows (disbursements w)) →
  safe (o ← gets f; match o with
        | Some disb => refundDisbursement env disb ;;
            modify (λ w, set_disbursements
              (delete_where (λ d, bool_decide (d_id d = d_id disb)) (disbursements w)) w)
        | None => mret tt end).
Proof.
  intros Hf. eapply (triple_bind _ _ _ (λ o w, wallet_inv w ∧ ∀ d, o = Some d → ord (d_accountId d))).
  { apply triple_gets. intros w Hw. split; [done|]. intros d E. by apply (wi_disb w Hw), Hf. }
  intros o w [Hw Hd]. destruct o as [d|]; [|exact Hw].
  assert (safe (refundDisbursement env d ;; modify (λ w, set_disbursements
    (delete_where (λ d0, bool_decide (d_id d0 = d_id d)) (disbursements w)) w))) as H; [|exact (H w Hw)].
  apply safe_bind; [by apply refund_safe, Hd | intros _; apply delete_disbursement_safe].
Qed.

(** ** Cash in and out *)

Lemma quiet_checkVelocity op dev ip : quiet (checkVelocity op dev ip).
Proof. unfold checkVelocity. quiet. Qed.
Lemma quiet_enforceDailyLimit op acc amt cur : quiet (enforceDailyLimit env op acc amt cur).
Proof. unfold enforceDailyLimit. quiet. Qed.
Lemma quiet_velocity_window key step limit ttl ev : quiet (velocity_window key step limit ttl ev).
Proof. unfold velocity_window. quiet. Qed.
#[local] Hint Resolve quiet_checkVelocity quiet_enforceDailyLimit quiet_velocity_window : quiet.
Lemma quiet_enforceVelocity op acc amt : quiet (enforceVelocity env op acc amt).
Proof. unfold enforceVelocity. quiet. Qed.
Lemma quiet_request n e : quiet (request_attempts env n e).
Proof.
  revert e; induction n as [|n IH]; intros e; simpl; [apply quiet_throw|].
  intros a w [Hw <-]. set (w' := set_counters _ _ w).
  assert (inv_at (accounts w) w') as Hw' by (split; [by eapply inv_same | done]).
  destruct (provider_http env (http_calls w)) as [id|e']; [exact Hw'|]. by apply (IH e').
Qed.
#[local] Hint Resolve quiet_enforceVelocity quiet_request : quiet.
Lemma quiet_check_chargebacks acc dev : quiet (check_chargebacks env acc dev).
Proof. unfold check_chargebacks. quiet. Qed.
#[local] Hint Resolve quiet_check_chargebacks : quiet.

Lemma quiet_idem_enter key : quiet (idem_enter key).
Proof. unfold idem_enter. quiet. Qed.

(** What a cash operation may cache. *)
Definition cacheable (v : CachedValue) : Prop :=
  match v with CachedChallenge _ acc _ _ _ => ord acc | _ => True end.

Lemma idempotent_safe key body :
  (triple wallet_inv body (λ v w, wallet_inv w ∧ cacheable v) wallet_inv) →
  safe (idempotent key body).
Proof.
  intros Hb. unfold idempotent.
  eapply triple_catch.
  - eapply (triple_bind _ _ _ (λ _, wallet_inv)); [apply quiet_safe, quiet_idem_enter|].
    intros [v|]; [by apply triple_ret|].
    eapply triple_bind; [exact Hb|]. intros v w [Hw Hv].
    assert (safe (idem_store (truthy key) v ;; mret v)) as H; [|exact (H w Hw)].
    apply safe_bind; [|intros _; apply quiet_safe, quiet_ret]. apply quiet_safe. unfold idem_store.
    destruct (truthy key); [|apply quiet_ret]. apply quiet_redis_set. intros ? ? ? ? ? ->. exact Hv.
  - intros e. apply quiet_safe. quiet.
Qed.

Lemma quiet_body {A} (m : WM A) : quiet m → triple wallet_inv m (λ v w, wallet_inv w ∧ True) wallet_inv.
Proof. intros H w Hw. pose proof (quiet_safe m H w Hw). by destruct (m w) as [[x|e] w']. Qed.

Lemma ending_with {A} (m : WM A) (k : A → WM CachedValue) :
  safe m → (∀ x, triple wallet_inv (k x) (λ v w, wallet_inv w ∧ cacheable v) wallet_inv) →
  triple wallet_inv (m ≫= k) (λ v w, wallet_inv w ∧ cacheable v) wallet_inv.
Proof. intros Hm Hk. by eapply triple_bind. Qed.

Ltac endings :=
  repeat (lazymatch goal with
    | |- triple wallet_inv (mbind _ _) _ _ => apply ending_with; [|intros ?]
    | |- triple wallet_inv (mret _) _ _ => apply triple_ret; intros ? ?; split; [done | exact I]
    | |- triple wallet_inv (throw _) _ _ => apply triple_throw; done
    end; try (solve [apply quiet_safe; quiet])).

Lemma withdraw_safe acc amt dev ip cur key : ord acc → safe (withdraw env acc amt dev ip cur key).
Proof.
  intros Ho. apply idempotent_safe. unfold withdraw_body, check_geo. endings.

Qed.
Lemma deposit_safe acc amt dev ip cur key : ord acc → safe (deposit env acc amt dev ip cur key).
Proof.
  intros Ho. apply idempotent_safe. unfold deposit_body, check_geo. endings.

Qed.

Lemma save_deposit_safe d : ord (pd_userId d) → safe (save_deposit d).
Proof.
  intros Ho w [Hb Hor Hd Hp Hc]. split; try done. simpl. intros d'. rewrite rows_save.
  intros [->|[_ ?]%list_elem_of_filter]%elem_of_cons; [done | by apply Hp].
Qed.

Lemma update_deposits_safe p f :
  (∀ d, pd_userId (f d) = pd_userId d) →
  safe (modify (λ w, set_pendingDeposits (update_where p f (pendingDeposits w)) w)).
Proof.
  intros Hf w [Hb Hor Hd Hp Hc]. split; try done. simpl. intros d'. rewrite rows_update.
  intros (d & -> & Hin)%list_elem_of_fmap. destruct (p d); [rewrite Hf|]; by apply Hp.
Qed.

Lemma markActionRequired_safe id jobId : safe (markActionRequiredIfPending id jobId).
Proof.
  unfold markActionRequiredIfPending. apply safe_bind; [apply quiet_safe; quiet|]. intros n.
  apply safe_bind; [by apply update_deposits_safe|]. intros _. apply quiet_safe; quiet.
Qed.

Lemma bank_safe acc amt dev ip cur key : ord acc → safe (initiateBankTransfer env acc amt dev ip cur key).
Proof.
  intros Ho. apply idempotent_safe. unfold bank_body. destruct (bank_config env); [|by apply triple_throw].
  endings; [by apply save_deposit_safe|].
  destruct (negb (queue_connected env)); [apply markActionRequired_safe | apply quiet_safe, quiet_ret].
Qed.

(** A pending deposit read from its table belongs to an ordinary user. *)
Lemma deposit_found {A} (f : W → option PendingDeposit) (k : option PendingDeposit → WM A) :
  (∀ w d, f w = Some d → d ∈ rows (pendingDeposits w)) →
  safe (k None) → (∀ d, ord (pd_userId d) → safe (k (Some d))) → safe (gets f ≫= k).
Proof.
  intros Hf Hn Hk w Hw. unfold mbind, M_bind, gets. destruct (f w) as [d|] eqn:E; [|by apply Hn].
  apply Hk; [|done]. by apply (wi_dep w Hw), Hf.
Qed.

Lemma deposit_by_id_in id (w : W) d : deposit_by_id id w = Some d → d ∈ rows (pendingDeposits w).
Proof. intros H. by apply find_row_Some in H as [? _]. Qed.

Lemma cancelPendingDeposit_safe userId id : safe (cancelPendingDeposit userId id).
Proof.
  unfold cancelPendingDeposit. apply deposit_found.
  - intros w d H. by apply find_row_Some in H as [? _].
  - apply quiet_safe, quiet_ret.
  - intros d Hd. destruct (dep_is_pending d); [|apply quiet_safe, quiet_ret].
    apply safe_bind; [apply quiet_safe; quiet|]. intros t.
    apply safe_bind; [by apply save_deposit_safe|]. intros _. apply quiet_safe.
    apply quiet_bind; [quiet|]. intros _. apply quiet_bind; [quiet|]. intros _. apply quiet_jobs.
Qed.

Lemma locked_safe key (m : WM unit) f :
  safe m → (∀ w, wallet_inv w → wallet_inv (f w)) →
  safe (lock ← redis_setnx key CachedOne 30;
        throw_if (negb lock) "Deposit locked" ;; try_finally m f).
Proof.
  intros Hm Hf. apply safe_bind; [apply quiet_safe; quiet|]. intros l.
  apply safe_bind; [apply quiet_safe; quiet|]. intros _. by eapply triple_finally; [exact Hm|..].
Qed.

Lemma confirm_locked_safe id adminId : safe (confirm_locked env id adminId).
Proof.
  unfold confirm_locked. apply deposit_found; [apply deposit_by_id_in | apply quiet_safe, quiet_ret |].
  intros d Hd. destruct (dep_is_pending d); [|apply quiet_safe, quiet_ret].
  apply safe_at. intros a. apply at_user. intros u Hu Hid _. apply at_system. intros s Hs Hn.
  apply at_then; [apply record_system_user; try done; [by rewrite Hid | system]|]. intros _.
  apply safe_bind; [apply quiet_safe; quiet|]. intros t.
  apply safe_bind; [by apply save_deposit_safe|]. intros _. apply quiet_safe; quiet.
Qed.

Lemma confirmPendingDeposit_safe id adminId : safe (confirmPendingDeposit env id adminId).
Proof.
  apply locked_safe; [apply confirm_locked_safe|]. intros w Hw.
  eapply inv_same; [exact Hw | done..|]. intros k v. simpl. rewrite get_del. by case_decide.
Qed.

Lemma rejectPendingDeposit_safe id adminId reason : safe (rejectPendingDeposit id adminId reason).
Proof.
  apply locked_safe.
  - unfold reject_locked. apply deposit_found; [apply deposit_by_id_in | apply quiet_safe, quiet_ret |].
    intros d Hd. destruct (dep_is_pending d); [|apply quiet_safe, quiet_ret].
    apply safe_bind; [apply quiet_safe; quiet|]. intros t.
    apply safe_bind; [by apply save_deposit_safe|]. intros _. apply quiet_safe; quiet.
  - intros w Hw. eapply inv_same; [exact Hw | done..|]. intros k v. simpl. rewrite get_del.
    by case_decide.
Qed.

Lemma for_each_safe {A} (l : list A) (f : A → WM unit) : (∀ x, x ∈ l → safe (f x)) → safe (for_each l f).
Proof. intros H. by apply triple_for_each. Qed.

Lemma match_entries_safe entries n : safe (match_entries env entries n).
Proof.
  revert n; induction entries as [|e rest IH]; intros n; cbn [match_entries]; [apply quiet_safe, quiet_ret|].
  apply safe_bind; [apply quiet_safe; quiet|]. intros [d|]; [|apply IH].
  apply safe_bind; [apply confirmPendingDeposit_safe | intros _; apply IH].
Qed.

Lemma handleWebhook_safe ev : safe (handleWebhook env ev).
Proof.
  unfold handleWebhook. apply safe_bind; [apply quiet_safe; quiet|]. intros [|]; [|apply quiet_safe, quiet_ret].
  eapply triple_catch.
  - apply safe_bind; [apply confirm3DS_safe | intros _; apply quiet_safe; quiet].
  - intros e. apply quiet_safe. quiet.
Qed.

Lemma provider_confirm3DS_safe p : safe (provider_confirm3DS env p).
Proof.
  unfold provider_confirm3DS. apply safe_bind; [apply quiet_safe; quiet|]. intros _.
  destruct (pp_intent p) as [[[id st] key]|]; [|apply quiet_safe, quiet_throw].
  apply safe_bind; [apply quiet_safe; quiet | intros _; apply handleWebhook_safe].
Qed.

Lemma callback_safe x signed p : safe (callback env x signed p).
Proof.
  unfold callback. destruct (truthy x); [|apply quiet_safe, quiet_throw].
  apply safe_bind; [apply quiet_safe; quiet|]. intros _.
  apply safe_bind; [apply quiet_safe; quiet|]. intros [|]; [|apply quiet_safe, quiet_ret].
  apply safe_bind; [apply provider_confirm3DS_safe | intros _; apply quiet_safe, quiet_ret].
Qed.

(** ** Any sequence of calls *)

Inductive WalletCall :=
| CReserve (acc : string) (amt : Z) (ref cur : string) (key : option string)
| CCommit (ref : string) (amt rake : Z) (cur : string) (key : option string)
| CRollback (acc : string) (amt : Z) (ref cur : string) (key : option string)
| CRetryPayouts
| CCallback (eventId : option string) (signed : bool) (p : ProviderPayload)
| CProcessDisbursement (eventId key txn : string) (st : ProviderStatus)
| CAdjust (acc : string) (action : AdminAction) (amt : Z) (cur : string)
| CConfirmWithdrawal (id : string)
| CRejectWithdrawal (id : string)
| CReviewReject (userId : string)
| CWithdraw (acc : string) (amt : Z) (dev ip cur : string) (key : option string)
| CDeposit (acc : string) (amt : Z) (dev ip cur : string) (key : option string)
| CBankTransfer (acc : string) (amt : Z) (dev ip cur : string) (key : option string)
| CCancelDeposit (userId id : string)
| CConfirmDeposit (id adminId : string)
| CRejectDeposit (id adminId : string) (reason : option string)
| CExpireDeposits
| CBankStatement (entries : list BankEntry)
| CReconcile (logged : Z).

Definition exec_call (c : WalletCall) : WM unit :=
  match c with
  | CReserve acc amt ref cur key => reserve env acc amt ref cur key
  | CCommit ref amt rake cur key => commit env ref amt rake cur key
  | CRollback acc amt ref cur key => rollback env acc amt ref cur key
  | CRetryPayouts => retryPendingPayouts env
  | CCallback x signed p => callback env x signed p ;; mret tt
  | CProcessDisbursement ev key txn st => processDisbursement env ev key txn st
  | CAdjust acc action amt cur => adminAdjustBalance env acc action amt cur
  | CConfirmWithdrawal id => confirmPendingWithdrawal env id
  | CRejectWithdrawal id => rejectPendingWithdrawal env id
  | CReviewReject userId => reject_withdrawal env userId
  | CWithdraw acc amt dev ip cur key => withdraw env acc amt dev ip cur key ;; mret tt
  | CDeposit acc amt dev ip cur key => deposit env acc amt dev ip cur key ;; mret tt
  | CBankTransfer acc amt dev ip cur key => initiateBankTransfer env acc amt dev ip cur key ;; mret tt
  | CCancelDeposit userId id => cancelPendingDeposit userId id
  | CConfirmDeposit id adminId => confirmPendingDeposit env id adminId
  | CRejectDeposit id adminId reason => rejectPendingDeposit id adminId reason
  | CExpireDeposits => rejectExpiredPendingDeposits
  | CBankStatement entries => bank_reconcile env entries
  | CReconcile logged => runReconcile logged
  end.

(** The account a caller names. *)
Definition call_user (c : WalletCall) : option string :=
  match c with
  | CReserve acc _ _ _ _ | CRollback acc _ _ _ _ | CAdjust acc _ _ _
  | CWithdraw acc _ _ _ _ _ | CDeposit acc _ _ _ _ _ | CBankTransfer acc _ _ _ _ _ => Some acc
  | _ => None
  end.

Lemma latest_pending_in userId (w : W) d : latest_pending userId w = Some d → d ∈ rows (disbursements w).
Proof.
  unfold latest_pending. intros H.
  assert (d ∈ js_sort (λ x y, d_createdAt y <=? d_createdAt x)
    (find_rows (λ d, bool_decide (d_accountId d = userId) && disb_is_pending d) (disbursements w))) as Hin.
  { destruct (js_sort _ _); simplify_eq/=. apply elem_of_cons. by left. }
  rewrite js_sort_perm in Hin. by apply list_elem_of_filter in Hin as [_ ?].
Qed.

Lemma exec_call_safe c : (∀ acc, call_user c = Some acc → ord acc) → safe (exec_call c).
Proof.
  intros Ho. destruct c; cbn [exec_call]; try (specialize (Ho _ eq_refl)).
  - by apply reserve_safe.
  - apply commit_safe.
  - by apply rollback_safe.
  - apply quiet_safe. unfold retryPendingPayouts. quiet.
  - apply safe_bind; [apply callback_safe | intros _; apply quiet_safe, quiet_ret].
  - apply processDisbursement_safe.
  - by apply adminAdjustBalance_safe.
  - apply quiet_safe. unfold confirmPendingWithdrawal. quiet.
  - apply find_refund_safe. intros w d H. by apply find_row_Some in H as [? _].
  - apply find_refund_safe, latest_pending_in.
  - apply safe_bind; [by apply withdraw_safe | intros _; apply quiet_safe, quiet_ret].
  - apply safe_bind; [by apply deposit_safe | intros _; apply quiet_safe, quiet_ret].
  - apply safe_bind; [by apply bank_safe | intros _; apply quiet_safe, quiet_ret].
  - apply cancelPendingDeposit_safe.
  - apply confirmPendingDeposit_safe.
  - apply rejectPendingDeposit_safe.
  - unfold rejectExpiredPendingDeposits. apply safe_bind; [apply quiet_safe; quiet|]. intros t.
    apply safe_bind; [apply quiet_safe; quiet|]. intros l.
    apply for_each_safe. intros d _. apply rejectPendingDeposit_safe.
  - unfold bank_reconcile. apply safe_bind; [apply match_entries_safe|]. intros n. apply quiet_safe; quiet.
  - apply quiet_safe. unfold runReconcile. quiet.
Qed.

(** Calls one after the other, each error surfacing to its own caller. *)
Definition run_calls (cs : list WalletCall) (w : W) : W :=
  foldl (λ w c, snd (exec_call c w)) w cs.

Lemma run_calls_inv cs w :
  Forall (λ c, ∀ acc, call_user c = Some acc → ord acc) cs → wallet_inv w → wallet_inv (run_calls cs w).
Proof.
  intros H. revert w. induction H as [|c cs Hc _ IH]; intros w Hw; [done|]. cbn [run_calls foldl].
  apply IH. pose proof (exec_call_safe c Hc w Hw). by destruct (exec_call c w) as [[x|e] w'].
Qed.

Lemma books_reconcile (w : W) : books_ok (accounts w) (journals w) → reconcile w = [].
Proof.
  intros [_ Hb _]. unfold reconcile.
  assert (filter (λ a, journal_sum (a_id a) w ≠ a_balance a) (rows (accounts w)) = []) as ->; [|done].
  apply elem_of_nil_inv. intros a [Hne Hin]%list_elem_of_filter. apply Hne.
  rewrite journal_sum_alt. symmetry. by apply Hb.
Qed.
End Ledger.

(** C2: the books balance, as long as calls name the accounts of players. Start
    from a wallet whose balances agree with its journal; run any sequence of
    wallet calls (reserves, commits, rollbacks, provider callbacks,
    disbursements, refunds, adjustments, withdrawals, deposits, bank transfers,
    confirmations, rejections, reconciliations), each of which may fail at any
    point, and each of which names, where it names an account, one of the set
    [ord], in which no system account is. Then [reconcile] reports no mismatch
    and the journal sums to zero. The condition is needed: a call that names a
    system account breaks the books ([adjusting_the_house_breaks_the_books]). *)
Theorem wallet_books_balance {T : Type → Type} `{!TableOps T, !TableLaws T}
    {R : Type} `{!RedisOps R CachedValue, !RedisLaws R CachedValue}
    {B : Type} `{!BusOps B WalletEvent} (env : WalletEnv) (ord : string → Prop)
    (w : WalletState T R B) (cs : list WalletCall)
    (Hinv : wallet_inv ord w)
    (Hcalls : Forall (λ c, ∀ acc, call_user c = Some acc → ord acc) cs) :
  reconcile (run_calls env cs w) = [] ∧ totalJournal (run_calls env cs w) = 0.
Proof.
  pose proof (run_calls_inv env ord cs w Hcalls Hinv) as Hw.
  split; [apply books_reconcile, Hw | apply (bo_zero _ _ (wi_books _ _ Hw))].
Qed.

(** A small wallet to run the definitions on. *)
Definition demo_env : WalletEnv := {|
  sha256_hex := λ s, s;
  randomUUID := λ n, ("uuid-" +:+ pretty n)%string;
  provider_http := λ n, Ret ("pi-" +:+ pretty n)%string;
  kyc_validate := λ _, Ret tt; kyc_isVerified := λ _ _, true; kyc_denialReason := λ _, None;
  geo_isAllowed := None; system_accounts := ["reserve"; "house"; "rake"; "prize"]%string;
  daily_limit := λ _, Some 500; hourly_count_limit := λ _, None; hourly_amount_limit := λ _, None;
  daily_count_limit := λ _, None;
  bank_config := Some {| bank_name := "bank"; bank_account := "1"; bank_routing := "2" |}%string;
  queue_connected := false; chargeback_limits := Some (1000, 3, 3) |}.

Definition demo_account (id name : string) : Account :=
  {| a_id := id; a_name := name; a_currency := "USD"; a_balance := 0; a_creditBalance := 0;
     a_kycVerified := true |}%string.

Abbreviation DemoWorld := (WalletState list (map_redis CachedValue) (list WalletEvent)).
Definition demo_world : DemoWorld :=
  WalletWorld
    [demo_account "alice" "alice"; demo_account "bob" "bob"; demo_account "sys-r" "reserve";
     demo_account "sys-h" "house"; demo_account "sys-k" "rake"; demo_account "sys-p" "prize"]%string
    [] [] [] [] [] [] (MapRedis ∅ ∅ ∅) [] [] [] [] 0 0 1709210096789.

Definition demo_user (id : string) : Prop := id = "alice"%string ∨ id = "bob"%string.

Lemma demo_world_inv : wallet_inv demo_user demo_world.
Proof.
  split; simpl.
  - split; [apply (bool_decide_eq_true_1 (NoDup _)); vm_compute; reflexivity | | done].
    intros r Hr. repeat (apply elem_of_cons in Hr as [->|Hr]; [done|]). by apply elem_of_nil in Hr.
  - intros k Hk [Ho|Ho]; repeat (apply elem_of_cons in Hk as [->|Hk]; [try discriminate Ho;
      by apply (bool_decide_eq_true_1 (_ ∉ system_names))|]); by apply elem_of_nil in Hk.
  - intros d []%elem_of_nil.
  - intros d []%elem_of_nil.
  - intros k op acc amt cur dev H. done.
Qed.

Definition demo_calls : list WalletCall :=
  [CAdjust "alice" AdminAdd 300 "USD"; CReserve "alice" 100 "hand" "USD" None;
   CBankTransfer "bob" 50 "dev" "ip" "USD" None; CConfirmDeposit "uuid-5" "admin";
   CCommit "hand" 100 5 "USD" None; CReconcile 0]%string.

Lemma wallet_books_balance_witness :
  reconcile (run_calls demo_env demo_calls demo_world) = [] ∧
  totalJournal (run_calls demo_env demo_calls demo_world) = 0.
Proof.
  apply (wallet_books_balance demo_env demo_user demo_world demo_calls).
  - exact demo_world_inv.
  - unfold demo_calls, demo_user.
    repeat (apply Forall_cons; split; [intros acc; simpl; intros [=]; subst; tauto|]).
    apply Forall_nil_2.
Defined.

Lemma demo_calls_run :
  a_balance <$> accounts (run_calls demo_env demo_calls demo_world) = [200; 50; 0; -350; 5; 95].
Proof. vm_compute. reflexivity. Qed.

(** An adjustment of the house's own account: both movements are of one row, of
    which [record] holds two copies, and the second save loses the first. *)
Example adjusting_the_house_breaks_the_books :
  let w := run_calls demo_env [CAdjust "sys-h" AdminAdd 300 "USD"]%string demo_world in
  (λ a, (a_balance a, journal_sum (a_id a) w)) <$> filter (λ a, a_id a = "sys-h"%string) (accounts w) = [(300, 0)]
  ∧ length (reconcile w) = 1%nat ∧ totalJournal w = 0.
Proof. split_and!; vm_compute; reflexivity. Qed.
