(* ===== verification/WalletFlows.v ===== *)
(** * What the wallet's operations do

    The effect of a transfer and its deduplication, limits, the idempotency
    lock, provider webhooks, and the life of a pending deposit. *)

From S2P Require Import Prelude JsText SidePots Store WalletModel WalletCash WalletLedger.
#[local] Open Scope Z_scope.

Section Flows.
Context {T : Type → Type} `{!TableOps T, !TableLaws T} {R : Type} `{!RedisOps R CachedValue,
  !RedisLaws R CachedValue} {B : Type} `{!BusOps B WalletEvent, !BusLaws B WalletEvent} (env : WalletEnv).
Abbreviation WM := (M (WalletState T R B)).
Abbreviation W := (WalletState T R B).

(** ** Announcing only writes to the bus *)

Definition only_bus (w w' : W) : Prop := ∃ b, w' = set_bus b w.

Definition announces {A} (m : WM A) : Prop := ∀ w, only_bus w (snd (m w)).

Lemma announces_emit ev : announces (emit ev).
Proof. intros w. unfold emit. destruct (bus_emit ev (bus w)) as [o b]. by exists b. Qed.
Lemma announces_ret {A} (x : A) : announces (mret x).
Proof. intros w. exists (bus w). by destruct w. Qed.
Lemma announces_bind {A C} (m : WM A) (k : A → WM C) :
  announces m → (∀ x, announces (k x)) → announces (m ≫= k).
Proof.
  intros Hm Hk w. unfold mbind, M_bind. specialize (Hm w) as [b Hb].
  destruct (m w) as [[x|e] w']; simpl in *; subst; [|by exists b].
  destruct (Hk x (set_bus b w)) as [b' Hb']. rewrite Hb'. by exists b'.
Qed.
Lemma announces_when c m : announces m → announces (when c m).
Proof. destruct c; [done | intros _; apply announces_ret]. Qed.
Lemma announces_for_each {A} (l : list A) f : (∀ x, announces (f x)) → announces (for_each l f).
Proof.
  intros Hf. induction l as [|x l IH]; cbn [for_each]; [apply announces_ret|].
  apply announces_bind; [apply Hf | intros _; exact IH].
Qed.
Lemma announces_announce refType refId e : announces (announce env refType refId e).
Proof.
  unfold announce. destruct (0 <? mv_amount e).
  all: apply announces_bind; [apply announces_emit | intros _; apply announces_when, announces_emit].
Qed.

(** ** [record] in closed form *)

Lemma record_unbalanced refType refId entries m (w : W) :
  sum_by mv_amount entries ≠ 0 →
  record env refType refId entries m w = (Throw "Journal entries must sum to 0", w).
Proof.
  intros H. unfold record, mbind, M_bind, throw_if.
  destruct (Z.eqb_spec (sum_by mv_amount entries) 0); [done | reflexivity].
Qed.

Lemma record_seen refType refId entries m (w : W) :
  sum_by mv_amount entries = 0 →
  already_recorded (entry_hash env refType refId <$> entries) w = true →
  record env refType refId entries m w = (Ret tt, w).
Proof.
  intros H Hs. unfold record, mbind, M_bind, throw_if, gets.
  destruct (Z.eqb_spec (sum_by mv_amount entries) 0); [|done]. simpl. by rewrite Hs.
Qed.

(** A posting that did happen: the books are those of [post_entries] and only
    announcements follow. *)
Lemma record_posted refType refId entries m (w : W) r w' :
  record env refType refId entries m w = (r, w') →
  (w' = w ∧ (is_ret r = true → already_recorded (entry_hash env refType refId <$> entries) w = true)) ∨
  (∃ a j n, post_entries env refType refId m (now w) entries (accounts w) (journals w) (uuids w)
            = Some (a, j, n) ∧ only_bus (set_ledger a j n w) w').
Proof.
  unfold record, mbind, M_bind, throw_if, gets.
  destruct (Z.eqb_spec (sum_by mv_amount entries) 0); simpl; [|intros [= <- <-]; by left].
  destruct (already_recorded _ w) eqn:Es; [intros [= <- <-]; by left|].
  unfold post. destruct (post_entries _ _ _ _ _ _ _ _ _) as [[[a j] n]|] eqn:E;
    [|intros [= <- <-]; by left].
  intros Hw. right. exists a, j, n. split; [done|].
  pose proof (announces_for_each entries _ (announces_announce refType refId) (set_ledger a j n w)) as Ha.
  by rewrite Hw in Ha.
Qed.

Lemma post_entries_hashes refType refId m t entries a j n a' j' n' h :
  post_entries env refType refId m t entries a j n = Some (a', j', n') →
  (h ∈ (entry_hash env refType refId <$> entries) ∨ ∃ r, r ∈ rows j ∧ j_hash r = h) →
  ∃ r, r ∈ rows j' ∧ j_hash r = h.
Proof.
  revert a j n; induction entries as [|e rest IH]; intros a j n H Hh; simpl in H.
  - injection H as <- <- <-. destruct Hh as [[]%elem_of_nil|Hh]; done.
  - destruct (insert_row _ j) as [j1|] eqn:Ej; [|done]. apply (IH _ _ _ H).
    rewrite fmap_cons in Hh. destruct Hh as [[->|Hh]%elem_of_cons|(r & Hr & Hh)]; [right|by left|right].
    + eexists. rewrite (rows_insert _ _ _ Ej). split; [apply elem_of_cons; by left | done].
    + exists r. rewrite (rows_insert _ _ _ Ej). split; [apply elem_of_cons; by right | done].
Qed.

Lemma already_recorded_true hashes (w : W) r :
  r ∈ rows (journals w) → j_hash r ∈ hashes → already_recorded hashes w = true.
Proof.
  intros Hr Hh. unfold already_recorded, find_rows.
  assert (r ∈ filter (λ j, bool_decide (j_hash j ∈ hashes)) (rows (journals w))) as Hin.
  { apply list_elem_of_filter. split; [by apply bool_decide_spec | done]. }
  destruct (filter _ _); [by apply elem_of_nil in Hin | done].
Qed.

Lemma post_entries_keys refType refId m t entries a j n a' j' n' :
  post_entries env refType refId m t entries a j n = Some (a', j', n') →
  unique_ids a → snapshots_current entries a →
  account_key <$> rows a' ≡ₚ account_key <$> rows a.
Proof.
  revert a j n; induction entries as [|e rest IH]; intros a j n H Hu Hs; simpl in H.
  - by injection H as <- <- <-.
  - destruct (insert_row _ j) as [j1|] eqn:Ej; [|done].
    rewrite (IH _ _ _ H) by (by apply unique_ids_save || by apply snapshots_tail).
    pose proof Hs as [Hin _]. inversion Hin as [|? ? He _]; subst.
    rewrite rows_save, fmap_cons.
    assert (rows a ≡ₚ mv_account e :: filter (λ r', row_id r' ≠ row_id (credited e)) (rows a)) as Hp.
    { apply elem_of_Permutation in He as [l Hl]. rewrite Hl. rewrite filter_cons.
      rewrite decide_False by (intros Hx; by apply Hx). f_equiv.
      unfold unique_ids in Hu. rewrite Hl, fmap_cons, NoDup_cons in Hu. destruct Hu as [Hn _].
      symmetry. clear -Hn. induction l as [|x l IHl]; [done|]. rewrite filter_cons, decide_True.
      - f_equiv. apply IHl. intros H. apply Hn. rewrite fmap_cons. apply elem_of_cons. by right.
      - intros Hx. apply Hn. rewrite fmap_cons. apply elem_of_cons. left. symmetry. exact Hx. }
    rewrite Hp at 2. rewrite fmap_cons. done.
Qed.

(** ** Finding accounts *)

Lemma find_by_name_row name currency (w : W) r w' :
  account_by_name name currency w = (Ret r, w') →
  w' = w ∧ r ∈ rows (accounts w) ∧ a_name r = name ∧ a_currency r = currency.
Proof.
  unfold account_by_name, or_fail, mbind, M_bind, gets. destruct (find_row _ (accounts w)) eqn:E; [|done].
  intros [= <- <-]. apply find_row_Some in E as [Hin [H1%bool_decide_eq_true H2%bool_decide_eq_true]%andb_true_iff].
  done.
Qed.

Lemma find_by_name_ok name currency (w : W) r :
  r ∈ rows (accounts w) → a_name r = name → a_currency r = currency →
  ∃ r', account_by_name name currency w = (Ret r', w) ∧ r' ∈ rows (accounts w) ∧
        a_name r' = name ∧ a_currency r' = currency.
Proof.
  intros Hr Hn Hc. unfold account_by_name, or_fail, mbind, M_bind, gets.
  destruct (find_row _ (accounts w)) as [r'|] eqn:E.
  - apply find_row_Some in E as [Hin [H1%bool_decide_eq_true H2%bool_decide_eq_true]%andb_true_iff].
    by exists r'.
  - pose proof (find_row_None _ _ E r Hr) as H. simpl in H. by rewrite !bool_decide_true in H.
Qed.

Lemma find_by_id_row id currency (w : W) r w' :
  account_by_id id currency w = (Ret r, w') →
  w' = w ∧ r ∈ rows (accounts w) ∧ a_id r = id ∧ a_currency r = currency.
Proof.
  unfold account_by_id, or_fail, mbind, M_bind, gets. destruct (find_row _ (accounts w)) eqn:E; [|done].
  intros [= <- <-]. apply find_row_Some in E as [Hin [H1%bool_decide_eq_true H2%bool_decide_eq_true]%andb_true_iff].
  done.
Qed.

Lemma bind_ret_inv {A C} (m : WM A) (k : A → WM C) w c w' :
  (m ≫= k) w = (Ret c, w') → ∃ x w1, m w = (Ret x, w1) ∧ k x w1 = (Ret c, w').
Proof. unfold mbind, M_bind. destruct (m w) as [[x|e] w1]; [|done]. intros H. by exists x, w1. Qed.

(** At most one account per (name, currency). *)
Definition unique_names (w : W) : Prop :=
  NoDup ((λ a, (a_name a, a_currency a)) <$> rows (accounts w)).

(** ** A second reserve under the same reference *)

Lemma reserve_success u amount refId currency (w w' : W) :
  reserve env u amount refId currency None w = (Ret tt, w') →
  ∃ user res, user ∈ rows (accounts w) ∧ a_id user = u ∧ a_currency user = currency ∧
    res ∈ rows (accounts w) ∧ a_name res = "reserve"%string ∧ a_currency res = currency ∧
    record env "reserve" refId
      [{| mv_account := user; mv_amount := - amount |}; {| mv_account := res; mv_amount := amount |}]
      None w = (Ret tt, w').
Proof.
  unfold reserve. intros H.
  apply bind_ret_inv in H as (user & w1 & Hu & H). apply find_by_id_row in Hu as (-> & Hu & Hid & Huc).
  apply bind_ret_inv in H as (res & w2 & Hr & H). apply find_by_name_row in Hr as (-> & Hr & Hn & Hc).
  exists user, res. by split_and!.
Qed.

Lemma reserve_dropped u2 amount refId currency (w : W) res j :
  (∃ user, user ∈ rows (accounts w) ∧ a_id user = u2 ∧ a_currency user = currency) →
  unique_names w → unique_ids (accounts w) →
  res ∈ rows (accounts w) → a_name res = "reserve"%string → a_currency res = currency →
  j ∈ rows (journals w) → j_hash j = buildHash env "reserve" refId (a_id res) amount →
  reserve env u2 amount refId currency None w = (Ret tt, w).
Proof.
  intros (user & Hu & Hid & Huc) Hnames Hids Hr Hn Hc Hj Hh.
  unfold reserve. unfold mbind at 1, M_bind at 1, account_by_id at 1, or_fail, mbind at 1, M_bind at 1, gets at 1.
  destruct (find_row _ (accounts w)) as [user'|] eqn:E.
  2: { pose proof (find_row_None _ _ E user Hu) as H. simpl in H. by rewrite !bool_decide_true in H. }
  simpl. destruct (find_by_name_ok "reserve" currency w res Hr Hn Hc) as (res' & Er & Hr' & Hn' & Hc').
  unfold mbind at 1, M_bind at 1. rewrite Er.
  assert (res' = res) as ->.
  { apply (NoDup_fmap_inj_in (λ a, (a_name a, a_currency a)) (rows (accounts w))); try done.
    by rewrite Hn, Hn', Hc, Hc'. }
  simpl. unfold mbind at 1, M_bind at 1, mret, M_ret. apply record_seen.
  - rewrite !sum_by_cons, sum_by_nil; simpl. lia.
  - eapply already_recorded_true; [exact Hj|]. rewrite Hh. simpl.
    apply elem_of_cons; right. apply elem_of_cons; by left.
Qed.

Lemma unique_names_keys (a a' : list Account) :
  account_key <$> a ≡ₚ account_key <$> a' →
  NoDup ((λ x, (a_name x, a_currency x)) <$> a) → NoDup ((λ x, (a_name x, a_currency x)) <$> a').
Proof.
  intros Hk. set (g := λ k : string * string * string, (k.1.2, k.2)).
  assert (∀ l : list Account, (λ x, (a_name x, a_currency x)) <$> l = g <$> (account_key <$> l)) as Hg
    by (intros l; by rewrite <- list_fmap_compose).
  rewrite !Hg, Hk. done.
Qed.

Lemma reserve_snapshots user res u (w : W) :
  unique_ids (accounts w) → user ∈ rows (accounts w) → a_id user = u →
  a_name user ≠ "reserve"%string → res ∈ rows (accounts w) → a_name res = "reserve"%string →
  ∀ x y, snapshots_current
    [{| mv_account := user; mv_amount := x |}; {| mv_account := res; mv_amount := y |}] (accounts w).
Proof.
  intros Hids Hu Hid Hun Hr Hn x y. apply pair_current; try done. intros E. apply Hun.
  assert (user = res) as -> by (by apply (NoDup_fmap_inj_in row_id (rows (accounts w)))). done.
Qed.
End Flows.

(** one reserve per reference, whoever asks. After a reserve of [amount] for
    [refId] has been posted, any later reserve of the same amount under the same
    reference and currency, by the same user or by another one, reports success
    and changes nothing: the journal hash of the reserve account's leg does not
    name the user. A retry is absorbed; but of the players of one hand, or the
    entrants of one tournament, only the first is charged. *)
Lemma reserve_once_per_reference {T : Type → Type} `{!TableOps T, !TableLaws T}
    {R : Type} `{!RedisOps R CachedValue, !RedisLaws R CachedValue}
    {B : Type} `{!BusOps B WalletEvent, !BusLaws B WalletEvent} (env : WalletEnv)
    (w w1 : WalletState T R B) (u1 u2 : string) (amount : Z) (refId currency : string)
    (Hids : unique_ids (accounts w)) (Hnames : unique_names w)
    (Hfirst : reserve env u1 amount refId currency None w = (Ret tt, w1))
    (Hu1 : ∀ a, a ∈ rows (accounts w) → a_id a = u1 → a_name a ≠ "reserve"%string)
    (Hposted : journals w1 ≠ journals w)
    (Hu2 : ∃ a, a ∈ rows (accounts w1) ∧ a_id a = u2 ∧ a_currency a = currency) :
  reserve env u2 amount refId currency None w1 = (Ret tt, w1).
Proof.
  apply reserve_success in Hfirst as (user & res & Hu & Hid & Huc & Hr & Hn & Hc & Hrec).
  pose proof (reserve_snapshots user res u1 w Hids Hu Hid (Hu1 user Hu Hid) Hr Hn (- amount) amount) as Hs.
  apply record_posted in Hrec as [[-> _]|(a & j & n & Hpost & b & ->)]; [done|].
  pose proof (post_entries_keys env _ _ _ _ _ _ _ _ _ _ _ Hpost Hids Hs) as Hk.
  destruct (post_entries_hashes env _ _ _ _ _ _ _ _ _ _ _
    (buildHash env "reserve" refId (a_id res) amount) Hpost) as (row & Hrow & Hh).
  { left. simpl. apply elem_of_cons; right. apply elem_of_cons; by left. }
  assert (account_key res ∈ (account_key <$> rows a)) as (res' & Ek & Hr')%list_elem_of_fmap
    by (rewrite Hk; by apply list_elem_of_fmap_2).
  injection Ek as Ei En Ec.
  eapply (reserve_dropped env u2 amount refId currency _ res' row); try done; simpl.
  - eapply unique_names_keys; [symmetry; exact Hk | exact Hnames].
  - unfold unique_ids.
    assert (∀ l : list Account, row_id <$> l = (λ k, k.1.1) <$> (account_key <$> l)) as Hg
      by (intros l; by rewrite <- list_fmap_compose).
    unfold unique_ids in Hids. rewrite Hg, Hk, <- Hg. exact Hids.
  - congruence.
  - congruence.
  - by rewrite <- Ei.
Qed.

Definition funded_world : DemoWorld := run_calls demo_env [CAdjust "alice" AdminAdd 300 "USD";
  CAdjust "bob" AdminAdd 300 "USD"]%string demo_world.
Definition after_alice : DemoWorld := snd (reserve demo_env "alice" 100 "hand-1" "USD" None funded_world).

Lemma reserve_once_per_reference_witness :
  reserve demo_env "bob" 100 "hand-1" "USD" None after_alice = (Ret tt, after_alice) ∧
  a_balance <$> accounts after_alice = [200; 300; 100; -600; 0; 0].
Proof.
  split; [|vm_compute; reflexivity].
  apply (reserve_once_per_reference demo_env funded_world after_alice "alice" "bob" 100 "hand-1" "USD").
  - apply (bool_decide_eq_true_1 (NoDup _)). vm_compute. reflexivity.
  - apply (bool_decide_eq_true_1 (NoDup _)). vm_compute. reflexivity.
  - vm_compute. reflexivity.
  - apply (Forall_forall (λ a, a_id a = "alice"%string → a_name a ≠ "reserve"%string)).
    apply (bool_decide_eq_true_1 (Forall _ _)). vm_compute. reflexivity.
  - vm_compute. discriminate.
  - eexists. split; [apply elem_of_cons; right; apply elem_of_cons; left; reflexivity | split; reflexivity].
Defined.

(** ** The effect of a transfer *)

Section Effects.
Context {T : Type → Type} `{!TableOps T, !TableLaws T} {R : Type} `{!RedisOps R CachedValue,
  !RedisLaws R CachedValue} {B : Type} `{!BusOps B WalletEvent, !BusLaws B WalletEvent} (env : WalletEnv).
Abbreviation W := (WalletState T R B).

Lemma save_keep (r x : Account) (t : T Account) :
  x ∈ rows t → a_id x ≠ a_id r → x ∈ rows (save_row r t).
Proof.
  intros Hx Hne. rewrite rows_save. apply elem_of_cons. right. by apply list_elem_of_filter.
Qed.

Lemma save_in (r : Account) (t : T Account) : r ∈ rows (save_row r t).
Proof. rewrite rows_save. apply elem_of_cons. by left. Qed.

(** The accounts after a posted two-legged transfer. *)
Lemma post_pair refType refId m t e1 e2 (a : T Account) (j : T JournalEntry) n a' j' n' :
  post_entries env refType refId m t [e1; e2] a j n = Some (a', j', n') →
  a_id (mv_account e1) ≠ a_id (mv_account e2) →
  credited e1 ∈ rows a' ∧ credited e2 ∈ rows a' ∧
  (∀ x, x ∈ rows a → a_id x ≠ a_id (mv_account e1) → a_id x ≠ a_id (mv_account e2) → x ∈ rows a') ∧
  rows j' ≡ₚ journal_row env refType refId m (randomUUID env (S n)) t e2
             :: journal_row env refType refId m (randomUUID env n) t e1 :: rows j.
Proof.
  simpl. intros H Hne.
  destruct (insert_row _ j) as [j1|] eqn:E1; [|done]. destruct (insert_row _ j1) as [j2|] eqn:E2; [|done].
  injection H as <- <- <-. split_and!.
  - apply save_keep; [apply save_in | done].
  - apply save_in.
  - intros x Hx H1 H2. by do 2 (apply save_keep; [|done]).
  - by rewrite (rows_insert _ _ _ E2), (rows_insert _ _ _ E1).
Qed.
End Effects.

(** what a reserve does. When a fresh reserve succeeds, the user's balance
    falls and the reserve account's balance rises by exactly the amount, every
    other account is untouched, and one journal row per leg is added. Nothing
    compares the amount with the balance: the result may be negative. *)
Lemma reserve_moves_exactly {T : Type → Type} `{!TableOps T, !TableLaws T}
    {R : Type} `{!RedisOps R CachedValue, !RedisLaws R CachedValue}
    {B : Type} `{!BusOps B WalletEvent, !BusLaws B WalletEvent} (env : WalletEnv)
    (w w1 : WalletState T R B) (u : string) (amount : Z) (refId currency : string)
    (Hids : unique_ids (accounts w))
    (Hu : ∀ a, a ∈ rows (accounts w) → a_id a = u → a_name a ≠ "reserve"%string)
    (Hok : reserve env u amount refId currency None w = (Ret tt, w1))
    (Hfresh : journals w1 ≠ journals w) :
  ∃ user res,
    user ∈ rows (accounts w) ∧ a_id user = u ∧ res ∈ rows (accounts w) ∧ a_name res = "reserve"%string ∧
    credited {| mv_account := user; mv_amount := - amount |} ∈ rows (accounts w1) ∧
    credited {| mv_account := res; mv_amount := amount |} ∈ rows (accounts w1) ∧
    (∀ x, x ∈ rows (accounts w) → a_id x ≠ a_id user → a_id x ≠ a_id res → x ∈ rows (accounts w1)) ∧
    j_amount <$> rows (journals w1) ≡ₚ amount :: - amount :: (j_amount <$> rows (journals w)).
Proof.
  apply reserve_success in Hok as (user & res & Hin & Hid & _ & Hr & Hn & _ & Hrec).
  exists user, res. do 4 (split; [done|]).
  assert (a_id user ≠ a_id res) as Hne.
  { intros E. apply (Hu user Hin Hid).
    assert (user = res) as -> by (by apply (NoDup_fmap_inj_in row_id (rows (accounts w)))). done. }
  apply record_posted in Hrec as [[-> _]|(a & j & n & Hpost & b & ->)]; [done|].
  apply post_pair in Hpost as (H1 & H2 & H3 & H4); [|done].
  split_and!; try done. simpl. by rewrite H4.
Qed.

Lemma reserve_moves_exactly_witness :
  ∃ user res,
    user ∈ rows (accounts demo_world) ∧ a_id user = "alice"%string ∧
    res ∈ rows (accounts demo_world) ∧ a_name res = "reserve"%string ∧
    credited {| mv_account := user; mv_amount := - (70) |}
      ∈ rows (accounts (snd (reserve demo_env "alice" 70 "h" "USD" None demo_world))) ∧
    credited {| mv_account := res; mv_amount := 70 |}
      ∈ rows (accounts (snd (reserve demo_env "alice" 70 "h" "USD" None demo_world))) ∧
    (∀ x, x ∈ rows (accounts demo_world) → a_id x ≠ a_id user → a_id x ≠ a_id res →
       x ∈ rows (accounts (snd (reserve demo_env "alice" 70 "h" "USD" None demo_world)))) ∧
    j_amount <$> rows (journals (snd (reserve demo_env "alice" 70 "h" "USD" None demo_world)))
      ≡ₚ 70 :: - (70) :: (j_amount <$> rows (journals demo_world)).
Proof.
  apply (reserve_moves_exactly demo_env demo_world _ "alice" 70 "h" "USD").
  - apply (bool_decide_eq_true_1 (NoDup _)). vm_compute. reflexivity.
  - apply (Forall_forall (λ a, a_id a = "alice"%string → a_name a ≠ "reserve"%string)).
    apply (bool_decide_eq_true_1 (Forall _ _)). vm_compute. reflexivity.
  - vm_compute. reflexivity.
  - vm_compute. discriminate.
Defined.

(** Two operations on the same account that overlap: both load their snapshot
    before either posts. *)
Definition interleaved_adds : DemoWorld :=
  let house := demo_account "sys-h" "house" in
  let alice := demo_account "alice" "alice" in
  let add ref amt := record demo_env "admin_add" ref
    [{| mv_account := house; mv_amount := - amt |}; {| mv_account := alice; mv_amount := amt |}] None in
  snd ((add "r1" 30 ;; add "r2" 50)%string demo_world).

(** Overlapping postings lose an update. [record] saves the balance of the
    snapshot it was given; when two postings on the same accounts both loaded
    their snapshots before the other posted, the second save overwrites the
    first, and the balances no longer agree with the journal. *)
Lemma overlapping_records_lose_update :
  a_balance <$> accounts interleaved_adds = [50; 0; 0; -50; 0; 0] ∧
  totalJournal interleaved_adds = 0 ∧
  reconcile interleaved_adds =
    [{| rr_account := "alice"; rr_balance := 50; rr_journal := 80 |};
     {| rr_account := "house"; rr_balance := -50; rr_journal := -80 |}]%string.
Proof. vm_compute. split_and!; reflexivity. Qed.

(** ** Limits *)

Section Limits.
Context {T : Type → Type} `{!TableOps T} {R : Type} `{!RedisOps R CachedValue,
  !RedisLaws R CachedValue} {B : Type} `{!BusOps B WalletEvent} (env : WalletEnv).
Abbreviation W := (WalletState T R B).

Lemma incr_spec k n (w : W) :
  ∃ w', redis_incrby k n w = (Ret (r_count k (redis w) + n), w') ∧ now w' = now w ∧
        r_count k (redis w') = r_count k (redis w) + n ∧
        (∀ k', k' ≠ k → r_count k' (redis w') = r_count k' (redis w)).
Proof.
  unfold redis_incrby. pose proof (incrby_fst k n (redis w)) as H.
  pose proof (λ k', count_incrby k k' n (redis w)) as Hc.
  destruct (r_incrby k n (redis w)) as [c r]. simpl in *. subst c. eexists. split; [done|].
  split_and!; [done | | ]; simpl; [by rewrite Hc, decide_True | intros k' Hk; by rewrite Hc, decide_False].
Qed.

Lemma expire_spec k ttl (w : W) :
  ∃ ok w', redis_expire k ttl w = (Ret ok, w') ∧ now w' = now w ∧
        ∀ k', r_count k' (redis w') = r_count k' (redis w).
Proof.
  unfold redis_expire. pose proof (λ k', count_expire k k' ttl (redis w)) as Hc.
  destruct (r_expire k ttl (redis w)) as [ok r]. eexists ok, _. split; [done|]. split; [done|]. exact Hc.
Qed.

Lemma when_expire_spec c k ttl (w : W) :
  ∃ w', when c (redis_expire k ttl ;; mret tt) w = (Ret tt, w') ∧ now w' = now w ∧
        ∀ k', r_count k' (redis w') = r_count k' (redis w).
Proof.
  destruct c; simpl; [|by exists w].
  unfold mbind, M_bind. destruct (expire_spec k ttl w) as (ok & w' & -> & H). by exists w'.
Qed.

Lemma emit_counts ev (w : W) : now (snd (emit ev w)) = now w ∧ redis (snd (emit ev w)) = redis w.
Proof. unfold emit. by destruct (bus_emit ev (bus w)). Qed.

Lemma enforceDailyLimit_cases op acc amt cur L (w : W) :
  daily_limit env op = Some L →
  let key := daily_key op acc (now w) in
  let r := enforceDailyLimit env op acc amt cur w in
  now (snd r) = now w ∧
  (if decide (r_count key (redis w) + amt <= L)
   then fst r = Ret tt ∧ r_count key (redis (snd r)) = r_count key (redis w) + amt
   else is_ret (fst r) = false ∧ r_count key (redis (snd r)) = r_count key (redis w)).
Proof.
  intros HL key r. unfold r. clear r.
  destruct (enforceDailyLimit env op acc amt cur w) as [o w'] eqn:E. cbn [fst snd]. revert E.
  unfold enforceDailyLimit. unfold mbind at 1, M_bind at 1, gets. fold key.
  destruct (incr_spec key amt w) as (w1 & E1 & Hn1 & Hc1 & _). unfold mbind at 1, M_bind at 1. rewrite E1.
  destruct (when_expire_spec (r_count key (redis w) + amt =? amt) key (seconds_to_midnight (now w)) w1)
    as (w2 & E2 & Hn2 & Hc2). unfold mbind at 1, M_bind at 1. rewrite E2, HL.
  destruct (Z.ltb_spec L (r_count key (redis w) + amt)) as [Hlt|Hle].
  - rewrite decide_False by lia.
    destruct (incr_spec key (- amt) w2) as (w3 & E3 & Hn3 & Hc3 & _). unfold mbind at 1, M_bind at 1. rewrite E3.
    unfold mbind, M_bind, throw.
    pose proof (emit_counts (AntiCheatFlag acc op amt (r_count key (redis w) + amt) L cur) w3) as [Hn4 Hc4].
    destruct (emit _ w3) as [[x|e] w4]; cbn [fst snd] in *; intros [= <- <-];
      (split; [congruence | split; [done | rewrite Hc4, Hc3, Hc2, Hc1; lia]]).
  - rewrite decide_True by lia. intros [= <- <-]. rewrite Hc2, Hc1. split_and!; try done. congruence.
Qed.

(** Requests of one account on one day, and the amounts that were accepted. *)
Fixpoint accepted (op : CashOp) (acc cur : string) (amounts : list Z) (w : W) : list Z * W :=
  match amounts with
  | [] => ([], w)
  | amt :: rest =>
      let '(o, w1) := enforceDailyLimit env op acc amt cur w in
      let '(l, w2) := accepted op acc cur rest w1 in
      (if is_ret o then amt :: l else l, w2)
  end.

Lemma accepted_count op acc cur amounts L (w : W) :
  daily_limit env op = Some L →
  let key := daily_key op acc (now w) in
  let '(l, w') := accepted op acc cur amounts w in
  r_count key (redis w') = r_count key (redis w) + sumZ l ∧
  (r_count key (redis w) <= L → r_count key (redis w') <= L).
Proof.
  intros HL. revert w; induction amounts as [|amt rest IH]; intros w key.
  - simpl. split; [lia | done].
  - cbn [accepted]. pose proof (enforceDailyLimit_cases op acc amt cur L w HL) as [Hn Hcase]. fold key in Hcase.
    destruct (enforceDailyLimit env op acc amt cur w) as [o w1]. simpl in Hn, Hcase.
    specialize (IH w1). rewrite Hn in IH. fold key in IH.
    destruct (accepted op acc cur rest w1) as [l w2]. destruct IH as [IH1 IH2].
    case_decide; destruct Hcase as [Ho Hc].
    + rewrite Ho. simpl. rewrite IH1, Hc in *. split; [lia | intros _; apply IH2; lia].
    + rewrite Ho, IH1, Hc in *. done.
Qed.
End Limits.

(** C38: the daily limit holds. Whatever amounts an account requests on one day,
    in whatever order and however many, the accepted ones never exceed the
    limit, and a rejected request leaves the day's counter as it was. *)
Theorem daily_limit_never_exceeded {T : Type → Type} `{!TableOps T}
    {R : Type} `{!RedisOps R CachedValue, !RedisLaws R CachedValue} {B : Type} `{!BusOps B WalletEvent}
    (env : WalletEnv) (w : WalletState T R B) (op : CashOp) (acc cur : string) (L : Z) (amounts : list Z)
    (Hlimit : daily_limit env op = Some L) (Hpos : 0 <= L)
    (Hstart : r_count (daily_key op acc (now w)) (redis w) = 0) :
  let '(l, w') := accepted env op acc cur amounts w in
  sumZ l <= L ∧ r_count (daily_key op acc (now w)) (redis w') = sumZ l.
Proof.
  pose proof (accepted_count env op acc cur amounts L w Hlimit) as H. simpl in H.
  destruct (accepted env op acc cur amounts w) as [l w']. destruct H as [H1 H2].
  rewrite Hstart in *. split; [|lia]. rewrite H1 in H2. lia.
Qed.

Lemma daily_limit_never_exceeded_witness :
  let '(l, w') := accepted demo_env OpWithdraw "alice" "USD" [300; 250; 200; 10] demo_world in
  sumZ l <= 500 ∧ r_count (daily_key OpWithdraw "alice" (now demo_world)) (redis w') = sumZ l.
Proof.
  apply (daily_limit_never_exceeded demo_env demo_world OpWithdraw "alice" "USD" 500); done.
Defined.

(** a velocity window counts only what it lets through. A step that exceeds
    the limit, or whose expiry could not be set, fails and gives its increment
    back; a step that passes is counted and leaves the window within the limit.
    No other counter moves. *)
Lemma velocity_window_counts_accepted {T : Type → Type} `{!TableOps T}
    {R : Type} `{!RedisOps R CachedValue, !RedisLaws R CachedValue} {B : Type} `{!BusOps B WalletEvent}
    (w : WalletState T R B) (key : string) (step limit ttl : Z) (ev : Z → WalletEvent) :
  let '(o, w') := velocity_window key step limit ttl ev w in
  (if is_ret o
   then r_count key (redis w') = r_count key (redis w) + step ∧ r_count key (redis w') <= limit
   else r_count key (redis w') = r_count key (redis w)) ∧
  (∀ k, k ≠ key → r_count k (redis w') = r_count k (redis w)).
Proof.
  destruct (velocity_window key step limit ttl ev w) as [o w'] eqn:E. revert E.
  unfold velocity_window. unfold mbind at 1, M_bind at 1.
  destruct (incr_spec key step w) as (w1 & -> & _ & Hc1 & Ho1).
  set (v := r_count key (redis w) + step) in *.
  (* undo one increment and fail *)
  assert (∀ w2 : WalletState T R B, (∀ k, r_count k (redis w2) = r_count k (redis w1)) →
    ∃ c w3, redis_incrby key (- step) w2 = (Ret c, w3) ∧
      (∀ k, r_count k (redis w3) = r_count k (redis w))) as Hundo.
  { intros w2 H2. destruct (incr_spec key (- step) w2) as (w3 & E3 & _ & Hc3 & Ho3).
    eexists _, w3. split; [exact E3|]. intros k. destruct (decide (k = key)) as [->|Hk].
    - rewrite Hc3, H2, Hc1. unfold v. lia.
    - by rewrite Ho3, H2, Ho1. }
  assert (∀ w2 : WalletState T R B, (∀ k, r_count k (redis w2) = r_count k (redis w1)) →
    (if limit <? v then redis_incrby key (- step) ;; emit (ev v) ;; throw "Velocity limit exceeded"
     else mret tt) w2 = (o, w') →
    (if is_ret o then r_count key (redis w') = v ∧ r_count key (redis w') <= limit
     else r_count key (redis w') = r_count key (redis w)) ∧
    (∀ k, k ≠ key → r_count k (redis w') = r_count k (redis w))) as Hlast.
  { intros w2 H2. destruct (Z.ltb_spec limit v) as [Hlt|Hle].
    - destruct (Hundo w2 H2) as (c & w3 & E3 & H3). unfold mbind, M_bind, throw. rewrite E3.
      pose proof (emit_counts (ev v) w3) as [_ Hr].
      destruct (emit (ev v) w3) as [[x|e] w4]; simpl in Hr; intros [= <- <-]; simpl; rewrite Hr; auto.
    - intros [= <- <-]. simpl. rewrite H2, Hc1. split; [lia|]. intros k Hk. by rewrite H2, Ho1. }
  destruct (v =? step); simpl; unfold mbind at 1, M_bind at 1; [|by apply Hlast].
  unfold mbind at 1, M_bind at 1. destruct (expire_spec key ttl w1) as (ok & w2 & -> & _ & H2).
  destruct (negb (ok =? 1)).
  - unfold mbind at 1, M_bind at 1. destruct (Hundo w2 H2) as (c & w3 & -> & H3).
    intros [= <- <-]. simpl. auto.
  - by apply Hlast.
Qed.

Lemma velocity_window_counts_accepted_witness :
  let step := velocity_window "hour" 60 100 3600 (VelocityLimit "alice" OpWithdraw "amount" "hour" 100) in
  let '(o, w) := step demo_world in
  let '(o', w') := step w in
  is_ret o = true ∧ is_ret o' = false ∧ r_count "hour" (redis w') = r_count "hour" (redis w).
Proof.
  intros step. destruct (step demo_world) as [o w] eqn:E1. destruct (step w) as [o' w'] eqn:E2.
  pose proof (velocity_window_counts_accepted w "hour" 60 100 3600 (VelocityLimit "alice" OpWithdraw "amount" "hour" 100)) as H.
  fold step in H. rewrite E2 in H. destruct H as [H _].
  assert (is_ret o = true) as Ho by (change o with (fst (o, w)); rewrite <- E1; vm_compute; reflexivity).
  assert (is_ret o' = false) as Ho'.
  { change o' with (fst (o', w')). rewrite <- E2. change w with (snd (o, w)). rewrite <- E1.
    vm_compute. reflexivity. }
  rewrite Ho' in H. by split_and!.
Defined.

(** ** The idempotency lock *)

Section Idempotency.
Context {T : Type → Type} `{!TableOps T} {R : Type} `{!RedisOps R CachedValue,
  !RedisLaws R CachedValue} {B : Type} `{!BusOps B WalletEvent} (env : WalletEnv).
Abbreviation W := (WalletState T R B).

Lemma idem_enter_cached k v (w : W) :
  r_get (idem_key k) (redis w) = Some v → v ≠ CachedLock → idem_enter (Some k) w = (Ret (Some v), w).
Proof.
  intros H Hv. unfold idem_enter, redis_get, mbind, M_bind, gets. rewrite H. by destruct v.
Qed.

Lemma idem_enter_fresh k (w : W) :
  r_get (idem_key k) (redis w) = None →
  idem_enter (Some k) w = (Ret None, set_redis (r_set (idem_key k) CachedLock 600 (redis w)) w).
Proof.
  intros H. unfold idem_enter, redis_get, redis_setnx, mbind, M_bind, gets. rewrite H.
  by rewrite setnx_spec, H.
Qed.

Lemma set_redis_self (w : W) : set_redis (redis w) w = w.
Proof. by destruct w. Qed.

Lemma idem_enter_locked k (w : W) :
  r_get (idem_key k) (redis w) = Some CachedLock →
  idem_enter (Some k) w = (Throw "Duplicate request in progress", w).
Proof.
  intros H. unfold idem_enter, redis_get, redis_setnx, mbind, M_bind, gets. rewrite H.
  rewrite setnx_spec, H. simpl. rewrite set_redis_self, H. done.
Qed.
End Idempotency.

(** a repeated request is answered from the cache. Once a withdrawal,
    deposit or bank transfer has succeeded under a key, the same answer is
    stored under it, and any later request with that key returns it without
    running the operation or changing anything. *)
Lemma idempotent_request_replays {T : Type → Type} `{!TableOps T}
    {R : Type} `{!RedisOps R CachedValue, !RedisLaws R CachedValue} {B : Type} `{!BusOps B WalletEvent}
    (w w1 : WalletState T R B) (k : string) (body body' : M (WalletState T R B) CachedValue) (v : CachedValue)
    (Hk : truthy (Some k) = Some k) (Hfresh : r_get (idem_key k) (redis w) = None)
    (Hv : v ≠ CachedLock)
    (Hok : idempotent (Some k) body w = (Ret v, w1)) :
  r_get (idem_key k) (redis w1) = Some v ∧ idempotent (Some k) body' w1 = (Ret v, w1).
Proof.
  assert (r_get (idem_key k) (redis w1) = Some v) as Hs.
  { revert Hok. unfold idempotent, try_catch. rewrite Hk. unfold mbind at 1, M_bind at 1.
    rewrite idem_enter_fresh by done. unfold mbind at 1, M_bind at 1.
    destruct (body _) as [[v'|e] w']; simpl.
    - unfold mbind, M_bind. simpl. intros [= <- <-]. simpl. by rewrite get_set, decide_True.
    - done. }
  split; [done|]. unfold idempotent, try_catch. rewrite Hk. unfold mbind at 1, M_bind at 1.
  by rewrite (idem_enter_cached k v).
Qed.

Lemma idempotent_request_replays_witness :
  r_get (idem_key "k1") (redis (snd (withdraw demo_env "alice" 40 "dev" "ip" "USD" (Some "k1"%string)
    demo_world))) = Some (CachedProviderChallenge "pi-0") ∧
  idempotent (Some "k1"%string) (withdraw_body demo_env "bob" 99 "dev" "ip" "USD")
    (snd (withdraw demo_env "alice" 40 "dev" "ip" "USD" (Some "k1"%string) demo_world))
  = (Ret (CachedProviderChallenge "pi-0"),
     snd (withdraw demo_env "alice" 40 "dev" "ip" "USD" (Some "k1"%string) demo_world)).
Proof.
  apply (idempotent_request_replays demo_world _ "k1"
    (withdraw_body demo_env "alice" 40 "dev" "ip" "USD") (withdraw_body demo_env "bob" 99 "dev" "ip" "USD")
    (CachedProviderChallenge "pi-0")).
  - reflexivity.
  - reflexivity.
  - discriminate.
  - vm_compute. reflexivity.
Defined.

(** A duplicate releases the lock of the request it duplicates. While a
    request with a key is in progress its lock is held; a second request with
    the key is refused, but the error handler deletes the key, so a third
    request acquires the lock and runs although the first has not finished. *)
Lemma duplicate_request_releases_lock {T : Type → Type} `{!TableOps T}
    {R : Type} `{!RedisOps R CachedValue, !RedisLaws R CachedValue} {B : Type} `{!BusOps B WalletEvent}
    (w : WalletState T R B) (k : string) (body : M (WalletState T R B) CachedValue)
    (Hk : truthy (Some k) = Some k)
    (Hlocked : r_get (idem_key k) (redis w) = Some CachedLock) :
  let '(o, w1) := idempotent (Some k) body w in
  o = Throw "Duplicate request in progress" ∧ r_get (idem_key k) (redis w1) = None ∧
  fst (idem_enter (Some k) w1) = Ret None.
Proof.
  unfold idempotent, try_catch. rewrite Hk. unfold mbind at 1, M_bind at 1.
  rewrite idem_enter_locked by done. unfold mbind, M_bind, redis_del, modify, throw. simpl.
  assert (r_get (idem_key k) (r_del (idem_key k) (redis w)) = None) as Hd by (by rewrite get_del, decide_True).
  split_and!; [done | exact Hd |].
  change (fst (idem_enter (Some k) (set_redis (r_del (idem_key k) (redis w)) w)) = Ret None).
  by rewrite idem_enter_fresh.
Qed.

Lemma duplicate_request_releases_lock_witness :
  let w := set_redis (r_set (idem_key "k1") CachedLock 600 (redis demo_world)) demo_world in
  let '(o, w1) := idempotent (Some "k1"%string) (withdraw_body demo_env "bob" 99 "dev" "ip" "USD") w in
  o = Throw "Duplicate request in progress" ∧ r_get (idem_key "k1") (redis w1) = None ∧
  fst (idem_enter (Some "k1"%string) w1) = Ret None.
Proof.
  apply (duplicate_request_releases_lock
    (set_redis (r_set (idem_key "k1") CachedLock 600 (redis demo_world)) demo_world) "k1"
    (withdraw_body demo_env "bob" 99 "dev" "ip" "USD")); [reflexivity | vm_compute; reflexivity].
Defined.

(** ** Provider webhooks *)

Section Webhooks.
Context {T : Type → Type} `{!TableOps T} {R : Type} `{!RedisOps R CachedValue,
  !RedisLaws R CachedValue} {B : Type} `{!BusOps B WalletEvent} (env : WalletEnv).
Abbreviation W := (WalletState T R B).

(** Only Redis changes. *)
Definition redis_only {A} (m : M W A) (w : W) : Prop := ∃ r, snd (m w) = set_redis r w.

Lemma confirm3DS_seen ev (w : W) v :
  r_get ("wallet:webhook:" +:+ cb_eventId ev) (redis w) = Some v → confirm3DS env ev w = (Ret tt, w).
Proof.
  intros H. unfold confirm3DS, isDuplicateWebhook, redis_setnx, mbind, M_bind. rewrite setnx_spec, H.
  simpl. by rewrite set_redis_self.
Qed.

Lemma webhook_keys_differ a b : ("wallet:webhook:" +:+ a)%string ≠ webhook_key b.
Proof. unfold webhook_key. simpl. discriminate. Qed.

Lemma handleWebhook_seen ev (w : W) v :
  r_get ("wallet:webhook:" +:+ cb_eventId ev) (redis w) = Some v → redis_only (handleWebhook env ev) w.
Proof.
  intros H. unfold redis_only, handleWebhook, redis_setnx. unfold mbind at 1, M_bind at 1. rewrite setnx_spec.
  destruct (r_get (webhook_key (cb_idempotencyKey ev)) (redis w)); simpl.
  - by exists (redis w).
  - unfold try_catch, mbind, M_bind. rewrite (confirm3DS_seen ev _ v).
    + simpl. by eexists.
    + simpl. rewrite get_set, decide_False; [done|]. apply webhook_keys_differ.
Qed.
End Webhooks.

(** A provider callback whose header carries the event's own id is never
    acted on. The controller marks [wallet:webhook:<x-event-id>] as seen and the
    wallet then checks the same key for the payload's id: when the two are equal
    the first delivery is already taken for a duplicate. Accounts, journal and
    disbursements stay as they were, so the approved deposit is not credited,
    and every redelivery is acknowledged at the door. *)
Lemma callback_with_own_event_id_ignored {T : Type → Type} `{!TableOps T}
    {R : Type} `{!RedisOps R CachedValue, !RedisLaws R CachedValue} {B : Type} `{!BusOps B WalletEvent}
    (env : WalletEnv) (w : WalletState T R B) (id : string) (p : ProviderPayload)
    (Hid : truthy (Some id) = Some id) (Hp : pp_id p = Some id) :
  let w1 := snd (callback env (Some id) true p w) in
  accounts w1 = accounts w ∧ journals w1 = journals w ∧ disbursements w1 = disbursements w ∧
  is_Some (r_get ("wallet:webhook:" +:+ id) (redis w1)) ∧
  callback env (Some id) true p w1 = (Ret "acknowledged"%string, w1).
Proof.
  intros w1.
  assert (∃ r, w1 = set_redis r w ∧ is_Some (r_get ("wallet:webhook:" +:+ id) r)) as (r & Hw1 & Hr).
  { unfold w1, callback. rewrite Hid. unfold throw_if, redis_setnx. simpl negb. cbv iota.
    unfold mbind at 1, M_bind at 1, mret, M_ret. unfold mbind at 1, M_bind at 1. rewrite setnx_spec.
    destruct (r_get ("wallet:webhook:" +:+ id) (redis w)) as [v|] eqn:E; simpl.
    - exists (redis w). split; [done | by rewrite E].
    - set (k := ("wallet:webhook:" +:+ id)%string) in *.
      set (w2 := set_redis (r_set k CachedOne 86400 (redis w)) w).
      assert (r_get k (redis w2) = Some CachedOne) as H2 by (simpl; by rewrite get_set, decide_True).
      assert (∃ r, snd (provider_confirm3DS env p w2) = set_redis r w ∧ is_Some (r_get k r)) as (r & Hr & Hs).
      { unfold provider_confirm3DS, throw_if.
        set (bad := match truthy (pp_type p) with Some t => negb (String.prefix "payment_intent." t)
                    | None => true end). destruct bad.
        { exists (redis w2). split; [done | by rewrite H2]. }
        unfold mbind at 1, M_bind at 1, mret, M_ret.
        destruct (pp_intent p) as [[[iid st] key]|]; [|exists (redis w2); split; [done | by rewrite H2]].
        case_bool_decide; [exists (redis w2); split; [done | by rewrite H2]|].
        unfold mbind at 1, M_bind at 1. rewrite Hp. simpl default.
        set (ev := {| cb_eventId := id; cb_idempotencyKey := _; cb_providerTxnId := _; cb_status := _ |}).
        unfold handleWebhook, redis_setnx. unfold mbind at 1, M_bind at 1. rewrite setnx_spec.
        destruct (r_get (webhook_key (cb_idempotencyKey ev)) (redis w2)) as [x|] eqn:Ex; simpl snd.
        - exists (redis w2). split; [done | by rewrite H2].
        - unfold try_catch. unfold mbind at 1, M_bind at 1.
          rewrite (confirm3DS_seen env ev _ CachedOne).
          2: { simpl redis. rewrite get_set, decide_False by apply webhook_keys_differ. exact H2. }
          simpl. eexists. split; [reflexivity|].
          rewrite get_del, decide_False by apply webhook_keys_differ.
          rewrite get_set, decide_False by apply webhook_keys_differ. rewrite get_set, decide_True by done.
          by eexists. }
      exists r. unfold mbind, M_bind. destruct (provider_confirm3DS env p w2) as [[x|e] w3];
        simpl in *; by subst. }
  rewrite Hw1. simpl. split_and!; try done.
  unfold callback. rewrite Hid. unfold throw_if, redis_setnx. simpl negb. cbv iota.
  unfold mbind at 1, M_bind at 1, mret, M_ret. unfold mbind at 1, M_bind at 1. rewrite setnx_spec.
  simpl redis. destruct Hr as [v Hv]. rewrite Hv. done.
Qed.

(** A 3-D Secure deposit of 40 for alice waiting for its callback. *)
Definition deposit_waiting : DemoWorld :=
  snd (deposit demo_env "alice" 40 "dev" "ip" "USD" None demo_world).
Definition success_callback : ProviderPayload :=
  {| pp_type := Some "payment_intent.succeeded"; pp_id := Some "evt-1";
     pp_intent := Some ("pi-0", Some "succeeded", None) |}%string.

Lemma callback_with_own_event_id_ignored_witness :
  a_balance <$> accounts (snd (callback demo_env (Some "other"%string) true success_callback deposit_waiting))
    = [40; 0; 0; -40; 0; 0] ∧
  accounts (snd (callback demo_env (Some "evt-1"%string) true success_callback deposit_waiting))
    = accounts deposit_waiting.
Proof.
  split; [vm_compute; reflexivity|].
  exact (proj1 (callback_with_own_event_id_ignored demo_env deposit_waiting "evt-1" success_callback
    eq_refl eq_refl)).
Defined.

(** ** The life of a pending deposit *)

Section Deposits.
Context {T : Type → Type} `{!TableOps T, !TableLaws T} {R : Type} `{!RedisOps R CachedValue,
  !RedisLaws R CachedValue} {B : Type} `{!BusOps B WalletEvent, !BusLaws B WalletEvent} (env : WalletEnv).
Abbreviation W := (WalletState T R B).

(** Accounts, journal and pending deposits of two states agree. *)
Definition same_money (w w' : W) : Prop :=
  accounts w' = accounts w ∧ journals w' = journals w ∧ pendingDeposits w' = pendingDeposits w.

Lemma deposit_by_id_unique (w : W) d :
  unique_ids (pendingDeposits w) → d ∈ rows (pendingDeposits w) → deposit_by_id (pd_id d) w = Some d.
Proof.
  intros Hu Hd. unfold deposit_by_id. destruct (find_row _ _) as [d'|] eqn:E.
  - apply find_row_Some in E as [Hin Hid%bool_decide_eq_true]. f_equal.
    by apply (NoDup_fmap_inj_in row_id (rows (pendingDeposits w))).
  - pose proof (find_row_None _ _ E d Hd) as H. simpl in H. by rewrite bool_decide_true in H.
Qed.

(** The lock, taken or not, around a step that only reads. *)
Lemma locked_noop key (m : M W unit) (f : W → W) (w : W) :
  (∀ r, m (set_redis r w) = (Ret tt, set_redis r w)) → (∀ r, same_money w (f (set_redis r w))) →
  same_money w (snd ((lock ← redis_setnx key CachedOne 30;
        throw_if (negb lock) "Deposit locked" ;; try_finally m f) w)).
Proof.
  intros Hm Hf. unfold redis_setnx. unfold mbind at 1, M_bind at 1. rewrite setnx_spec.
  destruct (r_get key (redis w)); simpl; [by repeat split|].
  unfold mbind, M_bind, mret, M_ret, try_finally. rewrite Hm. apply Hf.
Qed.

Lemma settled_noop (w : W) d adminId by_ reason :
  unique_ids (pendingDeposits w) → d ∈ rows (pendingDeposits w) → pd_status d ≠ DepPending →
  same_money w (snd (confirmPendingDeposit env (pd_id d) adminId w)) ∧
  same_money w (snd (rejectPendingDeposit (pd_id d) by_ reason w)) ∧
  same_money w (snd (cancelPendingDeposit (pd_userId d) (pd_id d) w)).
Proof.
  intros Hu Hd Hst.
  assert (dep_is_pending d = false) as Hnp by (by apply bool_decide_eq_false).
  assert (∀ r, deposit_by_id (pd_id d) (set_redis r w) = Some d) as Hf
    by (intros r; by apply deposit_by_id_unique).
  split_and!.
  - apply locked_noop; [|by intros r; repeat split]. intros r. unfold confirm_locked, mbind, M_bind, gets.
    by rewrite Hf, Hnp.
  - apply locked_noop; [|by intros r; repeat split]. intros r. unfold reject_locked, mbind, M_bind, gets.
    by rewrite Hf, Hnp.
  - unfold cancelPendingDeposit, mbind, M_bind, gets.
    destruct (find_row _ (pendingDeposits w)) as [d'|] eqn:E; [|by repeat split].
    apply find_row_Some in E as [Hin [Hid%bool_decide_eq_true _]%andb_true_iff].
    assert (d' = d) as -> by (by apply (NoDup_fmap_inj_in row_id (rows (pendingDeposits w)))).
    rewrite Hnp. by repeat split.
Qed.

Lemma bind_snd_announces {A} (m : M W A) (k : A → M W unit) w x w1 :
  m w = (Ret x, w1) → (∀ y, announces (k y)) → ∃ b, snd ((m ≫= k) w) = set_bus b w1.
Proof. intros E Hk. unfold mbind, M_bind. rewrite E. apply Hk. Qed.

(** The confirmation under the lock, when it succeeds on a pending deposit. *)
Lemma confirm_locked_success d adminId (w w1 : W) :
  deposit_by_id (pd_id d) w = Some d → pd_status d = DepPending →
  confirm_locked env (pd_id d) adminId w = (Ret tt, w1) →
  ∃ user house w2,
    user ∈ rows (accounts w) ∧ a_id user = pd_userId d ∧
    house ∈ rows (accounts w) ∧ a_name house = "house"%string ∧
    record env "deposit" (pd_id d)
      [{| mv_account := house; mv_amount := - pd_amount d |};
       {| mv_account := user; mv_amount := pd_amount d |}] None w = (Ret tt, w2) ∧
    ∃ b, w1 = set_bus b (set_pendingDeposits (save_row (confirmed_deposit adminId (now w2) d)
                           (pendingDeposits w2)) w2).
Proof.
  intros Hf Hst H. unfold confirm_locked in H. unfold mbind at 1, M_bind at 1, gets in H.
  rewrite Hf in H. unfold dep_is_pending in H. rewrite bool_decide_true in H by done.
  apply bind_ret_inv in H as (user & wa & Hu & H). apply find_by_id_row in Hu as (-> & Hu & Hid & _).
  apply bind_ret_inv in H as (house & wb & Hh & H). apply find_by_name_row in Hh as (-> & Hh & Hn & _).
  apply bind_ret_inv in H as ([] & w2 & Hrec & H).
  exists user, house, w2. do 5 (split; [done|]).
  apply bind_ret_inv in H as (t & w3 & [= <- <-] & H).
  destruct (bind_snd_announces (save_deposit (confirmed_deposit adminId (now w2) d)) (λ _,
    emit (NotificationCreate (pd_userId d) "Deposit confirmed") ;;
    emit (DepositConfirmed (pd_userId d) (pd_id d) (pd_amount d) (pd_currency d)) ;;
    emit (AdminDepositConfirmed (pd_id d))) w2 tt
    (set_pendingDeposits (save_row (confirmed_deposit adminId (now w2) d) (pendingDeposits w2)) w2))
    as [b Hb]; [reflexivity| |].
  { intros _. apply announces_bind; [apply announces_emit|]. intros _.
    apply announces_bind; [apply announces_emit|]. intros _. apply announces_emit. }
  exists b. by rewrite H in Hb.
Qed.
End Deposits.

(** C37: a confirmed pending deposit is credited exactly once. When confirming a
    pending deposit succeeds and posts, the user's balance rises and the house's
    falls by the deposit's amount, the deposit is stored as confirmed by the
    admin, and the deposit's lock is released. From then on, confirming,
    rejecting or cancelling it changes neither accounts, journal nor deposits. *)
Theorem confirm_deposit_credits_once {T : Type → Type} `{!TableOps T, !TableLaws T}
    {R : Type} `{!RedisOps R CachedValue, !RedisLaws R CachedValue}
    {B : Type} `{!BusOps B WalletEvent, !BusLaws B WalletEvent} (env : WalletEnv)
    (w w1 : WalletState T R B) (d : PendingDeposit) (adminId : string)
    (Hids : unique_ids (accounts w)) (Hdids : unique_ids (pendingDeposits w))
    (Hd : d ∈ rows (pendingDeposits w)) (Hpending : pd_status d = DepPending)
    (Huser : ∀ a, a ∈ rows (accounts w) → a_id a = pd_userId d → a_name a ≠ "house"%string)
    (Hok : confirmPendingDeposit env (pd_id d) adminId w = (Ret tt, w1))
    (Hposted : journals w1 ≠ journals w) :
  (∃ user house, user ∈ rows (accounts w) ∧ a_id user = pd_userId d ∧
     house ∈ rows (accounts w) ∧ a_name house = "house"%string ∧
     credited {| mv_account := user; mv_amount := pd_amount d |} ∈ rows (accounts w1) ∧
     credited {| mv_account := house; mv_amount := - pd_amount d |} ∈ rows (accounts w1)) ∧
  confirmed_deposit adminId (now w) d ∈ rows (pendingDeposits w1) ∧
  r_get (lock_key (pd_id d)) (redis w1) = None ∧
  ∀ a b r,
    same_money w1 (snd (confirmPendingDeposit env (pd_id d) a w1)) ∧
    same_money w1 (snd (rejectPendingDeposit (pd_id d) b r w1)) ∧
    same_money w1 (snd (cancelPendingDeposit (pd_userId d) (pd_id d) w1)).
Proof.
  unfold confirmPendingDeposit, redis_setnx in Hok. unfold mbind at 1, M_bind at 1 in Hok.
  rewrite setnx_spec in Hok. destruct (r_get (lock_key (pd_id d)) (redis w)); [done|]. simpl in Hok.
  unfold mbind at 1, M_bind at 1, mret, M_ret, try_finally in Hok.
  set (w0 := set_redis (r_set (lock_key (pd_id d)) CachedOne 30 (redis w)) w) in *.
  destruct (confirm_locked env (pd_id d) adminId w0) as [[[]|e] w2] eqn:E; [|done].
  injection Hok as <-.
  apply confirm_locked_success in E as (user & house & w3 & Hu & Hid & Hh & Hn & Hrec & b & ->);
    [|by apply deposit_by_id_unique | done].
  apply record_posted in Hrec as [[-> _]|(a & j & n & Hpost & b' & ->)]; [done|].
  assert (a_id house ≠ a_id user) as Hne.
  { intros Eid. apply (Huser user Hu Hid).
    assert (house = user) as <- by (by apply (NoDup_fmap_inj_in row_id (rows (accounts w)))). done. }
  apply post_pair in Hpost as (H1 & H2 & _); [|done].
  split; [by exists user, house|]. split_and!.
  - simpl. rewrite rows_save. apply elem_of_cons. by left.
  - simpl. by rewrite get_del, decide_True.
  - intros x y r. apply (settled_noop env _ (confirmed_deposit adminId (now w) d)); [| |done].
    + simpl. by apply unique_ids_save.
    + simpl. rewrite rows_save. apply elem_of_cons. by left.
Qed.

Definition bank_world : DemoWorld :=
  snd (initiateBankTransfer demo_env "alice" 40 "dev" "ip" "USD" None demo_world).
Definition bank_deposit : PendingDeposit :=
  {| pd_id := "uuid-0"; pd_userId := "alice"; pd_amount := 40; pd_currency := "USD";
     pd_reference := "DEP00001"; pd_status := DepPending; pd_actionRequired := true;
     pd_expiresAt := 1709296496789; pd_confirmedBy := None; pd_confirmedAt := None;
     pd_rejectedBy := None; pd_rejectedAt := None; pd_rejectionReason := None;
     pd_createdAt := 1709210096789 |}%string.

Lemma confirm_deposit_credits_once_witness :
  confirmed_deposit "admin" (now bank_world) bank_deposit
    ∈ rows (pendingDeposits (snd (confirmPendingDeposit demo_env "uuid-0" "admin" bank_world))) ∧
  a_balance <$> accounts (snd (confirmPendingDeposit demo_env "uuid-0" "admin" bank_world))
    = [40; 0; 0; -40; 0; 0].
Proof.
  split; [|vm_compute; reflexivity].
  refine (proj1 (proj2 (confirm_deposit_credits_once demo_env bank_world _ bank_deposit "admin" _ _ _ _ _ _ _))).
  - apply (bool_decide_eq_true_1 (NoDup _)). vm_compute. reflexivity.
  - apply (bool_decide_eq_true_1 (NoDup _)). vm_compute. reflexivity.
  - vm_compute. apply elem_of_cons. by left.
  - reflexivity.
  - apply (Forall_forall (λ a, a_id a = pd_userId bank_deposit → a_name a ≠ "house"%string)).
    apply (bool_decide_eq_true_1 (Forall _ _)). vm_compute. reflexivity.
  - vm_compute. reflexivity.
  - vm_compute. discriminate.
Defined.

(** A bus whose broker can be down. *)
Record outage_bus := OutageBus { ob_down : bool; ob_sent : list WalletEvent }.
#[export] Instance outage_bus_ops : BusOps outage_bus WalletEvent := {
  published := ob_sent;
  bus_emit ev b := if ob_down b then (Throw "Failed to publish event", b)
                   else (Ret tt, OutageBus false (ob_sent b ++ [ev])) }.
#[export] Instance outage_bus_laws : BusLaws outage_bus WalletEvent.
Proof. split. intros ev [[|] l]; done. Qed.

Definition bank_world_down : WalletState list (map_redis CachedValue) outage_bus :=
  WalletWorld (accounts bank_world) (journals bank_world) [] [] (pendingDeposits bank_world) [] []
    (redis bank_world) (OutageBus true []) [] [] [] 10 0 (now bank_world).

(** A deposit can be credited and rejected. The confirmation posts the money
    before it announces it and stores the new status last. If the event broker
    is down the confirmation fails after posting, the deposit still counts as
    pending, and rejecting it then succeeds: the user keeps the credit of a
    rejected deposit. *)
Lemma outage_credits_rejected_deposit :
  let '(o1, w1) := confirmPendingDeposit demo_env "uuid-0" "admin" bank_world_down in
  let w1_up := set_bus (OutageBus false []) w1 in
  let '(o2, w2) := rejectPendingDeposit "uuid-0" "admin" None w1_up in
  is_ret o1 = false ∧ pd_status <$> pendingDeposits w1 = [DepPending] ∧
  is_ret o2 = true ∧ pd_status <$> pendingDeposits w2 = [DepRejected] ∧
  a_balance <$> accounts w2 = [40; 0; 0; -40; 0; 0].
Proof. vm_compute. split_and!; reflexivity. Qed.
