(* ===== verification/Engine.v ===== *)
(** * The game engine and the room worker

    backend/src/game: engine/index.ts (the state machine with its action log and
    settlement journal), hand-log.ts, settlement.ts, state-sanitize.ts, the
    message handlers of room.worker.ts and room.follower.ts, and the timers of
    clock.service.ts. [settle] is run where it is called; what it does to the
    wallet is in EngineWallet.v. *)

From S2P Require Import Prelude Fairness HandEval SidePots StateMachine.
#[local] Open Scope Z_scope.

(** ** hand-log.ts *)

Record HandLogEntry := LogEntry {
  le_index : nat; le_action : GameAction;
  le_pre : GameStateInternal; le_post : GameStateInternal }.

Record HandLog := {
  hl_entries : list HandLogEntry;
  hl_commitment : option (list ascii);
  hl_proof : option HandProofResponse }.

Definition log_record (a : GameAction) (pre post : GameStateInternal) (l : HandLog) : HandLog :=
  {| hl_entries := hl_entries l ++ [LogEntry (length (hl_entries l)) a pre post];
     hl_commitment := hl_commitment l; hl_proof := hl_proof l |}.
Definition recordProof (p : HandProofResponse) (l : HandLog) : HandLog :=
  {| hl_entries := hl_entries l; hl_commitment := hl_commitment l; hl_proof := Some p |}.
Definition reconstruct (index : nat) (l : HandLog) : option GameStateInternal :=
  le_post <$> hl_entries l !! index.

(** ** settlement.ts *)

Record SettlementEntry := { se_playerId : string; se_delta : Z }.

Definition recordDeltas (s : GameStateInternal) (initial : gmap string Z) : list SettlementEntry :=
  (λ p, {| se_playerId := p_id p; se_delta := p_stack p - default 0 (initial !! p_id p) |})
  <$> g_players s.

(** ** engine/index.ts *)

Record GameEngine := Engine {
  e_rng : HandRNG;
  e_machine : HandStateMachine;
  e_log : HandLog;
  e_settlement : list SettlementEntry;
  e_initialStacks : gmap string Z;
  e_playerIds : list string;
  e_startingStack : Z }.

Definition e_state (e : GameEngine) : GameStateInternal := m_state (e_machine e).

Section Engine.
Context (sha256 : list Z → list Z).

Definition new_engine (seed nonce : list Z) (ids : list string) (startingStack : Z) : GameEngine :=
  let rng := new_HandRNG sha256 seed nonce in
  Engine rng (new_machine ids startingStack)
    {| hl_entries := []; hl_commitment := Some (rng_commitment rng); hl_proof := None |}
    [] (list_to_map ((λ id, (id, startingStack)) <$> reverse ids)) ids startingStack.

Definition with_machine (m : HandStateMachine) (e : GameEngine) : GameEngine :=
  Engine (e_rng e) m (e_log e) (e_settlement e) (e_initialStacks e) (e_playerIds e) (e_startingStack e).

(** The in-memory effects of [settle]: pots, journal, proof. *)
Definition settle (e : GameEngine) : GameEngine :=
  match activePlayers (e_state e) with
  | [] => e
  | _ =>
      let m := Machine (settlePots (e_state e)) (m_blindsPosted (e_machine e)) in
      Engine (e_rng e) m (recordProof (reveal sha256 (e_rng e)) (e_log e))
        (e_settlement e ++ recordDeltas (m_state m) (e_initialStacks e))
        (e_initialStacks e) (e_playerIds e) (e_startingStack e)
  end.

(** [this.machine.apply(action)] *)
Definition machine_apply (a : GameAction) : M GameEngine unit := λ e,
  let '(o, m) := hsm_apply sha256 (rng_seed (e_rng e)) a (e_machine e) in
  (match o with Ret _ => Ret tt | Throw x => Throw x end, with_machine m e).

Definition alone_to_showdown (s : GameStateInternal) : GameStateInternal :=
  if bool_decide ((length (activePlayers s) ≤ 1)%nat ∧ g_phase s = BETTING_ROUND)
  then set_phase SHOWDOWN s else s.

Definition log_action (a : GameAction) (pre : GameStateInternal) (e : GameEngine) : GameEngine :=
  Engine (e_rng e) (e_machine e) (log_record a pre (e_state e) (e_log e)) (e_settlement e)
    (e_initialStacks e) (e_playerIds e) (e_startingStack e).

Definition applyAction (a : GameAction) : M GameEngine GameStateInternal :=
  preState ← gets e_state;
  machine_apply a ;;
  modify (λ e, with_machine (Machine (alone_to_showdown (e_state e)) (m_blindsPosted (e_machine e))) e) ;;
  ph ← gets (λ e, g_phase (e_state e));
  when (bool_decide (ph = SHOWDOWN)) (machine_apply NextAction ;; modify settle) ;;
  modify (log_action a preState) ;;
  gets e_state.

(** [replayHand]: a new engine, so a new [HandRNG], here given by its bytes. *)
Definition replayHand (seed nonce : list Z) (e : GameEngine) : outcome GameStateInternal :=
  let r := new_engine seed nonce (p_id <$> g_players (e_state e)) (e_startingStack e) in
  fst ((for_each (hl_entries (e_log e)) (λ en, applyAction (le_action en) ;; mret tt) ;; gets e_state) r).

(** ** state-sanitize.ts and [getPublicState] *)

Record PublicPlayer := {
  pub_id : string; pub_stack : Z; pub_folded : bool; pub_bet : Z; pub_allIn : bool;
  pub_holeCards : option (list Z) }.
Record PublicState := {
  pub_phase : HandPhase; pub_street : Street; pub_pot : Z; pub_sidePots : list SidePot;
  pub_currentBet : Z; pub_players : list PublicPlayer; pub_communityCards : list Z }.

Definition public_player (viewer : option string) (p : PlayerStateInternal) : PublicPlayer :=
  {| pub_id := p_id p; pub_stack := p_stack p; pub_folded := p_folded p; pub_bet := p_bet p;
     pub_allIn := p_allIn p;
     pub_holeCards :=
       match p_holeCards p with
       | Some cards => if bool_decide (viewer = Some (p_id p) ∧ length cards = 2%nat)
                       then Some cards else None
       | None => None
       end |}.

Definition sanitize (s : GameStateInternal) (viewer : option string) : PublicState :=
  {| pub_phase := g_phase s; pub_street := g_street s; pub_pot := g_pot s;
     pub_sidePots := g_sidePots s; pub_currentBet := g_currentBet s;
     pub_players := public_player viewer <$> g_players s;
     pub_communityCards := g_communityCards s |}.

Definition getPublicState (e : GameEngine) : PublicState := sanitize (e_state e) None.

(** ** room.worker.ts *)

Inductive WorkerEvent :=
| SettlementReserve (street : Street) (idx : nat)
| SettlementCommit (street : Street) (idx : nat)
| StateEvent (s : PublicState)
| Publish (idx : nat) (s : PublicState)
| DealingDisabled
| Reply (s : PublicState).

Definition resetToWaitBlinds (e : GameEngine) : GameEngine :=
  let s := e_state e in
  with_machine (Machine
    (set_phase WAIT_BLINDS (set_cards [] []
      (set_players ((λ p, Player (p_id p) (p_stack p) (p_folded p) (p_bet p) (p_allIn p) None)
                    <$> g_players s) s))) (m_blindsPosted (e_machine e))) e.

(** [engine.getHandLog().slice(-1)[0]?.[0] ?? d] *)
Definition last_index (d : nat) (e : GameEngine) : nat :=
  from_option le_index d (last (hl_entries (e_log e))).

(** The dealing loop: [dealing n] answers the n-th look at the feature flags. *)
Fixpoint deal_loop (fuel : nat) (dealing : nat → bool) (n : nat) : M GameEngine bool :=
  match fuel with
  | O => mret false
  | S fuel' =>
      ph ← gets (λ e, g_phase (e_state e));
      if bool_decide (ph = DEAL) then
        if dealing n then
          applyAction NextAction ;; deal_loop fuel' dealing (S n)
        else modify resetToWaitBlinds ;; mret true
      else mret false
  end.

Definition auto_deal (fuel : nat) (dealing : nat → bool) (before : HandPhase) : M GameEngine bool :=
  ph ← gets (λ e, g_phase (e_state e));
  if bool_decide (before = WAIT_BLINDS ∧ ph = DEAL) then
    if dealing 0%nat then deal_loop fuel dealing 1
    else modify resetToWaitBlinds ;; mret true
  else deal_loop fuel dealing 0.

(** The ['apply'] message. *)
Definition worker_apply (fuel : nat) (dealing : nat → bool) (settlementEnabled : bool) (a : GameAction)
    : M GameEngine (list WorkerEvent) :=
  before ← gets (λ e, g_phase (e_state e));
  applyAction a ;;
  halted ← auto_deal fuel dealing before;
  idx ← gets (last_index 0);
  st ← gets getPublicState;
  let reserved := if settlementEnabled then [SettlementReserve (pub_street st) idx] else [] in
  let first := [StateEvent st; Publish idx st] in
  let halt := if (halted : bool) then [DealingDisabled] else [] in
  if bool_decide (pub_phase st = SETTLE) then
    applyAction NextAction ;;
    idx' ← gets (last_index idx);
    st' ← gets getPublicState;
    mret (reserved ++ first ++ halt ++ [StateEvent st'; Publish idx' st']
          ++ (if settlementEnabled then [SettlementCommit (pub_street st') idx'] else []) ++ [Reply st'])
  else
    mret (reserved ++ first ++ halt
          ++ (if settlementEnabled then [SettlementCommit (pub_street st) idx] else []) ++ [Reply st]).

(** The ['resume'] and ['snapshot'] messages: post states from an index on. *)
Definition worker_resume (from : nat) (e : GameEngine) : list (nat * GameStateInternal) :=
  (λ en, (le_index en, le_post en)) <$> filter (λ en, (from ≤ le_index en)%nat) (hl_entries (e_log e)).
End Engine.

(** ** room.follower.ts *)

(** The follower keeps [[index, state]] pairs in a JavaScript array that may have
    holes; a snapshot carries whatever states the leader logged. *)
Section Follower.
Context {S : Type}.

Record Follower := {
  f_log : list (option (nat * S));
  f_current : option S }.

(** [log[i] = x] *)
Definition array_set {A} (i : nat) (x : A) (l : list (option A)) : list (option A) :=
  if decide (i < length l)%nat then <[i := Some x]> l
  else l ++ replicate (i - length l) None ++ [Some x].

Definition follower_diff (idx : nat) (s : S) (f : Follower) : Follower :=
  {| f_log := array_set idx (idx, s) (f_log f); f_current := Some s |}.
(** The snapshot, and the count it acknowledges. *)
Definition follower_snapshot (states : list (nat * S)) : nat * Follower :=
  (length states, {| f_log := Some <$> states; f_current := snd <$> last states |}).
Definition follower_resume (from : nat) (f : Follower) : list (nat * S) :=
  filter (λ p, (from ≤ p.1)%nat) (omap id (f_log f)).
End Follower.
Arguments Follower : clear implicits.

(** ** clock.service.ts *)

Record ClockService := {
  clock_now : Z;                       (* monotonic nanoseconds *)
  clock_timers : list (string * Z) }.  (* key and deadline, in insertion order *)

Definition timer_key (playerId tableId : string) : string := (tableId +:+ ":" +:+ playerId)%string.

Definition setTimer (playerId tableId : string) (ms : Z) (c : ClockService) : ClockService :=
  let k := timer_key playerId tableId in
  let d := clock_now c + ms * 1000000 in
  {| clock_now := clock_now c;
     clock_timers := if bool_decide (k ∈ (clock_timers c).*1)
                     then (λ t, if bool_decide (t.1 = k) then (k, d) else t) <$> clock_timers c
                     else clock_timers c ++ [(k, d)] |}.

Definition clearTimer (playerId tableId : string) (c : ClockService) : ClockService :=
  {| clock_now := clock_now c;
     clock_timers := filter (λ t, t.1 ≠ timer_key playerId tableId) (clock_timers c) |}.

(** [tick]: the keys whose actions run, in order, and the timers left. *)
Definition tick (now : Z) (c : ClockService) : list string * ClockService :=
  ((filter (λ t, t.2 <= now) (clock_timers c)).*1,
   {| clock_now := now; clock_timers := filter (λ t, ¬ t.2 <= now) (clock_timers c) |}).
