(* ===== verification/EngineSafety.v ===== *)
(** * The engine and the worker: log, settlement, secrecy, progress

    Theorems on Engine.v over every engine a sequence of actions reaches. *)

From S2P Require Import Prelude Fairness HandEval SidePots StateMachine HandSafety Engine.
#[local] Open Scope Z_scope.

(** ** [applyAction], as a function *)

Section Apply.
Context (sha256 : list Z → list Z).

Lemma alone_to_showdown_id s : chips_wf s → alone_to_showdown s = s.
Proof.
  intros [_ Hp]. unfold alone_to_showdown. case_bool_decide as H; [|done]. exfalso.
  destruct H as [Hl Hb]. unfold phase_wf in Hp. rewrite Hb in Hp.
  unfold active_count, activePlayers in *. lia.
Qed.

Lemma apply_next_showdown seed m :
  g_phase (m_state m) = SHOWDOWN →
  hsm_apply sha256 seed NextAction m
  = (Ret (set_phase SETTLE (settlePots (m_state m))),
     Machine (set_phase SETTLE (settlePots (m_state m))) (m_blindsPosted m)).
Proof. intros H. unfold hsm_apply, mbind, M_bind, gets. by rewrite H. Qed.

Lemma with_machine_id e : with_machine (e_machine e) e = e.
Proof. by destruct e. Qed.

Lemma with_machine_twice m m' e : with_machine m (with_machine m' e) = with_machine m e.
Proof. done. Qed.

Lemma machine_apply_eq a e :
  machine_apply sha256 a e
  = (match fst (hsm_apply sha256 (rng_seed (e_rng e)) a (e_machine e)) with
     | Ret _ => Ret tt | Throw x => Throw x end,
     with_machine (snd (hsm_apply sha256 (rng_seed (e_rng e)) a (e_machine e))) e).
Proof. unfold machine_apply. by destruct (hsm_apply _ _ _ _). Qed.

Lemma active_count_settle s : active_count (g_players (settlePots s)) = active_count (g_players s).
Proof.
  apply active_count_ext. unfold settlePots. destruct (active_seats (g_players s)); [done|].
  simpl. apply list_eq. intros i. rewrite !list_lookup_fmap, settle_pots_lookup.
  by destruct (g_players s !! i).
Qed.

(** What [settle] does once the state machine has paid the pots. *)
Definition settled (e : GameEngine) : GameEngine :=
  Engine (e_rng e) (e_machine e) (recordProof (reveal sha256 (e_rng e)) (e_log e))
    (e_settlement e ++ recordDeltas (e_state e) (e_initialStacks e))
    (e_initialStacks e) (e_playerIds e) (e_startingStack e).

Lemma settle_settled e :
  g_pot (e_state e) = 0 → g_sidePots (e_state e) = [] → (1 ≤ active_count (g_players (e_state e)))%nat →
  settle sha256 e = settled e.
Proof.
  intros Hp Hs Ha. unfold settle. unfold active_count in Ha. unfold activePlayers.
  destruct (filter _ (g_players (e_state e))); [simpl in Ha; lia|].
  rewrite settlePots_settled by done. unfold settled, e_state. by destruct e as [? []].
Qed.

(** The engine after an accepted action: the machine's next state; at a showdown,
    settled as well; then the log entry. *)
Definition engine_next (a : GameAction) (e : GameEngine) : GameEngine :=
  let m := snd (hsm_apply sha256 (rng_seed (e_rng e)) a (e_machine e)) in
  log_action a (e_state e)
    (if decide (g_phase (m_state m) = SHOWDOWN)
     then settled (with_machine (Machine (set_phase SETTLE (settlePots (m_state m))) (m_blindsPosted m)) e)
     else with_machine m e).

Lemma applyAction_eq a e :
  chips_wf (e_state e) →
  applyAction sha256 a e =
  match fst (hsm_apply sha256 (rng_seed (e_rng e)) a (e_machine e)) with
  | Throw x => (Throw x, e)
  | Ret _ => (Ret (e_state (engine_next a e)), engine_next a e)
  end.
Proof.
  intros Hwf. unfold applyAction. unfold mbind at 1, M_bind at 1, gets at 1.
  unfold mbind at 1, M_bind at 1. rewrite machine_apply_eq.
  pose proof (hsm_apply_atomic sha256 (rng_seed (e_rng e)) a (e_machine e)) as Hat.
  destruct (apply_chips sha256 (rng_seed (e_rng e)) a (e_machine e) Hwf) as [Hwf' _].
  unfold engine_next. destruct (hsm_apply _ _ a _) as [[s|x] m] eqn:E; simpl fst in *; simpl snd in *.
  2: { simpl. unfold atomic in Hat. rewrite E in Hat. specialize (Hat eq_refl). simpl in Hat.
    rewrite Hat. by rewrite with_machine_id. }
  unfold mbind at 1, M_bind at 1, modify at 1. cbv beta iota.
  change (e_state (with_machine m e)) with (m_state m).
  rewrite alone_to_showdown_id by done. rewrite with_machine_twice.
  replace (Machine (m_state m) _) with m by (by destruct m).
  unfold mbind at 1, M_bind at 1, gets at 1. cbv beta iota.
  change (g_phase (e_state (with_machine m e))) with (g_phase (m_state m)).
  destruct (decide (g_phase (m_state m) = SHOWDOWN)) as [Hsd|Hsd].
  2: { rewrite bool_decide_eq_false_2 by done. done. }
  rewrite bool_decide_eq_true_2 by done. unfold when.
  unfold mbind at 1, M_bind at 1. unfold mbind at 1, M_bind at 1.
  rewrite machine_apply_eq. simpl e_machine. simpl e_rng.
  rewrite apply_next_showdown by done. simpl fst. simpl snd. cbv beta iota.
  rewrite with_machine_twice. unfold modify at 1. cbv beta iota.
  rewrite settle_settled; [done | | |].
  all: destruct Hwf' as [_ Hp]; unfold phase_wf in Hp; rewrite Hsd in Hp; destruct Hp as [Hp _].
  - apply (settlePots_clears (m_state m)). by apply active_seats_nonempty.
  - apply (settlePots_clears (m_state m)). by apply active_seats_nonempty.
  - change (1 ≤ active_count (g_players (settlePots (m_state m))))%nat.
    by rewrite active_count_settle.
Qed.

Lemma engine_next_machine a e :
  chips_wf (e_state e) →
  chips_wf (e_state (engine_next a e)) ∧
  (g_phase (e_state e) ≠ SHOWDOWN → g_phase (e_state (engine_next a e)) ≠ SHOWDOWN) ∧
  ∀ P : HandStateMachine → Prop,
    (∀ a m, P m → P (snd (hsm_apply sha256 (rng_seed (e_rng e)) a m))) →
    P (e_machine e) → P (e_machine (engine_next a e)).
Proof.
  intros Hwf. destruct (apply_chips sha256 (rng_seed (e_rng e)) a (e_machine e) Hwf) as [Hwf' _].
  unfold engine_next. set (m := snd (hsm_apply _ _ a _)) in *.
  destruct (decide (g_phase (m_state m) = SHOWDOWN)) as [Hsd|Hsd]; [|split_and!; [exact Hwf' | done | by intros P HP H0; apply HP]].
  pose proof (apply_next_showdown (rng_seed (e_rng e)) m Hsd) as E.
  destruct (apply_chips sha256 (rng_seed (e_rng e)) NextAction m Hwf') as [Hwf'' _].
  rewrite E in Hwf''. split_and!; [exact Hwf'' | done |].
  intros P HP H0. specialize (HP NextAction m (HP a _ H0)). by rewrite E in HP.
Qed.
End Apply.

(** ** Engines a sequence of actions reaches *)

Section Reach.
Context (sha256 : list Z → list Z) (seed nonce : list Z) (ids : list string) (stack : Z).

(** Actions one after the other; a rejected one reaches its sender as an error. *)
Definition run_engine (acts : list GameAction) (e : GameEngine) : GameEngine :=
  foldl (λ e a, snd (applyAction sha256 a e)) e acts.

Definition fresh : GameEngine := new_engine sha256 seed nonce ids stack.

Hypothesis Hids : (2 ≤ length ids)%nat.
Hypothesis Hstack : 0 <= stack.

(** What every reached engine satisfies. *)
Record engine_inv (e : GameEngine) : Prop := {
  ei_rng : e_rng e = new_HandRNG sha256 seed nonce;
  ei_initial : e_initialStacks e = e_initialStacks fresh;
  ei_machine : reachable sha256 seed ids stack (e_machine e);
  ei_rest : g_phase (e_state e) ≠ SHOWDOWN;
  ei_replay : e = run_engine (le_action <$> hl_entries (e_log e)) fresh;
  ei_log : ∀ i, (i < length (hl_entries (e_log e)))%nat →
    ∃ en, hl_entries (e_log e) !! i = Some en ∧ le_index en = i ∧
      le_pre en = e_state (run_engine (take i (le_action <$> hl_entries (e_log e))) fresh) ∧
      le_post en = e_state (run_engine (take (S i) (le_action <$> hl_entries (e_log e))) fresh) }.

Lemma engine_inv_chips e : engine_inv e → chips_wf (e_state e).
Proof. intros H. eapply reachable_chips; [exact Hids | exact Hstack | apply (ei_machine _ H)]. Qed.

Lemma engine_next_entries a e :
  hl_entries (e_log (engine_next sha256 a e))
  = hl_entries (e_log e) ++ [LogEntry (length (hl_entries (e_log e))) a (e_state e)
                               (e_state (engine_next sha256 a e))].
Proof. unfold engine_next. by case_decide. Qed.

Lemma run_engine_snoc acts a e : run_engine (acts ++ [a]) e = snd (applyAction sha256 a (run_engine acts e)).
Proof. unfold run_engine. by rewrite foldl_app. Qed.

Lemma engine_inv_step a e : engine_inv e → engine_inv (snd (applyAction sha256 a e)).
Proof.
  intros H. pose proof (engine_inv_chips e H) as Hwf.
  rewrite applyAction_eq by done.
  destruct (fst (hsm_apply sha256 (rng_seed (e_rng e)) a (e_machine e))) eqn:Ea; [|exact H].
  destruct (engine_next_machine sha256 a e Hwf) as (_ & Hrest & HP). simpl snd.
  set (e' := engine_next sha256 a e) in *.
  assert (le_action <$> hl_entries (e_log e') = (le_action <$> hl_entries (e_log e)) ++ [a]) as Hacts.
  { unfold e'. by rewrite engine_next_entries, fmap_app. }
  assert (e' = run_engine ((le_action <$> hl_entries (e_log e)) ++ [a]) fresh) as Hrep.
  { rewrite run_engine_snoc, <- (ei_replay _ H), applyAction_eq by done. by rewrite Ea. }
  split; [..| |].
  - unfold e', engine_next. case_decide; apply H.
  - unfold e', engine_next. case_decide; apply H.
  - apply (HP (reachable sha256 seed ids stack)); [|apply H].
    intros a' m Hm. rewrite (ei_rng _ H). by constructor.
  - apply Hrest, H.
  - by rewrite Hacts.
  - intros i Hi. rewrite Hacts. unfold e' in Hi |- *. rewrite engine_next_entries in Hi |- *.
    rewrite length_app in Hi. simpl in Hi.
    destruct (decide (i < length (hl_entries (e_log e)))%nat) as [Hlt|Hge].
    + destruct (ei_log _ H i Hlt) as (en & He & Hix & Hpre & Hpost).
      exists en. rewrite lookup_app_l by done.
      rewrite !take_app_le by (rewrite length_fmap; lia). done.
    + assert (i = length (hl_entries (e_log e))) as -> by lia.
      eexists. rewrite lookup_app_r, Nat.sub_diag by lia. simpl.
      split; [done|]. split; [done|]. split.
      * rewrite <- (length_fmap le_action), take_app_length. by rewrite <- (ei_replay _ H).
      * rewrite take_ge by (rewrite length_app, length_fmap; simpl; lia). by rewrite <- Hrep.
Qed.

Lemma engine_inv_run acts : engine_inv (run_engine acts fresh).
Proof.
  induction acts as [|a acts IH] using rev_ind; [|rewrite run_engine_snoc; by apply engine_inv_step].
  split; try done; [apply reach_new|]. simpl. lia.
Qed.
End Reach.

(** ** Who sits at the table never changes *)

Section Seats.
Context (sha256 : list Z → list Z) (seed : list Z).

Definition seat_ids (s : GameStateInternal) : list string := p_id <$> g_players s.

Lemma deal_holes_ids deck ps : p_id <$> fst (deal_holes deck ps) = p_id <$> ps.
Proof.
  revert deck; induction ps as [|p ps IH]; intros deck; [done|]. cbn [deal_holes].
  destruct (pop deck) as [c1 deck1]. destruct (pop deck1) as [c2 deck2].
  specialize (IH deck2). destruct (deal_holes deck2 ps) as [rest deck3]. cbn [fst] in *.
  rewrite !fmap_cons. by rewrite IH.
Qed.

Lemma alter_ids (f : PlayerStateInternal → PlayerStateInternal) (i : nat) (ps : list PlayerStateInternal) :
  (∀ p, p_id (f p) = p_id p) → p_id <$> alter f i ps = p_id <$> ps.
Proof. intros Hf. apply list_fmap_alter_same. exact Hf. Qed.

Lemma settle_ids s : seat_ids (settlePots s) = seat_ids s.
Proof.
  unfold seat_ids, settlePots. destruct (active_seats (g_players s)); [done|]. simpl.
  apply list_eq. intros i. rewrite !list_lookup_fmap, settle_pots_lookup. by destruct (g_players s !! i).
Qed.

Lemma finish_ids s : seat_ids (finishBettingRound s) = seat_ids s.
Proof.
  unfold finishBettingRound. destruct (bettors_of s); [done|].
  unfold seat_ids. simpl. by rewrite <- list_fmap_compose.
Qed.

Lemma close_ids s : seat_ids (close_if_alone s) = seat_ids s.
Proof.
  unfold close_if_alone. case_bool_decide; [|done].
  destruct (existsb _ _); [apply (finish_ids s) | done].
Qed.

Lemma next_street_ids s : seat_ids (next_street s) = seat_ids s.
Proof. unfold next_street. case_decide; apply (finish_ids s). Qed.

Lemma placeBet_ids L i amount : preserves (λ m, seat_ids (m_state m) = L) (placeBet i amount).
Proof.
  intros m Hm. unfold placeBet. destruct (g_players (m_state m) !! i) as [p|] eqn:Ei; [|done].
  destruct (amount <=? 0); [done|]. destruct (p_stack p <? amount); [done|]. simpl.
  unfold seat_ids in *. simpl. rewrite <- Hm. by apply (list_fmap_insert_same p_id _ i p).
Qed.

Lemma findPlayer_ids L id : preserves (λ m, seat_ids (m_state m) = L) (findPlayer id).
Proof. intros m Hm. unfold findPlayer. by destruct (find_seat id _). Qed.

Lemma state_modify_ids L f :
  (∀ s, seat_ids (f s) = seat_ids s) → preserves (λ m, seat_ids (m_state m) = L) (state_modify f).
Proof. intros Hf. apply preserves_modify. intros m Hm. simpl. by rewrite Hf. Qed.

Lemma blinds_modify_ids L f : preserves (λ m, seat_ids (m_state m) = L) (blinds_modify f).
Proof. by apply preserves_modify. Qed.

Lemma dealCommunity_ids L n : preserves (λ m, seat_ids (m_state m) = L) (dealCommunity sha256 seed n).
Proof. intros m Hm. by destruct (dealCommunity_cards sha256 seed n m) as (d & c & ->). Qed.

Lemma deal_hands_ids s : seat_ids (deal_hands sha256 seed s) = seat_ids s.
Proof.
  unfold deal_hands. pose proof (deal_holes_ids (buildDeck sha256 seed []) (g_players s)) as H.
  by destruct (deal_holes _ _).
Qed.

Lemma apply_ids L a : preserves (λ m, seat_ids (m_state m) = L) (hsm_apply sha256 seed a).
Proof.
  unfold hsm_apply, apply_blinds, apply_deal, apply_betting, apply_showdown, apply_settle, invalid_action.
  preserve; try apply findPlayer_ids; try apply placeBet_ids; try apply blinds_modify_ids;
    try apply dealCommunity_ids; apply state_modify_ids; intros s; try done.
  - apply deal_hands_ids.
  - unfold seat_ids. simpl. by apply alter_ids.
  - apply next_street_ids.
  - apply close_ids.
  - apply settle_ids.
  - unfold seat_ids. simpl. by rewrite <- list_fmap_compose.
  - apply deal_hands_ids.
Qed.

(** The action that completes the blinds deals from a freshly built deck. *)
Lemma blinds_deal a m :
  g_phase (m_state m) = WAIT_BLINDS ∨ g_phase (m_state m) = NEXT_HAND →
  g_phase (m_state (snd (hsm_apply sha256 seed a m))) = DEAL →
  ∃ s, m_state (snd (hsm_apply sha256 seed a m)) = deal_hands sha256 seed s ∧
       length (g_players s) = length (g_players (m_state m)).
Proof.
  intros Hph.
  assert (snd (hsm_apply sha256 seed a m) = snd (apply_blinds sha256 seed a m)) as ->.
  { unfold hsm_apply, mbind at 1, M_bind at 1, gets at 1.
    assert (∀ body : HSM unit, snd ((body ;; gets m_state) m) = snd (body m)) as Hgets.
    { intros body. unfold mbind, M_bind, gets. by destruct (body m) as [[[]|e] m']. }
    destruct Hph as [E|E]; rewrite E; apply Hgets. }
  assert (g_phase (m_state m) ≠ DEAL) as Hnd by (by destruct Hph as [-> | ->]).
  destruct a as [id v| | | | | |]; try done. unfold apply_blinds.
  destruct (findPlayer_cases id m) as [(i & p & Hf & Hi & _)|[e He]].
  2: { rewrite (bind_throw _ _ _ _ _ He). done. }
  rewrite (bind_ret _ _ _ _ _ Hf).
  destruct (placeBet_cases i p v m Hi) as [[_ Hp]|[_ [e He]]].
  2: { rewrite (bind_throw _ _ _ _ _ He). done. }
  rewrite (bind_ret _ _ _ _ _ Hp).
  unfold mbind, M_bind, blinds_modify, modify, gets. cbn. case_bool_decide; cbn; [|done].
  intros _. exists (placed_bet i p v (m_state m)). split; [done|]. simpl. by rewrite length_insert.
Qed.

Lemma deal_holes_length deck ps ps' :
  length ps = length ps' →
  p_holeCards <$> fst (deal_holes deck ps) = p_holeCards <$> fst (deal_holes deck ps') ∧
  snd (deal_holes deck ps) = snd (deal_holes deck ps').
Proof.
  revert deck ps'; induction ps as [|p ps IH]; intros deck [|p' ps'] Hl; try done. cbn [deal_holes].
  destruct (pop deck) as [c1 deck1]. destruct (pop deck1) as [c2 deck2].
  specialize (IH deck2 ps' ltac:(simpl in Hl; lia)).
  destruct (deal_holes deck2 ps), (deal_holes deck2 ps'). cbn [fst snd] in *. destruct IH as [IH ->].
  rewrite !fmap_cons. by rewrite IH.
Qed.

Lemma deal_hands_same s s' :
  length (g_players s) = length (g_players s') →
  p_holeCards <$> g_players (deal_hands sha256 seed s) = p_holeCards <$> g_players (deal_hands sha256 seed s') ∧
  g_deck (deal_hands sha256 seed s) = g_deck (deal_hands sha256 seed s').
Proof.
  intros Hl. unfold deal_hands.
  pose proof (deal_holes_length (buildDeck sha256 seed []) _ _ Hl) as H.
  destruct (deal_holes _ (g_players s)), (deal_holes _ (g_players s')). exact H.
Qed.

Lemma reachable_ids ids stack m : reachable sha256 seed ids stack m → seat_ids (m_state m) = ids.
Proof.
  induction 1 as [|m a Hr IH]; [|by apply apply_ids].
  unfold seat_ids. simpl. rewrite <- list_fmap_compose. apply list_fmap_id.
Qed.
End Seats.

(** ** The theorems *)

(** C3: the hand log is the history of the table. Whatever actions a table of at
    least two players receives, rejected ones included, entry [i] of its log has
    index [i], holds the state before and after its action, and [reconstruct i]
    returns the state after the first [i + 1] logged actions; running the logged
    actions on a new engine with the same random bytes gives the same engine,
    journal and log included. Rejected actions leave no trace. *)
Theorem hand_log_replays (sha256 : list Z → list Z) (seed nonce : list Z) (ids : list string)
    (stack : Z) (received : list GameAction)
    (Hids : (2 ≤ length ids)%nat) (Hstack : 0 <= stack) :
  let e := run_engine sha256 received (new_engine sha256 seed nonce ids stack) in
  let logged := le_action <$> hl_entries (e_log e) in
  run_engine sha256 logged (new_engine sha256 seed nonce ids stack) = e ∧
  ∀ i, (i < length logged)%nat → ∃ en,
    hl_entries (e_log e) !! i = Some en ∧ le_index en = i ∧
    le_pre en = e_state (run_engine sha256 (take i logged) (new_engine sha256 seed nonce ids stack)) ∧
    reconstruct i (e_log e)
    = Some (e_state (run_engine sha256 (take (S i) logged) (new_engine sha256 seed nonce ids stack))).
Proof.
  intros e logged.
  pose proof (engine_inv_run sha256 seed nonce ids stack Hids Hstack received) as H.
  unfold fresh in H. fold e in H. split; [symmetry; apply (ei_replay _ _ _ _ _ _ H)|].
  intros i Hi. unfold logged in Hi. rewrite length_fmap in Hi.
  destruct (ei_log _ _ _ _ _ _ H i Hi) as (en & He & Hix & Hpre & Hpost).
  exists en. split_and!; [done | done | done |]. unfold reconstruct. rewrite He. simpl. f_equal. exact Hpost.
Qed.

(** A blind, a bet nobody can cover, the other blind, the deal. *)
Definition engine_demo : list GameAction :=
  [PostBlind "a" 1; BetAction "b" 2; PostBlind "b" 2; NextAction; CallAction "a"]%string.

Lemma hand_log_replays_witness :
  let e := run_engine (λ _, [1; 2; 3; 4]) engine_demo
             (new_engine (λ _, [1; 2; 3; 4]) [5] [6] ["a"; "b"]%string 100) in
  (le_action <$> hl_entries (e_log e)
   = [PostBlind "a" 1; PostBlind "b" 2; NextAction; CallAction "a"]%string) ∧
  run_engine (λ _, [1; 2; 3; 4]) (le_action <$> hl_entries (e_log e))
    (new_engine (λ _, [1; 2; 3; 4]) [5] [6] ["a"; "b"]%string 100) = e.
Proof.
  intros e. split; [vm_compute; reflexivity|].
  refine (proj1 (hand_log_replays (λ _, [1; 2; 3; 4]) [5] [6] ["a"; "b"]%string 100 engine_demo _ _));
    [simpl; lia | lia].
Defined.

(** every hand of a table is dealt the same cards. The engine keeps one seed
    for its life and [buildDeck] starts from that seed: whenever two blinds, in
    any two hands of one engine, open the deal, the hole cards of every seat and
    the rest of the deck are the same. (After the first hand the seed is
    public.) *)
Lemma every_hand_same_cards (sha256 : list Z → list Z) (seed nonce : list Z) (ids : list string)
    (stack : Z) (acts acts' : list GameAction) (a a' : GameAction)
    (Hids : (2 ≤ length ids)%nat) (Hstack : 0 <= stack)
    (e := run_engine sha256 acts (new_engine sha256 seed nonce ids stack))
    (e' := run_engine sha256 acts' (new_engine sha256 seed nonce ids stack))
    (Hph : g_phase (e_state e) = WAIT_BLINDS ∨ g_phase (e_state e) = NEXT_HAND)
    (Hph' : g_phase (e_state e') = WAIT_BLINDS ∨ g_phase (e_state e') = NEXT_HAND)
    (Hd : g_phase (e_state (snd (applyAction sha256 a e))) = DEAL)
    (Hd' : g_phase (e_state (snd (applyAction sha256 a' e'))) = DEAL) :
  let dealt := e_state (snd (applyAction sha256 a e)) in
  let dealt' := e_state (snd (applyAction sha256 a' e')) in
  p_holeCards <$> g_players dealt = p_holeCards <$> g_players dealt' ∧ g_deck dealt = g_deck dealt'.
Proof.
  assert (∀ acts a (e := run_engine sha256 acts (new_engine sha256 seed nonce ids stack)),
    g_phase (e_state e) = WAIT_BLINDS ∨ g_phase (e_state e) = NEXT_HAND →
    g_phase (e_state (snd (applyAction sha256 a e))) = DEAL →
    ∃ s, e_state (snd (applyAction sha256 a e)) = deal_hands sha256 seed s ∧
         length (g_players s) = length ids) as Hone.
  { clear -Hids Hstack. intros acts a e Hph Hd.
    pose proof (engine_inv_run sha256 seed nonce ids stack Hids Hstack acts) as H.
    unfold fresh in H. fold e in H.
    pose proof (reachable_ids sha256 seed ids stack _ (ei_machine _ _ _ _ _ _ H)) as Hseats.
    apply (f_equal length) in Hseats. unfold seat_ids in Hseats. rewrite length_fmap in Hseats.
    assert (rng_seed (e_rng e) = seed) as Hseed by (by rewrite (ei_rng _ _ _ _ _ _ H)).
    rewrite applyAction_eq in Hd |- * by (by eapply engine_inv_chips). rewrite Hseed in Hd |- *.
    destruct (fst (hsm_apply sha256 seed a (e_machine e))).
    2: { simpl in Hd. by destruct Hph; congruence. }
    unfold engine_next in Hd |- *. rewrite Hseed in Hd |- *.
    destruct (decide (g_phase (m_state (snd (hsm_apply sha256 seed a (e_machine e)))) = SHOWDOWN));
      [discriminate Hd|].
    destruct (blinds_deal sha256 seed a (e_machine e) Hph Hd) as (s & Hs & Hl).
    exists s. split; [exact Hs|]. by rewrite Hl. }
  destruct (Hone acts a Hph Hd) as (s & Hs & Hl). destruct (Hone acts' a' Hph' Hd') as (s' & Hs' & Hl').
  intros dealt dealt'. unfold dealt, dealt', e, e'. rewrite Hs, Hs'. apply deal_hands_same. congruence.
Qed.

(** One hand after the other: both blinds, everyone checks down, [next]. *)
Definition hand_actions : list GameAction :=
  [PostBlind "a" 1; PostBlind "b" 1; NextAction; NextAction; NextAction; NextAction; NextAction;
   NextAction; NextAction; NextAction; NextAction]%string.

Lemma every_hand_same_cards_witness :
  let e := new_engine (λ _, [1; 2; 3; 4]) [5] [6] ["a"; "b"]%string 100 in
  let first := run_engine (λ _, [1; 2; 3; 4]) [PostBlind "a"%string 1] e in
  let second := run_engine (λ _, [1; 2; 3; 4]) (hand_actions ++ [PostBlind "b"%string 2]) e in
  g_phase (e_state second) = NEXT_HAND ∧ length (e_settlement second) = 2%nat ∧
  p_holeCards <$> g_players (e_state (snd (applyAction (λ _, [1; 2; 3; 4]) (PostBlind "b"%string 1) first)))
  = p_holeCards <$> g_players (e_state (snd (applyAction (λ _, [1; 2; 3; 4]) (PostBlind "a"%string 1) second))).
Proof.
  intros e first second. split; [vm_compute; reflexivity|]. split; [vm_compute; reflexivity|].
  refine (proj1 (every_hand_same_cards (λ _, [1; 2; 3; 4]) [5] [6] ["a"; "b"]%string 100
    [PostBlind "a"%string 1] (hand_actions ++ [PostBlind "b"%string 2]) (PostBlind "b"%string 1)
    (PostBlind "a"%string 1) _ _ _ _ _ _)).
  - repeat constructor.
  - lia.
  - left. vm_compute. reflexivity.
  - right. vm_compute. reflexivity.
  - vm_compute. reflexivity.
  - vm_compute. reflexivity.
Defined.

(** ** Settlement *)

Lemma starting_stacks (stack : Z) (l : list string) id :
  id ∈ l → (list_to_map ((λ id, (id, stack)) <$> l) : gmap string Z) !! id = Some stack.
Proof.
  induction l as [|x l IH]; intros Hin; [by apply elem_of_nil in Hin|].
  rewrite fmap_cons. simpl. destruct (decide (x = id)) as [->|Hne]; [by rewrite lookup_insert_eq|].
  rewrite lookup_insert_ne by done. apply IH. by apply elem_of_cons in Hin as [->|].
Qed.

Lemma recordDeltas_spec s (initial : gmap string Z) stack :
  (∀ p, p ∈ g_players s → initial !! p_id p = Some stack) →
  sum_by se_delta (recordDeltas s initial)
  = chips_on_stacks (g_players s) - Z.of_nat (length (g_players s)) * stack ∧
  (recordDeltas s initial
   = (λ p, {| se_playerId := p_id p; se_delta := p_stack p - stack |}) <$> g_players s).
Proof.
  intros H. assert (recordDeltas s initial
    = (λ p, {| se_playerId := p_id p; se_delta := p_stack p - stack |}) <$> g_players s) as E.
  { apply list_fmap_ext. intros i p Hp. by rewrite H by (by eapply list_elem_of_lookup_2). }
  split; [|done]. rewrite E, sum_by_fmap. unfold chips_on_stacks. clear.
  induction (g_players s) as [|p ps IH]; [done|]. rewrite !sum_by_cons, IH. simpl length. simpl. lia.
Qed.

(** the settlement journal. When an action of a table of at least two players
    ends the hand, the engine journals one entry a player, its stack less the
    stack the engine started it with; the pot is empty, the proof is out, and
    the deltas add up to the chips that were on the table less those bought in,
    short of exactly the side pots nobody could claim. *)
Lemma settlement_journal_balances (sha256 : list Z → list Z) (seed nonce : list Z) (ids : list string)
    (stack : Z) (acts : list GameAction) (a : GameAction)
    (Hids : (2 ≤ length ids)%nat) (Hstack : 0 <= stack)
    (e := run_engine sha256 acts (new_engine sha256 seed nonce ids stack))
    (e' := snd (applyAction sha256 a e))
    (Hsettles : length (e_settlement e) ≠ length (e_settlement e')) :
  let at_showdown := m_state (snd (hsm_apply sha256 seed a (e_machine e))) in
  let entries := (λ p, {| se_playerId := p_id p; se_delta := p_stack p - stack |})
                 <$> g_players (e_state e') in
  e_settlement e' = e_settlement e ++ entries ∧
  sum_by se_delta entries + uncontended_amount at_showdown
  = table_chips (e_state e) - Z.of_nat (length ids) * stack ∧
  g_pot (e_state e') = 0 ∧ hl_proof (e_log e') = Some (reveal sha256 (new_HandRNG sha256 seed nonce)).
Proof.
  intros sd entries.
  pose proof (engine_inv_run sha256 seed nonce ids stack Hids Hstack acts) as H.
  unfold fresh in H. fold e in H.
  pose proof (engine_inv_chips _ _ _ _ _ Hids Hstack _ H) as Hwf.
  pose proof (reachable_ids sha256 seed ids stack _ (ei_machine _ _ _ _ _ _ H)) as Hseats.
  assert (rng_seed (e_rng e) = seed) as Hseed by (by rewrite (ei_rng _ _ _ _ _ _ H)).
  unfold entries, e' in Hsettles |- *. clear e' entries.
  rewrite applyAction_eq in Hsettles |- * by done. rewrite Hseed in Hsettles |- *.
  destruct (fst (hsm_apply sha256 seed a (e_machine e))); [|done]. simpl snd in *.
  unfold engine_next in Hsettles |- *. rewrite Hseed in Hsettles |- *. fold sd in Hsettles |- *.
  destruct (decide (g_phase sd = SHOWDOWN)) as [Hsd|]; [|done].
  destruct (apply_chips sha256 seed a (e_machine e) Hwf) as [Hwf1 Hc1]. fold sd in Hwf1, Hc1.
  destruct (settle_kept sd Hwf1 Hsd) as [Hwf2 Hc2].
  assert (seat_ids sd = ids) as Hids1 by (by apply apply_ids).
  assert (vanished (e_machine e) a = 0) as Hv.
  { unfold vanished. pose proof (ei_rest _ _ _ _ _ _ H). unfold e_state in *.
    by destruct (g_phase (m_state (e_machine e))). }
  set (s' := settlePots sd) in *.
  assert (seat_ids s' = ids) as Hids2 by (unfold s'; by rewrite settle_ids).
  destruct (recordDeltas_spec (set_phase SETTLE s') (e_initialStacks e) stack) as [Hsum Hrec].
  { intros p Hp. rewrite (ei_initial _ _ _ _ _ _ H). apply starting_stacks.
    rewrite elem_of_reverse, <- Hids2. by apply list_elem_of_fmap_2. }
  assert (g_pot s' = 0) as Hpot by apply Hwf2.
  simpl in Hrec. split_and!; simpl.
  - f_equal. exact Hrec.
  - change (g_players (e_state _)) with (g_players s'). rewrite <- Hrec, Hsum. apply (f_equal length) in Hids2. unfold seat_ids in Hids2.
    rewrite length_fmap in Hids2. simpl. rewrite Hids2.
    unfold table_chips in *. simpl in Hc2. unfold e_state in *. lia.
  - exact Hpot.
  - by rewrite (ei_rng _ _ _ _ _ _ H).
Qed.

Lemma settlement_journal_balances_witness :
  let e := run_engine (λ _, [1; 2; 3; 4]) (engine_demo ++ [RaiseAction "b" 10]%string)
             (new_engine (λ _, [1; 2; 3; 4]) [5] [6] ["a"; "b"]%string 100) in
  let e' := snd (applyAction (λ _, [1; 2; 3; 4]) (FoldAction "a"%string) e) in
  e_settlement e' = [{| se_playerId := "a"%string; se_delta := -2 |};
                     {| se_playerId := "b"%string; se_delta := 2 |}] ∧
  g_pot (e_state e') = 0.
Proof.
  intros e e'. split; [vm_compute; reflexivity|].
  refine (proj1 (proj2 (proj2 (settlement_journal_balances (λ _, [1; 2; 3; 4]) [5] [6] ["a"; "b"]%string 100
    (engine_demo ++ [RaiseAction "b" 10]%string) (FoldAction "a"%string) _ _ _)))).
  - repeat constructor.
  - lia.
  - vm_compute. discriminate.
Defined.

(** ** What a viewer can learn *)

(** Two tables a viewer cannot tell apart: they differ in the deck and in the
    hole cards of other seats only. *)
Definition mask (viewer : option string) (p : PlayerStateInternal) : PlayerStateInternal :=
  Player (p_id p) (p_stack p) (p_folded p) (p_bet p) (p_allIn p)
    (if decide (viewer = Some (p_id p)) then p_holeCards p else None).
Definition visible (viewer : option string) (s : GameStateInternal) : GameStateInternal :=
  set_cards [] (g_communityCards s) (set_players (mask viewer <$> g_players s) s).
Definition indistinguishable (viewer : option string) (s s' : GameStateInternal) : Prop :=
  visible viewer s = visible viewer s'.

#[export] Instance indistinguishable_equivalence viewer : Equivalence (indistinguishable viewer).
Proof. unfold indistinguishable. split; repeat intro; congruence. Qed.

Lemma public_player_mask viewer p : public_player viewer (mask viewer p) = public_player viewer p.
Proof.
  unfold public_player, mask; simpl. f_equal. case_decide as E; [done|].
  destruct (p_holeCards p); [|done]. rewrite bool_decide_eq_false_2; [done|]. by intros [? _].
Qed.

Lemma sanitize_visible viewer s : sanitize (visible viewer s) viewer = sanitize s viewer.
Proof.
  unfold sanitize, visible; simpl. f_equal. rewrite <- list_fmap_compose.
  apply list_fmap_ext. intros i p _. apply public_player_mask.
Qed.

#[export] Instance sanitize_proper viewer :
  Proper (indistinguishable viewer ==> eq) (λ s, sanitize s viewer).
Proof. intros s s' E. by rewrite <- (sanitize_visible viewer s), E, sanitize_visible. Qed.

(** A player is dealt no cards, or two. *)
Definition dealt_hand (p : PlayerStateInternal) : Prop :=
  match p_holeCards p with Some cards => length cards = 2%nat | None => True end.

Lemma public_player_inj viewer p p' :
  dealt_hand p → dealt_hand p' → public_player viewer p = public_player viewer p' →
  mask viewer p = mask viewer p'.
Proof.
  destruct p as [i1 s1 f1 b1 a1 h1], p' as [i2 s2 f2 b2 a2 h2].
  unfold dealt_hand, public_player, mask; simpl. intros H1 H2 E. injection E as -> -> -> -> -> E.
  f_equal. case_decide; [|done].
  by destruct h1, h2; simpl in *; repeat case_bool_decide; intuition congruence.
Qed.

(** C33: the sanitized state shows a viewer exactly what it may see. Two tables
    (every hand dealt two cards or none) give a viewer the same public state if
    and only if they differ at most in the deck and in the hole cards of other
    seats; with no viewer, no hole card matters at all. *)
Theorem sanitize_shows_only_own_cards (viewer : option string) (s s' : GameStateInternal)
    (Hs : Forall dealt_hand (g_players s)) (Hs' : Forall dealt_hand (g_players s')) :
  sanitize s viewer = sanitize s' viewer ↔ indistinguishable viewer s s'.
Proof.
  split; [|intros E; apply (sanitize_proper viewer _ _ E)].
  destruct s as [ph st pot sides cb ps deck comm], s' as [ph' st' pot' sides' cb' ps' deck' comm'].
  intros E. pose proof (f_equal pub_players E) as Eps. simpl in Eps, Hs, Hs'.
  injection E as -> -> -> -> -> _ ->.
  unfold indistinguishable, visible, set_cards, set_players; simpl. f_equal.
  clear -Hs Hs' Eps. revert ps' Hs' Eps; induction Hs as [|p ps Hp _ IH]; intros [|p' ps'] Hs' E; try done.
  apply Forall_cons in Hs' as [Hp' Hs']. pose proof (f_equal (default (public_player viewer p) ∘ head) E) as E1. apply (f_equal tail) in E as E2.
  rewrite !fmap_cons. f_equal; [by apply public_player_inj | by apply IH].
Qed.

Definition seat_with (id : string) (cards : list Z) : PlayerStateInternal := Player id 98 false 2 false (Some cards).
Definition table_with (deck mine theirs : list Z) : GameStateInternal :=
  GameState BETTING_ROUND preflop 4 [] 2 [seat_with "a" mine; seat_with "b" theirs] deck [].

Lemma sanitize_shows_only_own_cards_witness :
  (sanitize (table_with [9; 8] [1; 2] [3; 4]) (Some "a"%string)
   = sanitize (table_with [7] [1; 2] [5; 6]) (Some "a"%string)) ∧
  ¬ indistinguishable (Some "a"%string) (table_with [] [1; 2] [3; 4]) (table_with [] [1; 9] [3; 4]).
Proof.
  split.
  - apply sanitize_shows_only_own_cards; [repeat constructor | repeat constructor | reflexivity].
  - intros H. discriminate (f_equal (λ s, p_holeCards <$> g_players s) H).
Defined.

(** ** The worker *)

Section Worker.
Context (sha256 : list Z → list Z) (seed nonce : list Z) (ids : list string) (stack : Z).
Hypothesis Hids : (2 ≤ length ids)%nat.
Hypothesis Hdeck : (2 * length ids + 5 ≤ length standardDeck)%nat.
Hypothesis Hstack : 0 <= stack.

Abbreviation inv := (engine_inv sha256 seed nonce ids stack).

(** The engine once the worker has dealt, and once it has cleared the hand. *)
Definition after_dealing (e : GameEngine) : GameEngine :=
  if decide (g_phase (e_state e) = DEAL) then engine_next sha256 NextAction e else e.
Definition after_clearing (e : GameEngine) : GameEngine :=
  if decide (g_phase (e_state e) = SETTLE) then engine_next sha256 NextAction e else e.

Definition worker_events (settlementEnabled : bool) (e2 e3 : GameEngine) : list WorkerEvent :=
  (if settlementEnabled then [SettlementReserve (g_street (e_state e2)) (last_index 0 e2)] else []) ++
  [StateEvent (getPublicState e2); Publish (last_index 0 e2) (getPublicState e2)] ++
  (if decide (g_phase (e_state e2) = SETTLE)
   then [StateEvent (getPublicState e3); Publish (last_index 0 e3) (getPublicState e3)] else []) ++
  (if settlementEnabled then [SettlementCommit (g_street (e_state e3)) (last_index 0 e3)] else []) ++
  [Reply (getPublicState e3)].

Lemma last_index_next d a e : last_index d (engine_next sha256 a e) = length (hl_entries (e_log e)).
Proof. unfold last_index. rewrite engine_next_entries, last_snoc. done. Qed.

Lemma inv_next a e s m :
  inv e → hsm_apply sha256 (rng_seed (e_rng e)) a (e_machine e) = (Ret s, m) →
  applyAction sha256 a e = (Ret (e_state (engine_next sha256 a e)), engine_next sha256 a e) ∧
  inv (engine_next sha256 a e).
Proof.
  intros H E.
  assert (applyAction sha256 a e = (Ret (e_state (engine_next sha256 a e)), engine_next sha256 a e)) as Ea.
  { rewrite applyAction_eq by (by eapply engine_inv_chips). by rewrite E. }
  split; [done|]. pose proof (engine_inv_step sha256 seed nonce ids stack Hids Hstack a e H) as H'.
  by rewrite Ea in H'.
Qed.

Lemma deal_step e :
  inv e → g_phase (e_state e) = DEAL →
  applyAction sha256 NextAction e
  = (Ret (e_state (engine_next sha256 NextAction e)), engine_next sha256 NextAction e) ∧
  inv (engine_next sha256 NextAction e) ∧
  g_phase (e_state (engine_next sha256 NextAction e)) = BETTING_ROUND.
Proof.
  intros H Hph.
  pose proof (reachable_cards sha256 seed ids stack _ Hdeck (ei_machine _ _ _ _ _ _ H)) as Hwf.
  destruct (apply_deal_cards sha256 seed (e_machine e) Hwf Hph) as (deck & comm & E & _).
  assert (hsm_apply sha256 (rng_seed (e_rng e)) NextAction (e_machine e)
    = (Ret (set_phase BETTING_ROUND (set_cards deck comm (e_state e))),
       Machine (set_phase BETTING_ROUND (set_cards deck comm (e_state e))) (m_blindsPosted (e_machine e)))) as Eh.
  { rewrite (ei_rng _ _ _ _ _ _ H). unfold hsm_apply, mbind, M_bind, gets.
    unfold e_state in Hph. rewrite Hph. unfold mbind, M_bind, gets in E. simpl rng_seed. by rewrite E. }
  destruct (inv_next _ _ _ _ H Eh) as [Ea Hi]. split_and!; [done | done |].
  unfold engine_next. rewrite Eh. by case_decide.
Qed.

Lemma settle_step e :
  inv e → g_phase (e_state e) = SETTLE →
  applyAction sha256 NextAction e
  = (Ret (e_state (engine_next sha256 NextAction e)), engine_next sha256 NextAction e) ∧
  inv (engine_next sha256 NextAction e) ∧
  g_phase (e_state (engine_next sha256 NextAction e)) = NEXT_HAND ∧
  g_street (e_state (engine_next sha256 NextAction e)) = preflop.
Proof.
  intros H Hph.
  assert (hsm_apply sha256 (rng_seed (e_rng e)) NextAction (e_machine e)
    = (Ret (clear_hand (e_state e)), Machine (clear_hand (e_state e)) ∅)) as Eh.
  { unfold hsm_apply, mbind, M_bind, gets. unfold e_state in Hph. by rewrite Hph. }
  destruct (inv_next _ _ _ _ H Eh) as [Ea Hi]. split_and!; [done | done | |].
  all: unfold engine_next; rewrite Eh; by case_decide.
Qed.

Lemma after_dealing_inv e : inv e →
  inv (after_dealing e) ∧ g_phase (e_state (after_dealing e)) ≠ DEAL.
Proof.
  intros H. unfold after_dealing. case_decide as E; [|done].
  destruct (deal_step e H E) as (_ & Hi & Hp). split; [done|]. by rewrite Hp.
Qed.

Lemma auto_deal_eq fuel before e : inv e →
  auto_deal sha256 (S (S fuel)) (λ _, true) before e = (Ret false, after_dealing e).
Proof.
  intros H. assert (∀ n, deal_loop sha256 (S (S fuel)) (λ _, true) n e = (Ret false, after_dealing e)) as Hloop.
  { intros n. unfold after_dealing. cbn [deal_loop]. unfold mbind at 1, M_bind at 1, gets at 1.
    cbv beta iota. case_decide as E.
    - rewrite bool_decide_eq_true_2 by done. destruct (deal_step e H E) as (Ea & Hi & Hp).
      unfold mbind at 1, M_bind at 1. rewrite Ea. unfold mbind, M_bind, gets. rewrite Hp. done.
    - by rewrite bool_decide_eq_false_2. }
  unfold auto_deal. unfold mbind, M_bind, gets. by case_bool_decide.
Qed.

Lemma worker_apply_eq fuel b a e s e1 :
  inv e → applyAction sha256 a e = (Ret s, e1) →
  let e2 := after_dealing e1 in
  worker_apply sha256 (S (S fuel)) (λ _, true) b a e
  = (Ret (worker_events b e2 (after_clearing e2)), after_clearing e2).
Proof.
  intros H Ea e2.
  assert (inv e1) as H1.
  { pose proof (engine_inv_step sha256 seed nonce ids stack Hids Hstack a e H) as H'.
    by rewrite Ea in H'. }
  destruct (after_dealing_inv e1 H1) as [H2 _]. fold e2 in H2.
  unfold worker_apply. unfold mbind at 1, M_bind at 1, gets at 1. cbv beta iota.
  unfold mbind at 1, M_bind at 1. rewrite Ea.
  unfold mbind at 1, M_bind at 1. rewrite auto_deal_eq by done. fold e2.
  unfold mbind at 1, M_bind at 1, gets at 1. cbv beta iota.
  unfold mbind at 1, M_bind at 1, gets at 1. cbv beta iota zeta.
  unfold worker_events, after_clearing. simpl pub_phase.
  destruct (decide (g_phase (e_state e2) = SETTLE)) as [E|E].
  - rewrite bool_decide_eq_true_2 by done.
    destruct (settle_step e2 H2 E) as (Ec & _ & _ & Hst).
    unfold mbind at 1, M_bind at 1. rewrite Ec. unfold mbind, M_bind, gets, mret, M_ret.
    rewrite !last_index_next. simpl pub_street. by destruct b.
  - rewrite bool_decide_eq_false_2 by done. by destruct b.
Qed.

End Worker.



Definition reserved_keys (evs : list WorkerEvent) : list (Street * nat) :=
  omap (λ ev, match ev with SettlementReserve st i => Some (st, i) | _ => None end) evs.
Definition committed_keys (evs : list WorkerEvent) : list (Street * nat) :=
  omap (λ ev, match ev with SettlementCommit st i => Some (st, i) | _ => None end) evs.

(** The settlement row of a finished hand is never committed. When an action
    ends a hand, the worker reserves the settlement under the street and log
    index of the final state, then clears the hand, which adds a log entry and
    returns to [preflop], and commits under the new street and index: the
    committed key is another one, so the reserved row stays reserved. *)
Lemma worker_commits_another_key (sha256 : list Z → list Z) (seed nonce : list Z) (ids : list string)
    (stack : Z) (acts : list GameAction) (a : GameAction) (fuel : nat)
    (Hids : (2 ≤ length ids)%nat) (Hdeck : (2 * length ids + 5 ≤ length standardDeck)%nat)
    (Hstack : 0 <= stack) (Hfuel : (2 ≤ fuel)%nat)
    (e := run_engine sha256 acts (new_engine sha256 seed nonce ids stack))
    (Hends : ∃ s, fst (applyAction sha256 a e) = Ret s ∧ g_phase s = SETTLE) :
  ∃ evs e' i,
    worker_apply sha256 fuel (λ _, true) true a e = (Ret evs, e') ∧
    i = length (hl_entries (e_log e)) ∧
    reserved_keys evs = [(g_street (e_state (snd (applyAction sha256 a e))), i)] ∧
    committed_keys evs = [(preflop, S i)].
Proof.
  pose proof (engine_inv_run sha256 seed nonce ids stack Hids Hstack acts) as H.
  unfold fresh in H. fold e in H.
  pose proof (engine_inv_step sha256 seed nonce ids stack Hids Hstack a e H) as H1.
  destruct Hends as (s & Hs & Hph).
  assert (applyAction sha256 a e = (Ret (e_state (engine_next sha256 a e)), engine_next sha256 a e)) as Ea.
  { rewrite applyAction_eq in Hs |- * by (by eapply engine_inv_chips).
    by destruct (fst (hsm_apply _ _ a _)). }
  rewrite Ea in Hs, H1 |- *. simpl in Hs, H1 |- *. injection Hs as <-.
  destruct fuel as [|[|fuel]]; [lia | lia |].
  pose proof (worker_apply_eq sha256 seed nonce ids stack Hids Hdeck Hstack fuel true a e _ _ H Ea) as Ew.
  set (e1 := engine_next sha256 a e) in *.
  simpl in Ew. unfold after_dealing, after_clearing in Ew.
  rewrite (decide_False (P := g_phase (e_state e1) = DEAL)) in Ew by (by rewrite Hph).
  rewrite !(decide_True (P := g_phase (e_state e1) = SETTLE)) in Ew by done.
  destruct (settle_step sha256 seed nonce ids stack Hids Hstack e1 H1 Hph) as (_ & _ & _ & Hst).
  assert (length (hl_entries (e_log e1)) = S (length (hl_entries (e_log e)))) as Hlen.
  { unfold e1. rewrite engine_next_entries, length_app. simpl. lia. }
  assert (last_index 0 e1 = length (hl_entries (e_log e))) as Hl1 by (unfold e1; apply last_index_next).
  eexists _, _, _. split; [exact Ew|]. split; [reflexivity|].
  unfold worker_events. rewrite decide_True by done. rewrite last_index_next, Hst, Hlen.
  rewrite Hl1. done.
Qed.

Lemma worker_commits_another_key_witness :
  ∃ evs e' i,
    worker_apply (λ _, [1; 2; 3; 4]) 2 (λ _, true) true (FoldAction "a"%string)
      (run_engine (λ _, [1; 2; 3; 4]) (engine_demo ++ [RaiseAction "b" 10]%string)
         (new_engine (λ _, [1; 2; 3; 4]) [5] [6] ["a"; "b"]%string 100)) = (Ret evs, e') ∧
    i = 5%nat ∧ reserved_keys evs = [(preflop, i)] ∧ committed_keys evs = [(preflop, S i)].
Proof.
  refine (worker_commits_another_key (λ _, [1; 2; 3; 4]) [5] [6] ["a"; "b"]%string 100
    (engine_demo ++ [RaiseAction "b" 10]%string) (FoldAction "a"%string) 2 _ _ _ _ _).
  - repeat constructor.
  - vm_compute. repeat constructor.
  - lia.
  - repeat constructor.
  - eexists. split; vm_compute; reflexivity.
Defined.

(** A hand played to the turn, where an operator turns dealing off, and on again. *)
Definition halted_table : GameEngine :=
  let sha := λ _, [1; 2; 3; 4] in
  let apply d a e := snd (worker_apply sha 2 (λ _, d) true a e) in
  apply true (PostBlind "b" 1)%string (apply true (PostBlind "a" 1)%string
    (apply false NextAction
      (foldl (λ e a, apply true a e) (new_engine sha [5] [6] ["a"; "b"]%string 100)
        [PostBlind "a" 1; PostBlind "b" 1; NextAction]%string))).

(** Turning dealing off on the turn stops the table for good. The reset
    returns to the blinds with an empty board but keeps the street; the next
    deal then expects three board cards and throws. From there the worker
    rejects every action, whatever the flags, and nothing changes any more. *)
Lemma reset_on_turn_stops_the_table :
  g_phase (e_state halted_table) = DEAL ∧ g_street (e_state halted_table) = turn ∧
  g_communityCards (e_state halted_table) = [] ∧
  ∀ fuel dealing settlement a, ∃ x,
    worker_apply (λ _, [1; 2; 3; 4]) fuel dealing settlement a halted_table = (Throw x, halted_table).
Proof.
  split; [vm_compute; reflexivity|]. split; [vm_compute; reflexivity|]. split; [vm_compute; reflexivity|].
  intros fuel dealing settlement a.
  assert (∃ x, applyAction (λ _, [1; 2; 3; 4]) a halted_table = (Throw x, halted_table)) as [x E].
  { destruct a; eexists; vm_compute; reflexivity. }
  exists x. unfold worker_apply. unfold mbind at 1, M_bind at 1, gets at 1. cbv beta iota.
  by rewrite (bind_throw _ _ _ _ _ E).
Qed.
