(* ===== verification/EngineWallet.v ===== *)
(** * The engine's money: buy-in, hand ledger, settlement

    The wallet side of backend/src/game/engine/index.ts ([reserveStacks], the
    wallet part of [settle]) and backend/src/wallet/hand-ledger.ts, over the
    wallet of WalletModel.v and the journal entries of Engine.v. *)

From S2P Require Import Prelude Fairness HandEval SidePots StateMachine Store JsText WalletModel WalletCash WalletLedger WalletFlows Engine EngineSafety.
#[local] Open Scope Z_scope.

Definition street_name (st : Street) : string :=
  match st with
  | preflop => "preflop" | flop => "flop" | turn => "turn" | river => "river" | showdown => "showdown"
  end.

(** What the engine announces after a settlement. *)
Inductive HandEvent :=
| HandStart (handId : string) (players : list string)
| HandSettle (handId : string) (playerIds : list string) (deltas : list Z)
| LeaderboardHandSettled (handId : string) (playerIds : list string) (deltas : list Z)
| HandEnd (handId : string) (winners : list string).

Definition settle_events (handId : string) (entries : list SettlementEntry) : list HandEvent :=
  [HandSettle handId (se_playerId <$> entries) (se_delta <$> entries);
   LeaderboardHandSettled handId (se_playerId <$> entries) (se_delta <$> entries);
   HandEnd handId (se_playerId <$> filter (λ e, 0 < se_delta e) entries)].

Section EngineWallet.
Context {T : Type → Type} `{!TableOps T} {R : Type} `{!RedisOps R CachedValue}
  {B : Type} `{!BusOps B WalletEvent} (env : WalletEnv).
Abbreviation WM := (M (WalletState T R B)).
Abbreviation W := (WalletState T R B).

(** [dataSource.transaction]: a throw undoes the tables the repositories write,
    not the cache or the events. *)
Definition restore_tables (old w : W) : W :=
  WalletWorld (accounts old) (journals old) (disbursements old) (settlements old)
    (pendingDeposits w) (depositIbans w) (ibanHistory w) (redis w) (bus w) (payoutJobs w)
    (pendingJobs w) (acknowledgedMismatches w) (uuids w) (http_calls w) (now w).
Definition transaction (body : WM unit) : WM unit := λ w,
  match body w with
  | (Ret a, w') => (Ret a, w')
  | (Throw e, w') => (Throw e, restore_tables w w')
  end.

Definition loss (e : SettlementEntry) : Z := if se_delta e <? 0 then - se_delta e else 0.

Definition writeHandLedger (handId : string) (st : Street) (idx : nat)
    (settlements : list SettlementEntry) (currency : string) : WM unit :=
  let key := buildKey handId (street_name st) (str_of_Z (Z.of_nat idx)) in
  transaction (
    for_each settlements (λ e,
      when (se_delta e <? 0) (reserve env (se_playerId e) (- se_delta e) key currency (Some key))) ;;
    when (0 <? sum_by loss settlements)
      (commit env key (sum_by loss settlements) 0 currency (Some key))).

Definition reserveStacks (players : list PlayerStateInternal) (handId currency : string) : WM unit :=
  for_each players (λ p, reserve env (p_id p) (p_stack p) handId currency None).

(** The loop over the journal entries: a refund for every player with anything
    left of the buy-in; the counter and the total loss are its local variables. *)
Fixpoint refund_loop (initial : gmap string Z) (handId : string) (st : Street) (currency : string)
    (idx : nat) (totalLoss : Z) (entries : list SettlementEntry) : WM (nat * Z) :=
  match entries with
  | [] => mret (idx, totalLoss)
  | e :: rest =>
      let refund := default 0 (initial !! se_playerId e) - loss e in
      let i := str_of_Z (Z.of_nat idx) in
      if 0 <? refund then
        settlement_reserve env handId (street_name st) i ;;
        rollback env (se_playerId e) refund handId currency (Some (buildKey handId (street_name st) i)) ;;
        refund_loop initial handId st currency (S idx) (totalLoss + loss e) rest
      else refund_loop initial handId st currency idx (totalLoss + loss e) rest
  end.

(** The wallet calls of [settle], with a data source. *)
Definition settle_wallet (initial : gmap string Z) (handId : string) (st : Street) (currency : string)
    (entries : list SettlementEntry) : WM unit :=
  writeHandLedger handId st 0 entries currency ;;
  r ← refund_loop initial handId st currency 0 0 entries;
  let i := str_of_Z (Z.of_nat (fst r)) in
  when (0 <? snd r)
    (settlement_reserve env handId (street_name st) i ;;
     commit env handId (snd r) 0 currency (Some (buildKey handId (street_name st) i))).

(** A hand with a wallet: the buy-ins at [create], then [settle] on the journal
    entries the engine recorded. *)
Definition hand_money (e0 e : GameEngine) (handId currency : string) : WM unit :=
  reserveStacks (g_players (e_state e0)) handId currency ;;
  settle_wallet (e_initialStacks e) handId (g_street (e_state e)) currency (e_settlement e).
End EngineWallet.

(** ** One hand *)

Definition money_engine : GameEngine := new_engine (λ _, [1; 2; 3; 4]) [5] [6] ["alice"; "bob"]%string 100.
(** Both blinds, a raise to 20 over the blind, a call, and a fold on the flop:
    alice loses 20 to bob. *)
Definition money_hand : list GameAction :=
  [PostBlind "alice" 10; PostBlind "bob" 10; NextAction; BetAction "bob" 10; CallAction "alice";
   FoldAction "alice"]%string.

Lemma money_hand_entries :
  e_settlement (run_engine (λ _, [1; 2; 3; 4]) money_hand money_engine)
  = [{| se_playerId := "alice"; se_delta := -20 |}; {| se_playerId := "bob"; se_delta := 20 |}]%string.
Proof. vm_compute. reflexivity. Qed.

(** a hand's winner is not paid what it won. Two players hold 300 each and play
    one hand with stacks of 100, in which bob wins 20 from alice. Buy-ins and
    settlement all succeed, yet bob's buy-in is never taken (its reserve repeats
    the journal hash of alice's), alice's loss is posted twice and both times to
    the prize account, and no posting credits a win: alice ends with 260 instead
    of 280, bob with 400 instead of 320, and the reserve account 100 short. *)
Lemma settled_hand_pays_wrong_amounts :
  let e := run_engine (λ _, [1; 2; 3; 4]) money_hand money_engine in
  let w := snd (hand_money demo_env money_engine e "hand-1" "USD" funded_world) in
  fst (hand_money demo_env money_engine e "hand-1" "USD" funded_world) = Ret tt ∧
  a_balance <$> accounts funded_world = [300; 300; 0; -600; 0; 0] ∧
  a_balance <$> accounts w = [260; 400; -100; -600; 0; 40].
Proof. vm_compute. split_and!; reflexivity. Qed.
