(* ===== verification/TournamentPay.v ===== *)
(** * Tournament arithmetic: prizes, bounties, ICM, bubble, table balance

    backend/src/tournament: pko.service.ts, rebuy.service.ts, the pure methods of
    tournament.service.ts ([balanceTables], [resolveBubbleElimination]), and
    shared/utils/icm.ts. Chips and prizes are integers; percentages, bounty
    fractions and ICM expectations are binary64 doubles (JsNum.v). *)

From S2P Require Import Prelude JsNum.
#[local] Open Scope Z_scope.

Definition sumZ_of (l : list Z) : Z := sum_by id l.

(** ** shared/utils/icm.ts *)

Definition dbl_zero : double := S754_zero false.

(** [icmRecursive]: the sums run in the order of the code, so that they round
    as its do. *)
Fixpoint icmRecursive (stacks prizes : list Z) : list double :=
  match prizes with
  | [] => replicate (length stacks) dbl_zero
  | p :: ps =>
      let total := dbl_of_Z (sumZ_of stacks) in
      foldl (λ res i,
        let prob := dbl_div (dbl_of_Z (default 0 (stacks !! i))) total in
        let res1 := alter (λ r, dbl_add r (dbl_mul (dbl_of_Z p) prob)) i res in
        match ps with
        | [] => res1
        | _ =>
            let sub := icmRecursive (delete i stacks) ps in
            foldl (λ r jv, alter (λ x, dbl_add x (dbl_mul jv.2 prob))
                             (if (i <=? jv.1)%nat then S jv.1 else jv.1) r)
              res1 (zip (seq 0 (length sub)) sub)
        end) (replicate (length stacks) dbl_zero) (seq 0 (length stacks))
  end.

Definition icmRaw (stacks prizes : list Z) : list double := icmRecursive stacks prizes.

(** The payouts; [IcmNaN] when an expectation is not a number (all stacks zero);
    [IcmTypeError] when more chips remain than there are players to round up. *)
Inductive IcmResult := IcmPayouts (payouts : list Z) | IcmNaN | IcmTypeError.

Definition frac_order (raw : list double) (floored : list Z) : list nat :=
  fst <$> js_sort (λ a b : nat * double, dbl_leb b.2 a.2)
    (imap (λ i vf, (i, dbl_sub vf.1 (dbl_of_Z vf.2))) (zip raw floored)).

Definition bump_all (order : list nat) (l : list Z) : list Z :=
  foldl (λ l i, alter (Z.add 1) i l) l order.

Definition calculateIcmPayouts (stacks prizes : list Z) : IcmResult :=
  let raw := icmRecursive stacks prizes in
  match mapM dbl_floor raw with
  | None => IcmNaN
  | Some floored =>
      let remainder := sumZ_of prizes - sumZ_of floored in
      let order := frac_order raw floored in
      if Z.of_nat (length order) <? remainder then IcmTypeError
      else IcmPayouts (bump_all (take (Z.to_nat remainder) order) floored)
  end.

(** ** pko.service.ts *)

(** For ['topN'] the payouts are fractions of the pool; for ['icm'], with stacks,
    they are the prizes. *)
Inductive PrizeMethod := TopN (payouts : list double) | Icm (stacks payouts : list Z).

Record PrizeOptions := { o_bountyPct : option double; o_satelliteSeatCost : option Z }.
Record PrizeResult := {
  pr_prizes : list Z; pr_bountyPool : option Z; pr_seats : option Z; pr_remainder : Z }.

(** [Math.floor(pool * pct)] *)
Definition floor_share (pool : Z) (pct : double) : option Z := dbl_floor (dbl_mul (dbl_of_Z pool) pct).

(** [while (remainder > 0) prizes[i % n] += 1]: with no prize the chips go to
    [prizes[NaN]], nobody's. *)
Fixpoint hand_out (fuel : nat) (i : nat) (prizes : list Z) : list Z :=
  match fuel with
  | O => prizes
  | S fuel' => hand_out fuel' (S i) (alter (Z.add 1) (i mod length prizes)%nat prizes)
  end.

(** The bounty pool: absent or a falsy fraction, none; [None] outside when the
    product is not a number. *)
Definition bounty_pool (prizePool : Z) (pct : option double) : option (option Z) :=
  match pct with
  | Some p => if dbl_eqb p dbl_zero then Some None else Some <$> floor_share prizePool p
  | None => Some None
  end.

(** The satellite seats a pool buys, and what is left of it. *)
Definition satellite_seats (pool : Z) (cost : option Z) : option Z * Z :=
  match cost with
  | Some c => if c =? 0 then (None, pool) else (Some (pool / c), pool - pool / c * c)
  | None => (None, pool)
  end.

(** [None] when an amount is not a number. *)
Definition calculatePrizes (prizePool : Z) (method : PrizeMethod) (opts : PrizeOptions)
    : option (outcome PrizeResult) :=
  bounty ← bounty_pool prizePool (o_bountyPct opts);
  let '(seats, pool) := satellite_seats (prizePool - default 0 bounty) (o_satelliteSeatCost opts) in
  let finish := λ prizes,
    let remainder := pool - sumZ_of prizes in
    Ret {| pr_prizes := hand_out (Z.to_nat remainder) 0 prizes;
           pr_bountyPool := bounty; pr_seats := seats; pr_remainder := Z.min remainder 0 |} in
  match method with
  | TopN payouts => finish <$> mapM (floor_share pool) payouts
  | Icm stacks payouts =>
      match calculateIcmPayouts stacks payouts with
      | IcmPayouts prizes => Some (finish prizes)
      | IcmNaN => None
      | IcmTypeError => Some (Throw "TypeError")
      end
  end.

Definition splitPrizePool (total : Z) (bountyPct : double) : option (Z * Z) :=
  (λ b, (total - b, b)) <$> floor_share total bountyPct.

(** Award and new bounty of a knockout. *)
Definition settleBounty (currentBounty : Z) : Z * Z :=
  let playerAward := currentBounty / 2 in (playerAward, currentBounty - playerAward).

(** ** rebuy.service.ts *)

Definition canRebuy (stack threshold : Z) : bool := stack <=? threshold.
Definition apply_rebuy (stack chips cost : Z) : Z * Z := (stack + chips, cost).

(** ** [resolveBubbleElimination] *)

Record Bust := { bust_id : string; bust_stack : Z }.

Definition resolveBubbleElimination (busts : list Bust) (prizes : list Z) : list (string * Z) :=
  let sorted := js_sort (λ a b, bust_stack b <=? bust_stack a) busts in
  let n := Z.of_nat (length sorted) in
  let pot := sumZ_of (take (length sorted) prizes) in
  let base := pot / n in
  let remainder := pot - base * n in
  imap (λ i p, (bust_id p, base + (if Z.of_nat i <? remainder then 1 else 0))) sorted.

(** ** [balanceTables] *)

Definition indexed {A} (l : list A) : list (nat * A) := imap pair l.

(** The first largest and the first smallest table. *)
Definition largest (ts : list (list string)) : nat * nat :=
  foldl (λ acc it, if (acc.1 <? length it.2)%nat then (length it.2, it.1) else acc) (0, 0)%nat (indexed ts).
Definition smallest (ts : list (list string)) : option nat * nat :=
  foldl (λ acc it, match acc.1 with
                   | Some m => if (length it.2 <? m)%nat then (Some (length it.2), it.1) else acc
                   | None => (Some (length it.2), it.1)
                   end) (None, 0%nat) (indexed ts).

(** The last eligible player of a table, and the table without it. *)
Fixpoint pick_player (ok : string → bool) (t : list string) : option (string * list string) :=
  match t with
  | [] => None
  | x :: t' =>
      match pick_player ok t' with
      | Some (p, rest) => Some (p, x :: rest)
      | None => if ok x then Some (x, t') else None
      end
  end.

(** [currentHand - (recentlyMoved.get(p) ?? -Infinity) >= avoidWithin] *)
Definition may_move (moved : gmap string Z) (currentHand avoidWithin : Z) (p : string) : bool :=
  match moved !! p with Some h => avoidWithin <=? currentHand - h | None => true end.

(** The tables, and the map of recent moves the caller shares. [None]: not done
    within the fuel. An empty player id counts as no player. *)
Fixpoint balance_loop (fuel : nat) (currentHand avoidWithin : Z) (moved : gmap string Z)
    (result : list (list string)) : option (list (list string) * gmap string Z) :=
  match fuel with
  | O => None
  | S fuel' =>
      let '(max, maxIdx) := largest result in
      let '(min, minIdx) := smallest result in
      if (max <=? default max min + 1)%nat then Some (result, moved)
      else
        match pick_player (may_move moved currentHand avoidWithin) (default [] (result !! maxIdx)) with
        | None => Some (result, moved)
        | Some (player, rest) =>
            let taken := <[maxIdx := rest]> result in
            if bool_decide (player = ""%string) then Some (taken, moved)
            else balance_loop fuel' currentHand avoidWithin (<[player := currentHand]> moved)
                   (alter (λ t, t ++ [player]) minIdx taken)
        end
  end.

Definition table_squares (ts : list (list string)) : nat := sum_list ((λ t, length t * length t)%nat <$> ts).

Definition balanceTables (tables : list (list string)) (moved : gmap string Z)
    (currentHand avoidWithin : Z) : option (list (list string) * gmap string Z) :=
  balance_loop (S (table_squares tables)) currentHand avoidWithin moved tables.

(** ** Chips handed out one at a time *)

Definition bump : nat → list Z → list Z := alter (Z.add 1).

Lemma length_bump i l : length (bump i l) = length l.
Proof. apply length_alter. Qed.

Lemma lookup_bump i k (l : list Z) : bump i l !! k = (λ v, if decide (i = k) then 1 + v else v) <$> l !! k.
Proof.
  unfold bump. case_decide as E.
  - subst. apply list_lookup_alter_eq.
  - rewrite list_lookup_alter_ne by done. by destruct (l !! k).
Qed.

Lemma sum_bump i (l : list Z) : (i < length l)%nat → sumZ_of (bump i l) = sumZ_of l + 1.
Proof.
  unfold sumZ_of, bump. revert i; induction l as [|x l IH]; intros [|i] Hi; simpl in Hi; try lia.
  - change (alter (Z.add 1) 0%nat (x :: l)) with (1 + x :: l). rewrite !sum_by_cons. simpl. lia.
  - change (alter (Z.add 1) (S i) (x :: l)) with (x :: alter (Z.add 1) i l).
    rewrite !sum_by_cons, IH by lia. lia.
Qed.

Lemma length_bump_all order l : length (bump_all order l) = length l.
Proof.
  unfold bump_all. revert l; induction order as [|i order IH]; intros l; [done|].
  simpl. rewrite IH. apply length_bump.
Qed.

Lemma sum_bump_all order (l : list Z) :
  Forall (λ i, (i < length l)%nat) order → sumZ_of (bump_all order l) = sumZ_of l + Z.of_nat (length order).
Proof.
  unfold bump_all. revert l; induction order as [|i order IH]; intros l H; [simpl; lia|].
  apply Forall_cons in H as [Hi Ho]. simpl. change (alter (Z.add 1) i l) with (bump i l).
  rewrite IH by (by rewrite length_bump). rewrite sum_bump by done. lia.
Qed.

Lemma lookup_bump_all order (l : list Z) k :
  NoDup order → bump_all order l !! k = (λ v, if decide (k ∈ order) then 1 + v else v) <$> l !! k.
Proof.
  unfold bump_all. revert l; induction order as [|i order IH]; intros l Hn.
  - simpl. destruct (l !! k); [|done]. reflexivity.
  - apply NoDup_cons in Hn as [Hi Hn]. simpl. change (alter (Z.add 1) i l) with (bump i l).
    rewrite IH, lookup_bump by done. destruct (l !! k); [|done]. simpl. f_equal.
    destruct (decide (i = k)) as [->|Hne].
    + rewrite decide_False by done. rewrite decide_True; [done|]. apply elem_of_cons; by left.
    + destruct (decide (k ∈ order)) as [H|H].
      * rewrite decide_True; [done|]. apply elem_of_cons; by right.
      * rewrite decide_False; [done|]. rewrite elem_of_cons. intros [?|?]; congruence.
Qed.

(** [hand_out] goes round the prizes: after [fuel] chips every place has
    [fuel / n] and the first [fuel mod n] places one more. *)
Lemma hand_out_bumps fuel i l :
  hand_out fuel i l = foldl (λ l j, bump (j mod length l) l) l (seq i fuel).
Proof. revert i l; induction fuel as [|fuel IH]; intros i l; [done|]. simpl. by rewrite IH. Qed.

Lemma round_robin_step f n k : (k < n)%nat →
  (S f / n + (if decide (k < S f mod n) then 1 else 0)
   = f / n + (if decide (k < f mod n) then 1 else 0) + (if decide (f mod n = k) then 1 else 0))%nat.
Proof.
  intros Hk. pose proof (Nat.div_mod_eq f n) as Hf. pose proof (Nat.mod_upper_bound f n ltac:(lia)) as Hb.
  set (q := (f / n)%nat) in *. set (r := (f mod n)%nat) in *.
  destruct (decide (S r = n)) as [E|E].
  - assert (S f / n = S q)%nat as -> by (symmetry; apply (Nat.div_unique _ _ _ 0); lia).
    assert (S f mod n = 0)%nat as -> by (symmetry; apply (Nat.mod_unique _ _ (S q)); lia).
    repeat case_decide; lia.
  - assert (S f / n = q)%nat as -> by (symmetry; apply (Nat.div_unique _ _ _ (S r)); lia).
    assert (S f mod n = S r)%nat as -> by (symmetry; apply (Nat.mod_unique _ _ q); lia).
    repeat case_decide; lia.
Qed.

Lemma hand_out_spec fuel l :
  length (hand_out fuel 0 l) = length l ∧
  (l ≠ [] → sumZ_of (hand_out fuel 0 l) = sumZ_of l + Z.of_nat fuel) ∧
  ∀ k v, l !! k = Some v →
    hand_out fuel 0 l !! k
    = Some (v + Z.of_nat (fuel / length l + (if decide (k < fuel mod length l) then 1 else 0))%nat).
Proof.
  rewrite hand_out_bumps. induction fuel as [|f (Hl & Hs & Hk)].
  - split_and!; [done | simpl; lia |]. intros k v Hv. simpl foldl. rewrite Hv.
    rewrite Nat.Div0.div_0_l, Nat.Div0.mod_0_l. f_equal. case_decide; lia.
  - rewrite seq_S, foldl_app. simpl. set (l' := foldl _ l (seq 0 f)) in *. split_and!.
    + by rewrite length_bump.
    + intros Hne. rewrite sum_bump, Hs by (done || (apply Nat.mod_upper_bound; rewrite Hl; by destruct l)). lia.
    + intros k v Hv. rewrite lookup_bump, (Hk k v Hv), Hl. simpl. f_equal.
      pose proof (round_robin_step f (length l) k ltac:(by eapply lookup_lt_Some)).
      destruct (decide (f mod length l = k)%nat); lia.
Qed.

(** ** Prizes *)

(** the prize pool is paid out to the last chip. Whenever the bounty and the
    shares are numbers, the prizes, the bounty pool and the satellite seats add
    up to the prize pool (to more only if the percentages ask for more, by the
    reported negative remainder); a place gets its share, rounded down, and the
    chips lost to rounding go round the places, starting from the first. *)
Lemma prizes_pay_whole_pool (prizePool : Z) (payouts : list double) (opts : PrizeOptions)
    (bounty seats : option Z) (pool : Z) (shares : list Z)
    (Hb : bounty_pool prizePool (o_bountyPct opts) = Some bounty)
    (Hseats : satellite_seats (prizePool - default 0 bounty) (o_satelliteSeatCost opts) = (seats, pool))
    (Hshares : mapM (floor_share pool) payouts = Some shares) (Hsome : payouts ≠ []) :
  ∃ r, calculatePrizes prizePool (TopN payouts) opts = Some (Ret r) ∧
    sumZ_of (pr_prizes r) + default 0 (pr_bountyPool r)
      + default 0 (pr_seats r) * default 0 (o_satelliteSeatCost opts) + pr_remainder r = prizePool ∧
    pr_remainder r = Z.min 0 (pool - sumZ_of shares) ∧
    ∀ k share, shares !! k = Some share →
      let extra := Z.to_nat (pool - sumZ_of shares) in
      pr_prizes r !! k
      = Some (share + Z.of_nat (extra / length payouts
                                + (if decide (k < extra mod length payouts) then 1 else 0))%nat).
Proof.
  assert (length shares = length payouts) as Hlen by (symmetry; by eapply length_mapM).
  destruct (hand_out_spec (Z.to_nat (pool - sumZ_of shares)) shares) as (_ & Hsum & Hk).
  eexists. split; [|split_and!].
  - unfold calculatePrizes. rewrite Hb. simpl. rewrite Hseats, Hshares. reflexivity.
  - simpl. rewrite Hsum by (by destruct shares, payouts).
    assert (default 0 seats * default 0 (o_satelliteSeatCost opts) + pool = prizePool - default 0 bounty); [|lia].
    revert Hseats. unfold satellite_seats. destruct (o_satelliteSeatCost opts) as [c|]; simpl.
    + destruct (c =? 0); intros [= <- <-]; simpl; lia.
    + intros [= <- <-]. simpl. lia.
  - simpl. lia.
  - intros k share Hs. simpl. by rewrite (Hk k share Hs), Hlen.
Qed.

Lemma prizes_pay_whole_pool_witness :
  let pct := dbl_div (dbl_of_Z 1) (dbl_of_Z 3) in
  ∃ r, calculatePrizes 100 (TopN [pct; pct; pct])
         {| o_bountyPct := Some (dbl_div (dbl_of_Z 1) (dbl_of_Z 2)); o_satelliteSeatCost := None |}
       = Some (Ret r) ∧ sumZ_of (pr_prizes r) + 50 = 100.
Proof.
  intros pct.
  destruct (prizes_pay_whole_pool 100 [pct; pct; pct]
    {| o_bountyPct := Some (dbl_div (dbl_of_Z 1) (dbl_of_Z 2)); o_satelliteSeatCost := None |}
    (Some 50) None 50 [16; 16; 16]) as (r & E & _); try (vm_compute; reflexivity).
  - discriminate.
  - exists r. split; [exact E|]. revert E. vm_compute. intros [= <-]. reflexivity.
Defined.

(** ** ICM *)

Lemma length_foldl_alter {A B} (f : A → B → B) (g : A → nat) (l : list A) (r : list B) :
  length (foldl (λ r a, alter (f a) (g a) r) r l) = length r.
Proof. revert r; induction l as [|a l IH]; intros r; [done|]. simpl. rewrite IH. apply length_alter. Qed.

Lemma length_icm stacks prizes : length (icmRecursive stacks prizes) = length stacks.
Proof.
  destruct prizes as [|p ps]; [apply length_replicate|]. cbn [icmRecursive].
  set (step := λ (res : list double) (i : nat), _).
  assert (∀ idxs res, length (foldl step res idxs) = length res) as H.
  { induction idxs as [|i idxs IH]; intros res; [done|]. simpl. rewrite IH. unfold step.
    destruct ps as [|p' ps']; [apply length_alter|].
    etrans; [apply length_foldl_alter | apply length_alter]. }
  rewrite H. apply length_replicate.
Qed.

Lemma frac_order_perm raw floored :
  length raw = length floored → frac_order raw floored ≡ₚ seq 0 (length floored).
Proof.
  intros Hl. unfold frac_order. rewrite js_sort_perm.
  assert (fst <$> imap (λ i vf, (i, dbl_sub vf.1 (dbl_of_Z vf.2))) (zip raw floored)
          = seq 0 (length floored)) as ->; [|done].
  apply list_eq. intros i. rewrite list_lookup_fmap, list_lookup_imap.
  destruct (decide (i < length floored)%nat) as [Hi|Hi].
  - rewrite lookup_seq_lt by done.
    destruct (lookup_lt_is_Some_2 (zip raw floored) i) as [x Hx]; [|by rewrite Hx].
    rewrite length_zip_with. lia.
  - rewrite lookup_seq_ge by lia. rewrite lookup_ge_None_2; [done|]. rewrite length_zip_with. lia.
Qed.

(** ICM payouts add up, and differ from the expectation by less than a chip.
    Let the expectations be numbers and [R] the chips left after rounding them
    down. If there are at most as many as players, every player gets the
    rounded expectation or one chip more, and exactly [max 0 R] of them one
    more, so that the payouts are all the prizes. If there are more -- as with
    more prizes than players -- the call throws. *)
Lemma icm_payouts_add_up (stacks prizes floored : list Z)
    (Hf : mapM dbl_floor (icmRaw stacks prizes) = Some floored) :
  let R := sumZ_of prizes - sumZ_of floored in
  (R <= Z.of_nat (length stacks) → ∃ payouts,
     calculateIcmPayouts stacks prizes = IcmPayouts payouts ∧
     sumZ_of payouts = sumZ_of floored + Z.max 0 R ∧
     Forall2 (λ f v, v = f ∨ v = f + 1) floored payouts) ∧
  (Z.of_nat (length stacks) < R → calculateIcmPayouts stacks prizes = IcmTypeError).
Proof.
  intros R. unfold calculateIcmPayouts. unfold icmRaw in Hf. rewrite Hf. fold R.
  assert (length floored = length stacks) as Hl
    by (rewrite <- (length_icm stacks prizes); symmetry; by eapply length_mapM).
  pose proof (frac_order_perm (icmRecursive stacks prizes) floored) as Hp.
  rewrite length_icm in Hp. specialize (Hp (eq_sym Hl)). set (order := frac_order _ _) in *.
  assert (length order = length stacks) as Ho by (rewrite Hp, length_seq; done).
  rewrite Ho. split; intros HR.
  2: { by destruct (Z.ltb_spec (Z.of_nat (length stacks)) R); [|lia]. }
  destruct (Z.ltb_spec (Z.of_nat (length stacks)) R); [lia|].
  eexists. split; [done|].
  assert (NoDup order) as Hnd by (rewrite Hp; apply NoDup_seq).
  assert (NoDup (take (Z.to_nat R) order)) as Hnd'
    by (eapply sublist_NoDup; [exact Hnd | apply sublist_take]).
  split.
  - assert (Forall (λ i, (i < length floored)%nat) (take (Z.to_nat R) order)) as Hin.
    { apply Forall_take, Forall_forall. intros i Hi. rewrite Hp in Hi. apply elem_of_seq in Hi. lia. }
    rewrite sum_bump_all, length_take, Ho by done. lia.
  - apply Forall2_same_length_lookup_2; [by rewrite length_bump_all|].
    intros i f v Hfi Hv. rewrite lookup_bump_all, Hfi in Hv by done. simpl in Hv.
    injection Hv as <-. case_decide; [right; lia | by left].
Qed.

Lemma icm_payouts_add_up_witness :
  (∃ payouts, calculateIcmPayouts [5000; 3000; 2000] [50; 30; 20] = IcmPayouts payouts ∧
     sumZ_of payouts = 100) ∧
  calculateIcmPayouts [60; 40] [50; 30; 20] = IcmTypeError.
Proof.
  split.
  - destruct (icm_payouts_add_up [5000; 3000; 2000] [50; 30; 20] [38; 32; 28]) as [H _];
      [vm_compute; reflexivity|].
    destruct H as (p & E & Hs & _); [vm_compute; discriminate|].
    exists p. split; [exact E|]. rewrite Hs. reflexivity.
  - apply (icm_payouts_add_up [60; 40] [50; 30; 20] [42; 38]); vm_compute; reflexivity.
Defined.

(** ** Bubble *)

Lemma sum_indicator n m :
  0 <= m <= Z.of_nat n → sum_by (λ i, if Z.of_nat i <? m then 1 else 0) (seq 0 n) = m.
Proof.
  cut (0 <= m → sum_by (λ i, if Z.of_nat i <? m then 1 else 0) (seq 0 n) = Z.min m (Z.of_nat n)).
  { intros H Hm. rewrite H by lia. lia. }
  intros Hm. induction n as [|n IH]; [simpl; rewrite sum_by_nil; lia|].
  rewrite seq_S, sum_by_app, IH, sum_by_cons, sum_by_nil. simpl.
  destruct (Z.ltb_spec (Z.of_nat n) m); lia.
Qed.

(** players who bust together on the bubble share the prizes of the places
    they take. The shares add up to those prizes, any two differ by at most one
    chip, and the odd chips go to the largest stacks. *)
Lemma bubble_shares_prizes (busts : list Bust) (prizes : list Z) (Hsome : busts ≠ []) :
  let r := resolveBubbleElimination busts prizes in
  let pot := sumZ_of (take (length busts) prizes) in
  let n := Z.of_nat (length busts) in
  sumZ_of r.*2 = pot ∧
  (∃ sorted, sorted ≡ₚ busts ∧ StronglySorted (λ a b, bust_stack b <= bust_stack a) sorted ∧
     r.*1 = bust_id <$> sorted) ∧
  ∀ i prize, r.*2 !! i = Some prize → prize = pot / n + (if Z.of_nat i <? pot mod n then 1 else 0).
Proof.
  intros r pot n.
  set (sorted := js_sort (λ a b, bust_stack b <=? bust_stack a) busts).
  assert (length sorted = length busts) as Hl by apply js_sort_length.
  assert (0 < n) as Hn by (unfold n; destruct busts; [done | simpl; lia]).
  assert (pot - pot / n * n = pot mod n) as Hmod by (rewrite Z.mod_eq by lia; lia).
  assert (r = imap (λ i p, (bust_id p, pot / n + (if Z.of_nat i <? pot mod n then 1 else 0))) sorted) as Hr.
  { unfold r, resolveBubbleElimination. fold sorted. rewrite Hl. fold pot n. by rewrite Hmod. }
  assert (r.*2 = (λ i, pot / n + (if Z.of_nat i <? pot mod n then 1 else 0)) <$> seq 0 (length busts)) as Hr2.
  { rewrite Hr, <- Hl. apply list_eq. intros i. rewrite !list_lookup_fmap, list_lookup_imap.
    destruct (decide (i < length sorted)%nat) as [Hi|Hi].
    - rewrite lookup_seq_lt by done. by destruct (lookup_lt_is_Some_2 sorted i Hi) as [x ->].
    - rewrite lookup_seq_ge by lia. by rewrite (lookup_ge_None_2 sorted) by lia. }
  pose proof (Z.mod_pos_bound pot n Hn) as Hb. split_and!.
  - rewrite Hr2. unfold sumZ_of. rewrite sum_by_fmap.
    rewrite (sum_by_add (λ _, pot / n) (λ i, if Z.of_nat i <? pot mod n then 1 else 0)), sum_by_const, sum_indicator, length_seq by (fold n; lia). fold n.
    pose proof (Z.div_mod pot n). lia.
  - exists sorted. split_and!; [apply js_sort_perm | |].
    + assert (StronglySorted (λ a b, (bust_stack b <=? bust_stack a) = true) sorted) as Hs.
      { apply (js_sort_sorted (λ a b, bust_stack b <=? bust_stack a)); intros *; rewrite !Z.leb_le; lia. }
      clear -Hs. induction Hs as [|a l _ IH Ha]; constructor; [done|].
      eapply Forall_impl; [exact Ha|]. intros b. apply Z.leb_le.
    + rewrite Hr. apply list_eq. intros i. rewrite !list_lookup_fmap, list_lookup_imap.
      by destruct (sorted !! i).
  - intros i prize. rewrite Hr2, list_lookup_fmap. intros (j & Hj & ->)%fmap_Some.
    by apply lookup_seq in Hj as [-> _].
Qed.

Lemma bubble_shares_prizes_witness :
  let busts := [{| bust_id := "a"; bust_stack := 5 |}; {| bust_id := "b"; bust_stack := 9 |}]%string in
  resolveBubbleElimination busts [7; 4; 3] = [("b", 6); ("a", 5)]%string ∧
  sumZ_of (resolveBubbleElimination busts [7; 4; 3]).*2 = 11.
Proof.
  split; [vm_compute; reflexivity|].
  apply (bubble_shares_prizes [{| bust_id := "a"; bust_stack := 5 |}; {| bust_id := "b"; bust_stack := 9 |}]%string
    [7; 4; 3]). discriminate.
Defined.

(** ** Table balance *)

Lemma indexed_snoc {A} (l : list A) x : indexed (l ++ [x]) = indexed l ++ [(length l, x)].
Proof. unfold indexed. rewrite imap_app. simpl. by rewrite Nat.add_0_r. Qed.

Lemma largest_spec ts :
  Forall (λ t, (length t ≤ (largest ts).1)%nat) ts ∧
  ((0 < (largest ts).1)%nat → ∃ t, ts !! (largest ts).2 = Some t ∧ length t = (largest ts).1).
Proof.
  induction ts as [|t ts [IHa IHb]] using rev_ind; [split; [constructor | simpl; lia]|].
  assert (largest (ts ++ [t]) = if ((largest ts).1 <? length t)%nat then (length t, length ts) else largest ts) as ->.
  { unfold largest at 1. rewrite indexed_snoc, foldl_app. done. }
  destruct (Nat.ltb_spec (largest ts).1 (length t)) as [H|H]; simpl.
  - split.
    + apply Forall_app. split; [|by repeat constructor]. eapply Forall_impl; [exact IHa|]. simpl; lia.
    + intros _. exists t. by rewrite lookup_app_r, Nat.sub_diag by lia.
  - split; [apply Forall_app; split; [done | by repeat constructor]|].
    intros (t' & Ht & Hl)%IHb. exists t'. rewrite lookup_app_l by (by eapply lookup_lt_Some). done.
Qed.

Lemma smallest_spec ts :
  ts ≠ [] → ∃ t, (smallest ts).1 = Some (length t) ∧ ts !! (smallest ts).2 = Some t ∧
    Forall (λ t', (length t ≤ length t')%nat) ts.
Proof.
  induction ts as [|x ts IH] using rev_ind; [done|]. intros _.
  assert (smallest (ts ++ [x]) = match (smallest ts).1 with
    | Some m => if (length x <? m)%nat then (Some (length x), length ts) else smallest ts
    | None => (Some (length x), length ts) end) as ->.
  { unfold smallest at 1. rewrite indexed_snoc, foldl_app. done. }
  assert ((ts ++ [x]) !! length ts = Some x) as Hx by (by rewrite lookup_app_r, Nat.sub_diag).
  destruct (decide (ts = [])) as [->|Hne].
  { exists x. split_and!; [done | done | by repeat constructor]. }
  destruct (IH Hne) as (t & E & Ht & Hall). rewrite E.
  destruct (Nat.ltb_spec (length x) (length t)) as [H|H].
  - exists x. split_and!; [done | done |]. apply Forall_app. split; [|by repeat constructor].
    eapply Forall_impl; [exact Hall|]. simpl; lia.
  - exists t. split_and!; [done | rewrite lookup_app_l by (by eapply lookup_lt_Some); done |].
    apply Forall_app. split; [done | by repeat constructor].
Qed.

Lemma pick_player_spec ok t :
  match pick_player ok t with
  | Some (p, rest) => ok p = true ∧ ∃ l1 l2, t = l1 ++ p :: l2 ∧ rest = l1 ++ l2
  | None => Forall (λ p, ok p = false) t
  end.
Proof.
  induction t as [|x t IH]; simpl; [constructor|].
  destruct (pick_player ok t) as [[p rest]|].
  - destruct IH as (Ho & l1 & l2 & -> & ->). split; [done|]. by exists (x :: l1), l2.
  - destruct (ok x) eqn:E; [|by constructor]. split; [done|]. by exists [], t.
Qed.

Lemma concat_insert (ts : list (list string)) i t t' :
  ts !! i = Some t → concat (<[i := t']> ts) ++ t ≡ₚ concat ts ++ t'.
Proof.
  revert i; induction ts as [|x ts IH]; intros [|i] H; try done; simpl in *; simplify_eq.
  - solve_Permutation.
  - rewrite <- !app_assoc. by rewrite (IH i H).
Qed.

Lemma table_squares_cons t ts : table_squares (t :: ts) = (length t * length t + table_squares ts)%nat.
Proof. done. Qed.

Lemma squares_insert ts i t t' :
  ts !! i = Some t →
  (table_squares (<[i := t']> ts) + length t * length t = table_squares ts + length t' * length t')%nat.
Proof.
  revert i; induction ts as [|x ts IH]; intros [|i] H; try done.
  - injection H as ->. change (<[0%nat := t']> (t :: ts)) with (t' :: ts). rewrite !table_squares_cons. lia.
  - specialize (IH i H). change (<[S i := t']> (x :: ts)) with (x :: <[i := t']> ts).
    rewrite !table_squares_cons. lia.
Qed.

Lemma alter_insert {A} (f : A → A) i (l : list A) x : l !! i = Some x → alter f i l = <[i := f x]> l.
Proof.
  intros H. apply list_eq. intros j. destruct (decide (i = j)) as [<-|Hne].
  - rewrite list_lookup_alter_eq, list_lookup_insert_eq, H by (by eapply lookup_lt_Some). done.
  - by rewrite list_lookup_alter_ne, list_lookup_insert_ne.
Qed.

(** Any two tables differ by at most one player. *)
Definition balanced (ts : list (list string)) : Prop :=
  ∀ t t', t ∈ ts → t' ∈ ts → (length t ≤ length t' + 1)%nat.

(** A largest table none of whose players may move. *)
Definition blocked (ok : string → bool) (ts : list (list string)) : Prop :=
  ∃ t, t ∈ ts ∧ (∀ t', t' ∈ ts → (length t' ≤ length t)%nat) ∧ ∀ p, p ∈ t → ok p = false.

Section Balance.
Context (currentHand avoidWithin : Z).

(** Moving one player from a table of [a] to one of at most [a - 2]. *)
Lemma move_player ts i j l1 p l2 tmin :
  ts !! i = Some (l1 ++ p :: l2) → ts !! j = Some tmin →
  (length tmin + 1 < length (l1 ++ p :: l2))%nat →
  let ts' := alter (λ t, t ++ [p]) j (<[i := l1 ++ l2]> ts) in
  length ts' = length ts ∧ concat ts' ≡ₚ concat ts ∧ (table_squares ts' < table_squares ts)%nat.
Proof.
  intros Hi Hj Hlt ts'.
  assert (i ≠ j) as Hne by (intros ->; rewrite Hi in Hj; simplify_eq; lia).
  assert (<[i := l1 ++ l2]> ts !! j = Some tmin) as Hj' by (by rewrite list_lookup_insert_ne).
  assert (ts' = <[j := tmin ++ [p]]> (<[i := l1 ++ l2]> ts)) as E
    by (by apply (alter_insert (λ t, t ++ [p]))).
  split_and!.
  - by rewrite E, !length_insert.
  - pose proof (concat_insert _ _ _ (l1 ++ l2) Hi) as H1.
    pose proof (concat_insert _ _ _ (tmin ++ [p]) Hj') as H2. rewrite <- E in H2.
    apply (Permutation_app_inv_r (tmin ++ (l1 ++ p :: l2))).
    transitivity ((concat ts' ++ tmin) ++ (l1 ++ p :: l2)); [solve_Permutation|].
    rewrite H2. transitivity ((concat (<[i:=l1 ++ l2]> ts) ++ (l1 ++ p :: l2)) ++ tmin ++ [p]);
      [solve_Permutation|]. rewrite H1. solve_Permutation.
  - pose proof (squares_insert _ _ _ (l1 ++ l2) Hi) as H1.
    pose proof (squares_insert _ _ _ (tmin ++ [p]) Hj') as H2. rewrite <- E in H2.
    rewrite !length_app in *. simpl in *. nia.
Qed.

Lemma balance_loop_spec fuel moved ts :
  (table_squares ts < fuel)%nat → "" ∉ concat ts →
  ∃ ts' moved', balance_loop fuel currentHand avoidWithin moved ts = Some (ts', moved') ∧
    length ts' = length ts ∧ concat ts' ≡ₚ concat ts ∧
    (balanced ts' ∨ blocked (may_move moved' currentHand avoidWithin) ts') ∧
    (∀ p, moved' !! p = moved !! p ∨ (moved' !! p = Some currentHand ∧ p ∈ concat ts)).
Proof.
  revert moved ts; induction fuel as [|fuel IH]; intros moved ts Hf Hemp; [lia|].
  cbn [balance_loop]. destruct (largest_spec ts) as [Hmax Hat].
  destruct (largest ts) as [mx i] eqn:El. simpl in Hmax, Hat.
  destruct (smallest ts) as [mn j] eqn:Es.
  destruct (Nat.leb_spec mx (default mx mn + 1)) as [Hle|Hgt].
  { exists ts, moved. split_and!; [done | done | done | left | by left].
    intros t t' Ht Ht'. rewrite Forall_forall in Hmax. pose proof (Hmax t Ht).
    destruct (smallest_spec ts) as (tm & E1 & _ & Hmin); [intros ->; by apply elem_of_nil in Ht|].
    rewrite Es in E1. simpl in E1. subst. rewrite Forall_forall in Hmin. pose proof (Hmin t' Ht').
    simpl in Hle. lia. }
  destruct (smallest_spec ts) as (tm & E1 & Ej & _); [intros ->; vm_compute in El; simplify_eq; lia|].
  rewrite Es in E1, Ej. simpl in E1, Ej. subst mn. simpl in Hgt.
  destruct Hat as (t & Et & Hlt); [lia|]. rewrite Et. simpl.
  pose proof (pick_player_spec (may_move moved currentHand avoidWithin) t) as Hpick.
  destruct (pick_player _ t) as [[p rest]|].
  2: { exists ts, moved. split_and!; [done | done | done | right | by left].
    exists t. split_and!; [by eapply list_elem_of_lookup_2 | |by apply Forall_forall].
    intros t' Ht'. rewrite Forall_forall in Hmax. specialize (Hmax t' Ht'). simpl in Hmax. lia. }
  destruct Hpick as (_ & l1 & l2 & -> & ->).
  assert (p ∈ concat ts) as Hp.
  { apply list_elem_of_In, in_concat. exists (l1 ++ p :: l2). split; apply list_elem_of_In.
    - by eapply list_elem_of_lookup_2.
    - apply elem_of_app; right. apply elem_of_cons; by left. }
  rewrite bool_decide_eq_false_2 by (by intros ->).
  destruct (move_player ts i j l1 p l2 tm Et Ej ltac:(lia)) as (Hl & Hc & Hsq).
  destruct (IH (<[p := currentHand]> moved) (alter (λ t, t ++ [p]) j (<[i := l1 ++ l2]> ts)))
    as (ts' & moved' & E & Hl' & Hc' & Hdone & Hm); [lia | by rewrite Hc |].
  exists ts', moved'. split_and!; [exact E | congruence | by rewrite Hc' | exact Hdone |].
  intros q. destruct (Hm q) as [Hq|[Hq Hin]]; [|right; by rewrite <- Hc].
  destruct (decide (q = p)) as [->|Hne].
  - right. by rewrite Hq, lookup_insert_eq.
  - left. by rewrite Hq, lookup_insert_ne.
Qed.
End Balance.

(** C13: tables are balanced, or cannot be. [balanceTables] always ends; every
    player sits at exactly one of the same number of tables; and either no two
    tables differ by more than one player, or a largest table has only players
    who moved within the last [avoidWithin] hands. The shared map records the
    moved players at the current hand and is otherwise unchanged. *)
Theorem balanceTables_balances (tables : list (list string)) (moved : gmap string Z)
    (currentHand avoidWithin : Z) (Hids : "" ∉ concat tables) :
  ∃ result moved', balanceTables tables moved currentHand avoidWithin = Some (result, moved') ∧
    length result = length tables ∧ concat result ≡ₚ concat tables ∧
    (balanced result ∨ blocked (may_move moved' currentHand avoidWithin) result) ∧
    (∀ p, moved' !! p = moved !! p ∨ (moved' !! p = Some currentHand ∧ p ∈ concat tables)).
Proof. apply balance_loop_spec; [lia | done]. Qed.

Lemma balanceTables_balances_witness :
  ∃ result moved',
    balanceTables [["a"; "b"; "c"; "d"; "e"]; ["f"]; []]%string {[ "e"%string := 15 ]} 20 10
    = Some (result, moved') ∧
    concat result ≡ₚ ["a"; "b"; "c"; "d"; "e"; "f"]%string.
Proof.
  destruct (balanceTables_balances [["a"; "b"; "c"; "d"; "e"]; ["f"]; []]%string {[ "e"%string := 15 ]} 20 10)
    as (result & moved' & E & _ & Hc & _).
  - apply (bool_decide_eq_true_1 (_ ∉ _)). vm_compute. reflexivity.
  - exists result, moved'. split; [exact E | exact Hc].
Defined.
