(* ===== verification/Tournament.v ===== *)
(** * The tournament service

    backend/src/tournament: the operations of tournament.service.ts that change
    state (lifecycle, entry and withdrawal, levels, balancing, bubble),
    table-balancer.service.ts, redis.util.ts and the job times of
    scheduler.service.ts. Entry fees go through the wallet of WalletModel.v. *)

From S2P Require Import Prelude JsNum Store JsText WalletModel TournamentPay.
#[local] Open Scope Z_scope.

(** ** Entities *)

Inductive TournamentState := REG_OPEN | RUNNING | PAUSED | FINISHED | CANCELLED.
#[export] Instance TournamentState_eq_dec : EqDecision TournamentState.
Proof. solve_decision. Defined.

Definition state_name (s : TournamentState) : string :=
  match s with
  | REG_OPEN => "REG_OPEN" | RUNNING => "RUNNING" | PAUSED => "PAUSED"
  | FINISHED => "FINISHED" | CANCELLED => "CANCELLED"
  end.

Record Tournament := {
  t_id : string; t_title : string; t_buyIn : Z; t_currency : option string; t_prizePool : Z;
  t_maxPlayers : Z; t_state : TournamentState; t_registrationClose : option Z; t_gameType : string;
  t_registrationOpen : option Z }.
Record TournamentTable := { tt_id : string; tt_tournamentId : option string }.
Record Seat := {
  st_id : string; st_tableId : string; st_userId : string; st_position : Z; st_lastMovedHand : Z }.

#[export] Instance tournament_entity : Entity Tournament := {
  row_id := t_id; row_clash _ _ := false }.
#[export] Instance table_entity : Entity TournamentTable := {
  row_id := tt_id; row_clash _ _ := false }.
#[export] Instance seat_entity : Entity Seat := {
  row_id := st_id; row_clash _ _ := false }.

Inductive TournamentEvent :=
| TWalletReserve (accountId : string) (amount : Z) (refId currency : string)
| TWalletRollback (accountId : string) (amount : Z) (refId currency : string)
| TNotification (userId message : string)
| TournamentCancel (tournamentId : string)
| TournamentBubble (tournamentId : string) (remainingPlayers : nat).

Record TournamentEnv := {
  te_wallet : WalletEnv;
  te_flag : string → option bool;
  te_tourneyFlag : string → string → option bool;
  te_redis : bool;
  te_avoidWithin : Z;
  te_seatId : nat → string }.

Record TournamentWorld (T : Type → Type) (R B : Type) := TWorld {
  tw_tournaments : T Tournament;
  tw_tables : T TournamentTable;
  tw_seats : T Seat;
  tw_wallet : option (WalletState T R B);
  tw_events : list TournamentEvent;
  tw_levels : gmap string Z;
  tw_patched : gmap string (gmap Z (Z * Z));
  tw_bubble : gset string;
  tw_lastMoved : gmap string (gmap string Z);
  tw_seatCount : nat;
  tw_now : Z }.
Arguments TWorld {T R B}. Arguments tw_tournaments {T R B}. Arguments tw_tables {T R B}.
Arguments tw_seats {T R B}. Arguments tw_wallet {T R B}. Arguments tw_events {T R B}.
Arguments tw_levels {T R B}. Arguments tw_patched {T R B}. Arguments tw_bubble {T R B}.
Arguments tw_lastMoved {T R B}. Arguments tw_seatCount {T R B}. Arguments tw_now {T R B}.

Section Service.
Context {T : Type → Type} `{!TableOps T} {R : Type} `{!RedisOps R CachedValue}
  {B : Type} `{!BusOps B WalletEvent} (env : TournamentEnv).
Abbreviation TW := (TournamentWorld T R B).
Abbreviation TM := (M TW).

(** ** Field updates *)

Definition set_tournaments (x : T Tournament) (w : TW) : TW :=
  TWorld x (tw_tables w) (tw_seats w) (tw_wallet w) (tw_events w) (tw_levels w) (tw_patched w)
    (tw_bubble w) (tw_lastMoved w) (tw_seatCount w) (tw_now w).
Definition set_seats (x : T Seat) (n : nat) (w : TW) : TW :=
  TWorld (tw_tournaments w) (tw_tables w) x (tw_wallet w) (tw_events w) (tw_levels w) (tw_patched w)
    (tw_bubble w) (tw_lastMoved w) n (tw_now w).
Definition set_wallet (x : option (WalletState T R B)) (w : TW) : TW :=
  TWorld (tw_tournaments w) (tw_tables w) (tw_seats w) x (tw_events w) (tw_levels w) (tw_patched w)
    (tw_bubble w) (tw_lastMoved w) (tw_seatCount w) (tw_now w).
Definition set_levels (l : gmap string Z) (p : gmap string (gmap Z (Z * Z))) (w : TW) : TW :=
  TWorld (tw_tournaments w) (tw_tables w) (tw_seats w) (tw_wallet w) (tw_events w) l p
    (tw_bubble w) (tw_lastMoved w) (tw_seatCount w) (tw_now w).
Definition set_progress (b : gset string) (m : gmap string (gmap string Z)) (w : TW) : TW :=
  TWorld (tw_tournaments w) (tw_tables w) (tw_seats w) (tw_wallet w) (tw_events w) (tw_levels w)
    (tw_patched w) b m (tw_seatCount w) (tw_now w).
Definition t_emit (ev : TournamentEvent) : TM unit := modify (λ w,
  TWorld (tw_tournaments w) (tw_tables w) (tw_seats w) (tw_wallet w) (tw_events w ++ [ev])
    (tw_levels w) (tw_patched w) (tw_bubble w) (tw_lastMoved w) (tw_seatCount w) (tw_now w)).

(** [if (this.wallet) await this.wallet.f(...)], in the wallet's own world. *)
Definition wallet_call (c : M (WalletState T R B) unit) : TM unit := λ w,
  match tw_wallet w with
  | Some x => let '(o, x') := c x in (o, set_wallet (Some x') w)
  | None => (Ret tt, w)
  end.
Definition if_wallet (c : TM unit) : TM unit :=
  has ← gets (λ w, bool_decide (is_Some (tw_wallet w))); when has c.

(** ** Lifecycle *)

Definition getEntity (id : string) : TM Tournament :=
  o ← gets (λ w, find_row (λ t, bool_decide (t_id t = id)) (tw_tournaments w));
  match o with Some t => mret t | None => throw ("Tournament " +:+ id +:+ " not found") end.

Definition with_state (s : TournamentState) (t : Tournament) : Tournament :=
  {| t_id := t_id t; t_title := t_title t; t_buyIn := t_buyIn t; t_currency := t_currency t;
     t_prizePool := t_prizePool t; t_maxPlayers := t_maxPlayers t; t_state := s;
     t_registrationClose := t_registrationClose t; t_gameType := t_gameType t;
     t_registrationOpen := t_registrationOpen t |}.
Definition save_tournament (t : Tournament) : TM unit :=
  modify (λ w, set_tournaments (save_row t (tw_tournaments w)) w).

Definition setState (id : string) (s : TournamentState) : TM unit :=
  t ← getEntity id; save_tournament (with_state s t).
Definition openRegistration (id : string) : TM unit := setState id REG_OPEN.

(** The checked transitions. *)
Definition transition (id : string) (from : list TournamentState) (to : TournamentState) : TM Tournament :=
  t ← getEntity id;
  throw_if (bool_decide (t_state t ∉ from))
    ("Invalid transition from " +:+ state_name (t_state t) +:+ " to " +:+ state_name to) ;;
  save_tournament (with_state to t) ;;
  mret (with_state to t).

Definition start (id : string) : TM unit := transition id [REG_OPEN] RUNNING ;; mret tt.
Definition pause (id : string) : TM unit := transition id [RUNNING] PAUSED ;; mret tt.
Definition resume (id : string) : TM unit := transition id [PAUSED] RUNNING ;; mret tt.
Definition finish (id : string) : TM unit := transition id [RUNNING; PAUSED] FINISHED ;; mret tt.
Definition startBreak (id : string) : TM unit := pause id.
Definition endBreak (id : string) : TM unit := resume id.

Definition tables_of (id : string) (w : TW) : list TournamentTable :=
  find_rows (λ tb, bool_decide (tt_tournamentId tb = Some id)) (tw_tables w).
Definition seats_at (tableId : string) (w : TW) : list Seat :=
  find_rows (λ s, bool_decide (st_tableId s = tableId)) (tw_seats w).
Definition seats_of (id : string) (w : TW) : list Seat :=
  find_rows (λ s, bool_decide (st_tableId s ∈ tt_id <$> tables_of id w)) (tw_seats w).

Definition refund_seat (t : Tournament) (currency : string) (s : Seat) : TM unit :=
  wallet_call (rollback (te_wallet env) (st_userId s) (t_buyIn t) (t_id t) currency None) ;;
  t_emit (TWalletRollback (st_userId s) (t_buyIn t) (t_id t) currency) ;;
  t_emit (TNotification (st_userId s) ("Tournament " +:+ t_title t +:+ " cancelled")).

Definition cancel (id : string) : TM unit :=
  t ← transition id [REG_OPEN; RUNNING; PAUSED] CANCELLED;
  if_wallet (seats ← gets (seats_of id);
             for_each seats (refund_seat t (default "USD"%string (t_currency t)))) ;;
  t_emit (TournamentCancel id).

(** ** Entry and withdrawal *)

(** The first table with the fewest seats, and their number. *)
Definition emptiest (w : TW) (tables : list TournamentTable) : option (TournamentTable * nat) :=
  match tables with
  | [] => None
  | tb0 :: _ =>
      Some (foldl (λ acc tb, let n := length (seats_at (tt_id tb) w) in
                             if (n <? acc.2)%nat then (tb, n) else acc)
              (tb0, length (seats_at (tt_id tb0) w)) tables)
  end.

Definition new_seat (tb : TournamentTable) (userId : string) (position : nat) : TM Seat := λ w,
  let s := {| st_id := te_seatId env (tw_seatCount w); st_tableId := tt_id tb; st_userId := userId;
              st_position := Z.of_nat position; st_lastMovedHand := 0 |} in
  match insert_row s (tw_seats w) with
  | Some seats => (Ret s, set_seats seats (S (tw_seatCount w)) w)
  | None => (Throw "QueryFailedError", w)
  end.

Definition entry_currency (t : Tournament) : string := default "USD"%string (t_currency t).

(** [manageSeat]; its transaction holds at most one write, the last step. *)
Definition join_seat (tournamentId userId currency : string) : TM Seat :=
  t ← getEntity tournamentId;
  wallet_call (reserve (te_wallet env) userId (t_buyIn t) tournamentId currency None) ;;
  target ← gets (λ w, emptiest w (tables_of tournamentId w));
  match target with
  | None => throw ("No tables available for tournament " +:+ tournamentId +:+ "; cannot assign seat")
  | Some (tb, n) =>
      try_catch (new_seat tb userId n)
        (λ e, wallet_call (rollback (te_wallet env) userId (t_buyIn t) tournamentId currency None) ;; throw e)
  end.

Definition join (tournamentId userId : string) : TM Seat :=
  t ← getEntity tournamentId;
  at_ ← gets tw_now;
  let regOpen := bool_decide (t_state t = REG_OPEN) in
  let lateReg := bool_decide (t_state t = RUNNING) &&
                 match t_registrationClose t with Some c => at_ <? c | None => false end in
  throw_if (negb regOpen && negb lateReg) "registration closed" ;;
  s ← join_seat tournamentId userId (entry_currency t);
  if_wallet (t_emit (TWalletReserve userId (t_buyIn t) tournamentId (entry_currency t))) ;;
  mret s.

Definition withdraw_seat (tournamentId userId : string) : TM unit :=
  t ← getEntity tournamentId;
  existing ← gets (λ w, head (filter (λ s, st_userId s = userId) (seats_of tournamentId w)));
  match existing with
  | None => mret tt
  | Some s =>
      wallet_call (rollback (te_wallet env) userId (t_buyIn t) tournamentId (entry_currency t) None) ;;
      modify (λ w, set_seats (delete_where (λ x, bool_decide (st_id x = st_id s)) (tw_seats w))
                     (tw_seatCount w) w) ;;
      if_wallet (t_emit (TWalletRollback userId (t_buyIn t) tournamentId (entry_currency t)))
  end.

(** ** Levels *)

Definition handleLevelUp (id : string) (level : Z) : TM unit :=
  modify (λ w, set_levels (<[id := level]> (tw_levels w)) (tw_patched w) w).
Definition getCurrentLevel (id : string) (w : TW) : Z := default 1 (tw_levels w !! id).
Definition hotPatchLevel (id : string) (level smallBlind bigBlind : Z) : TM unit :=
  modify (λ w, set_levels (tw_levels w)
    (<[id := <[level := (smallBlind, bigBlind)]> (default ∅ (tw_patched w !! id))]> (tw_patched w)) w).
Definition getHotPatchedLevel (id : string) (level : Z) (w : TW) : option (Z * Z) :=
  tw_patched w !! id ≫= λ levels, levels !! level.

(** ** Rebuys and bounties behind their flags *)

Definition service_canRebuy (stack threshold : Z) : bool :=
  if bool_decide (te_flag env "rebuy" = Some false) then false else canRebuy stack threshold.
Definition service_settleBounty (currentBounty : Z) (tournamentId : option string) : Z * Z :=
  if bool_decide (te_flag env "settlement" = Some false)
     || match truthy tournamentId with
        | Some id => bool_decide (te_tourneyFlag env id "settlement" = Some false)
        | None => false
        end
  then (0, currentBounty) else settleBounty currentBounty.

(** ** Bubble and balancing *)

Definition detectBubble (id : string) (remaining : nat) (threshold : Z) : TM bool :=
  known ← gets (λ w, bool_decide (id ∈ tw_bubble w));
  if bool_decide (Z.of_nat remaining ≠ threshold) || (known : bool) then mret false
  else
    modify (λ w, set_progress ({[ id ]} ∪ tw_bubble w) (tw_lastMoved w) w) ;;
    t_emit (TournamentBubble id remaining) ;;
    mret true.

(** [saveRecentlyMoved]: [hset] adds to the hash, an empty map deletes it. *)
Definition saveRecentlyMoved (id : string) (moved : gmap string Z) : TM unit :=
  modify (λ w, set_progress (tw_bubble w)
    (if bool_decide (moved = ∅) then delete id (tw_lastMoved w)
     else <[id := moved ∪ default ∅ (tw_lastMoved w !! id)]> (tw_lastMoved w)) w).

(** Seat every player of [balanced] at the table of its row; the seats moved. *)
Definition reassign (currentHand : Z) (acc : list Seat * gmap string Z * list Seat) (tp : string * string)
    : list Seat * gmap string Z * list Seat :=
  let '(seats, moved, saved) := acc in
  match list_find (λ s, st_userId s = tp.2) seats with
  | Some (k, s) =>
      if bool_decide (st_tableId s = tp.1) then acc
      else
        let s' := {| st_id := st_id s; st_tableId := tp.1; st_userId := st_userId s;
                     st_position := st_position s; st_lastMovedHand := currentHand |} in
        (<[k := s']> seats, <[tp.2 := currentHand]> moved, saved ++ [s'])
  | None => acc
  end.

(** The seats and players by table, as loaded; the map of moves is returned, the
    caller shares it. *)
Definition balanceTournament (id : string) (currentHand avoidWithin : Z) (moved : gmap string Z)
    : TM (gmap string Z) :=
  tables ← gets (tables_of id);
  seats ← gets (λ w, (λ tb, seats_at (tt_id tb) w) <$> tables);
  let players := (λ ss, st_userId <$> ss) <$> seats in
  let '(bal, moved1) := default (players, moved) (balanceTables players moved currentHand avoidWithin) in
  let moves := concat (zip_with (λ tb ps, pair (tt_id tb) <$> ps) tables bal) in
  let '(_, moved2, saved) := foldl (reassign currentHand) (concat seats, moved1, []) moves in
  modify (λ w, set_seats (foldl (λ t s, save_row s t) (tw_seats w) saved) (tw_seatCount w) w) ;;
  when (te_redis env) (saveRecentlyMoved id moved2) ;;
  mret moved2.

(** table-balancer.service.ts *)
Definition rebalanceIfNeeded (id : string) (currentHand : Z) (avoidWithin payoutThreshold : option Z)
    : TM bool :=
  tables ← gets (tables_of id);
  seats ← gets (λ w, (λ tb, seats_at (tt_id tb) w) <$> tables);
  if bool_decide (tables = []) then mret false
  else
    let counts := length <$> seats in
    (match payoutThreshold with
     | Some th => detectBubble id (sum_list counts) th ;; mret tt
     | None => mret tt
     end) ;;
    if (max_list counts <=? foldr Nat.min (max_list counts) counts + 1)%nat then mret false
    else
      recent ← gets (λ w, default ∅ (tw_lastMoved w !! id));
      let updated := foldl (λ m s, if st_lastMovedHand s =? 0 then m
                                   else <[st_userId s := st_lastMovedHand s]> m) recent (concat seats) in
      moved ← balanceTournament id currentHand (default (te_avoidWithin env) avoidWithin) updated;
      (if te_redis env then saveRecentlyMoved id moved
       else modify (λ w, set_progress (tw_bubble w) (<[id := moved]> (tw_lastMoved w)) w)) ;;
      mret true.
End Service.

(** ** scheduler.service.ts: the jobs and their delays *)

Record Job := { job_queue : string; job_name : string; job_tournament : string; job_level : option Z;
                job_delay : Z }.

Definition scheduleRegistration (id : string) (opens closes now_ : Z) : list Job :=
  [{| job_queue := "registration"; job_name := "open"; job_tournament := id; job_level := None; job_delay := opens - now_ |};
   {| job_queue := "registration"; job_name := "close"; job_tournament := id; job_level := None; job_delay := closes - now_ |}].
Definition scheduleBreak (id : string) (starts durationMs now_ : Z) : list Job :=
  [{| job_queue := "break"; job_name := "start"; job_tournament := id; job_level := None; job_delay := starts - now_ |};
   {| job_queue := "break"; job_name := "end"; job_tournament := id; job_level := None; job_delay := starts - now_ + durationMs |}].
Definition scheduleStart (id : string) (starts now_ : Z) : list Job :=
  [{| job_queue := "tournament-start"; job_name := "start"; job_tournament := id; job_level := None; job_delay := starts - now_ |}].
Fixpoint scheduleLevelUps (id : string) (levels : list (Z * Z)) (current now_ : Z) : list Job :=
  match levels with
  | [] => []
  | (level, minutes) :: rest =>
      (if level =? 1 then []
       else [{| job_queue := "level-up"; job_name := "level"; job_tournament := id; job_level := Some level;
                job_delay := current - now_ |}])
      ++ scheduleLevelUps id rest (current + minutes * 60000) now_
  end.
Definition scheduleTournament (id : string) (registration : Z * Z) (structure : list (Z * Z))
    (breaks : list (Z * Z)) (starts now_ : Z) : list Job :=
  scheduleRegistration id registration.1 registration.2 now_
  ++ (breaks ≫= λ b, scheduleBreak id b.1 b.2 now_)
  ++ scheduleLevelUps id structure starts now_.
