(* ===== verification/TournamentSafety.v ===== *)
(** * The tournament service: lifecycle and entry fees

    Every run of service calls refines the tournament lifecycle; what entering,
    leaving and failing to be seated do to the wallet. *)

From S2P Require Import Prelude JsNum Store JsText WalletModel WalletCash WalletLedger WalletFlows TournamentPay Tournament.
#[local] Open Scope Z_scope.

(** ** The lifecycle, abstractly *)

Inductive lifecycle : TournamentState → TournamentState → Prop :=
| lc_start : lifecycle REG_OPEN RUNNING
| lc_pause : lifecycle RUNNING PAUSED
| lc_resume : lifecycle PAUSED RUNNING
| lc_finish s : s ∈ [RUNNING; PAUSED] → lifecycle s FINISHED
| lc_cancel s : s ∈ [REG_OPEN; RUNNING; PAUSED] → lifecycle s CANCELLED.

Lemma lifecycle_final s s' : s = FINISHED ∨ s = CANCELLED → rtc lifecycle s s' → s' = s.
Proof.
  intros Hs. induction 1 as [|s s1 s2 Hstep _ _]; [done|].
  destruct Hs as [-> | ->]; inversion Hstep; subst; rewrite !elem_of_cons, elem_of_nil in *; intuition congruence.
Qed.

(** ** Calls *)

Inductive TournamentCall :=
| TOpenRegistration (id : string) | TStart (id : string) | TPause (id : string) | TResume (id : string)
| TFinish (id : string) | TCancel (id : string)
| TJoin (id userId : string) | TWithdraw (id userId : string)
| TLevelUp (id : string) (level : Z) | THotPatch (id : string) (level smallBlind bigBlind : Z)
| TBubble (id : string) (remaining : nat) (threshold : Z)
| TRebalance (id : string) (hand : Z) (avoidWithin threshold : option Z).

Section Lifecycle.
Context {T : Type → Type} `{!TableOps T, !TableLaws T} {R : Type} `{!RedisOps R CachedValue}
  {B : Type} `{!BusOps B WalletEvent} (env : TournamentEnv).
Abbreviation TW := (TournamentWorld T R B).
Abbreviation TM := (M TW).
Implicit Types (w : TW).

Definition exec_tournament (c : TournamentCall) : TM unit :=
  match c with
  | TOpenRegistration id => openRegistration id
  | TStart id => start id | TPause id => pause id | TResume id => resume id
  | TFinish id => finish id | TCancel id => cancel env id
  | TJoin id u => join env id u ;; mret tt
  | TWithdraw id u => withdraw_seat env id u
  | TLevelUp id l => handleLevelUp id l
  | THotPatch id l sb bb => hotPatchLevel id l sb bb
  | TBubble id n th => detectBubble id n th ;; mret tt
  | TRebalance id h a th => rebalanceIfNeeded env id h a th ;; mret tt
  end.

Definition run_tournament (calls : list TournamentCall) (w : TW) : TW :=
  foldl (λ w c, snd (exec_tournament c w)) w calls.

Definition state_of (id : string) (w : TW) : option TournamentState :=
  t_state <$> find_row (λ t, bool_decide (t_id t = id)) (tw_tournaments w).

(** What a call may do to tournament [id]. *)
Definition follows (id : string) (w w' : TW) : Prop :=
  unique_ids (tw_tournaments w') ∧
  ∀ s, state_of id w = Some s → ∃ s', state_of id w' = Some s' ∧ rtc lifecycle s s'.

Lemma follows_same id w w' :
  unique_ids (tw_tournaments w) → tw_tournaments w' = tw_tournaments w → follows id w w'.
Proof.
  intros Hu E. unfold follows, state_of. rewrite E. split; [done|]. intros s Hs. exists s. by split.
Qed.

Lemma follows_trans id w1 w2 w3 : follows id w1 w2 → follows id w2 w3 → follows id w1 w3.
Proof.
  intros [_ H1] [Hu H2]. split; [done|]. intros s (s1 & Hs1 & Hr1)%H1.
  destruct (H2 s1 Hs1) as (s2 & Hs2 & Hr2). exists s2. split; [done | by etrans].
Qed.

Lemma transition_cases id from to w :
  (∃ e, transition id from to w = (Throw e, w)) ∨
  (∃ t, find_row (λ t, bool_decide (t_id t = id)) (tw_tournaments w) = Some t ∧ t_state t ∈ from ∧
     transition id from to w
     = (Ret (with_state to t), set_tournaments (save_row (with_state to t) (tw_tournaments w)) w)).
Proof.
  unfold transition, getEntity, mbind, M_bind, gets.
  destruct (find_row _ (tw_tournaments w)) as [t|]; [|left; by eexists].
  unfold mret, M_ret, throw_if, throw, save_tournament, modify, mret, M_ret.
  case_bool_decide as H; [left; by eexists|]. right. by exists t.
Qed.

Lemma save_follows id id0 t to w :
  unique_ids (tw_tournaments w) →
  find_row (λ t, bool_decide (t_id t = id0)) (tw_tournaments w) = Some t →
  (id0 = id → lifecycle (t_state t) to) →
  follows id w (set_tournaments (save_row (with_state to t) (tw_tournaments w)) w).
Proof.
  intros Hu Hf Hlc. split; [by apply unique_ids_save|].
  apply find_row_Some in Hf as Hf'. destruct Hf' as [_ Hid%bool_decide_eq_true].
  unfold state_of. intros s Hs. simpl tw_tournaments.
  pose proof (find_save (tw_tournaments w) id (with_state to t) Hu) as Hfs.
  cbn [row_id tournament_entity] in Hfs. rewrite Hfs.
  case_decide as E; simpl.
  - exists to. split; [done|]. apply rtc_once. simpl in E. assert (id0 = id) as -> by congruence.
    rewrite Hf in Hs. simpl in Hs. injection Hs as <-. by apply Hlc.
  - exists s. split; [exact Hs | done].
Qed.

(** A checked transition along edges of the lifecycle. *)
Lemma transition_follows id id0 from to w :
  unique_ids (tw_tournaments w) → (∀ s, s ∈ from → lifecycle s to) →
  follows id w (snd (transition id0 from to w)).
Proof.
  intros Hu Hlc. destruct (transition_cases id0 from to w) as [[e ->]|(t & Hf & Hin & ->)].
  - by apply follows_same.
  - simpl. eapply save_follows; [done | exact Hf | intros _; by apply Hlc].
Qed.

Definition keeps (m : TM unit) : Prop := ∀ t0, preserves (λ w, tw_tournaments w = t0) m.

Lemma keep_wallet t0 c : preserves (λ w : TW, tw_tournaments w = t0) (wallet_call c).
Proof. intros w Hw. unfold wallet_call. destruct (tw_wallet w); [|done]. by destruct (c _). Qed.
Lemma keep_new_seat t0 tb u n : preserves (λ w : TW, tw_tournaments w = t0) (new_seat env tb u n).
Proof. intros w Hw. unfold new_seat. by destruct (insert_row _ _). Qed.
Lemma keep_emit t0 ev : preserves (λ w : TW, tw_tournaments w = t0) (t_emit ev).
Proof. intros w Hw. exact Hw. Qed.

Ltac keep :=
  preserve; try (first [apply keep_wallet | apply keep_new_seat | apply keep_emit
                       | by (apply preserves_modify; intros ? ?)]).

Lemma refunds_keep t c t0 :
  preserves (λ w : TW, tw_tournaments w = t0)
    (if_wallet (seats ← gets (seats_of (t_id t)); for_each seats (refund_seat env t c)) ;;
     t_emit (TournamentCancel (t_id t))).
Proof. unfold if_wallet, refund_seat. keep. Qed.

Lemma exec_follows id c w :
  unique_ids (tw_tournaments w) → c ≠ TOpenRegistration id → follows id w (snd (exec_tournament c w)).
Proof.
  intros Hu Hc.
  assert (∀ m : TM unit, keeps m → follows id w (snd (m w))) as Hkeep.
  { intros m Hm. apply follows_same; [done|]. by apply (Hm (tw_tournaments w)). }
  assert (∀ id0 from to, (∀ s, s ∈ from → lifecycle s to) →
    follows id w (snd ((transition id0 from to ;; mret tt) w))) as Htr.
  { intros id0 from to Hlc. pose proof (transition_follows id id0 from to w Hu Hlc) as H.
    unfold mbind, M_bind. by destruct (transition id0 from to w) as [[]]. }
  destruct c as [id0|id0|id0|id0|id0|id0| | | | | |]; cbn [exec_tournament].
  - unfold openRegistration, setState, getEntity, mbind, M_bind, gets.
    destruct (find_row _ (tw_tournaments w)) as [t|] eqn:E; [|by apply follows_same].
    eapply save_follows; [done | exact E | congruence].
  - apply Htr. intros s ->%list_elem_of_singleton. constructor.
  - apply Htr. intros s ->%list_elem_of_singleton. constructor.
  - apply Htr. intros s ->%list_elem_of_singleton. constructor.
  - apply Htr. apply lc_finish.
  - unfold cancel. pose proof (transition_follows id id0 [REG_OPEN; RUNNING; PAUSED] CANCELLED w Hu lc_cancel) as H.
    unfold mbind at 1, M_bind at 1.
    destruct (transition_cases id0 [REG_OPEN; RUNNING; PAUSED] CANCELLED w) as [[e E]|(t & Hf & _ & E)];
      rewrite E in H |- *; [exact H|].
    eapply follows_trans; [exact H|]. apply follows_same; [apply H|].
    apply find_row_Some in Hf as [_ Hid%bool_decide_eq_true]. subst id0.
    by apply (refunds_keep (with_state CANCELLED t)).
  - apply Hkeep. intros t0. unfold join, join_seat, getEntity, if_wallet. keep.
  - apply Hkeep. intros t0. unfold withdraw_seat, getEntity, if_wallet. keep.
  - apply Hkeep. intros t0. unfold handleLevelUp. keep.
  - apply Hkeep. intros t0. unfold hotPatchLevel. keep.
  - apply Hkeep. intros t0. unfold detectBubble. keep.
  - apply Hkeep. intros t0. unfold rebalanceIfNeeded, detectBubble, balanceTournament, saveRecentlyMoved. keep.
Qed.

Lemma run_follows id calls w :
  unique_ids (tw_tournaments w) → Forall (λ c, c ≠ TOpenRegistration id) calls →
  follows id w (run_tournament calls w).
Proof.
  unfold run_tournament. revert w; induction calls as [|c calls IH]; intros w Hu Hc.
  - by apply follows_same.
  - apply Forall_cons in Hc as [Hc Hcs]. pose proof (exec_follows id c w Hu Hc) as H.
    eapply follows_trans; [exact H|]. apply IH; [apply H | exact Hcs].
Qed.
End Lifecycle.

(** C12: the service refines the tournament lifecycle. Whatever calls come in, in
    whatever order, failing ones included: as long as nobody reopens the
    registration of a tournament, its state moves only along the lifecycle
    (start, pause, resume, finish, cancel), and a finished or cancelled
    tournament stays so. *)
Theorem tournaments_follow_lifecycle {T : Type → Type} `{!TableOps T, !TableLaws T}
    {R : Type} `{!RedisOps R CachedValue} {B : Type} `{!BusOps B WalletEvent} (env : TournamentEnv)
    (calls : list TournamentCall) (w : TournamentWorld T R B) (id : string) (s : TournamentState)
    (Hids : unique_ids (tw_tournaments w)) (Hstate : state_of id w = Some s)
    (Hopen : Forall (λ c, c ≠ TOpenRegistration id) calls) :
  ∃ s', state_of id (run_tournament env calls w) = Some s' ∧ rtc lifecycle s s' ∧
    (s = FINISHED ∨ s = CANCELLED → s' = s).
Proof.
  destruct (run_follows env id calls w Hids Hopen) as [_ H].
  destruct (H s Hstate) as (s' & Hs' & Hr). exists s'. split_and!; [done | done |].
  intros Hf. by eapply lifecycle_final.
Qed.

(** ** A tournament with two entrants *)

Definition demo_tenv : TournamentEnv :=
  {| te_wallet := demo_env; te_flag _ := None; te_tourneyFlag _ _ := None; te_redis := false;
     te_avoidWithin := 10; te_seatId n := ("seat-" +:+ str_of_Z (Z.of_nat n))%string |}.
Definition cup : Tournament :=
  {| t_id := "cup"; t_title := "Cup"; t_buyIn := 100; t_currency := Some "USD"%string; t_prizePool := 0;
     t_maxPlayers := 1; t_state := REG_OPEN; t_registrationClose := None;
     t_gameType := "texas"; t_registrationOpen := None |}.
Abbreviation DemoTournaments := (TournamentWorld list (map_redis CachedValue) (list WalletEvent)).
Definition cup_world (tables : list TournamentTable) : DemoTournaments :=
  TWorld [cup] tables [] (Some funded_world) [] ∅ ∅ ∅ ∅ 0 0.
Definition cup_table : TournamentTable := {| tt_id := "table-1"; tt_tournamentId := Some "cup"%string |}.

Lemma tournaments_follow_lifecycle_witness :
  ∃ s', state_of "cup" (run_tournament demo_tenv
      [TJoin "cup" "alice"; TStart "cup"; TStart "cup"; TPause "cup"; TFinish "cup"; TCancel "cup"]%string
      (cup_world [cup_table])) = Some s' ∧ rtc lifecycle REG_OPEN s'.
Proof.
  destruct (tournaments_follow_lifecycle demo_tenv
    [TJoin "cup" "alice"; TStart "cup"; TStart "cup"; TPause "cup"; TFinish "cup"; TCancel "cup"]%string
    (cup_world [cup_table]) "cup" REG_OPEN) as (s' & Hs & Hr & _).
  - apply (bool_decide_eq_true_1 (NoDup _)). vm_compute. reflexivity.
  - reflexivity.
  - repeat constructor; discriminate.
  - exists s'. split; [exact Hs | exact Hr].
Defined.

Definition balances (w : DemoTournaments) : list (string * Z) :=
  match tw_wallet w with Some x => (λ a, (a_name a, a_balance a)) <$> accounts x | None => [] end.

(** Entry fees of a second entrant. Two players with 300 each enter a
    tournament with a buy-in of 100 and room for one. Both calls succeed and
    both get a seat, but only the first is charged; when both withdraw, the
    first refund goes to the second entrant and the other is dropped as
    already recorded: alice has paid 100 for nothing, bob has gained them. *)
Lemma second_entrant_plays_free :
  let run := run_tournament demo_tenv in
  let joined := run [TJoin "cup" "alice"; TJoin "cup" "bob"]%string (cup_world [cup_table]) in
  let left_ := run [TWithdraw "cup" "bob"; TWithdraw "cup" "alice"]%string joined in
  st_userId <$> tw_seats joined = ["alice"; "bob"]%string ∧
  take 2 (balances joined) = [("alice", 200); ("bob", 300)]%string ∧
  tw_seats left_ = [] ∧
  take 2 (balances left_) = [("alice", 200); ("bob", 400)]%string.
Proof. vm_compute. split_and!; reflexivity. Qed.

(** A tournament without tables keeps the fee. If the tournament has no table
    and the wallet takes the buy-in, [join] fails and nothing gives it back: the
    wallet stays as the reserve left it, and the player has no seat. *)
Lemma join_without_tables_keeps_fee {T : Type → Type} `{!TableOps T}
    {R : Type} `{!RedisOps R CachedValue} {B : Type} `{!BusOps B WalletEvent} (env : TournamentEnv)
    (w : TournamentWorld T R B) (t : Tournament) (user : string) (before after : WalletState T R B)
    (Ht : find_row (λ t', bool_decide (t_id t' = t_id t)) (tw_tournaments w) = Some t)
    (Hopen : t_state t = REG_OPEN) (Hnone : tables_of (t_id t) w = [])
    (Hwallet : tw_wallet w = Some before)
    (Hpaid : reserve (te_wallet env) user (t_buyIn t) (t_id t) (entry_currency t) None before = (Ret tt, after)) :
  ∃ e, join env (t_id t) user w = (Throw e, set_wallet (Some after) w).
Proof.
  eexists. unfold join, getEntity, mbind at 1, M_bind at 1. unfold mbind at 1, M_bind at 1, gets at 1.
  rewrite Ht. unfold mret at 1, M_ret at 1. unfold mbind at 1, M_bind at 1, gets at 1. cbv beta iota zeta.
  rewrite (bool_decide_eq_true_2 (t_state t = REG_OPEN)) by done. cbn [negb andb throw_if].
  unfold mbind at 1, M_bind at 1, mret at 1, M_ret at 1. cbv beta iota.
  unfold mbind at 1, M_bind at 1. unfold join_seat, getEntity.
  unfold mbind at 1, M_bind at 1. unfold mbind at 1, M_bind at 1, gets at 1. rewrite Ht.
  unfold mret at 1, M_ret at 1. unfold mbind at 1, M_bind at 1, wallet_call at 1. rewrite Hwallet, Hpaid.
  unfold mbind at 1, M_bind at 1, gets at 1. cbv beta iota.
  change (tables_of (t_id t) (set_wallet (Some after) w)) with (tables_of (t_id t) w). rewrite Hnone.
  reflexivity.
Qed.

Lemma join_without_tables_keeps_fee_witness :
  (∃ e, fst (join demo_tenv "cup" "alice" (cup_world [])) = Throw e) ∧
  take 2 (balances (snd (join demo_tenv "cup" "alice" (cup_world [])))) = [("alice", 200); ("bob", 300)]%string.
Proof.
  destruct (join_without_tables_keeps_fee demo_tenv (cup_world []) cup "alice" funded_world
    (snd (reserve demo_env "alice" 100 "cup" "USD" None funded_world))) as [e E].
  - vm_compute. reflexivity.
  - reflexivity.
  - vm_compute. reflexivity.
  - reflexivity.
  - vm_compute. reflexivity.
  - change (t_id cup) with "cup"%string in E. rewrite E. split; [by exists e | vm_compute; reflexivity].
Defined.
