(* ===== verification/Events.v ===== *)
(** * The event publisher

    backend/src/events/events.service.ts: publishing with retries, the circuit
    breaker, the store of failed events and its replay. The Kafka producer is
    an oracle that answers each attempt; a stored entry is the JSON of an event,
    or something that does not parse. Calls run one at a time; error texts are
    shortened. *)

From S2P Require Import Prelude Store.
#[local] Open Scope Z_scope.

Section Publisher.
Context {Event : Type} `{!EqDecision Event}.

(** An entry of the list in Redis. *)
Inductive Stored := StoredEvent (e : Event) | StoredJunk (raw : string).

#[export] Instance Stored_eq_dec : EqDecision Stored.
Proof. solve_decision. Defined.

(** The list under events:failed. *)
Context {L : Type} `{!RedisListOps L Stored}.

(** What the publisher talks to: the schema check, the answer of the broker to
    the n-th send, and whether Redis answers. *)
Record PublisherEnv := {
  pe_parse : Event → outcome Event;
  pe_send : nat → bool;
  pe_redisUp : bool }.

Record Publisher := {
  ep_failures : Z;
  ep_openUntil : Z;
  ep_now : Z;                      (* milliseconds *)
  ep_sends : nat;
  ep_redis : option L;             (* if there is a Redis *)
  ep_fallback : list Event;
  ep_delivered : list Event }.

Context (env : PublisherEnv).
Abbreviation PM := (M Publisher).

Definition set_circuit (failures openUntil : Z) (p : Publisher) : Publisher :=
  {| ep_failures := failures; ep_openUntil := openUntil; ep_now := ep_now p; ep_sends := ep_sends p;
     ep_redis := ep_redis p; ep_fallback := ep_fallback p; ep_delivered := ep_delivered p |}.
Definition set_stores (r : option L) (f : list Event) (p : Publisher) : Publisher :=
  {| ep_failures := ep_failures p; ep_openUntil := ep_openUntil p; ep_now := ep_now p;
     ep_sends := ep_sends p; ep_redis := r; ep_fallback := f; ep_delivered := ep_delivered p |}.
Definition wait (ms : Z) (p : Publisher) : Publisher :=
  {| ep_failures := ep_failures p; ep_openUntil := ep_openUntil p; ep_now := ep_now p + ms;
     ep_sends := ep_sends p; ep_redis := ep_redis p; ep_fallback := ep_fallback p;
     ep_delivered := ep_delivered p |}.

(** One [producer.send]. *)
Definition send (data : Event) : PM bool := λ p,
  let ok := pe_send env (ep_sends p) in
  (Ret ok,
   {| ep_failures := ep_failures p; ep_openUntil := ep_openUntil p; ep_now := ep_now p;
      ep_sends := S (ep_sends p); ep_redis := ep_redis p; ep_fallback := ep_fallback p;
      ep_delivered := if ok then ep_delivered p ++ [data] else ep_delivered p |}).

(** [attempts]: the delays before each further attempt. *)
Fixpoint send_attempts (data : Event) (delays : list Z) : PM bool :=
  ok ← send data;
  if (ok : bool) then mret true
  else match delays with
       | [] => mret false
       | d :: ds => modify (wait d) ;; send_attempts data ds
       end.

Definition persistFailedEvent (e : Event) : PM unit := modify (λ p,
  match ep_redis p with
  | Some l => if pe_redisUp env then set_stores (Some (l_push (StoredEvent e) l)) (ep_fallback p) p
              else set_stores (Some l) (ep_fallback p ++ [e]) p
  | None => set_stores None (ep_fallback p ++ [e]) p
  end).

Definition removePersistedEvent (raw : Stored) : PM unit := modify (λ p,
  match ep_redis p with
  | Some l => if pe_redisUp env then set_stores (Some (l_rem raw l)) (ep_fallback p) p else p
  | None => p
  end).

Definition backoff : list Z := [100; 200].

Definition publish (e : Event) : PM unit :=
  open_ ← gets (λ p, ep_now p <? ep_openUntil p);
  throw_if open_ "Event publisher circuit breaker open" ;;
  data ← lift (pe_parse env e);
  ok ← send_attempts data backoff;
  if (ok : bool) then modify (λ p, set_circuit 0 (ep_openUntil p) p)
  else
    modify (λ p, if 5 <=? ep_failures p + 1
                 then set_circuit 0 (ep_now p + 30000) p
                 else set_circuit (ep_failures p + 1) (ep_openUntil p) p) ;;
    persistFailedEvent data ;;
    throw "Failed to publish event".

Definition getFailedEvents : PM (list Event) :=
  stored ← gets ep_redis;
  match stored with
  | None => gets ep_fallback
  | Some l =>
      if pe_redisUp env then
        for_each (l_range l) (λ raw, match raw with StoredEvent _ => mret tt
                           | StoredJunk _ => removePersistedEvent raw end) ;;
        mret (omap (λ raw, match raw with StoredEvent e => Some e | StoredJunk _ => None end) (l_range l))
      else mret []
  end.

(** The replay loops stop at the first failure. *)
Fixpoint replay_stored (entries : list Stored) : PM unit :=
  match entries with
  | [] => mret tt
  | raw :: rest =>
      match raw with
      | StoredJunk _ => removePersistedEvent raw ;; replay_stored rest
      | StoredEvent e =>
          ok ← try_catch (publish e ;; removePersistedEvent raw ;; mret true) (λ _, mret false);
          if (ok : bool) then replay_stored rest else mret tt
      end
  end.
Fixpoint replay_fallback (entries : list Event) : PM unit :=
  match entries with
  | [] => mret tt
  | e :: rest =>
      ok ← try_catch (publish e ;; modify (λ p, set_stores (ep_redis p) (remove_first e (ep_fallback p)) p)
                      ;; mret true) (λ _, mret false);
      if (ok : bool) then replay_fallback rest else mret tt
  end.

Definition replayFailed : PM unit :=
  stored ← gets ep_redis;
  match stored with
  | Some l => if pe_redisUp env then replay_stored (l_range l) else mret tt
  | None => es ← gets ep_fallback; replay_fallback es
  end.

(** ** What publishing does *)

Lemma send_attempts_spec data delays p :
  let ok := existsb (pe_send env) (seq (ep_sends p) (S (length delays))) in
  ∃ p', send_attempts data delays p = (Ret ok, p') ∧
    ep_failures p' = ep_failures p ∧ ep_openUntil p' = ep_openUntil p ∧
    (ok = false → ep_now p' = ep_now p + sumZ delays) ∧
    ep_redis p' = ep_redis p ∧ ep_fallback p' = ep_fallback p ∧
    ep_delivered p' = ep_delivered p ++ (if ok then [data] else []).
Proof.
  revert p; induction delays as [|d ds IH]; intros p ok; subst ok.
  - cbn [send_attempts length seq existsb]. unfold send, mbind, M_bind. rewrite orb_false_r.
    destruct (pe_send env (ep_sends p)) eqn:E; eexists; (split; [reflexivity|]);
      split_and!; simpl; try done; [|by rewrite app_nil_r]. intros _. simpl. lia.
  - cbn [send_attempts]. unfold send at 1, mbind at 1, M_bind at 1.
    cbn [length seq existsb].
    destruct (pe_send env (ep_sends p)) eqn:E; cbn [orb].
    + eexists; (split; [reflexivity|]); split_and!; try done.
    + unfold mbind at 1, M_bind at 1, modify. cbv beta iota.
      match goal with |- context [send_attempts data ds ?q] => destruct (IH q) as (p' & E' & H) end.
      rewrite E'. exists p'. split; [done|].
      destruct H as (H1 & H2 & H3 & H4 & H5 & H6). cbn in *. split_and!; try done.
      intros Hf. rewrite (H3 Hf). simpl. lia.
Qed.

(** Everything waiting for another attempt. *)
Definition queued (p : Publisher) : list Stored :=
  from_option l_range [] (ep_redis p) ++ (StoredEvent <$> ep_fallback p).

Lemma persist_queued `{!RedisListLaws L Stored} e p :
  ∃ p', persistFailedEvent e p = (Ret tt, p') ∧ queued p' ≡ₚ queued p ++ [StoredEvent e] ∧
    ep_failures p' = ep_failures p ∧ ep_openUntil p' = ep_openUntil p ∧ ep_delivered p' = ep_delivered p.
Proof.
  unfold persistFailedEvent, modify, queued. destruct (ep_redis p) as [l|] eqn:E; [destruct (pe_redisUp env)|];
    eexists; (split; [reflexivity|]); split_and!; try done; simpl.
  - rewrite range_push, <- !app_assoc. f_equiv. apply Permutation_app_comm.
  - by rewrite fmap_app, app_assoc.
  - by rewrite fmap_app.
Qed.

(** Every outcome of [publish]. *)
Lemma publish_cases `{!RedisListLaws L Stored} (e : Event) (p : Publisher) :
  let '(o, p') := publish e p in
  let accepted := existsb (pe_send env) (seq (ep_sends p) 3) in
  if ep_now p <? ep_openUntil p then is_ret o = false ∧ p' = p
  else match pe_parse env e with
       | Throw _ => is_ret o = false ∧ p' = p
       | Ret data =>
           is_ret o = accepted ∧
           ep_delivered p' = ep_delivered p ++ (if accepted then [data] else []) ∧
           queued p' ≡ₚ queued p ++ (if accepted then [] else [StoredEvent data]) ∧
           (if accepted then ep_failures p' = 0 ∧ ep_openUntil p' = ep_openUntil p
            else if 5 <=? ep_failures p + 1
                 then ep_failures p' = 0 ∧ ep_openUntil p' = ep_now p + 300 + 30000
                 else ep_failures p' = ep_failures p + 1 ∧ ep_openUntil p' = ep_openUntil p)
       end.
Proof.
  destruct (publish e p) as [o p'] eqn:E. revert E. intros E accepted. revert E.
  unfold publish. unfold mbind at 1, M_bind at 1, gets at 1.
  destruct (ep_now p <? ep_openUntil p); [by intros [= <- <-]|].
  unfold mbind at 1, M_bind at 1, throw_if, mret, M_ret. unfold mbind at 1, M_bind at 1, lift.
  destruct (pe_parse env e) as [data|]; [|by intros [= <- <-]].
  unfold mbind at 1, M_bind at 1.
  destruct (send_attempts_spec data backoff p) as (p1 & -> & Hf & Ho & Hn & Hr & Hb & Hd).
  change (S (length backoff)) with 3%nat in *. fold accepted in Hn, Hd |- *.
  assert (queued p1 = queued p) as Hq by (unfold queued; by rewrite Hr, Hb).
  destruct accepted.
  - intros [= <- <-]. split_and!; [done | exact Hd | by rewrite app_nil_r; unfold queued in *; simpl; rewrite Hq | done | exact Ho].
  - unfold mbind at 1, M_bind at 1, modify at 1. cbv beta iota.
    unfold mbind at 1, M_bind at 1.
    match goal with |- context [persistFailedEvent data ?q] => set (p2 := q) end.
    destruct (persist_queued data p2) as (p3 & -> & Hq3 & Hf3 & Ho3 & Hd3).
    intros [= <- <-].
    assert (queued p2 = queued p ∧ ep_delivered p2 = ep_delivered p1) as [Hq2 Hd2].
    { unfold p2. destruct (5 <=? ep_failures p1 + 1); split; [exact Hq | done | exact Hq | done]. }
    split_and!; [done | by rewrite Hd3, Hd2 | by rewrite Hq3, Hq2 |].
    rewrite Hf3, Ho3. unfold p2. rewrite Hf, Ho, (Hn eq_refl).
    destruct (5 <=? ep_failures p + 1); simpl; split; lia.
Qed.

(** ** The publisher as the bus of [Store] *)

Definition publisher_bus : BusOps Publisher Event := {| published := ep_delivered; bus_emit := publish |}.

(** It keeps what the other components are promised, for events the schemas leave
    as they are. *)
Lemma publisher_bus_laws `{!RedisListLaws L Stored} :
  (∀ e d, pe_parse env e = Ret d → d = e) → BusLaws (BusOps0 := publisher_bus) Publisher Event.
Proof.
  intros Hparse. split. intros e p. cbn [bus_emit published publisher_bus].
  pose proof (publish_cases e p) as H. destruct (publish e p) as [o p'].
  destruct (ep_now p <? ep_openUntil p); [by destruct o, H as [? ->]|].
  destruct (pe_parse env e) as [d|] eqn:E; [|by destruct o, H as [? ->]].
  apply Hparse in E as ->. destruct H as (Ho & Hd & _).
  destruct (existsb _ _); destruct o; try done. by rewrite Hd, app_nil_r.
Qed.
End Publisher.

(** an event is delivered once, stored once, or refused. While the circuit is
    open, or when the payload is invalid, publishing throws and changes
    nothing. Otherwise it succeeds exactly when the broker accepts one of three
    attempts; then the event is delivered once and the failure count is reset.
    If not, it throws, the event is stored once for replay, and the fifth failure
    in a row opens the circuit for 30 seconds. *)
Lemma publish_delivers_or_stores {Event : Type} `{!EqDecision Event} {L : Type}
    `{!RedisListOps L (Stored (Event := Event)), !RedisListLaws L (Stored (Event := Event))}
    (env : PublisherEnv (Event := Event)) (e : Event) (p : Publisher (Event := Event) (L := L)) :
  let '(o, p') := publish env e p in
  let accepted := existsb (pe_send env) (seq (ep_sends p) 3) in
  if ep_now p <? ep_openUntil p then is_ret o = false ∧ p' = p
  else match pe_parse env e with
       | Throw _ => is_ret o = false ∧ p' = p
       | Ret data =>
           is_ret o = accepted ∧
           ep_delivered p' = ep_delivered p ++ (if accepted then [data] else []) ∧
           queued p' ≡ₚ queued p ++ (if accepted then [] else [StoredEvent data]) ∧
           (if accepted then ep_failures p' = 0 ∧ ep_openUntil p' = ep_openUntil p
            else if 5 <=? ep_failures p + 1
                 then ep_failures p' = 0 ∧ ep_openUntil p' = ep_now p + 300 + 30000
                 else ep_failures p' = ep_failures p + 1 ∧ ep_openUntil p' = ep_openUntil p)
       end.
Proof. by apply publish_cases. Qed.

Lemma publish_delivers_or_stores_witness :
  let env := {| pe_parse e := Ret e; pe_send n := (2 <=? n)%nat; pe_redisUp := true |} in
  let p := {| ep_failures := 3; ep_openUntil := 0; ep_now := 1000; ep_sends := 0; ep_redis := Some [];
              ep_fallback := []; ep_delivered := [] |} in
  ep_delivered (publish env "hand.start"%string p).2 = ["hand.start"%string]
  ∧ ep_failures (publish env "hand.start"%string p).2 = 0.
Proof.
  intros env p. pose proof (publish_delivers_or_stores env "hand.start"%string p) as H.
  destruct (publish env "hand.start"%string p) as [o p']. cbn in H.
  destruct H as (_ & H1 & _ & H2 & _). split; [exact H1 | exact H2].
Defined.

(** ** Replay *)

Section Replay.
Context {Event : Type} `{!EqDecision Event} {L : Type}
  `{!RedisListOps L (Stored (Event := Event)), !RedisListLaws L (Stored (Event := Event))}
  (env : PublisherEnv (Event := Event)).
Implicit Type p : Publisher (Event := Event) (L := L).
Hypothesis Hup : pe_redisUp env = true.

Lemma send_accepted (data : Event) delays p :
  pe_send env (ep_sends p) = true →
  send_attempts env data delays p
  = (Ret true, {| ep_failures := ep_failures p; ep_openUntil := ep_openUntil p; ep_now := ep_now p;
                  ep_sends := S (ep_sends p); ep_redis := ep_redis p; ep_fallback := ep_fallback p;
                  ep_delivered := ep_delivered p ++ [data] |}).
Proof. intros H. destruct delays; cbn [send_attempts]; unfold mbind, M_bind, send; by rewrite H. Qed.

(** A replay the broker accepts, with the rest of the list behind it. *)
Lemma replay_accepted (es : list Event) rest p :
  (∀ n, pe_send env n = true) → (∀ e, e ∈ es → pe_parse env e = Ret e) → ep_openUntil p <= ep_now p →
  l_range <$> ep_redis p = Some ((StoredEvent <$> es) ++ rest) →
  ∃ p', replay_stored env (StoredEvent <$> es) p = (Ret tt, p') ∧ l_range <$> ep_redis p' = Some rest ∧
    ep_delivered p' = ep_delivered p ++ es.
Proof.
  intros Hall. revert p; induction es as [|e es IH]; intros p Hparse Hopen Hr.
  { exists p. split_and!; [done | done | by rewrite app_nil_r]. }
  rewrite fmap_cons. cbn [replay_stored]. unfold mbind at 1, M_bind at 1, try_catch.
  unfold mbind at 1, M_bind at 1. unfold publish. unfold mbind at 1, M_bind at 1, gets at 1.
  destruct (Z.ltb_spec (ep_now p) (ep_openUntil p)); [lia|].
  unfold mbind at 1, M_bind at 1, throw_if, mret at 1, M_ret at 1. unfold mbind at 1, M_bind at 1, lift.
  rewrite Hparse by (apply elem_of_cons; by left).
  unfold mbind at 1, M_bind at 1. rewrite send_accepted by done.
  unfold modify at 1. unfold mbind at 1, M_bind at 1, removePersistedEvent, modify at 1.
  cbn [ep_redis set_circuit]. destruct (ep_redis p) as [l|] eqn:El; [|done]. injection Hr as Hr.
  rewrite Hup.
  unfold mret at 1, M_ret at 1. cbv beta iota.
  match goal with |- context [replay_stored env _ ?q] => destruct (IH q) as (p' & E & Hr' & Hd) end.
  - intros e' He'. apply Hparse, elem_of_cons. by right.
  - simpl. lia.
  - simpl. by rewrite range_rem, Hr, remove_first_head.
  - exists p'. split_and!; [exact E | exact Hr' |]. rewrite Hd. simpl. by rewrite <- app_assoc.
Qed.
End Replay.

(** replaying failed events. If the broker takes everything, a replay delivers
    the stored events in their order, each once, and empties the store. If it
    takes nothing, the replay stops at the first event, loses none -- but the
    failed attempt has stored that event a second time. *)
Lemma replay_in_order_or_duplicates {Event : Type} `{!EqDecision Event} {L : Type}
    `{!RedisListOps L (Stored (Event := Event)), !RedisListLaws L (Stored (Event := Event))}
    (env : PublisherEnv (Event := Event)) (es : list Event) (p : Publisher (Event := Event) (L := L))
    (Hup : pe_redisUp env = true) (Hparse : ∀ e, e ∈ es → pe_parse env e = Ret e)
    (Hclosed : ep_openUntil p <= ep_now p) (Hstored : l_range <$> ep_redis p = Some (StoredEvent <$> es)) :
  ((∀ n, pe_send env n = true) →
   ∃ p', replayFailed env p = (Ret tt, p') ∧ l_range <$> ep_redis p' = Some [] ∧ ep_delivered p' = ep_delivered p ++ es) ∧
  ((∀ n, pe_send env n = false) →
   ∃ p', replayFailed env p = (Ret tt, p') ∧ ep_delivered p' = ep_delivered p ∧
     l_range <$> ep_redis p' = Some ((StoredEvent <$> es) ++ (StoredEvent <$> option_list (head es)))).
Proof.
  unfold replayFailed, mbind, M_bind, gets. destruct (ep_redis p) as [l|] eqn:El; [|done].
  injection Hstored as Hl. rewrite Hl, Hup. split; intros Hsend.
  - apply replay_accepted; try done. rewrite El. simpl. by rewrite Hl, app_nil_r.
  - destruct es as [|e es].
    { exists p. split_and!; [done | done |]. rewrite El. simpl. by rewrite Hl. }
    rewrite fmap_cons. cbn [replay_stored].
    unfold mbind at 1, M_bind at 1, try_catch. unfold mbind at 1, M_bind at 1.
    unfold publish. unfold mbind at 1, M_bind at 1, gets at 1.
    destruct (Z.ltb_spec (ep_now p) (ep_openUntil p)); [lia|].
    unfold mbind at 1, M_bind at 1, throw_if, mret at 1, M_ret at 1. unfold mbind at 1, M_bind at 1, lift.
    rewrite Hparse by (apply elem_of_cons; by left).
    unfold mbind at 1, M_bind at 1.
    destruct (send_attempts_spec env e backoff p) as (p1 & -> & _ & _ & _ & Hr & _ & Hd).
    cbn [length backoff seq existsb] in *. rewrite !Hsend in *. cbn [orb] in *.
    unfold mbind at 1, M_bind at 1, modify at 1. unfold mbind at 1, M_bind at 1.
    unfold persistFailedEvent, modify at 1, throw.
    eexists. split; [reflexivity|].
    destruct (5 <=? ep_failures p1 + 1); cbn [ep_redis set_circuit ep_delivered set_stores];
      rewrite Hr, El, Hup; cbn [ep_redis ep_delivered set_stores set_circuit];
      (split; [by rewrite Hd, app_nil_r | simpl; by rewrite range_push, Hl]).
Qed.

Lemma replay_in_order_or_duplicates_witness :
  let env ok := {| pe_parse e := Ret e; pe_send n := ok; pe_redisUp := true |} in
  let p := {| ep_failures := 0; ep_openUntil := 0; ep_now := 0; ep_sends := 0;
              ep_redis := Some (StoredEvent <$> ["a"; "b"]%string); ep_fallback := []; ep_delivered := [] |} in
  (∃ p', replayFailed (env true) p = (Ret tt, p') ∧ l_range <$> ep_redis p' = Some [] ∧ ep_delivered p' = ["a"; "b"]%string) ∧
  (∃ p', replayFailed (env false) p = (Ret tt, p') ∧ ep_delivered p' = [] ∧
     l_range <$> ep_redis p' = Some (StoredEvent <$> ["a"; "b"; "a"]%string)).
Proof.
  intros env p. split.
  - refine (proj1 (replay_in_order_or_duplicates (env true) ["a"; "b"]%string p _ _ _ _) _); done.
  - refine (proj2 (replay_in_order_or_duplicates (env false) ["a"; "b"]%string p _ _ _ _) _); done.
Defined.
