(* ===== verification/Room.v ===== *)
(** * A room: one primary thread, one follower, requests in flight

    backend/src/game/room.service.ts over the message handlers of Engine.v. The
    ['apply'] handler of room.worker.ts is asynchronous: it gives way at every
    [await], and the thread may take another message meanwhile. The handler is
    therefore split at its awaits (on the feature flags and messages when Redis is
    connected, on the settlement rows in any case), and a room is driven by a schedule: clients post
    requests, the primary takes a message or resumes a handler, published states
    travel to the follower, and the primary may die at any moment, on which the
    follower is promoted. A schedule is executable, so concrete races evaluate. *)

From S2P Require Import Prelude Fairness HandEval SidePots StateMachine HandSafety Engine.
#[local] Open Scope Z_scope.

(** ** The ['apply'] handler, split at its awaits *)

(** Where a handler waits, with the local variables it still needs. *)
Inductive Await :=
| AwaitDealing                                                    (* before the loop *)
| AwaitDealingLoop
| AwaitSettlement (halted : bool) (idx : nat) (st : PublicState)  (* flag and reserve *)
| AwaitPublish (halted enabled : bool) (idx : nat) (st : PublicState)
| AwaitPublishCleared (enabled : bool) (idx : nat) (st : PublicState)
| AwaitCommit (st : PublicState).

Section Handler.
Context (sha256 : list Z → list Z).

Definition ready (halted : bool) : M GameEngine Await :=
  idx ← gets (last_index 0);
  st ← gets getPublicState;
  mret (AwaitSettlement halted idx st).

(** [while (phase === 'DEAL' && !dealingHalted)] up to the next await. *)
Definition loop_check : M GameEngine Await :=
  ph ← gets (λ e, g_phase (e_state e));
  if bool_decide (ph = DEAL) then mret AwaitDealingLoop else ready false.

Definition handler_start (a : GameAction) : M GameEngine Await :=
  before ← gets (λ e, g_phase (e_state e));
  applyAction sha256 a ;;
  ph ← gets (λ e, g_phase (e_state e));
  if bool_decide (before = WAIT_BLINDS ∧ ph = DEAL) then mret AwaitDealing else loop_check.

(** The end of the handler: commit, then reply. *)
Definition handler_finish (enabled : bool) (idx : nat) (st : PublicState)
    : list WorkerEvent * option Await :=
  if enabled then ([SettlementCommit (pub_street st) idx], Some (AwaitCommit st))
  else ([Reply st], None).

(** One resumption; [answer] is what the feature flag awaited says. *)
Definition handler_resume (answer : bool) (w : Await) : M GameEngine (list WorkerEvent * option Await) :=
  match w with
  | AwaitDealing =>
      w' ← if answer then loop_check else (modify resetToWaitBlinds ;; ready true);
      mret ([], Some w')
  | AwaitDealingLoop =>
      w' ← if answer then (applyAction sha256 NextAction ;; loop_check)
           else (modify resetToWaitBlinds ;; ready true);
      mret ([], Some w')
  | AwaitSettlement halted idx st =>
      mret ((if answer then [SettlementReserve (pub_street st) idx] else []) ++ [StateEvent st; Publish idx st],
            Some (AwaitPublish halted answer idx st))
  | AwaitPublish halted enabled idx st =>
      let halt := if halted then [DealingDisabled] else [] in
      if bool_decide (pub_phase st = SETTLE) then
        applyAction sha256 NextAction ;;
        idx' ← gets (last_index idx);
        st' ← gets getPublicState;
        mret (halt ++ [StateEvent st'; Publish idx' st'], Some (AwaitPublishCleared enabled idx' st'))
      else mret (halt ++ (handler_finish enabled idx st).1, (handler_finish enabled idx st).2)
  | AwaitPublishCleared enabled idx st => mret (handler_finish enabled idx st)
  | AwaitCommit st => mret ([Reply st], None)
  end.

(** A handler no other message interrupts. *)
Fixpoint handler_alone (fuel : nat) (dealing : nat → bool) (settlement : bool) (n : nat) (w : Await)
    : M GameEngine (list WorkerEvent) :=
  match fuel with
  | O => throw "out of fuel"
  | S fuel' =>
      let '(answer, n') := match w with
                           | AwaitDealing | AwaitDealingLoop => (dealing n, S n)
                           | _ => (settlement, n)
                           end in
      r ← handler_resume answer w;
      match r.2 with
      | None => mret r.1
      | Some w' => rest ← handler_alone fuel' dealing settlement n' w'; mret (r.1 ++ rest)
      end
  end.
Arguments handler_alone : simpl never.

(** ** Uninterrupted, it is [worker_apply] *)

(** The part of [worker_apply] behind the dealing. *)
Definition publish_part (b halted : bool) : M GameEngine (list WorkerEvent) :=
  idx ← gets (last_index 0);
  st ← gets getPublicState;
  let reserved := if b then [SettlementReserve (pub_street st) idx] else [] in
  let first := [StateEvent st; Publish idx st] in
  let halt := if halted then [DealingDisabled] else [] in
  if bool_decide (pub_phase st = SETTLE) then
    applyAction sha256 NextAction ;;
    idx' ← gets (last_index idx);
    st' ← gets getPublicState;
    mret (reserved ++ first ++ halt ++ [StateEvent st'; Publish idx' st']
          ++ (if b then [SettlementCommit (pub_street st') idx'] else []) ++ [Reply st'])
  else
    mret (reserved ++ first ++ halt
          ++ (if b then [SettlementCommit (pub_street st) idx] else []) ++ [Reply st]).

Lemma handler_alone_S fuel dealing b n w e :
  handler_alone (S fuel) dealing b n w e
  = let '(answer, n') := match w with
                         | AwaitDealing | AwaitDealingLoop => (dealing n, S n)
                         | _ => (b, n)
                         end in
    match handler_resume answer w e with
    | (Ret r, e') =>
        match r.2 with
        | None => (Ret r.1, e')
        | Some w' => match handler_alone fuel dealing b n' w' e' with
                     | (Ret rest, e'') => (Ret (r.1 ++ rest), e'')
                     | (Throw x, e'') => (Throw x, e'')
                     end
        end
    | (Throw x, e') => (Throw x, e')
    end.
Proof.
  unfold handler_alone; fold handler_alone. destruct w; unfold mbind at 1, M_bind at 1;
    destruct (handler_resume _ _ e) as [[[evs [w'|]]|x] e']; done.
Qed.

Lemma handler_finish_alone fuel dealing b n idx st e :
  match (handler_finish b idx st).2 with
  | None => (Ret (handler_finish b idx st).1, e)
  | Some w' => match handler_alone (S fuel) dealing b n w' e with
               | (Ret rest, e'') => (Ret ((handler_finish b idx st).1 ++ rest), e'')
               | (Throw x, e'') => (Throw x, e'')
               end
  end = (Ret ((if b then [SettlementCommit (pub_street st) idx] else []) ++ [Reply st]), e).
Proof. destruct b; cbn [handler_finish fst snd]; [rewrite handler_alone_S|]; done. Qed.

Lemma publish_alone fuel dealing b halted n idx st e :
  last_index 0 e = idx → getPublicState e = st →
  handler_alone (S (S (S (S fuel)))) dealing b n (AwaitSettlement halted idx st) e = publish_part b halted e.
Proof.
  intros Hi Hs. rewrite handler_alone_S. cbn [handler_resume]. unfold mret at 1, M_ret at 1. cbn [snd fst].
  rewrite handler_alone_S. cbn [handler_resume].
  unfold publish_part. unfold mbind at 4, M_bind at 4, gets at 3. unfold mbind at 4, M_bind at 4, gets at 3.
  rewrite Hi, Hs. cbv zeta.
  destruct (bool_decide (pub_phase st = SETTLE)).
  - unfold mbind at 1 4, M_bind at 1 4.
    destruct (applyAction sha256 NextAction e) as [[s|x] e1]; [|done].
    unfold mbind, M_bind, gets, mret, M_ret. cbn [fst snd].
    rewrite handler_alone_S. cbn [handler_resume]. unfold mret, M_ret.
    rewrite handler_finish_alone. by rewrite <- !app_assoc.
  - unfold mret at 1, M_ret at 1. cbn [fst snd].
    destruct b; cbn [handler_finish fst snd]; [rewrite handler_alone_S; cbn [handler_resume]|];
      unfold mret, M_ret; cbn [fst snd]; by rewrite <- ?app_assoc.
Qed.

Lemma apply_deal_phase seed m s m' :
  g_phase (m_state m) = DEAL → hsm_apply sha256 seed NextAction m = (Ret s, m') →
  g_phase (m_state m') = BETTING_ROUND.
Proof.
  intros Hph. unfold hsm_apply. unfold mbind at 1, M_bind at 1, gets at 1. rewrite Hph.
  unfold mbind at 1, M_bind at 1. unfold apply_deal. unfold mbind at 1, M_bind at 1, gets at 1.
  unfold mbind at 1, M_bind at 1.
  match goal with |- context [match ?o m with _ => _ end] => destruct (o m) as [[u|x] m1] end; [|done].
  unfold state_modify, modify, gets. by intros [= _ <-].
Qed.

Lemma apply_showdown_phase seed m s m' :
  g_phase (m_state m) = SHOWDOWN → hsm_apply sha256 seed NextAction m = (Ret s, m') →
  g_phase (m_state m') = SETTLE.
Proof.
  intros Hph. unfold hsm_apply. unfold mbind at 1, M_bind at 1, gets at 1. rewrite Hph.
  unfold apply_showdown, mbind, M_bind, state_modify, modify, gets. by intros [= _ <-].
Qed.

Lemma settle_phase e : g_phase (e_state (settle sha256 e)) = g_phase (e_state e).
Proof.
  unfold settle. destruct (activePlayers (e_state e)); [done|]. unfold e_state, settlePots. simpl.
  by destruct (active_seats _).
Qed.

Lemma next_leaves_deal e s e' :
  g_phase (e_state e) = DEAL → applyAction sha256 NextAction e = (Ret s, e') → g_phase (e_state e') ≠ DEAL.
Proof.
  intros Hph. unfold applyAction. unfold mbind at 1, M_bind at 1, gets at 1.
  unfold mbind at 1, M_bind at 1. unfold machine_apply at 1.
  destruct (hsm_apply _ _ NextAction (e_machine e)) as [[s1|x] m1] eqn:E1; [|done].
  apply apply_deal_phase in E1; [|done]. unfold mbind at 1, M_bind at 1, modify at 1.
  unfold mbind at 1, M_bind at 1, gets at 1. cbn [e_state with_machine e_machine m_state].
  unfold mbind at 1, M_bind at 1, when. case_bool_decide as Hs.
  - unfold mbind at 1, M_bind at 1. unfold machine_apply at 1.
    match goal with |- context [hsm_apply _ ?sd NextAction ?m] =>
      destruct (hsm_apply sha256 sd NextAction m) as [[s2|x] m2] eqn:E2; [|done];
      apply apply_showdown_phase in E2; [|exact Hs] end.
    unfold modify, mbind, M_bind, gets. intros [= _ <-].
    match goal with |- context [settle sha256 ?q] =>
      change (g_phase (e_state (settle sha256 q)) ≠ DEAL) end.
    rewrite settle_phase. change (g_phase (m_state m2) ≠ DEAL). by rewrite E2.
  - unfold mret, M_ret, modify, mbind, M_bind, gets. intros [= _ <-].
    unfold log_action, with_machine, e_state in *. cbn [e_machine m_state] in *.
    unfold alone_to_showdown in *. by case_bool_decide; rewrite ?E1.
Qed.

Lemma ready_alone fuel dealing b halted n e :
  (w ← ready halted; handler_alone (S (S (S (S fuel)))) dealing b n w) e = publish_part b halted e.
Proof. unfold ready, mbind at 1, M_bind at 1, gets, mret, M_ret. by apply publish_alone. Qed.

(** Behind a dealing await: the flag, then whatever produces the next await. *)
Lemma resume_dealing fuel dealing b n w (m : M GameEngine Await) e :
  (∀ e', handler_resume (dealing n) w e' = (w' ← m; mret ([], Some w')) e') →
  (w = AwaitDealing ∨ w = AwaitDealingLoop) →
  handler_alone (S fuel) dealing b n w e = (w' ← m; handler_alone fuel dealing b (S n) w') e.
Proof.
  intros H Hw. rewrite handler_alone_S.
  assert ((match w with AwaitDealing | AwaitDealingLoop => (dealing n, S n) | _ => (b, n) end)
          = (dealing n, S n)) as -> by (by destruct Hw as [->| ->]).
  rewrite H. unfold mbind, M_bind. destruct (m e) as [[w'|x] e']; [|done].
  unfold mret, M_ret. cbn [fst snd].
  by destruct (handler_alone fuel dealing b (S n) w' e') as [[rest|x] e''].
Qed.

Lemma halt_alone fuel dealing b n e :
  (w' ← (modify resetToWaitBlinds ;; ready true); handler_alone (S (S (S (S fuel)))) dealing b n w') e
  = (modify resetToWaitBlinds ;; publish_part b true) e.
Proof.
  pose proof (ready_alone fuel dealing b true n (resetToWaitBlinds e)) as H.
  unfold mbind, M_bind, modify in *. exact H.
Qed.

Lemma loop_alone fuel fuel' dealing b n e :
  (w ← loop_check; handler_alone (S (S (S (S (S fuel))))) dealing b n w) e
  = (h ← deal_loop sha256 (S (S fuel')) dealing n; publish_part b h) e.
Proof.
  unfold loop_check. cbn [deal_loop]. unfold mbind at 1 3, M_bind at 1 3. unfold mbind at 1 2, M_bind at 1 2, gets at 1 2.
  case_bool_decide as Hph; [|apply ready_alone].
  unfold mret at 1, M_ret at 1.
  rewrite (resume_dealing _ _ _ _ _
    (if dealing n then (applyAction sha256 NextAction ;; loop_check)
     else (modify resetToWaitBlinds ;; ready true))); [|by intros; destruct (dealing n) | by right].
  destruct (dealing n).
  - unfold mbind at 1 2 3, M_bind at 1 2 3.
    destruct (applyAction sha256 NextAction e) as [[s|x] e1] eqn:Ea; [|done].
    pose proof (next_leaves_deal _ _ _ Hph Ea) as Hne.
    unfold loop_check, gets, mbind at 1 2, M_bind at 1 2. rewrite bool_decide_eq_false_2 by done.
    apply ready_alone.
  - rewrite halt_alone. by unfold mbind, M_bind, modify.
Qed.
End Handler.

(** the message handler, run without interruption, is the worker's action.
    Split at its awaits and resumed until it replies, with no other message in
    between, the handler gives the messages, the engine and the error of
    [worker_apply], whatever the feature flags answer: six resumptions are
    enough. *)
Lemma handler_alone_is_worker_apply (sha256 : list Z → list Z) (fuel fuel' : nat) (dealing : nat → bool)
    (settlement : bool) (a : GameAction) (e : GameEngine) :
  (w ← handler_start sha256 a; handler_alone sha256 (6 + fuel) dealing settlement 0 w) e
  = worker_apply sha256 (2 + fuel') dealing settlement a e.
Proof.
  transitivity (match applyAction sha256 a e with
    | (Ret _, e1) =>
        if bool_decide (g_phase (e_state e) = WAIT_BLINDS ∧ g_phase (e_state e1) = DEAL)
        then handler_alone sha256 (6 + fuel) dealing settlement 0 AwaitDealing e1
        else (w ← loop_check; handler_alone sha256 (6 + fuel) dealing settlement 0 w) e1
    | (Throw x, e1) => (Throw x, e1)
    end).
  { unfold handler_start, mbind at 1 2 3 4, M_bind at 1 2 3 4, gets.
    destruct (applyAction sha256 a e) as [[s|x] e1]; [|done]. by case_bool_decide. }
  transitivity (match applyAction sha256 a e with
    | (Ret _, e1) => (halted ← auto_deal sha256 (2 + fuel') dealing (g_phase (e_state e));
                      publish_part sha256 settlement halted) e1
    | (Throw x, e1) => (Throw x, e1)
    end).
  2: { unfold worker_apply, mbind, M_bind, gets. by destruct (applyAction sha256 a e) as [[s|x] e1]. }
  destruct (applyAction sha256 a e) as [[s|x] e1]; [|done].
  unfold auto_deal. unfold mbind at 2 3, M_bind at 2 3, gets.
  case_bool_decide; [|apply loop_alone]. cbn [Nat.add].
  rewrite (resume_dealing _ _ _ _ _ _
    (if dealing 0%nat then loop_check else (modify resetToWaitBlinds ;; ready true)));
    [|by intros; destruct (dealing 0%nat) | by left].
  destruct (dealing 0%nat); [apply loop_alone|]. rewrite halt_alone. by unfold mbind, M_bind, modify.
Qed.

(** ** Messages *)

(** A state as the follower sees it: whole from a snapshot, public from the
    channel. *)
Inductive SeenState := Internal (s : GameStateInternal) | Public (s : PublicState).

Inductive RoomRequest :=
| RApply (a : GameAction) | RGetState | RReplay | RResume (from : nat)
| RSnapshot (states : list (nat * SeenState)) | RPing | RGetHandId.

(** What the promise of a request resolves to: [msg.state ?? msg.states ?? msg.ok]. *)
Inductive Answer :=
| AState (s : option SeenState) | AStates (l : list (nat * SeenState)) | AOk | AHandId (id : string).

Definition logged_states (from : nat) (e : GameEngine) : list (nat * SeenState) :=
  (λ p, (p.1, Internal p.2)) <$> worker_resume from e.

Definition published (evs : list WorkerEvent) : list (nat * SeenState) :=
  omap (λ ev, match ev with Publish i s => Some (i, Public s) | _ => None end) evs.
Definition reply_of (evs : list WorkerEvent) : option SeenState :=
  head (omap (λ ev, match ev with Reply s => Some (Public s) | _ => None end) evs).

(** room.follower.ts: it has no case for ['apply'], so it does not answer. *)
Definition follower_handle (req : RoomRequest) (f : Follower SeenState) : option Answer * Follower SeenState :=
  match req with
  | RApply _ => (None, f)
  | RSnapshot states => (Some AOk, snd (follower_snapshot states))
  | RGetState | RReplay => (Some (AState (f_current f)), f)
  | RResume from => (Some (AStates (follower_resume from f)), f)
  | RPing => (Some AOk, f)
  | RGetHandId => (Some (AHandId ""), f)
  end.

(** ** Rooms *)

Record Room := MkRoom {
  rm_leader : option GameEngine;        (* the primary thread, until it dies *)
  rm_follower : Follower SeenState;
  rm_inbox : list (nat * RoomRequest);  (* posted to the primary, not yet taken *)
  rm_running : list (nat * Await);      (* handlers waiting at an await *)
  rm_waiting : gmap nat RoomRequest;    (* [pending]: promises not settled *)
  rm_seq : nat;
  rm_answers : list (nat * outcome Answer);
  rm_diffs : list (nat * SeenState);    (* on the channel, not yet received *)
  rm_sync : option (list (nat * SeenState));
  rm_applied : nat; rm_confirmed : nat }.

Definition new_room (e : GameEngine) : Room :=
  MkRoom (Some e) {| f_log := []; f_current := None |} [] [] ∅ 0 [] [] None 0 0.

(** [call] *)
Definition post (req : RoomRequest) (r : Room) : Room :=
  let n := S (rm_seq r) in
  MkRoom (rm_leader r) (rm_follower r) (rm_inbox r ++ [(n, req)]) (rm_running r)
    (<[n := req]> (rm_waiting r)) n
    (rm_answers r) (rm_diffs r) (rm_sync r) (rm_applied r) (rm_confirmed r).

Definition set_threads (leader : option GameEngine) (f : Follower SeenState) (inbox : list (nat * RoomRequest))
    (running : list (nat * Await)) (diffs : list (nat * SeenState)) (r : Room) : Room :=
  MkRoom leader f inbox running (rm_waiting r) (rm_seq r) (rm_answers r) diffs (rm_sync r)
    (rm_applied r) (rm_confirmed r).

(** The message handler of [WorkerHost]: the promise resolves; an action's caller
    counts it. *)
Definition answered (n : nat) (ans : Answer) (is_apply : bool) (r : Room) : Room :=
  let applied := if is_apply then S (rm_applied r) else rm_applied r in
  MkRoom (rm_leader r) (rm_follower r) (rm_inbox r) (rm_running r) (delete n (rm_waiting r)) (rm_seq r)
    (rm_answers r ++ [(n, Ret ans)]) (rm_diffs r) (rm_sync r) applied
    (if is_apply then applied else rm_confirmed r).

(** The thread ends: its promises are rejected and the follower takes over.
    Request numbers go on, so that they stay distinct. *)
Definition promoteFollower (reason : string) (r : Room) : Room :=
  MkRoom None (rm_follower r) [] [] ∅ (rm_seq r)
    (rm_answers r ++ ((λ p, (p.1, Throw reason)) <$> map_to_list (rm_waiting r)))
    (rm_diffs r) (rm_sync r) (rm_applied r) (rm_applied r).

Definition synced (f : Follower SeenState) (sync : option (list (nat * SeenState))) (confirmed : nat)
    (r : Room) : Room :=
  MkRoom (rm_leader r) f (rm_inbox r) (rm_running r) (rm_waiting r) (rm_seq r) (rm_answers r) (rm_diffs r)
    sync (rm_applied r) confirmed.

(** What happens next: a client posts a request; the thread takes a message, or
    resumes its [i]-th waiting handler with the flag it awaits; the thread dies;
    a published state reaches the follower; the follower's synchronisation reads
    the log, and writes it. *)
Inductive Label :=
| Call (req : RoomRequest) | Take | Resume (i : nat) (answer : bool) | Exit
| ReceiveDiff | SyncRead | SyncWrite.

Section Room.
Context (sha256 : list Z → list Z).
(** The bytes a replay draws, the hand's id. *)
Context (replay_bytes : list Z * list Z) (handId : string).

(** room.worker.ts: the messages that are answered at once. *)
Definition leader_handle (req : RoomRequest) (e : GameEngine) : outcome Answer :=
  match req with
  | RApply _ => Throw "not answered at once"
  | RGetState => Ret (AState (Some (Public (getPublicState e))))
  | RReplay =>
      match replayHand sha256 replay_bytes.1 replay_bytes.2 e with
      | Ret _ => Ret (AState (Some (Public (getPublicState e))))
      | Throw x => Throw x
      end
  | RResume from => Ret (AStates (logged_states from e))
  | RSnapshot _ => Ret (AStates (logged_states 0 e))
  | RPing => Ret AOk
  | RGetHandId => Ret (AHandId handId)
  end.

(** An error in a handler ends the thread. *)
Definition crash (x : string) (r : Room) : Room := promoteFollower ("worker error: " +:+ x) r.

Definition answer_message (e : GameEngine) (n : nat) (req : RoomRequest) (rest : list (nat * RoomRequest))
    (r : Room) : Room :=
  match leader_handle req e with
  | Ret ans => answered n ans false (set_threads (Some e) (rm_follower r) rest (rm_running r) (rm_diffs r) r)
  | Throw x => crash x r
  end.

Definition take_message (e : GameEngine) (n : nat) (req : RoomRequest) (rest : list (nat * RoomRequest))
    (r : Room) : Room :=
  match req with
  | RApply a =>
      match handler_start sha256 a e with
      | (Ret w, e') => set_threads (Some e') (rm_follower r) rest (rm_running r ++ [(n, w)]) (rm_diffs r) r
      | (Throw x, _) => crash x r
      end
  | _ => answer_message e n req rest r
  end.

Definition resume_handler (answer : bool) (e : GameEngine) (i n : nat) (w : Await) (r : Room) : Room :=
  match handler_resume sha256 answer w e with
  | (Ret (evs, next), e') =>
      let running := match next with
                     | Some w' => <[i := (n, w')]> (rm_running r)
                     | None => delete i (rm_running r)
                     end in
      let r' := set_threads (Some e') (rm_follower r) (rm_inbox r) running (rm_diffs r ++ published evs) r in
      match next with
      | Some _ => r'
      | None => answered n (AState (reply_of evs)) true r'
      end
  | (Throw x, _) => crash x r
  end.

Definition follower_take (n : nat) (req : RoomRequest) (rest : list (nat * RoomRequest)) (r : Room) : Room :=
  let '(ans, f) := follower_handle req (rm_follower r) in
  let r' := set_threads None f rest (rm_running r) (rm_diffs r) r in
  match ans with Some ans => answered n ans false r' | None => r' end.

Definition room_next (l : Label) (r : Room) : option Room :=
  match l with
  | Call req => Some (post req r)
  | Take =>
      match rm_inbox r, rm_leader r with
      | [], _ => None
      | (n, req) :: rest, Some e => Some (take_message e n req rest r)
      | (n, req) :: rest, None => Some (follower_take n req rest r)
      end
  | Resume i answer =>
      match rm_leader r, rm_running r !! i with
      | Some e, Some (n, w) => Some (resume_handler answer e i n w r)
      | _, _ => None
      end
  | Exit => match rm_leader r with Some _ => Some (promoteFollower "worker exited" r) | None => None end
  | ReceiveDiff =>
      match rm_diffs r with
      | [] => None
      | (i, s) :: rest =>
          Some (set_threads (rm_leader r) (follower_diff i s (rm_follower r)) (rm_inbox r) (rm_running r) rest r)
      end
  | SyncRead =>
      match rm_leader r with
      | Some e => Some (synced (rm_follower r) (Some (logged_states 0 e)) (rm_confirmed r) r)
      | None => None
      end
  | SyncWrite =>
      match rm_sync r with
      | Some states => Some (synced (snd (follower_snapshot states)) None (length states) r)
      | None => None
      end
  end.

(** A schedule; [None] if a step of it is not possible. *)
Fixpoint room_exec (ls : list Label) (r : Room) : option Room :=
  match ls with
  | [] => Some r
  | l :: ls' => match room_next l r with Some r' => room_exec ls' r' | None => None end
  end.

Lemma room_exec_app ls ls' r :
  room_exec (ls ++ ls') r = match room_exec ls r with Some r' => room_exec ls' r' | None => None end.
Proof. revert r; induction ls as [|l ls IH]; intros r; simpl; [done|]. by destruct (room_next l r). Qed.

(** An invariant of every step holds after every schedule. *)
Lemma room_exec_ind (P : list Label → Room → Prop) r0 :
  P [] r0 → (∀ ls l r r', P ls r → room_next l r = Some r' → P (ls ++ [l]) r') →
  ∀ ls r, room_exec ls r0 = Some r → P ls r.
Proof.
  intros H0 Hstep ls. induction ls as [|l ls IH] using rev_ind; intros r H; [by injection H as <-|].
  rewrite room_exec_app in H. destruct (room_exec ls r0) as [r1|] eqn:E; [|done].
  simpl in H. destruct (room_next l r1) as [r2|] eqn:En; [|done]. injection H as <-. eauto.
Qed.

(** ** In flight *)

(** Messages and handlers in flight belong to waiting promises, each number once;
    a dead thread runs nothing. *)
Record room_inv (r : Room) : Prop := {
  ri_inbox : ∀ n req, (n, req) ∈ rm_inbox r → rm_waiting r !! n = Some req;
  ri_running : ∀ n w, (n, w) ∈ rm_running r → ∃ a, rm_waiting r !! n = Some (RApply a);
  ri_seq : ∀ n req, rm_waiting r !! n = Some req → (n ≤ rm_seq r)%nat;
  ri_nodup : NoDup ((rm_inbox r).*1 ++ (rm_running r).*1);
  ri_dead : rm_leader r = None → rm_running r = [] }.

Lemma room_inv_new e : room_inv (new_room e).
Proof. split; [intros n req []%elem_of_nil | intros n w []%elem_of_nil | done | constructor | done]. Qed.

Lemma room_inv_promote reason r : room_inv (promoteFollower reason r).
Proof. split; [intros n req []%elem_of_nil | intros n w []%elem_of_nil | done | constructor | done]. Qed.

Lemma room_inv_post req r : room_inv r → room_inv (post req r).
Proof.
  intros [Hi Hr Hs Hn Hd].
  assert (∀ n q, rm_waiting r !! n = Some q → n ≠ S (rm_seq r)) as Hnew.
  { intros n q ?%Hs. lia. }
  split; simpl; [| | | |done].
  - intros n q [Hin|[= -> ->]%list_elem_of_singleton]%elem_of_app; [|by rewrite lookup_insert_eq].
    rewrite lookup_insert_ne; [by apply Hi|]. intros E. by apply (Hnew n q (Hi n q Hin)).
  - intros n w Hin. destruct (Hr n w Hin) as [a Ha]. exists a. rewrite lookup_insert_ne; [done|].
    intros E. by apply (Hnew _ _ Ha).
  - intros n q [[<- <-]|[_ Hq]]%lookup_insert_Some; [done|]. apply Hs in Hq. lia.
  - rewrite fmap_app, <- app_assoc. cbn [fmap list_fmap app fst].
    apply NoDup_app in Hn as (Hn1 & Hn12 & Hn2).
    apply NoDup_app. split_and!; [done | |].
    + intros n Hn. apply not_elem_of_cons. split; [|by apply Hn12].
      apply list_elem_of_fmap in Hn as ([m q] & -> & Hin). apply (Hnew _ _ (Hi _ _ Hin)).
    + apply NoDup_cons. split; [|done]. intros ([m w] & E & Hin)%list_elem_of_fmap.
      destruct (Hr m w Hin) as [a Ha]. by apply (Hnew _ _ Ha).
Qed.

(** A promise whose message and handler are gone may settle. *)
Lemma room_inv_answered n ans b r :
  room_inv r → n ∉ (rm_inbox r).*1 ++ (rm_running r).*1 → room_inv (answered n ans b r).
Proof.
  intros [Hi Hr Hs Hn Hd] Hni. rewrite elem_of_app in Hni.
  split; simpl; [| | |done|done].
  - intros m q Hin. rewrite lookup_delete_ne; [by apply Hi|]. intros ->. apply Hni. left.
    apply list_elem_of_fmap. by exists (m, q).
  - intros m w Hin. rewrite lookup_delete_ne; [by eapply Hr|]. intros ->. apply Hni. right.
    apply list_elem_of_fmap. by exists (m, w).
  - intros m q [_ Hm]%lookup_delete_Some. by eapply Hs.
Qed.

(** Taking the head message, perhaps into a running handler. *)
Lemma room_inv_take leader f n req rest running diffs r :
  room_inv r → rm_inbox r = (n, req) :: rest → (leader = None → running = []) →
  running = rm_running r ∨ (∃ w a, running = rm_running r ++ [(n, w)] ∧ req = RApply a) →
  room_inv (set_threads leader f rest running diffs r) ∧
  (running = rm_running r → n ∉ rest.*1 ++ running.*1).
Proof.
  intros [Hi Hr Hs Hn Hd] E Hdead Hrun. rewrite E in Hi, Hn.
  rewrite fmap_cons in Hn. cbn [fst app] in Hn. apply NoDup_cons in Hn as [Hni Hn].
  split; [|by intros ->]. split; simpl; [| |done| |done].
  - intros m q Hin. apply Hi. by right.
  - intros m w Hin. destruct Hrun as [->|(w' & a & -> & ->)]; [by eapply Hr|].
    apply elem_of_app in Hin as [Hin|[= -> ->]%list_elem_of_singleton]; [by eapply Hr|].
    exists a. apply Hi. by left.
  - destruct Hrun as [->|(w' & a & -> & ->)]; [done|].
    rewrite fmap_app, app_assoc. apply NoDup_app. split_and!; [done | |apply NoDup_singleton].
    intros m Hm ->%list_elem_of_singleton. by apply Hni.
Qed.

Lemma room_inv_resumed e e' i n w w' diffs r :
  room_inv r → rm_leader r = Some e → rm_running r !! i = Some (n, w) →
  room_inv (set_threads (Some e') (rm_follower r) (rm_inbox r) (<[i := (n, w')]> (rm_running r)) diffs r).
Proof.
  intros [Hi Hr Hs Hn Hd] Hl E. split; simpl; [done| |done| |done].
  - intros m v Hin. apply list_elem_of_lookup in Hin as [j Hj].
    apply list_lookup_insert_Some in Hj as [(<- & [= <- <-] & _)|[_ Hj]].
    + eapply Hr, list_elem_of_lookup_2, E.
    + eapply Hr, list_elem_of_lookup_2, Hj.
  - rewrite list_fmap_insert, list_insert_id; [done|]. by rewrite list_lookup_fmap, E.
Qed.

Lemma room_inv_finished e e' i n w diffs r :
  room_inv r → rm_leader r = Some e → rm_running r !! i = Some (n, w) →
  let r' := set_threads (Some e') (rm_follower r) (rm_inbox r) (delete i (rm_running r)) diffs r in
  room_inv r' ∧ n ∉ (rm_inbox r').*1 ++ (rm_running r').*1.
Proof.
  intros [Hi Hr Hs Hn Hd] Hl E.
  pose proof (delete_Permutation _ _ _ E) as Hp.
  assert ((rm_inbox r).*1 ++ (rm_running r).*1 ≡ₚ n :: ((rm_inbox r).*1 ++ (delete i (rm_running r)).*1)) as Hp'.
  { rewrite Hp at 1. rewrite fmap_cons. cbn [fst]. by rewrite Permutation_middle. }
  rewrite Hp' in Hn. apply NoDup_cons in Hn as [Hni Hn].
  split; [|done]. split; simpl; [done| |done|done|done].
  intros m v Hin. apply (Hr m v). rewrite Hp. by right.
Qed.

Lemma room_inv_answer_message e n req rest r :
  room_inv r → rm_inbox r = (n, req) :: rest → room_inv (answer_message e n req rest r).
Proof.
  intros H E. unfold answer_message. destruct (leader_handle req e); [|apply room_inv_promote].
  destruct (room_inv_take (Some e) (rm_follower r) n req rest (rm_running r) (rm_diffs r) r H E
    ltac:(done) ltac:(by left)) as [Hi Hni].
  apply room_inv_answered; [exact Hi | by apply Hni].
Qed.

Lemma room_inv_next l r r' : room_inv r → room_next l r = Some r' → room_inv r'.
Proof.
  intros H. destruct l as [req| |i answer| | | |]; simpl.
  - intros [= <-]. by apply room_inv_post.
  - destruct (rm_inbox r) as [|[n req] rest] eqn:E; [done|].
    destruct (rm_leader r) as [e|] eqn:El; intros [= <-].
    + unfold take_message. destruct req as [a| | | | | |].
      { destruct (handler_start sha256 a e) as [[w|x] e'];
          [|apply room_inv_promote]. eapply room_inv_take; [done|exact E|done|right; eauto]. }
      all: by apply room_inv_answer_message.
    + unfold follower_take. destruct (follower_handle req (rm_follower r)) as [ans f].
      destruct (room_inv_take None f n req rest (rm_running r) (rm_diffs r) r H E
        ltac:(intros _; by apply H) ltac:(by left)) as [Hi Hni].
      destruct ans; [|done]. apply room_inv_answered; [exact Hi | by apply Hni].
  - destruct (rm_leader r) as [e|] eqn:El; [|done]. destruct (rm_running r !! i) as [[n w]|] eqn:E; [|done].
    intros [= <-]. unfold resume_handler.
    destruct (handler_resume sha256 answer w e) as [[[evs [w'|]]|x] e'].
    + by eapply room_inv_resumed.
    + destruct (room_inv_finished e e' i n w (rm_diffs r ++ published evs) r H El E) as [Hi Hni].
      by apply room_inv_answered.
    + apply room_inv_promote.
  - destruct (rm_leader r); [|done]. intros [= <-]. apply room_inv_promote.
  - destruct (rm_diffs r) as [|[i s] rest]; [done|]. intros [= <-]. by destruct H.
  - destruct (rm_leader r) eqn:El; [|done]. intros [= <-]. destruct H. by split.
  - destruct (rm_sync r); [|done]. intros [= <-]. by destruct H.
Qed.

Lemma room_inv_exec ls e0 r : room_exec ls (new_room e0) = Some r → room_inv r.
Proof.
  apply (room_exec_ind (λ _, room_inv)); [apply room_inv_new | intros; by eapply room_inv_next].
Qed.

(** ** Before a failover *)

Definition calls_of (ls : list Label) : list RoomRequest :=
  omap (λ l, match l with Call req => Some req | _ => None end) ls.
Definition actions_of (reqs : list RoomRequest) : list GameAction :=
  omap (λ req, match req with RApply a => Some a | _ => None end) reqs.

(** What the thread does to its engine: a client's action, an automatic [next],
    the reset when dealing is off. *)
Inductive EngineInput := Posted (a : GameAction) | AutoNext | Halted.

Definition accept (a : GameAction) (e : GameEngine) : option GameEngine :=
  match applyAction sha256 a e with (Ret _, e') => Some e' | (Throw _, _) => None end.
Definition input_step (i : EngineInput) (e : GameEngine) : option GameEngine :=
  match i with
  | Posted a => accept a e
  | AutoNext => accept NextAction e
  | Halted => Some (resetToWaitBlinds e)
  end.
Fixpoint run_inputs (ins : list EngineInput) (e : GameEngine) : option GameEngine :=
  match ins with
  | [] => Some e
  | i :: ins' => match input_step i e with Some e' => run_inputs ins' e' | None => None end
  end.
Definition posted (ins : list EngineInput) : list GameAction :=
  omap (λ i, match i with Posted a => Some a | _ => None end) ins.

Lemma run_inputs_app ins ins' e :
  run_inputs (ins ++ ins') e = match run_inputs ins e with Some e' => run_inputs ins' e' | None => None end.
Proof. revert e; induction ins as [|i ins IH]; intros e; simpl; [done|]. by destruct (input_step i e). Qed.

Lemma loop_check_state e w e' : loop_check e = (Ret w, e') → e' = e.
Proof.
  unfold loop_check, ready, mbind, M_bind, gets, mret, M_ret. case_bool_decide; by intros [= _ <-].
Qed.

Lemma handler_start_inputs a e w e' :
  handler_start sha256 a e = (Ret w, e') → run_inputs [Posted a] e = Some e'.
Proof.
  unfold handler_start. unfold mbind at 1 2 3, M_bind at 1 2 3, gets. simpl. unfold accept.
  destruct (applyAction sha256 a e) as [[s|x] e1]; [|done].
  case_bool_decide; [by intros [= _ <-] | by intros ->%loop_check_state].
Qed.

Lemma handler_resume_inputs answer w e x e' :
  handler_resume sha256 answer w e = (Ret x, e') →
  ∃ ins, run_inputs ins e = Some e' ∧ posted ins = [].
Proof.
  destruct w; cbn [handler_resume].
  - unfold mbind at 1, M_bind at 1. destruct answer.
    + destruct (loop_check e) as [[w|y] e1] eqn:E; [|done]. intros [= _ <-].
      apply loop_check_state in E as ->. by exists [].
    + intros [= _ <-]. by exists [Halted].
  - unfold mbind at 1, M_bind at 1. destruct answer.
    + unfold mbind at 1, M_bind at 1. destruct (applyAction sha256 NextAction e) as [[s|y] e1] eqn:Ea; [|done].
      destruct (loop_check e1) as [[w|y] e2] eqn:E; [|done]. intros [= _ <-].
      apply loop_check_state in E as ->. exists [AutoNext]. simpl. unfold accept. by rewrite Ea.
    + intros [= _ <-]. by exists [Halted].
  - intros [= _ <-]. by exists [].
  - case_bool_decide.
    + unfold mbind, M_bind. destruct (applyAction sha256 NextAction e) as [[s|y] e1] eqn:Ea; [|done].
      intros [= _ <-]. exists [AutoNext]. simpl. unfold accept. by rewrite Ea.
    + intros [= _ <-]. by exists [].
  - intros [= _ <-]. by exists [].
  - intros [= _ <-]. by exists [].
Qed.

Definition in_order (e0 : GameEngine) (ls : list Label) (r : Room) : Prop :=
  ∀ e, rm_leader r = Some e → ∃ ins,
    actions_of (calls_of ls) = posted ins ++ actions_of (rm_inbox r).*2 ∧ run_inputs ins e0 = Some e ∧
    length (posted ins) = (rm_applied r + length (rm_running r))%nat.

Lemma calls_of_snoc ls l :
  actions_of (calls_of (ls ++ [l]))
  = actions_of (calls_of ls) ++ actions_of (match l with Call req => [req] | _ => [] end).
Proof.
  unfold actions_of, calls_of. rewrite omap_app, omap_app. f_equal. by destruct l.
Qed.

Lemma in_order_next e0 ls l r r' :
  in_order e0 ls r → room_next l r = Some r' → in_order e0 (ls ++ [l]) r'.
Proof.
  intros H Hn e' Hl'. rewrite calls_of_snoc. destruct l as [req| |i answer| | | |]; simpl in Hn.
  - injection Hn as <-. destruct (H e' Hl') as (ins & Hs & Hr & Hlen). exists ins. split_and!; [|done|done].
    rewrite Hs. unfold actions_of. cbn [post rm_inbox]. by rewrite fmap_app, omap_app, app_assoc.
  - rewrite app_nil_r. destruct (rm_inbox r) as [|[n req] rest] eqn:E; [done|].
    destruct (rm_leader r) as [e|] eqn:El; injection Hn as <-.
    2: { unfold follower_take in Hl'. destruct (follower_handle req (rm_follower r)) as [[?|] f]; done. }
    destruct (H e El) as (ins & Hs & Hr & Hlen). rewrite E, fmap_cons in Hs.
    assert (∀ req', req = req' → rm_leader (answer_message e n req' rest r) = Some e' →
      actions_of [req'] = [] → ∃ ins, actions_of (calls_of ls) = posted ins
        ++ actions_of (rm_inbox (answer_message e n req' rest r)).*2 ∧ run_inputs ins e0 = Some e' ∧
        length (posted ins) = (rm_applied (answer_message e n req' rest r)
                               + length (rm_running (answer_message e n req' rest r)))%nat) as Hother.
    { intros req' -> Hle Hno. unfold answer_message in *.
      destruct (leader_handle req' e); [|done]. injection Hle as <-. exists ins. split_and!; [|done|done].
      rewrite Hs. f_equal. by destruct req'. }
    destruct req as [a| | | | | |]; try (by eapply Hother). clear Hother. unfold take_message in *.
    destruct (handler_start sha256 a e) as [[w|x] e1] eqn:Es; [|done]. injection Hl' as <-.
    exists (ins ++ [Posted a]). split_and!.
    + rewrite Hs. unfold posted. rewrite omap_app, <- app_assoc. done.
    + rewrite run_inputs_app, Hr. by eapply handler_start_inputs.
    + unfold posted. rewrite omap_app, length_app. unfold posted in Hlen. rewrite Hlen.
      cbn [set_threads rm_applied rm_running omap list_omap length]. rewrite length_app. simpl. lia.
  - rewrite app_nil_r. destruct (rm_leader r) as [e|] eqn:El; [|done].
    destruct (rm_running r !! i) as [[n w]|] eqn:E; [|done]. injection Hn as <-.
    destruct (H e El) as (ins & Hs & Hr & Hlen). unfold resume_handler in *.
    destruct (handler_resume sha256 answer w e) as [[[evs next]|x] e1] eqn:Eh; [|done].
    destruct (handler_resume_inputs _ _ _ _ _ Eh) as (more & Hm & Hp).
    exists (ins ++ more). assert (posted (ins ++ more) = posted ins) as ->.
    { unfold posted in *. by rewrite omap_app, Hp, app_nil_r. }
    destruct next as [w'|]; injection Hl' as <-; (split_and!; [done|by rewrite run_inputs_app, Hr|]);
      rewrite Hlen; cbn [answered set_threads rm_applied rm_running].
    + by rewrite length_insert.
    + pose proof (lookup_lt_Some _ _ _ E). rewrite length_delete by (by rewrite E). lia.
  - by destruct (rm_leader r); [injection Hn as <-|].
  - rewrite app_nil_r. destruct (rm_diffs r) as [|[i st] rest]; [done|]. injection Hn as <-. by apply H.
  - rewrite app_nil_r. destruct (rm_leader r) eqn:El; [|done]. injection Hn as <-. apply H. by rewrite <- Hl'.
  - rewrite app_nil_r. destruct (rm_sync r); [|done]. injection Hn as <-. by apply H.
Qed.

Lemma in_order_exec e0 ls r : room_exec ls (new_room e0) = Some r → in_order e0 ls r.
Proof.
  apply (room_exec_ind (in_order e0)); [|intros; by eapply in_order_next].
  intros e [= <-]. by exists [].
Qed.

(** ** After a failover *)

Lemma promoted_next l r r' n a :
  room_inv r → rm_leader r = None → room_next l r = Some r' → rm_waiting r !! n = Some (RApply a) →
  rm_leader r' = None ∧ rm_waiting r' !! n = Some (RApply a) ∧ rm_applied r' = rm_applied r.
Proof.
  intros Hi Hl Hnext Hn. destruct l as [req| |i answer| | | |]; simpl in Hnext; rewrite ?Hl in Hnext; try done.
  - injection Hnext as <-. pose proof (ri_seq _ Hi n _ Hn). simpl. rewrite lookup_insert_ne; [done | lia].
  - destruct (rm_inbox r) as [|[m req] rest] eqn:E; [done|]. injection Hnext as <-.
    assert (rm_waiting r !! m = Some req) as Hm by (apply Hi; rewrite E; by left).
    unfold follower_take. destruct req; try done; simpl;
      (rewrite lookup_delete_ne; [done | intros ->; congruence]).
  - destruct (rm_diffs r) as [|[i st] rest]; [done|]. by injection Hnext as <-.
  - destruct (rm_sync r); [|done]. by injection Hnext as <-.
Qed.
End Room.

(** C7: a room runs the posted actions in order, whatever the interleaving. For
    every schedule of posts, message handling, resumed handlers, publications and
    synchronisation: while the primary thread lives, the actions it has started
    are a prefix of those posted, in order, each once, the rest wait in its inbox,
    and its engine is the one reached by accepting exactly these actions, with
    automatic [next] actions and dealing resets in between. Started actions are
    answered or still running, none is lost. *)
Theorem room_serves_actions_in_order (sha256 : list Z → list Z) (replay_bytes : list Z * list Z)
    (handId : string) (e0 : GameEngine) (ls : list Label) (r : Room) (e : GameEngine)
    (Hrun : room_exec sha256 replay_bytes handId ls (new_room e0) = Some r) (Hlive : rm_leader r = Some e) :
  ∃ ins, actions_of (calls_of ls) = posted ins ++ actions_of (rm_inbox r).*2 ∧
    run_inputs sha256 ins e0 = Some e ∧
    length (posted ins) = (rm_applied r + length (rm_running r))%nat.
Proof. by eapply in_order_exec. Qed.

(** after a failover the table is dead. Once the follower has been promoted,
    an action posted to the room is never answered, whatever happens next: its
    promise stays pending in every later state, and no action is applied. *)
Lemma failover_never_answers_actions (sha256 : list Z → list Z) (replay_bytes : list Z * list Z)
    (handId : string) (e0 : GameEngine) (ls ls' : list Label) (r r' : Room) (n : nat) (a : GameAction)
    (Hrun : room_exec sha256 replay_bytes handId ls (new_room e0) = Some r)
    (Hdead : rm_leader r = None) (Hposted : rm_waiting r !! n = Some (RApply a))
    (Hlater : room_exec sha256 replay_bytes handId ls' r = Some r') :
  rm_waiting r' !! n = Some (RApply a) ∧ rm_applied r' = rm_applied r ∧ rm_leader r' = None.
Proof.
  apply room_inv_exec in Hrun as Hi.
  cut (room_inv r' ∧ rm_leader r' = None ∧ rm_waiting r' !! n = Some (RApply a) ∧ rm_applied r' = rm_applied r);
    [tauto|].
  revert Hlater. apply (room_exec_ind sha256 replay_bytes handId
    (λ _ q, room_inv q ∧ rm_leader q = None ∧ rm_waiting q !! n = Some (RApply a) ∧ rm_applied q = rm_applied r));
    [done|].
  intros ls1 l r1 r2 (Hi1 & Hl1 & Hw1 & Ha1) Hstep.
  destruct (promoted_next _ _ _ l r1 r2 n a Hi1 Hl1 Hstep Hw1) as (Hl2 & Hw2 & Ha2).
  split_and!; [by eapply room_inv_next | done | done | congruence].
Qed.

(** ** Concrete rooms *)

Definition demo_sha (_ : list Z) : list Z := [1; 2; 3; 4].
Definition demo_engine : GameEngine := new_engine demo_sha [5] [6] ["a"; "b"]%string 100.
Definition demo_exec (ls : list Label) : option Room := room_exec demo_sha ([], []) "h" ls (new_room demo_engine).
Definition demo_room (ls : list Label) : Room := default (new_room demo_engine) (demo_exec ls).

(** Taking an action message and resuming its handler to the end. *)
Definition served_alone (resumptions : nat) : list Label := Take :: replicate resumptions (Resume 0 true).
Definition call_a : Label := Call (RApply (CallAction "a"%string)).
Definition both_blinds : list Label :=
  Call (RApply (PostBlind "a"%string 1)) :: served_alone 3 ++
  [Call (RApply (PostBlind "b"%string 2)); call_a].

Lemma room_serves_actions_in_order_witness :
  let ls := both_blinds ++ [Call RGetState; Take; Resume 0 true; Resume 0 true; ReceiveDiff] in
  let r := demo_room ls in
  ∃ ins, actions_of (calls_of ls) = posted ins ++ actions_of (rm_inbox r).*2 ∧
    run_inputs demo_sha ins demo_engine = Some (default demo_engine (rm_leader r)) ∧
    length (posted ins) = (rm_applied r + length (rm_running r))%nat.
Proof.
  refine (room_serves_actions_in_order demo_sha ([], []) "h" demo_engine
    (both_blinds ++ [Call RGetState; Take; Resume 0 true; Resume 0 true; ReceiveDiff])
    (demo_room (both_blinds ++ [Call RGetState; Take; Resume 0 true; Resume 0 true; ReceiveDiff])) _ _ _).
  - vm_compute. reflexivity.
  - vm_compute. reflexivity.
Defined.

Lemma failover_never_answers_actions_witness :
  let r := demo_room (both_blinds ++ [Exit; call_a]) in
  let r' := demo_room ((both_blinds ++ [Exit; call_a]) ++ [Call RPing; Take; Take]) in
  rm_waiting r' !! 4%nat = Some (RApply (CallAction "a"%string)) ∧ rm_applied r' = rm_applied r ∧ rm_leader r' = None.
Proof.
  refine (failover_never_answers_actions demo_sha ([], []) "h" demo_engine
    (both_blinds ++ [Exit; call_a]) [Call RPing; Take; Take]
    (demo_room (both_blinds ++ [Exit; call_a]))
    (demo_room ((both_blinds ++ [Exit; call_a]) ++ [Call RPing; Take; Take]))
    4 (CallAction "a"%string) _ _ _ _).
  - vm_compute. reflexivity.
  - vm_compute. reflexivity.
  - vm_compute. reflexivity.
  - vm_compute. reflexivity.
Defined.

(** an action that arrives while the worker deals kills the room. The handler
    awaits the dealing flag in the middle of a deal; a player's action the thread
    takes meanwhile is refused by the engine, the handler's promise rejects and
    the thread ends. Every promise waiting is rejected with that error, the
    accepted blind's among them, and the room is left to a follower that cannot
    play. Handled one after the other, the same actions all succeed. *)
Lemma early_action_kills_the_room (sha256 : list Z → list Z) (replay_bytes : list Z * list Z)
    (handId : string) (r : Room) (e : GameEngine) (n : nat) (a : GameAction) (rest : list (nat * RoomRequest))
    (Hlive : rm_leader r = Some e) (Hdeal : g_phase (e_state e) = DEAL) (Ha : a ≠ NextAction)
    (Hnext : rm_inbox r = (n, RApply a) :: rest) :
  ∃ r', room_next sha256 replay_bytes handId Take r = Some r' ∧ rm_leader r' = None ∧ rm_waiting r' = ∅ ∧
    rm_applied r' = rm_applied r ∧
    ∀ m req, rm_waiting r !! m = Some req →
      (m, Throw "worker error: invalid action for phase"%string) ∈ rm_answers r'.
Proof.
  assert (∃ e', handler_start sha256 a e = (Throw "invalid action for phase"%string, e')) as [e' E].
  { unfold handler_start. unfold mbind at 1, M_bind at 1, gets at 1.
    assert (∃ e', applyAction sha256 a e = (Throw "invalid action for phase"%string, e')) as [e' E].
    { unfold applyAction. unfold mbind at 1, M_bind at 1, gets at 1. unfold mbind at 1, M_bind at 1.
      unfold machine_apply at 1, hsm_apply. unfold mbind at 1, M_bind at 1, gets at 1.
      unfold e_state in Hdeal. rewrite Hdeal. destruct a; try done; eexists; reflexivity. }
    exists e'. by rewrite (bind_throw _ _ _ _ _ E). }
  simpl. rewrite Hnext, Hlive. unfold take_message. rewrite E.
  eexists. split; [reflexivity|]. split_and!; [done | done | done |].
  intros m req Hm. simpl. apply elem_of_app. right.
  apply list_elem_of_fmap. exists (m, req). split; [done|]. by apply elem_of_map_to_list.
Qed.

Lemma early_action_kills_the_room_witness :
  let r := demo_room (both_blinds ++ [Take]) in
  ∃ r', room_next demo_sha ([], []) "h" Take r = Some r' ∧ rm_leader r' = None ∧ rm_waiting r' = ∅ ∧
    rm_applied r' = 1%nat ∧
    ∀ m req, rm_waiting r !! m = Some req →
      (m, Throw "worker error: invalid action for phase"%string) ∈ rm_answers r'.
Proof.
  refine (early_action_kills_the_room demo_sha ([], []) "h" (demo_room (both_blinds ++ [Take]))
    (default demo_engine (rm_leader (demo_room (both_blinds ++ [Take])))) 3 (CallAction "a"%string) [] _ _ _ _).
  - vm_compute. reflexivity.
  - vm_compute. reflexivity.
  - discriminate.
  - vm_compute. reflexivity.
Defined.

(** One after the other the three actions are answered. *)
Lemma actions_in_turn_succeed :
  let r := demo_room (both_blinds ++ served_alone 5 ++ served_alone 3) in
  rm_applied r = 3%nat ∧ rm_waiting r = ∅ ∧ (g_pot ∘ e_state) <$> rm_leader r = Some 4.
Proof. vm_compute. done. Qed.
