(* ===== verification/Gateway.v ===== *)
(** * The game gateway

    backend/src/game/game.gateway.ts: a socket's actions on their way to the
    engine. Rate limits, the action schema, the check of the acting player, the
    store of action ids, the feature flags, the engine, then state frames,
    snapshots and timers. The handler is asynchronous; [handle_next] is one piece
    of it between two awaits on Redis, [handleAction] the handler run through.
    Outgoing frames wait in a queue per socket, and important ones are sent again
    until acknowledged. Metrics are left out. *)

From S2P Require Import Prelude Fairness HandEval SidePots StateMachine Store Engine Room.
#[local] Open Scope Z_scope.

(** ** Messages *)

Record Client := { cl_id : string; cl_userId : option string; cl_ip : string }.

(** A message as it arrives; an amount that is no integer is [RNumber]. *)
Inductive RawAmount := RInt (z : Z) | RNumber.
Record RawAction := {
  ra_type : string; ra_tableId : option string; ra_playerId : option string; ra_amount : option RawAmount }.

(** shared/schemas/game.ts *)
Definition positive_int (a : option RawAmount) : option Z :=
  match a with Some (RInt z) => if 0 <? z then Some z else None | _ => None end.
Definition parse_player (raw : RawAction) : option GameAction :=
  match ra_playerId raw with
  | None => None
  | Some p =>
      if decide (ra_type raw = "postBlind"%string) then PostBlind p <$> positive_int (ra_amount raw)
      else if decide (ra_type raw = "bet"%string) then BetAction p <$> positive_int (ra_amount raw)
      else if decide (ra_type raw = "raise"%string) then RaiseAction p <$> positive_int (ra_amount raw)
      else if decide (ra_type raw = "call"%string) then
        match ra_amount raw with
        | None => Some (CallAction p)
        | a => (λ _, CallAction p) <$> positive_int a
        end
      else if decide (ra_type raw = "check"%string) then Some (CheckAction p)
      else if decide (ra_type raw = "fold"%string) then Some (FoldAction p)
      else None
  end.
Definition parse_action (raw : RawAction) : outcome (string * GameAction) :=
  match ra_tableId raw with
  | None => Throw "ZodError"
  | Some t =>
      match (if decide (ra_type raw = "next"%string) then Some NextAction else parse_player raw) with
      | Some a => Ret (t, a)
      | None => Throw "ZodError"
      end
  end.

(** ['playerId' in parsed && parsed.playerId]: the empty string is no player. *)
Definition acting_player (a : GameAction) : option string :=
  match a with
  | PostBlind p _ | BetAction p _ | RaiseAction p _ | CallAction p | CheckAction p | FoldAction p =>
      if decide (p = ""%string) then None else Some p
  | NextAction => None
  end.

Inductive Frame :=
| FState (s : PublicState) (tick : Z)
| FAck (event actionId : string) (duplicate : bool)
| FProof (commitment seed nonce : string)
| FError (msg : string).

(** What the gateway caches under game:state and game:tick. *)
Inductive Cached := CState (s : SeenState) | CTick (n : Z).

Record FrameInfo := { fi_client : string; fi_frame : Frame; fi_attempt : nat }.
Record GameEvent := { ev_client : string; ev_table : string; ev_action : GameAction; ev_actionId : string; ev_time : Z }.

Definition actionRetentionMs : Z := 24 * 60 * 60 * 1000.
Definition snapshotInterval : Z := 50.
Definition maxFrameAttempts : nat := 5.
Definition actionTimeoutMs : Z := 30000.
Definition socketLimit : Z := 30.
Definition globalActionCounterKey : string := "game:action_counter:global".

Section Gateway.
Context {R H : Type} `{!RedisOps R Cached} `{!RedisHashOps H Z}.

(** The environment: configuration, feature flags (of the house, of a table), and
    the hash of action ids. *)
Record GatewayEnv := {
  ge_sha256 : list Z → list Z;
  ge_hashAction : string → string;
  ge_globalLimit : Z;
  ge_queueLimit : nat;
  ge_flag : string → option bool;
  ge_roomFlag : string → string → option bool }.

(** What leaves the process: Redis, the tables, the analytics stream. *)
Record Stores := {
  st_redis : R;
  st_hashes : H;                            (* the hash game:action *)
  st_snapshots : list (string * Z * SeenState);
  st_hands : list (string * list HandLogEntry);
  st_events : list GameEvent }.

(** Frames on their way to sockets. *)
Record Outbound := {
  ob_queues : gmap string (list (Frame * bool));
  ob_sent : list (string * option nat * Frame);   (* emitted, with the frame id *)
  ob_frameAcks : gmap nat FrameInfo;
  ob_frameIds : nat;
  ob_spectators : list (string * PublicState * Z) }.

Record GameGateway := {
  gw_now : Z;                               (* Date.now() *)
  gw_store : Stores;
  gw_out : Outbound;
  gw_engines : gmap string GameEngine;
  gw_socketPlayers : gmap string string;
  gw_states : gmap string SeenState;
  gw_lastSnapshot : gmap string Z;
  gw_tick : Z;
  gw_globalActionCountValue : Z;
  gw_clock : ClockService }.

Abbreviation GM := (M GameGateway).
Implicit Type g : GameGateway.

Definition on_store (f : Stores → Stores) g : GameGateway :=
  {| gw_now := gw_now g; gw_store := f (gw_store g); gw_out := gw_out g; gw_engines := gw_engines g;
     gw_socketPlayers := gw_socketPlayers g; gw_states := gw_states g; gw_lastSnapshot := gw_lastSnapshot g;
     gw_tick := gw_tick g; gw_globalActionCountValue := gw_globalActionCountValue g; gw_clock := gw_clock g |}.
Definition on_out (f : Outbound → Outbound) g : GameGateway :=
  {| gw_now := gw_now g; gw_store := gw_store g; gw_out := f (gw_out g); gw_engines := gw_engines g;
     gw_socketPlayers := gw_socketPlayers g; gw_states := gw_states g; gw_lastSnapshot := gw_lastSnapshot g;
     gw_tick := gw_tick g; gw_globalActionCountValue := gw_globalActionCountValue g; gw_clock := gw_clock g |}.
Definition set_clock (now : Z) (c : ClockService) g : GameGateway :=
  {| gw_now := now; gw_store := gw_store g; gw_out := gw_out g; gw_engines := gw_engines g;
     gw_socketPlayers := gw_socketPlayers g; gw_states := gw_states g; gw_lastSnapshot := gw_lastSnapshot g;
     gw_tick := gw_tick g; gw_globalActionCountValue := gw_globalActionCountValue g; gw_clock := c |}.
Definition set_engines (es : gmap string GameEngine) g : GameGateway :=
  {| gw_now := gw_now g; gw_store := gw_store g; gw_out := gw_out g; gw_engines := es;
     gw_socketPlayers := gw_socketPlayers g; gw_states := gw_states g; gw_lastSnapshot := gw_lastSnapshot g;
     gw_tick := gw_tick g; gw_globalActionCountValue := gw_globalActionCountValue g; gw_clock := gw_clock g |}.
Definition set_sockets (ps : gmap string string) g : GameGateway :=
  {| gw_now := gw_now g; gw_store := gw_store g; gw_out := gw_out g; gw_engines := gw_engines g;
     gw_socketPlayers := ps; gw_states := gw_states g; gw_lastSnapshot := gw_lastSnapshot g;
     gw_tick := gw_tick g; gw_globalActionCountValue := gw_globalActionCountValue g; gw_clock := gw_clock g |}.
Definition set_game (states : gmap string SeenState) (lasts : gmap string Z) (tick : Z) g : GameGateway :=
  {| gw_now := gw_now g; gw_store := gw_store g; gw_out := gw_out g; gw_engines := gw_engines g;
     gw_socketPlayers := gw_socketPlayers g; gw_states := states; gw_lastSnapshot := lasts;
     gw_tick := tick; gw_globalActionCountValue := gw_globalActionCountValue g; gw_clock := gw_clock g |}.
Definition set_count (n : Z) g : GameGateway :=
  {| gw_now := gw_now g; gw_store := gw_store g; gw_out := gw_out g; gw_engines := gw_engines g;
     gw_socketPlayers := gw_socketPlayers g; gw_states := gw_states g; gw_lastSnapshot := gw_lastSnapshot g;
     gw_tick := gw_tick g; gw_globalActionCountValue := n; gw_clock := gw_clock g |}.

Definition set_redis (r : R) (st : Stores) : Stores :=
  {| st_redis := r; st_hashes := st_hashes st; st_snapshots := st_snapshots st; st_hands := st_hands st;
     st_events := st_events st |}.
Definition set_hashes (h : H) (st : Stores) : Stores :=
  {| st_redis := st_redis st; st_hashes := h; st_snapshots := st_snapshots st; st_hands := st_hands st;
     st_events := st_events st |}.
Definition add_snapshot (x : string * Z * SeenState) (st : Stores) : Stores :=
  {| st_redis := st_redis st; st_hashes := st_hashes st; st_snapshots := st_snapshots st ++ [x];
     st_hands := st_hands st; st_events := st_events st |}.
Definition add_hand (x : string * list HandLogEntry) (st : Stores) : Stores :=
  {| st_redis := st_redis st; st_hashes := st_hashes st; st_snapshots := st_snapshots st;
     st_hands := st_hands st ++ [x]; st_events := st_events st |}.
Definition add_event (ev : GameEvent) (st : Stores) : Stores :=
  {| st_redis := st_redis st; st_hashes := st_hashes st; st_snapshots := st_snapshots st;
     st_hands := st_hands st; st_events := st_events st ++ [ev] |}.

Definition set_queues (q : gmap string (list (Frame * bool))) (o : Outbound) : Outbound :=
  {| ob_queues := q; ob_sent := ob_sent o; ob_frameAcks := ob_frameAcks o; ob_frameIds := ob_frameIds o;
     ob_spectators := ob_spectators o |}.
Definition emit_frame (client : string) (id : option nat) (f : Frame) (o : Outbound) : Outbound :=
  {| ob_queues := ob_queues o; ob_sent := ob_sent o ++ [(client, id, f)]; ob_frameAcks := ob_frameAcks o;
     ob_frameIds := ob_frameIds o; ob_spectators := ob_spectators o |}.
Definition set_frames (m : gmap nat FrameInfo) (n : nat) (o : Outbound) : Outbound :=
  {| ob_queues := ob_queues o; ob_sent := ob_sent o; ob_frameAcks := m; ob_frameIds := n;
     ob_spectators := ob_spectators o |}.
Definition spectate (x : string * PublicState * Z) (o : Outbound) : Outbound :=
  {| ob_queues := ob_queues o; ob_sent := ob_sent o; ob_frameAcks := ob_frameAcks o;
     ob_frameIds := ob_frameIds o; ob_spectators := ob_spectators o ++ [x] |}.

Context (env : GatewayEnv).

(** ** Outgoing frames *)

(** [enqueue]: a full queue drops the frame. *)
Definition enqueue_out (client : string) (f : Frame) (critical : bool) (o : Outbound) : Outbound :=
  let q := default [] (ob_queues o !! client) in
  if (ge_queueLimit env <=? length q)%nat then emit_frame client None (FError "throttled") o
  else set_queues (<[client := q ++ [(f, critical)]]> (ob_queues o)) o.
Definition enqueue (c : Client) (f : Frame) (critical : bool) : GM unit :=
  modify (on_out (enqueue_out (cl_id c) f critical)).

Definition has_payload (f : Frame) : bool := match f with FError _ => false | _ => true end.

(** The queue sends its head; a critical one gets an id and is tracked. *)
Definition deliver (client : string) (o : Outbound) : Outbound :=
  match ob_queues o !! client with
  | Some ((f, critical) :: q) =>
      let o := set_queues (<[client := q]> (ob_queues o)) o in
      if critical && has_payload f then
        let id := S (ob_frameIds o) in
        set_frames (<[id := {| fi_client := client; fi_frame := f; fi_attempt := 1 |}]> (ob_frameAcks o)) id
          (emit_frame client (Some id) f o)
      else emit_frame client None f o
  | _ => o
  end.

(** The retry timer of a frame goes off: [2 ^ attempt * 100] ms after the last try. *)
Definition retry (id : nat) (o : Outbound) : Outbound :=
  match ob_frameAcks o !! id with
  | Some fr =>
      let n := S (fi_attempt fr) in
      let o := emit_frame (fi_client fr) (Some id) (fi_frame fr) o in
      set_frames (if (maxFrameAttempts <=? n)%nat then delete id (ob_frameAcks o)
                  else <[id := {| fi_client := fi_client fr; fi_frame := fi_frame fr; fi_attempt := n |}]>
                         (ob_frameAcks o)) (ob_frameIds o) o
  | None => o
  end.

Definition handleFrameAck (client : string) (id : nat) (o : Outbound) : Outbound :=
  match ob_frameAcks o !! id with
  | Some fr => if decide (fi_client fr = client) then set_frames (delete id (ob_frameAcks o)) (ob_frameIds o) o else o
  | None => o
  end.

(** [handleDisconnect]: the frames and the queue of the socket are forgotten. *)
Definition forget (client : string) (o : Outbound) : Outbound :=
  set_queues (delete client (ob_queues o))
    (set_frames (filter (λ p, fi_client p.2 ≠ client) (ob_frameAcks o)) (ob_frameIds o) o).

(** ** Limits *)

(** [getRateLimitKey]; [cl_ip] is the forwarded address, the socket's otherwise. *)
Definition getRateLimitKey (c : Client) : string :=
  ("game:action_counter:" +:+ default (cl_ip c) (cl_userId c))%string.

(** [INCR], and [EXPIRE key 10] on a fresh counter. *)
Definition count_action (key : string) : GM Z :=
  r ← gets (λ g, r_incrby key 1 (st_redis (gw_store g)));
  modify (on_store (set_redis r.2)) ;;
  mret r.1.
Definition expire_fresh (key : string) (n : Z) : GM unit :=
  when (n =? 1) (modify (λ g, on_store (set_redis (snd (r_expire key 10 (st_redis (gw_store g))))) g)).

Definition isRateLimited (c : Client) : GM bool :=
  count ← count_action (getRateLimitKey c);
  global ← count_action globalActionCounterKey;
  expire_fresh (getRateLimitKey c) count ;;
  expire_fresh globalActionCounterKey global ;;
  modify (set_count global) ;;
  if ge_globalLimit env <? global then
    enqueue c (FError "rate limit exceeded") false ;; mret true
  else if socketLimit <? count then
    modify (on_out (emit_frame (cl_id c) None (FError "rate limit exceeded"))) ;; mret true
  else mret false.

(** ** Actions *)

(** A handler at an await, with what it still needs. *)
Inductive Pending :=
| PLooked (c : Client) (actionId tableId : string) (a : GameAction) (existing : option Z)
| PStored (c : Client) (actionId tableId : string) (a : GameAction)
| PFlags (c : Client) (actionId tableId : string) (a : GameAction)
| PApplied (c : Client) (actionId tableId : string) (a : GameAction) (s : GameStateInternal) (tick : Z).

Definition ack (c : Client) (event actionId : string) (duplicate : bool) : GM unit :=
  enqueue c (FAck event actionId duplicate) false.
Definition refuse (c : Client) (msg actionId : string) : GM (option Pending) :=
  enqueue c (FError msg) false ;; ack c "action:ack" actionId false ;; mret None.

(** From the message to [hget]. *)
Definition handle_begin (c : Client) (raw : RawAction) (actionId : string) : GM (option Pending) :=
  limited ← isRateLimited c;
  if (limited : bool) then mret None
  else match parse_action raw with
  | Throw x => ack c "action:ack" actionId false ;; throw x
  | Ret (tableId, a) =>
      expected ← gets (λ g, gw_socketPlayers g !! cl_id c);
      if match acting_player a with
         | Some p => negb (bool_decide (expected = Some p))
         | None => false
         end
      then refuse c "player mismatch" actionId
      else
        existing ← gets (λ g, h_get (ge_hashAction env actionId) (st_hashes (gw_store g)));
        mret (Some (PLooked c actionId tableId a existing))
  end.

Definition is_false (b : option bool) : bool := match b with Some false => true | _ => false end.
Definition disabled (flag tableId : string) : bool :=
  is_false (ge_flag env flag) || is_false (ge_roomFlag env tableId flag).

(** [maybeSnapshot] *)
Definition maybeSnapshot (tableId : string) (s : SeenState) : GM unit :=
  tick ← gets gw_tick;
  last ← gets (λ g, default 0 (gw_lastSnapshot g !! tableId));
  when (snapshotInterval <=? tick - last)
    (modify (on_store (add_snapshot (tableId, tick, s))) ;;
     modify (λ g, set_game (gw_states g) (<[tableId := tick]> (gw_lastSnapshot g)) (gw_tick g) g)).

Definition stateKey (tableId : string) : string := ("game:state:" +:+ tableId)%string.
Definition put_redis (k : string) (v : Cached) : GM unit :=
  modify (λ g, on_store (set_redis (r_set k v 0 (st_redis (gw_store g)))) g).
Definition drop_state (tableId : string) : GM unit :=
  modify (λ g, set_game (delete tableId (gw_states g)) (gw_lastSnapshot g) (gw_tick g) g) ;;
  modify (λ g, on_store (set_redis (r_del (stateKey tableId) (st_redis (gw_store g)))) g).

(** The engine's turn, up to the write of the state. *)
Definition apply_to_engine (c : Client) (actionId tableId : string) (a : GameAction) : GM (option Pending) :=
  engine ← gets (λ g, gw_engines g !! tableId);
  match engine with
  | None => refuse c "engine not started" actionId
  | Some e =>
      let '(o, e') := applyAction (ge_sha256 env) a e in
      modify (λ g, set_engines (<[tableId := e']> (gw_engines g)) g) ;;
      match o with
      | Throw x => refuse c x actionId
      | Ret s =>
          now ← gets gw_now;
          modify (on_store (add_event {| ev_client := cl_id c; ev_table := tableId; ev_action := a;
                                         ev_actionId := actionId; ev_time := now |})) ;;
          tick ← gets (λ g, gw_tick g + 1);
          modify (λ g, set_game (<[tableId := Internal s]> (gw_states g)) (gw_lastSnapshot g) tick g) ;;
          enqueue c (FState (sanitize s (acting_player a)) tick) true ;;
          put_redis (stateKey tableId) (CState (Internal s)) ;;
          mret (Some (PApplied c actionId tableId a s tick))
      end
  end.

(** The rest: tick, snapshot, finished hand, spectators, acknowledgement, timer. *)
Definition after_apply (c : Client) (actionId tableId : string) (a : GameAction) (s : GameStateInternal)
    (tick : Z) : GM (option Pending) :=
  current ← gets gw_tick;
  put_redis "game:tick" (CTick current) ;;
  maybeSnapshot tableId (Internal s) ;;
  engine ← gets (λ g, gw_engines g !! tableId);
  let over := bool_decide (g_phase s = NEXT_HAND) in
  match engine with
  | Some e =>
      when over (modify (on_store (add_hand (tableId, hl_entries (e_log e))))) ;;
      modify (on_out (spectate (tableId, getPublicState e, tick)))
  | None => mret tt
  end ;;
  ack c "action:ack" actionId false ;;
  match acting_player a with
  | Some p => when (negb over) (modify (λ g, set_clock (gw_now g) (setTimer p tableId actionTimeoutMs (gw_clock g)) g))
  | None => mret tt
  end ;;
  when over (drop_state tableId) ;;
  mret None.

Definition handle_next (p : Pending) : GM (option Pending) :=
  match p with
  | PLooked c actionId tableId a existing =>
      now ← gets gw_now;
      if match existing with Some t => now - t <? actionRetentionMs | None => false end then
        ack c "action:ack" actionId true ;; mret None
      else
        modify (λ g, on_store (set_hashes (h_set (ge_hashAction env actionId) now (st_hashes (gw_store g)))) g) ;;
        mret (Some (PStored c actionId tableId a))
  | PStored c actionId tableId a =>
      match acting_player a with
      | Some p => modify (λ g, set_clock (gw_now g) (clearTimer p tableId (gw_clock g)) g)
      | None => mret tt
      end ;;
      mret (Some (PFlags c actionId tableId a))
  | PFlags c actionId tableId a =>
      if disabled "dealing" tableId then refuse c "dealing disabled" actionId
      else if disabled "settlement" tableId then refuse c "settlement disabled" actionId
      else apply_to_engine c actionId tableId a
  | PApplied c actionId tableId a s tick => after_apply c actionId tableId a s tick
  end.

Fixpoint handle_rest (fuel : nat) (p : option Pending) : GM unit :=
  match fuel, p with
  | S fuel', Some p => p' ← handle_next p; handle_rest fuel' p'
  | _, _ => mret tt
  end.

(** The handler with nothing in between; four pieces follow the first. *)
Definition handleAction (c : Client) (raw : RawAction) (actionId : string) : GM unit :=
  p ← handle_begin c raw actionId; handle_rest 4 p.

(** ['join'], ['buy-in'], ['sitout'], ['rebuy'] *)
Definition acknowledge (c : Client) (event actionId : string) : GM unit :=
  let hash := ge_hashAction env actionId in
  existing ← gets (λ g, h_get hash (st_hashes (gw_store g)));
  now ← gets gw_now;
  if match existing with Some t => now - t <? actionRetentionMs | None => false end
  then ack c (event +:+ ":ack") actionId true
  else
    ack c (event +:+ ":ack") actionId false ;;
    modify (λ g, on_store (set_hashes (h_set hash now (st_hashes (gw_store g)))) g).
Definition handleSeat (c : Client) (event actionId : string) : GM unit :=
  limited ← isRateLimited c;
  if (limited : bool) then mret tt else acknowledge c event actionId.

(** ** Sockets, sessions, background *)

Definition handleConnection (c : Client) (playerId : option string) : GM unit :=
  match playerId with
  | Some p => modify (λ g, set_sockets (<[cl_id c := p]> (gw_socketPlayers g)) g)
  | None => mret tt
  end ;;
  modify (λ g, set_clock (gw_now g) (setTimer (cl_id c) "default" actionTimeoutMs (gw_clock g)) g).
Definition handleDisconnect (c : Client) : GM unit :=
  modify (λ g, set_clock (gw_now g) (clearTimer (cl_id c) "default" (gw_clock g)) g) ;;
  modify (λ g, set_sockets (delete (cl_id c) (gw_socketPlayers g)) g) ;;
  modify (on_out (forget (cl_id c))).

Definition startSession (tableId : string) (seed nonce : list Z) (playerIds : list string) : GM unit :=
  modify (λ g, set_engines (<[tableId := new_engine (ge_sha256 env) seed nonce playerIds 100]> (gw_engines g)) g).

(** [trimActionHashes] *)
Definition trimActionHashes : GM unit :=
  modify (λ g, on_store (λ st,
    set_hashes (foldr h_del (st_hashes st)
      (filter (λ p, p.2 < gw_now g - actionRetentionMs) (h_all (st_hashes st))).*1) st) g).

(** [handleTimeout]: the fold goes to the room; [answer] is the state it returns. *)
Definition handleTimeout (tableId : string) (answer : option SeenState) (over : bool) : GM unit :=
  match answer with
  | None => mret tt
  | Some s =>
      modify (λ g, set_game (<[tableId := s]> (gw_states g)) (gw_lastSnapshot g) (gw_tick g + 1) g) ;;
      put_redis (stateKey tableId) (CState s) ;;
      current ← gets gw_tick;
      put_redis "game:tick" (CTick current) ;;
      maybeSnapshot tableId s ;;
      when over (drop_state tableId)
  end.
End Gateway.
