(* ===== verification/GatewaySafety.v ===== *)
(** * What the gateway lets through

    The tables, the socket owners and the stores of action ids and events are the
    core of the gateway; most of what a handler does leaves it alone. The one way
    to change it is an admitted action: owned, fresh, enabled. *)

From S2P Require Import Prelude Fairness HandEval SidePots StateMachine Store Engine Room Gateway.
#[local] Open Scope Z_scope.

Section Admission.
Context {R H : Type} `{!RedisOps R Cached} `{!RedisHashOps H Z} (env : GatewayEnv).
Abbreviation Gw := (GameGateway (R := R) (H := H)).
Implicit Types g : Gw.

Definition tables g := (gw_engines g, st_hashes (gw_store g), st_events (gw_store g)).
Definition core g := (gw_now g, gw_socketPlayers g, tables g).

Lemma core_enqueue k c f b : preserves (λ g, core g = k) (enqueue env c f b).
Proof. by apply preserves_modify. Qed.
Lemma core_ack k c ev id b : preserves (λ g, core g = k) (ack env c ev id b).
Proof. apply core_enqueue. Qed.
Lemma core_refuse k c msg id : preserves (λ g, core g = k) (refuse env c msg id).
Proof. unfold refuse. preserve; apply core_enqueue. Qed.
Lemma core_put k key v : preserves (λ g, core g = k) (put_redis key v).
Proof. by apply preserves_modify. Qed.
Lemma core_on_out k f : preserves (λ g, core g = k) (modify (on_out f)).
Proof. by apply preserves_modify. Qed.
Lemma core_limit k c : preserves (λ g, core g = k) (isRateLimited env c).
Proof.
  unfold isRateLimited, count_action, expire_fresh.
  preserve; solve [by apply preserves_modify | apply core_enqueue].
Qed.
Lemma core_snapshot k t s : preserves (λ g, core g = k) (maybeSnapshot t s).
Proof. unfold maybeSnapshot. preserve; by apply preserves_modify. Qed.
Lemma core_drop k t : preserves (λ g, core g = k) (drop_state t).
Proof. unfold drop_state. preserve; by apply preserves_modify. Qed.
Lemma core_after k c id t a s n : preserves (λ g, core g = k) (after_apply env c id t a s n).
Proof.
  unfold after_apply.
  preserve; solve [apply core_put | apply core_snapshot | apply core_ack | apply core_drop | by apply preserves_modify].
Qed.

(** A refusal, and the end of an applied action, keep the core and end the
    handler. *)
Lemma refuse_spec c msg id g :
  ∃ g', refuse env c msg id g = (Ret None, g') ∧ core g' = core g.
Proof. eexists. split; [reflexivity | done]. Qed.

Lemma after_apply_core c id t a s n g : core (snd (after_apply env c id t a s n g)) = core g.
Proof. by apply (core_after (core g)). Qed.

(** The player an action acts for is the socket's. *)
Definition owns g (c : Client) (a : GameAction) : Prop :=
  match acting_player a with Some p => gw_socketPlayers g !! cl_id c = Some p | None => True end.
Definition fresh_id g (actionId : string) : Prop :=
  match h_get (ge_hashAction env actionId) (st_hashes (gw_store g)) with
  | Some t => actionRetentionMs <= gw_now g - t
  | None => True
  end.

Lemma handle_begin_spec c raw id g :
  let '(o, g') := handle_begin env c raw id g in
  core g' = core g ∧
  match o with
  | Ret (Some p) => ∃ t a, parse_action raw = Ret (t, a) ∧ owns g c a ∧
      p = PLooked c id t a (h_get (ge_hashAction env id) (st_hashes (gw_store g)))
  | _ => True
  end.
Proof.
  unfold handle_begin. unfold mbind at 1, M_bind at 1.
  pose proof (core_limit (core g) c g eq_refl) as Hl.
  destruct (isRateLimited env c g) as [[limited|x] g1]; simpl in Hl; [|done].
  destruct limited; [done|].
  destruct (parse_action raw) as [[t a]|x] eqn:Ep; [|done].
  unfold mbind at 1, M_bind at 1, gets at 1.
  assert (gw_socketPlayers g1 = gw_socketPlayers g) as Hs by (pose proof (f_equal (snd ∘ fst) Hl); done).
  assert (st_hashes (gw_store g1) = st_hashes (gw_store g)) as Hh
    by (pose proof (f_equal (λ x, x.2.1.2) Hl); done).
  rewrite Hs. destruct (acting_player a) as [p|] eqn:Ea.
  - case_bool_decide as Ho; cbv [negb]; cbv iota.
    + unfold mbind, M_bind, gets, mret, M_ret. split; [done|]. exists t, a. unfold owns. rewrite Ea, Hh. done.
    + destruct (refuse_spec c "player mismatch" id g1) as (g2 & E2 & H2). rewrite E2. split; [congruence | done].
  - unfold mbind, M_bind, gets, mret, M_ret. split; [done|]. exists t, a. unfold owns. rewrite Ea, Hh. done.
Qed.

Lemma apply_to_engine_spec c id t a g :
  let '(o, g') := apply_to_engine env c id t a g in
  gw_now g' = gw_now g ∧ gw_socketPlayers g' = gw_socketPlayers g ∧
  st_hashes (gw_store g') = st_hashes (gw_store g) ∧
  match o with Ret (Some p) => ∃ s n, p = PApplied c id t a s n | Ret None => True | Throw _ => False end ∧
  match gw_engines g !! t with
  | None => tables g' = tables g
  | Some e =>
      match applyAction (ge_sha256 env) a e with
      | (Ret _, e') => gw_engines g' = <[t := e']> (gw_engines g) ∧
          st_events (gw_store g') = st_events (gw_store g)
            ++ [{| ev_client := cl_id c; ev_table := t; ev_action := a; ev_actionId := id; ev_time := gw_now g |}]
      | (Throw _, e') => gw_engines g' = <[t := e']> (gw_engines g) ∧
          st_events (gw_store g') = st_events (gw_store g)
      end
  end.
Proof.
  unfold apply_to_engine. unfold mbind at 1, M_bind at 1, gets at 1.
  destruct (gw_engines g !! t) as [e|] eqn:Ee; [|cbn; done].
  destruct (applyAction (ge_sha256 env) a e) as [[s|x] e'].
  - cbn. split_and!; try done. by do 2 eexists.
  - cbn. done.
Qed.

Lemma core_parts g g' : core g' = core g →
  gw_now g' = gw_now g ∧ gw_socketPlayers g' = gw_socketPlayers g ∧ gw_engines g' = gw_engines g ∧
  st_hashes (gw_store g') = st_hashes (gw_store g) ∧ st_events (gw_store g') = st_events (gw_store g).
Proof. unfold core, tables. by intros [= ?????]. Qed.

Lemma handle_rest_None n g : handle_rest env n None g = (Ret tt, g).
Proof. by destruct n. Qed.

Lemma handle_rest_S n p g :
  handle_rest env (S n) (Some p) g
  = match handle_next env p g with
    | (Ret p', g') => handle_rest env n p' g'
    | (Throw x, g') => (Throw x, g')
    end.
Proof. unfold handle_rest at 1; fold (handle_rest env). unfold mbind, M_bind. by destruct (handle_next env p g) as [[?|?] ?]. Qed.

(** What an admitted action does to its table and to the event stream. *)
Definition table_step (c : Client) (id t : string) (a : GameAction) (e : GameEngine) g g' : Prop :=
  match applyAction (ge_sha256 env) a e with
  | (Ret _, e') => gw_engines g' = <[t := e']> (gw_engines g) ∧
      st_events (gw_store g') = st_events (gw_store g)
        ++ [{| ev_client := cl_id c; ev_table := t; ev_action := a; ev_actionId := id; ev_time := gw_now g |}]
  | (Throw _, e') => gw_engines g' = <[t := e']> (gw_engines g) ∧
      st_events (gw_store g') = st_events (gw_store g)
  end.

Definition same_tables g g' : Prop :=
  gw_engines g' = gw_engines g ∧ st_events (gw_store g') = st_events (gw_store g).

Lemma after_refuse c msg id n g g1 (Q : Prop) :
  gw_now g1 = gw_now g → gw_socketPlayers g1 = gw_socketPlayers g → gw_engines g1 = gw_engines g →
  st_hashes (gw_store g1) = st_hashes (gw_store g) → st_events (gw_store g1) = st_events (gw_store g) →
  let g' := snd (match refuse env c msg id g1 with
                 | (Ret p', g') => handle_rest env n p' g'
                 | (Throw x, g') => (Throw x, g')
                 end) in
  gw_now g' = gw_now g ∧ gw_socketPlayers g' = gw_socketPlayers g ∧
  st_hashes (gw_store g') = st_hashes (gw_store g) ∧
  (same_tables g g' ∨ Q).
Proof.
  intros Hn Hp He Hh Hv. destruct (refuse_spec c msg id g1) as (g2 & E2 & Hc).
  rewrite E2, handle_rest_None. apply core_parts in Hc as (? & ? & ? & ? & ?). simpl.
  split_and!; [congruence..|left; split; congruence].
Qed.

(** The last pieces of the handler, once the action's id is stored. *)
Lemma after_store_cases c id t a g :
  let g' := snd (handle_rest env 3 (Some (PStored c id t a)) g) in
  gw_now g' = gw_now g ∧ gw_socketPlayers g' = gw_socketPlayers g ∧
  st_hashes (gw_store g') = st_hashes (gw_store g) ∧
  (same_tables g g' ∨
   ∃ e, gw_engines g !! t = Some e ∧ disabled env "dealing" t = false ∧ disabled env "settlement" t = false ∧
     table_step c id t a e g g').
Proof.
  rewrite handle_rest_S. cbn [handle_next].
  assert (∃ g1, (match acting_player a with
      | Some p => modify (λ g, set_clock (gw_now g) (clearTimer p t (gw_clock g)) g)
      | None => mret tt
      end ;; mret (Some (PFlags c id t a))) g = (Ret (Some (PFlags c id t a)), g1) ∧ core g1 = core g)
    as (g1 & -> & H1) by (destruct (acting_player a); eexists; (split; [reflexivity | done])).
  apply core_parts in H1 as (Hn1 & Hp1 & He1 & Hh1 & Hv1).
  rewrite handle_rest_S. cbn [handle_next].
  destruct (disabled env "dealing" t) eqn:Ed; [|destruct (disabled env "settlement" t) eqn:Es].
  1-2: apply after_refuse; congruence.
  pose proof (apply_to_engine_spec c id t a g1) as Ha. unfold table_step, same_tables.
  destruct (apply_to_engine env c id t a g1) as [[[p|]|x] g2]; [| |by destruct Ha as (_ & _ & _ & [] & _)].
  - destruct Ha as (Hn2 & Hp2 & Hh2 & (s & n & ->) & Ht).
    rewrite handle_rest_S. cbn [handle_next].
    pose proof (after_apply_core c id t a s n g2) as H3.
    destruct (after_apply env c id t a s n g2) as [o g3]. simpl in H3.
    apply core_parts in H3 as (Hn3 & Hp3 & He3 & Hh3 & Hv3).
    assert (snd (match o with Ret p' => handle_rest env 0 p' g3 | Throw x => (Throw x, g3) end) = g3) as ->
      by (by destruct o).
    split_and!; [congruence..|]. rewrite He1 in Ht. unfold tables in Ht.
    destruct (gw_engines g !! t) as [e|]; [right; exists e | left; injection Ht as ???; split; congruence].
    split_and!; try done. destruct (applyAction (ge_sha256 env) a e) as [[s'|x] e'];
      destruct Ht as [Ht1 Ht2]; split; congruence.
  - destruct Ha as (Hn2 & Hp2 & Hh2 & _ & Ht). rewrite handle_rest_None. simpl.
    split_and!; [congruence..|]. rewrite He1 in Ht. unfold tables in Ht.
    destruct (gw_engines g !! t) as [e|]; [right; exists e | left; injection Ht as ???; split; congruence].
    split_and!; try done. destruct (applyAction (ge_sha256 env) a e) as [[s'|x] e'];
      destruct Ht as [Ht1 Ht2]; split; congruence.
Qed.

Lemma handleAction_eq c raw id g :
  handleAction env c raw id g
  = match handle_begin env c raw id g with
    | (Ret p, g') => handle_rest env 4 p g'
    | (Throw x, g') => (Throw x, g')
    end.
Proof. done. Qed.

Lemma handle_looked_eq c id t a existing g :
  handle_next env (PLooked c id t a existing) g
  = if match existing with Some t0 => gw_now g - t0 <? actionRetentionMs | None => false end
    then (Ret None, snd (ack env c "action:ack" id true g))
    else (Ret (Some (PStored c id t a)),
          on_store (set_hashes (h_set (ge_hashAction env id) (gw_now g) (st_hashes (gw_store g)))) g).
Proof. cbn [handle_next]. unfold mbind, M_bind, gets. by destruct (match existing with Some _ => _ | None => _ end). Qed.

Lemma core_same g g' (Q : Prop) : core g' = core g →
  gw_now g' = gw_now g ∧ gw_socketPlayers g' = gw_socketPlayers g ∧ (tables g' = tables g ∨ Q).
Proof. unfold core, tables. intros [= ? ? ? ? ?]. split_and!; [done | done | left; congruence]. Qed.

Lemma handleAction_cases c raw id g :
  let g' := snd (handleAction env c raw id g) in
  gw_now g' = gw_now g ∧ gw_socketPlayers g' = gw_socketPlayers g ∧
  (tables g' = tables g ∨
   ∃ t a, parse_action raw = Ret (t, a) ∧ owns g c a ∧ fresh_id g id ∧
     st_hashes (gw_store g') = h_set (ge_hashAction env id) (gw_now g) (st_hashes (gw_store g)) ∧
     (same_tables g g' ∨
      ∃ e, gw_engines g !! t = Some e ∧ disabled env "dealing" t = false ∧
        disabled env "settlement" t = false ∧ table_step c id t a e g g')).
Proof.
  rewrite handleAction_eq. pose proof (handle_begin_spec c raw id g) as Hb.
  destruct (handle_begin env c raw id g) as [[[p|]|x] g1]; destruct Hb as [H1 Hb].
  2: { rewrite handle_rest_None. by apply core_same. }
  2: { by apply core_same. }
  destruct Hb as (t & a & Hp & Ho & ->).
  pose proof H1 as Hc1. apply core_parts in H1 as (Hn1 & Hp1 & He1 & Hh1 & Hv1).
  rewrite handle_rest_S, handle_looked_eq.
  destruct (match h_get _ _ with Some _ => _ | None => _ end) eqn:Ex.
  - rewrite handle_rest_None. apply core_same. simpl. rewrite <- Hc1. by apply (core_ack (core g1)).
  -
    match goal with |- context [handle_rest env 3 _ ?q] => pose proof (after_store_cases c id t a q) as Hs; set (g2 := q) in * end.
    destruct Hs as (Hn2 & Hp2 & Hh2 & Ht2). cbv zeta.
    split_and!; [rewrite Hn2; exact Hn1 | rewrite Hp2; exact Hp1 |]. right. exists t, a. split_and!; [done | done | | |].
    + unfold fresh_id. destruct (h_get _ _) as [s|]; [|done]. apply Z.ltb_ge in Ex. lia.
    + rewrite Hh2. simpl. by rewrite Hn1, Hh1.
    + destruct Ht2 as [[Ht2 Hv2]|(e & Hl & Hd & Hse & Hst)].
      * left. split; [rewrite Ht2; exact He1 | rewrite Hv2; exact Hv1].
      * right. exists e. simpl in Hl. rewrite He1 in Hl. split_and!; try done.
        unfold table_step in *. simpl in Hst. rewrite <- He1, <- Hv1, <- Hn1. exact Hst.
Qed.

(** ** Everything the gateway does *)

Inductive GatewayOp :=
| OpAction (c : Client) (raw : RawAction) (actionId : string)
| OpSeat (c : Client) (event actionId : string)
| OpConnect (c : Client) (playerId : option string)
| OpDisconnect (c : Client)
| OpStart (tableId : string) (seed nonce : list Z) (playerIds : list string)
| OpTimeout (tableId : string) (answer : option SeenState) (over : bool)
| OpTrim
| OpDeliver (client : string) | OpRetry (id : nat) | OpFrameAck (client : string) (id : nat)
| OpPass (ms : N)            (* time goes by *)
| OpExpire (key : string).     (* a counter's life ends *)

Definition gateway_step (op : GatewayOp) g : Gw :=
  match op with
  | OpAction c raw id => snd (handleAction env c raw id g)
  | OpSeat c ev id => snd (handleSeat env c ev id g)
  | OpConnect c p => snd (handleConnection c p g)
  | OpDisconnect c => snd (handleDisconnect c g)
  | OpStart t seed nonce ids => snd (startSession env t seed nonce ids g)
  | OpTimeout t ans over => snd (handleTimeout t ans over g)
  | OpTrim => snd (trimActionHashes g)
  | OpDeliver client => on_out (deliver client) g
  | OpRetry id => on_out (retry id) g
  | OpFrameAck client id => on_out (handleFrameAck client id) g
  | OpPass ms => set_clock (gw_now g + Z.of_N ms) (gw_clock g) g
  | OpExpire key => on_store (λ st, set_redis (r_del key (st_redis st)) st) g
  end.
Definition gateway_run (ops : list GatewayOp) g : Gw := foldl (λ g op, gateway_step op g) g ops.

Definition tail g := (gw_now g, tables g).

Lemma tail_seat_limit c g : core (snd (isRateLimited env c g)) = core g.
Proof. by apply (core_limit (core g)). Qed.

(** Seat events are deduplicated by the same store of ids. *)
Lemma handleSeat_cases c ev id g :
  let g' := snd (handleSeat env c ev id g) in
  gw_now g' = gw_now g ∧ gw_engines g' = gw_engines g ∧ st_events (gw_store g') = st_events (gw_store g) ∧
  (st_hashes (gw_store g') = st_hashes (gw_store g) ∨
   st_hashes (gw_store g') = h_set (ge_hashAction env id) (gw_now g) (st_hashes (gw_store g))).
Proof.
  unfold handleSeat. cbv zeta. pose proof (tail_seat_limit c g) as Hl.
  change ((isRateLimited env c ≫= ?k) g) with
    (match isRateLimited env c g with (Ret a, g') => k a g' | (Throw x, g') => (Throw x, g') end).
  destruct (isRateLimited env c g) as [[[]|x] g1]; simpl in Hl;
    apply core_parts in Hl as (Hn & Hp & He & Hh & Hv); [simpl; eauto | | simpl; eauto].
  unfold acknowledge, mbind, M_bind, gets. cbv zeta.
  destruct (match h_get _ _ with Some _ => _ | None => _ end); simpl; rewrite ?Hn, ?Hh; eauto.
Qed.

(** Sockets, timers, frames, snapshots leave the tables alone. *)
Lemma step_tables op g :
  match op with
  | OpAction _ _ _ | OpSeat _ _ _ | OpStart _ _ _ _ | OpTrim | OpPass _ => True
  | _ => tail (gateway_step op g) = tail g
  end.
Proof.
  assert (∀ (m : M Gw unit), (∀ k, preserves (λ g, tail g = k) m) → tail (snd (m g)) = tail g) as Hp.
  { intros m Hm. by apply (Hm (tail g)). }
  destruct op; try done; simpl; apply Hp; intros k.
  - unfold handleConnection. preserve; by apply preserves_modify.
  - unfold handleTimeout, put_redis, maybeSnapshot, drop_state. preserve; by apply preserves_modify.
Qed.

(** ** Action ids *)

(** A past action is either out of its retention, or its id is stored with a time
    no earlier; equal ids lie a retention apart. *)
Definition remembered (now : Z) (h : H) (ev : GameEvent) : Prop :=
  ev_time ev + actionRetentionMs < now ∨
  ∃ t, h_get (ge_hashAction env (ev_actionId ev)) h = Some t ∧ ev_time ev ≤ t.
Definition spaced (evs : list GameEvent) : Prop :=
  ∀ i j ei ej, (i < j)%nat → evs !! i = Some ei → evs !! j = Some ej → ev_actionId ei = ev_actionId ej →
    ev_time ei + actionRetentionMs <= ev_time ej.
Record ids_inv (now : Z) (h : H) (evs : list GameEvent) : Prop := {
  ii_past : ∀ ev, ev ∈ evs → ev_time ev <= now;
  ii_remembered : ∀ ev, ev ∈ evs → remembered now h ev;
  ii_spaced : spaced evs }.

Lemma ids_inv_later now now' h evs : now <= now' → ids_inv now h evs → ids_inv now' h evs.
Proof.
  intros Hle [Hp Hr Hs]. split; [|intros ev Hev|done].
  - intros ev Hev. specialize (Hp ev Hev). lia.
  - destruct (Hr ev Hev) as [?|?]; [left; lia | by right].
Qed.

Context `{!RedisHashLaws H Z}.

Lemma ids_inv_set now h k evs : ids_inv now h evs → ids_inv now (h_set k now h) evs.
Proof.
  intros [Hp Hr Hs]. split; [done| |done]. intros ev Hev.
  destruct (Hr ev Hev) as [?|(t & Ht & Hle)]; [by left | right].
  rewrite hget_set. case_decide; [exists now; split; [done | by apply Hp] | by exists t].
Qed.

Lemma get_foldr_del ks (h : H) k :
  h_get k (foldr h_del h ks) = if decide (k ∈ ks) then None else h_get k h.
Proof.
  induction ks as [|x ks IH]; cbn [foldr].
  - case_decide as Hin; [by apply elem_of_nil in Hin | done].
  - rewrite hget_del, IH. destruct (decide (k = x)) as [->|Hne].
    + by rewrite decide_True by (by left).
    + destruct (decide (k ∈ ks)) as [Hin|Hni].
      * by rewrite decide_True by (by right).
      * by rewrite decide_False by (by intros [?|?]%elem_of_cons).
Qed.

Lemma ids_inv_trim now h evs :
  ids_inv now h evs →
  ids_inv now (foldr h_del h (filter (λ p, p.2 < now - actionRetentionMs) (h_all h)).*1) evs.
Proof.
  intros [Hp Hr Hs]. split; [done| |done]. intros ev Hev.
  destruct (Hr ev Hev) as [?|(t & Ht & Hle)]; [by left|].
  unfold remembered. rewrite get_foldr_del. case_decide as Hin; [left | right; by exists t].
  apply list_elem_of_fmap in Hin as ([k v] & Hk & [Hv Hall]%list_elem_of_filter). simpl in *. subst k.
  apply h_all_get in Hall. rewrite Ht in Hall. injection Hall as ->. lia.
Qed.

Lemma ids_inv_add now h evs ev :
  ids_inv now h evs → ev_time ev = now →
  match h_get (ge_hashAction env (ev_actionId ev)) h with
  | Some t => actionRetentionMs <= now - t
  | None => True
  end →
  ids_inv now (h_set (ge_hashAction env (ev_actionId ev)) now h) (evs ++ [ev]).
Proof.
  intros Hi Ht Hfresh. destruct (ids_inv_set now h (ge_hashAction env (ev_actionId ev)) evs Hi) as [Hp Hr Hs].
  split.
  - intros e [He| ->%list_elem_of_singleton]%elem_of_app; [by apply Hp | lia].
  - intros e [He| ->%list_elem_of_singleton]%elem_of_app; [by apply Hr|].
    right. exists now. rewrite hget_set, decide_True by done. split; [done | lia].
  - intros i j ei ej Hij Hei Hej Hid.
    apply lookup_app_Some in Hej as [Hej|[Hge Hej]].
    { rewrite lookup_app_l in Hei by (apply lookup_lt_Some in Hej; lia). by eapply Hs. }
    apply list_lookup_singleton_Some in Hej as [Hj <-].
    rewrite lookup_app_l in Hei by lia. apply list_elem_of_lookup_2 in Hei.
    destruct (ii_remembered _ _ _ Hi ei Hei) as [Hold|(t & Hget & Hle)]; [lia|].
    rewrite <- Hid, Hget in Hfresh. lia.
Qed.

Definition ids_ok g : Prop := ids_inv (gw_now g) (st_hashes (gw_store g)) (st_events (gw_store g)).

Lemma ids_ok_step op g : ids_ok g → ids_ok (gateway_step op g).
Proof.
  unfold ids_ok. intros Hi.
  assert (tail (gateway_step op g) = tail g → ids_ok (gateway_step op g)) as Hsame.
  { unfold ids_ok, tail, tables. by intros [= -> _ -> ->]. }
  pose proof (step_tables op g) as Hst. destruct op; try (by apply Hsame).
  - destruct (handleAction_cases c raw actionId g) as (Hn & _ & [Ht|(t & a & _ & _ & Hf & Hh & Hcase)]).
    { unfold tables in Ht. injection Ht as _ Hh Hv. simpl. by rewrite Hn, Hh, Hv. }
    simpl. rewrite Hn, Hh. destruct Hcase as [[_ ->]|(e & _ & _ & _ & Hs)]; [by apply ids_inv_set|].
    unfold table_step in Hs. destruct (applyAction (ge_sha256 env) a e) as [[s|x] e']; destruct Hs as [_ ->].
    + by apply (ids_inv_add _ _ _ {| ev_client := cl_id c; ev_table := t; ev_action := a; ev_actionId := actionId; ev_time := gw_now g |}).
    + by apply ids_inv_set.
  - destruct (handleSeat_cases c event actionId g) as (Hn & _ & Hv & Hh). simpl. rewrite Hn, Hv.
    destruct Hh as [->| ->]; [done | by apply ids_inv_set].
  - done.
  - simpl. by apply ids_inv_trim.
  - simpl. eapply ids_inv_later; [|exact Hi]. lia.
Qed.

Lemma ids_ok_run ops g : ids_ok g → ids_ok (gateway_run ops g).
Proof. revert g; induction ops as [|op ops IH]; intros g Hg; [done|]. apply IH. by apply ids_ok_step. Qed.

Lemma ids_ok_start g : st_events (gw_store g) = [] → ids_ok g.
Proof. intros E. unfold ids_ok. rewrite E. split; [intros ev []%elem_of_nil | intros ev []%elem_of_nil | by intros i]. Qed.
End Admission.

(** C8: within a day, an action id is applied at most once. Let clients send
    actions and seat events in any order, with any ids, while time passes, ids
    are trimmed, sockets come and go: if two applied actions carry the same id,
    the second was applied at least 24 hours after the first, whatever the hash
    of ids collides on. Each handler is run through before the next. *)
Theorem gateway_applies_action_once {R H : Type} `{!RedisOps R Cached, !RedisHashOps H Z, !RedisHashLaws H Z}
    (env : GatewayEnv) (g : GameGateway (R := R) (H := H)) (ops : list GatewayOp) (i j : nat) (e1 e2 : GameEvent)
    (Hstart : st_events (gw_store g) = []) (Hij : (i < j)%nat)
    (He1 : st_events (gw_store (gateway_run env ops g)) !! i = Some e1)
    (He2 : st_events (gw_store (gateway_run env ops g)) !! j = Some e2)
    (Hid : ev_actionId e1 = ev_actionId e2) :
  ev_time e1 + actionRetentionMs <= ev_time e2.
Proof.
  pose proof (ids_ok_run env ops g (ids_ok_start env g Hstart)) as [_ _ Hs]. by eapply Hs.
Qed.


(** ** Rate limits *)

Section Limits.
Context {R H : Type} `{!RedisOps R Cached, !RedisLaws R Cached} (env : GatewayEnv).
Abbreviation Gw := (GameGateway (R := R) (H := H)).
Implicit Types g : Gw.

(** The requests of several clients in a row, between two expirations of the
    counters: whether each is let through. *)
Fixpoint admissions (cs : list Client) g : list bool :=
  match cs with
  | [] => []
  | c :: cs' =>
      match isRateLimited env c g with
      | (Ret limited, g') => negb limited :: admissions cs' g'
      | (Throw _, g') => false :: admissions cs' g'
      end
  end.

Definition counted (k : string) g : Z := r_count k (st_redis (gw_store g)).
Definition same_key (k : string) (cs : list Client) : Z :=
  Z.of_nat (length (filter (λ c, getRateLimitKey c = k) cs)).

Definition let_through (c : Client) g : bool :=
  bool_decide (counted globalActionCounterKey g + 1 <= ge_globalLimit env ∧
               counted (getRateLimitKey c) g + 1 <= socketLimit).

Lemma counted_expire k k' n g : counted k (snd (expire_fresh k' n g)) = counted k g.
Proof. unfold expire_fresh, when. destruct (n =? 1); [|done]. apply count_expire. Qed.

Lemma isRateLimited_spec c g :
  getRateLimitKey c ≠ globalActionCounterKey →
  ∃ g', isRateLimited env c g = (Ret (negb (let_through c g)), g') ∧
    ∀ k, counted k g' = counted k g + (if decide (k = globalActionCounterKey ∨ k = getRateLimitKey c) then 1 else 0).
Proof.
  intros Hne. set (key := getRateLimitKey c) in *.
  set (g1 := on_store (set_redis (r_incrby key 1 (st_redis (gw_store g))).2) g).
  set (g2 := on_store (set_redis (r_incrby globalActionCounterKey 1 (st_redis (gw_store g1))).2) g1).
  assert (∀ k, counted k g2 = counted k g + (if decide (k = globalActionCounterKey ∨ k = key) then 1 else 0)) as H2.
  { intros k. unfold counted, g2, g1. simpl. rewrite !count_incrby.
    repeat case_decide; subst; try tauto; try lia. all: naive_solver. }
  assert ((r_incrby key 1 (st_redis (gw_store g))).1 = counted key g + 1) as E1 by apply incrby_fst.
  assert ((r_incrby globalActionCounterKey 1 (st_redis (gw_store g1))).1
          = counted globalActionCounterKey g + 1) as E2.
  { rewrite incrby_fst. unfold g1. simpl. rewrite count_incrby. by rewrite decide_False by done. }
  unfold isRateLimited. fold key.
  change ((count_action key ≫= ?f) g) with (f (r_incrby key 1 (st_redis (gw_store g))).1 g1).
  rewrite E1. cbv beta.
  change ((count_action globalActionCounterKey ≫= ?f) g1)
    with (f (r_incrby globalActionCounterKey 1 (st_redis (gw_store g1))).1 g2).
  rewrite E2. cbv beta.
  pose proof (λ k, counted_expire k key (counted key g + 1) g2) as H3.
  change ((expire_fresh ?k ?n ≫= ?f) g2) with
    (match expire_fresh k n g2 with (Ret a, g') => f a g' | (Throw x, g') => (Throw x, g') end).
  assert (∀ k n q, ∃ q', expire_fresh k n q = (Ret tt, q') ∧ (∀ k', counted k' q' = counted k' q)) as Hexp.
  { intros k n q. pose proof (λ k', counted_expire k' k n q) as Hc. unfold expire_fresh, when in *.
    destruct (n =? 1); by eexists. }
  destruct (Hexp key (counted key g + 1) g2) as (g3 & -> & Hg3).
  change ((expire_fresh ?k ?n ≫= ?f) g3) with
    (match expire_fresh k n g3 with (Ret a, g') => f a g' | (Throw x, g') => (Throw x, g') end).
  destruct (Hexp globalActionCounterKey (counted globalActionCounterKey g + 1) g3) as (g4 & -> & Hg4).
  assert (∀ q, gw_store q = gw_store g4 → ∀ k,
    counted k q = counted k g + (if decide (k = globalActionCounterKey ∨ k = key) then 1 else 0)) as Hend.
  { intros q Hq k. transitivity (counted k g4); [unfold counted; by rewrite Hq|]. by rewrite Hg4, Hg3, H2. }
  unfold let_through. fold key.
  change ((modify ?f ≫= ?k) g4) with (k tt (f g4)). cbv beta.
  destruct (Z.ltb_spec (ge_globalLimit env) (counted globalActionCounterKey g + 1)).
  { eexists. rewrite bool_decide_eq_false_2 by lia. split; [reflexivity|]. by apply Hend. }
  destruct (Z.ltb_spec socketLimit (counted key g + 1)).
  { eexists. rewrite bool_decide_eq_false_2 by lia. split; [reflexivity|]. by apply Hend. }
  eexists. rewrite bool_decide_eq_true_2 by lia. split; [reflexivity|]. by apply Hend.
Qed.
End Limits.

(** who is let through. Between two expirations of the counters, the i-th
    request is let through exactly when, with it, at most the global limit of
    requests have come in from anyone, and at most thirty from its own user or
    address -- refused ones included. So no user gets more than thirty through,
    all together no more than the global limit, and since every request counts
    against it, one client can use it up for all. *)
Lemma gateway_rate_limits {R H : Type} `{!RedisOps R Cached, !RedisLaws R Cached} (env : GatewayEnv)
    (g : GameGateway (R := R) (H := H)) (cs : list Client) (i : nat) (c : Client)
    (Hkeys : ∀ c, c ∈ cs → getRateLimitKey c ≠ globalActionCounterKey) (Hi : cs !! i = Some c) :
  admissions env cs g !! i
  = Some (bool_decide (counted globalActionCounterKey g + Z.of_nat i + 1 <= ge_globalLimit env ∧
                       counted (getRateLimitKey c) g + same_key (getRateLimitKey c) (take i cs) + 1 <= socketLimit)).
Proof.
  revert g i Hi. induction cs as [|c0 cs IH]; intros g i Hi; [done|].
  assert (getRateLimitKey c0 ≠ globalActionCounterKey) as Hne by (apply Hkeys; by left).
  destruct (isRateLimited_spec env c0 g Hne) as (g' & E & Hc). cbn [admissions]. rewrite E.
  destruct i as [|i]; simpl in Hi.
  - injection Hi as ->. simpl. rewrite negb_involutive. unfold let_through, same_key. simpl. do 2 f_equal.
    by rewrite !Z.add_0_r.
  - cbn [lookup list_lookup]. rewrite IH; [|intros ? ?; apply Hkeys; by right | done]. f_equal.
    rewrite !Hc. assert (getRateLimitKey c ≠ globalActionCounterKey) as Hne'.
    { apply Hkeys. right. by eapply list_elem_of_lookup_2. }
    rewrite (decide_True (P := _ = globalActionCounterKey ∨ _)) by (by left).
    unfold same_key. cbn [take]. rewrite filter_cons.
    destruct (decide (getRateLimitKey c0 = getRateLimitKey c)) as [Heq|Hneq].
    + rewrite decide_True by (by right). cbn [length]. apply bool_decide_ext. lia.
    + rewrite decide_False by naive_solver. apply bool_decide_ext. lia.
Qed.
