(* ===== verification/GatewayFrames.v ===== *)
(** * Outgoing frames

    The queue of a socket and the frames sent again until acknowledged, for every
    order of queueing, delivery, retries, acknowledgements and disconnections;
    then the gateway on a concrete table. *)

From S2P Require Import Prelude Fairness HandEval SidePots StateMachine Store Engine Room Gateway GatewaySafety.
#[local] Open Scope Z_scope.

Section Frames.
Context (env : GatewayEnv).

Inductive OutOp :=
| OutEnqueue (client : string) (f : Frame) (critical : bool)
| OutDeliver (client : string) | OutRetry (id : nat)
| OutAck (client : string) (id : nat) | OutForget (client : string).

Definition out_step (op : OutOp) (o : Outbound) : Outbound :=
  match op with
  | OutEnqueue c f b => enqueue_out env c f b o
  | OutDeliver c => deliver c o
  | OutRetry id => retry id o
  | OutAck c id => handleFrameAck c id o
  | OutForget c => forget c o
  end.
Definition out_run (ops : list OutOp) (o : Outbound) : Outbound := foldl (λ o op, out_step op o) o ops.

Definition no_frames : Outbound :=
  {| ob_queues := ∅; ob_sent := []; ob_frameAcks := ∅; ob_frameIds := 0; ob_spectators := [] |}.

(** How often a frame id has been emitted. *)
Definition times_sent (id : nat) (o : Outbound) : nat :=
  length (filter (λ x, x.1.2 = Some id) (ob_sent o)).

Lemma times_emit id client fid f o :
  times_sent id (emit_frame client fid f o) = (times_sent id o + if decide (fid = Some id) then 1 else 0)%nat.
Proof.
  unfold times_sent. simpl. rewrite filter_app, length_app. f_equal. rewrite filter_cons. simpl.
  by destruct (decide (fid = Some id)).
Qed.

(** A tracked frame has been sent as often as its attempt says, fewer than five
    times; no frame more than five; ids are handed out in order; queues stay
    within the limit. *)
Record out_inv (o : Outbound) : Prop := {
  oi_tracked : ∀ id fr, ob_frameAcks o !! id = Some fr →
    times_sent id o = fi_attempt fr ∧ (1 ≤ fi_attempt fr < maxFrameAttempts)%nat ∧ (id ≤ ob_frameIds o)%nat;
  oi_bound : ∀ id, (times_sent id o ≤ maxFrameAttempts)%nat;
  oi_new : ∀ id, (ob_frameIds o < id)%nat → times_sent id o = 0%nat;
  oi_queue : ∀ c q, ob_queues o !! c = Some q → (length q ≤ ge_queueLimit env)%nat }.

Lemma out_inv_init : out_inv no_frames.
Proof. split; simpl; try done. intros id. unfold times_sent. simpl. lia. Qed.

(** A frame without an id, and a change of the queues alone. *)
Lemma out_inv_emit_none c f o : out_inv o → out_inv (emit_frame c None f o).
Proof.
  intros [Ht Hb Hn Hq].
  assert (∀ id, times_sent id (emit_frame c None f o) = times_sent id o) as E
    by (intros id; rewrite times_emit, decide_False by done; lia).
  split; [| | |done]; intros id; rewrite ?E; auto.
Qed.

Lemma out_inv_queues qs o :
  out_inv o → (∀ c q, qs !! c = Some q → (length q ≤ ge_queueLimit env)%nat) → out_inv (set_queues qs o).
Proof. intros [Ht Hb Hn _] Hq. by split. Qed.

Lemma out_inv_fewer m o : out_inv o → m ⊆ ob_frameAcks o → out_inv (set_frames m (ob_frameIds o) o).
Proof.
  intros [Ht Hb Hn Hq] Hm. split; [|done..]. intros id fr Hf. apply Ht. by eapply lookup_weaken.
Qed.

Lemma out_inv_enqueue c f b o : out_inv o → out_inv (enqueue_out env c f b o).
Proof.
  intros Hi. unfold enqueue_out. destruct (Nat.leb_spec (ge_queueLimit env) (length (default [] (ob_queues o !! c)))).
  - by apply out_inv_emit_none.
  - apply out_inv_queues; [done|]. intros c' q [[<- <-]|[_ Hq]]%lookup_insert_Some; [|by eapply oi_queue].
    rewrite length_app. simpl. lia.
Qed.

Lemma out_inv_deliver c o : out_inv o → out_inv (deliver c o).
Proof.
  intros Hi. unfold deliver. destruct (ob_queues o !! c) as [[|[f b] q]|] eqn:Eq; try done.
  set (o1 := set_queues (<[c := q]> (ob_queues o)) o).
  assert (out_inv o1) as Hi1.
  { apply out_inv_queues; [done|]. intros c' q' [[<- <-]|[_ Hq]]%lookup_insert_Some; [|by eapply oi_queue].
    pose proof (oi_queue _ Hi _ _ Eq) as Hl. simpl in Hl. lia. }
  destruct (b && has_payload f); [|by apply out_inv_emit_none].
  set (id := S (ob_frameIds o1)). pose proof Hi1 as [Ht Hb Hn Hq].
  assert (times_sent id o1 = 0%nat) as H0 by (apply Hn; unfold id; lia).
  assert (∀ k, times_sent k (emit_frame c (Some id) f o1) = (times_sent k o1 + if decide (k = id) then 1 else 0)%nat) as E.
  { intros k. rewrite times_emit. f_equal. by repeat case_decide; simplify_eq. }
  assert (∀ k m n, times_sent k (set_frames m n (emit_frame c (Some id) f o1))
                   = times_sent k (emit_frame c (Some id) f o1)) as Es by done.
  split; [| | |exact Hq].
  - intros k fr. cbn [ob_frameAcks ob_frameIds set_frames]. rewrite Es, E.
    intros [[<- <-]|[Hne Hf]]%lookup_insert_Some.
    + rewrite decide_True, H0 by done. simpl. unfold maxFrameAttempts. lia.
    + destruct (Ht k fr Hf) as (? & ? & ?). rewrite decide_False by done. unfold id. lia.
  - intros k. rewrite Es, E. case_decide as Hk; [subst k; rewrite H0; unfold maxFrameAttempts; lia|].
    specialize (Hb k). lia.
  - intros k. cbn [ob_frameIds set_frames]. intros Hk. rewrite Es, E, decide_False by lia.
    rewrite Hn; [done|]. unfold id in Hk. lia.
Qed.

Lemma out_inv_retry id o : out_inv o → out_inv (retry id o).
Proof.
  intros Hi. pose proof Hi as [Ht Hb Hn Hq]. unfold retry.
  destruct (ob_frameAcks o !! id) as [fr|] eqn:Ef; [|done]. cbv zeta.
  destruct (Ht id fr Ef) as (Hs & Ha & Hid).
  assert (∀ k m n, times_sent k (set_frames m n (emit_frame (fi_client fr) (Some id) (fi_frame fr) o))
                   = (times_sent k o + if decide (k = id) then 1 else 0)%nat) as E.
  { intros k m n. unfold times_sent at 1. cbn [ob_sent set_frames].
    change (length _) with (times_sent k (emit_frame (fi_client fr) (Some id) (fi_frame fr) o)).
    rewrite times_emit. f_equal. by repeat case_decide; simplify_eq. }
  split; [| | |exact Hq].
  - intros k fk. rewrite E. cbn [ob_frameAcks ob_frameIds set_frames emit_frame].
    destruct (Nat.leb_spec maxFrameAttempts (S (fi_attempt fr))).
    + intros [Hne Hf]%lookup_delete_Some. rewrite decide_False by done.
      destruct (Ht k fk Hf) as (? & ? & ?). lia.
    + intros [[<- <-]|[Hne Hf]]%lookup_insert_Some.
      * rewrite decide_True by done. simpl. lia.
      * rewrite decide_False by done. destruct (Ht k fk Hf) as (? & ? & ?). lia.
  - intros k. rewrite E. case_decide as Hk; [subst k; lia|]. specialize (Hb k). lia.
  - intros k. rewrite E. cbn [ob_frameIds set_frames emit_frame]. intros Hk. rewrite decide_False by lia.
    rewrite Hn; [done | exact Hk].
Qed.

Lemma out_inv_step op o : out_inv o → out_inv (out_step op o).
Proof.
  intros Hi. destruct op; simpl.
  - by apply out_inv_enqueue.
  - by apply out_inv_deliver.
  - by apply out_inv_retry.
  - unfold handleFrameAck. destruct (ob_frameAcks o !! id); [|done]. case_decide; [|done].
    apply out_inv_fewer; [done | apply delete_subseteq].
  - unfold forget. apply out_inv_queues.
    + apply out_inv_fewer; [done | apply map_filter_subseteq].
    + intros c q [_ Hq]%lookup_delete_Some. by eapply oi_queue.
Qed.

Lemma out_inv_run ops o : out_inv o → out_inv (out_run ops o).
Proof. revert o; induction ops as [|op ops IH]; intros o Ho; [done|]. apply IH. by apply out_inv_step. Qed.

(** A frame no longer tracked is never emitted again. *)
Definition done_with (id : nat) (o : Outbound) : Prop :=
  ob_frameAcks o !! id = None ∧ (id ≤ ob_frameIds o)%nat.

Lemma done_step id op o :
  done_with id o → done_with id (out_step op o) ∧ times_sent id (out_step op o) = times_sent id o.
Proof.
  intros [Hn Hid]. unfold done_with. destruct op as [c f b|c|k|c k|c]; simpl.
  - unfold enqueue_out. destruct (_ <=? _)%nat; [|done]. rewrite times_emit, decide_False by done.
    split; [done | lia].
  - unfold deliver. destruct (ob_queues o !! c) as [[|[f b] q]|]; try done.
    destruct (b && has_payload f).
    + cbn [ob_frameAcks ob_frameIds set_frames set_queues emit_frame]. rewrite lookup_insert_ne by lia.
      split; [split; [done | lia]|]. unfold times_sent. cbn [ob_sent set_frames emit_frame set_queues].
      rewrite filter_app, filter_cons. rewrite decide_False by (simpl; intros [=]; lia). by rewrite app_nil_r.
    + rewrite times_emit, decide_False by done. split; [done|]. unfold times_sent. simpl. lia.
  - unfold retry. destruct (ob_frameAcks o !! k) as [fr|] eqn:Ek; [|done]. cbv zeta.
    assert (k ≠ id) as Hne by congruence.
    cbn [ob_frameAcks ob_frameIds set_frames emit_frame]. split; [split; [|done]|].
    + by destruct (_ <=? _)%nat; rewrite ?lookup_delete_ne, ?lookup_insert_ne.
    + unfold times_sent. cbn [ob_sent set_frames emit_frame]. rewrite filter_app, filter_cons.
      rewrite decide_False by (simpl; congruence). by rewrite app_nil_r.
  - unfold handleFrameAck. destruct (ob_frameAcks o !! k) eqn:Ek; [|done]. case_decide; [|done].
    split; [split; [|done]|done]. cbn [ob_frameAcks set_frames]. destruct (decide (k = id)) as [->|].
    + by rewrite lookup_delete_eq.
    + by rewrite lookup_delete_ne.
  - split; [split; [|done]|done]. unfold forget. cbn [ob_frameAcks set_frames set_queues].
    rewrite map_lookup_filter, Hn. done.
Qed.

Lemma done_run id ops o : done_with id o → times_sent id (out_run ops o) = times_sent id o.
Proof.
  revert o; induction ops as [|op ops IH]; intros o Ho; [done|].
  destruct (done_step id op o Ho) as [Hd <-]. by apply IH.
Qed.
End Frames.

(** a frame is sent at most five times, and not after its acknowledgement. For
    every order of queueing, delivery, retry timers, acknowledgements and
    disconnections: a frame still tracked has been sent as often as it counts, at
    most four times; no frame is ever sent more than five times; once it is no
    longer tracked -- acknowledged, given up, its socket gone -- it is never sent
    again; and no socket's queue exceeds its limit. *)
Lemma frames_retried_until_acknowledged (env : GatewayEnv) (ops : list OutOp) (id : nat) :
  let o := out_run env ops no_frames in
  (times_sent id o ≤ maxFrameAttempts)%nat ∧
  match ob_frameAcks o !! id with
  | Some fr => times_sent id o = fi_attempt fr ∧ (fi_attempt fr < maxFrameAttempts)%nat
  | None => (id ≤ ob_frameIds o)%nat → ∀ more, times_sent id (out_run env more o) = times_sent id o
  end ∧
  (∀ c q, ob_queues o !! c = Some q → (length q ≤ ge_queueLimit env)%nat).
Proof.
  intros o. destruct (out_inv_run env ops no_frames (out_inv_init env)) as [Ht Hb Hn Hq]. fold o in Ht, Hb, Hq.
  split_and!; [apply Hb | | exact Hq]. destruct (ob_frameAcks o !! id) as [fr|] eqn:E.
  - destruct (Ht id fr E) as (? & ? & _). lia.
  - intros Hid more. by apply done_run.
Qed.

(** ** A concrete gateway *)

Abbreviation DemoGateway := (GameGateway (R := map_redis Cached) (H := gmap string Z)).

Definition gateway_env : GatewayEnv :=
  {| ge_sha256 := λ _, [1; 2; 3; 4]; ge_hashAction := λ id, id; ge_globalLimit := 30; ge_queueLimit := 100;
     ge_flag := λ _, None; ge_roomFlag := λ _ _, Some true |}.
Definition empty_gateway : DemoGateway :=
  {| gw_now := 1000; gw_store := {| st_redis := MapRedis ∅ ∅ ∅; st_hashes := ∅; st_snapshots := [];
                                    st_hands := []; st_events := [] |};
     gw_out := no_frames; gw_engines := ∅; gw_socketPlayers := ∅; gw_states := ∅; gw_lastSnapshot := ∅;
     gw_tick := 0; gw_globalActionCountValue := 0; gw_clock := {| clock_now := 0; clock_timers := [] |} |}.

Definition client_a : Client := {| cl_id := "s1"; cl_userId := Some "a"; cl_ip := "1.2.3.4" |}%string.
Definition client_b : Client := {| cl_id := "s2"; cl_userId := None; cl_ip := "5.6.7.8" |}%string.
Definition blind_a : RawAction :=
  {| ra_type := "postBlind"; ra_tableId := Some "t"; ra_playerId := Some "a"; ra_amount := Some (RInt 1) |}%string.

Definition opening : list GatewayOp :=
  [OpStart "t" [5] [6] ["a"; "b"]; OpConnect client_a (Some "a")]%string.

(** The same id three times: at once, a minute later, a day later. *)
Definition thrice : list GatewayOp :=
  opening ++ [OpAction client_a blind_a "x"; OpPass 60000; OpAction client_a blind_a "x";
              OpPass 86340000; OpAction client_a blind_a "x"]%string.
Definition blind_event (time : Z) : GameEvent :=
  {| ev_client := "s1"; ev_table := "t"; ev_action := PostBlind "a" 1; ev_actionId := "x"; ev_time := time |}%string.

Lemma gateway_applies_action_once_witness :
  st_events (gw_store (gateway_run gateway_env thrice empty_gateway)) = [blind_event 1000; blind_event 86401000] ∧
  ev_time (blind_event 1000) + actionRetentionMs <= ev_time (blind_event 86401000).
Proof.
  split; [vm_compute; reflexivity|].
  refine (gateway_applies_action_once gateway_env empty_gateway thrice 0 1
    (blind_event 1000) (blind_event 86401000) eq_refl _ _ _ eq_refl).
  - repeat constructor.
  - vm_compute. reflexivity.
  - vm_compute. reflexivity.
Defined.

(** Thirty-one requests of one client, then one of another. *)
Lemma gateway_rate_limits_witness :
  admissions gateway_env (replicate 31 client_a ++ [client_b]) empty_gateway !! 31%nat
  = Some (bool_decide (0 + 31 + 1 <= 30 ∧ 0 + 0 + 1 <= socketLimit)).
Proof.
  refine (gateway_rate_limits gateway_env empty_gateway (replicate 31 client_a ++ [client_b]) 31 client_b _ _).
  - intros c [->%elem_of_replicate_inv| ->%list_elem_of_singleton]%elem_of_app; discriminate.
  - reflexivity.
Defined.

(** Two handlers of one message interleave at the look-up of its id: both find
    none, both store it, and the blind is posted twice. *)
Definition overlapping (c : Client) (raw : RawAction) (actionId : string) : M DemoGateway unit :=
  p1 ← handle_begin gateway_env c raw actionId;
  p2 ← handle_begin gateway_env c raw actionId;
  handle_rest gateway_env 4 p1 ;; handle_rest gateway_env 4 p2.

Lemma overlapping_duplicates_both_applied :
  let g := snd (overlapping client_a blind_a "x" (gateway_run gateway_env opening empty_gateway)) in
  st_events (gw_store g) = [blind_event 1000; blind_event 1000] ∧
  (λ e, p_bet <$> g_players (e_state e)) <$> gw_engines g !! "t"%string = Some [2; 0].
Proof. vm_compute. done. Qed.
