(* ===== verification/JsMap.v ===== *)
(** * Maps and sets in insertion order

    A JavaScript [Map], [Set] or object used as one keeps its keys in the order
    they were first written. [omap] is such a map as an association list;
    [group_by] and [group_sets] are the loops that collect values under keys, and
    their lemmas say what a plain [filter] would give. *)

From S2P Require Import Prelude.
#[local] Open Scope Z_scope.

Section OrderedMap.
Context {K : Type} `{!EqDecision K} {V : Type}.
Implicit Types (k : K) (v : V) (m : list (K * V)).

Fixpoint om_get k m : option V :=
  match m with
  | [] => None
  | (k', v) :: m' => if decide (k' = k) then Some v else om_get k m'
  end.

(** [map.set(k, v)]: a known key keeps its place. *)
Fixpoint om_set k v m : list (K * V) :=
  match m with
  | [] => [(k, v)]
  | (k', v') :: m' => if decide (k' = k) then (k, v) :: m' else (k', v') :: om_set k v m'
  end.

Lemma om_get_set k k' v m : om_get k' (om_set k v m) = if decide (k' = k) then Some v else om_get k' m.
Proof.
  induction m as [|[j w] m IH]; simpl.
  - repeat case_decide; congruence.
  - destruct (decide (j = k)) as [->|Hjk]; simpl.
    + repeat case_decide; congruence.
    + rewrite IH. repeat case_decide; congruence.
Qed.

Lemma om_set_keys k v m : (om_set k v m).*1 = if decide (k ∈ m.*1) then m.*1 else m.*1 ++ [k].
Proof.
  induction m as [|[j w] m IH]; cbn [om_set].
  - case_decide as Hk; [by apply elem_of_nil in Hk | done].
  - destruct (decide (j = k)) as [->|Hjk].
    + rewrite !fmap_cons. cbn [fst]. by rewrite decide_True by (by left).
    + rewrite !fmap_cons, IH. cbn [fst].
      destruct (decide (k ∈ m.*1)) as [Hin|Hni].
      * by rewrite decide_True by (by right).
      * rewrite decide_False; [done|]. intros [?|?]%elem_of_cons; congruence.
Qed.

Lemma om_set_NoDup k v m : NoDup m.*1 → NoDup (om_set k v m).*1.
Proof.
  intros Hm. rewrite om_set_keys. case_decide as Hk; [done|].
  apply NoDup_app. split_and!; [done | |apply NoDup_singleton].
  intros x Hx ->%list_elem_of_singleton. done.
Qed.

Lemma om_get_elem k v m : NoDup m.*1 → om_get k m = Some v ↔ (k, v) ∈ m.
Proof.
  induction m as [|[j w] m IH]; cbn [om_get].
  - intros _. split; [done | intros []%elem_of_nil].
  - rewrite fmap_cons. intros [Hj Hm]%NoDup_cons. rewrite elem_of_cons. case_decide as E.
    + subst j. split; [intros [= ->]; by left|]. intros [[= ->]|Hin]; [done|].
      destruct Hj. apply list_elem_of_fmap. by exists (k, v).
    + rewrite IH by done. split; [by right|]. intros [[= -> ->]|Hin]; done.
Qed.

Lemma om_get_None k m : om_get k m = None ↔ k ∉ m.*1.
Proof.
  induction m as [|[j w] m IH]; cbn [om_get].
  - split; [intros _ []%elem_of_nil | done].
  - rewrite fmap_cons, not_elem_of_cons. cbn [fst]. case_decide as E.
    + subst j. split; [done|]. by intros [].
    + rewrite IH. split; [split; [congruence | done] | by intros []].
Qed.

(** A map filled in a loop, when the entries of a key agree. *)
Lemma om_get_foldl {X} (f : X → K) (g : X → V) (l : list X) k v m :
  (∀ x, x ∈ l → f x = k → g x = v) →
  om_get k (foldl (λ m x, om_set (f x) (g x) m) m l) = if decide (k ∈ f <$> l) then Some v else om_get k m.
Proof.
  revert m. induction l as [|x l IH]; intros m H; cbn [foldl fmap list_fmap]; [done|].
  rewrite IH by (intros y Hy; apply H; by right). rewrite om_get_set.
  destruct (decide (k ∈ f <$> l)) as [Hin|Hin]; [by rewrite decide_True by (by right)|].
  destruct (decide (k = f x)) as [->|Hne].
  - rewrite decide_True by (by left). f_equal. apply H; [by left | done].
  - rewrite decide_False; [done|]. by intros [?|?]%elem_of_cons.
Qed.
End OrderedMap.

(** [set.add(x)] *)
Definition set_add {A} `{!EqDecision A} (x : A) (s : list A) : list A := if decide (x ∈ s) then s else s ++ [x].
Definition to_set {A} `{!EqDecision A} (l : list A) : list A := foldl (λ s x, set_add x s) [] l.

Section Sets.
Context {A : Type} `{!EqDecision A}.
Implicit Types (x : A) (l s : list A).

Lemma elem_of_set_add x y s : y ∈ set_add x s ↔ y = x ∨ y ∈ s.
Proof.
  unfold set_add. case_decide.
  - split; [by right | by intros [->|?]].
  - rewrite elem_of_app, list_elem_of_singleton. tauto.
Qed.

Lemma NoDup_set_add x s : NoDup s → NoDup (set_add x s).
Proof.
  intros Hs. unfold set_add. case_decide; [done|]. apply NoDup_app.
  split_and!; [done | |apply NoDup_singleton]. by intros y Hy ->%list_elem_of_singleton.
Qed.

Lemma to_set_snoc l x : to_set (l ++ [x]) = set_add x (to_set l).
Proof. unfold to_set. by rewrite foldl_app. Qed.

Lemma to_set_spec l : NoDup (to_set l) ∧ ∀ x, x ∈ to_set l ↔ x ∈ l.
Proof.
  induction l as [|y l [Hn He]] using rev_ind; [split; [constructor | done]|].
  rewrite to_set_snoc. split; [by apply NoDup_set_add|].
  intros x. rewrite elem_of_set_add, He, elem_of_app, list_elem_of_singleton. tauto.
Qed.
End Sets.

(** ** Collecting values under keys *)

Section Group.
Context {A K B : Type} `{!EqDecision K} (key : A → K) (value : A → B).

Definition group_add (m : list (K * list B)) (x : A) : list (K * list B) :=
  om_set (key x) (default [] (om_get (key x) m) ++ [value x]) m.
Definition group_by (l : list A) : list (K * list B) := foldl group_add [] l.

Lemma group_by_snoc l x : group_by (l ++ [x]) = group_add (group_by l) x.
Proof. unfold group_by. by rewrite foldl_app. Qed.

Lemma group_by_keys l : NoDup (group_by l).*1 ∧ ∀ k, k ∈ (group_by l).*1 ↔ k ∈ key <$> l.
Proof.
  induction l as [|x l [Hn He]] using rev_ind; [split; [constructor | done]|].
  rewrite group_by_snoc. unfold group_add. split; [by apply om_set_NoDup|].
  intros k. rewrite om_set_keys, fmap_app. change (key <$> [x]) with [key x].
  rewrite elem_of_app, list_elem_of_singleton, <- He.
  case_decide as Hin; [|by rewrite elem_of_app, list_elem_of_singleton].
  split; [by left | by intros [?| ->]].
Qed.

(** The group of a key holds its elements in their order. *)
Lemma group_by_get k l :
  om_get k (group_by l)
  = if decide (k ∈ key <$> l) then Some (value <$> filter (λ x, key x = k) l) else None.
Proof.
  induction l as [|x l IH] using rev_ind.
  { case_decide as H; [by apply elem_of_nil in H | done]. }
  rewrite group_by_snoc. unfold group_add. rewrite om_get_set.
  rewrite filter_app, filter_cons. change (filter _ []) with (@nil A).
  assert (k ∈ key <$> l ++ [x] ↔ k ∈ key <$> l ∨ k = key x) as Hin.
  { rewrite fmap_app. change (key <$> [x]) with [key x]. by rewrite elem_of_app, list_elem_of_singleton. }
  destruct (decide (k ∈ key <$> l ++ [x])) as [Hk|Hk]; destruct (decide (k = key x)) as [->|Hne]; [| |tauto|].
  - rewrite decide_True by done. rewrite fmap_app, IH. cbn [fmap list_fmap].
    destruct (decide (key x ∈ key <$> l)) as [Hl|Hni]; [done|]. simpl.
    assert (filter (λ y, key y = key x) l = []) as ->; [|done].
    destruct (filter (λ y, key y = key x) l) as [|y l'] eqn:E; [done|].
    assert (y ∈ filter (λ y, key y = key x) l) as [Hy Hyl]%list_elem_of_filter by (rewrite E; by left).
    destruct Hni. rewrite <- Hy. by apply list_elem_of_fmap_2.
  - rewrite decide_False by done. rewrite app_nil_r, IH. rewrite decide_True by tauto. done.
  - rewrite IH. rewrite decide_False by tauto. done.
Qed.

Lemma elem_of_group_by k vs l :
  (k, vs) ∈ group_by l ↔ k ∈ key <$> l ∧ vs = value <$> filter (λ x, key x = k) l.
Proof.
  rewrite <- (om_get_elem k vs) by apply group_by_keys. rewrite group_by_get.
  case_decide; naive_solver.
Qed.
End Group.
