(* ===== verification/Collusion.v ===== *)
(** * Collusion detection

    shared/analytics/collusion.ts and backend/src/analytics/collusion.ts,
    collusion.service.ts: the scores, the job that compares the players of a
    session two by two, and the review of flagged sessions. Amounts, times and
    seats are integers; where the code divides doubles the model has exact
    rationals. *)

From Stdlib Require Import QArith.
From S2P Require Import Prelude Store JsMap.
#[local] Open Scope Z_scope.

(** ** shared/analytics/collusion.ts *)

Record Session := { ss_playerId : string; ss_ip : string }.
Record Transfer := { tr_from : string; tr_to : string; tr_amount : Z }.
Record BetEvent := { be_handId : string; be_playerId : string; be_timeMs : Z }.

(** Players by address; an address two players share is reported. *)
Definition detectSharedIP (sessions : list Session) : list (string * list string) :=
  filter (λ g, (1 < length g.2)%nat)
    ((λ g, (g.1, to_set g.2)) <$> group_by ss_ip ss_playerId sessions).

(** The same for any values of users. *)
Definition clusterBySharedValues (userValues : list (string * list string)) : list (string * list string) :=
  filter (λ g, (1 < length g.2)%nat)
    ((λ g, (g.1, to_set g.2)) <$>
     group_by fst snd (userValues ≫= λ u, (λ v, (v, u.1)) <$> u.2)).

Definition chip_add (m : list (string * Z)) (t : Transfer) : list (string * Z) :=
  let m := om_set (tr_from t) (default 0 (om_get (tr_from t) m) - tr_amount t) m in
  om_set (tr_to t) (default 0 (om_get (tr_to t) m) + tr_amount t) m.
Definition chip_balances (ts : list Transfer) : list (string * Z) := foldl chip_add [] ts.
Definition detectChipDump (ts : list Transfer) : Q :=
  let imbalances : list Z := Z.abs <$> (chip_balances ts).*2 in
  let total := sumZ imbalances in
  if total =? 0 then 0%Q else (inject_Z (foldr Z.max 0%Z imbalances) / inject_Z total)%Q.

(** The hands in which every bet falls within the window. *)
Definition asc (a b : Z) : bool := a <=? b.
Definition synchronized (windowMs : Z) (times : list Z) : bool :=
  let times := js_sort asc times in
  bool_decide (1 < length times)%nat
  && (default 0 (last times) - default 0 (head times) <=? windowMs).
Definition detectSynchronizedBetting (events : list BetEvent) (windowMs : Z) : list (string * list string) :=
  (λ g : string * list BetEvent, (g.1, be_playerId <$> g.2)) <$>
  filter (λ g, synchronized windowMs (be_timeMs <$> g.2)) (group_by be_handId (λ e, e) events).

(** The parts of the correlation: numerator and the two squared deviations. *)
Fixpoint sumQ (l : list Q) : Q := match l with [] => 0%Q | x :: l' => (x + sumQ l')%Q end.
Record Correlation := { co_num : Q; co_a : Q; co_b : Q }.
Definition mean (l : list Z) : Q := (inject_Z (sumZ l) / inject_Z (Z.of_nat (length l)))%Q.
Definition calculateVpipCorrelation (vpipA vpipB : list Z) : Correlation :=
  if bool_decide (length vpipA ≠ length vpipB ∨ vpipA = []) then {| co_num := 0; co_a := 0; co_b := 0 |}
  else
    let da := (λ a, inject_Z a - mean vpipA)%Q <$> vpipA in
    let db := (λ b, inject_Z b - mean vpipB)%Q <$> vpipB in
    {| co_num := sumQ (zip_with Qmult da db);
       co_a := sumQ (zip_with Qmult da da); co_b := sumQ (zip_with Qmult db db) |}.

(** [denomA && denomB ? num / sqrt (denomA * denomB) : 0] is above [t], for [0 <= t]. *)
Definition correlation_above (t : Q) (c : Correlation) : bool :=
  negb (Qeq_bool (co_a c) 0) && negb (Qeq_bool (co_b c) 0) && negb (Qle_bool (co_num c) 0)
  && negb (Qle_bool (co_num c * co_num c) (t * t * (co_a c * co_b c))).

Definition averageDiffSimilarity (a b : list Z) : Q :=
  if bool_decide (length a ≠ length b ∨ a = []) then 0%Q
  else (1 / (1 + inject_Z (sumZ (zip_with (λ x y, Z.abs (x - y)) a b)) / inject_Z (Z.of_nat (length a))))%Q.
Definition calculateTimingSimilarity : list Z → list Z → Q := averageDiffSimilarity.
Definition calculateSeatProximity : list Z → list Z → Q := averageDiffSimilarity.

Definition timeCorrelatedBetting (timesA timesB : list Z) (windowMs : Z) : Q :=
  match timesA, timesB with
  | [], _ | _, [] => 0%Q
  | _, _ =>
      let matches := length (filter (λ tA, existsb (λ tB, Z.abs (tA - tB) <=? windowMs) timesB) timesA) in
      (inject_Z (Z.of_nat matches) / inject_Z (Z.of_nat (Nat.max (length timesA) (length timesB))))%Q
  end.

(** ** Scores *)

Lemma sum_om_set k v (m : list (string * Z)) :
  sumZ (om_set k v m).*2 = sumZ m.*2 - default 0 (om_get k m) + v.
Proof.
  induction m as [|[j w] m IH]; cbn [om_set om_get]; [simpl; lia|].
  destruct (decide (j = k)); rewrite !fmap_cons; cbn [sumZ snd default]; [simpl; lia|]. rewrite IH. lia.
Qed.

Lemma chip_add_sum m t : sumZ (chip_add m t).*2 = sumZ m.*2.
Proof. unfold chip_add. rewrite !sum_om_set. lia. Qed.

Lemma chip_balances_zero ts : sumZ (chip_balances ts).*2 = 0.
Proof.
  unfold chip_balances. induction ts as [|t ts IH] using rev_ind; [done|].
  by rewrite foldl_app; cbn [foldl]; rewrite chip_add_sum.
Qed.

Lemma sumZ_abs_ge l : Z.abs (sumZ l) <= sumZ (Z.abs <$> l).
Proof. induction l as [|x l IH]; [simpl; lia|]. rewrite fmap_cons. simpl. lia. Qed.

Lemma twice_abs_le l x : sumZ l = 0 → x ∈ l → 2 * Z.abs x <= sumZ (Z.abs <$> l).
Proof.
  intros H0 (l1 & l2 & ->)%list_elem_of_split. rewrite sumZ_app in H0. simpl in H0.
  rewrite fmap_app, fmap_cons, sumZ_app. simpl.
  pose proof (sumZ_abs_ge l1). pose proof (sumZ_abs_ge l2). lia.
Qed.

Lemma foldr_max_bound b l : 0 <= b → (∀ x, x ∈ l → x <= b) → 0 <= foldr Z.max 0 l <= b.
Proof.
  intros Hb. induction l as [|x l IH]; intros H; simpl; [lia|].
  assert (x <= b) by (apply H; by left). assert (∀ y, y ∈ l → y <= b) as Hl by (intros; apply H; by right).
  specialize (IH Hl). lia.
Qed.

Lemma sum_abs_nonneg l : 0 <= sumZ (Z.abs <$> l).
Proof. induction l as [|x l IH]; [done|]. rewrite fmap_cons. simpl. lia. Qed.

Lemma chip_dump_parts ts :
  let imbalances : list Z := Z.abs <$> (chip_balances ts).*2 in
  0 <= 2 * foldr Z.max 0 imbalances <= sumZ imbalances.
Proof.
  intros imbalances.
  assert (0 <= foldr Z.max 0 imbalances <= sumZ imbalances / 2); [|pose proof (Z_div_mod_eq_full (sumZ imbalances) 2);
    pose proof (Z.mod_pos_bound (sumZ imbalances) 2); lia].
  apply foldr_max_bound; [apply Z.div_pos; [apply sum_abs_nonneg | lia]|].
  intros y (x & -> & Hx)%list_elem_of_fmap. apply Z.div_le_lower_bound; [lia|].
  apply twice_abs_le; [apply chip_balances_zero | done].
Qed.

Lemma Qpos_inject z : 0 < z → (0 < inject_Z z)%Q.
Proof. intros H. change 0%Q with (inject_Z 0). by rewrite <- Zlt_Qlt. Qed.

(** ** collusion.service.ts: the review of a flagged session *)

Inductive AuditStatus := Flagged | Warn | Restrict | Ban.
#[export] Instance AuditStatus_eq_dec : EqDecision AuditStatus.
Proof. solve_decision. Defined.

Record CollusionHistoryEntry := { he_action : AuditStatus; he_timestamp : Z; he_reviewerId : string }.

(** What [extractFeatures] computes, and the score the job adds. *)
Record Features := {
  ft_sharedDevices : list string; ft_sharedIps : list string; ft_ipClusterScore : Z;
  ft_vpipCorrelation : Correlation; ft_timingSimilarity : Q; ft_betCorrelation : Q;
  ft_seatProximity : Q; ft_chipDumpScore : Q; ft_ipClusters : list (string * list string) }.

Record CollusionAudit := {
  au_sessionId : string; au_users : list string; au_status : AuditStatus;
  au_features : Features; au_history : list CollusionHistoryEntry }.

#[export] Instance audit_entity : Entity CollusionAudit := {
  row_id := au_sessionId; row_clash _ _ := false }.

(** [order.indexOf] *)
Definition order : list AuditStatus := [Flagged; Warn; Restrict; Ban].
Definition indexOf (s : AuditStatus) : nat :=
  match s with Flagged => 0 | Warn => 1 | Restrict => 2 | Ban => 3 end.

Section Service.
Context {T : Type → Type} `{!TableOps T} {S L : Type} `{!RedisSetOps S string, !RedisListOps L Z}.

(** The Redis keys of the service, the audits, what was announced. *)
Record CollusionStore := {
  cs_sets : S;
  cs_times : string → L;                             (* collusion:times:<user> *)
  cs_audits : T CollusionAudit;
  cs_evidence : list (string * list string * Features) }. (* ingest, flag and collusion:flags *)

Abbreviation CM := (M CollusionStore).

Definition set_sets (s : S) (c : CollusionStore) : CollusionStore :=
  {| cs_sets := s; cs_times := cs_times c; cs_audits := cs_audits c; cs_evidence := cs_evidence c |}.
Definition set_times (f : string → L) (c : CollusionStore) : CollusionStore :=
  {| cs_sets := cs_sets c; cs_times := f; cs_audits := cs_audits c; cs_evidence := cs_evidence c |}.
Definition set_audits (t : T CollusionAudit) (c : CollusionStore) : CollusionStore :=
  {| cs_sets := cs_sets c; cs_times := cs_times c; cs_audits := t; cs_evidence := cs_evidence c |}.
Definition add_evidence (x : string * list string * Features) (c : CollusionStore) : CollusionStore :=
  {| cs_sets := cs_sets c; cs_times := cs_times c; cs_audits := cs_audits c;
     cs_evidence := cs_evidence c ++ [x] |}.

Definition sadd (key member : string) : CM unit :=
  modify (λ c, set_sets (s_add key member (cs_sets c)) c).

Definition record (userId deviceId ip : string) (timestamp : Z) : CM unit :=
  sadd ("collusion:device:" +:+ deviceId) userId ;;
  sadd ("collusion:ip:" +:+ ip) userId ;;
  sadd ("collusion:user:devices:" +:+ userId) deviceId ;;
  sadd ("collusion:user:ips:" +:+ userId) ip ;;
  modify (λ c, set_times (λ u, if decide (u = userId) then l_push timestamp (cs_times c u) else cs_times c u) c).

Definition smembers (key : string) : CM (list string) := gets (λ c, s_members key (cs_sets c)).
Definition getDeviceCluster (deviceId : string) : CM (list string) := smembers ("collusion:device:" +:+ deviceId).
Definition getIpCluster (ip : string) : CM (list string) := smembers ("collusion:ip:" +:+ ip).

Fixpoint fast (thresholdMs : Z) (times : list Z) : bool :=
  match times with
  | t :: (t' :: _) as rest => (t' - t <? thresholdMs) || fast thresholdMs rest
  | _ => false
  end.
Definition hasFastActions (userId : string) (thresholdMs : Z) : CM bool :=
  gets (λ c, fast thresholdMs (l_range (cs_times c userId))).

Definition shared (keyA keyB : string) : CM (list string) :=
  a ← smembers keyA; b ← smembers keyB; mret (filter (λ v, v ∈ b) a).

Definition extractFeatures (userA userB : string) (vpipA vpipB seatsA seatsB : list Z) : CM Features :=
  sharedDevices ← shared ("collusion:user:devices:" +:+ userA) ("collusion:user:devices:" +:+ userB);
  sharedIps ← shared ("collusion:user:ips:" +:+ userA) ("collusion:user:ips:" +:+ userB);
  timesA ← gets (λ c, l_range (cs_times c userA));
  timesB ← gets (λ c, l_range (cs_times c userB));
  sizes ← gets (λ c, (λ ip, Z.of_nat (length (s_members ("collusion:ip:" +:+ ip) (cs_sets c)))) <$> sharedIps);
  mret {| ft_sharedDevices := sharedDevices; ft_sharedIps := sharedIps;
          ft_ipClusterScore := foldr Z.max 0 sizes;
          ft_vpipCorrelation := calculateVpipCorrelation vpipA vpipB;
          ft_timingSimilarity := calculateTimingSimilarity timesA timesB;
          ft_betCorrelation := timeCorrelatedBetting timesA timesB 1000;
          ft_seatProximity := calculateSeatProximity seatsA seatsB;
          ft_chipDumpScore := 0%Q; ft_ipClusters := [] |}.

Definition with_score (score : Q) (f : Features) : Features :=
  {| ft_sharedDevices := ft_sharedDevices f; ft_sharedIps := ft_sharedIps f;
     ft_ipClusterScore := ft_ipClusterScore f; ft_vpipCorrelation := ft_vpipCorrelation f;
     ft_timingSimilarity := ft_timingSimilarity f; ft_betCorrelation := ft_betCorrelation f;
     ft_seatProximity := ft_seatProximity f; ft_chipDumpScore := score; ft_ipClusters := ft_ipClusters f |}.
Definition with_clusters (l : list (string * list string)) (f : Features) : Features :=
  {| ft_sharedDevices := ft_sharedDevices f; ft_sharedIps := ft_sharedIps f;
     ft_ipClusterScore := ft_ipClusterScore f; ft_vpipCorrelation := ft_vpipCorrelation f;
     ft_timingSimilarity := ft_timingSimilarity f; ft_betCorrelation := ft_betCorrelation f;
     ft_seatProximity := ft_seatProximity f; ft_chipDumpScore := ft_chipDumpScore f; ft_ipClusters := l |}.

(** [flagSession]; the session is the key of the table. *)
Definition flagSession (sessionId : string) (users : list string) (features : Features) : CM unit :=
  ips ← gets (λ c, (λ u, (u, s_members ("collusion:user:ips:" +:+ u) (cs_sets c))) <$> users);
  let enriched := with_clusters (clusterBySharedValues ips) features in
  modify (λ c, set_audits (save_row {| au_sessionId := sessionId; au_users := users;
    au_status := Flagged; au_features := enriched; au_history := [] |} (cs_audits c)) c) ;;
  modify (add_evidence (sessionId, users, enriched)).

Definition listFlaggedSessions (page pageSize : nat) (status : option AuditStatus)
    : CM (list (string * list string * AuditStatus)) :=
  gets (λ c, (λ a, (au_sessionId a, au_users a, au_status a)) <$>
    take pageSize (drop ((page - 1) * pageSize)
      (find_rows (λ a, match status with Some s => bool_decide (au_status a = s) | None => true end) (cs_audits c)))).

Definition audit_of (sessionId : string) : CM (option CollusionAudit) :=
  gets (λ c, find_row (λ a, bool_decide (au_sessionId a = sessionId)) (cs_audits c)).

(** [applyAction] *)
Definition reviewed (action : AuditStatus) (entry : CollusionHistoryEntry) (a : CollusionAudit) : CollusionAudit :=
  {| au_sessionId := au_sessionId a; au_users := au_users a; au_status := action;
     au_features := au_features a; au_history := au_history a ++ [entry] |}.
Definition applyReview (sessionId : string) (action : AuditStatus) (reviewerId : string) (now : Z)
    : CM CollusionHistoryEntry :=
  audit ← audit_of sessionId;
  match audit with
  | None => throw "Session not found"
  | Some a =>
      throw_if (negb (bool_decide (indexOf action = indexOf (au_status a) + 1)%nat)) "Invalid review action" ;;
      let entry := {| he_action := action; he_timestamp := now; he_reviewerId := reviewerId |} in
      modify (λ c, set_audits (save_row (reviewed action entry a) (cs_audits c)) c) ;;
      mret entry
  end.
Definition getActionHistory (sessionId : string) : CM (list CollusionHistoryEntry) :=
  audit ← audit_of sessionId; mret (from_option au_history [] audit).

(** ** collusion.ts: the detection job *)

Record CollusionGameEvent := {
  ce_sessionId : string; ce_userId : string; ce_vpip : Z; ce_seat : Z; ce_timestamp : Z;
  ce_transfer : option Transfer }.

Record Thresholds := {
  th_sharedDevices : nat; th_sharedIps : nat; th_vpipCorrelation : Q; th_timingSimilarity : Q;
  th_seatProximity : Q; th_chipDumpScore : Q }.
Definition default_thresholds : Thresholds :=
  {| th_sharedDevices := 0; th_sharedIps := 0; th_vpipCorrelation := 9 # 10; th_timingSimilarity := 9 # 10;
     th_seatProximity := 9 # 10; th_chipDumpScore := 8 # 10 |}.

Definition above (x t : Q) : bool := negb (Qle_bool x t).
Definition flagged (th : Thresholds) (f : Features) (dumpScore : Q) : bool :=
  bool_decide (th_sharedDevices th < length (ft_sharedDevices f))%nat
  || bool_decide (th_sharedIps th < length (ft_sharedIps f))%nat
  || correlation_above (th_vpipCorrelation th) (ft_vpipCorrelation f)
  || above (ft_timingSimilarity f) (th_timingSimilarity th)
  || above (ft_seatProximity f) (th_seatProximity th)
  || above dumpScore (th_chipDumpScore th).

Definition of_user (u : string) (evts : list CollusionGameEvent) : list CollusionGameEvent :=
  filter (λ e, ce_userId e = u) evts.
Definition between (a b : string) (t : Transfer) : bool :=
  bool_decide ((tr_from t = a ∧ tr_to t = b) ∨ (tr_from t = b ∧ tr_to t = a)).

(** One pair of one session. *)
Definition check_pair (th : Thresholds) (sessionId : string) (evts : list CollusionGameEvent)
    (pair : string * string) : CM unit :=
  let '(a, b) := pair in
  features ← extractFeatures a b (ce_vpip <$> of_user a evts) (ce_vpip <$> of_user b evts)
               (ce_seat <$> of_user a evts) (ce_seat <$> of_user b evts);
  let dumpScore := detectChipDump (filter (λ t, between a b t) (omap ce_transfer evts)) in
  when (flagged th features dumpScore)
    (flagSession sessionId [a; b] (with_score dumpScore features)).

(** All pairs [i < j]. *)
Fixpoint pairs {A} (l : list A) : list (A * A) :=
  match l with [] => [] | x :: l' => ((λ y, (x, y)) <$> l') ++ pairs l' end.

Definition detection_run (th : Thresholds) (events : list CollusionGameEvent) : CM unit :=
  for_each (group_by ce_sessionId (λ e, e) events) (λ g,
    for_each (pairs (to_set (ce_userId <$> g.2))) (λ pair, check_pair th g.1 g.2 pair)).

(** ** Reviews go one step at a time *)

Definition steps : list AuditStatus := [Warn; Restrict; Ban].

(** An audit's status tells how many steps its history has. *)
Definition audit_ok (a : CollusionAudit) : Prop :=
  he_action <$> au_history a = take (indexOf (au_status a)) steps.
Definition audits_ok (c : CollusionStore) : Prop := ∀ a, a ∈ rows (cs_audits c) → audit_ok a.

Lemma audit_ok_review action entry a :
  audit_ok a → he_action entry = action → indexOf action = (indexOf (au_status a) + 1)%nat →
  audit_ok (reviewed action entry a).
Proof.
  unfold audit_ok. simpl. intros Ha He Hi. rewrite fmap_app, Ha. simpl. rewrite He.
  by destruct action, (au_status a).
Qed.

Context `{!TableLaws T}.

Lemma audits_ok_save a c : audits_ok c → audit_ok a → audits_ok (set_audits (save_row a (cs_audits c)) c).
Proof.
  intros Hc Ha x. simpl. rewrite rows_save. intros [->|[_ Hx]%list_elem_of_filter]%elem_of_cons; [done | by apply Hc].
Qed.

Lemma record_audits u d ip t : preserves audits_ok (record u d ip t).
Proof. unfold record, sadd. preserve; by apply preserves_modify. Qed.

Lemma flag_audits s us f : preserves audits_ok (flagSession s us f).
Proof.
  unfold flagSession. preserve; apply preserves_modify; [|done]. intros c Hc. by apply audits_ok_save.
Qed.

Lemma applyReview_cases s action r now c :
  match find_row (λ a, bool_decide (au_sessionId a = s)) (cs_audits c) with
  | None => applyReview s action r now c = (Throw "Session not found", c)
  | Some a =>
      if decide (indexOf action = indexOf (au_status a) + 1)%nat
      then let entry := {| he_action := action; he_timestamp := now; he_reviewerId := r |} in
           applyReview s action r now c
           = (Ret entry, set_audits (save_row (reviewed action entry a) (cs_audits c)) c)
      else applyReview s action r now c = (Throw "Invalid review action", c)
  end.
Proof.
  unfold applyReview, audit_of, mbind, M_bind, gets.
  destruct (find_row _ (cs_audits c)) as [a|]; [|done].
  case_decide as Hd; [rewrite bool_decide_eq_true_2 by done | rewrite bool_decide_eq_false_2 by done]; done.
Qed.

Lemma review_audits s action r now : preserves audits_ok (applyReview s action r now).
Proof.
  intros c Hc. pose proof (applyReview_cases s action r now c) as H.
  destruct (find_row _ (cs_audits c)) as [a|] eqn:E; [|by rewrite H].
  case_decide; rewrite H; [|done]. apply find_row_Some in E as [Ha _].
  apply audits_ok_save; [done|]. apply audit_ok_review; [by apply Hc | done | done].
Qed.

Lemma extract_audits a b va vb sa sb : preserves audits_ok (extractFeatures a b va vb sa sb).
Proof. unfold extractFeatures, shared, smembers. preserve. Qed.

Lemma detection_audits th events : preserves audits_ok (detection_run th events).
Proof.
  unfold detection_run. preserve. unfold check_pair. preserve; [apply extract_audits | apply flag_audits].
Qed.

(** What the platform does to the audits. *)
Inductive CollusionOp :=
| DoRecord (userId deviceId ip : string) (timestamp : Z)
| DoFlag (sessionId : string) (users : list string) (features : Features)
| DoReview (sessionId : string) (action : AuditStatus) (reviewerId : string) (now : Z)
| DoDetect (th : Thresholds) (events : list CollusionGameEvent).

Definition do_op (op : CollusionOp) : CM unit :=
  match op with
  | DoRecord u d ip t => record u d ip t
  | DoFlag s us f => flagSession s us f
  | DoReview s action r now => _ ← applyReview s action r now; mret tt
  | DoDetect th evts => detection_run th evts
  end.
(** One call after another; a call that throws ends alone. *)
Definition do_ops (ops : list CollusionOp) (c : CollusionStore) : CollusionStore :=
  foldl (λ c op, (do_op op c).2) c ops.

Lemma do_op_audits op : preserves audits_ok (do_op op).
Proof.
  destruct op; cbn [do_op]; [apply record_audits | apply flag_audits | | apply detection_audits].
  preserve. apply review_audits.
Qed.

(** Reviews of flagged sessions go one step at a time. Start with no audits and make any calls
    (recording, flagging, detection runs, reviews, those that throw included): the history of every
    audit is an initial part of warn, restrict, ban, the status is its last action ([flagged] when it
    is empty), so nobody is banned without a warning and a restriction. *)
Lemma reviews_one_step_at_a_time ops c a :
  rows (cs_audits c) = [] → a ∈ rows (cs_audits (do_ops ops c)) →
  (he_action <$> au_history a) `prefix_of` [Warn; Restrict; Ban]
  ∧ au_status a = default Flagged (last (he_action <$> au_history a)).
Proof.
  intros H0 Ha. assert (audit_ok a) as Hok.
  { revert a Ha. apply (foldl_invariant audits_ok); [by intros ??? ?; apply do_op_audits|].
    intros a. rewrite H0. by intros ?%elem_of_nil. }
  unfold audit_ok in Hok. rewrite Hok. split; [|by destruct (au_status a)].
  exists (drop (indexOf (au_status a)) steps). symmetry. apply take_drop.
Qed.

(** Flagging a session starts its audit afresh. The table has one audit per session, keyed by it,
    so a second flag of the session (another pair of its players, or the same pair ten minutes later)
    replaces the first: the audit read afterwards names the new pair only, its status is [flagged] and
    its history is empty, whatever was decided before, a ban included. Other sessions are untouched. *)
Lemma flag_forgets_reviews s us f c :
  unique_ids (cs_audits c) →
  let c' := (flagSession s us f c).2 in
  unique_ids (cs_audits c')
  ∧ (∃ a, audit_of s c' = (Ret (Some a), c') ∧ au_users a = us ∧ au_status a = Flagged ∧ au_history a = [])
  ∧ ∀ b, au_sessionId b ≠ s → b ∈ rows (cs_audits c') ↔ b ∈ rows (cs_audits c).
Proof.
  intros Hu c'.
  assert (∃ ft, cs_audits c' = save_row (Build_CollusionAudit s us Flagged ft []) (cs_audits c)) as [ft Hc].
  { subst c'. cbn. eexists. reflexivity. }
  set (a := Build_CollusionAudit s us Flagged ft []) in *. rewrite Hc. split_and!.
  - by apply (unique_ids_save a).
  - exists a. split; [|done]. unfold audit_of, gets. rewrite Hc. do 2 f_equal.
    etrans; [apply (find_save (cs_audits c) s a Hu) | by rewrite decide_True].
  - intros b Hb. rewrite rows_save. rewrite elem_of_cons, list_elem_of_filter. cbn [row_id audit_entity au_sessionId a].
    split; [by intros [->|[_ ?]] | by right].
Qed.
End Service.

(** ** What the detectors report *)

Lemma two_distinct {A} (l : list A) x y : x ∈ l → y ∈ l → x ≠ y → (1 < length l)%nat.
Proof.
  destruct l as [|u [|v l]]; [by intros ?%elem_of_nil | |simpl; lia].
  by intros ->%list_elem_of_singleton ->%list_elem_of_singleton.
Qed.

Lemma two_of_set {A} (l : list A) : NoDup l → (1 < length l)%nat → ∃ x y, x ∈ l ∧ y ∈ l ∧ x ≠ y.
Proof.
  destruct l as [|u [|v l]]; simpl; [lia | lia|]. intros [Hu _]%NoDup_cons _.
  exists u, v. split_and!; [by left | right; by left|]. intros ->. apply Hu. by left.
Qed.

(** [detectSharedIP] reports an
    address with players [ps] when [ps] lists, once each, at least two players who used it, and misses
    no address two different players used. *)
Lemma shared_ips_exactly sessions ip :
  (∀ ps, (ip, ps) ∈ detectSharedIP sessions →
     NoDup ps ∧ (1 < length ps)%nat
     ∧ ∀ p, p ∈ ps ↔ ∃ s, s ∈ sessions ∧ ss_ip s = ip ∧ ss_playerId s = p)
  ∧ ((∃ ps, (ip, ps) ∈ detectSharedIP sessions) ↔
     ∃ s s', s ∈ sessions ∧ s' ∈ sessions ∧ ss_ip s = ip ∧ ss_ip s' = ip ∧ ss_playerId s ≠ ss_playerId s').
Proof.
  assert (∀ ps, (ip, ps) ∈ detectSharedIP sessions ↔
    (1 < length ps)%nat ∧ ip ∈ ss_ip <$> sessions
    ∧ ps = to_set (ss_playerId <$> filter (λ s, ss_ip s = ip) sessions)) as H.
  { intros ps. unfold detectSharedIP. rewrite list_elem_of_filter, list_elem_of_fmap. simpl. split.
    - intros [Hl ([k vs] & [= -> ->] & [Hk ->]%elem_of_group_by)]. done.
    - intros (Hl & Hk & ->). split; [done|]. eexists (ip, _). split; [done|]. by apply elem_of_group_by. }
  set (ps := to_set (ss_playerId <$> filter (λ s, ss_ip s = ip) sessions)) in *.
  destruct (to_set_spec (ss_playerId <$> filter (λ s, ss_ip s = ip) sessions)) as [Hn He]. fold ps in Hn, He.
  assert (∀ p, p ∈ ps ↔ ∃ s, s ∈ sessions ∧ ss_ip s = ip ∧ ss_playerId s = p) as Hps.
  { intros p. rewrite He, list_elem_of_fmap. setoid_rewrite list_elem_of_filter. naive_solver. }
  split.
  - intros ps' (Hl & _ & ->)%H. done.
  - split.
    + intros (? & (Hl & _ & ->)%H). apply two_of_set in Hl as (x & y & Hx & Hy & Hne); [|done].
      apply Hps in Hx as (s & ? & ? & <-), Hy as (s' & ? & ? & <-). by exists s, s'.
    + intros (s & s' & Hs & Hs' & <- & Hip & Hne). exists ps. apply H. split_and!; [|by apply list_elem_of_fmap_2|done].
      apply (two_distinct _ (ss_playerId s) (ss_playerId s')); [|  |done]; apply Hps; eauto.
Qed.

(** The chip-dump score of any transfers lies between 0 and 1/2, because every transfer takes from
    one balance what it gives to another: the largest balance is at most half of the sum of the
    absolute values. The default threshold is 0.8, so with it the score alone never flags a pair, not
    even when one player gave another everything. *)
Lemma chip_dump_score_at_most_half ts :
  (0 <= detectChipDump ts <= 1 # 2)%Q
  ∧ above (detectChipDump ts) (th_chipDumpScore default_thresholds) = false.
Proof.
  assert (0 <= detectChipDump ts <= 1 # 2)%Q as H.
  { pose proof (chip_dump_parts ts) as Hp. unfold detectChipDump. cbv zeta in *.
    set (l := Z.abs <$> (chip_balances ts).*2) in *. set (m := foldr Z.max 0 l) in *.
    destruct (Z.eqb_spec (sumZ l) 0) as [E|E]; [by split|].
    assert (0 < sumZ l) as Hs by lia. split.
    - apply Qle_shift_div_l; [by apply Qpos_inject|]. unfold Qle. simpl. lia.
    - apply Qle_shift_div_r; [by apply Qpos_inject|]. unfold Qle. simpl. lia. }
  split; [done|]. unfold above. apply negb_false_iff, Qle_bool_iff.
  apply (Qle_trans _ (1 # 2)); [apply H | done].
Qed.

(** One player gave another everything. *)
Example full_dump : detectChipDump [{| tr_from := "a"; tr_to := "b"; tr_amount := 1000 |}] = (1000 # 2000)%Q.
Proof. reflexivity. Qed.

(** ** Concrete runs *)

Definition c0 : CollusionStore (T := list) (S := gmap string (gset string)) (L := list Z) :=
  {| cs_sets := ∅; cs_times _ := []; cs_audits := []; cs_evidence := [] |}.
Definition f0 : Features :=
  {| ft_sharedDevices := ["d"]; ft_sharedIps := []; ft_ipClusterScore := 0;
     ft_vpipCorrelation := {| co_num := 0; co_a := 0; co_b := 0 |}; ft_timingSimilarity := 0;
     ft_betCorrelation := 0; ft_seatProximity := 0; ft_chipDumpScore := 0; ft_ipClusters := [] |}.
Definition ops0 : list CollusionOp :=
  [DoRecord "a" "d" "1.1.1.1" 5; DoRecord "b" "d" "1.1.1.2" 6; DoFlag "s" ["a"; "b"] f0;
   DoReview "s" Ban "r" 7; DoReview "s" Warn "r" 8; DoReview "s" Restrict "r" 9].

(** The ban is refused, the warning and the restriction are kept. *)
Lemma reviews_one_step_witness :
  let a := {| au_sessionId := "s"; au_users := ["a"; "b"]; au_status := Restrict;
              au_features := f0;
              au_history := [{| he_action := Warn; he_timestamp := 8; he_reviewerId := "r" |};
                             {| he_action := Restrict; he_timestamp := 9; he_reviewerId := "r" |}] |} in
  [Warn; Restrict] `prefix_of` [Warn; Restrict; Ban] ∧ au_status a = Restrict.
Proof.
  intros a. apply (reviews_one_step_at_a_time ops0 c0 a); [reflexivity|].
  apply list_elem_of_singleton. vm_compute. reflexivity.
Defined.

(** Two pairs of one session: the second audit replaces the banned one. *)
Definition banned : CollusionStore :=
  do_ops [DoFlag "s" ["a"; "b"] f0; DoReview "s" Warn "r" 8; DoReview "s" Restrict "r" 9; DoReview "s" Ban "r" 9] c0.
Lemma flag_forgets_reviews_witness :
  (au_status <$> cs_audits banned) = [Ban]
  ∧ ∃ a, audit_of "s" (flagSession "s" ["a"; "c"] f0 banned).2 = (Ret (Some a), (flagSession "s" ["a"; "c"] f0 banned).2)
         ∧ au_users a = ["a"; "c"] ∧ au_status a = Flagged ∧ au_history a = [].
Proof.
  split; [vm_compute; reflexivity|].
  apply (flag_forgets_reviews "s" ["a"; "c"] f0 banned).
  apply NoDup_singleton.
Defined.

(** The job flags a pair that shares a device, then a pair with one event each on one seat, and keeps
    the second. *)
Definition ev u : CollusionGameEvent :=
  {| ce_sessionId := "s"; ce_userId := u; ce_vpip := 1; ce_seat := 1; ce_timestamp := 7; ce_transfer := None |}.
Example detection_flags_pairs :
  let c := do_ops [DoRecord "a" "d" "1.1.1.1" 5; DoRecord "b" "d" "1.1.1.2" 6;
                   DoDetect default_thresholds (ev <$> ["a"; "b"; "a"; "c"])] c0 in
  (λ a, (au_sessionId a, au_users a)) <$> cs_audits c = [("s", ["b"; "c"])].
Proof. vm_compute. reflexivity. Qed.
