(* ===== verification/Rating.v ===== *)
(** * Player ratings

    backend/src/leaderboard/rating.ts on binary64 doubles: one Glicko-2 update.
    [Math.exp] and [Math.log] are parameters, as ECMAScript leaves their last
    digits to the implementation. The search for the new volatility is a loop with
    no bound, so it carries fuel, and [None] is a call that has not returned. *)

From S2P Require Import Prelude JsNum.
#[local] Open Scope Z_scope.

(** A decimal literal [n / d] of the source. *)
Definition dec (n d : Z) : double := dbl_div (dbl_of_Z n) (dbl_of_Z d).
Definition sqrt64 : double → double := SFsqrt 53 1024.
Definition SCALE : double := dec 1737178 10000.
Definition TAU : double := dec 5 10.
Definition PI : double := S754_finite false 7074237752028440 (-51).
Definition one : double := dbl_of_Z 1.
Definition square (x : double) : double := dbl_mul x x.

Record Match := { m_rating : double; m_rd : double; m_score : double }.
Record RatingState := { r_rating : double; r_rd : double; r_volatility : double }.

Section Rating.
Context (exp log : double → double).

Definition q : double := dbl_div (log (dbl_of_Z 10)) (dbl_of_Z 400).

(** [1 / Math.sqrt(1 + (3 * q * q * phi_j * phi_j) / Math.PI ** 2)] *)
Definition glicko_g (q phi_j : double) : double :=
  dbl_div one (sqrt64 (dbl_add one
    (dbl_div (dbl_mul (dbl_mul (dbl_mul (dbl_mul (dbl_of_Z 3) q) q) phi_j) phi_j) (square PI)))).
(** [1 / (1 + Math.exp(-g(phi_j) * (mu_i - mu_j)))] *)
Definition E_exponent (q mu_i mu_j phi_j : double) : double :=
  dbl_mul (SFopp (glicko_g q phi_j)) (dbl_sub mu_i mu_j).
Definition glicko_E (mu_i mu_j phi_j : double) : double :=
  dbl_div one (dbl_add one (exp (E_exponent q mu_i mu_j phi_j))).

(** One match added to [vDen] and [deltaSum]. *)
Definition match_terms (q e : double) (m : Match) (acc : double * double) : double * double :=
  let gPhi := glicko_g q (dbl_div (m_rd m) SCALE) in
  (dbl_add acc.1 (dbl_mul (dbl_mul (dbl_mul gPhi gPhi) e) (dbl_sub one e)),
   dbl_add acc.2 (dbl_mul gPhi (dbl_sub (m_score m) e))).
Definition sums (mu : double) (matches : list Match) : double * double :=
  foldl (λ acc m, match_terms q (glicko_E mu (dbl_div (m_rating m) SCALE) (dbl_div (m_rd m) SCALE)) m acc)
    (S754_zero false, S754_zero false) matches.

(** The function whose zero is sought; [ex] is [Math.exp(x)]. *)
Definition f_at (delta phi v a ex x : double) : double :=
  let s := dbl_add (dbl_add (square phi) v) ex in
  dbl_sub
    (dbl_div (dbl_mul ex (dbl_sub (dbl_sub (dbl_sub (square delta) (square phi)) v) ex))
             (dbl_mul (dbl_mul (dbl_of_Z 2) s) s))
    (dbl_div (dbl_sub x a) (square TAU)).

(** The loop's variables, its guard and its body. *)
Record search := { sA : double; sB : double; sfA : double; sfB : double }.
Definition searching (s : search) : bool := dbl_ltb (dec 1 1000000) (SFabs (dbl_sub (sB s) (sA s))).
Definition nextC (s : search) : double :=
  dbl_add (sA s) (dbl_div (dbl_mul (dbl_sub (sA s) (sB s)) (sfA s)) (dbl_sub (sfB s) (sfA s))).
Definition shifted (s : search) (C fC : double) : search :=
  if dbl_ltb (dbl_mul fC (sfB s)) (S754_zero false)
  then {| sA := sB s; sB := C; sfA := sfB s; sfB := fC |}
  else {| sA := sA s; sB := C; sfA := sfA s; sfB := fC |}.
Definition search_step (f : double → double) (s : search) : search := shifted s (nextC s) (f (nextC s)).
Fixpoint search_loop (fuel : nat) (f : double → double) (s : search) : option double :=
  if searching s then match fuel with O => None | S n => search_loop n f (search_step f s) end
  else Some (sA s).

Definition f_of (delta phi v a x : double) : double := f_at delta phi v a (exp x) x.
Definition search_from (delta phi v a : double) : search :=
  let B := if dbl_ltb (dbl_add (square phi) v) (square delta)
           then log (dbl_sub (dbl_sub (square delta) (square phi)) v) else dbl_sub a one in
  {| sA := a; sB := B; sfA := f_of delta phi v a a; sfB := f_of delta phi v a B |}.

Definition phi_of (state : RatingState) (ageDays : double) : double :=
  let phi := dbl_div (r_rd state) SCALE in
  let sigma := r_volatility state in
  sqrt64 (dbl_add (square phi) (dbl_mul (square sigma) ageDays)).

(** The new state from the zero found. *)
Definition rated (mu phi v deltaSum sigmaPrime : double) : RatingState :=
  let phiStar := sqrt64 (dbl_add (square phi) (square sigmaPrime)) in
  let phiPrime := dbl_div one (sqrt64 (dbl_add (dbl_div one (square phiStar)) (dbl_div one v))) in
  let muPrime := dbl_add mu (dbl_mul (square phiPrime) deltaSum) in
  {| r_rating := dbl_mul muPrime SCALE; r_rd := dbl_mul phiPrime SCALE; r_volatility := sigmaPrime |}.

Definition updateRating (fuel : nat) (state : RatingState) (matches : list Match) (ageDays : double)
    : option RatingState :=
  let phi := phi_of state ageDays in
  let sigma := r_volatility state in
  let mu := dbl_div (r_rating state) SCALE in
  match matches with
  | [] => Some {| r_rating := dbl_mul mu SCALE; r_rd := dbl_mul phi SCALE; r_volatility := sigma |}
  | _ =>
      let '(vDen, deltaSum) := sums mu matches in
      let v := dbl_div one vDen in
      let delta := dbl_mul v deltaSum in
      let a := log (square sigma) in
      A ← search_loop fuel (f_of delta phi v a) (search_from delta phi v a);
      Some (rated mu phi v deltaSum (exp (dbl_div A (dbl_of_Z 2))))
  end.
End Rating.

(** ** The search *)

(** More fuel never changes an answer. *)
Lemma search_loop_mono n n' f s A : (n <= n')%nat → search_loop n f s = Some A → search_loop n' f s = Some A.
Proof.
  revert n' s. induction n as [|n IH]; intros [|n'] s Hn; simpl; destruct (searching s); try done; [lia|].
  apply IH. lia.
Qed.

(** A state the body leaves as it was is never left. *)
Lemma search_stuck n f s : searching s = true → search_step f s = s → search_loop n f s = None.
Proof. intros Hs Hf. induction n as [|n IH]; simpl; rewrite Hs; [done|]. by rewrite Hf. Qed.

Lemma search_unfold n f s : searching s = true → search_loop n f (search_step f s) = None → search_loop n f s = None.
Proof.
  intros Hs H. destruct n as [|n]; simpl; rewrite Hs; [done|].
  destruct (search_loop n f (search_step f s)) as [A|] eqn:E; [|done].
  apply (search_loop_mono n (S n)) in E; [congruence | lia].
Qed.

(** ** A first decisive result *)

(** The values of the logarithm and the exponential, correctly rounded, at the points that the rating
    of a new player visits; V8's library and glibc return these. *)
Definition log_points : list (double * double) :=
  [ (S754_finite false 5629499534213120 (-49), S754_finite false 5184960683398422 (-51));
    (S754_finite false 8301034833169298 (-61), S754_finite true 6335237727820330 (-50)) ].
Definition exp_points : list (double * double) :=
  [ (S754_zero true, S754_finite false 4503599627370496 (-52));
    (S754_finite true 6335237727820330 (-50), S754_finite false 8301034833169298 (-61));
    (S754_finite true 7461137634662954 (-50), S754_finite false 6107560111141996 (-62));
    (S754_finite true 6335269389982840 (-50), S754_finite false 8300801397659855 (-61));
    (S754_finite true 6335269389655304 (-50), S754_finite false 8300801400074645 (-61)) ].
Definition agrees (f : double → double) (points : list (double * double)) : Prop :=
  Forall (λ p, f p.1 = p.2) points.

(** A player without history, and the one opponent [updateScoreEntry] knows. *)
Definition unrated : RatingState :=
  {| r_rating := dbl_of_Z 0; r_rd := dbl_of_Z 350; r_volatility := dec 6 100 |}.
Definition opponent (score : double) : Match :=
  {| m_rating := dbl_of_Z 0; m_rd := dbl_of_Z 350; m_score := score |}.

(** What the first game of a new player computes, with those values put in. *)
Definition q0 : double := dbl_div (S754_finite false 5184960683398422 (-51)) (dbl_of_Z 400).
Definition phi0 : double := phi_of unrated (S754_zero false).
Definition half : double := dbl_div one (dbl_add one one).
Definition sums0 (score : double) : double * double :=
  match_terms q0 half (opponent score) (S754_zero false, S754_zero false).
Definition v0 (score : double) : double := dbl_div one (sums0 score).1.
Definition delta0 (score : double) : double := dbl_mul (v0 score) (sums0 score).2.
Definition a0 : double := S754_finite true 6335237727820330 (-50).

Section Decisive.
Context (exp log : double → double) (Hexp : agrees exp exp_points) (Hlog : agrees log log_points).

Lemma sums_new score : sums exp log (dbl_div (r_rating unrated) SCALE) [opponent score] = sums0 score.
Proof using Hexp Hlog.
  pose proof (Forall_inv Hexp) as He. pose proof (Forall_inv Hlog) as Hl. cbn [fst snd] in He, Hl.
  unfold sums. cbn [foldl]. unfold glicko_E, q.
  assert (dbl_of_Z 10 = S754_finite false 5629499534213120 (-49)) as -> by (vm_compute; reflexivity).
  rewrite Hl.
  match goal with |- context [exp ?x] =>
    assert (x = S754_zero true) as -> by (vm_compute; reflexivity) end.
  rewrite He. reflexivity.
Qed.

Lemma exp_values :
  exp a0 = S754_finite false 8301034833169298 (-61)
  ∧ exp (S754_finite true 7461137634662954 (-50)) = S754_finite false 6107560111141996 (-62)
  ∧ exp (S754_finite true 6335269389982840 (-50)) = S754_finite false 8300801397659855 (-61)
  ∧ exp (S754_finite true 6335269389655304 (-50)) = S754_finite false 8300801400074645 (-61).
Proof using Hexp.
  unfold agrees, exp_points in Hexp. rewrite !Forall_cons in Hexp. cbn [fst snd] in Hexp.
  destruct Hexp as (_ & H1 & H2 & H3 & H4 & _). by split_and!.
Qed.

(** The search starts here, takes two steps, and then stands still 2.8e-5 away from its end. *)
Definition search_start : search :=
  {| sA := a0; sB := S754_finite true 7461137634662954 (-50);
     sfA := S754_finite true 8300193475214793 (-66); sfB := S754_finite false 9007106069816637 (-51) |}.
Definition still : search :=
  {| sA := a0; sB := S754_finite true 6335269389655304 (-50);
     sfA := S754_finite true 8300193475214793 (-66); sfB := S754_finite false 4954674272665600 (-103) |}.

Lemma start_new score : score = S754_zero false ∨ score = one →
  search_from exp log (delta0 score) phi0 (v0 score) a0 = search_start.
Proof using Hexp.
  intros Hs. destruct exp_values as (H1 & H2 & _ & _). unfold search_from, f_of.
  assert (dbl_ltb (dbl_add (square phi0) (v0 score)) (square (delta0 score)) = false
          ∧ dbl_sub a0 one = S754_finite true 7461137634662954 (-50)) as [-> ->].
  { destruct Hs as [->| ->]; split; vm_compute; reflexivity. }
  rewrite H1, H2. destruct Hs as [->| ->]; vm_compute; reflexivity.
Qed.

Lemma step_at delta phi v a s C ex :
  nextC s = C → exp C = ex →
  search_step (f_of exp delta phi v a) s = shifted s C (f_at delta phi v a ex C).
Proof. intros <- <-. reflexivity. Qed.

Lemma two_steps score : score = S754_zero false ∨ score = one →
  let f := f_of exp (delta0 score) phi0 (v0 score) a0 in
  searching (search_step f search_start) = true
  ∧ search_step f (search_step f search_start) = still ∧ search_step f still = still.
Proof using Hexp.
  intros Hs f. destruct exp_values as (_ & _ & H3 & H4).
  assert (nextC search_start = S754_finite true 6335269389982840 (-50)) as N1 by (vm_compute; reflexivity).
  assert (nextC still = S754_finite true 6335269389655304 (-50)) as N3 by (vm_compute; reflexivity).
  set (s1 := shifted search_start (S754_finite true 6335269389982840 (-50))
    (f_at (delta0 score) phi0 (v0 score) a0 (S754_finite false 8300801397659855 (-61))
       (S754_finite true 6335269389982840 (-50)))).
  assert (nextC s1 = S754_finite true 6335269389655304 (-50)) as N2.
  { subst s1. destruct Hs as [->| ->]; vm_compute; reflexivity. }
  subst f. rewrite (step_at _ _ _ _ _ _ _ N1 H3). fold s1.
  rewrite (step_at _ _ _ _ _ _ _ N2 H4), (step_at _ _ _ _ _ _ _ N3 H4). subst s1.
  destruct Hs as [->| ->]; split_and!; vm_compute; reflexivity.
Qed.
End Decisive.

(** The first game a new player wins or loses is never rated. The loop that seeks the volatility keeps
    the stale end of the interval as it is (the halving of the Illinois rule is missing), so it stops
    moving after two steps, with an interval still 28 times wider than its tolerance. *)
Lemma decisive_never_rated exp log fuel score :
  agrees exp exp_points → agrees log log_points → score = S754_zero false ∨ score = one →
  updateRating exp log fuel unrated [opponent score] (S754_zero false) = None.
Proof.
  intros Hexp Hlog Hs. unfold updateRating. rewrite sums_new by done.
  destruct (sums0 score) as [vDen deltaSum] eqn:E.
  assert (dbl_div one vDen = v0 score) as -> by (unfold v0; by rewrite E).
  assert (dbl_mul (v0 score) deltaSum = delta0 score) as -> by (unfold delta0; by rewrite E).
  assert (log (square (r_volatility unrated)) = a0) as ->.
  { pose proof (Forall_inv (Forall_inv_tail Hlog)) as H. cbn [fst snd] in H. etrans; [|exact H].
    done. }
  fold phi0. rewrite start_new by done.
  destruct (two_steps exp Hexp score Hs) as (H1 & H2 & H3).
  rewrite (search_unfold fuel _ search_start); [done | by vm_compute|].
  apply search_unfold; [done|]. rewrite H2. apply search_stuck; [by vm_compute | done].
Qed.

(** The tables as functions. *)
Definition at_point (x : double) (p : double * double) : bool :=
  match x, p.1 with
  | S754_finite s m e, S754_finite s' m' e' => bool_decide (s = s' ∧ m = m' ∧ e = e')
  | S754_zero s, S754_zero s' => bool_decide (s = s')
  | _, _ => false
  end.
Definition table (points : list (double * double)) (x : double) : double :=
  from_option snd S754_nan (find (at_point x) points).

Example first_win_never_rated :
  updateRating (table exp_points) (table log_points) 1000 unrated [opponent one] (S754_zero false) = None.
Proof. apply decisive_never_rated; [repeat constructor | repeat constructor | by right]. Qed.

(** A draw is rated after two steps, with three more points of the exponential. *)
Definition draw_points : list (double * double) :=
  exp_points ++
  [ (S754_finite true 6335300562406523 (-50), S754_finite false 8300571579259046 (-61));
    (S754_finite true 6335300561117808 (-50), S754_finite false 8300571588759954 (-61));
    (S754_finite true 6335300562406523 (-51), S754_finite false 8646670003106765 (-57)) ].
Example draw_rated :
  updateRating (table draw_points) (table log_points) 2 unrated [opponent (dec 5 10)] (S754_zero false)
  = Some {| r_rating := S754_zero false; r_rd := S754_finite false 8677609490165531 (-45);
            r_volatility := S754_finite false 8646670003106765 (-57) |}.
Proof. vm_compute. reflexivity. Qed.
