(* ===== verification/Leaderboard.v ===== *)
(** * The leaderboard

    backend/src/leaderboard/score-utils.ts and leaderboard.service.ts over
    [Rating]: the score of every player, the ranking that is stored and cached,
    the rebuild from events and the restart. The scores are a map in insertion
    order; [None] is a call that does not return, because a rating inside it does
    not. Metrics and the reading of event files are left out. *)

From S2P Require Import Prelude JsNum Store JsMap Rating.
#[local] Open Scope Z_scope.

(** ** score-utils.ts *)

Record ScoreEntry := {
  e_sessions : list string; e_rating : double; e_rd : double; e_volatility : double;
  e_net : Z; e_bb : double; e_hands : Z; e_duration : Z; e_buyIn : Z; e_finishes : gmap Z Z }.

Definition defaultScoreEntry : ScoreEntry :=
  {| e_sessions := []; e_rating := dbl_of_Z 0; e_rd := dbl_of_Z 350; e_volatility := dec 6 100;
     e_net := 0; e_bb := dbl_of_Z 0; e_hands := 0; e_duration := 0; e_buyIn := 0; e_finishes := ∅ |}.

Record ScoreDelta := {
  d_points : double; d_net : Z; d_bb : double; d_hands : Z; d_duration : Z; d_buyIn : Z;
  d_finish : option Z; d_ageDays : double }.

Record LeaderboardRow := {
  l_playerId : string; l_rank : Z; l_rating : double; l_rd : double; l_volatility : double;
  l_net : Z; l_bb : double; l_hands : Z; l_duration : Z; l_buyIn : Z; l_finishes : gmap Z Z }.

Definition toLeaderboardRow (playerId : string) (e : ScoreEntry) (rank : Z) : LeaderboardRow :=
  {| l_playerId := playerId; l_rank := rank; l_rating := e_rating e; l_rd := e_rd e;
     l_volatility := e_volatility e; l_net := e_net e; l_bb := e_bb e; l_hands := e_hands e;
     l_duration := e_duration e; l_buyIn := e_buyIn e; l_finishes := e_finishes e |}.

Record LeaderboardEntry := {
  t_playerId : string; t_rank : Z; t_points : double; t_rd : double; t_volatility : double;
  t_net : Z; t_bb100 : double; t_hours : double; t_roi : double; t_finishes : gmap Z Z }.

Definition toLeaderboardEntry (row : LeaderboardRow) : LeaderboardEntry :=
  {| t_playerId := l_playerId row; t_rank := l_rank row; t_points := l_rating row; t_rd := l_rd row;
     t_volatility := l_volatility row; t_net := l_net row;
     t_bb100 := if l_hands row =? 0 then dbl_of_Z 0
                else dbl_mul (dbl_div (l_bb row) (dbl_of_Z (l_hands row))) (dbl_of_Z 100);
     t_hours := dbl_div (dbl_of_Z (l_duration row)) (dbl_of_Z 3600000);
     t_roi := if l_buyIn row =? 0 then dbl_of_Z 0
              else dbl_div (dbl_of_Z (l_net row)) (dbl_of_Z (l_buyIn row));
     t_finishes := l_finishes row |}.

#[export] Instance leaderboard_entity : Entity LeaderboardRow := {
  row_id := l_playerId; row_clash _ _ := false }.

(** The events of [analytics:game.event] that match the schema. *)
Record GameEvent := {
  g_playerId : string; g_sessionId : option string; g_ts : option Z; g_points : option double;
  g_net : option Z; g_bb : option double; g_hands : option Z; g_duration : option Z;
  g_buyIn : option Z; g_finish : option Z }.

Definition DAY_MS : Z := 24 * 60 * 60 * 1000.

Section Scores.
Context (exp log : double → double).

(** The score of the new result against the one opponent the code knows. *)
Definition result_of (points : double) : double :=
  if dbl_ltb (S754_zero false) points then one
  else if dbl_ltb points (S754_zero false) then dbl_of_Z 0 else dec 5 10.

Definition with_delta (e : ScoreEntry) (d : ScoreDelta) (r : RatingState) : ScoreEntry :=
  {| e_sessions := e_sessions e; e_rating := r_rating r; e_rd := r_rd r; e_volatility := r_volatility r;
     e_net := e_net e + d_net d; e_bb := dbl_add (e_bb e) (d_bb d); e_hands := e_hands e + d_hands d;
     e_duration := e_duration e + d_duration d; e_buyIn := e_buyIn e + d_buyIn d;
     e_finishes := match d_finish d with
                   | Some f => <[f := default 0 (e_finishes e !! f) + 1]> (e_finishes e)
                   | None => e_finishes e
                   end |}.

Definition updateScoreEntry (fuel : nat) (e : ScoreEntry) (d : ScoreDelta) : option ScoreEntry :=
  r ← updateRating exp log fuel
        {| r_rating := e_rating e; r_rd := e_rd e; r_volatility := e_volatility e |}
        [{| m_rating := dbl_of_Z 0; m_rd := dbl_of_Z 350; m_score := result_of (d_points d) |}] (d_ageDays d);
  Some (with_delta e d r).

Abbreviation scores := (list (string * ScoreEntry)).

(** [forEach] of handleHandSettled *)
Definition settled_delta (delta : Z) : ScoreDelta :=
  {| d_points := dbl_of_Z delta; d_net := delta; d_bb := dbl_of_Z delta; d_hands := 1; d_duration := 0;
     d_buyIn := 0; d_finish := None; d_ageDays := dbl_of_Z 0 |}.
Definition settle_player (fuel : nat) (sc : scores) (p : string * Z) : option scores :=
  e ← updateScoreEntry fuel (default defaultScoreEntry (om_get p.1 sc)) (settled_delta p.2);
  Some (om_set p.1 e sc).
Definition settle_all (fuel : nat) (playerIds : list string) (deltas : list Z) (sc : scores) : option scores :=
  foldl (λ acc p, acc ≫= λ sc, settle_player fuel sc p) (Some sc)
    (zip playerIds (deltas ++ replicate (length playerIds) 0)).

(** One event of rebuildWithEvents; without a session it is skipped. *)
Definition has_session (ev : GameEvent) : bool :=
  match g_sessionId ev with Some s => negb (bool_decide (s = "")) | None => false end.
Definition add_session (s : string) (e : ScoreEntry) : ScoreEntry :=
  {| e_sessions := set_add s (e_sessions e); e_rating := e_rating e; e_rd := e_rd e;
     e_volatility := e_volatility e; e_net := e_net e; e_bb := e_bb e; e_hands := e_hands e;
     e_duration := e_duration e; e_buyIn := e_buyIn e; e_finishes := e_finishes e |}.
Definition event_delta (now : Z) (ev : GameEvent) : ScoreDelta :=
  {| d_points := default (dbl_of_Z 0) (g_points ev); d_net := default 0 (g_net ev);
     d_bb := default (dbl_of_Z 0) (g_bb ev); d_hands := default 0 (g_hands ev);
     d_duration := default 0 (g_duration ev); d_buyIn := default 0 (g_buyIn ev); d_finish := g_finish ev;
     d_ageDays := dbl_div (dbl_of_Z (now - default now (g_ts ev))) (dbl_of_Z DAY_MS) |}.
Definition add_event (fuel : nat) (now : Z) (sc : scores) (ev : GameEvent) : option scores :=
  if has_session ev then
    let e := add_session (default "" (g_sessionId ev)) (default defaultScoreEntry (om_get (g_playerId ev) sc)) in
    e' ← updateScoreEntry fuel e (event_delta now ev);
    Some (om_set (g_playerId ev) e' sc)
  else Some sc.
Definition collect (fuel : nat) (now : Z) (events : list GameEvent) : option scores :=
  foldl (λ acc ev, acc ≫= λ sc, add_event fuel now sc ev) (Some []) events.
Definition enough_sessions (minSessions : string → Z) (p : string * ScoreEntry) : bool :=
  minSessions p.1 <=? Z.of_nat (length (e_sessions p.2)).
End Scores.

(** ** leaderboard.service.ts *)

Section Service.
Context {T : Type → Type} `{!TableOps T} {R : Type} `{!RedisOps R (list LeaderboardEntry)}.
Context (exp log : double → double).
(** [a.localeCompare(b) > 0] *)
Context (locale_gt : string → string → bool).

Record LeaderboardStore := {
  ls_scores : list (string * ScoreEntry);
  ls_table : T LeaderboardRow;
  ls_cache : R }.
Abbreviation LM := (M LeaderboardStore).

Definition set_scores (sc : list (string * ScoreEntry)) (s : LeaderboardStore) : LeaderboardStore :=
  {| ls_scores := sc; ls_table := ls_table s; ls_cache := ls_cache s |}.
Definition set_table (t : T LeaderboardRow) (s : LeaderboardStore) : LeaderboardStore :=
  {| ls_scores := ls_scores s; ls_table := t; ls_cache := ls_cache s |}.
Definition set_cache (r : R) (s : LeaderboardStore) : LeaderboardStore :=
  {| ls_scores := ls_scores s; ls_table := ls_table s; ls_cache := r |}.

Definition cacheKey : string := "leaderboard:hot".
Definition dataKey : string := "leaderboard:data".
Definition ttl : Z := 30.

(** The comparator of persist is positive. *)
Definition goes_after (a b : string * ScoreEntry) : bool :=
  let diff := dbl_sub (e_rating b.2) (e_rating a.2) in
  if dbl_eqb diff (S754_zero false) then locale_gt a.1 b.1 else dbl_ltb (S754_zero false) diff.
Definition ranking (sc : list (string * ScoreEntry)) : list LeaderboardRow :=
  imap (λ idx p, toLeaderboardRow p.1 p.2 (Z.of_nat idx + 1)) (js_sort (λ a b, negb (goes_after a b)) sc).

(** [repo.insert(rows)] *)
Definition insert_next (t : option (T LeaderboardRow)) (r : LeaderboardRow) : option (T LeaderboardRow) :=
  match t with Some t => insert_row r t | None => None end.
Definition insert_rows (rs : list LeaderboardRow) : LM unit := λ s,
  match foldl insert_next (Some (ls_table s)) rs with
  | Some t => (Ret tt, set_table t s)
  | None => (Throw "duplicate key", s)
  end.

Definition cache_set (key : string) (v : list LeaderboardEntry) (t : Z) : LM unit :=
  modify (λ s, set_cache (r_set key v t (ls_cache s)) s).

Definition persist : LM unit :=
  rs ← gets (λ s, ranking (ls_scores s));
  modify (λ s, set_table (delete_where (λ _, true) (ls_table s)) s) ;;
  insert_rows rs ;;
  let leaders := toLeaderboardEntry <$> take 100 rs in
  cache_set dataKey leaders 0 ;;
  cache_set cacheKey leaders ttl.

Definition handleHandSettled (fuel : nat) (playerIds : list string) (deltas : list Z) (s : LeaderboardStore)
    : option (outcome unit * LeaderboardStore) :=
  sc ← settle_all exp log fuel playerIds deltas (ls_scores s);
  Some (persist (set_scores sc s)).

Definition rebuildWithEvents (fuel : nat) (now : Z) (minSessions : string → Z) (events : list GameEvent)
    (s : LeaderboardStore) : option (outcome unit * LeaderboardStore) :=
  sc ← collect exp log fuel now events;
  Some (persist (set_scores (filter (λ p, enough_sessions minSessions p) sc) s)).

(** [allowed id]: the users table has [id], not banned. *)
Definition fetchTopPlayers (allowed : string → bool) : LM (list LeaderboardEntry) :=
  cached ← gets (λ s, r_get dataKey (ls_cache s));
  match cached with
  | Some l => mret l
  | None =>
      rs ← gets (λ s, take 100 (js_sort (λ a b, l_rank a <=? l_rank b) (rows (ls_table s))));
      let top := toLeaderboardEntry <$> filter (λ r, allowed (l_playerId r)) rs in
      cache_set dataKey top 0 ;; mret top
  end.

Definition getTopPlayers (allowed : string → bool) : LM (list LeaderboardEntry) :=
  cached ← gets (λ s, r_get cacheKey (ls_cache s));
  match cached with
  | Some l => mret l
  | None => top ← fetchTopPlayers allowed; cache_set cacheKey top ttl ;; mret top
  end.

Definition invalidate : LM unit := modify (λ s, set_cache (r_del cacheKey (ls_cache s)) s).

Definition restored (row : LeaderboardRow) : ScoreEntry :=
  {| e_sessions := []; e_rating := l_rating row; e_rd := l_rd row; e_volatility := l_volatility row;
     e_net := l_net row; e_bb := l_bb row; e_hands := l_hands row; e_duration := l_duration row;
     e_buyIn := l_buyIn row; e_finishes := l_finishes row |}.
(** A new process starts with no scores; [events] is what [rebuild] reads. *)
Definition onModuleInit (fuel : nat) (now : Z) (events : list GameEvent) (s : LeaderboardStore)
    : option (outcome unit * LeaderboardStore) :=
  match rows (ls_table s) with
  | [] => rebuildWithEvents fuel now (λ _, 10) events s
  | existing =>
      Some (Ret tt, set_scores (foldl (λ sc row, om_set (l_playerId row) (restored row) sc) (ls_scores s) existing) s)
  end.
End Service.
