(* ===== verification/LeaderboardSafety.v ===== *)
(** * What the leaderboard promises

    The ranking that is stored and cached, the totals a rebuild collects, the
    restart, and what a first win does to the service. *)

From S2P Require Import Prelude JsNum Store JsMap Rating Leaderboard.
#[local] Open Scope Z_scope.

(** ** Doubles: a difference and its opposite *)

Lemma round_opp s m e : binary_round 53 1024 (negb s) m e = SFopp (binary_round 53 1024 s m e).
Proof.
  unfold binary_round. destruct (shl_align m e _) as [mz ez]. unfold binary_round_aux.
  destruct (shr_fexp 53 1024 (Zpos mz) ez loc_Exact) as [r1 e1].
  destruct (shr_fexp 53 1024 _ e1 loc_Exact) as [r2 e2].
  destruct (shr_m r2); [done| |done]. by destruct (e2 <=? 1024 - 53).
Qed.

Definition is_zero (x : double) : bool := match x with S754_zero _ => true | _ => false end.

Lemma sub_opp x y : dbl_sub y x = SFopp (dbl_sub x y) ∨ (is_zero (dbl_sub x y) = true ∧ is_zero (dbl_sub y x) = true).
Proof.
  unfold dbl_sub. destruct x as [sx|sx| |sx mx ex], y as [sy|sy| |sy my ey]; simpl;
    try (by left); try (by destruct sx, sy; auto); try (by destruct sx; auto); try (by destruct sy; auto).
  rewrite (Z.min_comm ey ex).
  set (a := cond_Zopp sx _). set (b := cond_Zopp sy _).
  replace (b - a) with (- (a - b)) by lia. destruct (a - b) as [|p|p]; simpl; [by right| |].
  - left. apply (round_opp false).
  - left. apply (round_opp true).
Qed.

Lemma diff_asym x y :
  let d := dbl_sub y x in let d' := dbl_sub x y in
  dbl_eqb d (S754_zero false) = dbl_eqb d' (S754_zero false)
  ∧ (dbl_ltb (S754_zero false) d = true → dbl_ltb (S754_zero false) d' = false).
Proof.
  intros d d'. destruct (sub_opp x y) as [H|[H1 H2]].
  - subst d d'. rewrite H. destruct (dbl_sub x y) as [s|s| |s m e]; split; try done; by destruct s.
  - subst d d'. destruct (dbl_sub x y), (dbl_sub y x); done.
Qed.

Lemma eqb_not_lt d : dbl_eqb d (S754_zero false) = true → dbl_ltb (S754_zero false) d = false.
Proof. by destruct d as [s|s| |s m e]; try destruct s. Qed.

(** ** Sorting with a comparator that never contradicts itself *)

Lemma sort_insert_Sorted {A} (le : A → A → bool) (x : A) l :
  (∀ a b, le a b = true ∨ le b a = true) →
  Sorted (λ a b, le a b = true) l → Sorted (λ a b, le a b = true) (sort_insert le x l).
Proof.
  intros Ht. induction 1 as [|y l Hl IH Hy]; simpl; [by repeat constructor|].
  destruct (le x y) eqn:E; [by repeat constructor|].
  constructor; [done|]. destruct l as [|z l]; simpl; [constructor; destruct (Ht x y); congruence|].
  inversion_clear Hy. destruct (le x z); constructor; [destruct (Ht x y); congruence | done].
Qed.

Lemma js_sort_Sorted {A} (le : A → A → bool) l :
  (∀ a b, le a b = true ∨ le b a = true) → Sorted (λ a b, le a b = true) (js_sort le l).
Proof. intros Ht. induction l as [|x l IH]; simpl; [constructor | by apply sort_insert_Sorted]. Qed.

(** ** The ranking *)

Section Ranking.
Context (locale_gt : string → string → bool).
Abbreviation sorted_scores := (js_sort (λ a b, negb (goes_after locale_gt a b))).

Lemma goes_after_total a b :
  (∀ x y, locale_gt x y = true → locale_gt y x = false) →
  negb (goes_after locale_gt a b) = true ∨ negb (goes_after locale_gt b a) = true.
Proof.
  intros Hasym. unfold goes_after. destruct (diff_asym (e_rating a.2) (e_rating b.2)) as [He Hl].
  rewrite He. destruct (dbl_eqb (dbl_sub (e_rating a.2) (e_rating b.2)) (S754_zero false)).
  - destruct (locale_gt a.1 b.1) eqn:E; [right | by left]. by rewrite (Hasym _ _ E).
  - destruct (dbl_ltb (S754_zero false) (dbl_sub (e_rating b.2) (e_rating a.2))) eqn:E; [right | by left]. by rewrite Hl.
Qed.

Lemma ranking_lookup sc i :
  ranking locale_gt sc !! i = (λ p, toLeaderboardRow p.1 p.2 (Z.of_nat i + 1)) <$> sorted_scores sc !! i.
Proof. apply list_lookup_imap. Qed.

Lemma ranking_ids sc : l_playerId <$> ranking locale_gt sc = (sorted_scores sc).*1.
Proof. apply list_eq. intros i. rewrite !list_lookup_fmap, ranking_lookup. by destruct (sorted_scores sc !! i). Qed.

Lemma ranking_NoDup sc : NoDup sc.*1 → NoDup (l_playerId <$> ranking locale_gt sc).
Proof. intros H. rewrite ranking_ids. by rewrite js_sort_perm. Qed.

Lemma ranking_ranks sc : l_rank <$> ranking locale_gt sc = seqZ 1 (Z.of_nat (length sc)).
Proof.
  rewrite <- (js_sort_length (λ a b, negb (goes_after locale_gt a b)) sc).
  apply list_eq. intros i. rewrite list_lookup_fmap, ranking_lookup.
  destruct (sorted_scores sc !! i) as [p|] eqn:E; simpl.
  - apply lookup_lt_Some in E. symmetry. apply lookup_seqZ. lia.
  - apply lookup_ge_None in E. symmetry. apply lookup_seqZ_ge. lia.
Qed.

Lemma elem_of_ranking sc r :
  r ∈ ranking locale_gt sc → ∃ p k, p ∈ sc ∧ r = toLeaderboardRow p.1 p.2 k.
Proof.
  intros (i & Hi)%list_elem_of_lookup. rewrite ranking_lookup in Hi.
  apply fmap_Some in Hi as (p & Hp & ->). exists p, (Z.of_nat i + 1). split; [|done].
  apply list_elem_of_lookup_2 in Hp. by rewrite js_sort_perm in Hp.
Qed.
End Ranking.

(** ** Storing it *)

Section Stored.
Context {T : Type → Type} `{!TableOps T, !TableLaws T} {R : Type} `{!RedisOps R (list LeaderboardEntry),
  !RedisLaws R (list LeaderboardEntry)}.
Context (locale_gt : string → string → bool).
Implicit Types (s : LeaderboardStore (T := T) (R := R)).

Lemma insert_all rs (t : T LeaderboardRow) :
  NoDup (l_playerId <$> rs ++ rows t) →
  ∃ t', foldl insert_next (Some t) rs = Some t' ∧ rows t' ≡ₚ rs ++ rows t.
Proof using TableLaws0.
  revert t. induction rs as [|r rs IH]; intros t Hn; [by exists t|]. cbn [foldl insert_next].
  cbn in Hn. apply NoDup_cons in Hn as [Hr Hn]. rewrite fmap_app, elem_of_app in Hr.
  destruct (insert_row r t) as [t1|] eqn:E.
  - pose proof (rows_insert _ _ _ E) as Hrows.
    assert (rs ++ rows t1 ≡ₚ r :: rs ++ rows t) as Hp by (rewrite Hrows; by rewrite <- Permutation_middle).
    destruct (IH t1) as (t' & Ht & Ht').
    + rewrite Hp. cbn. apply NoDup_cons. by rewrite fmap_app, elem_of_app, <- fmap_app.
    + exists t'. split; [done|]. by rewrite Ht', Hp.
  - apply insert_clash in E as (r' & Hr' & [Hid|[=]]). destruct Hr. right.
    apply list_elem_of_fmap. exists r'. by split.
Qed.

Lemma persist_spec s :
  NoDup (ls_scores s).*1 →
  let leaders := toLeaderboardEntry <$> take 100 (ranking locale_gt (ls_scores s)) in
  let s' := (persist locale_gt s).2 in
  (persist locale_gt s).1 = Ret tt ∧ ls_scores s' = ls_scores s
  ∧ rows (ls_table s') ≡ₚ ranking locale_gt (ls_scores s)
  ∧ r_get dataKey (ls_cache s') = Some leaders ∧ r_get cacheKey (ls_cache s') = Some leaders.
Proof using TableLaws0 RedisLaws0.
  intros Hn leaders s'. subst s'.
  set (t0 := delete_where (λ _ : LeaderboardRow, true) (ls_table s)).
  assert (rows t0 = []) as Ht0.
  { apply Permutation_nil_r. unfold t0. rewrite rows_delete.
    induction (rows (ls_table s)) as [|x l IH]; [done|]. by rewrite filter_cons, decide_False by (simpl; tauto). }
  destruct (insert_all (ranking locale_gt (ls_scores s)) t0) as (t' & Ht & Hrows).
  { rewrite Ht0, app_nil_r. by apply ranking_NoDup. }
  rewrite Ht0, app_nil_r in Hrows.
  assert (persist locale_gt s = (Ret tt,
    {| ls_scores := ls_scores s; ls_table := t';
       ls_cache := r_set cacheKey leaders ttl (r_set dataKey leaders 0 (ls_cache s)) |})) as ->.
  { unfold persist, mbind, M_bind, gets, modify, insert_rows. cbn. fold t0. rewrite Ht. done. }
  cbn. rewrite !get_set. split_and!; done.
Qed.

(** The stored leaderboard is the ranking of the scores. [persist] always succeeds; the table holds
    one row for every score, with the ranks 1, 2, 3, ... and no rating above the one before it (ties
    in the order of the names); both caches hold the first hundred. *)
Lemma leaderboard_is_the_ranking s :
  (∀ x y, locale_gt x y = true → locale_gt y x = false) → NoDup (ls_scores s).*1 →
  let rs := ranking locale_gt (ls_scores s) in
  let s' := (persist locale_gt s).2 in
  (persist locale_gt s).1 = Ret tt
  ∧ rows (ls_table s') ≡ₚ rs
  ∧ r_get cacheKey (ls_cache s') = Some (toLeaderboardEntry <$> take 100 rs)
  ∧ r_get dataKey (ls_cache s') = Some (toLeaderboardEntry <$> take 100 rs)
  ∧ l_playerId <$> rs ≡ₚ (ls_scores s).*1
  ∧ l_rank <$> rs = seqZ 1 (Z.of_nat (length (ls_scores s)))
  ∧ ∀ i r r', rs !! i = Some r → rs !! S i = Some r' →
      let diff := dbl_sub (l_rating r') (l_rating r) in
      dbl_ltb (S754_zero false) diff = false
      ∧ (dbl_eqb diff (S754_zero false) = true → locale_gt (l_playerId r) (l_playerId r') = false).
Proof using TableLaws0 RedisLaws0.
  intros Hasym Hn rs s'. destruct (persist_spec s Hn) as (H1 & _ & H2 & H3 & H4).
  split_and!; [done | done | done | done | | apply ranking_ranks |].
  { unfold rs. by rewrite ranking_ids, js_sort_perm. }
  intros i r r' Hi Hi'. unfold rs in Hi, Hi'. rewrite ranking_lookup in Hi, Hi'.
  apply fmap_Some in Hi as (p & Hp & ->). apply fmap_Some in Hi' as (p' & Hp' & ->).
  assert (goes_after locale_gt p p' = false) as Hg.
  { pose proof (js_sort_Sorted (λ a b, negb (goes_after locale_gt a b)) (ls_scores s)) as Hs.
    specialize (Hs (λ a b, goes_after_total locale_gt a b Hasym)).
    apply negb_true_iff. revert Hp Hp'. revert i. induction Hs as [|x l Hl IH Hx]; intros i; [done|].
    destruct i as [|i]; [|apply IH]. intros [= ->] Hp'. destruct l as [|z l]; [done|]. injection Hp' as ->.
    by inversion Hx. }
  unfold goes_after in Hg. simpl. revert Hg.
  destruct (dbl_eqb (dbl_sub (e_rating p'.2) (e_rating p.2)) (S754_zero false)) eqn:E; [|done].
  intros Hg. split; [|done]. by apply eqb_not_lt.
Qed.

(** ** The restart *)

Lemma restored_get (rs : list LeaderboardRow) sc id :
  NoDup (l_playerId <$> rs) →
  om_get id (foldl (λ sc row, om_set (l_playerId row) (restored row) sc) sc rs)
  = match find (λ r, bool_decide (l_playerId r = id)) rs with
    | Some r => Some (restored r) | None => om_get id sc
    end.
Proof using Type.
  clear. revert sc. induction rs as [|r rs IH]; intros sc Hn; [done|].
  cbn in Hn. apply NoDup_cons in Hn as [Hr Hn]. cbn [foldl find]. rewrite IH by done. rewrite om_get_set.
  case_bool_decide as E; [subst id; rewrite decide_True by done | by rewrite decide_False by done].
  destruct (find _ rs) as [r'|] eqn:Ef; [|done]. exfalso. apply find_some in Ef as [Hin Hid%bool_decide_eq_true].
  apply Hr, list_elem_of_fmap. exists r'. split; [done|]. by apply list_elem_of_In.
Qed.

Definition forget_sessions (e : ScoreEntry) : ScoreEntry := restored (toLeaderboardRow "" e 0).

(** The table is enough to restart. A process that starts on the table another one persisted has
    the same score for every player, except that the sets of sessions are empty. *)
Lemma restart_restores_scores exp log fuel now events s :
  ls_scores s ≠ [] → NoDup (ls_scores s).*1 →
  let s1 := (persist locale_gt s).2 in
  let fresh := {| ls_scores := []; ls_table := ls_table s1; ls_cache := ls_cache s1 |} in
  ∃ s2, onModuleInit exp log locale_gt fuel now events fresh = Some (Ret tt, s2)
        ∧ ∀ id, om_get id (ls_scores s2) = forget_sessions <$> om_get id (ls_scores s).
Proof using TableLaws0 RedisLaws0.
  intros Hne Hn s1 fresh. destruct (persist_spec s Hn) as (_ & _ & Ht & _). fold s1 in Ht.
  unfold onModuleInit. cbn [ls_table fresh].
  assert (NoDup (l_playerId <$> rows (ls_table s1))) as Hnt.
  { rewrite Ht. by apply ranking_NoDup. }
  destruct (rows (ls_table s1)) as [|r0 rs0] eqn:E0.
  { destruct Hne. apply Permutation_nil in Ht. pose proof (ranking_ids locale_gt (ls_scores s)) as Hi.
    rewrite Ht in Hi. symmetry in Hi. apply fmap_nil_inv in Hi. apply Permutation_nil_r.
    rewrite <- Hi. symmetry. apply js_sort_perm. }
  eexists. split; [done|]. intros id. cbn [ls_scores set_scores]. rewrite restored_get by done.
  rewrite <- E0 in *. clear E0 r0 rs0.
  destruct (find _ (rows (ls_table s1))) as [r|] eqn:Ef.
  - apply find_some in Ef as [Hin%list_elem_of_In <-%bool_decide_eq_true]. rewrite Ht in Hin.
    apply elem_of_ranking in Hin as ([k e] & rank & Hin & ->). simpl.
    apply om_get_elem in Hin; [|done]. by rewrite Hin.
  - simpl. destruct (om_get id (ls_scores s)) as [e|] eqn:Eg; [exfalso | done].
    apply om_get_elem in Eg; [|done].
    assert (id ∈ l_playerId <$> rows (ls_table s1)) as (r & -> & Hr)%list_elem_of_fmap.
    { rewrite Ht, ranking_ids, js_sort_perm. apply list_elem_of_fmap. by exists (id, e). }
    apply list_elem_of_In, (find_none _ _ Ef), bool_decide_eq_false in Hr. done.
Qed.
End Stored.

(** ** What a rebuild collects *)

Section Collected.
Context (exp log : double → double).
Implicit Types (sc : list (string * ScoreEntry)).

(** The events that count for a player. *)
Definition events_of (id : string) (events : list GameEvent) : list GameEvent :=
  filter (λ ev, has_session ev = true ∧ g_playerId ev = id) events.
Definition totals (evs : list GameEvent) (e : ScoreEntry) : Prop :=
  e_net e = sumZ (default 0 ∘ g_net <$> evs)
  ∧ e_hands e = sumZ (default 0 ∘ g_hands <$> evs)
  ∧ e_duration e = sumZ (default 0 ∘ g_duration <$> evs)
  ∧ e_buyIn e = sumZ (default 0 ∘ g_buyIn <$> evs)
  ∧ e_sessions e = to_set (default "" ∘ g_sessionId <$> evs).

Lemma totals_snoc evs ev now e r :
  totals evs e →
  totals (evs ++ [ev]) (with_delta (add_session (default "" (g_sessionId ev)) e) (event_delta now ev) r).
Proof.
  intros (H1 & H2 & H3 & H4 & H5). unfold totals. rewrite !fmap_app, !sumZ_app.
  cbn. rewrite H1, H2, H3, H4, H5, to_set_snoc. repeat split; lia.
Qed.

Lemma collect_snoc fuel now events ev :
  collect exp log fuel now (events ++ [ev]) = collect exp log fuel now events ≫= λ sc, add_event exp log fuel now sc ev.
Proof. unfold collect. by rewrite foldl_app. Qed.

Lemma collect_totals fuel now events sc :
  collect exp log fuel now events = Some sc →
  NoDup sc.*1 ∧ ∀ id, match om_get id sc with
                      | Some e => events_of id events ≠ [] ∧ totals (events_of id events) e
                      | None => events_of id events = []
                      end.
Proof.
  revert sc. induction events as [|ev events IH] using rev_ind; intros sc.
  { intros [= <-]. split; [constructor | done]. }
  rewrite collect_snoc. intros (sc0 & Hc & Hadd)%bind_Some. destruct (IH _ Hc) as [Hn Hsc].
  assert (∀ id, events_of id (events ++ [ev])
    = events_of id events ++ (if decide (has_session ev = true ∧ g_playerId ev = id) then [ev] else [])) as Hev.
  { intros id. unfold events_of. rewrite filter_app, filter_cons. by case_decide. }
  unfold add_event in Hadd. destruct (has_session ev) eqn:Hs.
  2: { injection Hadd as <-. split; [done|]. intros id. rewrite Hev.
       rewrite decide_False by (by intros []). rewrite app_nil_r. apply Hsc. }
  unfold updateScoreEntry in Hadd. apply bind_Some in Hadd as (e' & (r & _ & [= <-])%bind_Some & [= <-]).
  split; [by apply om_set_NoDup|]. intros id. rewrite Hev, om_get_set. destruct (decide (id = g_playerId ev)) as [->|Hne].
  - rewrite decide_True by done. split; [by intros [_ ?]%app_nil|].
    apply totals_snoc. specialize (Hsc (g_playerId ev)). destruct (om_get _ sc0) as [e|]; [apply Hsc|].
    by rewrite Hsc.
  - rewrite decide_False by (intros []; congruence). rewrite app_nil_r. apply Hsc.
Qed.
End Collected.

(** A rebuild adds up what the events say. When it returns, every player whose counted events (those
    with a session) belong to at least [minSessions] different sessions has an entry with the sums of
    their net results, hands, durations and buy-ins and with exactly their sessions; nobody else has
    an entry, and the entries are ranked, stored and cached. *)
Lemma rebuild_totals {T : Type → Type} `{!TableOps T, !TableLaws T} {R : Type}
    `{!RedisOps R (list LeaderboardEntry), !RedisLaws R (list LeaderboardEntry)}
    exp log locale_gt fuel now minSessions events (s : LeaderboardStore (T := T) (R := R)) o s' :
  rebuildWithEvents exp log locale_gt fuel now minSessions events s = Some (o, s') →
  o = Ret tt ∧ rows (ls_table s') ≡ₚ ranking locale_gt (ls_scores s')
  ∧ ∀ id, let evs := events_of id events in
      let sessions := to_set (default "" ∘ g_sessionId <$> evs) in
      match om_get id (ls_scores s') with
      | Some e => evs ≠ [] ∧ minSessions id <= Z.of_nat (length sessions) ∧ totals evs e
      | None => evs = [] ∨ Z.of_nat (length sessions) < minSessions id
      end.
Proof.
  unfold rebuildWithEvents. intros (sc & Hc & [= Hp])%bind_Some.
  apply collect_totals in Hc as [Hn Hsc].
  set (kept := filter (λ p, enough_sessions minSessions p) sc) in *.
  assert (NoDup kept.*1) as Hk by by apply NoDup_fmap_filter.
  destruct (persist_spec locale_gt (set_scores kept s) Hk) as (H1 & H2 & H3 & _).
  rewrite Hp in H1, H2, H3. cbn [fst snd ls_scores set_scores] in H1, H2, H3.
  rewrite H2. split; [done|]. split; [done|]. intros id. specialize (Hsc id).
  set (evs := events_of id events) in *. set (sessions := to_set (default "" ∘ g_sessionId <$> evs)).
  assert (∀ e, om_get id kept = Some e ↔ om_get id sc = Some e ∧ enough_sessions minSessions (id, e) = true) as Hget.
  { intros e. rewrite (om_get_elem _ _ kept), (om_get_elem _ _ sc) by done. unfold kept. rewrite list_elem_of_filter.
    destruct (enough_sessions minSessions (id, e)); simpl; naive_solver. }
  unfold enough_sessions in Hget. cbn [fst snd] in Hget.
  destruct (om_get id kept) as [e|] eqn:E.
  - destruct (Hget e) as [[Hg He%Z.leb_le] _]; [done|]. rewrite Hg in Hsc. destruct Hsc as [Hne Ht].
    split_and!; [done | | done]. unfold totals in Ht. destruct Ht as (_ & _ & _ & _ & Hs).
    unfold sessions. by rewrite <- Hs.
  - destruct (om_get id sc) as [e|]; [right | by left]. destruct Hsc as [_ (_ & _ & _ & _ & Hs)].
    fold evs in Hs. fold sessions in Hs. destruct (Z.ltb_spec (Z.of_nat (length sessions)) (minSessions id)) as [|Hge]; [done|].
    destruct (Hget e) as [_ Hf]. exfalso. discriminate Hf. split; [done|]. rewrite Hs. by apply Z.leb_le.
Qed.

(** ** A first win *)

Lemma foldl_None {A B} (f : A → B → option A) (l : list B) :
  foldl (λ acc b, acc ≫= λ a, f a b) (None : option A) l = None.
Proof. by induction l. Qed.

Lemma digits_bound p : 2 ^ (Zpos (digits2_pos p) - 1) <= Zpos p.
Proof.
  induction p as [p IH|p IH|]; simpl digits2_pos; [| |done];
    rewrite Pos2Z.inj_succ; replace (Z.succ (Zpos (digits2_pos p)) - 1) with (Z.succ (Zpos (digits2_pos p) - 1)) by lia;
    rewrite Z.pow_succ_r by lia; lia.
Qed.

Lemma digits_shift p d : digits2_pos (Pos.iter xO p d) = (digits2_pos p + d)%positive.
Proof.
  induction d as [|d IH] using Pos.peano_ind; [simpl; lia|].
  rewrite Pos.iter_succ. simpl. rewrite IH. lia.
Qed.

(** A number of at most 53 digits is rounded to a finite double of its sign. *)
Lemma round_full s m e :
  digits2_pos m = 53%positive → -1074 <= e <= 0 → binary_round_aux 53 1024 s (Zpos m) e loc_Exact = S754_finite s m e.
Proof.
  intros Hm He.
  assert (shr_fexp 53 1024 (Zpos m) e loc_Exact = (shr_record_of_loc (Zpos m) loc_Exact, e)) as E.
  { unfold shr_fexp. simpl Zdigits2. rewrite Hm.
    replace (fexp 53 1024 (53 + e) - e) with 0 by (unfold fexp, emin; lia). done. }
  unfold binary_round_aux. rewrite E. simpl. rewrite E. simpl.
  by rewrite (proj2 (Z.leb_le e (1024 - 53))) by lia.
Qed.

Lemma round_small s p : Zpos p < 2 ^ 53 → ∃ m e, binary_round 53 1024 s p 0 = S754_finite s m e.
Proof.
  intros Hp. assert (Zpos (digits2_pos p) <= 53) as Hd.
  { pose proof (digits_bound p). destruct (Z.le_gt_cases (Zpos (digits2_pos p)) 53) as [|Hgt]; [done|].
    assert (2 ^ 53 <= 2 ^ (Zpos (digits2_pos p) - 1)) by (apply Z.pow_le_mono_r; lia). lia. }
  unfold binary_round, shl_align.
  replace (fexp 53 1024 (Zpos (digits2_pos p) + 0)) with (Zpos (digits2_pos p) - 53) by (unfold fexp, emin; lia).
  rewrite Z.sub_0_r. destruct (Zpos (digits2_pos p) - 53) as [|d|d] eqn:E; [|lia|].
  - exists p, 0. apply round_full; lia.
  - exists (Pos.iter xO p d), (Zneg d). apply round_full; [rewrite digits_shift|]; lia.
Qed.

(** The sign of a result survives the conversion. *)
Lemma result_of_nonzero delta : delta ≠ 0 → Z.abs delta < 2 ^ 53 →
  result_of (dbl_of_Z delta) = S754_zero false ∨ result_of (dbl_of_Z delta) = one.
Proof.
  intros H0 Hb. unfold result_of, dbl_of_Z at 1 2 4 5, binary_normalize. destruct delta as [|p|p]; [done| |].
  - destruct (round_small false p) as (m & e & ->); [lia|]. by right.
  - destruct (round_small true p) as (m & e & ->); [lia|]. by left.
Qed.

(** The first decisive hand of a new player stops the service. When a settled hand names a player
    without a score whose result is not zero, [handleHandSettled] never returns, however long it runs,
    because the rating of that player does not ([exp] and [log] rounded correctly at the points it
    visits); the players after it are not counted and nothing is stored. *)
Lemma first_decisive_hand_blocks {T : Type → Type} `{!TableOps T} {R : Type} `{!RedisOps R (list LeaderboardEntry)}
    exp log locale_gt fuel playerIds deltas i id delta (s : LeaderboardStore (T := T) (R := R)) :
  agrees exp exp_points → agrees log log_points →
  NoDup playerIds → playerIds !! i = Some id → deltas !! i = Some delta →
  om_get id (ls_scores s) = None → delta ≠ 0 → Z.abs delta < 2 ^ 53 →
  handleHandSettled exp log locale_gt fuel playerIds deltas s = None.
Proof.
  intros Hexp Hlog Hn Hi Hd Hnew H0 Hb. unfold handleHandSettled, settle_all.
  set (l := zip playerIds (deltas ++ replicate (length playerIds) 0)).
  assert (l !! i = Some (id, delta)) as Hl.
  { unfold l. apply lookup_zip_Some. split; [done|]. by apply lookup_app_l_Some. }
  assert (l.*1 = playerIds) as Hl1.
  { unfold l. apply fst_zip. rewrite length_app, length_replicate. lia. }
  rewrite <- (take_drop_middle l i _ Hl), foldl_app. cbn [foldl].
  set (acc := foldl _ (Some (ls_scores s)) (take i l)).
  assert (∀ sc, acc = Some sc → om_get id sc = None) as Hacc.
  { assert (id ∉ (take i l).*1) as Hni.
    { rewrite fmap_take, Hl1. rewrite <- (take_drop_middle _ _ _ Hi) in Hn.
      apply NoDup_app in Hn as (_ & Hdis & _). intros Hin. apply (Hdis id Hin). by left. }
    unfold acc. clearbody l. clear -Hni Hnew. induction (take i l) as [|[j d] t IH] using rev_ind.
    - by intros sc [= <-].
    - rewrite fmap_app, not_elem_of_app in Hni. destruct Hni as [Hni Hj]. intros sc. rewrite foldl_app. cbn [foldl].
      intros (sc0 & Hs0 & Hs)%bind_Some. specialize (IH Hni _ Hs0).
      unfold settle_player in Hs. apply bind_Some in Hs as (e & _ & [= <-]). cbn [fst].
      rewrite om_get_set, decide_False; [done|]. intros ->. destruct Hj. by left. }
  assert (acc ≫= (λ sc, settle_player exp log fuel sc (id, delta)) = None) as ->.
  { destruct acc as [sc|]; [|done]. simpl. unfold settle_player, updateScoreEntry. cbn [fst snd].
    rewrite (Hacc sc eq_refl). cbn [default].
    assert (∀ score, score = S754_zero false ∨ score = one →
      updateRating exp log fuel unrated [opponent score] (S754_zero false) = None) as Hr.
    { intros score Hs. by apply decisive_never_rated. }
    specialize (Hr _ (result_of_nonzero delta H0 Hb)). unfold unrated, opponent in Hr.
    change (S754_zero false) with (dbl_of_Z 0) in Hr.
    cbn [e_rating e_rd e_volatility defaultScoreEntry settled_delta d_points d_ageDays].
    by rewrite Hr. }
  by rewrite foldl_None.
Qed.

(** ** Concrete runs *)

Definition ls0 : LeaderboardStore (T := list) (R := map_redis (list LeaderboardEntry)) :=
  {| ls_scores := []; ls_table := []; ls_cache := MapRedis ∅ ∅ ∅ |}.
Definition later (a b : string) : bool := String.ltb b a.

Lemma first_decisive_hand_blocks_witness :
  handleHandSettled (table exp_points) (table log_points) later 1000 ["alice"; "bob"] [0; -20]
    (set_scores [("alice", defaultScoreEntry)] ls0) = None.
Proof.
  apply (first_decisive_hand_blocks _ _ _ _ _ _ 1 "bob" (-20));
    [repeat constructor | repeat constructor | | reflexivity | reflexivity | reflexivity | lia | lia].
  apply (bool_decide_eq_true_1 (NoDup ["alice"; "bob"])). reflexivity.
Defined.

(** Two players who drew, with the rating [Rating.draw_rated] computes, and the one who has two rows. *)
Definition drew (id session : string) (net : Z) : GameEvent :=
  {| g_playerId := id; g_sessionId := Some session; g_ts := None; g_points := None; g_net := Some net;
     g_bb := None; g_hands := Some 1; g_duration := None; g_buyIn := Some 5; g_finish := None |}.
Definition rebuilt : option (outcome unit * LeaderboardStore) :=
  rebuildWithEvents (table draw_points) (table log_points) later 2 0 (λ _, 1) [drew "bob" "s1" 7; drew "amy" "s1" (-7)] ls0.
Definition amy_then_bob : list (string * ScoreEntry) :=
  [("bob", {| e_sessions := ["s1"]; e_rating := S754_zero false; e_rd := S754_finite false 8677609490165531 (-45);
     e_volatility := S754_finite false 8646670003106765 (-57); e_net := 7; e_bb := S754_zero false; e_hands := 1;
     e_duration := 0; e_buyIn := 5; e_finishes := ∅ |});
   ("amy", {| e_sessions := ["s1"]; e_rating := S754_zero false; e_rd := S754_finite false 8677609490165531 (-45);
     e_volatility := S754_finite false 8646670003106765 (-57); e_net := -7; e_bb := S754_zero false; e_hands := 1;
     e_duration := 0; e_buyIn := 5; e_finishes := ∅ |})].
Lemma rebuild_totals_witness :
  ∃ o s', rebuilt = Some (o, s') ∧ o = Ret tt ∧ rows (ls_table s') ≡ₚ ranking later (ls_scores s')
          ∧ ls_scores s' = amy_then_bob.
Proof.
  destruct rebuilt as [[o s']|] eqn:E; [|vm_compute in E; discriminate E].
  exists o, s'. destruct (rebuild_totals _ _ _ _ _ _ _ _ _ _ E) as (H1 & H2 & _).
  split; [reflexivity|]. split; [exact H1|]. split; [exact H2|].
  vm_compute in E. injection E as _ <-. reflexivity.
Defined.

Lemma leaderboard_is_the_ranking_witness :
  (l_playerId <$> ls_table (persist later (set_scores amy_then_bob ls0)).2) = ["amy"; "bob"]
  ∧ rows (ls_table (persist later (set_scores amy_then_bob ls0)).2) ≡ₚ ranking later amy_then_bob.
Proof.
  split; [vm_compute; reflexivity|].
  apply (leaderboard_is_the_ranking later (set_scores amy_then_bob ls0)).
  - intros x y. unfold later, String.ltb. rewrite (String.compare_antisym x y). by destruct (String.compare y x).
  - apply (bool_decide_eq_true_1 (NoDup ["bob"; "amy"])). reflexivity.
Defined.

Lemma restart_restores_scores_witness :
  let s1 := (persist later (set_scores amy_then_bob ls0)).2 in
  ∃ s2, onModuleInit (table exp_points) (table log_points) later 0 0 []
          {| ls_scores := []; ls_table := ls_table s1; ls_cache := ls_cache s1 |} = Some (Ret tt, s2)
        ∧ ∀ id, om_get id (ls_scores s2) = forget_sessions <$> om_get id amy_then_bob.
Proof.
  apply (restart_restores_scores later (table exp_points) (table log_points) 0 0 [] (set_scores amy_then_bob ls0)).
  - discriminate.
  - apply (bool_decide_eq_true_1 (NoDup ["bob"; "amy"])). reflexivity.
Defined.

(** A banned player stays listed: the cached leaders are not filtered. *)
Example banned_player_is_listed :
  (fst ((_ ← persist later; getTopPlayers (λ id, bool_decide (id = "amy"))) (set_scores amy_then_bob ls0)))
  = Ret (toLeaderboardEntry <$> ranking later amy_then_bob).
Proof. vm_compute. reflexivity. Qed.
