(* ===== verification/Auth.v ===== *)
(** * Sessions and authentication

    backend/src/session/session.service.ts, auth/auth.service.ts with the guards
    and the rate limit of backend/src/auth, and backend/src/users/users.service.ts.
    Refresh tokens, revocations, reset codes and counters live in Redis, users in a
    table. Parameters: the hash of a password and of a code, the signing of access
    tokens, and every value drawn at random. *)

From S2P Require Import Prelude Store JsText.
#[local] Open Scope Z_scope.

Inductive Role := Player | Admin.
#[export] Instance Role_eq_dec : EqDecision Role.
Proof. solve_decision. Defined.

Record User := {
  u_id : string; u_username : string; u_email : option string; u_password : option string;
  u_role : Role; u_avatarKey : option string; u_banned : bool }.

(** [username] and [email] are unique columns. *)
#[export] Instance user_entity : Entity User := {
  row_id := u_id;
  row_clash a b := bool_decide (u_username a = u_username b)
                   || (bool_decide (u_email a = u_email b) && bool_decide (u_email a ≠ None)) }.

(** The values Redis holds: a text, or [JSON.stringify({ userId, role: 'admin' })]. Identifiers of users
    are UUIDs, which are no JSON objects. *)
Inductive AuthValue := Text (s : string) | SessionJson (userId : string).

Record Payload := { p_sub : string; p_admin : bool }.
Record Tokens := { accessToken : string; refreshToken : string }.

Record AuthConfig := {
  jwtSecrets : list string; accessTtl : Z; refreshTtl : Z;
  resetReqLimit : Z; resetReqWindow : Z; resetTtl : Z; rateWindow : Z; rateMax : Z }.

(** bcrypt, SHA-256 in hexadecimal, and the JWT library. *)
Record Crypto := {
  bcrypt_hash : string → string → string;          (* salt, password *)
  bcrypt_compare : string → string → bool;         (* password, hash *)
  sha256_hex : string → string;
  jwt_sign : Payload → string → Z → Z → string;    (* payload, secret, issued at, expiresIn *)
  jwt_verify : string → string → Z → option Payload }.  (* token, secret, now *)

Record CryptoLaws (C : Crypto) : Prop := {
  compare_hash salt pw : bcrypt_compare C pw (bcrypt_hash C salt pw) = true;
  verify_sign p secret iat ttl now :
    now < iat + ttl → jwt_verify C (jwt_sign C p secret iat ttl) secret now = Some p }.

Definition refreshKey (t : string) : string := "refresh:" +:+ t.
Definition revokedKey (t : string) : string := "revoked:" +:+ t.
Definition resetKey (email : string) : string := "reset:" +:+ email.
Definition resetReqKey (who : string) : string := "reset-req:" +:+ who.

(** [parseRefreshValue]: the user and whether the role is admin. *)
Definition parseRefreshValue (value : option AuthValue) : option (string * bool) :=
  match value with
  | None | Some (Text "") => None
  | Some (Text s) => Some (s, false)
  | Some (SessionJson u) => Some (u, true)
  end.
Definition refreshValue (userId : string) (admin : bool) : AuthValue :=
  if admin then SessionJson userId else Text userId.

Section Auth.
Context {T : Type → Type} `{!TableOps T} {R : Type} `{!RedisOps R AuthValue, !RedisKeysOps R}.
Context (C : Crypto) (cfg : AuthConfig).

Record AuthStore := {
  as_users : T User;
  as_redis : R;
  as_mails : list (string * string);      (* address and code of the reset mails sent *)
  as_logins : list (string * Z) }.        (* the auth.login events *)

Abbreviation AM := (M AuthStore).

Definition on_users (f : T User → T User) (s : AuthStore) : AuthStore :=
  {| as_users := f (as_users s); as_redis := as_redis s; as_mails := as_mails s; as_logins := as_logins s |}.
Definition on_redis (f : R → R) (s : AuthStore) : AuthStore :=
  {| as_users := as_users s; as_redis := f (as_redis s); as_mails := as_mails s; as_logins := as_logins s |}.
Definition add_mail (m : string * string) (s : AuthStore) : AuthStore :=
  {| as_users := as_users s; as_redis := as_redis s; as_mails := as_mails s ++ [m]; as_logins := as_logins s |}.
Definition add_login (l : string * Z) (s : AuthStore) : AuthStore :=
  {| as_users := as_users s; as_redis := as_redis s; as_mails := as_mails s; as_logins := as_logins s ++ [l] |}.

Definition rget (k : string) : AM (option AuthValue) := gets (λ s, r_get k (as_redis s)).
Definition rset (k : string) (v : AuthValue) (ex : Z) : AM unit := modify (on_redis (r_set k v ex)).
Definition rdel (k : string) : AM unit := modify (on_redis (r_del k)).
Definition rincr (k : string) : AM Z := λ s,
  let '(c, r) := r_incrby k 1 (as_redis s) in (Ret c, on_redis (λ _, r) s).
Definition rexpire (k : string) (t : Z) : AM unit := modify (on_redis (λ r, (r_expire k t r).2)).

(** ** session.service.ts *)

Definition availableSecrets : list string :=
  filter (λ s, s ≠ "") (js_trim <$> jwtSecrets cfg).

(** [uuid] is the refresh token drawn. *)
Definition issueTokens (uuid : string) (now : Z) (userId : string) (admin : bool) : AM Tokens :=
  match availableSecrets with
  | [] => throw "JWT secrets not configured"
  | secret :: _ =>
      let access := jwt_sign C {| p_sub := userId; p_admin := admin |} secret now (accessTtl cfg) in
      rset (refreshKey uuid) (refreshValue userId admin) (refreshTtl cfg) ;;
      mret {| accessToken := access; refreshToken := uuid |}
  end.

(** The first secret that verifies the token. *)
Fixpoint first_valid (secrets : list string) (token : string) (now : Z) : option Payload :=
  match secrets with
  | [] => None
  | s :: rest => match jwt_verify C token s now with Some p => Some p | None => first_valid rest token now end
  end.
Definition verifyAccessToken (token : string) (now : Z) : option string :=
  p_sub <$> first_valid availableSecrets token now.

Definition rotate (uuid : string) (now : Z) (refreshToken : string) : AM (option Tokens) :=
  stored ← rget (refreshKey refreshToken);
  match parseRefreshValue stored with
  | None => mret None
  | Some (userId, admin) =>
      rdel (refreshKey refreshToken) ;;
      t ← issueTokens uuid now userId admin;
      mret (Some t)
  end.

Definition revoke (refreshToken : string) : AM unit := rdel (refreshKey refreshToken).

Definition revokeAll (userId : string) : AM unit :=
  keys ← gets (λ s, r_keys "refresh:" (as_redis s));
  for_each keys (λ key,
    value ← rget key;
    when (bool_decide (fst <$> parseRefreshValue value = Some userId)) (rdel key)).

(** ** auth.service.ts *)

Definition find_user (email : string) : AM (option User) :=
  gets (λ s, find_row (λ u, bool_decide (u_email u = Some email)) (as_users s)).

(** [users.save]: the unique columns of the other rows are checked by the database. *)
Definition save_user (u : User) : AM unit := λ s,
  if existsb (λ u', bool_decide (u_id u' ≠ u_id u) && row_clash u' u) (rows (as_users s))
  then (Throw "duplicate key", s) else (Ret tt, on_users (save_row u) s).

Definition register (id salt email password : string) : AM string :=
  existing ← find_user email;
  throw_if (bool_decide (existing ≠ None)) "User with this email already exists" ;;
  save_user {| u_id := id; u_username := email; u_email := Some email;
               u_password := Some (bcrypt_hash C salt password); u_role := Player; u_avatarKey := None;
               u_banned := false |} ;;
  mret id.

Definition validateUser (email password : string) : AM (option User) :=
  user ← find_user email;
  match user with
  | None => mret None
  | Some u =>
      match u_password u with
      | None | Some "" => mret None
      | Some h => if bcrypt_compare C password h then mret (Some u) else mret None
      end
  end.

(** [recordLogin]: active users by time of login, in milliseconds; the times are whole. *)
Definition recordLogin (userId : string) (nowMs : Z) : AM unit :=
  modify (on_redis (r_zadd "metrics:online:users" nowMs userId)) ;;
  modify (on_redis (r_zremrangebyscore "metrics:online:users" 0 (nowMs - 5 * 60 * 1000))) ;;
  online ← gets (λ s, length (r_zset "metrics:online:users" (as_redis s)));
  rset "metrics:online" (Text (pretty online)) 0.

Definition login (uuid : string) (now : Z) (email password : string) : AM (option Tokens) :=
  user ← validateUser email password;
  match user with
  | None => mret None
  | Some u =>
      modify (add_login (u_id u, now * 1000)) ;;
      recordLogin (u_id u) (now * 1000) ;;
      t ← issueTokens uuid now (u_id u) (bool_decide (u_role u = Admin));
      mret (Some t)
  end.

Definition mark_revoked (refreshToken : string) : AM unit :=
  rset (revokedKey refreshToken) (Text "1") (refreshTtl cfg).
Definition is_revoked (v : option AuthValue) : bool :=
  match v with None | Some (Text "") => false | Some _ => true end.

Definition refresh (uuid : string) (now : Z) (refreshToken : string) : AM (option Tokens) :=
  revoked ← rget (revokedKey refreshToken);
  if is_revoked revoked then mret None
  else
    rotated ← rotate uuid now refreshToken;
    match rotated with
    | None => mret None
    | Some t => mark_revoked refreshToken ;; mret (Some t)
    end.

Definition logout (refreshToken : string) : AM unit :=
  mark_revoked refreshToken ;; revoke refreshToken.

(** One counter of a window; true when the request is within the limit. *)
Definition within_limit (key : string) : AM bool :=
  count ← rincr key;
  when (count =? 1) (rexpire key (resetReqWindow cfg)) ;;
  mret (count <=? resetReqLimit cfg).

(** [code] is the number drawn, in digits; the controller passes an address, possibly empty. *)
Definition requestPasswordReset (code email ip : string) : AM unit :=
  user ← find_user email;
  match user with
  | None => mret tt
  | Some _ =>
      ok ← within_limit (resetReqKey email);
      if negb ok then mret tt
      else
        ok ← (if bool_decide (ip = "") then mret true else within_limit (resetReqKey ip));
        if negb ok then mret tt
        else
          rset (resetKey email) (Text (sha256_hex C code)) (resetTtl cfg) ;;
          modify (add_mail (email, code))
  end.

Definition verifyResetCode (email code : string) : AM bool :=
  stored ← rget (resetKey email);
  mret (match stored with
        | Some (Text h) => negb (bool_decide (h = "")) && bool_decide (h = sha256_hex C code)
        | _ => false
        end).

Definition with_password (h : string) (u : User) : User :=
  {| u_id := u_id u; u_username := u_username u; u_email := u_email u; u_password := Some h;
     u_role := u_role u; u_avatarKey := u_avatarKey u; u_banned := u_banned u |}.

Definition resetPassword (salt email code password : string) : AM bool :=
  valid ← verifyResetCode email code;
  if negb valid then mret false
  else
    user ← find_user email;
    match user with
    | None => mret false
    | Some u =>
        save_user (with_password (bcrypt_hash C salt password) u) ;;
        revokeAll (u_id u) ;;
        rdel (resetKey email) ;;
        mret true
    end.

(** ** The guards and the rate limit *)

Definition extractBearerToken (header : option string) : outcome string :=
  match header with
  | Some h => if String.prefix "Bearer " h then Ret (String.substring 7 (String.length h - 7) h)
              else Throw "Unauthorized"
  | None => Throw "Unauthorized"
  end.
Definition auth_guard (header : option string) (now : Z) : outcome string :=
  token ← extractBearerToken header;
  match verifyAccessToken token now with
  | None | Some "" => Throw "Unauthorized"
  | Some userId => Ret userId
  end.
(** The admin guard takes the secrets as configured, without trimming. *)
Definition admin_guard (header : option string) (now : Z) : outcome string :=
  token ← extractBearerToken header;
  match first_valid (jwtSecrets cfg) token now with
  | None => Throw "Unauthorized"
  | Some p => if p_admin p then Ret (p_sub p) else Throw "Forbidden"
  end.
Definition self_guard (userId param : string) : outcome unit :=
  if bool_decide (userId = param) then Ret tt else Throw "Forbidden".

Definition rate_limit (path ip deviceId : string) : AM unit :=
  let key := "rl:" +:+ path +:+ ":" +:+ ip +:+ ":" +:+ deviceId in
  count ← rincr key;
  when (count =? 1) (rexpire key (rateWindow cfg)) ;;
  throw_if (rateMax cfg <? count) "Too many requests".

(** ** users.service.ts *)

Definition user_by_id (id : string) : AM User :=
  user ← gets (λ s, find_row (λ u, bool_decide (u_id u = id)) (as_users s));
  match user with Some u => mret u | None => throw "User not found" end.

Definition create_user (id salt username : string) (avatarKey email password : option string) (role : option Role)
    : AM unit :=
  try_catch
    (save_user {| u_id := id; u_username := username; u_email := email;
                  u_password := match password with
                                | None | Some "" => None
                                | Some pw => Some (bcrypt_hash C salt pw)
                                end;
                  u_role := default Player role; u_avatarKey := avatarKey; u_banned := false |})
    (λ e, throw (if bool_decide (e = "duplicate key") then "User already exists" else e)).

Definition update_user (id : string) (username avatarKey : option string) : AM unit :=
  u ← user_by_id id;
  save_user {| u_id := u_id u; u_username := default (u_username u) username; u_email := u_email u;
               u_password := u_password u; u_role := u_role u;
               u_avatarKey := match avatarKey with Some a => Some a | None => u_avatarKey u end;
               u_banned := u_banned u |}.

Definition ban (id : string) : AM unit :=
  u ← user_by_id id;
  save_user {| u_id := u_id u; u_username := u_username u; u_email := u_email u; u_password := u_password u;
               u_role := u_role u; u_avatarKey := u_avatarKey u; u_banned := true |}.

Definition reset_users : AM unit := modify (on_users (delete_where (λ _, true))).
End Auth.
