(* ===== verification/AuthSafety.v ===== *)
(** * What sessions and resets promise

    A refresh token is good for one refresh; a reset ends every session of its
    user and its code; the mails of a window are limited; an access token passes
    the guard until it expires. The last section splits a refresh at its awaits. *)

From S2P Require Import Prelude Store JsText Auth.
#[local] Open Scope Z_scope.

(** ** Keys *)

Lemma append_inj p a b : p +:+ a = p +:+ b → a = b.
Proof. induction p as [|c p IH]; [done|]. intros [= H]. by apply IH. Qed.

Lemma refreshKey_inj t t' : refreshKey t = refreshKey t' → t = t'.
Proof. apply append_inj. Qed.

Lemma prefix_append p t : String.prefix p (p +:+ t) = true.
Proof. induction p as [|c p IH]; [by destruct t|]. simpl. by destruct (ascii_dec c c). Qed.

Lemma append_prefix p k : String.prefix p k = true → ∃ t, k = p +:+ t.
Proof.
  revert k. induction p as [|c p IH]; intros k; [by exists k|]. destruct k as [|d k]; [done|]. simpl.
  destruct (ascii_dec c d) as [->|]; [|done]. intros [t ->]%IH. by exists t.
Qed.

Section Safety.
Context {T : Type → Type} `{!TableOps T, !TableLaws T}.
Context {R : Type} `{!RedisOps R AuthValue, !RedisKeysOps R, !RedisLaws R AuthValue, !RedisKeysLaws R AuthValue}.
Context (C : Crypto) (cfg : AuthConfig).
Abbreviation Store := (AuthStore (T := T) (R := R)).
Implicit Types (s : Store).

(** ** Calls *)

Inductive AuthCall :=
| CRegister (id salt email password : string)
| CLogin (uuid : string) (now : Z) (email password : string)
| CRefresh (uuid : string) (now : Z) (token : string)
| CLogout (token : string)
| CRequestReset (code email ip : string)
| CVerifyCode (email code : string)
| CResetPassword (salt email code password : string)
| CRateLimit (path ip deviceId : string)
| CCreate (id salt username : string) (avatarKey email password : option string) (role : option Role)
| CUpdate (id : string) (username avatarKey : option string)
| CBan (id : string)
| CExpire (key : string).   (* Redis drops a key whose time is over *)

Definition exec_auth (c : AuthCall) : M Store unit :=
  match c with
  | CRegister id salt email pw => _ ← register C id salt email pw; mret tt
  | CLogin uuid now email pw => _ ← login C cfg uuid now email pw; mret tt
  | CRefresh uuid now t => _ ← refresh C cfg uuid now t; mret tt
  | CLogout t => logout cfg t
  | CRequestReset code email ip => requestPasswordReset C cfg code email ip
  | CVerifyCode email code => _ ← verifyResetCode C email code; mret tt
  | CResetPassword salt email code pw => _ ← resetPassword C salt email code pw; mret tt
  | CRateLimit path ip dev => rate_limit cfg path ip dev
  | CCreate id salt name av email pw role => create_user C id salt name av email pw role
  | CUpdate id name av => update_user id name av
  | CBan id => ban id
  | CExpire key => rdel key
  end.
Definition run_auth (cs : list AuthCall) s : Store := foldl (λ s c, (exec_auth c s).2) s cs.

(** The refresh token a call may issue. *)
Definition issues (c : AuthCall) : option string :=
  match c with CLogin uuid _ _ _ | CRefresh uuid _ _ => Some uuid | _ => None end.

(** ** A token without a session *)

Definition spent (t : string) s : Prop := r_get (refreshKey t) (as_redis s) = None.

Lemma modify_spent t f : (∀ r, r_get (refreshKey t) r = None → r_get (refreshKey t) (f r) = None) →
  preserves (spent t) (modify (on_redis f)).
Proof. intros Hf s. apply Hf. Qed.

Lemma rdel_spent t k : preserves (spent t) (rdel k).
Proof. apply modify_spent. intros r Hr. rewrite get_del. by case_decide. Qed.

Lemma rset_spent t k v ex : k ≠ refreshKey t → preserves (spent t) (rset k v ex).
Proof. intros Hk. apply modify_spent. intros r Hr. rewrite get_set. by rewrite decide_False. Qed.

Lemma rincr_spent t k : preserves (spent t) (rincr k).
Proof.
  intros s Hs. unfold rincr, spent in *. pose proof (get_counter k (refreshKey t) 1 (as_redis s)) as H.
  destruct (r_incrby k 1 (as_redis s)) as [c r]. simpl in *.
  destruct (r_get (refreshKey t) r) as [v|]; [|done]. by rewrite (H v eq_refl) in Hs.
Qed.

Lemma rexpire_spent t k n : preserves (spent t) (rexpire k n).
Proof. apply modify_spent. intros r Hr. by rewrite get_expire. Qed.

Lemma save_user_spent t u : preserves (spent t) (save_user u).
Proof. intros s Hs. unfold save_user. by case_match. Qed.

Lemma issue_spent t uuid now u a : uuid ≠ t → preserves (spent t) (issueTokens C cfg uuid now u a).
Proof.
  intros Hne. unfold issueTokens. preserve. apply rset_spent. intros ?%refreshKey_inj. done.
Qed.

Lemma zset_spent t (f : R → R) :
  (∀ r v, r_get (refreshKey t) (f r) = Some v → r_get (refreshKey t) r = Some v) →
  preserves (spent t) (modify (on_redis f)).
Proof.
  intros Hf. apply modify_spent. intros r Hr. destruct (r_get (refreshKey t) (f r)) eqn:E; [|done].
  apply Hf in E. congruence.
Qed.

Lemma keys_differ t :
  (∀ e, resetKey e ≠ refreshKey t) ∧ (∀ t', revokedKey t' ≠ refreshKey t) ∧ "metrics:online" ≠ refreshKey t.
Proof. by split_and!. Qed.

Lemma within_spent t k : preserves (spent t) (within_limit cfg k).
Proof. unfold within_limit. preserve; [apply rincr_spent | apply rexpire_spent]. Qed.

Lemma exec_spent t c : issues c ≠ Some t → preserves (spent t) (exec_auth c).
Proof.
  intros Hi. destruct (keys_differ t) as (Hreset & Hrev & Hon).
  destruct c; cbn [exec_auth issues] in *.
  - unfold register, find_user. preserve. apply save_user_spent.
  - unfold login, validateUser, find_user, recordLogin. preserve; [| | |by apply rset_spent|].
    + by apply preserves_modify.
    + apply zset_spent. intros r v. apply get_zadd.
    + apply zset_spent. intros r v. apply get_zrem.
    + apply issue_spent. congruence.
  - unfold refresh, rotate, rget, mark_revoked. preserve; [apply rdel_spent | |by apply rset_spent].
    apply issue_spent. congruence.
  - unfold logout, mark_revoked, revoke. preserve; [by apply rset_spent | apply rdel_spent].
  - unfold requestPasswordReset, find_user.
    preserve; try apply within_spent; [by apply rset_spent | by apply preserves_modify].
  - unfold verifyResetCode, rget. preserve.
  - unfold resetPassword, verifyResetCode, find_user, revokeAll, rget.
    preserve; [apply save_user_spent | apply rdel_spent | apply rdel_spent].
  - unfold rate_limit. preserve; [apply rincr_spent | apply rexpire_spent].
  - unfold create_user. preserve. apply save_user_spent.
  - unfold update_user, user_by_id. preserve. apply save_user_spent.
  - unfold ban, user_by_id. preserve. apply save_user_spent.
  - apply rdel_spent.
Qed.

Lemma run_spent t cs s : Forall (λ c, issues c ≠ Some t) cs → spent t s → spent t (run_auth cs s).
Proof.
  intros Hcs. apply foldl_invariant. intros s' c Hc Hs. apply exec_spent; [|done].
  rewrite Forall_forall in Hcs. by apply Hcs.
Qed.

(** ** One refresh *)

Lemma rotate_eq uuid now t s :
  rotate C cfg uuid now t s
  = match parseRefreshValue (r_get (refreshKey t) (as_redis s)) with
    | None => (Ret None, s)
    | Some (u, a) =>
        (rdel (refreshKey t) ;; tk ← issueTokens C cfg uuid now u a; mret (Some tk)) s
    end.
Proof.
  unfold rotate, rget, mbind, M_bind, gets.
  by destruct (parseRefreshValue _) as [[u a]|].
Qed.

Lemma issue_eq uuid now u a s :
  issueTokens C cfg uuid now u a s
  = match availableSecrets cfg with
    | [] => (Throw "JWT secrets not configured", s)
    | secret :: _ =>
        (Ret {| accessToken := jwt_sign C {| p_sub := u; p_admin := a |} secret now (accessTtl cfg);
                refreshToken := uuid |},
         on_redis (r_set (refreshKey uuid) (refreshValue u a) (refreshTtl cfg)) s)
    end.
Proof. unfold issueTokens. by destruct (availableSecrets cfg). Qed.

Lemma refresh_eq uuid now t s :
  refresh C cfg uuid now t s
  = if is_revoked (r_get (revokedKey t) (as_redis s)) then (Ret None, s)
    else match parseRefreshValue (r_get (refreshKey t) (as_redis s)) with
         | None => (Ret None, s)
         | Some (u, a) =>
             match availableSecrets cfg with
             | [] => (Throw "JWT secrets not configured", on_redis (r_del (refreshKey t)) s)
             | secret :: _ =>
                 (Ret (Some {| accessToken := jwt_sign C {| p_sub := u; p_admin := a |} secret now (accessTtl cfg);
                               refreshToken := uuid |}),
                  on_redis (λ r, r_set (revokedKey t) (Text "1") (refreshTtl cfg)
                     (r_set (refreshKey uuid) (refreshValue u a) (refreshTtl cfg) (r_del (refreshKey t) r))) s)
             end
         end.
Proof.
  unfold refresh, mbind at 1, M_bind at 1, rget, gets.
  destruct (is_revoked _); [done|]. unfold mbind at 1, M_bind at 1. rewrite rotate_eq.
  destruct (parseRefreshValue _) as [[u a]|]; [|done].
  unfold rdel, modify, mbind at 1, M_bind at 1. unfold mbind at 1, M_bind at 1. rewrite issue_eq.
  by destruct (availableSecrets cfg).
Qed.

Lemma spent_refresh uuid now t s : spent t s → refresh C cfg uuid now t s = (Ret None, s).
Proof. unfold spent. intros Hs. rewrite refresh_eq, Hs. by destruct (is_revoked _). Qed.

(** C14: A refresh token is good for one refresh. Once a token was exchanged (also when signing then
    fails) or logged out, no later refresh with it succeeds, whatever calls are made in between
    (logins, refreshes, logouts, resets, requests, bans) and whatever keys Redis lets expire, as long
    as the generator does not draw the same token again. *)
Theorem refresh_token_used_once t uuid now cs uuid' now' s :
  let refreshed := (refresh C cfg uuid now t s).2 in
  let out := (logout cfg t s).2 in
  uuid ≠ t → Forall (λ c, issues c ≠ Some t) cs →
  (refresh C cfg uuid' now' t (run_auth cs out)).1 = Ret None
  ∧ ((refresh C cfg uuid now t s).1 ≠ Ret None →
     (refresh C cfg uuid' now' t (run_auth cs refreshed)).1 = Ret None).
Proof.
  intros refreshed out Hne Hcs. destruct (keys_differ t) as (_ & Hrev & _). split.
  - rewrite spent_refresh; [done|]. apply run_spent; [done|]. unfold spent, out.
    unfold logout, mark_revoked, revoke, rset, rdel, modify, mbind, M_bind. cbn. by rewrite get_del, decide_True.
  - intros Hok. rewrite spent_refresh; [done|]. apply run_spent; [done|]. unfold refreshed, spent. revert Hok.
    rewrite refresh_eq. destruct (is_revoked _); [done|].
    destruct (parseRefreshValue _) as [[u a]|]; [|done]. intros _.
    destruct (availableSecrets cfg) as [|secret rest]; cbn [as_redis on_redis fst snd].
    + by rewrite get_del, decide_True.
    + rewrite !get_set, get_del, decide_False by (intros E; by apply (Hrev t)).
      rewrite decide_False by (by intros ->%refreshKey_inj). by rewrite decide_True.
Qed.

(** A refresh looks only at Redis. Whatever happens to the users table (a ban, a lost admin role, the
    account deleted), a refresh answers the same and leaves the same sessions: the new access token
    carries the role the session was opened with, so neither a ban nor a demotion ends a session or its
    admin rights. *)
Lemma refresh_ignores_the_account uuid now t users s :
  let s' := on_users (λ _, users) s in
  (refresh C cfg uuid now t s').1 = (refresh C cfg uuid now t s).1
  ∧ as_redis (refresh C cfg uuid now t s').2 = as_redis (refresh C cfg uuid now t s).2
  ∧ ∀ u a secret rest,
      is_revoked (r_get (revokedKey t) (as_redis s)) = false →
      r_get (refreshKey t) (as_redis s) = Some (refreshValue u a) → u ≠ "" →
      availableSecrets cfg = secret :: rest →
      (refresh C cfg uuid now t s').1
      = Ret (Some {| accessToken := jwt_sign C {| p_sub := u; p_admin := a |} secret now (accessTtl cfg);
                     refreshToken := uuid |})
      ∧ r_get (refreshKey uuid) (as_redis (refresh C cfg uuid now t s').2) = Some (refreshValue u a).
Proof.
  intros s'. subst s'. rewrite !refresh_eq. cbn [as_redis on_users].
  split; [|split].
  - destruct (is_revoked _); [done|]. destruct (parseRefreshValue _) as [[u a]|]; [|done].
    by destruct (availableSecrets cfg).
  - destruct (is_revoked _); [done|]. destruct (parseRefreshValue _) as [[u a]|]; [|done].
    by destruct (availableSecrets cfg).
  - intros u a secret rest -> -> Hu ->.
    assert (parseRefreshValue (Some (refreshValue u a)) = Some (u, a)) as -> by (by destruct a, u).
    split; [done|]. destruct (keys_differ uuid) as (_ & Hrev & _). cbn [as_redis on_redis on_users fst snd].
    rewrite !get_set, decide_False by (intros E; by apply (Hrev t)). by rewrite decide_True.
Qed.

(** ** A password reset *)

Definition session_user (t : string) s : option string :=
  fst <$> parseRefreshValue (r_get (refreshKey t) (as_redis s)).

Lemma drop_keys u keys s :
  let f := λ key, (value ← rget key;
                   when (bool_decide (fst <$> parseRefreshValue value = Some u)) (rdel key)) : M Store unit in
  let s' := (for_each keys f s).2 in
  (for_each keys f s).1 = Ret tt ∧ as_users s' = as_users s ∧ as_mails s' = as_mails s
  ∧ ∀ k, r_get k (as_redis s')
         = if decide (k ∈ keys ∧ fst <$> parseRefreshValue (r_get k (as_redis s)) = Some u) then None
           else r_get k (as_redis s).
Proof.
  intros f s'. subst s'. revert s. induction keys as [|key keys IH]; intros s.
  { split_and!; [done.. |]. intros k. rewrite decide_False; [done|]. by intros [?%elem_of_nil _]. }
  cbn [for_each].
  assert (f key s = (Ret tt, if decide (fst <$> parseRefreshValue (r_get key (as_redis s)) = Some u)
                             then on_redis (r_del key) s else s)) as Hf.
  { unfold f, rget, mbind, M_bind, gets, when, rdel, modify. by repeat case_decide || case_bool_decide. }
  unfold mbind, M_bind. rewrite Hf.
  destruct (IH (if decide (fst <$> parseRefreshValue (r_get key (as_redis s)) = Some u)
                then on_redis (r_del key) s else s)) as (H1 & H2 & H3 & H4).
  split_and!; [done | | |].
  - rewrite H2. by case_decide.
  - rewrite H3. by case_decide.
  - intros k. rewrite H4.
    destruct (decide (fst <$> parseRefreshValue (r_get key (as_redis s)) = Some u)) as [Hd|Hd].
    + cbn [as_redis on_redis]. rewrite get_del. destruct (decide (k = key)) as [->|Hne].
      * rewrite (decide_True (P := key ∈ key :: keys ∧ _)) by (split; [by left | done]). by case_decide.
      * apply decide_ext. rewrite elem_of_cons. tauto.
    + apply decide_ext. rewrite elem_of_cons. split; [naive_solver|]. intros [[->|?] ?]; [done | done].
Qed.

Lemma revokeAll_eq u s :
  revokeAll u s = for_each (r_keys "refresh:" (as_redis s)) (λ key, value ← rget key;
    when (bool_decide (fst <$> parseRefreshValue value = Some u)) (rdel key)) s.
Proof. reflexivity. Qed.

Lemma revokeAll_spec u s :
  let s' := (revokeAll u s).2 in
  (revokeAll u s).1 = Ret tt ∧ as_users s' = as_users s ∧ as_mails s' = as_mails s
  ∧ (∀ t, r_get (refreshKey t) (as_redis s')
          = if decide (session_user t s = Some u) then None else r_get (refreshKey t) (as_redis s))
  ∧ ∀ k, String.prefix "refresh:" k = false → r_get k (as_redis s') = r_get k (as_redis s).
Proof.
  intros s'. subst s'. rewrite revokeAll_eq.
  destruct (drop_keys u (r_keys "refresh:" (as_redis s)) s) as (H1 & H2 & H3 & H4). split_and!; [done..| |].
  - intros t. rewrite H4. apply decide_ext. unfold session_user. split; [by intros []|]. intros Ht. split; [|done].
    destruct (r_get (refreshKey t) (as_redis s)) as [v|] eqn:E; [|done].
    apply (keys_all _ _ _ _ E), prefix_append.
  - intros k Hk. rewrite H4, decide_False; [done|]. intros [Hin%keys_prefix _]. congruence.
Qed.

Lemma verify_eq email code s :
  verifyResetCode C email code s
  = (Ret match r_get (resetKey email) (as_redis s) with
         | Some (Text h) => negb (bool_decide (h = "")) && bool_decide (h = sha256_hex C code)
         | _ => false
         end, s).
Proof. reflexivity. Qed.

Lemma resetPassword_eq salt email code pw s :
  resetPassword C salt email code pw s
  = if (match r_get (resetKey email) (as_redis s) with
        | Some (Text h) => negb (bool_decide (h = "")) && bool_decide (h = sha256_hex C code)
        | _ => false
        end)
    then match find_row (λ u, bool_decide (u_email u = Some email)) (as_users s) with
         | None => (Ret false, s)
         | Some u =>
             (save_user (with_password (bcrypt_hash C salt pw) u) ;; revokeAll (u_id u) ;;
              rdel (resetKey email) ;; mret true) s
         end
    else (Ret false, s).
Proof.
  unfold resetPassword. unfold mbind at 1, M_bind at 1. rewrite verify_eq.
  destruct (match r_get (resetKey email) (as_redis s) with Some (Text h) => _ | _ => _ end); [|done].
  cbn [negb]. unfold mbind at 1, M_bind at 1, find_user, gets.
  by destruct (find_row _ (as_users s)).
Qed.

Lemma save_then {A} u (k : unit → M Store A) s :
  (save_user u ≫= k) s
  = if existsb (λ u', bool_decide (u_id u' ≠ u_id u) && row_clash u' u) (rows (as_users s))
    then (Throw "duplicate key", s) else k tt (on_users (save_row u) s).
Proof. unfold mbind, M_bind, save_user. by destruct (existsb _ _). Qed.

(** A password reset ends what was there before. It succeeds only with the code that was mailed; then
    the user has the new password, every refresh token of the user is dead, the sessions of all others
    are as before, and the code is used up. A reset that answers false, or fails, changes nothing. *)
Lemma reset_ends_sessions salt email code pw s :
  CryptoLaws C →
  let s' := (resetPassword C salt email code pw s).2 in
  match (resetPassword C salt email code pw s).1 with
  | Ret true =>
    r_get (resetKey email) (as_redis s) = Some (Text (sha256_hex C code))
    ∧ (∀ code', (verifyResetCode C email code' s').1 = Ret false)
    ∧ ∃ u, u ∈ rows (as_users s) ∧ u_email u = Some email
        ∧ (∃ h, with_password h u ∈ rows (as_users s') ∧ bcrypt_compare C pw h = true)
        ∧ ∀ t, if decide (session_user t s = Some (u_id u))
               then ∀ uuid now, (refresh C cfg uuid now t s').1 = Ret None
               else r_get (refreshKey t) (as_redis s') = r_get (refreshKey t) (as_redis s)
  | _ => s' = s
  end.
Proof.
  intros HC s'. subst s'. rewrite resetPassword_eq.
  destruct (r_get (resetKey email) (as_redis s)) as [[h|?]|] eqn:Eh; [|done..].
  destruct (negb (bool_decide (h = "")) && bool_decide (h = sha256_hex C code)) eqn:Ev; [|done].
  apply andb_true_iff in Ev as [_ ->%bool_decide_eq_true].
  destruct (find_row _ (as_users s)) as [u|] eqn:Eu; [|done].
  apply find_row_Some in Eu as [Hu He%bool_decide_eq_true].
  set (u' := with_password (bcrypt_hash C salt pw) u).
  rewrite save_then. destruct (existsb _ _); [done|].
  set (s1 := on_users (save_row u') s). unfold mbind, M_bind, mret, M_ret.
  destruct (revokeAll_spec (u_id u) s1) as (H1 & H2 & _ & H3 & _).
  destruct (revokeAll (u_id u) s1) as [o2 s2]. cbn [fst snd] in *. subst o2.
  unfold rdel, modify. cbn [fst snd]. split; [done|]. split.
  { intros code'. rewrite verify_eq. cbn [as_redis on_redis fst]. by rewrite get_del, decide_True. }
  exists u. split; [done|]. split; [done|]. split.
  { exists (bcrypt_hash C salt pw). split; [|apply HC]. cbn [as_users on_redis]. rewrite H2.
    cbn [as_users on_users s1]. rewrite rows_save. by left. }
  intros t. specialize (H3 t). destruct (keys_differ t) as (Hk & _ & _).
  assert (r_get (refreshKey t) (r_del (resetKey email) (as_redis s2))
          = if decide (session_user t s = Some (u_id u)) then None else r_get (refreshKey t) (as_redis s)) as Ht.
  { rewrite get_del, decide_False by (intros E; by apply (Hk email)). exact H3. }
  case_decide as Hs.
  - intros uuid now. rewrite spent_refresh; [done|]. exact Ht.
  - exact Ht.
Qed.

(** ** Reset mails *)

Definition mails_to (email : string) s : nat := length (filter (λ m, m.1 = email) (as_mails s)).
Definition mails_ok (email : string) s : Prop :=
  Z.of_nat (mails_to email s) <= Z.max 0 (resetReqLimit cfg)
  ∧ Z.of_nat (mails_to email s) <= r_count (resetReqKey email) (as_redis s).

Lemma mails_redis email f :
  (∀ r, r_count (resetReqKey email) r <= r_count (resetReqKey email) (f r)) →
  preserves (mails_ok email) (modify (on_redis f)).
Proof.
  intros Hf s [H1 H2]. split; [done|]. specialize (Hf (as_redis s)). cbn. unfold mails_to in *. cbn in *. lia.
Qed.

Lemma rset_mails email k v ex : resetReqKey email ≠ k → preserves (mails_ok email) (rset k v ex).
Proof. intros Hk. apply mails_redis. intros r. by rewrite count_set. Qed.

Lemma rdel_mails email k : resetReqKey email ≠ k → preserves (mails_ok email) (rdel k).
Proof. intros Hk. apply mails_redis. intros r. by rewrite count_del, decide_False. Qed.

Lemma rexpire_mails email k n : preserves (mails_ok email) (rexpire k n).
Proof. apply mails_redis. intros r. by rewrite count_expire. Qed.

Lemma rincr_eq k s :
  rincr k s = (Ret (r_count k (as_redis s) + 1), on_redis (λ r, (r_incrby k 1 r).2) s).
Proof.
  unfold rincr. pose proof (incrby_fst k 1 (as_redis s)) as H. unfold on_redis.
  by destruct (r_incrby k 1 (as_redis s)); simpl in *; subst.
Qed.

Lemma incr_mails email k : preserves (mails_ok email) (rincr k).
Proof.
  intros s Hs. rewrite rincr_eq. apply (mails_redis email (λ r, (r_incrby k 1 r).2)); [|done].
  intros r. rewrite count_incrby. case_decide as E; [rewrite E; lia | done].
Qed.

Lemma within_mails email k : preserves (mails_ok email) (within_limit cfg k).
Proof. unfold within_limit. preserve; [apply incr_mails | apply rexpire_mails]. Qed.

Lemma save_user_mails email u : preserves (mails_ok email) (save_user u).
Proof. intros s Hs. unfold save_user. by case_match. Qed.

Definition counted (k : string) (s : Store) : R → R := λ r,
  if r_count k (as_redis s) + 1 =? 1 then (r_expire k (resetReqWindow cfg) (r_incrby k 1 r).2).2 else (r_incrby k 1 r).2.

Lemma within_eq k s :
  within_limit cfg k s = (Ret (r_count k (as_redis s) + 1 <=? resetReqLimit cfg), on_redis (counted k s) s).
Proof.
  unfold within_limit, mbind, M_bind. rewrite rincr_eq. unfold counted, when, rexpire, modify, mret, M_ret.
  by destruct (r_count k (as_redis s) + 1 =? 1).
Qed.

Lemma count_counted k k' s r :
  r_count k' (counted k s r) = if decide (k' = k) then r_count k r + 1 else r_count k' r.
Proof. unfold counted. destruct (_ =? 1); rewrite ?count_expire; apply count_incrby. Qed.

Lemma request_eq code e ip s :
  requestPasswordReset C cfg code e ip s
  = match find_row (λ u, bool_decide (u_email u = Some e)) (as_users s) with
    | None => (Ret tt, s)
    | Some _ =>
        let s1 := on_redis (counted (resetReqKey e) s) s in
        if r_count (resetReqKey e) (as_redis s) + 1 <=? resetReqLimit cfg then
          let s2 := if bool_decide (ip = "") then s1 else on_redis (counted (resetReqKey ip) s1) s1 in
          if bool_decide (ip = "") || (r_count (resetReqKey ip) (as_redis s1) + 1 <=? resetReqLimit cfg) then
            (Ret tt, add_mail (e, code) (on_redis (r_set (resetKey e) (Text (sha256_hex C code)) (resetTtl cfg)) s2))
          else (Ret tt, s2)
        else (Ret tt, s1)
    end.
Proof.
  unfold requestPasswordReset. unfold mbind at 1, M_bind at 1, find_user, gets.
  destruct (find_row _ (as_users s)) as [u|]; [|done]. cbv zeta.
  unfold mbind at 1, M_bind at 1. rewrite within_eq.
  destruct (r_count (resetReqKey e) (as_redis s) + 1 <=? resetReqLimit cfg); [|done]. cbn [negb].
  set (s1 := on_redis (counted (resetReqKey e) s) s).
  unfold mbind at 1, M_bind at 1. case_bool_decide as Hip; [done|]. rewrite within_eq.
  by destruct (r_count (resetReqKey ip) (as_redis s1) + 1 <=? resetReqLimit cfg).
Qed.

Lemma request_mails email code e ip : preserves (mails_ok email) (requestPasswordReset C cfg code e ip).
Proof.
  intros s [H1 H2]. rewrite request_eq. destruct (find_row _ _); [|done]. cbv zeta.
  set (s1 := on_redis (counted (resetReqKey e) s) s).
  assert (as_mails s1 = as_mails s ∧ r_count (resetReqKey email) (as_redis s) <= r_count (resetReqKey email) (as_redis s1)
    ∧ (e = email → r_count (resetReqKey email) (as_redis s1) = r_count (resetReqKey e) (as_redis s) + 1))
    as (Hm1 & Hc1 & He1).
  { split; [done|]. cbn. rewrite count_counted. split; [case_decide as E; [rewrite E|]; lia|].
    intros ->. by rewrite decide_True. }
  set (s2 := if bool_decide (ip = "") then s1 else on_redis (counted (resetReqKey ip) s1) s1).
  assert (as_mails s2 = as_mails s ∧ r_count (resetReqKey email) (as_redis s1)
          <= r_count (resetReqKey email) (as_redis s2)) as [Hm2 Hc2].
  { unfold s2. case_bool_decide; [done|]. split; [done|]. cbn [as_redis on_redis]. rewrite count_counted.
    case_decide as E; [rewrite <- E; lia | lia]. }
  destruct (Z.leb_spec (r_count (resetReqKey e) (as_redis s) + 1) (resetReqLimit cfg)) as [Hl|_].
  - destruct (_ || _); unfold mails_ok, mails_to in *; cbn [snd as_mails add_mail on_redis as_redis] in *; rewrite Hm2.
    + rewrite filter_app, length_app, filter_cons. cbn [fst].
      rewrite (count_set (resetKey e) (resetReqKey email)) by done. rewrite filter_nil.
      destruct (decide (e = email)) as [->|He]; cbn [length]; [specialize (He1 eq_refl)|]; lia.
    + lia.
  - unfold mails_ok, mails_to in *. cbn [snd]. rewrite Hm1. lia.
Qed.

Lemma revokeAll_mails email u : preserves (mails_ok email) (revokeAll u).
Proof.
  intros s Hs. rewrite revokeAll_eq.
  assert (Forall (λ k, resetReqKey email ≠ k) (r_keys "refresh:" (as_redis s))) as Hk.
  { apply Forall_forall. intros k Hk <-. by apply (keys_prefix (V := AuthValue)) in Hk. }
  revert s Hs Hk. intros s Hs Hk. rewrite Forall_forall in Hk. revert Hs. generalize s at 1 3 as s0.
  apply preserves_for_each. intros k Hin. unfold rget. preserve. apply rdel_mails. by apply Hk.
Qed.

Lemma exec_mails email c :
  c ≠ CExpire (resetReqKey email) → preserves (mails_ok email) (exec_auth c).
Proof.
  intros Hc. destruct c; cbn [exec_auth].
  - unfold register, find_user. preserve. apply save_user_mails.
  - unfold login, validateUser, find_user, recordLogin, issueTokens.
    preserve; [ | | |by apply rset_mails|by apply rset_mails].
    + by apply preserves_modify.
    + apply mails_redis. intros r. by rewrite count_zadd.
    + apply mails_redis. intros r. by rewrite count_zrem.
  - unfold refresh, rotate, rget, mark_revoked, issueTokens.
    preserve; [by apply rdel_mails | by apply rset_mails | by apply rset_mails].
  - unfold logout, mark_revoked, revoke. preserve; [by apply rset_mails | by apply rdel_mails].
  - apply request_mails.
  - unfold verifyResetCode, rget. preserve.
  - unfold resetPassword, verifyResetCode, find_user, rget. preserve; [apply save_user_mails | apply revokeAll_mails | by apply rdel_mails].
  - unfold rate_limit. preserve; [apply incr_mails | apply rexpire_mails].
  - unfold create_user. preserve. apply save_user_mails.
  - unfold update_user, user_by_id. preserve. apply save_user_mails.
  - unfold ban, user_by_id. preserve. apply save_user_mails.
  - apply rdel_mails. congruence.
Qed.

(** The mails of a window are limited. From a state in which none was counted, any run of calls sends
    at most [resetReqLimit] reset codes to an address, as long as Redis does not drop its counter
    (which starts the next window). *)
Lemma reset_mails_limited email cs s :
  mails_to email s = O → 0 <= r_count (resetReqKey email) (as_redis s) →
  CExpire (resetReqKey email) ∉ cs →
  Z.of_nat (mails_to email (run_auth cs s)) <= Z.max 0 (resetReqLimit cfg).
Proof.
  intros H0 Hc Hcs. cut (mails_ok email (run_auth cs s)); [by intros []|].
  apply (foldl_invariant (mails_ok email)); [|unfold mails_ok; rewrite H0; lia].
  intros s' c Hin. apply exec_mails. intros ->. done.
Qed.

(** ** Access tokens *)

Lemma substring_all x : String.substring 0 (String.length x) x = x.
Proof. induction x as [|c x IH]; [done|]. simpl. by rewrite IH. Qed.

Lemma substring_append p x :
  String.substring (String.length p) (String.length (p +:+ x) - String.length p) (p +:+ x) = x.
Proof. induction p as [|c p IH]; [|exact IH]. simpl. rewrite Nat.sub_0_r. apply substring_all. Qed.

Lemma bearer_token x : extractBearerToken (Some ("Bearer " +:+ x)) = Ret x.
Proof.
  unfold extractBearerToken. rewrite prefix_append. f_equal. apply (substring_append "Bearer ").
Qed.

(** The access token of a login or a refresh is accepted until it expires: for [accessTtl] seconds
    the guard of the routes lets its bearer in as the user it was issued for. The guard of the admin
    routes, which does not trim the secrets, agrees when the first secret has no blanks around it, and
    then lets admins in and nobody else. *)
Lemma access_token_accepted uuid now u a s t now' :
  CryptoLaws C → (issueTokens C cfg uuid now u a s).1 = Ret t → u ≠ "" → now' < now + accessTtl cfg →
  let header := Some ("Bearer " +:+ accessToken t) in
  auth_guard C cfg header now' = Ret u
  ∧ ∀ secret rest, jwtSecrets cfg = secret :: rest → js_trim secret = secret → secret ≠ "" →
      admin_guard C cfg header now' = if a then Ret u else Throw "Forbidden".
Proof.
  intros HC Ht Hu Hnow header. rewrite issue_eq in Ht.
  destruct (availableSecrets cfg) as [|secret0 rest0] eqn:E; [done|]. injection Ht as <-. cbn [accessToken] in header.
  assert (∀ sec l, first_valid C (sec :: l) (jwt_sign C {| p_sub := u; p_admin := a |} sec now (accessTtl cfg)) now'
                   = Some {| p_sub := u; p_admin := a |}) as Hv.
  { intros sec l. cbn [first_valid]. by rewrite (verify_sign _ HC) by done. }
  split.
  - unfold auth_guard, header. rewrite bearer_token. cbn [mbind outcome_bind]. unfold verifyAccessToken.
    rewrite E, Hv. cbn. by destruct u.
  - intros secret rest Hs Htrim Hne. unfold admin_guard, header. rewrite bearer_token. cbn [mbind outcome_bind].
    assert (secret0 = secret) as ->.
    { unfold availableSecrets in E. rewrite Hs, fmap_cons, filter_cons, Htrim in E.
      rewrite decide_True in E by done. by injection E. }
    rewrite Hs, Hv. by destruct a.
Qed.

(** ** A refresh, await by await *)

Inductive RefreshPc :=
| PStart | PChecked | PRead (userId : string) (admin : bool) | PDeleted (userId : string) (admin : bool)
| PIssued (t : Tokens) | PDone (r : option Tokens).

(** Between two of these steps other requests run. *)
Definition refresh_step (uuid : string) (now : Z) (token : string) (pc : RefreshPc) : M Store RefreshPc :=
  match pc with
  | PStart => v ← rget (revokedKey token); mret (if is_revoked v then PDone None else PChecked)
  | PChecked =>
      v ← rget (refreshKey token);
      mret match parseRefreshValue v with None => PDone None | Some (u, a) => PRead u a end
  | PRead u a => rdel (refreshKey token) ;; mret (PDeleted u a)
  | PDeleted u a => t ← issueTokens C cfg uuid now u a; mret (PIssued t)
  | PIssued t => mark_revoked cfg token ;; mret (PDone (Some t))
  | PDone r => mret (PDone r)
  end.
Fixpoint refresh_steps (n : nat) uuid now token (pc : RefreshPc) : M Store RefreshPc :=
  match n with O => mret pc | S n => pc' ← refresh_step uuid now token pc; refresh_steps n uuid now token pc' end.

Lemma steps_S n uuid now token pc s :
  refresh_steps (S n) uuid now token pc s
  = match refresh_step uuid now token pc s with
    | (Ret pc', s') => refresh_steps n uuid now token pc' s'
    | (Throw e, s') => (Throw e, s')
    end.
Proof. reflexivity. Qed.

Lemma start_step uuid now t s :
  refresh_step uuid now t PStart s
  = (Ret (if is_revoked (r_get (revokedKey t) (as_redis s)) then PDone None else PChecked), s).
Proof. reflexivity. Qed.

Lemma checked_step uuid now t s :
  refresh_step uuid now t PChecked s
  = (Ret match parseRefreshValue (r_get (refreshKey t) (as_redis s)) with
         | None => PDone None | Some (u, a) => PRead u a end, s).
Proof. reflexivity. Qed.

(** Alone, the five steps are the refresh. *)
Lemma refresh_alone uuid now t s :
  refresh_steps 5 uuid now t PStart s = (r ← refresh C cfg uuid now t; mret (PDone r)) s.
Proof.
  change ((r ← refresh C cfg uuid now t; mret (PDone r)) s) with
    (match refresh C cfg uuid now t s with (Ret r, s') => (Ret (PDone r), s') | (Throw e, s') => (Throw e, s') end).
  rewrite refresh_eq, steps_S, start_step.
  destruct (is_revoked _); [done|]. cbv iota beta. rewrite steps_S, checked_step.
  destruct (parseRefreshValue _) as [[u a]|]; [|done]. cbv iota beta. rewrite steps_S.
  change (refresh_step uuid now t (PRead u a) s) with (Ret (PDeleted u a), on_redis (r_del (refreshKey t)) s).
  cbv iota beta. rewrite steps_S. cbn [refresh_step].
  unfold mbind at 1, M_bind at 1. rewrite issue_eq. by destruct (availableSecrets cfg).
Qed.

Record Request := { rq_uuid : string; rq_now : Z; rq_pc : RefreshPc }.

(** Requests that refresh the same token; the schedule says whose step is next. *)
Definition step_request (token : string) (st : list Request * Store) (i : nat) : list Request * Store :=
  match st.1 !! i with
  | None => st
  | Some rq =>
      let '(o, s') := refresh_step (rq_uuid rq) (rq_now rq) token (rq_pc rq) st.2 in
      match o with
      | Ret pc => (<[i := {| rq_uuid := rq_uuid rq; rq_now := rq_now rq; rq_pc := pc |}]> st.1, s')
      | Throw _ => (st.1, s')
      end
  end.
Definition run_requests (token : string) (sched : list nat) (st : list Request * Store) : list Request * Store :=
  foldl (step_request token) st sched.

Lemma step_ok token reqs s i rq pc s' :
  reqs !! i = Some rq → refresh_step (rq_uuid rq) (rq_now rq) token (rq_pc rq) s = (Ret pc, s') →
  step_request token (reqs, s) i = (<[i := {| rq_uuid := rq_uuid rq; rq_now := rq_now rq; rq_pc := pc |}]> reqs, s').
Proof. intros Hi Hs. unfold step_request. cbn [fst snd]. by rewrite Hi, Hs. Qed.

(** The last three steps of one request, with nothing between them. *)
Lemma finish_request token reqs s i id now u a secret rest :
  reqs !! i = Some {| rq_uuid := id; rq_now := now; rq_pc := PRead u a |} → availableSecrets cfg = secret :: rest →
  let tk := {| accessToken := jwt_sign C {| p_sub := u; p_admin := a |} secret now (accessTtl cfg);
               refreshToken := id |} in
  run_requests token [i; i; i] (reqs, s)
  = (<[i := {| rq_uuid := id; rq_now := now; rq_pc := PDone (Some tk) |}]> reqs,
     on_redis (λ r, r_set (revokedKey token) (Text "1") (refreshTtl cfg)
                 (r_set (refreshKey id) (refreshValue u a) (refreshTtl cfg) (r_del (refreshKey token) r))) s).
Proof.
  intros Hi Hsec tk. unfold run_requests. cbn [foldl]. pose proof (lookup_lt_Some _ _ _ Hi) as Hlt.
  rewrite (step_ok _ _ _ _ _ (PDeleted u a) (on_redis (r_del (refreshKey token)) s) Hi) by done. cbn [rq_uuid rq_now].
  rewrite (step_ok _ _ _ _ {| rq_uuid := id; rq_now := now; rq_pc := PDeleted u a |} (PIssued tk)
    (on_redis (r_set (refreshKey id) (refreshValue u a) (refreshTtl cfg)) (on_redis (r_del (refreshKey token)) s))).
  2: by rewrite list_lookup_insert_eq.
  2: { cbn [rq_uuid rq_now rq_pc refresh_step]. unfold mbind, M_bind. by rewrite issue_eq, Hsec. }
  rewrite (step_ok _ _ _ _ {| rq_uuid := id; rq_now := now; rq_pc := PIssued tk |} (PDone (Some tk))
    (on_redis (r_set (revokedKey token) (Text "1") (refreshTtl cfg))
      (on_redis (r_set (refreshKey id) (refreshValue u a) (refreshTtl cfg)) (on_redis (r_del (refreshKey token)) s))));
    [|by rewrite list_lookup_insert_eq by (by rewrite length_insert)|done].
  by rewrite !list_insert_insert_eq.
Qed.

(** Two refreshes of one token that overlap both succeed. When the second reads the session before
    the first has deleted it, both answer with tokens, and both new refresh tokens are live sessions
    of the same user: the token was good for two. *)
Lemma overlapping_refreshes_both_succeed t u a uuid uuid' now s secret rest :
  is_revoked (r_get (revokedKey t) (as_redis s)) = false →
  parseRefreshValue (r_get (refreshKey t) (as_redis s)) = Some (u, a) →
  availableSecrets cfg = secret :: rest → uuid ≠ uuid' → uuid ≠ t → uuid' ≠ t →
  let new id := {| rq_uuid := id; rq_now := now; rq_pc := PStart |} in
  let '(reqs, s') := run_requests t [0; 1; 0; 1; 0; 0; 0; 1; 1; 1]%nat ([new uuid; new uuid'], s) in
  (∃ t1 t2, rq_pc <$> reqs = [PDone (Some t1); PDone (Some t2)]
            ∧ refreshToken t1 = uuid ∧ refreshToken t2 = uuid')
  ∧ r_get (refreshKey uuid) (as_redis s') = Some (refreshValue u a)
  ∧ r_get (refreshKey uuid') (as_redis s') = Some (refreshValue u a).
Proof.
  intros Hrev Hses Hsec Hne Ht Ht' new.
  assert (∀ k, revokedKey t ≠ refreshKey k) as Hk by (intros k; by apply keys_differ).
  change (run_requests t [0; 1; 0; 1; 0; 0; 0; 1; 1; 1]%nat ([new uuid; new uuid'], s)) with
    (run_requests t [1; 1; 1]%nat (run_requests t [0; 0; 0]%nat
      (run_requests t [0; 1; 0; 1]%nat ([new uuid; new uuid'], s)))).
  assert (run_requests t [0; 1; 0; 1]%nat ([new uuid; new uuid'], s)
    = ([{| rq_uuid := uuid; rq_now := now; rq_pc := PRead u a |};
        {| rq_uuid := uuid'; rq_now := now; rq_pc := PRead u a |}], s)) as ->.
  { unfold run_requests. cbn [foldl].
    rewrite (step_ok _ _ s 0 (new uuid) PChecked s) by (done || by rewrite start_step, Hrev).
    rewrite (step_ok _ _ s 1 (new uuid') PChecked s) by (done || by rewrite start_step, Hrev).
    rewrite (step_ok _ _ s 0 {| rq_uuid := uuid; rq_now := now; rq_pc := PChecked |} (PRead u a) s)
      by (done || by rewrite checked_step, Hses).
    by rewrite (step_ok _ _ s 1 {| rq_uuid := uuid'; rq_now := now; rq_pc := PChecked |} (PRead u a) s)
      by (done || by rewrite checked_step, Hses). }
  rewrite (finish_request t _ s 0 uuid now u a secret rest) by done.
  rewrite (finish_request t _ _ 1 uuid' now u a secret rest) by done.
  cbn [as_redis on_redis]. split; [|split].
  - eexists _, _. split; [reflexivity|]. done.
  - rewrite get_set, decide_False by done. rewrite get_set, decide_False by (by intros ?%refreshKey_inj).
    rewrite get_del, decide_False by (by intros ?%refreshKey_inj).
    rewrite get_set, decide_False by done. by rewrite get_set, decide_True.
  - rewrite get_set, decide_False by done. by rewrite get_set, decide_True.
Qed.
End Safety.

(** ** Concrete runs *)

Definition crypto0 : Crypto := {|
  bcrypt_hash _ pw := pw; bcrypt_compare pw h := bool_decide (pw = h); sha256_hex code := code;
  jwt_sign p _ _ _ := (if p_admin p then "A" else "U") +:+ p_sub p;
  jwt_verify token _ _ := match token with
    | String "A" u => Some {| p_sub := u; p_admin := true |}
    | String "U" u => Some {| p_sub := u; p_admin := false |}
    | _ => None
    end |}.
Lemma crypto0_laws : CryptoLaws crypto0.
Proof. split; [intros; simpl; by rewrite bool_decide_true | intros [u [|]]; done]. Qed.

Definition cfg0 : AuthConfig := {|
  jwtSecrets := ["k"]; accessTtl := 900; refreshTtl := 604800; resetReqLimit := 5; resetReqWindow := 3600;
  resetTtl := 900; rateWindow := 60; rateMax := 5 |}.
Definition auth0 : AuthStore (T := list) (R := map_redis AuthValue) :=
  {| as_users := []; as_redis := MapRedis ∅ ∅ ∅; as_mails := []; as_logins := [] |}.
(** One user with a session under the token t, and a reset code. *)
Definition auth1 : AuthStore :=
  run_auth crypto0 cfg0
    [CRegister "u1" "x" "a@b.c" "secret"; CLogin "t" 100 "a@b.c" "secret"; CRequestReset "123456" "a@b.c" "1.2.3.4"] auth0.

Lemma refresh_token_used_once_witness :
  (refresh crypto0 cfg0 "t2" 101 "t" auth1).1 = Ret (Some {| accessToken := "Uu1"; refreshToken := "t2" |})
  ∧ (refresh crypto0 cfg0 "t4" 103 "t"
       (run_auth crypto0 cfg0 [CLogin "t3" 102 "a@b.c" "secret"; CExpire (revokedKey "t")]
         (refresh crypto0 cfg0 "t2" 101 "t" auth1).2)).1 = Ret None.
Proof.
  split; [vm_compute; reflexivity|].
  apply (refresh_token_used_once crypto0 cfg0 "t" "t2" 101
    [CLogin "t3" 102 "a@b.c" "secret"; CExpire (revokedKey "t")] "t4" 103 auth1);
    [discriminate | repeat constructor; discriminate | vm_compute; discriminate].
Defined.

(** The user is banned; the refresh succeeds. *)
Lemma refresh_ignores_the_account_witness :
  let banned := on_users (λ _, as_users (ban "u1" auth1).2) auth1 in
  (u_banned <$> as_users banned) = [true]
  ∧ (refresh crypto0 cfg0 "t2" 101 "t" banned).1 = Ret (Some {| accessToken := "Uu1"; refreshToken := "t2" |}).
Proof.
  split; [vm_compute; reflexivity|].
  apply (refresh_ignores_the_account crypto0 cfg0 "t2" 101 "t" (as_users (ban "u1" auth1).2) auth1)
    with (u := "u1") (a := false) (secret := "k") (rest := []); [vm_compute; reflexivity.. | discriminate | vm_compute; reflexivity].
Defined.

Lemma reset_ends_sessions_witness :
  let s' := (resetPassword crypto0 "x" "a@b.c" "123456" "new" auth1).2 in
  (resetPassword crypto0 "x" "a@b.c" "123456" "new" auth1).1 = Ret true
  ∧ ∀ code', (verifyResetCode crypto0 "a@b.c" code' s').1 = Ret false.
Proof.
  intros s'. subst s'.
  assert ((resetPassword crypto0 "x" "a@b.c" "123456" "new" auth1).1 = Ret true) as E by (vm_compute; reflexivity).
  pose proof (reset_ends_sessions crypto0 cfg0 "x" "a@b.c" "123456" "new" auth1 crypto0_laws) as H.
  cbv zeta in H. rewrite E in H. split; [exact E | exact (proj1 (proj2 H))].
Defined.

Lemma access_token_accepted_witness :
  auth_guard crypto0 cfg0 (Some "Bearer Uu1") 999 = Ret "u1"
  ∧ admin_guard crypto0 cfg0 (Some "Bearer Uu1") 999 = Throw "Forbidden".
Proof.
  destruct (access_token_accepted crypto0 cfg0 "t" 100 "u1" false auth0
    {| accessToken := "Uu1"; refreshToken := "t" |} 999 crypto0_laws) as [H1 H2];
    [vm_compute; reflexivity | discriminate | reflexivity |].
  split; [exact H1 | apply (H2 "k" []); [reflexivity | vm_compute; reflexivity | discriminate]].
Defined.

Lemma overlapping_refreshes_witness :
  let new id := {| rq_uuid := id; rq_now := 101; rq_pc := PStart |} in
  let '(reqs, s') := run_requests crypto0 cfg0 "t" [0; 1; 0; 1; 0; 0; 0; 1; 1; 1]%nat ([new "x"; new "y"], auth1) in
  (∃ t1 t2, rq_pc <$> reqs = [PDone (Some t1); PDone (Some t2)] ∧ refreshToken t1 = "x" ∧ refreshToken t2 = "y")
  ∧ r_get (refreshKey "x") (as_redis s') = Some (refreshValue "u1" false)
  ∧ r_get (refreshKey "y") (as_redis s') = Some (refreshValue "u1" false).
Proof.
  apply (overlapping_refreshes_both_succeed crypto0 cfg0 "t" "u1" false "x" "y" 101 auth1 "k" []);
    [vm_compute; reflexivity | vm_compute; reflexivity | vm_compute; reflexivity | discriminate..].
Defined.

(** A secret configured with blanks: the routes let the admin in, the admin routes do not. *)
Definition crypto1 : Crypto := {|
  bcrypt_hash _ pw := pw; bcrypt_compare pw h := bool_decide (pw = h); sha256_hex code := code;
  jwt_sign p secret _ _ := secret +:+ p_sub p;
  jwt_verify token secret _ := if bool_decide (token = secret +:+ "root") then Some {| p_sub := "root"; p_admin := true |} else None |}.
Example blank_secret_locks_admins_out :
  let cfg := {| jwtSecrets := [" k "]; accessTtl := 900; refreshTtl := 1; resetReqLimit := 5; resetReqWindow := 1;
                resetTtl := 1; rateWindow := 1; rateMax := 5 |} in
  let t := jwt_sign crypto1 {| p_sub := "root"; p_admin := true |} "k" 0 900 in
  (issueTokens crypto1 cfg "r" 0 "root" true auth0).1 = Ret {| accessToken := t; refreshToken := "r" |}
  ∧ auth_guard crypto1 cfg (Some ("Bearer " +:+ t)) 1 = Ret "root"
  ∧ admin_guard crypto1 cfg (Some ("Bearer " +:+ t)) 1 = Throw "Unauthorized".
Proof. split_and!; vm_compute; reflexivity. Qed.

(** Codes can be tried without end: the counter of the middleware names the device the client sends. *)
Example rate_limit_by_device :
  (rate_limit cfg0 "/auth/verify-reset-code" "1.2.3.4" "d6"
     (run_auth crypto0 cfg0 (CRateLimit "/auth/verify-reset-code" "1.2.3.4" <$> ["d1"; "d2"; "d3"; "d4"; "d5"]) auth1)).1
  = Ret tt.
Proof. vm_compute. reflexivity. Qed.
