(* ===== verification/Kyc.v ===== *)
(** * Identity checks

    backend/src/common/kyc.service.ts: the checks before money moves ([validate],
    which the wallet calls), the verification jobs, and the provider's updates. The
    lists, the providers' answers, the clock and the parsing of dates are
    parameters. The cache is optional, as in the code. *)

From S2P Require Import Prelude Store JsText.
#[local] Open Scope Z_scope.

(** [toUpperCase] and [toLowerCase] on ASCII. *)
Definition map_string (f : ascii → ascii) (s : string) : string :=
  String.string_of_list_ascii (f <$> String.list_ascii_of_string s).
Definition upper_ascii (c : ascii) : ascii :=
  let n := nat_of_ascii c in if (97 <=? n)%nat && (n <=? 122)%nat then ascii_of_nat (n - 32) else c.
Definition lower_ascii (c : ascii) : ascii :=
  let n := nat_of_ascii c in if (65 <=? n)%nat && (n <=? 90)%nat then ascii_of_nat (n + 32) else c.
Definition toUpperCase : string → string := map_string upper_ascii.
Definition toLowerCase : string → string := map_string lower_ascii.

(** The row, with the [region] the code reads off it. *)
Record KycAccount := { ka_id : string; ka_name : string; ka_region : option string; ka_verified : bool }.
#[export] Instance kyc_account_entity : Entity KycAccount := { row_id := ka_id; row_clash _ _ := false }.

Inductive KycStatus := KPending | KVerified | KFailed.
#[export] Instance KycStatus_eq_dec : EqDecision KycStatus.
Proof. solve_decision. Defined.

Record KycVerification := {
  kv_id : string; kv_accountId : string; kv_provider : string; kv_status : KycStatus;
  kv_retries : Z; kv_result : option string }.
#[export] Instance kyc_verification_entity : Entity KycVerification := { row_id := kv_id; row_clash _ _ := false }.

Record VerificationJob := {
  vj_verificationId : string; vj_accountId : string; vj_name : string; vj_birthdate : string; vj_ip : string }.

Record ProviderResult := { pr_allowed : bool; pr_reason : option string }.

(** What a provider answers over HTTP. *)
Inductive FlagAnswer := FlagData (flagged : bool) (reason : option string) | FlagHttpError (code : Z) | FlagUnreachable.
Inductive GeoAnswer := GeoData (country : option string) | GeoHttpError (code : Z) | GeoUnreachable.

(** The values of the cache. *)
Inductive KycCached := CachedReason (r : string) | CachedResult (r : ProviderResult).

Record KycEnv := {
  ke_provider : option (string * (string → outcome string));   (* class name, getCountry *)
  ke_blockedDb : option (list string);       (* SELECT country FROM blocked_countries; None: it failed *)
  ke_blockedConfig : list string;
  ke_sanctionedConfig : option (list string);
  ke_sanctionedDb : option (list string);
  ke_pep : option (string → bool);           (* the PEP table has the name *)
  ke_flag : string → option (string → FlagAnswer);  (* the provider of a type, by account name *)
  ke_onfido : option (string → outcome string);     (* the result of a check *)
  ke_geoip : option (string → GeoAnswer);
  ke_blockedRegions : list string;           (* KYC_BLOCKED_REGIONS, split *)
  ke_configured : bool;                      (* config is injected *)
  ke_apiUrl : option string; ke_apiKey : option string;
  ke_fetch : VerificationJob → string → outcome string;    (* the provider's status, given the country *)
  ke_queueUp : bool;
  ke_now : Z;
  ke_dateOf : string → option Z }.           (* new Date(s).getTime(), None for NaN *)

Section Kyc.
Context {T : Type → Type} `{!TableOps T} {R : Type} `{!RedisOps R KycCached}.
Context (env : KycEnv).

Record KycStore := {
  ks_accounts : T KycAccount;
  ks_verifications : T KycVerification;
  ks_cache : option R;
  ks_blocked : list string;
  ks_sanctioned : list string;
  ks_queue : list (VerificationJob * Z) }.     (* jobs and their delay *)

Abbreviation KM := (M KycStore).

Definition set_accounts (f : T KycAccount → T KycAccount) (s : KycStore) : KycStore :=
  {| ks_accounts := f (ks_accounts s); ks_verifications := ks_verifications s; ks_cache := ks_cache s;
     ks_blocked := ks_blocked s; ks_sanctioned := ks_sanctioned s; ks_queue := ks_queue s |}.
Definition set_verifications (f : T KycVerification → T KycVerification) (s : KycStore) : KycStore :=
  {| ks_accounts := ks_accounts s; ks_verifications := f (ks_verifications s); ks_cache := ks_cache s;
     ks_blocked := ks_blocked s; ks_sanctioned := ks_sanctioned s; ks_queue := ks_queue s |}.
Definition set_kcache (f : R → R) (s : KycStore) : KycStore :=
  {| ks_accounts := ks_accounts s; ks_verifications := ks_verifications s; ks_cache := f <$> ks_cache s;
     ks_blocked := ks_blocked s; ks_sanctioned := ks_sanctioned s; ks_queue := ks_queue s |}.
Definition set_lists (blocked sanctioned : list string) (s : KycStore) : KycStore :=
  {| ks_accounts := ks_accounts s; ks_verifications := ks_verifications s; ks_cache := ks_cache s;
     ks_blocked := blocked; ks_sanctioned := sanctioned; ks_queue := ks_queue s |}.
Definition enqueue_job (j : VerificationJob * Z) (s : KycStore) : KycStore :=
  {| ks_accounts := ks_accounts s; ks_verifications := ks_verifications s; ks_cache := ks_cache s;
     ks_blocked := ks_blocked s; ks_sanctioned := ks_sanctioned s; ks_queue := ks_queue s ++ [j] |}.

(** ** Start *)

Definition refreshBlockedCountries (fallbackToConfig : bool) : KM (list string) :=
  let blocked := match ke_blockedDb env with
                 | Some l => toUpperCase <$> l
                 | None => if fallbackToConfig then toUpperCase <$> ke_blockedConfig env else []
                 end in
  modify (λ s, set_lists blocked (ks_sanctioned s) s) ;; mret blocked.

Definition kyc_init : KM unit :=
  refreshBlockedCountries true ;;
  let sanctioned := match ke_sanctionedConfig env with
                    | Some (x :: l) => x :: l
                    | _ => default [] (ke_sanctionedDb env)
                    end in
  modify (λ s, set_lists (ks_blocked s) (toLowerCase <$> sanctioned) s).

(** ** The checks *)

(** [ageMs / (1000 * 60 * 60 * 24 * 365.25) < 18]; NaN compares false. *)
Definition underage (birthdate : string) : bool :=
  match ke_dateOf env birthdate with
  | Some t => ke_now env - t <? 18 * 31557600000
  | None => false
  end.

Definition runChecks (name ip birthdate : string) : KM string :=
  match ke_provider env with
  | None => mret "unknown"
  | Some (_, getCountry) =>
      country ← lift (getCountry ip);
      blocked ← gets ks_blocked;
      throw_if (bool_decide (toUpperCase country ∈ blocked)) "Blocked jurisdiction" ;;
      sanctioned ← gets ks_sanctioned;
      throw_if (bool_decide (toLowerCase name ∈ sanctioned)) "Sanctioned individual" ;;
      throw_if (underage birthdate) "Underage" ;;
      throw_if (match ke_pep env with Some pep => pep (toLowerCase name) | None => false end)
        "Politically exposed person" ;;
      mret country
  end.

Definition checkFlag (type name : string) : option string :=
  match ke_flag env type with
  | None => Some (type +:+ " provider not configured")
  | Some ask =>
      match ask name with
      | FlagHttpError code => Some (type +:+ " provider error " +:+ pretty code)
      | FlagUnreachable => Some (type +:+ " provider unreachable")
      | FlagData false _ => None
      | FlagData true reason =>
          Some match reason with None | Some "" => type +:+ " match" | Some r => r end
      end
  end.

Definition callProvider (name : string) : ProviderResult :=
  match ke_onfido env with
  | None => {| pr_allowed := false; pr_reason := Some "KYC provider not configured" |}
  | Some check =>
      match check name with
      | Ret result => {| pr_allowed := bool_decide (result = "clear"); pr_reason := Some result |}
      | Throw e => {| pr_allowed := false; pr_reason := Some e |}
      end
  end.

Definition regions : list string := (λ r, toUpperCase (js_trim r)) <$> ke_blockedRegions env.
Definition region_reason (region : option string) : option string :=
  match toUpperCase <$> region with
  | None | Some "" => None
  | Some r => if bool_decide (r ∈ regions) then Some ("region " +:+ r +:+ " blocked") else None
  end.
Definition getRegionBlockReason (a : KycAccount) : option string := region_reason (ka_region a).
Definition checkGeoIp (ip : string) : option string :=
  match ke_geoip env with
  | None => None
  | Some ask =>
      match ask ip with
      | GeoHttpError code => Some ("geoip provider error " +:+ pretty code)
      | GeoUnreachable => Some "geoip provider unreachable"
      | GeoData country => region_reason country
      end
  end.

Definition denialKey (id : string) : string := "kyc:denial:" +:+ id.
Definition resultKey (id : string) : string := "kyc:" +:+ id.

Definition cache_put (key : string) (v : KycCached) (ttl : Z) : KM unit := modify (set_kcache (r_set key v ttl)).
Definition cache_drop (key : string) : KM unit := modify (set_kcache (r_del key)).
Definition has_cache : KM bool := gets (λ s, bool_decide (is_Some (ks_cache s))).

(** [if (reason && this.cache) { await this.cache.set(...); throw }] *)
Definition deny_if (id : string) (reason : option string) : KM unit :=
  cached ← has_cache;
  match reason with
  | Some r => if (cached : bool) then cache_put (denialKey id) (CachedReason r) 86400 ;; throw r else mret tt
  | None => mret tt
  end.

Definition cached_result (id : string) : KM (option ProviderResult) :=
  gets (λ s, match ks_cache s with
             | Some c => match r_get (resultKey id) c with Some (CachedResult r) => Some r | _ => None end
             | None => None
             end).

Definition verify_account (id : string) : KM unit :=
  modify (set_accounts (update_where (λ a, bool_decide (ka_id a = id))
    (λ a, {| ka_id := ka_id a; ka_name := ka_name a; ka_region := ka_region a; ka_verified := true |}))).

(** An empty [ip] or [birthdate] is as good as none. *)
Definition given (s : option string) : option string := match s with Some "" => None | _ => s end.

Definition validate (a : KycAccount) (ip birthdate : option string) : KM unit :=
  throw_if (bool_decide (ka_name a = "")) "Account missing required fields" ;;
  match given birthdate, ke_provider env with
  | Some b, Some _ => _ ← runChecks (ka_name a) (default "0.0.0.0" ip) b; mret tt
  | _, _ => mret tt
  end ;;
  deny_if (ka_id a) (getRegionBlockReason a) ;;
  match given ip with Some i => deny_if (ka_id a) (checkGeoIp i) | None => mret tt end ;;
  if ka_verified a then mret tt
  else
    deny_if (ka_id a) (checkFlag "sanctions" (ka_name a)) ;;
    deny_if (ka_id a) (checkFlag "pep" (ka_name a)) ;;
    cached ← cached_result (ka_id a);
    result ← match cached with
             | Some r => mret r
             | None => let r := callProvider (ka_name a) in
                       cache_put (resultKey (ka_id a)) (CachedResult r) 3600 ;; mret r
             end;
    if pr_allowed result then
      verify_account (ka_id a) ;; cache_drop (resultKey (ka_id a)) ;; cache_drop (denialKey (ka_id a))
    else
      let reason := default "KYC verification failed" (pr_reason result) in
      cache_put (denialKey (ka_id a)) (CachedReason reason) 86400 ;; throw reason.

Definition kyc_account (id : string) : KM KycAccount :=
  a ← gets (λ s, find_row (λ a, bool_decide (ka_id a = id)) (ks_accounts s));
  match a with Some a => mret a | None => throw "EntityNotFound" end.
Definition verify (id : string) (ip birthdate : option string) : KM unit :=
  a ← kyc_account id; validate a ip birthdate.
Definition isVerified (id : string) (ip birthdate : option string) : KM bool :=
  a ← kyc_account id;
  try_catch (validate a ip birthdate ;; mret true) (λ _, mret false).
Definition getDenialReason (id : string) : KM (option string) :=
  gets (λ s, match ks_cache s with
             | Some c => match r_get (denialKey id) c with Some (CachedReason r) => Some r | _ => None end
             | None => None
             end).

(** ** Jobs *)

Definition verification_of (id : string) : KM KycVerification :=
  v ← gets (λ s, find_row (λ v, bool_decide (kv_id v = id)) (ks_verifications s));
  match v with Some v => mret v | None => throw "EntityNotFound" end.
Definition with_status (st : KycStatus) (retries : Z) (result : option string) (v : KycVerification) : KycVerification :=
  {| kv_id := kv_id v; kv_accountId := kv_accountId v; kv_provider := kv_provider v; kv_status := st;
     kv_retries := retries; kv_result := result |}.
Definition save_verification (v : KycVerification) : KM unit := modify (set_verifications (save_row v)).

Definition blank (s : option string) : bool := match s with Some s => bool_decide (js_trim s = "") | None => true end.

Definition validateJob (job : VerificationJob) : KM unit :=
  throw_if (negb (ke_configured env)) "KYC verification not configured" ;;
  v ← verification_of (vj_verificationId job);
  try_catch (A := unit)
    (country ← runChecks (vj_name job) (vj_ip job) (vj_birthdate job);
     throw_if (blank (ke_apiUrl env)) "KYC provider API URL not configured" ;;
     throw_if (blank (ke_apiKey env)) "KYC provider API key not configured" ;;
     status ← lift (ke_fetch env job country);
     if bool_decide (status = "approved") then
       save_verification (with_status KVerified (kv_retries v) (Some status) v) ;;
       verify_account (vj_accountId job)
     else if bool_decide (status = "pending") then
       save_verification (with_status KPending (kv_retries v) (Some status) v) ;;
       modify (enqueue_job (job, 30000))
     else save_verification (with_status KFailed (kv_retries v) (Some status) v))
    (λ e, save_verification (with_status KFailed (kv_retries v + 1) (Some e) v) ;; throw e).

(** [id] is the key the table generates. *)
Definition requestVerification (id accountId name birthdate ip : string) : KM unit :=
  save_verification {| kv_id := id; kv_accountId := accountId; kv_provider := from_option fst "unknown" (ke_provider env);
                       kv_status := KPending; kv_retries := 0; kv_result := None |} ;;
  let job := {| vj_verificationId := id; vj_accountId := accountId; vj_name := name;
                vj_birthdate := birthdate; vj_ip := ip |} in
  if ke_queueUp env then modify (enqueue_job (job, 0)) else validateJob job.

Definition handleProviderUpdate (verificationId status : string) : KM unit :=
  v ← verification_of verificationId;
  if bool_decide (status = "approved") then
    verify_account (kv_accountId v) ;; save_verification (with_status KVerified (kv_retries v) (Some status) v)
  else save_verification (with_status KFailed (kv_retries v) (Some status) v).
End Kyc.
