(* ===== verification/KycSafety.v ===== *)
(** * What the identity checks promise

    [validate] follows one list of checks and records why it refused; a verified
    record belongs to a verified account. Without a cache the lists are not obeyed. *)

From S2P Require Import Prelude Store JsText Kyc.
#[local] Open Scope Z_scope.

Definition reason_of {A} (o : outcome A) : option string := match o with Ret _ => None | Throw e => Some e end.
(** The first reason of two. *)
Definition first_of (a b : option string) : option string := match a with Some _ => a | None => b end.
Infix "or_else" := first_of (at level 60, right associativity) : hub_scope.

Section Kyc.
Context {T : Type → Type} `{!TableOps T, !TableLaws T} {R : Type} `{!RedisOps R KycCached, !RedisLaws R KycCached}.
Context (env : KycEnv).
Abbreviation Store := (KycStore (T := T) (R := R)).
Implicit Types (s : Store).

Lemma runChecks_state name ip b s : (runChecks env name ip b s).2 = s.
Proof.
  assert (preserves (λ s', s' = s) (runChecks env name ip b)) as H by (unfold runChecks; preserve).
  by apply H.
Qed.

Definition check_reason (a : KycAccount) (ip birthdate : option string) s : option string :=
  match given birthdate, ke_provider env with
  | Some b, Some _ => reason_of (runChecks env (ka_name a) (default "0.0.0.0" ip) b s).1
  | _, _ => None
  end.
Definition geo_reason (ip : option string) : option string :=
  match given ip with Some i => checkGeoIp env i | None => None end.
Definition provider_answer (a : KycAccount) s : ProviderResult :=
  default (callProvider env (ka_name a))
    (match ks_cache s with
     | Some c => match r_get (resultKey (ka_id a)) c with Some (CachedResult r) => Some r | _ => None end
     | None => None
     end).
Definition provider_reason (a : KycAccount) s : option string :=
  if pr_allowed (provider_answer a s) then None
  else Some (default "KYC verification failed" (pr_reason (provider_answer a s))).

(** The checks in their order: the fields, the lists, the regions, then for an account not verified
    before the sanctions and PEP providers and the identity provider. *)
Definition field_reason (a : KycAccount) : option string :=
  if bool_decide (ka_name a = "") then Some "Account missing required fields" else None.
Definition listed_reason (a : KycAccount) (ip : option string) s : option string :=
  getRegionBlockReason env a or_else geo_reason ip or_else
  (if ka_verified a then None
   else checkFlag env "sanctions" (ka_name a) or_else checkFlag env "pep" (ka_name a) or_else provider_reason a s).

Definition cache_value (key : string) s : option KycCached := ks_cache s ≫= r_get key.

(** ** One check after another *)

Lemma deny_eq id reason s :
  deny_if id reason s
  = match reason, ks_cache s with
    | Some r, Some c => (Throw r, set_kcache (r_set (denialKey id) (CachedReason r) 86400) s)
    | _, _ => (Ret tt, s)
    end.
Proof.
  unfold deny_if, mbind, M_bind, has_cache, gets. destruct reason as [r|]; [|done].
  destruct (ks_cache s) as [c|]; done.
Qed.

Lemma checks_eq (a : KycAccount) ip bd s :
  (match given bd, ke_provider env with
   | Some b, Some _ => _ ← runChecks env (ka_name a) (default "0.0.0.0" ip) b; mret tt
   | _, _ => mret tt
   end) s
  = match check_reason a ip bd s with Some e => (Throw e, s) | None => (Ret tt, s) end.
Proof.
  unfold check_reason. destruct (given bd) as [b|]; [|done]. destruct (ke_provider env) as [[c f]|] eqn:Ep; [|done].
  rewrite bind_eq. pose proof (runChecks_state (ka_name a) (default "0.0.0.0" ip) b s) as Hs.
  destruct (runChecks env (ka_name a) (default "0.0.0.0" ip) b s) as [[x|e] s']; simpl in *; by subst.
Qed.

(** What the identity provider's answer does, when it is asked. *)
Definition remembered (a : KycAccount) s : Store :=
  match cache_value (resultKey (ka_id a)) s with
  | Some (CachedResult _) => s
  | _ => set_kcache (r_set (resultKey (ka_id a)) (CachedResult (callProvider env (ka_name a))) 3600) s
  end.
Definition admitted (a : KycAccount) s : Store :=
  set_kcache (r_del (denialKey (ka_id a))) (set_kcache (r_del (resultKey (ka_id a)))
    (verify_account (ka_id a) (remembered a s)).2).
Definition asked (a : KycAccount) : M Store unit :=
  cached ← cached_result (ka_id a);
  result ← match cached with
           | Some r => mret r
           | None => let r := callProvider env (ka_name a) in
                     cache_put (resultKey (ka_id a)) (CachedResult r) 3600 ;; mret r
           end;
  if pr_allowed result then
    verify_account (ka_id a) ;; cache_drop (resultKey (ka_id a)) ;; cache_drop (denialKey (ka_id a))
  else
    let reason := default "KYC verification failed" (pr_reason result) in
    cache_put (denialKey (ka_id a)) (CachedReason reason) 86400 ;; throw reason.

Lemma asked_eq a s :
  asked a s = match provider_reason a s with
              | None => (Ret tt, admitted a s)
              | Some r => (Throw r, set_kcache (r_set (denialKey (ka_id a)) (CachedReason r) 86400) (remembered a s))
              end.
Proof.
  unfold asked, provider_reason, provider_answer, admitted, remembered, cache_value. rewrite bind_eq.
  unfold cached_result, gets.
  assert (∀ r s', (if pr_allowed r
    then verify_account (ka_id a) ;; cache_drop (resultKey (ka_id a)) ;; cache_drop (denialKey (ka_id a))
    else let reason := default "KYC verification failed" (pr_reason r) in
         cache_put (denialKey (ka_id a)) (CachedReason reason) 86400 ;; throw reason) s'
    = match (if pr_allowed r then None else Some (default "KYC verification failed" (pr_reason r))) with
      | None => (Ret tt, set_kcache (r_del (denialKey (ka_id a))) (set_kcache (r_del (resultKey (ka_id a)))
                           (verify_account (ka_id a) s').2))
      | Some e => (Throw e, set_kcache (r_set (denialKey (ka_id a)) (CachedReason e) 86400) s')
      end) as Hfin by (intros r s'; by destruct (pr_allowed r)).
  rewrite bind_eq. destruct (ks_cache s) as [c|] eqn:Ec; cbn [mbind option_bind default from_option id].
  - destruct (r_get (resultKey (ka_id a)) c) as [[r|r]|]; apply Hfin.
  - apply Hfin.
Qed.

Lemma validate_eq a ip bd s :
  validate env a ip bd s
  = match field_reason a or_else check_reason a ip bd s with
    | Some e => (Throw e, s)
    | None =>
        (deny_if (ka_id a) (getRegionBlockReason env a) ;;
         deny_if (ka_id a) (geo_reason ip) ;;
         if ka_verified a then mret tt
         else deny_if (ka_id a) (checkFlag env "sanctions" (ka_name a)) ;;
              deny_if (ka_id a) (checkFlag env "pep" (ka_name a)) ;; asked a) s
    end.
Proof.
  unfold validate, field_reason. rewrite bind_eq. unfold throw_if at 1. case_bool_decide as Hn; [done|].
  cbn [mret M_ret first_of]. rewrite bind_eq, checks_eq. destruct (check_reason a ip bd s); [done|].
  rewrite !bind_eq. destruct (deny_if (ka_id a) (getRegionBlockReason env a) s) as [[u|e] s']; [|done].
  rewrite !bind_eq. unfold geo_reason. by destruct (given ip).
Qed.

(** Every branch of [validate] with a cache. *)
Lemma validate_cases a ip bd s c :
  ks_cache s = Some c →
  let reason := field_reason a or_else check_reason a ip bd s or_else listed_reason a ip s in
  let s' := (validate env a ip bd s).2 in
  (validate env a ip bd s).1 = match reason with Some r => Throw r | None => Ret tt end
  ∧ match field_reason a or_else check_reason a ip bd s, listed_reason a ip s with
    | Some _, _ => s' = s
    | None, Some r => cache_value (denialKey (ka_id a)) s' = Some (CachedReason r)
    | None, None =>
        if ka_verified a then s' = s
        else cache_value (denialKey (ka_id a)) s' = None
             ∧ ∀ b, b ∈ rows (ks_accounts s') → ka_id b = ka_id a → ka_verified b = true
    end.
Proof.
  intros Hc reason s'. subst reason s'. rewrite validate_eq.
  destruct (field_reason a) as [r0|]; [done|]. cbn [first_of].
  destruct (check_reason a ip bd s) as [r1|]; [done|]. cbn [first_of].
  assert (∀ r, cache_value (denialKey (ka_id a)) (set_kcache (r_set (denialKey (ka_id a)) (CachedReason r) 86400) s)
               = Some (CachedReason r)) as Hden.
  { intros r. unfold cache_value. cbn. rewrite Hc. cbn. by rewrite get_set, decide_True. }
  unfold listed_reason. rewrite bind_eq, deny_eq, Hc.
  destruct (getRegionBlockReason env a) as [r|]; [split; [done | apply Hden]|]. cbn [first_of].
  rewrite bind_eq, deny_eq, Hc. destruct (geo_reason ip) as [r|]; [split; [done | apply Hden]|]. cbn [first_of].
  destruct (ka_verified a) eqn:Hv; [done|].
  rewrite bind_eq, deny_eq, Hc. destruct (checkFlag env "sanctions" (ka_name a)) as [r|]; [split; [done | apply Hden]|]. cbn [first_of].
  rewrite bind_eq, deny_eq, Hc. destruct (checkFlag env "pep" (ka_name a)) as [r|]; [split; [done | apply Hden]|]. cbn [first_of].
  rewrite asked_eq. destruct (provider_reason a s) as [r|]; (split; [done|]); cbn [snd].
  - unfold remembered, cache_value. rewrite Hc. cbn.
    destruct (r_get (resultKey (ka_id a)) c) as [[|]|]; cbn; rewrite ?Hc; cbn; by rewrite get_set, decide_True.
  - unfold admitted, remembered, cache_value. rewrite Hc. cbn.
    split.
    + destruct (r_get (resultKey (ka_id a)) c) as [[|]|]; cbn; rewrite ?Hc; cbn; by rewrite get_del, decide_True.
    + assert (∀ t : T KycAccount, ∀ b, b ∈ rows (update_where (λ x, bool_decide (ka_id x = ka_id a))
        (λ x, {| ka_id := ka_id x; ka_name := ka_name x; ka_region := ka_region x; ka_verified := true |}) t) →
        ka_id b = ka_id a → ka_verified b = true) as H.
      { intros t b Hb Hid. rewrite rows_update in Hb. apply list_elem_of_fmap in Hb as (x & -> & _).
        by case_bool_decide as E. }
      destruct (r_get (resultKey (ka_id a)) c) as [[|]|]; cbn; apply H.
Qed.

(** With a cache, [validate] is the list of its checks. It admits an account exactly when the name is
    there, the country, sanction, age and PEP lists (when a birth date is given) raise nothing, the
    regions raise nothing, and the account was verified before or the sanctions and PEP providers raise
    nothing and the identity provider clears it; otherwise it throws the first reason in this order.
    Reasons from the regions on are kept as the account's denial; an account it verifies is marked in
    the table and has no denial left. *)
Lemma validate_follows_the_checks a ip bd s c :
  ks_cache s = Some c →
  let reason := field_reason a or_else check_reason a ip bd s or_else listed_reason a ip s in
  let s' := (validate env a ip bd s).2 in
  (validate env a ip bd s).1 = match reason with Some r => Throw r | None => Ret tt end
  ∧ match field_reason a or_else check_reason a ip bd s, listed_reason a ip s with
    | Some _, _ => s' = s
    | None, Some r => cache_value (denialKey (ka_id a)) s' = Some (CachedReason r)
    | None, None =>
        if ka_verified a then s' = s
        else cache_value (denialKey (ka_id a)) s' = None
             ∧ ∀ b, b ∈ rows (ks_accounts s') → ka_id b = ka_id a → ka_verified b = true
    end.
Proof. apply validate_cases. Qed.

(** Without a cache the lists are not obeyed. The reasons of the regions, of the geo service and of
    the sanctions and PEP providers are thrown only when a cache is there to keep them: without one, an
    account that is sanctioned or politically exposed is admitted and verified as soon as the identity
    provider clears it. *)
Lemma no_cache_admits_the_listed a ip bd s :
  ks_cache s = None → field_reason a = None → check_reason a ip bd s = None →
  ka_verified a = true ∨ pr_allowed (callProvider env (ka_name a)) = true →
  (validate env a ip bd s).1 = Ret tt
  ∧ (ka_verified a = false → ∀ b, b ∈ rows (ks_accounts (validate env a ip bd s).2) → ka_id b = ka_id a → ka_verified b = true).
Proof.
  intros Hc Hf Hr Hok. rewrite validate_eq, Hf, Hr. cbn [first_of].
  assert (∀ id r, deny_if id r s = (Ret tt, s)) as Hd.
  { intros id r. rewrite deny_eq, Hc. by destruct r. }
  rewrite bind_eq, Hd, bind_eq, Hd. destruct (ka_verified a) eqn:Hv; [done|].
  rewrite bind_eq, Hd, bind_eq, Hd, asked_eq.
  assert (provider_reason a s = None) as ->.
  { unfold provider_reason, provider_answer. rewrite Hc. simpl. by destruct Hok as [?| ->]. }
  split; [done|]. intros _ b. unfold admitted, remembered, cache_value. rewrite Hc. cbn.
  intros Hb Hid. rewrite rows_update in Hb. apply list_elem_of_fmap in Hb as (x & -> & _).
  by case_bool_decide as E.
Qed.

(** ** Jobs and records *)

(** What the platform calls; a queued job runs at least once, and the table never draws a key twice. *)
Inductive KycCall :=
| KInit
| KVerify (id : string) (ip birthdate : option string)
| KIsVerified (id : string) (ip birthdate : option string)
| KRequest (id accountId name birthdate ip : string)
| KJob (i : nat)
| KUpdate (verificationId status : string).

Definition exec_kyc (c : KycCall) : M Store unit := λ s,
  match c with
  | KInit => kyc_init env s
  | KVerify id ip bd => verify env id ip bd s
  | KIsVerified id ip bd => (_ ← isVerified env id ip bd; mret tt) s
  | KRequest id acc name bd ip =>
      if bool_decide (id ∈ kv_id <$> rows (ks_verifications s)) then (Ret tt, s)
      else requestVerification env id acc name bd ip s
  | KJob i => match ks_queue s !! i with Some (job, _) => validateJob env job s | None => (Ret tt, s) end
  | KUpdate id st => handleProviderUpdate id st s
  end.
Definition run_kyc (cs : list KycCall) s : Store := foldl (λ s c, (exec_kyc c s).2) s cs.

(** Every queued job belongs to a record of its account, and a verified record to a verified account. *)
Definition job_ok s (job : VerificationJob) : Prop :=
  ∃ v, v ∈ rows (ks_verifications s) ∧ kv_id v = vj_verificationId job ∧ kv_accountId v = vj_accountId job.
Definition verified_ok s : Prop :=
  ∀ v a, v ∈ rows (ks_verifications s) → kv_status v = KVerified →
    a ∈ rows (ks_accounts s) → ka_id a = kv_accountId v → ka_verified a = true.
Definition kyc_ok s : Prop :=
  unique_ids (ks_verifications s) ∧ (∀ q, q ∈ ks_queue s → job_ok s q.1) ∧ verified_ok s.

(** Records, accounts and queue of a state; the rest does not matter here. *)
Lemma kyc_ok_ext s s' :
  ks_verifications s' = ks_verifications s → ks_accounts s' = ks_accounts s → ks_queue s' = ks_queue s →
  kyc_ok s → kyc_ok s'.
Proof. unfold kyc_ok, job_ok, verified_ok. by intros -> -> ->. Qed.

Lemma verify_account_rows id s b :
  b ∈ rows (ks_accounts (verify_account id s).2) ↔
  ∃ x, x ∈ rows (ks_accounts s) ∧ ka_id b = ka_id x ∧ ka_verified b = (bool_decide (ka_id x = id) || ka_verified x)
       ∧ ka_name b = ka_name x ∧ ka_region b = ka_region x.
Proof.
  cbn. rewrite rows_update, list_elem_of_fmap. split.
  - intros (x & -> & Hx). exists x. by case_bool_decide.
  - intros (x & Hx & H1 & H2 & H3 & H4). exists x. split; [|done]. destruct b, x; simpl in *; subst.
    by case_bool_decide; simplify_eq/=.
Qed.

Lemma verify_account_ok id : preserves kyc_ok (verify_account id).
Proof.
  intros s (Hu & Hq & Hv). split; [done|]. split; [done|].
  intros v a Hin Hst (x & Hx & Hid & Hver & _)%verify_account_rows Hacc.
  rewrite Hver. destruct (bool_decide (ka_id x = id)); [done|]. simpl. apply (Hv v x); [done.. | congruence].
Qed.

(** Saving a record of a known account; verified only when the account is. *)
Lemma save_ok v v' s :
  kyc_ok s → v ∈ rows (ks_verifications s) → kv_id v' = kv_id v → kv_accountId v' = kv_accountId v →
  (kv_status v' = KVerified → ∀ a, a ∈ rows (ks_accounts s) → ka_id a = kv_accountId v' → ka_verified a = true) →
  kyc_ok (save_verification v' s).2.
Proof.
  intros (Hu & Hq & Hv) Hin Hid Hacc Hst. cbn. split; [by apply unique_ids_save|]. split.
  - intros q Hqs. destruct (Hq q Hqs) as (w & Hw & Hwi & Hwa). unfold job_ok. cbn.
    setoid_rewrite rows_save. destruct (decide (kv_id w = kv_id v')) as [E|E].
    + exists v'. split; [by left|].
      assert (w = v) as ->; [|by split; congruence].
      assert (find_row (λ x, bool_decide (row_id x = kv_id v)) (ks_verifications s) = Some w
              ∧ find_row (λ x, bool_decide (row_id x = kv_id v)) (ks_verifications s) = Some v) as [E1 E2].
      { split; apply find_by_key; try done. split; [done|]. cbn. congruence. }
      congruence.
    + exists w. split; [|done]. right. by apply list_elem_of_filter.
  - intros w a. cbn. rewrite rows_save. intros [->|[_ Hw]%list_elem_of_filter]%elem_of_cons Hs Ha Hai.
    + by apply Hst.
    + by apply (Hv w a).
Qed.

Lemma verification_of_eq id s :
  verification_of id s = match find_row (λ v, bool_decide (kv_id v = id)) (ks_verifications s) with
                         | Some v => (Ret v, s) | None => (Throw "EntityNotFound", s) end.
Proof. unfold verification_of. rewrite bind_eq. unfold gets. by destruct (find_row _ _). Qed.

Lemma asked_ok a : preserves kyc_ok (asked a).
Proof.
  unfold asked, cached_result. preserve; try apply verify_account_ok;
    apply preserves_modify; intros s; by apply kyc_ok_ext.
Qed.

Lemma deny_ok id r : preserves kyc_ok (deny_if id r).
Proof. intros s Hs. rewrite deny_eq. destruct r, (ks_cache s); first [done | by eapply kyc_ok_ext]. Qed.

Lemma validate_ok a ip bd : preserves kyc_ok (validate env a ip bd).
Proof.
  intros s Hs. rewrite validate_eq. destruct (field_reason a or_else _); [done|].
  revert s Hs. match goal with |- ∀ s, _ → kyc_ok (?m s).2 => change (preserves kyc_ok m) end.
  preserve; apply deny_ok || apply asked_ok.
Qed.

(** The provider's status for a job, or why it was not asked. *)
Definition job_status (job : VerificationJob) s : outcome string :=
  match (runChecks env (vj_name job) (vj_ip job) (vj_birthdate job) s).1 with
  | Throw e => Throw e
  | Ret country =>
      if blank (ke_apiUrl env) then Throw "KYC provider API URL not configured"
      else if blank (ke_apiKey env) then Throw "KYC provider API key not configured"
      else ke_fetch env job country
  end.

Lemma job_eq job v s :
  ke_configured env = true →
  find_row (λ v, bool_decide (kv_id v = vj_verificationId job)) (ks_verifications s) = Some v →
  validateJob env job s
  = match job_status job s with
    | Throw e => (Throw e, (save_verification (with_status KFailed (kv_retries v + 1) (Some e) v) s).2)
    | Ret st =>
        (Ret tt, if bool_decide (st = "approved")
                 then (verify_account (vj_accountId job)
                        (save_verification (with_status KVerified (kv_retries v) (Some st) v) s).2).2
                 else if bool_decide (st = "pending")
                 then enqueue_job (job, 30000) (save_verification (with_status KPending (kv_retries v) (Some st) v) s).2
                 else (save_verification (with_status KFailed (kv_retries v) (Some st) v) s).2)
    end.
Proof.
  intros Hc Hv. unfold validateJob. rewrite Hc. cbn [negb]. rewrite bind_eq.
  change (throw_if false _ s) with (Ret tt : outcome unit, s). cbv iota beta.
  rewrite bind_eq, verification_of_eq, Hv. unfold try_catch. rewrite bind_eq. unfold job_status.
  pose proof (runChecks_state (vj_name job) (vj_ip job) (vj_birthdate job) s) as Hs.
  destruct (runChecks env (vj_name job) (vj_ip job) (vj_birthdate job) s) as [[country|e] s']; simpl in Hs; subst s'; [|done].
  cbn [fst]. rewrite bind_eq. destruct (blank (ke_apiUrl env)); [done|].
  change (throw_if false _ s) with (Ret tt : outcome unit, s). cbv iota beta.
  rewrite bind_eq. destruct (blank (ke_apiKey env)); [done|].
  change (throw_if false _ s) with (Ret tt : outcome unit, s). cbv iota beta.
  rewrite bind_eq. unfold lift. destruct (ke_fetch env job country) as [st|e]; [|done].
  by repeat case_bool_decide.
Qed.

Lemma find_verification id v s :
  find_row (λ v, bool_decide (kv_id v = id)) (ks_verifications s) = Some v → v ∈ rows (ks_verifications s) ∧ kv_id v = id.
Proof. intros [H1 H2%bool_decide_eq_true]%find_row_Some. done. Qed.

(** A record marked verified together with its account, in either order. *)
Lemma verify_both v st retries s :
  kyc_ok s → v ∈ rows (ks_verifications s) →
  kyc_ok (verify_account (kv_accountId v) (save_verification (with_status KVerified retries st v) s).2).2.
Proof.
  intros Hs Hv.
  change (kyc_ok (save_verification (with_status KVerified retries st v) (verify_account (kv_accountId v) s).2).2).
  apply (save_ok v); [by apply verify_account_ok | done | done | done |].
  intros _ a (x & _ & Hid & -> & _)%verify_account_rows Ha. cbn in Ha.
  by rewrite bool_decide_true by congruence.
Qed.

Lemma enqueue_ok job d s : kyc_ok s → job_ok s job → kyc_ok (enqueue_job (job, d) s).
Proof.
  intros (Hu & Hq & Hv) Hj. split; [done|]. split; [|done].
  intros q. cbn. rewrite elem_of_app, list_elem_of_singleton. by intros [Hin| ->]; [apply Hq|].
Qed.

Lemma job_ok_run job s : kyc_ok s → job_ok s job → kyc_ok (validateJob env job s).2.
Proof.
  intros Hs (v & Hv & Hid & Hacc).
  destruct (ke_configured env) eqn:Hc; [|unfold validateJob; rewrite bind_eq, Hc; done].
  assert (find_row (λ v, bool_decide (kv_id v = vj_verificationId job)) (ks_verifications s) = Some v) as Hf.
  { refine (proj2 (find_by_key (ks_verifications s) (vj_verificationId job) v _) _); [apply Hs | done]. }
  rewrite (job_eq job v s Hc Hf).
  assert (∀ st r res, st ≠ KVerified → kyc_ok (save_verification (with_status st r res v) s).2) as Hsave.
  { intros st r res Hst. by apply (save_ok v). }
  destruct (job_status job s) as [st|e]; cbn [snd]; [|by apply Hsave].
  case_bool_decide; [rewrite <- Hacc; by apply verify_both|]. case_bool_decide; [|by apply Hsave].
  apply enqueue_ok; [by apply Hsave|].
  exists (with_status KPending (kv_retries v) (Some st) v). cbn. rewrite rows_save. split; [by left | done].
Qed.

Lemma exec_kyc_ok c s : kyc_ok s → kyc_ok (exec_kyc c s).2.
Proof.
  intros Hs. destruct c; cbn [exec_kyc].
  - by eapply kyc_ok_ext.
  - revert s Hs. change (preserves kyc_ok (verify env id ip birthdate)). unfold verify, kyc_account.
    preserve. apply validate_ok.
  - revert s Hs. change (preserves kyc_ok (_ ← isVerified env id ip birthdate; mret tt)). unfold isVerified, kyc_account.
    preserve. apply validate_ok.
  - case_bool_decide as Hid; [done|]. unfold requestVerification. rewrite bind_eq.
    set (v := {| kv_id := id; kv_accountId := accountId; kv_provider := _; kv_status := KPending;
                 kv_retries := 0; kv_result := None |}). cbn [save_verification modify].
    set (s1 := set_verifications (save_row v) s).
    assert (kyc_ok s1) as Hs1.
    { destruct Hs as (Hu & Hq & Hv). split; [by apply (unique_ids_save v)|]. split.
      - intros q Hqs. destruct (Hq q Hqs) as (w & Hw & Hwi). exists w. cbn. rewrite rows_save. split; [|done].
        right. apply list_elem_of_filter. split; [|done]. intros E. apply Hid. cbn in E. rewrite <- E. by apply list_elem_of_fmap_2.
      - intros w a. cbn. rewrite rows_save. intros [->|[_ Hw]%list_elem_of_filter]%elem_of_cons Hst; [done|].
        by apply Hv. }
    assert (job_ok s1 {| vj_verificationId := id; vj_accountId := accountId; vj_name := name;
                         vj_birthdate := birthdate; vj_ip := ip |}) as Hj.
    { exists v. cbn. rewrite rows_save. split; [by left | done]. }
    destruct (ke_queueUp env); [by apply enqueue_ok | by apply job_ok_run].
  - destruct (ks_queue s !! i) as [[job d]|] eqn:E; [|done]. apply job_ok_run; [done|].
    apply (proj1 (proj2 Hs) (job, d)). apply list_elem_of_lookup. by exists i.
  - unfold handleProviderUpdate. rewrite bind_eq, verification_of_eq.
    destruct (find_row _ (ks_verifications s)) as [v|] eqn:E; [|done]. apply find_verification in E as [Hv _].
    case_bool_decide.
    + exact (verify_both v (Some status) (kv_retries v) s Hs Hv).
    + by apply (save_ok v).
Qed.

(** A record marked verified belongs to a verified account. Start with no records and no jobs and make
    any calls (checks, requests, jobs run once or again, updates of the provider, failures included):
    whenever a verification says verified, its account's row is verified. *)
Lemma verified_records_have_verified_accounts cs s v a :
  rows (ks_verifications s) = [] → ks_queue s = [] →
  v ∈ rows (ks_verifications (run_kyc cs s)) → kv_status v = KVerified →
  a ∈ rows (ks_accounts (run_kyc cs s)) → ka_id a = kv_accountId v → ka_verified a = true.
Proof.
  intros H1 H2. cut (kyc_ok (run_kyc cs s)); [intros (_ & _ & H); by apply H|].
  apply (foldl_invariant kyc_ok); [intros; by apply exec_kyc_ok|].
  split; [unfold unique_ids; rewrite H1; constructor|]. split.
  - intros q. rewrite H2. by intros ?%elem_of_nil.
  - intros w b. rewrite H1. by intros ?%elem_of_nil.
Qed.
End Kyc.

(** ** Concrete runs *)

(** Every list and provider speaks against the account except the identity provider. *)
Definition kyc_env0 : KycEnv := {|
  ke_provider := Some ("GeoProvider", λ _, Ret "de"); ke_blockedDb := Some ["kp"]; ke_blockedConfig := [];
  ke_sanctionedConfig := Some ["Evil Corp"]; ke_sanctionedDb := None; ke_pep := Some (λ n, bool_decide (n = "pat"));
  ke_flag t := Some (λ n, if bool_decide (n = "Evil Corp") then FlagData true None else FlagData false None);
  ke_onfido := Some (λ _, Ret "clear"); ke_geoip := None; ke_blockedRegions := ["KP"; "IR"];
  ke_configured := true; ke_apiUrl := Some "https://kyc"; ke_apiKey := Some "k";
  ke_fetch job country := Ret "approved"; ke_queueUp := true; ke_now := 568036800000;
  ke_dateOf s := if bool_decide (s = "1970-01-01") then Some 0 else None |}.
Definition acct id name : KycAccount := {| ka_id := id; ka_name := name; ka_region := None; ka_verified := false |}.
Definition kyc0 (cache : option (map_redis KycCached)) : KycStore (T := list) :=
  {| ks_accounts := [acct "a1" "Ann"; acct "a2" "Evil Corp"]; ks_verifications := []; ks_cache := cache;
     ks_blocked := []; ks_sanctioned := []; ks_queue := [] |}.
Definition cache0 : option (map_redis KycCached) := Some (MapRedis ∅ ∅ ∅).

Lemma validate_follows_the_checks_witness :
  (validate kyc_env0 (acct "a1" "Ann") None (Some "1970-01-01") (kyc0 cache0)).1 = Ret tt
  ∧ (validate kyc_env0 (acct "a2" "Evil Corp") None None (kyc0 cache0)).1 = Throw "sanctions match".
Proof.
  split.
  - etrans; [apply (validate_follows_the_checks kyc_env0 (acct "a1" "Ann") None (Some "1970-01-01") (kyc0 cache0)
      (MapRedis ∅ ∅ ∅)); reflexivity | vm_compute; reflexivity].
  - etrans; [apply (validate_follows_the_checks kyc_env0 (acct "a2" "Evil Corp") None None (kyc0 cache0)
      (MapRedis ∅ ∅ ∅)); reflexivity | vm_compute; reflexivity].
Defined.

Lemma no_cache_admits_the_listed_witness :
  checkFlag kyc_env0 "sanctions" "Evil Corp" = Some "sanctions match"
  ∧ (validate kyc_env0 (acct "a2" "Evil Corp") None None (kyc0 None)).1 = Ret tt.
Proof.
  split; [vm_compute; reflexivity|].
  apply (no_cache_admits_the_listed kyc_env0); [reflexivity | reflexivity | reflexivity | by right].
Defined.

Definition calls0 : list KycCall := [KInit; KRequest "v1" "a1" "Ann" "1970-01-01" "1.2.3.4"; KJob 0; KUpdate "v1" "approved"].
Lemma verified_records_witness :
  (kv_status <$> ks_verifications (run_kyc kyc_env0 calls0 (kyc0 cache0))) = [KVerified]
  ∧ ∀ a, a ∈ ks_accounts (run_kyc kyc_env0 calls0 (kyc0 cache0)) → ka_id a = "a1" → ka_verified a = true.
Proof.
  split; [vm_compute; reflexivity|]. intros a Ha Hid.
  apply (verified_records_have_verified_accounts kyc_env0 calls0 (kyc0 cache0)
    {| kv_id := "v1"; kv_accountId := "a1"; kv_provider := "GeoProvider"; kv_status := KVerified; kv_retries := 0;
       kv_result := Some "approved" |} a); [reflexivity | reflexivity | | reflexivity | exact Ha | exact Hid].
  apply list_elem_of_singleton. vm_compute. reflexivity.
Defined.

(** A birth date that does not parse is of age, and a later rejection leaves the account verified. *)
Example unparsable_birthdate_is_of_age :
  (runChecks kyc_env0 "Kid" "1.2.3.4" "31/12/2020" (kyc0 cache0)).1 = Ret "de".
Proof. vm_compute. reflexivity. Qed.
Example rejection_keeps_account_verified :
  let s := run_kyc kyc_env0 (calls0 ++ [KUpdate "v1" "rejected"]) (kyc0 cache0) in
  (kv_status <$> ks_verifications s) = [KFailed]
  ∧ (λ a, (ka_id a, ka_verified a)) <$> ks_accounts s = [("a1", true); ("a2", false)].
Proof. vm_compute. split; reflexivity. Qed.
