(* ===== verification/Spectator.v ===== *)
(** * Spectators

    backend/src/game/spectator.gateway.ts with the queue of pqueue-loader.ts. Frames
    leave through a queue per socket, an interface that p-queue promises and the
    in-line fallback class of the repository implements. A connection awaits the
    room's state and its queue before it listens, so it is several events. *)

From S2P Require Import Prelude SidePots StateMachine Engine.
#[local] Open Scope Z_scope.

(** ** Queues *)

(** What the gateway needs of a queue with one task at a time: [q_run] finishes the running task. *)
Class QueueOps (Q A : Type) := {
  q_new : Q;
  q_load : Q → nat;               (* size + pending *)
  q_add : A → Q → Q;
  q_clear : Q → Q;
  q_run : Q → option A * Q;
  (** the tasks still to finish, the running one first *)
  q_items : Q → list A;
  q_wf : Q → Prop }.
Class QueueLaws (Q A : Type) `{!QueueOps Q A} := {
  wf_new : q_wf q_new ∧ q_items q_new = [];
  load_items q : q_wf q → q_load q = length (q_items q);
  add_items x q : q_wf q → q_wf (q_add x q) ∧ q_items (q_add x q) = q_items q ++ [x];
  clear_items q : q_wf q → q_wf (q_clear q) ∧ q_items (q_clear q) `sublist_of` q_items q;
  run_items q : q_wf q → q_wf (q_run q).2 ∧ (q_run q).1 = head (q_items q) ∧ q_items (q_run q).2 = tail (q_items q) }.

(** The fallback [InlinePQueue]; its options, the rate limit among them, are ignored. *)
Section Inline.
Context {A : Type}.

Record InlinePQueue := { pq_size : nat; pq_pending : option A; pq_queue : list A }.

Definition processNext (q : InlinePQueue) : InlinePQueue :=
  match pq_pending q with
  | Some _ => q
  | None =>
      match pq_queue q with
      | [] => {| pq_size := 0; pq_pending := None; pq_queue := [] |}
      | next :: rest => {| pq_size := length rest; pq_pending := Some next; pq_queue := rest |}
      end
  end.
Definition pq_add (x : A) (q : InlinePQueue) : InlinePQueue :=
  let queue := pq_queue q ++ [x] in
  processNext {| pq_size := length queue; pq_pending := pq_pending q; pq_queue := queue |}.
Definition pq_clear (q : InlinePQueue) : InlinePQueue :=
  {| pq_size := 0; pq_pending := pq_pending q; pq_queue := [] |}.
(** The running task settles. *)
Definition pq_settle (q : InlinePQueue) : option A * InlinePQueue :=
  match pq_pending q with
  | Some x => (Some x, processNext {| pq_size := pq_size q; pq_pending := None; pq_queue := pq_queue q |})
  | None => (None, q)
  end.

#[export] Instance inline_queue_ops : QueueOps InlinePQueue A := {
  q_new := {| pq_size := 0; pq_pending := None; pq_queue := [] |};
  q_load q := (pq_size q + (if pq_pending q is Some _ then 1 else 0))%nat;
  q_add := pq_add; q_clear := pq_clear; q_run := pq_settle;
  q_items q := option_list (pq_pending q) ++ pq_queue q;
  q_wf q := pq_size q = length (pq_queue q) ∧ (pq_pending q = None → pq_queue q = []) }.

#[export] Instance inline_queue_laws : QueueLaws InlinePQueue A.
Proof.
  split; simpl.
  - done.
  - intros [n [x|] l] [Hn Hp]; simpl in *; [lia|]. rewrite Hp in * by done. simpl in *. lia.
  - intros x [n [y|] l] [Hn Hp]; unfold pq_add, processNext; simpl in *; [done|].
    by rewrite Hp by done.
  - intros [n [y|] l] [Hn Hp]; simpl in *; (split; [done|]); [apply sublist_skip|]; apply sublist_nil_l.
  - intros [n [y|] l] [Hn Hp]; unfold pq_settle, processNext; simpl in *; [destruct l; naive_solver|].
    rewrite Hp in * by done. done.
Qed.
End Inline.
Arguments InlinePQueue : clear implicits.

(** ** The gateway *)

Section Gateway.
Context {Q : Type} `{!QueueOps Q PublicState}.
Context (queueLimit : nat).

Inductive SpectatorStage := AwaitsState | AwaitsQueue | Ready.

Record Spectator := {
  sp_table : string;
  sp_connected : bool;
  sp_stage : SpectatorStage;
  sp_listening : bool;               (* room.on('state', listener) *)
  sp_queue : option Q;
  sp_sent : list PublicState }.

Definition with_queue (q : option Q) (c : Spectator) : Spectator :=
  {| sp_table := sp_table c; sp_connected := sp_connected c; sp_stage := sp_stage c;
     sp_listening := sp_listening c; sp_queue := q; sp_sent := sp_sent c |}.
Definition with_stage (st : SpectatorStage) (listening : bool) (c : Spectator) : Spectator :=
  {| sp_table := sp_table c; sp_connected := sp_connected c; sp_stage := st;
     sp_listening := listening; sp_queue := sp_queue c; sp_sent := sp_sent c |}.

(** [enqueue]: a queue is made when there is none; a full one drops the frame. *)
Definition enqueue (payload : PublicState) (c : Spectator) : Spectator :=
  let q := default q_new (sp_queue c) in
  if (queueLimit <=? q_load q)%nat then with_queue (Some q) c else with_queue (Some (q_add payload q)) c.

(** [handleConnection] up to the first await. *)
Definition joined (tableId : string) : Spectator :=
  {| sp_table := if bool_decide (tableId = "") then "default" else tableId; sp_connected := true;
     sp_stage := AwaitsState; sp_listening := false; sp_queue := None; sp_sent := [] |}.
(** The room answered: the frame is queued, and that is awaited. *)
Definition got_state (s : GameStateInternal) (c : Spectator) : Spectator :=
  match sp_stage c with
  | AwaitsState => with_stage AwaitsQueue (sp_listening c) (enqueue (sanitize s None) c)
  | _ => c
  end.
(** Then the listener is added, and the one that removes it at the disconnection. *)
Definition subscribed (c : Spectator) : Spectator :=
  match sp_stage c with AwaitsQueue => with_stage Ready true c | _ => c end.
(** The listener: a state of the room. *)
Definition heard (tableId : string) (s : GameStateInternal) (c : Spectator) : Spectator :=
  if bool_decide (sp_table c = tableId) && sp_listening c && sp_connected c then enqueue (sanitize s None) c else c.
(** The client disconnects: [handleDisconnect], and the listener's removal when it was registered. *)
Definition disconnected (c : Spectator) : Spectator :=
  if sp_connected c then
    {| sp_table := sp_table c; sp_connected := false; sp_stage := sp_stage c;
       sp_listening := match sp_stage c with Ready => false | _ => sp_listening c end;
       sp_queue := None; sp_sent := sp_sent c |}
  else c.
(** The running task of the queue is done: the frame is emitted, which reaches a connected client. *)
Definition emitted (c : Spectator) : Spectator :=
  match sp_queue c with
  | None => c
  | Some q =>
      let '(frame, q') := q_run q in
      {| sp_table := sp_table c; sp_connected := sp_connected c; sp_stage := sp_stage c;
         sp_listening := sp_listening c; sp_queue := Some q';
         sp_sent := sp_sent c ++ (if sp_connected c then option_list frame else []) |}
  end.

Inductive SpectatorEvent :=
| SConnect (id tableId : string)
| SState (id : string) (s : GameStateInternal)
| SSubscribe (id : string)
| SPublish (tableId : string) (s : GameStateInternal)
| SDisconnect (id : string)
| SEmit (id : string).

(** Socket identifiers are not used twice. *)
Definition spectator_step (m : gmap string Spectator) (e : SpectatorEvent) : gmap string Spectator :=
  match e with
  | SConnect id tableId => match m !! id with Some _ => m | None => <[id := joined tableId]> m end
  | SState id s => alter (got_state s) id m
  | SSubscribe id => alter subscribed id m
  | SPublish tableId s => heard tableId s <$> m
  | SDisconnect id => alter disconnected id m
  | SEmit id => alter emitted id m
  end.
Definition spectator_run (es : list SpectatorEvent) : gmap string Spectator := foldl spectator_step ∅ es.

(** ** What a spectator sees *)

Context `{!QueueLaws Q PublicState}.

(** The states of its table and the one it asked for, in order, without hole cards. *)
Definition shown (id tableId : string) (es : list SpectatorEvent) : list PublicState :=
  omap (λ e, match e with
             | SState id' s => if bool_decide (id' = id) then Some (sanitize s None) else None
             | SPublish t s => if bool_decide (t = tableId) then Some (sanitize s None) else None
             | _ => None
             end) es.

Definition waiting (c : Spectator) : list PublicState := from_option q_items [] (sp_queue c).
Definition spectator_ok (shown : list PublicState) (c : Spectator) : Prop :=
  (∀ q, sp_queue c = Some q → q_wf q) ∧ (sp_sent c ++ waiting c) `sublist_of` shown
  ∧ (length (waiting c) <= queueLimit)%nat.

Lemma default_wf c l : spectator_ok l c → q_wf (default q_new (sp_queue c))
  ∧ q_items (default q_new (sp_queue c)) = waiting c.
Proof.
  intros (Hq & _). unfold waiting. destruct (sp_queue c) as [q|]; simpl; [split; [by apply Hq | done] | apply wf_new].
Qed.

Lemma spectator_enqueue_ok p l c : spectator_ok l c → spectator_ok (l ++ [p]) (enqueue p c).
Proof.
  intros H. destruct (default_wf c l H) as [Hw Hi]. destruct H as (Hq & Hs & Hl). unfold enqueue.
  rewrite load_items, Hi by done. destruct (Nat.leb_spec queueLimit (length (waiting c))) as [|Hlt].
  - split; [by intros q [= <-]|]. unfold waiting at 1 2. cbn. rewrite Hi.
    split; [by apply sublist_inserts_r | done].
  - destruct (add_items p _ Hw) as [Hw' Hi']. split; [by intros q [= <-]|]. unfold waiting. cbn.
    rewrite Hi', Hi, app_assoc. split; [by apply sublist_app | rewrite length_app; simpl; lia].
Qed.

Lemma ok_more l l' c : spectator_ok l c → l `sublist_of` l' → spectator_ok l' c.
Proof. intros (H1 & H2 & H3) Hl. split; [done|]. split; [by etrans | done]. Qed.

(** The queue and the frames of a spectator decide. *)
Lemma ok_ext l c c' : sp_queue c' = sp_queue c → sp_sent c' = sp_sent c → spectator_ok l c → spectator_ok l c'.
Proof. unfold spectator_ok, waiting. by intros -> ->. Qed.

Lemma emitted_ok l c : spectator_ok l c → spectator_ok l (emitted c).
Proof.
  intros H. pose proof H as (Hq & Hs & Hl). unfold emitted. destruct (sp_queue c) as [q|] eqn:E; [|done].
  specialize (Hq q eq_refl). destruct (run_items q Hq) as (Hw & Hf & Ht).
  destruct (q_run q) as [frame q']. cbn [fst snd] in *. unfold spectator_ok, waiting in *. rewrite E in *. cbn in *.
  split; [by intros ? [= <-]|]. rewrite Ht. destruct (q_items q) as [|x items]; simpl in *.
  - subst frame. rewrite app_nil_r in *. split; [|lia]. destruct (sp_connected c); simpl; by rewrite ?app_nil_r.
  - subst frame. split; [|lia]. destruct (sp_connected c); simpl; [by rewrite <- app_assoc|]. rewrite app_nil_r.
    etrans; [|exact Hs]. apply sublist_app; [done | by apply sublist_cons].
Qed.

Lemma spectator_inv es id c :
  spectator_run es !! id = Some c → spectator_ok (shown id (sp_table c) es) c.
Proof.
  revert c. induction es as [|e es IH] using rev_ind; intros c; [by cbn; rewrite lookup_empty|].
  unfold spectator_run. rewrite foldl_app. cbn [foldl]. fold (spectator_run es).
  assert (∀ t, shown id t es `sublist_of` shown id t (es ++ [e])) as Hmore.
  { intros t. unfold shown. rewrite omap_app. by apply sublist_inserts_r. }
  assert (∀ (f : Spectator → Spectator) id', (∀ c, sp_table (f c) = sp_table c) →
    (∀ c l, spectator_ok l c → spectator_ok l (f c)) →
    alter f id' (spectator_run es) !! id = Some c → spectator_ok (shown id (sp_table c) (es ++ [e])) c) as Halter.
  { intros f id' Ht Hf. destruct (decide (id' = id)) as [->|Hne].
    - rewrite lookup_alter_eq. intros (c0 & Hc0 & ->)%fmap_Some. rewrite Ht. apply Hf.
      by eapply ok_more; [apply IH | apply Hmore].
    - rewrite lookup_alter_ne by done. intros Hc. by eapply ok_more; [apply IH | apply Hmore]. }
  destruct e as [id' t|id' s|id'|t s|id'|id']; cbn [spectator_step].
  - intros Hc. destruct (spectator_run es !! id') as [c1|] eqn:E1; [by eapply ok_more; [apply IH | apply Hmore]|].
    destruct (decide (id' = id)) as [->|Hne].
    + rewrite lookup_insert_eq in Hc. injection Hc as <-. split; [done|].
      split; [apply sublist_nil_l | simpl; lia].
    + rewrite lookup_insert_ne in Hc by done. by eapply ok_more; [apply IH | apply Hmore].
  - destruct (decide (id' = id)) as [->|Hne].
    + rewrite lookup_alter_eq. intros (c0 & Hc0 & ->)%fmap_Some. specialize (IH _ Hc0). unfold got_state.
      destruct (sp_stage c0); [|by eapply ok_more..].
      apply (ok_ext _ (enqueue (sanitize s None) c0)); [done | done|].
      assert (sp_table (with_stage AwaitsQueue (sp_listening c0) (enqueue (sanitize s None) c0)) = sp_table c0) as ->.
      { cbn. unfold enqueue. by destruct (_ <=? _)%nat. }
      unfold shown. rewrite omap_app. cbn. rewrite bool_decide_true by done. by apply spectator_enqueue_ok.
    + rewrite lookup_alter_ne by done. intros Hc. by eapply ok_more; [apply IH | apply Hmore].
  - apply Halter; intros c0; unfold subscribed; destruct (sp_stage c0); try done; intros l; by apply ok_ext.
  - rewrite lookup_fmap. intros (c0 & Hc0 & ->)%fmap_Some. specialize (IH _ Hc0). unfold heard.
    destruct (_ && _ && _) eqn:E; [|by eapply ok_more].
    apply andb_true_iff in E as [[Ht%bool_decide_eq_true _]%andb_true_iff _].
    assert (sp_table (enqueue (sanitize s None) c0) = sp_table c0) as ->
      by (unfold enqueue; by destruct (_ <=? _)%nat).
    unfold shown. rewrite omap_app. cbn. rewrite bool_decide_true by done. by apply spectator_enqueue_ok.
  - apply Halter; intros c0; unfold disconnected; destruct (sp_connected c0); try done.
    intros l (Hq & Hs & Hl). split; [done|]. cbn. split; [|lia].
    rewrite app_nil_r. etrans; [|exact Hs]. by apply sublist_inserts_r.
  - apply Halter; [intros c0; unfold emitted; destruct (sp_queue c0); [by destruct (q_run _)|done] | intros; by apply emitted_ok].
Qed.

(** C35: A spectator sees the states of one table, in order, without hole cards. Whatever happens in
    whatever order (connections, states, emissions, disconnections), the frames sent to a socket are
    among the states of the table it asked for, in the order they occurred, each at most once, every
    player's hole cards removed, and no more than [queueLimit] frames wait for it. *)
Theorem spectators_see_sanitized_frames es id c :
  spectator_run es !! id = Some c →
  sp_sent c `sublist_of` shown id (sp_table c) es
  ∧ (∀ frame p, frame ∈ sp_sent c → p ∈ pub_players frame → pub_holeCards p = None)
  ∧ (length (waiting c) <= queueLimit)%nat.
Proof.
  intros Hc. destruct (spectator_inv es id c Hc) as (_ & Hs & Hl).
  assert (sp_sent c `sublist_of` shown id (sp_table c) es) as Hsub.
  { etrans; [|exact Hs]. by apply sublist_inserts_r. }
  split; [done|]. split; [|done]. intros frame p Hf Hp.
  assert (frame ∈ shown id (sp_table c) es) as Hin by (by eapply elem_of_submseteq; [|apply sublist_submseteq]).
  apply list_elem_of_omap in Hin as (e & _ & He).
  assert (∃ s, frame = sanitize s None) as [s ->].
  { destruct e; try done; case_bool_decide; simplify_eq; by eexists. }
  cbn in Hp. apply list_elem_of_fmap in Hp as (pl & -> & _). unfold public_player. cbn.
  by destruct (p_holeCards pl).
Qed.

(** A client that leaves while its state is fetched is listened for ever after. *)
Definition leaked (c : Spectator) : Prop := sp_connected c = false ∧ sp_listening c = true.

Lemma leaked_step m e id c :
  m !! id = Some c → leaked c → sp_stage c = Ready →
  ∃ c', spectator_step m e !! id = Some c' ∧ leaked c' ∧ sp_stage c' = Ready.
Proof.
  intros Hc [H1 H2] Hst. destruct e as [id' t|id' s|id'|t s|id'|id']; cbn [spectator_step].
  - destruct (m !! id') eqn:E; [by exists c|]. exists c. rewrite lookup_insert_ne by congruence. done.
  - destruct (decide (id' = id)) as [->|]; [|rewrite lookup_alter_ne by done; by exists c].
    rewrite lookup_alter_eq, Hc. eexists. split; [done|]. unfold got_state. by rewrite Hst.
  - destruct (decide (id' = id)) as [->|]; [|rewrite lookup_alter_ne by done; by exists c].
    rewrite lookup_alter_eq, Hc. eexists. split; [done|]. unfold subscribed. by rewrite Hst.
  - rewrite lookup_fmap, Hc. eexists. split; [done|]. unfold heard. by rewrite H1, andb_false_r.
  - destruct (decide (id' = id)) as [->|]; [|rewrite lookup_alter_ne by done; by exists c].
    rewrite lookup_alter_eq, Hc. eexists. split; [done|]. unfold disconnected. by rewrite H1.
  - destruct (decide (id' = id)) as [->|]; [|rewrite lookup_alter_ne by done; by exists c].
    rewrite lookup_alter_eq, Hc. eexists. split; [done|]. unfold emitted, leaked.
    destruct (sp_queue c) as [q|]; [|done]. by destruct (q_run q).
Qed.

Lemma early_leaver_stays_listed id tableId s es :
  ∃ c, spectator_run ([SConnect id tableId; SState id s; SDisconnect id; SSubscribe id] ++ es) !! id = Some c ∧ leaked c.
Proof.
  unfold spectator_run. rewrite foldl_app.
  assert (∃ c, foldl spectator_step ∅ [SConnect id tableId; SState id s; SDisconnect id; SSubscribe id] !! id = Some c
               ∧ leaked c ∧ sp_stage c = Ready) as (c & Hc & Hl & Hst).
  { cbn [foldl spectator_step]. rewrite lookup_empty, !lookup_alter_eq, lookup_insert_eq. cbn [fmap option_fmap option_map].
    eexists. split; [reflexivity|]. unfold got_state, enqueue. cbn [sp_stage joined].
    by destruct (_ <=? _)%nat. }
  revert Hc Hl Hst. generalize (foldl spectator_step ∅ [SConnect id tableId; SState id s; SDisconnect id; SSubscribe id]).
  revert c. induction es as [|e es IH]; intros c m Hc Hl Hst; [by exists c|]. cbn [foldl].
  destruct (leaked_step m e id c Hc Hl Hst) as (c' & Hc' & Hl' & Hst'). by apply (IH c').
Qed.
End Gateway.

(** ** Concrete runs *)

Definition two_hands (pot : Z) : GameStateInternal :=
  GameState BETTING_ROUND preflop pot [] 2
    [Player "a" 98 false 2 false (Some [1; 2]); Player "b" 98 false 2 false (Some [3; 4])] [9; 8] [].
Definition spectator_events : list SpectatorEvent :=
  [SConnect "x" "t1"; SState "x" (two_hands 4); SSubscribe "x"; SPublish "t2" (two_hands 6); SPublish "t1" (two_hands 8);
   SEmit "x"; SEmit "x"; SEmit "x"].

Lemma spectators_see_sanitized_frames_witness :
  ∃ c, spectator_run (Q := InlinePQueue PublicState) 100 spectator_events !! "x" = Some c
       ∧ pub_pot <$> sp_sent c = [4; 8]
       ∧ ∀ frame p, frame ∈ sp_sent c → p ∈ pub_players frame → pub_holeCards p = None.
Proof.
  assert (∃ c, spectator_run (Q := InlinePQueue PublicState) 100 spectator_events !! "x" = Some c
               ∧ pub_pot <$> sp_sent c = [4; 8]) as (c & Hc & Hp)
    by (eexists; split; vm_compute; reflexivity).
  exists c. split; [exact Hc|]. split; [exact Hp|].
  apply (spectators_see_sanitized_frames (Q := InlinePQueue PublicState) 100 spectator_events "x" c Hc).
Defined.
