(* ===== verification/Compliance.v ===== *)
(** * Money and identity

    The wallet asks the identity checks before cash moves: [WalletCash]'s parameter
    [kyc_isVerified] is [Kyc.isVerified] of kyc.service.ts, at the state the service
    is in. What the two promise together. *)

From S2P Require Import Prelude Store JsText SidePots WalletModel WalletCash WalletLedger Kyc KycSafety.
#[local] Open Scope string_scope.
#[local] Open Scope Z_scope.

(** The wallet's answer comes from the identity service [kenv] in the state [k]. *)
Definition asks_identity {T : Type → Type} `{!TableOps T} {C : Type} `{!RedisOps C KycCached}
    (env : WalletEnv) (kenv : KycEnv) (k : KycStore (T := T) (R := C)) : Prop :=
  ∀ id ip, kyc_isVerified env id ip = true → (isVerified kenv id (Some ip) None k).1 = Ret true.

(** Nothing speaks against the account: what its withdrawal needs. *)
Definition cleared {T : Type → Type} {C : Type} `{!RedisOps C KycCached}
    (kenv : KycEnv) (k : KycStore (T := T) (R := C)) (a : KycAccount) (ip : string) : Prop :=
  ka_name a ≠ "" ∧ getRegionBlockReason kenv a = None ∧ geo_reason kenv (Some ip) = None
  ∧ (ka_verified a = true
     ∨ checkFlag kenv "sanctions" (ka_name a) = None ∧ checkFlag kenv "pep" (ka_name a) = None
       ∧ pr_allowed (provider_answer kenv a k) = true).

Section Compliance.
Context {T : Type → Type} `{!TableOps T, !TableLaws T} {C : Type} `{!RedisOps C KycCached, !RedisLaws C KycCached}.
Context {TW : Type → Type} `{!TableOps TW} {R : Type} `{!RedisOps R CachedValue, !RedisLaws R CachedValue} {B : Type} `{!BusOps B WalletEvent}.
Context (env : WalletEnv) (kenv : KycEnv) (k : KycStore (T := T) (R := C)).

(** A new request: it carries no key, or one under which no answer is stored. *)
Definition new_request (key : option string) (w : WalletState TW R B) : Prop :=
  ∀ i v, truthy key = Some i → r_get (idem_key i) (redis w) = Some v → v = CachedLock.

(** A new request that is answered ran its body, in a state with the same accounts. *)
Lemma idempotent_new key body (w : WalletState TW R B) v :
  new_request key w → (idempotent key body w).1 = Ret v →
  ∃ w', accounts w' = accounts w ∧ (body w').1 = Ret v.
Proof.
  intros Hnew. unfold idempotent, try_catch. rewrite bind_eq.
  assert (∀ o w', idem_enter (truthy key) w = (Ret o, w') → o = None ∧ accounts w' = accounts w) as Henter.
  { unfold new_request in Hnew. destruct (truthy key) as [i|]; [|by intros o w' [= <- <-]]. intros o w'.
    specialize (λ v, Hnew i v eq_refl). unfold idem_enter, redis_get, redis_setnx. rewrite bind_eq. unfold gets at 1.
    destruct (r_get (idem_key i) (redis w)) as [x|] eqn:E.
    - rewrite (Hnew x eq_refl), bind_eq, setnx_spec, E, bind_eq. unfold gets. cbn [redis set_redis]. rewrite E.
      by rewrite (Hnew x eq_refl).
    - rewrite bind_eq, setnx_spec, E. by intros [= <- <-]. }
  destruct (idem_enter (truthy key) w) as [[o|e] w'].
  - destruct (Henter o w' eq_refl) as [-> Hw']. rewrite bind_eq. destruct (body w') as [[x|e] w2] eqn:E.
    + rewrite bind_eq. destruct (idem_store _ _ w2) as [[u|e] w3]; cbn.
      * intros [= ->]. exists w'. by rewrite E.
      * by intros (? & ? & _ & ?)%ret_bind.
    + by intros (? & ? & _ & ?)%ret_bind.
  - by intros (? & ? & _ & ?)%ret_bind.
Qed.

Lemma withdraw_asks acc amt dev ip cur key (w : WalletState TW R B) v :
  new_request key w → (withdraw env acc amt dev ip cur key w).1 = Ret v → kyc_isVerified env acc ip = true.
Proof.
  intros Hn (w' & _ & H)%idempotent_new; [|done]. unfold withdraw_body in H.
  apply ret_bind in H as (_ & w1 & _ & H). apply ret_bind in H as (_ & w2 & _ & H).
  apply ret_bind in H as (_ & w3 & Hk%throw_if_ret & _). by apply negb_false_iff in Hk.
Qed.

Lemma bank_asks acc amt dev ip cur key (w : WalletState TW R B) v :
  new_request key w → (initiateBankTransfer env acc amt dev ip cur key w).1 = Ret v → kyc_isVerified env acc ip = true.
Proof.
  intros Hn (w' & _ & H)%idempotent_new; [|done]. unfold bank_body in H. destruct (bank_config env); [|done].
  apply ret_bind in H as (_ & w1 & _ & H). apply ret_bind in H as (_ & w2 & _ & H).
  apply ret_bind in H as (_ & w3 & _ & H).
  apply ret_bind in H as (_ & w4 & Hk%throw_if_ret & _). by apply negb_false_iff in Hk.
Qed.

(** What counts requests leaves the accounts alone. *)
Section Counting.
Context (t : TW Account).
Abbreviation at_t := (λ w : WalletState TW R B, accounts w = t).
Lemma counting_modify (f : WalletState TW R B → WalletState TW R B) :
  (∀ w, accounts (f w) = accounts w) → preserves at_t (modify f).
Proof. intros Hf. apply preserves_modify. intros w Hw. by rewrite Hf. Qed.
Lemma counting_incrby key n : preserves at_t (redis_incrby key n : M (WalletState TW R B) Z).
Proof. intros w Hw. unfold redis_incrby. by destruct (r_incrby key n (redis w)). Qed.
Lemma counting_expire key n : preserves at_t (redis_expire key n : M (WalletState TW R B) Z).
Proof. intros w Hw. unfold redis_expire. by destruct (r_expire key n (redis w)). Qed.
Lemma counting_emit ev : preserves at_t (emit ev : M (WalletState TW R B) unit).
Proof. intros w Hw. unfold emit. by destruct (bus_emit ev (bus w)). Qed.
Hint Resolve counting_incrby counting_expire counting_emit : hub.
Hint Extern 1 (preserves _ (modify _)) => (apply counting_modify; done) : hub.
Lemma counting_checkVelocity op dev ip : preserves at_t (checkVelocity op dev ip : M (WalletState TW R B) unit).
Proof. unfold checkVelocity. preserve. Qed.
Lemma counting_enforceVelocity op acc amt : preserves at_t (enforceVelocity env op acc amt : M (WalletState TW R B) unit).
Proof. unfold enforceVelocity, velocity_window. preserve. Qed.
End Counting.

(** A deposit by card reads the flag of the row. *)
Lemma deposit_reads_flag acc amt dev ip cur key (w : WalletState TW R B) v :
  new_request key w → (deposit env acc amt dev ip cur key w).1 = Ret v →
  ∃ a, a ∈ rows (accounts w) ∧ a_id a = acc ∧ a_kycVerified a = true.
Proof.
  intros Hn (w' & Hw' & H)%idempotent_new; [|done]. unfold deposit_body in H.
  apply ret_bind in H as (? & w1 & H1 & H). apply ret_bind in H as (? & w2 & H2 & H).
  apply ret_bind in H as (? & w3 & H3 & H). apply ret_bind in H as (a & w4 & H4 & H).
  apply ret_bind in H as (_ & w5 & Hk%throw_if_ret & _). apply negb_false_iff in Hk.
  assert (accounts w1 = accounts w) as E1.
  { unfold check_geo, throw_if in H1. rewrite <- Hw'. destruct (match geo_isAllowed env with Some _ => _ | None => _ end); [done|]. by injection H1 as _ <-. }
  assert (accounts w2 = accounts w) as E2.
  { pose proof (counting_checkVelocity (accounts w) OpDeposit dev ip w1 E1) as E. by rewrite H2 in E. }
  assert (accounts w3 = accounts w) as E3.
  { pose proof (counting_enforceVelocity (accounts w) OpDeposit acc amt w2 E2) as E. by rewrite H3 in E. }
  unfold account_by_id in H4. rewrite bind_eq in H4. unfold gets in H4. rewrite E3 in H4.
  destruct (find_row _ (accounts w)) as [row|] eqn:Ef; [|done]. injection H4 as E4 _. subst row.
  apply find_row_Some in Ef as [Hin [Hid%bool_decide_eq_true _]%andb_true_iff]. by exists a.
Qed.

(** An account the identity service admits is cleared. *)
Lemma verified_is_cleared c id ip :
  ks_cache k = Some c → (isVerified kenv id (Some ip) None k).1 = Ret true →
  ∃ a, a ∈ rows (ks_accounts k) ∧ ka_id a = id ∧ cleared kenv k a ip.
Proof.
  intros Hc H. unfold isVerified in H. apply ret_bind in H as (a & k' & Ha & H).
  unfold kyc_account in Ha. rewrite bind_eq in Ha. unfold gets in Ha.
  destruct (find_row _ (ks_accounts k)) as [a'|] eqn:Ef; [|done]. injection Ha as -> ->.
  apply find_row_Some in Ef as [Hin Hid%bool_decide_eq_true]. exists a. split; [done|]. split; [done|].
  assert ((validate kenv a (Some ip) None k').1 = Ret tt) as Hv.
  { unfold try_catch in H. rewrite bind_eq in H. by destruct (validate kenv a (Some ip) None k') as [[[]|e] s']. }
  rewrite (proj1 (validate_cases kenv a (Some ip) None k' c Hc)) in Hv.
  unfold field_reason, listed_reason in Hv. case_bool_decide as Hn; [done|]. cbn [check_reason given first_of] in Hv.
  split; [done|]. destruct (getRegionBlockReason kenv a); [done|]. split; [done|].
  destruct (geo_reason kenv (Some ip)); [done|]. split; [done|]. cbn [first_of] in Hv.
  destruct (ka_verified a); [by left|]. right. destruct (checkFlag kenv "sanctions" (ka_name a)); [done|].
  destruct (checkFlag kenv "pep" (ka_name a)); [done|]. cbn [first_of] in Hv. unfold provider_reason in Hv.
  by destruct (pr_allowed (provider_answer kenv a k')).
Qed.

(** C17: Cash moves only for cleared accounts. With the identity service behind the wallet and a cache
    behind that service (without one [no_cache_admits_the_listed]), a new request -- without a key, or with
    a key under which no answer is stored -- that is accepted is of one of two kinds. A withdrawal or bank
    transfer belongs to an account the service knows, with a name, outside the blocked regions by record and
    by address, which was verified before or which neither the sanctions nor the PEP provider flags and the
    identity provider clears. A deposit by card belongs to an account whose row is marked as verified. *)
Theorem cash_needs_cleared_account c acc amt dev ip cur key (w : WalletState TW R B) v :
  asks_identity env kenv k → ks_cache k = Some c → new_request key w →
  ((withdraw env acc amt dev ip cur key w).1 = Ret v ∨ (initiateBankTransfer env acc amt dev ip cur key w).1 = Ret v →
   ∃ a, a ∈ rows (ks_accounts k) ∧ ka_id a = acc ∧ cleared kenv k a ip)
  ∧ ((deposit env acc amt dev ip cur key w).1 = Ret v →
     ∃ a, a ∈ rows (accounts w) ∧ a_id a = acc ∧ a_kycVerified a = true).
Proof.
  intros Hask Hc Hnew. split; [|by apply deposit_reads_flag]. intros H.
  apply (verified_is_cleared c); [done|]. apply Hask.
  destruct H as [H|H]; [by eapply withdraw_asks | by eapply bank_asks].
Qed.
End Compliance.

(** ** A concrete run *)

Definition kyc_accounts : KycStore (T := list) (R := map_redis KycCached) :=
  {| ks_accounts := [acct "alice" "alice"; acct "bob" "Evil Corp"]; ks_verifications := []; ks_cache := cache0;
     ks_blocked := []; ks_sanctioned := []; ks_queue := [] |}.
Definition identity_env : WalletEnv := {|
  sha256_hex := sha256_hex demo_env; randomUUID := randomUUID demo_env; provider_http := provider_http demo_env;
  kyc_validate := kyc_validate demo_env;
  kyc_isVerified := λ id ip, match (isVerified kyc_env0 id (Some ip) None kyc_accounts).1 with Ret b => b | _ => false end;
  kyc_denialReason := kyc_denialReason demo_env; geo_isAllowed := None; system_accounts := system_accounts demo_env;
  daily_limit := daily_limit demo_env; hourly_count_limit := hourly_count_limit demo_env;
  hourly_amount_limit := hourly_amount_limit demo_env; daily_count_limit := daily_count_limit demo_env;
  bank_config := bank_config demo_env; queue_connected := false; chargeback_limits := chargeback_limits demo_env |}.

Lemma cash_needs_cleared_account_witness :
  (withdraw identity_env "bob" 40 "dev" "ip" "USD" (Some "k1") demo_world).1 = Throw "KYC required"
  ∧ ∃ a, a ∈ rows (ks_accounts kyc_accounts) ∧ ka_id a = "alice" ∧ cleared kyc_env0 kyc_accounts a "ip".
Proof.
  split; [vm_compute; reflexivity|].
  refine (proj1 (cash_needs_cleared_account identity_env kyc_env0 kyc_accounts (MapRedis ∅ ∅ ∅) "alice" 40 "dev" "ip" "USD"
    (Some "k1") demo_world (CachedProviderChallenge "pi-0") _ eq_refl _) _).
  - intros id ip H. cbn in H. destruct (isVerified kyc_env0 id (Some ip) None kyc_accounts).1; [by subst | done].
  - intros i x [= <-] Hx. vm_compute in Hx. discriminate Hx.
  - left. vm_compute. reflexivity.
Defined.
