(* ===== verification/Schemas.v ===== *)
(** * The schemas of events and alerts

    shared/events.ts, with the schemas it takes from shared/schemas/game.ts,
    backend/src/schemas/notifications.ts, shared/schemas/analytics.ts and
    backend/src/schemas/admin.ts: every event the backend publishes has a schema,
    and the publisher parses the payload before it sends it. Schemas are data;
    the package that interprets them is the class [Zod], whose laws say what its
    documentation says of the combinators used here. *)

From S2P Require Import Prelude JsText WalletModel.
#[local] Open Scope string_scope.
#[local] Open Scope list_scope.
#[local] Open Scope Z_scope.

(** ** JavaScript values *)

(** Numbers are the integers that events carry; a field that holds [VUndefined]
    is the same as no field. *)
Inductive jsval :=
| VUndefined
| VNull
| VBool (b : bool)
| VNum (n : Z)
| VStr (s : string)
| VArr (l : list jsval)
| VObj (fields : list (string * jsval))
| VFun (name : string).

Fixpoint field (k : string) (fields : list (string * jsval)) : jsval :=
  match fields with
  | [] => VUndefined
  | (k', v) :: rest => if String.eqb k k' then v else field k rest
  end.
Definition is_undefined (v : jsval) : bool := match v with VUndefined => true | _ => false end.

(** An object literal: fields that are [undefined] do not count. *)
Fixpoint present (fields : list (string * jsval)) : list (string * jsval) :=
  match fields with
  | [] => []
  | (k, v) :: rest => if is_undefined v then present rest else (k, v) :: present rest
  end.
Definition obj (fields : list (string * jsval)) : jsval := VObj (present fields).
Definition opt {A} (f : A → jsval) (o : option A) : jsval := from_option f VUndefined o.

(** ** Schemas as data *)

Inductive string_check := CUuid | CDatetime | CEmail | CLength (n : nat) | CMin (n : nat) | CUrl.
Inductive number_check := CInt | CNonnegative | CPositive.

Inductive schema :=
| ZString (checks : list string_check)
| ZNumber (checks : list number_check)
| ZBoolean
| ZEnum (values : list string)
| ZArray (element : schema)
| ZArrayOf (n : nat) (element : schema)
| ZNonempty (element : schema)
| ZRecord (element : schema)
| ZUnknown
| ZOptional (s : schema)
| ZNullable (s : schema)
| ZDefault (s : schema) (v : jsval)
| ZUnion (options : list schema)
| ZIntersection (a b : schema)
| ZObject (passthrough : bool) (shape : list (string * schema))
| ZStrict (shape : list (string * schema)).

(** [z.string().uuid()]: eight, four, four, four and twelve hexadecimal digits. *)
Definition is_hex (c : ascii) : bool :=
  let n := Z.of_nat (nat_of_ascii c) in
  ((48 <=? n) && (n <=? 57)) || ((65 <=? n) && (n <=? 70)) || ((97 <=? n) && (n <=? 102)).
Definition hex_of_length (n : nat) (s : string) : bool :=
  (String.length s =? n)%nat && forallb is_hex (String.list_ascii_of_string s).
Definition is_uuid (s : string) : bool :=
  match js_split "-" s with
  | [a; b; c; d; e] => hex_of_length 8 a && hex_of_length 4 b && hex_of_length 4 c
                       && hex_of_length 4 d && hex_of_length 12 e
  | _ => false
  end.

Definition number_ok (n : Z) (c : number_check) : bool :=
  match c with CInt => true | CNonnegative => 0 <=? n | CPositive => 0 <? n end.

(** ** The package *)

Class ZodOps := {
  z_parse : schema → jsval → option jsval;
  z_datetime : string → bool;
  z_email : string → bool;
  z_url : string → bool }.

Definition string_ok `{!ZodOps} (s : string) (c : string_check) : bool :=
  match c with
  | CUuid => is_uuid s
  | CDatetime => z_datetime s
  | CEmail => z_email s
  | CLength n => (String.length s =? n)%nat
  | CMin n => (n <=? String.length s)%nat
  | CUrl => z_url s
  end.

Section Combinators.
Context (P : schema → jsval → option jsval).

(** Every key of the shape is parsed, absent ones as [undefined]. *)
Fixpoint parse_shape (shape : list (string * schema)) (fields : list (string * jsval))
    : option (list (string * jsval)) :=
  match shape with
  | [] => Some []
  | (k, s) :: shape' =>
      v ← P s (field k fields);
      rest ← parse_shape shape' fields;
      Some (if is_undefined v then rest else (k, v) :: rest)
  end.

Fixpoint first_success (options : list schema) (v : jsval) : option jsval :=
  match options with
  | [] => None
  | s :: rest => match P s v with Some v' => Some v' | None => first_success rest v end
  end.
End Combinators.

(** What the documentation of the package says, for the values above. *)
Class ZodLaws `{!ZodOps} : Prop := {
  parse_string cs v :
    z_parse (ZString cs) v = match v with VStr s => if forallb (string_ok s) cs then Some v else None | _ => None end;
  parse_number cs v :
    z_parse (ZNumber cs) v = match v with VNum n => if forallb (number_ok n) cs then Some v else None | _ => None end;
  parse_boolean v : z_parse ZBoolean v = match v with VBool _ => Some v | _ => None end;
  parse_enum l v :
    z_parse (ZEnum l) v = match v with VStr s => if bool_decide (s ∈ l) then Some v else None | _ => None end;
  parse_array s v :
    z_parse (ZArray s) v = match v with VArr l => VArr <$> mapM (z_parse s) l | _ => None end;
  parse_array_of n s v :
    z_parse (ZArrayOf n s) v =
      match v with VArr l => if (length l =? n)%nat then VArr <$> mapM (z_parse s) l else None | _ => None end;
  parse_nonempty s v :
    z_parse (ZNonempty s) v =
      match v with VArr l => if bool_decide (l = []) then None else VArr <$> mapM (z_parse s) l | _ => None end;
  parse_record s v :
    z_parse (ZRecord s) v =
      match v with VObj fs => VObj <$> mapM (λ p, x ← z_parse s p.2; Some (p.1, x)) fs | _ => None end;
  parse_unknown v : z_parse ZUnknown v = Some v;
  parse_optional s v : z_parse (ZOptional s) v = match v with VUndefined => Some VUndefined | _ => z_parse s v end;
  parse_nullable s v : z_parse (ZNullable s) v = match v with VNull => Some VNull | _ => z_parse s v end;
  parse_default s d v : z_parse (ZDefault s d) v = match v with VUndefined => Some d | _ => z_parse s v end;
  parse_union l v : z_parse (ZUnion l) v = first_success z_parse l v;
  (** Two objects that agree on the keys they share are merged. *)
  parse_intersection a b v x y :
    z_parse a v = Some (VObj x) → z_parse b v = Some (VObj y) →
    (∀ k vx vy, (k, vx) ∈ x → (k, vy) ∈ y → vx = vy) →
    z_parse (ZIntersection a b) v = Some (VObj (x ++ filter (λ p, p.1 ∉ x.*1) y));
  parse_intersection_fails a b v :
    z_parse a v = None ∨ z_parse b v = None → z_parse (ZIntersection a b) v = None;
  (** Other keys are dropped, or passed through. *)
  parse_object pass shape v :
    z_parse (ZObject pass shape) v =
      match v with
      | VObj fs => r ← parse_shape z_parse shape fs;
                   Some (VObj (r ++ if (pass : bool) then filter (λ p, p.1 ∉ shape.*1) fs else []))
      | _ => None
      end;
  (** An object with any other key is refused. *)
  parse_strict shape fs : Forall (λ p, is_undefined p.2 = false) fs →
    z_parse (ZStrict shape) (VObj fs) =
      if forallb (λ p, bool_decide (p.1 ∈ shape.*1)) fs then VObj <$> parse_shape z_parse shape fs else None;
  datetime_iso t : 0 <= t < 250000000000000 → z_datetime (iso_time t) = true }.

(** ** The schemas *)

Definition s_uuid : schema := ZString [CUuid].
Definition s_str : schema := ZString [].
Definition s_num : schema := ZNumber [].
Definition s_object : list (string * schema) → schema := ZObject false.

Definition BaseAction : list (string * schema) := [("tableId", s_str); ("playerId", s_str)].
Definition action_with (type : string) (extra : list (string * schema)) : schema :=
  s_object (BaseAction ++ [("type", ZEnum [type])] ++ extra).
(** The union is discriminated by [type], whose literals differ. *)
Definition GameActionSchema : schema := ZUnion [
  action_with "postBlind" [("amount", ZNumber [CInt; CPositive])];
  action_with "bet" [("amount", ZNumber [CInt; CPositive])];
  action_with "raise" [("amount", ZNumber [CInt; CPositive])];
  action_with "call" [("amount", ZOptional (ZNumber [CInt; CPositive]))];
  action_with "check" [];
  action_with "fold" [];
  s_object [("type", ZEnum ["next"]); ("tableId", s_str)]].

Definition NotificationTypeSchema : schema := ZEnum ["bonus"; "tournament"; "system"].

Definition HandStartEvent : schema := s_object [
  ("handId", s_uuid); ("tableId", ZOptional s_uuid); ("players", ZArray s_uuid); ("stake", ZOptional s_str)].
Definition HandEndEvent : schema := s_object [
  ("handId", s_uuid); ("tableId", ZOptional s_uuid); ("winners", ZOptional (ZArray s_uuid));
  ("stake", ZOptional s_str)].
Definition HandSettleEvent : schema := s_object [
  ("handId", s_uuid); ("tableId", ZOptional s_uuid); ("playerIds", ZArray s_uuid);
  ("deltas", ZArray s_num); ("stake", ZOptional s_str)].
Definition WalletMovementEvent : schema := s_object [
  ("accountId", s_uuid); ("amount", s_num); ("refType", s_str); ("refId", s_str); ("currency", s_str)].
Definition TournamentCancelEvent : schema := s_object [("tournamentId", s_uuid)].
Definition WalletReserveEvent : schema := s_object [
  ("accountId", s_uuid); ("amount", s_num); ("refId", s_str); ("currency", s_str)].
Definition WalletCommitEvent : schema := s_object [
  ("refId", s_str); ("amount", s_num); ("rake", s_num); ("currency", s_str)].
Definition WalletRollbackEvent : schema := s_object [
  ("accountId", s_uuid); ("amount", s_num); ("refId", s_str); ("currency", s_str)].
Definition AuthLoginEvent : schema := s_object [("userId", s_uuid); ("ts", ZNumber [CInt])].
Definition AntiCheatWalletEvent : schema := s_object [
  ("accountId", s_uuid); ("operation", ZEnum ["deposit"; "withdraw"]); ("amount", s_num);
  ("dailyTotal", s_num); ("limit", s_num); ("currency", s_str)].
Definition AntiCheatCollusionEvent : schema := s_object [
  ("sessionId", s_str); ("users", ZArray s_uuid); ("features", ZRecord ZUnknown)].
Definition AntiCheatFlagEvent : schema := ZUnion [AntiCheatWalletEvent; AntiCheatCollusionEvent].
Definition CollusionTransferEvent : schema := s_object [("from", s_str); ("to", s_str); ("amount", s_num)].
Definition GameEvent : schema := ZObject true [
  ("playerId", s_str); ("sessionId", ZOptional s_str); ("ts", ZOptional s_num);
  ("points", ZOptional s_num); ("net", ZOptional s_num); ("bb", ZOptional s_num);
  ("hands", ZOptional s_num); ("duration", ZOptional s_num); ("buyIn", ZOptional s_num);
  ("finish", ZOptional s_num); ("userId", ZOptional s_str); ("vpip", ZOptional s_num);
  ("seat", ZOptional s_num); ("timestamp", ZOptional s_num); ("handId", ZOptional s_str);
  ("timeMs", ZOptional s_num); ("transfer", ZOptional CollusionTransferEvent);
  ("clientId", ZOptional s_str); ("action", ZOptional (ZRecord ZUnknown))].
Definition TournamentEvent : schema := ZObject true [
  ("type", s_str); ("tournamentId", s_str); ("startDate", ZOptional s_str)].
Definition WalletVelocityLimitEvent : schema := s_object [
  ("accountId", s_uuid); ("operation", ZEnum ["deposit"; "withdraw"]); ("type", ZEnum ["count"; "amount"]);
  ("window", ZEnum ["hour"; "day"]); ("limit", s_num); ("value", s_num)].
Definition WalletChargebackFlagEvent : schema := s_object [
  ("accountId", s_uuid); ("deviceId", s_str); ("count", s_num); ("limit", s_num)].
Definition WalletReconcileMismatchEvent : schema := s_object [
  ("date", s_str); ("total", s_num);
  ("report", ZOptional (ZArray (s_object [("account", s_str); ("balance", s_num); ("journal", s_num)])));
  ("reportCount", ZOptional (ZNumber [CInt; CNonnegative]))].
Definition WalletReconcileMismatchAcknowledgedEvent : schema := s_object [
  ("account", s_str); ("acknowledgedBy", s_str); ("acknowledgedAt", ZString [CDatetime])].
Definition NotificationCreateEvent : schema := s_object [
  ("userId", s_uuid); ("type", NotificationTypeSchema); ("message", s_str)].
Definition GameAnalyticsActionSchema : schema :=
  ZIntersection GameActionSchema (s_object [("actionId", s_str)]).
Definition GameAnalyticsEvent : schema := ZObject true [
  ("clientId", s_str); ("action", GameAnalyticsActionSchema); ("stake", ZOptional s_str);
  ("handId", ZOptional s_str); ("playerId", ZOptional s_str); ("timeMs", ZOptional s_num);
  ("tableId", ZOptional s_str)].
Definition TournamentAnalyticsEvent : schema := ZObject true [
  ("type", s_str); ("tournamentId", s_str); ("startDate", ZOptional (ZString [CDatetime]))].
Definition WalletDisbursementRequestEvent : schema := s_object [
  ("id", s_uuid); ("accountId", s_uuid); ("amount", ZNumber [CInt]); ("currency", ZString [CLength 3]);
  ("idempotencyKey", s_str)].
Definition TournamentBubbleEvent : schema := s_object [
  ("tournamentId", s_str); ("remainingPlayers", ZNumber [CInt; CNonnegative])].
Definition WalletDepositRejectedEvent : schema := s_object [
  ("accountId", s_uuid); ("depositId", s_uuid); ("currency", ZString [CLength 3]); ("reason", ZOptional s_str)].
Definition WalletDepositConfirmedEvent : schema := s_object [
  ("accountId", s_uuid); ("depositId", s_uuid); ("amount", s_num); ("currency", ZString [CLength 3])].
Definition AdminDepositPendingEvent : schema := s_object [
  ("depositId", s_uuid); ("jobId", ZOptional s_str); ("userId", s_uuid); ("amount", s_num);
  ("currency", ZString [CLength 3]); ("expectedBalance", ZOptional s_num);
  ("confirmDeposit", ZOptional ZUnknown); ("confirmedEvent", ZOptional WalletDepositConfirmedEvent)].
Definition AdminDepositRejectedEvent : schema := s_object [("depositId", s_uuid); ("reason", ZOptional s_str)].
Definition AdminDepositConfirmedEvent : schema := s_object [("depositId", s_uuid)].

Definition EventSchemas : list (string * schema) := [
  ("hand.start", HandStartEvent);
  ("hand.end", HandEndEvent);
  ("hand.settle", HandSettleEvent);
  ("leaderboard.hand_settled", HandSettleEvent);
  ("game.analytics", GameAnalyticsEvent);
  ("tournament.analytics", TournamentAnalyticsEvent);
  ("wallet.credit", WalletMovementEvent);
  ("wallet.debit", WalletMovementEvent);
  ("tournament.cancel", TournamentCancelEvent);
  ("tournament.bubble", TournamentBubbleEvent);
  ("wallet.reserve", WalletReserveEvent);
  ("wallet.rollback", WalletRollbackEvent);
  ("wallet.commit", WalletCommitEvent);
  ("auth.login", AuthLoginEvent);
  ("antiCheat.flag", AntiCheatFlagEvent);
  ("game.event", GameEvent);
  ("tournament.event", TournamentEvent);
  ("wallet.velocity.limit", WalletVelocityLimitEvent);
  ("wallet.reconcile.mismatch", WalletReconcileMismatchEvent);
  ("wallet.reconcile.mismatch.resolved", WalletReconcileMismatchAcknowledgedEvent);
  ("wallet.chargeback_flag", WalletChargebackFlagEvent);
  ("notification.create", NotificationCreateEvent);
  ("wallet.disbursement.request", WalletDisbursementRequestEvent);
  ("wallet.deposit.rejected", WalletDepositRejectedEvent);
  ("wallet.deposit.confirmed", WalletDepositConfirmedEvent);
  ("admin.deposit.pending", AdminDepositPendingEvent);
  ("admin.deposit.rejected", AdminDepositRejectedEvent);
  ("admin.deposit.confirmed", AdminDepositConfirmedEvent)].

Definition AlertItemSchema : schema := s_object [
  ("id", s_str); ("severity", ZEnum ["danger"; "warning"]); ("title", s_str); ("body", s_str);
  ("time", s_str); ("resolved", ZDefault ZBoolean (VBool false))].
Definition AdminEventSchema : schema := s_object [
  ("id", s_str); ("title", s_str); ("description", s_str); ("date", s_str)].

Definition event_schema (name : string) : option schema :=
  snd <$> head (filter (λ p, p.1 = name) EventSchemas).

(** [EventSchemas[name].parse(payload)]; a name without schema is a [TypeError]. *)
Definition parseEvent `{!ZodOps} (name : string) (payload : jsval) : option jsval :=
  s ← event_schema name; z_parse s payload.

(** An object with a field its schema refuses is refused. *)
Lemma shape_refused {ZO : ZodOps} shape fields k sch :
  (k, sch) ∈ shape → z_parse sch (field k fields) = None → parse_shape z_parse shape fields = None.
Proof.
  intros Hin Hf. induction shape as [|[k' sch'] shape IH]; [by apply elem_of_nil in Hin|]. cbn [parse_shape].
  apply elem_of_cons in Hin as [[= <- <-]|Hin]; [by rewrite Hf|].
  rewrite (IH Hin). by destruct (z_parse sch' (field k' fields)).
Qed.

Lemma element_refused {ZO : ZodOps} {ZL : ZodLaws} s v l :
  v ∈ l → z_parse s v = None → z_parse (ZArray s) (VArr l) = None.
Proof.
  intros Hin Hv. rewrite parse_array.
  assert (mapM (z_parse s) l = None) as ->; [|done].
  induction l as [|x l IH]; [by apply elem_of_nil in Hin|]. cbn.
  apply elem_of_cons in Hin as [->|Hin]; [by rewrite Hv|]. rewrite (IH Hin). by destruct (z_parse s x).
Qed.

Lemma hex_length n s : hex_of_length n s = true → String.length s = n.
Proof. unfold hex_of_length. by intros [H%Nat.eqb_eq _]%andb_true_iff. Qed.

Lemma length_list_ascii s : length (String.list_ascii_of_string s) = String.length s.
Proof. induction s as [|c s IH]; cbn; [done | by rewrite IH]. Qed.

Lemma uuid_length s : is_uuid s = true → String.length s = 36%nat.
Proof.
  unfold is_uuid. intros H. pose proof (split_on_length "-" [] (String.list_ascii_of_string s)) as Hl.
  rewrite length_list_ascii in Hl. unfold js_split in *.
  destruct (split_on "-" [] (String.list_ascii_of_string s)) as [|a [|b [|c [|d [|e [|]]]]]]; try done.
  apply andb_true_iff in H as [H He%hex_length]. apply andb_true_iff in H as [H Hd%hex_length].
  apply andb_true_iff in H as [H Hc%hex_length]. apply andb_true_iff in H as [Ha%hex_length Hb%hex_length].
  rewrite !fmap_cons, fmap_nil in Hl. cbn -[String.length] in Hl. rewrite Ha, Hb, Hc, Hd, He in Hl. lia.
Qed.

(** ** What a parsed object holds *)

Lemma field_absent k (fields : list (string * jsval)) : k ∉ fields.*1 → field k fields = VUndefined.
Proof.
  induction fields as [|[k' v] fields IH]; [done|]. cbn. intros [Hne Hk]%not_elem_of_cons.
  destruct (String.eqb_spec k k'); [done|]. by apply IH.
Qed.

Section ParsedShape.
Context (P : schema → jsval → option jsval).

Lemma parse_shape_keys shape fs out k : parse_shape P shape fs = Some out → k ∈ out.*1 → k ∈ shape.*1.
Proof.
  revert out. induction shape as [|[k' s] shape IH]; intros out; cbn; [intros [= <-]; by intros ?%elem_of_nil|].
  destruct (P s (field k' fs)) as [v|]; [|done]. cbn. destruct (parse_shape P shape fs) as [rest|] eqn:E; [|done].
  cbn. intros [= <-]. destruct (is_undefined v); rewrite ?fmap_cons, ?elem_of_cons; cbn; naive_solver.
Qed.

Lemma parse_shape_field shape fs out k s :
  parse_shape P shape fs = Some out → NoDup shape.*1 → (k, s) ∈ shape → P s (field k fs) = Some (field k out).
Proof.
  revert out. induction shape as [|[k' s'] shape IH]; intros out; [by intros _ _ ?%elem_of_nil|]. cbn.
  destruct (P s' (field k' fs)) as [v|] eqn:Ev; [|done]. cbn.
  destruct (parse_shape P shape fs) as [rest|] eqn:E; [|done]. cbn. intros [= <-] [Hn Hnd]%NoDup_cons Hin.
  assert (k' ∉ rest.*1) as Hr by (intros H; by eapply Hn, parse_shape_keys).
  apply elem_of_cons in Hin as [[= -> ->]|Hin].
  - destruct (is_undefined v) eqn:Eu; [|by cbn; rewrite String.eqb_refl].
    rewrite (field_absent _ _ Hr). rewrite Ev. by destruct v.
  - rewrite (IH _ eq_refl Hnd Hin). destruct (is_undefined v); [done|]. cbn.
    destruct (String.eqb_spec k k') as [->|]; [|done]. exfalso. apply Hn. by apply (list_elem_of_fmap_2 fst _ (k', s)).
Qed.

Lemma parse_shape_other shape fs out k : parse_shape P shape fs = Some out → k ∉ shape.*1 → field k out = VUndefined.
Proof. intros H Hk. apply field_absent. intros Hin. by eapply Hk, parse_shape_keys. Qed.
End ParsedShape.

(** A field that does not parse. *)
Lemma parse_shape_fails (P : schema → jsval → option jsval) shape fs k s :
  (k, s) ∈ shape → P s (field k fs) = None → parse_shape P shape fs = None.
Proof.
  intros Hin HP. induction shape as [|[k' s'] shape IH]; [by apply elem_of_nil in Hin|]. cbn.
  apply elem_of_cons in Hin as [[= <- <-]|Hin]; [by rewrite HP|]. rewrite (IH Hin). by destruct (P s' (field k' fs)).
Qed.

(** An object literal has the fields it was written with. *)
Lemma field_present k fields : field k (present fields) = field k fields ∨ (k ∈ fields.*1 ∧ ¬ NoDup fields.*1).
Proof.
  induction fields as [|[k' v] fields IH]; [by left|]. cbn. destruct (decide (k' ∈ fields.*1)) as [Hin|Hn].
  { destruct (String.eqb_spec k k') as [->|Hne].
    - right. rewrite elem_of_cons. split; [by left|]. by intros [? _]%NoDup_cons.
    - destruct IH as [IH|[H1 H2]].
      + left. destruct (is_undefined v); [done|]. cbn. by destruct (String.eqb_spec k k').
      + right. rewrite elem_of_cons. split; [by right|]. by intros [_ ?]%NoDup_cons. }
  destruct (String.eqb_spec k k') as [->|Hne].
  - left. destruct (is_undefined v) eqn:Eu; [|by cbn; rewrite String.eqb_refl].
    destruct IH as [->|[]]; [|done]. rewrite (field_absent _ _ Hn). by destruct v.
  - destruct IH as [IH|[H1 H2]].
    + left. destruct (is_undefined v); [done|]. cbn. by destruct (String.eqb_spec k k').
    + right. rewrite elem_of_cons. split; [by right|]. by intros [_ ?]%NoDup_cons.
Qed.

(** ** Values a schema accepts as they are *)

Section Accepted.
Context {ZO : ZodOps} {ZL : ZodLaws}.

Lemma uuid_accepted x : is_uuid x → z_parse s_uuid (VStr x) = Some (VStr x).
Proof. intros H. unfold s_uuid. rewrite parse_string. cbn. by rewrite (Is_true_true_1 _ H). Qed.
Lemma str_accepted x : z_parse s_str (VStr x) = Some (VStr x).
Proof. unfold s_str. by rewrite parse_string. Qed.
Lemma num_accepted n : z_parse s_num (VNum n) = Some (VNum n).
Proof. unfold s_num. by rewrite parse_number. Qed.
Lemma int_accepted n : z_parse (ZNumber [CInt]) (VNum n) = Some (VNum n).
Proof. by rewrite parse_number. Qed.
Lemma currency_accepted c : String.length c = 3%nat → z_parse (ZString [CLength 3]) (VStr c) = Some (VStr c).
Proof. intros H. rewrite parse_string. cbn. by rewrite H. Qed.
Lemma enum_accepted l x : x ∈ l → z_parse (ZEnum l) (VStr x) = Some (VStr x).
Proof. intros H. rewrite parse_enum. by rewrite bool_decide_eq_true_2. Qed.
Lemma system_accepted : z_parse NotificationTypeSchema (VStr "system") = Some (VStr "system").
Proof. apply enum_accepted. set_solver. Qed.
Lemma datetime_accepted t :
  0 <= t < 250000000000000 → z_parse (ZString [CDatetime]) (VStr (iso_time t)) = Some (VStr (iso_time t)).
Proof. intros Ht. rewrite parse_string. cbn. by rewrite datetime_iso. Qed.
Lemma count_accepted n :
  z_parse (ZNumber [CInt; CNonnegative]) (VNum (Z.of_nat n)) = Some (VNum (Z.of_nat n)).
Proof. rewrite parse_number. cbn. by destruct (Z.leb_spec 0 (Z.of_nat n)); [|lia]. Qed.
Lemma unknown_accepted v : z_parse ZUnknown v = Some v.
Proof. apply parse_unknown. Qed.
Lemma optional_accepted s v : z_parse s v = Some v → z_parse (ZOptional s) v = Some v.
Proof. intros H. rewrite parse_optional. by destruct v. Qed.
Lemma undefined_accepted s : z_parse (ZOptional s) VUndefined = Some VUndefined.
Proof. by rewrite parse_optional. Qed.

(** An object whose fields are all accepted, in the order of the shape. *)
Lemma shape_accepted shape fields :
  Forall (λ p, z_parse p.2 (field p.1 fields) = Some (field p.1 fields)) shape →
  parse_shape z_parse shape fields =
    Some (present ((λ p, (p.1, field p.1 fields)) <$> shape)).
Proof.
  induction 1 as [|[k s] shape H _ IH]; [done|]. cbn [parse_shape fmap list_fmap fst snd] in *.
  rewrite H, IH. cbn. by destruct (is_undefined (field k fields)).
Qed.

Lemma object_accepted shape fields :
  Forall (λ p, z_parse p.2 (field p.1 fields) = Some (field p.1 fields)) shape →
  z_parse (s_object shape) (VObj fields) =
    Some (VObj (present ((λ p, (p.1, field p.1 fields)) <$> shape))).
Proof.
  intros H. unfold s_object. rewrite parse_object, shape_accepted by done. cbn. by rewrite app_nil_r.
Qed.

Lemma mapM_fixed {A} (f : A → option A) (l : list A) : Forall (λ x, f x = Some x) l → mapM f l = Some l.
Proof. induction 1 as [|x l Hx _ IH]; [done|]. cbn. by rewrite Hx; cbn; rewrite IH. Qed.
Lemma array_accepted s l : Forall (λ v, z_parse s v = Some v) l → z_parse (ZArray s) (VArr l) = Some (VArr l).
Proof. intros H. by rewrite parse_array, mapM_fixed. Qed.
Lemma array_of_accepted n s l :
  length l = n → Forall (λ v, z_parse s v = Some v) l → z_parse (ZArrayOf n s) (VArr l) = Some (VArr l).
Proof. intros <- H. by rewrite parse_array_of, Nat.eqb_refl, mapM_fixed. Qed.
Lemma record_accepted s fs :
  Forall (λ p, z_parse s p.2 = Some p.2) fs → z_parse (ZRecord s) (VObj fs) = Some (VObj fs).
Proof.
  intros H. rewrite parse_record, mapM_fixed; [done|]. apply (Forall_impl _ _ _ H).
  intros [k v] Hv. cbn in *. by rewrite Hv.
Qed.
Lemma boolean_accepted b : z_parse ZBoolean (VBool b) = Some (VBool b).
Proof. by rewrite parse_boolean. Qed.
End Accepted.

Create HintDb zod.
#[export] Hint Resolve uuid_accepted str_accepted num_accepted int_accepted currency_accepted
  enum_accepted system_accepted datetime_accepted count_accepted unknown_accepted optional_accepted
  undefined_accepted boolean_accepted : zod.

(** ** An interpreter that follows the laws *)

Definition has_shape (pattern s : list ascii) : bool :=
  (length pattern =? length s)%nat
  && forallb (λ p, if Ascii.eqb p.1 "0" then bool_decide (is_Some (digit_val p.2)) else Ascii.eqb p.1 p.2)
       (zip pattern s).

Definition email0 (x : string) : bool :=
  match js_split "@" x with [a; b] => negb (bool_decide (a = "")) && negb (bool_decide (b = "")) | _ => false end.

Definition url0 (x : string) : bool := String.prefix "http://" x || String.prefix "https://" x.

Fixpoint parse0 (s : schema) (v : jsval) : option jsval :=
  match s with
  | ZString cs =>
      match v with
      | VStr x =>
          if forallb (λ c, match c with
               | CUuid => is_uuid x
               | CDatetime => has_shape (String.list_ascii_of_string "0000-00-00T00:00:00.000Z")
                                (String.list_ascii_of_string x)
               | CEmail => email0 x
               | CLength n => (String.length x =? n)%nat
               | CMin n => (n <=? String.length x)%nat
               | CUrl => url0 x
               end) cs then Some v else None
      | _ => None
      end
  | ZNumber cs => match v with VNum n => if forallb (number_ok n) cs then Some v else None | _ => None end
  | ZBoolean => match v with VBool _ => Some v | _ => None end
  | ZEnum l => match v with VStr x => if bool_decide (x ∈ l) then Some v else None | _ => None end
  | ZArray s' => match v with VArr l => VArr <$> mapM (parse0 s') l | _ => None end
  | ZArrayOf n s' =>
      match v with VArr l => if (length l =? n)%nat then VArr <$> mapM (parse0 s') l else None | _ => None end
  | ZNonempty s' =>
      match v with VArr l => if bool_decide (l = []) then None else VArr <$> mapM (parse0 s') l | _ => None end
  | ZRecord s' => match v with VObj fs => VObj <$> mapM (λ p, x ← parse0 s' p.2; Some (p.1, x)) fs | _ => None end
  | ZUnknown => Some v
  | ZNullable s' => match v with VNull => Some VNull | _ => parse0 s' v end
  | ZOptional s' => match v with VUndefined => Some VUndefined | _ => parse0 s' v end
  | ZDefault s' d => match v with VUndefined => Some d | _ => parse0 s' v end
  | ZUnion l => first_success parse0 l v
  | ZIntersection a b =>
      match parse0 a v, parse0 b v with
      | Some (VObj x), Some (VObj y) => Some (VObj (x ++ filter (λ p, p.1 ∉ x.*1) y))
      | _, _ => None
      end
  | ZObject pass shape =>
      match v with
      | VObj fs => r ← parse_shape parse0 shape fs;
                   Some (VObj (r ++ if pass then filter (λ p, p.1 ∉ shape.*1) fs else []))
      | _ => None
      end
  | ZStrict shape =>
      match v with
      | VObj fs => if forallb (λ p, is_undefined p.2 || bool_decide (p.1 ∈ shape.*1)) fs
                   then VObj <$> parse_shape parse0 shape fs else None
      | _ => None
      end
  end.

Definition zod0 : ZodOps := {|
  z_parse := parse0;
  z_datetime x := has_shape (String.list_ascii_of_string "0000-00-00T00:00:00.000Z")
                    (String.list_ascii_of_string x);
  z_email := email0;
  z_url := url0 |}.

Ltac div_lia := Z.to_euclidean_division_equations; lia.

Lemma has_shape_app p s p' s' :
  has_shape p s = true → has_shape p' s' = true → has_shape (p ++ p') (s ++ s') = true.
Proof.
  unfold has_shape. intros [Hl%Nat.eqb_eq Hf]%andb_true_iff [Hl'%Nat.eqb_eq Hf']%andb_true_iff.
  rewrite !length_app, Hl, Hl', Nat.eqb_refl, zip_with_app by done. by rewrite forallb_app, Hf, Hf'.
Qed.

(** A number below [10 ^ k] padded to [k] places is [k] digits. *)
Definition padded (k : nat) (n : Z) : bool :=
  has_shape (replicate k "0"%char) (String.list_ascii_of_string (pad_start k (str_of_Z n))).

Fixpoint all_from (i : Z) (n : nat) (p : Z → bool) : bool :=
  match n with O => true | S n' => if p i then all_from (i + 1) n' p else false end.

Lemma all_from_spec i n p : all_from i n p = true → ∀ k, i <= k < i + Z.of_nat n → p k = true.
Proof.
  revert i; induction n as [|n IH]; intros i; cbn [all_from]; [lia|].
  destruct (p i) eqn:E; [|done]. intros H k Hk. destruct (decide (k = i)) as [-> |]; [done|].
  apply (IH (i + 1)); [done | lia].
Qed.

Lemma padded2 n : 0 <= n < 100 → padded 2 n = true.
Proof. apply (all_from_spec 0 (Z.to_nat 100)). vm_compute. reflexivity. Qed.
Lemma padded3 n : 0 <= n < 1000 → padded 3 n = true.
Proof. apply (all_from_spec 0 (Z.to_nat 1000)). vm_compute. reflexivity. Qed.
Lemma padded4 n : 0 <= n < 10000 → padded 4 n = true.
Proof. apply (all_from_spec 0 (Z.to_nat 10000)). vm_compute. reflexivity. Qed.

(** Years and days of a 400-year era. *)
Definition era_ok (doe : Z) : bool :=
  let yoe := (doe - doe / 1460 + doe / 36524 - doe / 146096) / 365 in
  let doy := doe - (365 * yoe + yoe / 4 - yoe / 100) in
  (0 <=? yoe) && (yoe <=? 399) && (0 <=? doy) && (doy <=? 366) && ((107000 <=? doe) || (yoe <=? 300)).

Lemma era_ok_all doe : 0 <= doe < 146097 → era_ok doe = true.
Proof. intros H. unfold era_ok. cbv zeta. rewrite !andb_true_iff, orb_true_iff, !Z.leb_le. Z.div_mod_to_equations. lia. Qed.

Lemma civil_bounds days y m d :
  0 <= days < 2893519 → civil_of_days days = (y, m, d) → 0 <= y < 10000 ∧ 0 <= m < 100 ∧ 0 <= d < 100.
Proof.
  intros H. unfold civil_of_days. set (z := days + 719468).
  pose proof (Z.mod_pos_bound z 146097 eq_refl) as Hdoe.
  pose proof (Z.div_mod z 146097 ltac:(done)) as Hz. pose proof (era_ok_all _ Hdoe) as Hok.
  assert (0 <= z / 146097 <= 24) as Hera by (subst z; lia).
  assert (z / 146097 = 24 → z mod 146097 < 107000) as H24 by (subst z; lia).
  generalize dependent (z mod 146097). generalize dependent (z / 146097). clearbody z. clear H.
  intros era Hera doe Hdoe Hz Hok H24. unfold era_ok in Hok. cbv zeta in Hok |- *.
  set (yoe := (doe - doe / 1460 + doe / 36524 - doe / 146096) / 365) in *.
  set (doy := doe - (365 * yoe + yoe / 4 - yoe / 100)) in *.
  clearbody yoe doy.
  assert (0 <= yoe <= 399 ∧ 0 <= doy <= 366 ∧ (doe < 107000 → yoe <= 300)) as (Hy & Hd & H3) by lia.
  clear Hok.
  assert (0 <= (5 * doy + 2) / 153 <= 11) as Hmp by (clear - Hd; div_lia).
  assert (0 <= doy - (153 * ((5 * doy + 2) / 153) + 2) / 5 + 1 < 100)
    by (clear - Hd; div_lia).
  intros [= <- <- <-]. destruct (Z.ltb_spec ((5 * doy + 2) / 153) 10), (Z.leb_spec 2 era); repeat case_match; lia.
Qed.

Lemma iso_day_shape t : 0 <= t < 250000000000000 →
  has_shape (String.list_ascii_of_string "0000-00-00") (String.list_ascii_of_string (iso_day t)) = true.
Proof.
  intros Ht. unfold iso_day. destruct (civil_of_days (t / ms_per_day)) as [[y m] d] eqn:E.
  apply civil_bounds in E as (Hy & Hm & Hd); [|unfold ms_per_day; div_lia].
  change (String.list_ascii_of_string "0000-00-00")
    with (replicate 4 "0"%char ++ ["-"%char] ++ replicate 2 "0"%char ++ ["-"%char] ++ replicate 2 "0"%char).
  rewrite !list_ascii_of_app.
  repeat (apply has_shape_app; [first [by apply padded4 | by apply padded2 | reflexivity]|]). by apply padded2.
Qed.

Lemma iso_time_shape t : 0 <= t < 250000000000000 → @z_datetime zod0 (iso_time t) = true.
Proof.
  intros Ht. cbn [z_datetime zod0]. unfold iso_time.
  change (String.list_ascii_of_string "0000-00-00T00:00:00.000Z") with
    (String.list_ascii_of_string "0000-00-00" ++ ["T"%char] ++ replicate 2 "0"%char ++ [":"%char] ++
     replicate 2 "0"%char ++ [":"%char] ++ replicate 2 "0"%char ++ ["."%char] ++ replicate 3 "0"%char ++ ["Z"%char]).
  rewrite !list_ascii_of_app. apply has_shape_app; [by apply iso_day_shape|].
  repeat (apply has_shape_app; [first [reflexivity | apply padded2 | apply padded3]; clear - Ht; unfold ms_per_day; div_lia|]). reflexivity.
Qed.

Lemma zod0_laws : @ZodLaws zod0.
Proof.
  split; try done.
  - intros a b v x y Ha Hb _. cbn [z_parse zod0 parse0]. cbn in Ha, Hb. by rewrite Ha, Hb.
  - intros a b v H. cbn. cbn in H. destruct H as [-> | ->]; [done|]. by destruct (parse0 a v) as [[]|].
  - intros shape fs Hfs. cbn.
    assert (forallb (λ p, is_undefined p.2 || bool_decide (p.1 ∈ shape.*1)) fs =
            forallb (λ p, bool_decide (p.1 ∈ shape.*1)) fs) as ->; [|done].
    induction Hfs as [|[k v] l Hv Hl IH]; [done|]. cbn in *. by rewrite Hv, IH.
  - apply iso_time_shape.
Qed.
