(* ===== verification/EventTypes.v ===== *)
(** * The events of the wallet have the types of their schemas

    The payloads backend/src/wallet hands to the publisher, and what keeps them
    well typed: the identifiers in the tables are UUIDs and the currencies have
    three letters, whatever calls are made. *)

From S2P Require Import Prelude JsText Store WalletModel WalletCash WalletLedger Schemas.
#[local] Open Scope string_scope.
#[local] Open Scope list_scope.
#[local] Open Scope Z_scope.

(** ** Payloads *)

Definition event_name (ev : WalletEvent) : string :=
  match ev with
  | WalletCredit _ _ _ _ _ => "wallet.credit"
  | WalletDebit _ _ _ _ _ => "wallet.debit"
  | NotificationCreate _ _ => "notification.create"
  | DisbursementRequest _ _ _ _ _ => "wallet.disbursement.request"
  | MismatchResolved _ _ _ => "wallet.reconcile.mismatch.resolved"
  | AntiCheatFlag _ _ _ _ _ _ => "antiCheat.flag"
  | VelocityLimit _ _ _ _ _ _ => "wallet.velocity.limit"
  | ChargebackFlag _ _ _ _ => "wallet.chargeback_flag"
  | DepositConfirmed _ _ _ _ => "wallet.deposit.confirmed"
  | DepositRejected _ _ _ _ => "wallet.deposit.rejected"
  | AdminDepositPending _ _ _ _ _ _ => "admin.deposit.pending"
  | AdminDepositConfirmed _ => "admin.deposit.confirmed"
  | AdminDepositRejected _ _ => "admin.deposit.rejected"
  | ReconcileMismatch _ _ _ => "wallet.reconcile.mismatch"
  end.

Definition movement_payload (accountId : string) (amount : Z) (refType refId currency : string) : jsval :=
  obj [("accountId", VStr accountId); ("amount", VNum amount); ("refType", VStr refType);
       ("refId", VStr refId); ("currency", VStr currency)].
Definition row_payload (r : ReconcileRow) : jsval :=
  obj [("account", VStr (rr_account r)); ("balance", VNum (rr_balance r)); ("journal", VNum (rr_journal r))].

Definition payload (ev : WalletEvent) : jsval :=
  match ev with
  | WalletCredit a n t r c | WalletDebit a n t r c => movement_payload a n t r c
  | NotificationCreate u m => obj [("userId", VStr u); ("type", VStr "system"); ("message", VStr m)]
  | DisbursementRequest i a n c k =>
      obj [("id", VStr i); ("accountId", VStr a); ("amount", VNum n); ("currency", VStr c);
           ("idempotencyKey", VStr k)]
  | MismatchResolved a b t =>
      obj [("account", VStr a); ("acknowledgedBy", VStr b); ("acknowledgedAt", VStr (iso_time t))]
  | AntiCheatFlag a op n total limit c =>
      obj [("accountId", VStr a); ("operation", VStr (op_name op)); ("amount", VNum n);
           ("dailyTotal", VNum total); ("limit", VNum limit); ("currency", VStr c)]
  | VelocityLimit a op ty win limit v =>
      obj [("accountId", VStr a); ("operation", VStr (op_name op)); ("type", VStr ty);
           ("window", VStr win); ("limit", VNum limit); ("value", VNum v)]
  | ChargebackFlag a dev n limit =>
      obj [("accountId", VStr a); ("deviceId", VStr dev); ("count", VNum n); ("limit", VNum limit)]
  | DepositConfirmed a d n c =>
      obj [("accountId", VStr a); ("depositId", VStr d); ("amount", VNum n); ("currency", VStr c)]
  | DepositRejected a d c reason =>
      obj [("accountId", VStr a); ("depositId", VStr d); ("currency", VStr c); ("reason", opt VStr reason)]
  | AdminDepositPending d u n c balance job =>
      obj [("depositId", VStr d); ("userId", VStr u); ("amount", VNum n); ("currency", VStr c);
           ("expectedBalance", opt VNum balance); ("confirmDeposit", VFun "confirmPendingDeposit");
           ("confirmedEvent", obj [("accountId", VStr u); ("depositId", VStr d); ("amount", VNum n);
                                   ("currency", VStr c)]);
           ("jobId", opt VStr job)]
  | AdminDepositConfirmed d => obj [("depositId", VStr d)]
  | AdminDepositRejected d reason => obj [("depositId", VStr d); ("reason", opt VStr reason)]
  | ReconcileMismatch date total report =>
      obj ([("date", VStr date); ("total", VNum total)] ++
           if (0 <? length report)%nat
           then [("report", VArr (row_payload <$> report)); ("reportCount", VNum (Z.of_nat (length report)))]
           else [])
  end.

(** The same fields, in any order. *)
Definition same_fields (v u : jsval) : Prop :=
  match v, u with VObj a, VObj b => a ≡ₚ b | _, _ => v = u end.

(** The schema accepts the payload and keeps every field. *)
Definition conforms `{!ZodOps} (ev : WalletEvent) : Prop :=
  ∃ v, parseEvent (event_name ev) (payload ev) = Some v ∧ same_fields v (payload ev).

(** What the values of an event have to be for that. *)
Definition event_ok (ev : WalletEvent) : Prop :=
  match ev with
  | WalletCredit a _ _ _ _ | WalletDebit a _ _ _ _ | NotificationCreate a _ | AntiCheatFlag a _ _ _ _ _
  | ChargebackFlag a _ _ _ => is_uuid a
  | VelocityLimit a _ ty win _ _ => is_uuid a ∧ ty ∈ ["count"; "amount"] ∧ win ∈ ["hour"; "day"]
  | DisbursementRequest i a _ c _ => is_uuid i ∧ is_uuid a ∧ String.length c = 3%nat
  | DepositConfirmed a d _ c | DepositRejected a d c _ | AdminDepositPending d a _ c _ _ =>
      is_uuid a ∧ is_uuid d ∧ String.length c = 3%nat
  | AdminDepositConfirmed d | AdminDepositRejected d _ => is_uuid d
  | MismatchResolved _ _ t => 0 <= t < 250000000000000
  | ReconcileMismatch _ _ _ => True
  end.

Section Conforms.
Context {ZO : ZodOps} {ZL : ZodLaws}.

Lemma op_accepted op : z_parse (ZEnum ["deposit"; "withdraw"]) (VStr (op_name op)) = Some (VStr (op_name op)).
Proof. apply enum_accepted. destruct op; set_solver. Qed.

Lemma deposit_confirmed_accepted a d n c :
  is_uuid a → is_uuid d → String.length c = 3%nat →
  z_parse WalletDepositConfirmedEvent (payload (DepositConfirmed a d n c)) =
    Some (payload (DepositConfirmed a d n c)).
Proof.
  intros Ha Hd Hc. unfold WalletDepositConfirmedEvent, payload, obj. rewrite object_accepted; [done|].
  repeat constructor; cbn.
  - by apply uuid_accepted.
  - by apply uuid_accepted.
  - apply num_accepted.
  - by apply currency_accepted.
Qed.

Lemma rows_accepted report :
  z_parse (ZArray (s_object [("account", s_str); ("balance", s_num); ("journal", s_num)]))
    (VArr (row_payload <$> report)) = Some (VArr (row_payload <$> report)).
Proof.
  apply array_accepted, Forall_fmap, Forall_true. intros r. unfold compose, row_payload, obj.
  rewrite object_accepted; [done|].
  repeat constructor; cbn; [apply str_accepted | apply num_accepted | apply num_accepted].
Qed.
End Conforms.

#[export] Hint Resolve op_accepted deposit_confirmed_accepted rows_accepted : zod.

(** The parser rebuilds the payload when its fields are accepted. *)
Lemma conforms_object `{!ZodOps, !ZodLaws} ev shape fields :
  event_schema (event_name ev) = Some (s_object shape) → payload ev = VObj fields →
  Forall (λ p, z_parse p.2 (field p.1 fields) = Some (field p.1 fields)) shape →
  present ((λ p, (p.1, field p.1 fields)) <$> shape) ≡ₚ fields →
  conforms ev.
Proof.
  intros Hs Hp Hf Hperm. unfold conforms, parseEvent. rewrite Hs, Hp. cbn [mbind option_bind].
  eexists. split; [by apply object_accepted | done].
Qed.

Ltac accept_fields :=
  eapply conforms_object;
  [ reflexivity | reflexivity | repeat constructor; cbn; eauto with zod | cbn; try reflexivity ].

Lemma event_ok_conforms `{!ZodOps, !ZodLaws} ev : event_ok ev → conforms ev.
Proof.
  destruct ev as [| | | | |a op n total limit c| | | |a d c [reason|]|d u n c [balance|] [job|]| |d [reason|]|
    date total report];
    cbn [event_ok]; intros Hok; destruct_and?; try (by accept_fields).
  - unfold conforms, parseEvent. cbn [event_name].
    replace (event_schema "antiCheat.flag") with (Some AntiCheatFlagEvent) by reflexivity.
    cbn [mbind option_bind]. unfold AntiCheatFlagEvent. rewrite parse_union. cbn [first_success].
    unfold AntiCheatWalletEvent at 1, payload, obj. rewrite object_accepted; [eexists; split; [reflexivity | by cbn]|].
    repeat constructor; cbn; eauto with zod.
  - accept_fields. apply perm_skip. apply Permutation_cons_append.
  - accept_fields. apply perm_skip. apply Permutation_cons_append.
  - destruct report as [|r report]; [by accept_fields|].
    eapply conforms_object; [reflexivity | reflexivity | | cbn; reflexivity].
    repeat (apply Forall_cons; split; [|]); [apply str_accepted | apply num_accepted
      | apply optional_accepted, (rows_accepted (r :: report))
      | apply optional_accepted, (count_accepted (length (r :: report))) | apply Forall_nil_2].
Qed.

(** ** A well-typed wallet *)

Definition account_typed (a : Account) : Prop := is_uuid (a_id a) ∧ String.length (a_currency a) = 3%nat.
Definition disbursement_typed (d : Disbursement) : Prop := is_uuid (d_id d) ∧ is_uuid (d_accountId d).
Definition deposit_typed (d : PendingDeposit) : Prop :=
  is_uuid (pd_id d) ∧ is_uuid (pd_userId d) ∧ String.length (pd_currency d) = 3%nat.

Section Typed.
Context {T : Type → Type} `{!TableOps T, !TableLaws T} {R : Type} `{!RedisOps R CachedValue}
  {B : Type} `{!BusOps B WalletEvent, !BusLaws B WalletEvent} (env : WalletEnv).
Context (uuid_typed : ∀ n, is_uuid (randomUUID env n)).
Abbreviation WM := (M (WalletState T R B)).
Abbreviation W := (WalletState T R B).

(** The columns of type uuid hold UUIDs, currencies have three letters, and what was published is in order. *)
Record typed (w : W) : Prop := {
  ty_accounts : ∀ a, a ∈ rows (accounts w) → account_typed a;
  ty_disbursements : ∀ d, d ∈ rows (disbursements w) → disbursement_typed d;
  ty_deposits : ∀ d, d ∈ rows (pendingDeposits w) → deposit_typed d;
  ty_bus : ∀ ev, ev ∈ published (bus w) → event_ok ev }.

(** [m] keeps the wallet typed, and [Q] holds of what it returns. *)
Definition gives {A} (Q : A → Prop) (m : WM A) : Prop := triple typed m (λ a w, typed w ∧ Q a) typed.
Abbreviation keeps := (gives (λ _, True)).

Lemma gives_bind {A C} (P : A → Prop) (Q : C → Prop) (m : WM A) (k : A → WM C) :
  gives P m → (∀ a, P a → gives Q (k a)) → gives Q (m ≫= k).
Proof.
  intros Hm Hk w Hw. specialize (Hm w Hw). unfold mbind, M_bind.
  destruct (m w) as [[a|e] w']; [|done]. destruct Hm as [Hw' Ha]. exact (Hk a Ha w' Hw').
Qed.
Lemma keeps_bind {A C} (Q : C → Prop) (m : WM A) (k : A → WM C) :
  keeps m → (∀ a, gives Q (k a)) → gives Q (m ≫= k).
Proof. intros Hm Hk. eapply gives_bind; [exact Hm | intros a _; apply Hk]. Qed.
Lemma gives_weaken {A} (P Q : A → Prop) (m : WM A) : (∀ a, P a → Q a) → gives P m → gives Q m.
Proof. intros H Hm w Hw. specialize (Hm w Hw). destruct (m w) as [[a|e] w']; [naive_solver | done]. Qed.
Lemma gives_ret {A} (Q : A → Prop) a : Q a → gives Q (mret a).
Proof. intros H w Hw. by split. Qed.
Lemma gives_throw {A} (Q : A → Prop) e : gives Q (throw e).
Proof. intros w Hw. exact Hw. Qed.
Lemma gives_throw_if c e : keeps (throw_if c e).
Proof. intros w Hw. destruct c; cbn; [exact Hw | by split]. Qed.
Lemma gives_gets {A} (Q : A → Prop) (f : W → A) : (∀ w, typed w → Q (f w)) → gives Q (gets f).
Proof. intros H w Hw. split; [done | by apply H]. Qed.
Lemma gives_lift {A} (o : outcome A) : keeps (lift o).
Proof. intros w Hw. by destruct o. Qed.
Lemma gives_modify f : (∀ w, typed w → typed (f w)) → keeps (modify f).
Proof. intros H w Hw. split; [by apply H | done]. Qed.
Lemma gives_when c m : keeps m → keeps (when c m).
Proof. destruct c; [done | intros _; exact (gives_ret (λ _, True) tt I)]. Qed.
Lemma gives_for_each {A} (l : list A) f : (∀ x, x ∈ l → keeps (f x)) → keeps (for_each l f).
Proof.
  induction l as [|x l IH]; intros H; cbn; [by apply gives_ret|].
  eapply gives_bind; [apply H; set_solver | intros _ _; apply IH; set_solver].
Qed.
Lemma gives_catch {A} (Q : A → Prop) (m : WM A) h : gives Q m → (∀ e, gives Q (h e)) → gives Q (try_catch m h).
Proof.
  intros Hm Hh w Hw. specialize (Hm w Hw). unfold try_catch.
  destruct (m w) as [[a|e] w']; [done | by apply Hh].
Qed.
Lemma gives_finally {A} (Q : A → Prop) (m : WM A) f :
  gives Q m → (∀ w, typed w → typed (f w)) → gives Q (try_finally m f).
Proof.
  intros Hm Hf w Hw. specialize (Hm w Hw). unfold try_finally.
  destruct (m w) as [[a|e] w']; [destruct Hm; split; [by apply Hf | done] | by apply Hf].
Qed.

(** Nothing the type speaks of changes. *)
Lemma typed_same w w' :
  typed w → accounts w' = accounts w → disbursements w' = disbursements w →
  pendingDeposits w' = pendingDeposits w → bus w' = bus w → typed w'.
Proof. intros [Ha Hd Hp Hb] Ea Ed Ep Eb. split; [by rewrite Ea | by rewrite Ed | by rewrite Ep | by rewrite Eb]. Qed.

Lemma gives_frame {A} (m : WM A) :
  (∀ w, let w' := snd (m w) in accounts w' = accounts w ∧ disbursements w' = disbursements w ∧
        pendingDeposits w' = pendingDeposits w ∧ bus w' = bus w) → keeps m.
Proof.
  intros H w Hw. destruct (H w) as (Ha & Hd & Hp & Hb).
  assert (typed (snd (m w))) as Hw' by by eapply typed_same. by destruct (m w) as [[a|e] w'].
Qed.

Lemma gives_emit ev : event_ok ev → keeps (emit ev).
Proof.
  intros Hev w Hw. unfold emit. pose proof (emit_spec ev (bus w)) as H.
  destruct (bus_emit ev (bus w)) as [[u|e] b]; cbn; destruct Hw as [Ha Hd Hp Hb];
    [split; [|done]|]; (split; [done..|]); cbn; rewrite H; [|done].
  intros ev' [Hin| ->%list_elem_of_singleton]%elem_of_app; [by apply Hb | done].
Qed.

Lemma gives_uuid : gives is_uuid (fresh_uuid env).
Proof. intros w Hw. split; [by eapply typed_same | apply uuid_typed]. Qed.
Lemma gives_or_fail {A} (Q : A → Prop) e o : (∀ a, o = Some a → Q a) → gives Q (or_fail e o).
Proof. intros H. destruct o; [by apply gives_ret, H | apply gives_throw]. Qed.

(** Rows found in the tables are typed. *)
Lemma gives_account_by_id id currency :
  gives (λ a, account_typed a ∧ a_id a = id ∧ a_currency a = currency ∧ is_uuid id) (account_by_id id currency).
Proof.
  unfold account_by_id. eapply gives_bind; [apply (gives_gets (λ o, ∀ a, o = Some a →
    account_typed a ∧ a_id a = id ∧ a_currency a = currency ∧ is_uuid id)) | intros o Ho; by apply gives_or_fail].
  intros w Hw a [Hin [<-%bool_decide_eq_true H2%bool_decide_eq_true]%andb_true_iff]%find_row_Some.
  pose proof (ty_accounts w Hw _ Hin) as Ha. split_and!; try done. apply Ha.
Qed.
Lemma gives_account_by_name name currency :
  gives (λ a, account_typed a ∧ a_currency a = currency) (account_by_name name currency).
Proof.
  unfold account_by_name. eapply gives_bind; [apply (gives_gets (λ o, ∀ a, o = Some a →
    account_typed a ∧ a_currency a = currency)) | intros o Ho; by apply gives_or_fail].
  intros w Hw a [Hin [H1%bool_decide_eq_true H2%bool_decide_eq_true]%andb_true_iff]%find_row_Some.
  split; [by apply (ty_accounts w Hw) | done].
Qed.
Lemma gives_account_of id : gives (λ a, account_typed a ∧ a_id a = id) (account_of id).
Proof.
  unfold account_of. eapply gives_bind; [apply (gives_gets (λ o, ∀ a, o = Some a →
    account_typed a ∧ a_id a = id)) | intros o Ho; by apply gives_or_fail].
  intros w Hw a [Hin H%bool_decide_eq_true]%find_row_Some. split; [by apply (ty_accounts w Hw) | done].
Qed.
Lemma gives_find_disbursement p :
  gives (λ o, ∀ d, o = Some d → disbursement_typed d) (gets (λ w, find_row p (disbursements w))).
Proof. apply gives_gets. intros w Hw d [Hin _]%find_row_Some. by apply (ty_disbursements w Hw). Qed.
Lemma gives_find_deposit p :
  gives (λ o, ∀ d, o = Some d → deposit_typed d) (gets (λ w, find_row p (pendingDeposits w))).
Proof. apply gives_gets. intros w Hw d [Hin _]%find_row_Some. by apply (ty_deposits w Hw). Qed.
Lemma gives_any {A} (f : W → A) : keeps (gets f).
Proof. by apply gives_gets. Qed.

Lemma save_typed {Row} `{!Entity Row} (P : Row → Prop) r (t : T Row) :
  P r → (∀ x, x ∈ rows t → P x) → ∀ x, x ∈ rows (save_row r t) → P x.
Proof.
  intros Hr Ht x Hx. rewrite rows_save in Hx.
  apply elem_of_cons in Hx as [->|[_ Hx]%list_elem_of_filter]; [done | by apply Ht].
Qed.
Lemma gives_save_disbursement (f : W → Disbursement) :
  (∀ w, disbursement_typed (f w)) → keeps (modify (λ w, set_disbursements (save_row (f w) (disbursements w)) w)).
Proof.
  intros H. apply gives_modify. intros w [Ha Hd Hp Hb]. split; try done. by apply save_typed.
Qed.
Lemma gives_delete_disbursement p :
  keeps (modify (λ w, set_disbursements (delete_where p (disbursements w)) w)).
Proof.
  apply gives_modify. intros w [Ha Hd Hp Hb]. split; try done. cbn. intros x Hx.
  rewrite rows_delete in Hx. apply list_elem_of_filter in Hx as [_ Hx]. by apply Hd.
Qed.
Lemma gives_save_deposit d : deposit_typed d → keeps (save_deposit d).
Proof.
  intros H. apply gives_modify. intros w [Ha Hd Hp Hb]. split; try done. by apply save_typed.
Qed.

(** ** The calls *)

Definition movement_typed (e : Movement) : Prop := account_typed (mv_account e).

Lemma post_entries_typed refType refId m t entries a j n a' j' n' :
  post_entries env refType refId m t entries a j n = Some (a', j', n') →
  Forall movement_typed entries → (∀ x, x ∈ rows a → account_typed x) → ∀ x, x ∈ rows a' → account_typed x.
Proof.
  revert a j n; induction entries as [|e rest IH]; intros a j n H He Ha; cbn in H.
  - by injection H as <- <- <-.
  - destruct (insert_row _ j); [|done]. apply Forall_cons in He as [He Hrest].
    eapply IH; [exact H | done | by apply (save_typed account_typed)].
Qed.

Lemma gives_announce refType refId e : movement_typed e → keeps (announce env refType refId e).
Proof.
  intros [He _]. unfold announce. destruct (0 <? mv_amount e);
    (apply keeps_bind; [by apply gives_emit | intros _; apply gives_when, gives_emit, He]).
Qed.

Lemma gives_post refType refId entries m : Forall movement_typed entries → keeps (post env refType refId entries m).
Proof.
  intros He w [Ha Hd Hp Hb]. unfold post.
  destruct (post_entries _ _ _ _ _ _ _ _ _) as [[[a' j'] n']|] eqn:E; [|by split].
  split; [|done]. split; try done. by eapply post_entries_typed.
Qed.

Lemma gives_record refType refId entries m :
  Forall movement_typed entries → keeps (record env refType refId entries m).
Proof.
  intros He. unfold record. apply keeps_bind; [apply gives_throw_if | intros _].
  apply keeps_bind; [apply gives_any | intros [|]; [by apply gives_ret|]].
  apply keeps_bind; [by apply gives_post | intros _].
  apply gives_for_each. intros e Hin. apply gives_announce. by eapply Forall_forall in He.
Qed.

Lemma gives_redis_set k v ttl : keeps (redis_set k v ttl).
Proof. by apply gives_frame. Qed.
Lemma gives_redis_setnx k v ttl : keeps (redis_setnx k v ttl).
Proof. apply gives_frame. intros w. unfold redis_setnx. by destruct (r_setnx _ _ _ _). Qed.
Lemma gives_redis_del k : keeps (redis_del k).
Proof. by apply gives_frame. Qed.
Lemma gives_redis_incrby k n : keeps (redis_incrby k n).
Proof. apply gives_frame. intros w. unfold redis_incrby. by destruct (r_incrby _ _ _). Qed.
Lemma gives_redis_expire k n : keeps (redis_expire k n).
Proof. apply gives_frame. intros w. unfold redis_expire. by destruct (r_expire _ _ _). Qed.
Lemma gives_set_redis f : keeps (modify (λ w, set_redis (f w) w)).
Proof. by apply gives_frame. Qed.
Lemma gives_set_settlements f : keeps (modify (λ w, set_settlements (f w) w)).
Proof. by apply gives_frame. Qed.
Lemma gives_set_jobs f g : keeps (modify (λ w, set_jobs (f w) (g w) w)).
Proof. by apply gives_frame. Qed.
Lemma gives_drop_job id : keeps (modify (drop_job id)).
Proof. by apply gives_frame. Qed.

Create HintDb gives.
#[local] Hint Resolve gives_throw gives_throw_if gives_lift gives_any gives_redis_set gives_redis_setnx
  gives_redis_del gives_redis_incrby gives_redis_expire gives_set_redis gives_set_settlements gives_set_jobs
  gives_drop_job gives_delete_disbursement : gives.

Ltac typed_args := cbn; repeat (apply Forall_cons; split); try apply Forall_nil_2; try done;
  unfold movement_typed, account_typed, deposit_typed, disbursement_typed in *; destruct_and?; subst; cbn;
  split_and?; first [done | congruence | set_solver].
Ltac gives_step :=
  lazymatch goal with
  | H : ∀ x, ?o = Some x → _ |- gives _ (mbind _ (or_fail _ ?o)) =>
      eapply gives_bind; [apply (gives_or_fail _ _ _ H) | intros ? ?; cbn beta in *]
  | H : ∀ x, ?o = Some x → _ |- gives _ (match ?o with _ => _ end) =>
      destruct o; [specialize (H _ eq_refl)|clear H]
  | |- gives _ (mbind _ (account_by_id _ _)) =>
      eapply gives_bind; [apply gives_account_by_id | intros ? (? & ? & ? & ?); cbn beta]
  | |- gives _ (mbind _ (account_by_name _ _)) =>
      eapply gives_bind; [apply gives_account_by_name | intros ? (? & ?); cbn beta]
  | |- gives _ (mbind _ (account_of _)) =>
      eapply gives_bind; [apply gives_account_of | intros ? (? & ?); cbn beta]
  | |- gives _ (mbind _ (fresh_uuid _)) =>
      eapply gives_bind; [apply gives_uuid | intros ? ?; cbn beta in *]
  | |- gives _ (mbind _ (gets (λ w, find_row _ (disbursements w)))) =>
      eapply gives_bind; [apply gives_find_disbursement | intros ? ?; cbn beta in *]
  | |- gives _ (mbind _ (gets (λ w, find_row _ (pendingDeposits w)))) =>
      eapply gives_bind; [apply gives_find_deposit | intros ? ?; cbn beta in *]
  | |- gives _ (mbind _ _) => apply keeps_bind; [|intros ?; cbn beta]
  | |- gives _ (when _ _) => apply gives_when
  | |- gives _ (for_each _ _) => apply gives_for_each; intros ? ?
  | |- gives _ (try_catch _ _) => apply gives_catch; [|intros ?]
  | |- gives _ (mret _) => by apply gives_ret
  | |- gives _ (record _ _ _ _ _) => apply gives_record; typed_args
  | |- gives _ (emit _) => apply gives_emit; typed_args
  | |- gives _ (save_deposit _) => apply gives_save_deposit; typed_args
  | |- gives _ (match ?x with _ => _ end) => destruct x
  end.
Ltac gives := repeat first [solve [eauto with gives] | gives_step].

Lemma gives_insert_settlement key : keeps (insert_settlement env key).
Proof. unfold insert_settlement. gives. Qed.
#[local] Hint Resolve gives_insert_settlement : gives.

Lemma gives_reserve acc amt ref cur key : keeps (reserve env acc amt ref cur key).
Proof. unfold reserve. gives. Qed.
Lemma gives_commit ref amt rake cur key : keeps (commit env ref amt rake cur key).
Proof. unfold commit. gives. Qed.
Lemma gives_settlement_cancel h s i : keeps (settlement_cancel h s i).
Proof. unfold settlement_cancel. gives. Qed.
#[local] Hint Resolve gives_settlement_cancel : gives.
Lemma gives_rollback acc amt ref cur key : keeps (rollback env acc amt ref cur key).
Proof. unfold rollback. gives. Qed.

Lemma gives_requestDisbursement id cur : keeps (requestDisbursement env id cur).
Proof. unfold requestDisbursement. gives. Qed.
#[local] Hint Resolve gives_requestDisbursement : gives.
Lemma gives_enqueueDisbursement id cur : keeps (enqueueDisbursement env id cur).
Proof. unfold enqueueDisbursement. gives. Qed.
Lemma gives_refundDisbursement d : keeps (refundDisbursement env d).
Proof. unfold refundDisbursement. gives. Qed.
#[local] Hint Resolve gives_enqueueDisbursement gives_refundDisbursement : gives.
Lemma gives_isDuplicateWebhook e : keeps (isDuplicateWebhook e : WM bool).
Proof. unfold isDuplicateWebhook. gives. Qed.
Lemma gives_chargeback_record ms acc dev : keeps (chargeback_record env ms acc dev).
Proof. unfold chargeback_record. gives. Qed.
Lemma gives_chargeback_check limits acc dev : keeps (chargeback_check limits acc dev : WM CheckResult).
Proof. unfold chargeback_check. destruct limits as [[ms al] dl]. gives. Qed.
#[local] Hint Resolve gives_isDuplicateWebhook gives_chargeback_record gives_chargeback_check : gives.

Lemma gives_settle_challenge ev op acc amt cur dev : keeps (settle_challenge env ev op acc amt cur dev).
Proof.
  unfold settle_challenge. gives.
  apply (gives_save_disbursement (λ _, _)). intros _. typed_args.
Qed.
#[local] Hint Resolve gives_settle_challenge : gives.
Lemma gives_confirm3DS ev : keeps (confirm3DS env ev).
Proof. unfold confirm3DS. gives. Qed.
Lemma gives_processDisbursement e k txn st : keeps (processDisbursement env e k txn st).
Proof.
  unfold processDisbursement. gives. apply (gives_save_disbursement (λ _, _)). intros _. typed_args.
Qed.
Lemma gives_adminAdjustBalance u act amt cur : keeps (adminAdjustBalance env u act amt cur).
Proof. unfold adminAdjustBalance. pose proof gives_reserve. gives. Qed.
Lemma gives_confirmPendingWithdrawal id : keeps (confirmPendingWithdrawal env id).
Proof. unfold confirmPendingWithdrawal. gives. Qed.
Lemma gives_rejectPendingWithdrawal id : keeps (rejectPendingWithdrawal env id).
Proof. unfold rejectPendingWithdrawal. gives. Qed.
Lemma gives_reject_withdrawal u : keeps (reject_withdrawal env u).
Proof. unfold reject_withdrawal. gives. Qed.
Lemma gives_retryPendingPayouts : keeps (retryPendingPayouts env).
Proof. unfold retryPendingPayouts. gives. Qed.
#[local] Hint Resolve gives_confirm3DS : gives.
Lemma gives_callback x signed p : keeps (callback env x signed p).
Proof. unfold callback, provider_confirm3DS, handleWebhook. gives. Qed.
Lemma gives_runReconcile n : keeps (runReconcile n).
Proof. unfold runReconcile. gives. Qed.

(** *** Cash *)

Lemma gives_checkVelocity op dev ip : keeps (checkVelocity op dev ip : WM unit).
Proof. unfold checkVelocity. gives. Qed.
Lemma gives_enforceDailyLimit op acc amt cur : is_uuid acc → keeps (enforceDailyLimit env op acc amt cur).
Proof. intros Hacc. unfold enforceDailyLimit. gives. Qed.
Lemma gives_velocity_window key step limit ttl ev :
  (∀ n, event_ok (ev n)) → keeps (velocity_window key step limit ttl ev).
Proof. intros Hev. unfold velocity_window. gives. Qed.
Lemma gives_enforceVelocity op acc amt : is_uuid acc → keeps (enforceVelocity env op acc amt).
Proof.
  intros Hacc. unfold enforceVelocity. gives; apply gives_velocity_window; intros n; typed_args.
Qed.
#[local] Hint Resolve gives_checkVelocity gives_enforceDailyLimit gives_enforceVelocity : gives.
Lemma gives_request_attempts n last : keeps (request_attempts env n last).
Proof.
  revert last. induction n as [|n IH]; intros last; [apply gives_throw|].
  intros w Hw. cbn [request_attempts].
  assert (typed (set_counters (uuids w) (S (http_calls w)) w)) as Hw' by by eapply typed_same.
  destruct (provider_http env (http_calls w)); [done | by apply IH].
Qed.
Lemma gives_initiate3DS acc amt : keeps (initiate3DS env acc amt).
Proof. apply gives_request_attempts. Qed.
Lemma gives_check_geo ip : keeps (check_geo env ip : WM unit).
Proof. apply gives_throw_if. Qed.
Lemma gives_check_chargebacks acc dev : is_uuid acc → keeps (check_chargebacks env acc dev).
Proof. intros Hacc. unfold check_chargebacks. gives. Qed.
#[local] Hint Resolve gives_initiate3DS gives_check_geo gives_check_chargebacks : gives.
Lemma gives_idempotent key body : keeps body → keeps (idempotent key body : WM CachedValue).
Proof. intros Hb. unfold idempotent, idem_enter, idem_store. gives. Qed.

Lemma gives_withdraw acc amt dev ip cur key : keeps (withdraw env acc amt dev ip cur key).
Proof.
  apply gives_idempotent. unfold withdraw_body. gives.
Qed.
Lemma gives_deposit acc amt dev ip cur key : is_uuid acc → keeps (deposit env acc amt dev ip cur key).
Proof. intros Hacc. apply gives_idempotent. unfold deposit_body. gives. Qed.

Lemma flagged_typed p :
  keeps (modify (λ w, set_pendingDeposits (update_where p flagged_deposit (pendingDeposits w)) w)).
Proof.
  apply gives_modify. intros w [Ha Hd Hp Hb]. split; try done. cbn. intros d Hin.
  rewrite rows_update in Hin. apply list_elem_of_fmap in Hin as (d' & -> & Hin).
  destruct (p d'); by apply (Hp _ Hin).
Qed.
Lemma gives_deposit_by_id id :
  gives (λ o, ∀ d, o = Some d → deposit_typed d ∧ pd_id d = id) (gets (deposit_by_id id) : WM _).
Proof.
  apply gives_gets. intros w Hw d [Hin Hid%bool_decide_eq_true]%find_row_Some.
  split; [by apply (ty_deposits w Hw) | done].
Qed.
Lemma gives_markActionRequired id job : keeps (markActionRequiredIfPending id job).
Proof.
  unfold markActionRequiredIfPending. apply keeps_bind; [apply gives_any|intros n].
  apply keeps_bind; [apply flagged_typed|intros _]. apply gives_when.
  eapply gives_bind; [apply gives_deposit_by_id | intros [d|] Hd; cbn beta in *; [|by apply gives_ret]].
  destruct (Hd d eq_refl) as [(Hi & Hu & Hc) <-]. gives.
Qed.
#[local] Hint Resolve gives_markActionRequired : gives.
Lemma gives_bank acc amt dev ip cur key : is_uuid acc → keeps (initiateBankTransfer env acc amt dev ip cur key).
Proof. intros Hacc. apply gives_idempotent. unfold bank_body. gives. Qed.
Lemma gives_cancelPendingDeposit u id : keeps (cancelPendingDeposit u id : WM unit).
Proof. unfold cancelPendingDeposit. gives. Qed.
Lemma gives_confirmPendingDeposit id adm : keeps (confirmPendingDeposit env id adm).
Proof.
  unfold confirmPendingDeposit. apply keeps_bind; [eauto with gives|intros lock].
  apply keeps_bind; [apply gives_throw_if|intros _]. apply gives_finally; [|intros w Hw; by eapply typed_same].
  unfold confirm_locked. eapply gives_bind; [apply gives_deposit_by_id | intros [d|] Hd; cbn beta in *; [|by apply gives_ret]].
  destruct (Hd d eq_refl) as [(Hi & Hu & Hc) <-]. gives.
Qed.
Lemma gives_rejectPendingDeposit id adm reason : keeps (rejectPendingDeposit id adm reason : WM unit).
Proof.
  unfold rejectPendingDeposit. apply keeps_bind; [eauto with gives|intros lock].
  apply keeps_bind; [apply gives_throw_if|intros _]. apply gives_finally; [|intros w Hw; by eapply typed_same].
  unfold reject_locked. eapply gives_bind; [apply gives_deposit_by_id | intros [d|] Hd; cbn beta in *; [|by apply gives_ret]].
  destruct (Hd d eq_refl) as [(Hi & Hu & Hc) <-]. gives.
Qed.
#[local] Hint Resolve gives_confirmPendingDeposit gives_rejectPendingDeposit : gives.
Lemma gives_expire : keeps (rejectExpiredPendingDeposits : WM unit).
Proof. unfold rejectExpiredPendingDeposits. gives. Qed.
Lemma gives_match_entries es n : keeps (match_entries env es n).
Proof. revert n. induction es as [|e es IH]; intros n; cbn [match_entries]; gives. Qed.
#[local] Hint Resolve gives_match_entries : gives.
Lemma gives_bank_reconcile es : keeps (bank_reconcile env es).
Proof. unfold bank_reconcile. gives. Qed.

(** Callers name accounts by identifiers of type uuid. *)
Lemma exec_call_typed c : (∀ acc, call_user c = Some acc → is_uuid acc) → keeps (exec_call env c).
Proof.
  intros Hc. destruct c; cbn [exec_call]; try specialize (Hc _ eq_refl).
  all: try (apply keeps_bind; [|intros ?; by apply gives_ret]).
  - apply gives_reserve.
  - apply gives_commit.
  - apply gives_rollback.
  - apply gives_retryPendingPayouts.
  - apply gives_callback.
  - apply gives_processDisbursement.
  - apply gives_adminAdjustBalance.
  - apply gives_confirmPendingWithdrawal.
  - apply gives_rejectPendingWithdrawal.
  - apply gives_reject_withdrawal.
  - apply gives_withdraw.
  - by apply gives_deposit.
  - by apply gives_bank.
  - apply gives_cancelPendingDeposit.
  - apply gives_confirmPendingDeposit.
  - apply gives_rejectPendingDeposit.
  - apply gives_expire.
  - apply gives_bank_reconcile.
  - apply gives_runReconcile.
Qed.

Lemma run_calls_typed cs w :
  Forall (λ c, ∀ acc, call_user c = Some acc → is_uuid acc) cs → typed w → typed (run_calls env cs w).
Proof.
  intros H. revert w. induction H as [|c cs Hc _ IH]; intros w Hw; [done|]. cbn [run_calls foldl].
  apply IH. pose proof (exec_call_typed c Hc w Hw) as H. destruct (exec_call env c w) as [[x|e] w']; [apply H | done].
Qed.
End Typed.

(** The schema check of the publisher ([pe_parse] of Events.v) on the wallet's events. *)
Definition schema_check `{!ZodOps} (ev : WalletEvent) : outcome WalletEvent :=
  match parseEvent (event_name ev) (payload ev) with Some _ => Ret ev | None => Throw "ZodError" end.

Lemma typed_events_pass `{!ZodOps, !ZodLaws} ev : event_ok ev → schema_check ev = Ret ev.
Proof. intros (v & Hv & _)%event_ok_conforms. unfold schema_check. by rewrite Hv. Qed.

(** every event the wallet publishes has the type of its schema. Start from a wallet whose
    identifiers are UUIDs and whose currencies have three letters, and make any calls that name accounts
    by UUIDs, errors included: the tables stay well typed, and the schema of every published event
    accepts its payload and keeps all its fields. *)
Lemma wallet_events_conform {ZO : ZodOps} {ZL : ZodLaws} {T : Type → Type} `{!TableOps T, !TableLaws T}
    {R : Type} `{!RedisOps R CachedValue} {B : Type} `{!BusOps B WalletEvent, !BusLaws B WalletEvent}
    (env : WalletEnv) (w : WalletState T R B) (cs : list WalletCall) :
  (∀ n, is_uuid (randomUUID env n)) →
  typed w → Forall (λ c, ∀ acc, call_user c = Some acc → is_uuid acc) cs →
  typed (run_calls env cs w) ∧ ∀ ev, ev ∈ published (bus (run_calls env cs w)) → conforms ev.
Proof.
  intros Hu Hw Hcs. pose proof (run_calls_typed env Hu cs w Hcs Hw) as Ht.
  split; [exact Ht|]. intros ev Hev. by apply event_ok_conforms, (ty_bus _ Ht).
Qed.

(** ** A concrete run *)

Definition uuid_of (n : Z) : string := "00000000-0000-4000-8000-" +:+ pad_start 12 (str_of_Z (n mod 1000)).

Lemma uuid_of_typed n : is_uuid (uuid_of n).
Proof.
  apply Is_true_true_2. unfold uuid_of.
  apply (all_from_spec 0 1000 (λ k, is_uuid ("00000000-0000-4000-8000-" +:+ pad_start 12 (str_of_Z k)))).
  - vm_compute. reflexivity.
  - apply Z.mod_pos_bound. done.
Qed.

Definition uuid_env : WalletEnv := {|
  sha256_hex := sha256_hex demo_env; randomUUID := λ n, uuid_of (Z.of_nat n + 10);
  provider_http := provider_http demo_env; kyc_validate := kyc_validate demo_env;
  kyc_isVerified := kyc_isVerified demo_env; kyc_denialReason := kyc_denialReason demo_env;
  geo_isAllowed := None; system_accounts := system_accounts demo_env; daily_limit := daily_limit demo_env;
  hourly_count_limit := hourly_count_limit demo_env; hourly_amount_limit := hourly_amount_limit demo_env;
  daily_count_limit := daily_count_limit demo_env; bank_config := bank_config demo_env;
  queue_connected := false; chargeback_limits := chargeback_limits demo_env |}.

Definition uuid_world : WalletState list (map_redis CachedValue) (list WalletEvent) :=
  WalletWorld
    [demo_account (uuid_of 1) "alice"; demo_account (uuid_of 2) "reserve"; demo_account (uuid_of 3) "house";
     demo_account (uuid_of 4) "rake"; demo_account (uuid_of 5) "prize"]
    [] [] [] [] [] [] (MapRedis ∅ ∅ ∅) [] [] [] [] 0 0 1709210096789.

Lemma uuid_world_typed : typed uuid_world.
Proof.
  split; cbn; try (by intros ? []%elem_of_nil).
  intros a Ha. repeat (apply elem_of_cons in Ha as [->|Ha]; [split; [apply uuid_of_typed | done]|]).
  by apply elem_of_nil in Ha.
Qed.

Definition uuid_calls : list WalletCall :=
  [CBankTransfer (uuid_of 1) 300 "dev" "ip" "USD" None; CConfirmDeposit (uuid_of 10) "admin";
   CBankTransfer (uuid_of 1) 300 "dev" "ip" "USD" None; CReconcile 0].

Lemma uuid_calls_typed : Forall (λ c, ∀ acc, call_user c = Some acc → is_uuid acc) uuid_calls.
Proof.
  unfold uuid_calls. repeat (apply Forall_cons; split; [intros acc; cbn [call_user]|]);
    [intros [= <-]; apply uuid_of_typed | done | intros [= <-]; apply uuid_of_typed | done | apply Forall_nil_2].
Qed.

Lemma wallet_events_conform_witness :
  (event_name <$> bus (run_calls uuid_env uuid_calls uuid_world)) =
    ["admin.deposit.pending"; "wallet.debit"; "wallet.credit"; "notification.create"; "notification.create";
     "wallet.deposit.confirmed"; "admin.deposit.confirmed"; "antiCheat.flag"] ∧
  typed (run_calls uuid_env uuid_calls uuid_world) ∧
  ∀ ev, ev ∈ published (bus (run_calls uuid_env uuid_calls uuid_world)) → @conforms zod0 ev.
Proof.
  split; [vm_compute; reflexivity|].
  exact (wallet_events_conform (ZO := zod0) (ZL := zod0_laws) uuid_env uuid_world uuid_calls
    (λ n, uuid_of_typed _) uuid_world_typed uuid_calls_typed).
Defined.

(** A player identifier that is no UUID, as "p1" and "p2" of the engine's defaults, does not parse. *)
Lemma hand_start_needs_uuids {ZO : ZodOps} {ZL : ZodLaws} handId tableId stake :
  parseEvent "hand.start" (obj [("handId", VStr handId); ("players", VArr [VStr "p1"; VStr "p2"]);
    ("tableId", VStr tableId); ("stake", VStr stake)]) = None.
Proof.
  unfold parseEvent. replace (event_schema "hand.start") with (Some HandStartEvent) by reflexivity.
  cbn [mbind option_bind]. unfold HandStartEvent, s_object, obj. rewrite parse_object.
  erewrite (shape_refused _ _ "players" (ZArray s_uuid)); [done | set_solver |].
  cbn. rewrite parse_array. cbn. unfold s_uuid. by rewrite !parse_string.
Qed.
