(* ===== verification/AuditLog.v ===== *)
(** * Audit logs, security alerts and admin events

    The part of backend/src/analytics/analytics.service.ts that keeps audit logs,
    security alerts and admin events in Redis lists, with ClickHouse as an
    optional second store. Other requests run at the awaits: a review takes what
    happens between its read and its write as an argument, and the acknowledgements
    run on a Redis connection that all requests of the process share. *)

From S2P Require Import Prelude JsText Schemas.
#[local] Open Scope string_scope.
#[local] Open Scope list_scope.
#[local] Open Scope Z_scope.

(** ** Texts and values *)

(** A stored text: the JSON of a value, or one that does not parse. *)
Inductive text := TJson (v : jsval) | TRaw (raw : string).

Definition json_parse (t : text) : outcome jsval :=
  match t with TJson v => Ret v | TRaw _ => Throw "SyntaxError" end.

Definition js_truthy (v : jsval) : bool :=
  match v with
  | VUndefined | VNull => false
  | VBool b => b
  | VNum n => negb (n =? 0)
  | VStr s => negb (bool_decide (s = ""))
  | VArr _ | VObj _ | VFun _ => true
  end.

(** [v ?? d] *)
Definition nullish (v d : jsval) : jsval := match v with VUndefined | VNull => d | _ => v end.

(** [l.slice(start, end)]; negative bounds count from the end. *)
Definition slice_bound (len i : Z) : Z := if i <? 0 then Z.max 0 (len + i) else Z.min i len.
Definition js_slice {A} (start end_ : Z) (l : list A) : list A :=
  let len := Z.of_nat (length l) in
  let a := slice_bound len start in
  let b := slice_bound len end_ in
  take (Z.to_nat (b - a)) (drop (Z.to_nat a) l).

(** [s.toLowerCase()] and [s.includes(t)] *)
Definition to_lower (s : string) : string :=
  String.string_of_list_ascii ((λ c, let n := nat_of_ascii c in
    if (65 <=? n)%nat && (n <=? 90)%nat then ascii_of_nat (n + 32) else c)
    <$> String.list_ascii_of_string s).
Definition js_includes (t s : string) : bool :=
  match String.index 0 t s with Some _ => true | None => false end.

(** ** Errors of the ClickHouse client *)

(** An error object: its code, whether it is an [Error] with a message, its cause and nested errors. *)
Inductive js_error := JsError (code message : option string) (cause : option js_error) (errors : list js_error).

Definition offlineCodes : list string :=
  ["EAI_AGAIN"; "ENOTFOUND"; "ECONNREFUSED"; "ECONNRESET"; "ETIMEDOUT"; "ECONNABORTED"; "EHOSTUNREACH"].

(** Errors are finite trees here, so [seen] never stops the search. *)
Fixpoint isClickHouseUnavailable (e : js_error) : bool :=
  match e with
  | JsError code message cause errors =>
      match code with Some c => bool_decide (c ∈ offlineCodes) | None => false end
      || match message with
         | Some m => js_includes "getaddrinfo" (to_lower m) || js_includes "econnrefused" (to_lower m)
                     || js_includes "enotfound" (to_lower m)
         | None => false
         end
      || match cause with Some c => isClickHouseUnavailable c | None => false end
      || existsb isClickHouseUnavailable errors
  end.

(** ** Redis lists *)

(** [LRANGE key 0 -1], [LPUSH], [LTRIM key 0 n] and [LSET], which fails out of range. *)
Class RedisIndexOps (L X : Type) := {
  i_range : L → list X;
  i_lpush : X → L → L;
  i_trim : nat → L → L;
  i_set : nat → X → L → outcome L }.

Class RedisIndexLaws (L X : Type) `{!RedisIndexOps L X} := {
  range_lpush x l : i_range (i_lpush x l) = x :: i_range l;
  range_trim n l : i_range (i_trim n l) = take (S n) (i_range l);
  set_in_range i x l : (i < length (i_range l))%nat →
    ∃ l', i_set i x l = Ret l' ∧ i_range l' = <[i := x]> (i_range l) }.

#[export] Instance list_index_ops X : RedisIndexOps (list X) X := {
  i_range l := l; i_lpush x l := x :: l; i_trim n l := take (S n) l;
  i_set i x l := if (i <? length l)%nat then Ret (<[i := x]> l) else Throw "ERR index out of range" }.
#[export] Instance list_index_laws X : RedisIndexLaws (list X) X.
Proof.
  split; try done. intros i x l H. exists (<[i := x]> l). split; [|done]. apply Nat.ltb_lt in H.
  unfold i_set, i_range, list_index_ops in *. by rewrite H.
Qed.

(** ** Audit logs *)

(** [id], [timestamp], [type] and [description] are checked when an entry is read; the rest is as stored. *)
Record AuditLog := {
  al_id : string; al_timestamp : string; al_type : string; al_description : string;
  al_user : jsval; al_ip : jsval; al_reviewed : bool; al_reviewedBy : jsval; al_reviewedAt : jsval }.

Definition log_value (l : AuditLog) : jsval :=
  VObj [("id", VStr (al_id l)); ("timestamp", VStr (al_timestamp l)); ("type", VStr (al_type l));
        ("description", VStr (al_description l)); ("user", al_user l); ("ip", al_ip l);
        ("reviewed", VBool (al_reviewed l)); ("reviewedBy", al_reviewedBy l);
        ("reviewedAt", al_reviewedAt l)].

(** [isAuditLogPayload], and the fields of a value that passes. *)
Definition payload_id (v : jsval) : option string :=
  match v with VStr s => Some s | VNum n => Some (str_of_Z n) | _ => None end.

Definition isAuditLogPayload (v : jsval) : bool :=
  match v with
  | VObj fs =>
      match payload_id (field "id" fs), field "timestamp" fs, field "type" fs, field "description" fs with
      | Some _, VStr _, VStr _, VStr _ => true
      | _, _, _, _ => false
      end
  | _ => false
  end.

Definition parseAuditLogEntry (t : text) : option jsval :=
  match json_parse t with
  | Ret v => if isAuditLogPayload v then Some v else None
  | Throw _ => None
  end.

Definition string_of_val (v : jsval) : string := match v with VStr s => s | _ => "" end.

(** On a payload that passed [isAuditLogPayload]. *)
Definition applyAuditLogDefaults (v : jsval) : AuditLog :=
  let fs := match v with VObj fs => fs | _ => [] end in
  {| al_id := default "" (payload_id (field "id" fs));
     al_timestamp := string_of_val (field "timestamp" fs);
     al_type := string_of_val (field "type" fs);
     al_description := string_of_val (field "description" fs);
     al_user := nullish (field "user" fs) (VStr "");
     al_ip := nullish (field "ip" fs) (VStr "");
     al_reviewed := js_truthy (field "reviewed" fs);
     al_reviewedBy := nullish (field "reviewedBy" fs) VNull;
     al_reviewedAt := nullish (field "reviewedAt" fs) VNull |}.

Definition read_log (t : text) : option AuditLog := applyAuditLogDefaults <$> parseAuditLogEntry t.

(** What ClickHouse answers to an operation. *)
Inductive ch_answer (A : Type) := ChOk (a : A) | ChError (e : js_error).
Arguments ChOk {A} a. Arguments ChError {A} e.

Record Filters := {
  fi_search : option string; fi_type : option string; fi_user : option string;
  fi_dateFrom : option string; fi_dateTo : option string; fi_page : Z; fi_limit : Z }.
Record LogPage := { lp_logs : list AuditLog; lp_total : Z }.
Record AuditSummary := { sm_total : Z; sm_errors : Z; sm_logins : Z }.

Section AuditLogs.
Context {L : Type} `{!RedisIndexOps L text}.

(** The list under audit-logs, whether a ClickHouse client is in use, the clock and the random identifiers. *)
Record AuditState := {
  au_logs : L; au_clickhouse : bool; au_now : Z; au_ids : nat }.
Record AuditEnv := {
  ae_uuid : nat → string;
  ae_date : string → option Z (* [new Date(s)], [None] for an invalid date *) }.
Context (env : AuditEnv).
Abbreviation AM := (M AuditState).

Definition set_logs (l : L) (s : AuditState) : AuditState :=
  {| au_logs := l; au_clickhouse := au_clickhouse s; au_now := au_now s; au_ids := au_ids s |}.
Definition disable_clickhouse (s : AuditState) : AuditState :=
  {| au_logs := au_logs s; au_clickhouse := false; au_now := au_now s; au_ids := au_ids s |}.
Definition next_id (s : AuditState) : AuditState :=
  {| au_logs := au_logs s; au_clickhouse := au_clickhouse s; au_now := au_now s; au_ids := S (au_ids s) |}.

(** Without a client, or with one that is out of reach, the fallback; other errors are the caller's. *)
Definition withClickHouse {A} (fallback : A) (operation : ch_answer A) : AM A := λ s,
  if au_clickhouse s then
    match operation with
    | ChOk a => (Ret a, s)
    | ChError e => if isClickHouseUnavailable e then (Ret fallback, disable_clickhouse s)
                   else (Throw "ClickHouseError", s)
    end
  else (Ret fallback, s).

Definition new_log (type description user : string) (ip : option string) (id timestamp : string) : AuditLog :=
  {| al_id := id; al_timestamp := timestamp; al_type := type; al_description := description;
     al_user := VStr user; al_ip := VStr (default "" ip); al_reviewed := false;
     al_reviewedBy := VNull; al_reviewedAt := VNull |}.

Definition addAuditLog (type description user : string) (ip : option string) (ch : ch_answer unit) : AM unit :=
  id ← gets (λ s, ae_uuid env (au_ids s));
  t ← gets au_now;
  modify next_id ;;
  modify (λ s, set_logs (i_lpush (TJson (log_value (new_log type description user ip id (iso_time t))))
                                 (au_logs s)) s) ;;
  modify (λ s, set_logs (i_trim 999 (au_logs s)) s) ;;
  withClickHouse tt ch.

(** *** Reading *)

Definition log_text (l : AuditLog) (show : jsval → string) : string :=
  to_lower (al_timestamp l +:+ " " +:+ al_type l +:+ " " +:+ al_description l +:+ " "
            +:+ show (al_user l) +:+ " " +:+ show (al_ip l)).

(** [new Date(a) >= new Date(b)]: an invalid date compares as false. *)
Definition date_ge (a b : string) : bool :=
  match ae_date env a, ae_date env b with Some x, Some y => y <=? x | _, _ => false end.

(** An empty filter is absent. *)
Definition given (f : option string) (p : string → bool) : bool :=
  match f with Some s => bool_decide (s = "") || p s | None => true end.

Definition matches (f : Filters) (show : jsval → string) (l : AuditLog) : bool :=
  given (fi_search f) (λ s, js_includes (to_lower s) (log_text l show))
  && given (fi_type f) (λ t, bool_decide (al_type l = t))
  && given (fi_user f) (λ u, js_includes (to_lower u) (to_lower (show (al_user l))))
  && given (fi_dateFrom f) (λ d, date_ge (al_timestamp l) d)
  && given (fi_dateTo f) (λ d, date_ge d (al_timestamp l)).

(** [show] is the text of a value in a template. The ClickHouse answer is the page its query gives. *)
Definition getAuditLogs (show : jsval → string) (f : Filters) (ch : ch_answer (option LogPage)) : AM LogPage :=
  let offset := (fi_page f - 1) * fi_limit f in
  r ← withClickHouse None ch;
  match r with
  | Some page => mret page
  | None =>
      logs ← gets (λ s, filter (λ l, matches f show l) (omap read_log (i_range (au_logs s))));
      mret {| lp_logs := js_slice offset (offset + fi_limit f) logs; lp_total := Z.of_nat (length logs) |}
  end.

(** [const { type } = JSON.parse(e)] throws on a text that does not parse and on [null]. *)
Definition entry_type (t : text) : outcome jsval :=
  v ← json_parse t;
  match v with
  | VUndefined | VNull => Throw "TypeError"
  | VObj fs => Ret (field "type" fs)
  | _ => Ret VUndefined
  end.
Fixpoint count_types (entries : list text) (errors logins : Z) : outcome (Z * Z) :=
  match entries with
  | [] => Ret (errors, logins)
  | e :: rest =>
      match entry_type e with
      | Throw x => Throw x
      | Ret (VStr ty) => count_types rest (errors + if bool_decide (ty = "Error") then 1 else 0)
                                          (logins + if bool_decide (ty = "Login") then 1 else 0)
      | Ret _ => count_types rest errors logins
      end
  end.
Definition getAuditSummary (ch : ch_answer (option AuditSummary)) : AM AuditSummary :=
  r ← withClickHouse None ch;
  match r with
  | Some s => mret s
  | None =>
      entries ← gets (λ s, i_range (au_logs s));
      c ← lift (count_types entries 0 0);
      mret {| sm_total := Z.of_nat (length entries); sm_errors := c.1; sm_logins := c.2 |}
  end.

(** *** Reviewing *)

Definition has_log_id (id : string) (t : text) : bool :=
  match read_log t with Some l => bool_decide (al_id l = id) | None => false end.
Definition reviewed_log (adminId reviewedAt : string) (l : AuditLog) : AuditLog :=
  {| al_id := al_id l; al_timestamp := al_timestamp l; al_type := al_type l;
     al_description := al_description l; al_user := al_user l; al_ip := al_ip l;
     al_reviewed := true; al_reviewedBy := VStr adminId; al_reviewedAt := VStr reviewedAt |}.
Definition with_reviewedAt (reviewedAt : string) (l : AuditLog) : AuditLog :=
  if js_truthy (al_reviewedAt l) then l
  else {| al_id := al_id l; al_timestamp := al_timestamp l; al_type := al_type l;
          al_description := al_description l; al_user := al_user l; al_ip := al_ip l;
          al_reviewed := al_reviewed l; al_reviewedBy := al_reviewedBy l;
          al_reviewedAt := VStr reviewedAt |}.

(** The loop over the entries read: the first with the identifier, and what will be written there. *)
Fixpoint find_log (id : string) (entries : list text) (index : nat) : option (nat * AuditLog) :=
  match entries with
  | [] => None
  | t :: rest =>
      match read_log t with
      | Some l => if bool_decide (al_id l = id) then Some (index, l) else find_log id rest (S index)
      | None => find_log id rest (S index)
      end
  end.

Definition store_log (index : nat) (l : AuditLog) : AM unit :=
  logs ← gets au_logs;
  logs' ← lift (i_set index (TJson (log_value l)) logs);
  modify (set_logs logs').

(** [meanwhile]: what other requests do between [LRANGE] and [LSET]. *)
Definition markAuditLogReviewed (id adminId : string) (ch : ch_answer (option AuditLog)) (meanwhile : AuditState → AuditState)
    : AM AuditLog :=
  t ← gets au_now;
  let reviewedAt := iso_time t in
  updated ← withClickHouse None ch;
  entries ← gets (λ s, i_range (au_logs s));
  updated ← (match find_log id entries 0 with
             | Some (index, l) =>
                 let merged := reviewed_log adminId reviewedAt l in
                 modify meanwhile ;;
                 store_log index merged ;;
                 mret (match updated with Some u => Some u | None => Some merged end)
             | None => mret updated
             end);
  match updated with
  | None => throw "Audit log not found"
  | Some u => mret (with_reviewedAt reviewedAt u)
  end.

(** ** What they do *)

Context `{!RedisIndexLaws L text}.
Implicit Types (s : AuditState).

Lemma withClickHouse_off {A} (fb : A) op s : au_clickhouse s = false → withClickHouse fb op s = (Ret fb, s).
Proof. intros H. unfold withClickHouse. by rewrite H. Qed.

(** A client out of reach is dropped for good, and the fallback answers as if it had never been there. *)
Lemma withClickHouse_unreachable {A} (fb : A) e s :
  au_clickhouse s = true → isClickHouseUnavailable e = true →
  withClickHouse fb (ChError e) s = (Ret fb, disable_clickhouse s).
Proof. intros Hc He. unfold withClickHouse. by rewrite Hc, He. Qed.

Lemma withClickHouse_logs {A} (fb : A) op s : au_logs (snd (withClickHouse fb op s)) = au_logs s.
Proof. unfold withClickHouse. destruct (au_clickhouse s), op; try done. by case_match. Qed.

(** What is written is read back the same. *)
Definition log_ok (l : AuditLog) : Prop :=
  (al_user l ∉ [VUndefined; VNull]) ∧ (al_ip l ∉ [VUndefined; VNull])
  ∧ al_reviewedBy l ≠ VUndefined ∧ al_reviewedAt l ≠ VUndefined.

Lemma read_written l : log_ok l → read_log (TJson (log_value l)) = Some l.
Proof.
  destruct l as [i t ty d u ip r rb ra]. intros (Hu & Hi & Hb & Ha). cbn in *.
  unfold read_log, parseAuditLogEntry. cbn. unfold applyAuditLogDefaults. cbn. f_equal. f_equal.
  - destruct u; set_solver.
  - destruct ip; set_solver.
  - by destruct rb.
  - by destruct ra.
Qed.

Lemma read_log_ok t l : read_log t = Some l → log_ok l.
Proof.
  unfold read_log. destruct (parseAuditLogEntry t) as [v|]; [|done]. intros [= <-].
  unfold log_ok, applyAuditLogDefaults. destruct v; cbn; split_and!; try set_solver;
    destruct (field _ _); cbn; set_solver.
Qed.

Lemma find_log_spec id entries n :
  match find_log id entries n with
  | Some (i, l) => (n <= i)%nat ∧ ∃ t, entries !! (i - n)%nat = Some t ∧ read_log t = Some l ∧ al_id l = id
                   ∧ ∀ j t', (j < i - n)%nat → entries !! j = Some t' → has_log_id id t' = false
  | None => ∀ t, t ∈ entries → has_log_id id t = false
  end.
Proof.
  revert n. induction entries as [|t rest IH]; intros n; cbn [find_log]; [by intros t []%elem_of_nil|].
  assert (has_log_id id t = false →
    match find_log id rest (S n) with
    | Some (i, l) => (n <= i)%nat ∧ ∃ t0, (t :: rest) !! (i - n)%nat = Some t0 ∧ read_log t0 = Some l ∧ al_id l = id
                   ∧ ∀ j t', (j < i - n)%nat → (t :: rest) !! j = Some t' → has_log_id id t' = false
    | None => ∀ t0, t0 ∈ t :: rest → has_log_id id t0 = false
    end) as Hskip.
  { intros Ht. specialize (IH (S n)). destruct (find_log id rest (S n)) as [[i l]|].
    - destruct IH as (Hi & t0 & H0 & Hr & Hid & Hb). split; [lia|]. exists t0.
      replace (i - n)%nat with (S (i - S n)) by lia. split_and!; try done.
      intros [|j] t' Hj Hlk; cbn in Hlk; [by simplify_eq | apply (Hb j); [lia | done]].
    - intros t0 [->|Hin]%elem_of_cons; [done | by apply IH]. }
  unfold has_log_id in Hskip at 1. destruct (read_log t) as [l|] eqn:Hr; [|by apply Hskip].
  case_bool_decide as Hid; [|by apply Hskip].
  split; [lia|]. exists t. rewrite Nat.sub_diag. split_and!; try done. intros j t' Hj. lia.
Qed.

Lemma iso_time_nonempty t : bool_decide (iso_time t = "") = false.
Proof. apply bool_decide_eq_false. unfold iso_time. by destruct (iso_day t). Qed.

Lemma store_log_eq i l s : (i < length (i_range (au_logs s)))%nat →
  ∃ logs', store_log i l s = (Ret tt, set_logs logs' s) ∧ i_range logs' = <[i := TJson (log_value l)]> (i_range (au_logs s)).
Proof.
  intros (logs' & Hs & Hl)%(set_in_range i (TJson (log_value l))). exists logs'. split; [|done].
  unfold store_log. rewrite bind_eq. unfold gets. cbv beta iota. rewrite bind_eq. unfold lift. by rewrite Hs.
Qed.

Lemma review_run s id adminId ch meanwhile :
  au_clickhouse s = false →
  markAuditLogReviewed id adminId ch meanwhile s =
  match find_log id (i_range (au_logs s)) 0 with
  | Some (i, l) =>
      let l' := reviewed_log adminId (iso_time (au_now s)) l in
      match store_log i l' (meanwhile s) with (Ret _, s') => (Ret l', s') | (Throw e, s') => (Throw e, s') end
  | None => (Throw "Audit log not found", s)
  end.
Proof.
  intros Hch. unfold markAuditLogReviewed. rewrite bind_eq. unfold gets at 1. cbv beta iota zeta.
  rewrite bind_eq, withClickHouse_off by done. cbv beta iota. rewrite bind_eq. unfold gets at 1. cbv beta iota.
  destruct (find_log id (i_range (au_logs s)) 0) as [[i l]|]; [|reflexivity].
  rewrite !bind_eq. unfold modify at 1. cbv beta iota. rewrite bind_eq.
  destruct (store_log _ _ (meanwhile s)) as [[[]|e] s']; [|done].
  cbn [mret M_ret]. unfold with_reviewedAt, reviewed_log. cbn [al_reviewedAt js_truthy].
  by rewrite iso_time_nonempty.
Qed.

(** The review writes at the place where it found the log, whatever moved there meanwhile. *)
Lemma review_eq s id adminId ch meanwhile :
  au_clickhouse s = false →
  match find_log id (i_range (au_logs s)) 0 with
  | Some (i, l) =>
      let l' := reviewed_log adminId (iso_time (au_now s)) l in
      (i < length (i_range (au_logs (meanwhile s))))%nat →
      ∃ logs', markAuditLogReviewed id adminId ch meanwhile s = (Ret l', set_logs logs' (meanwhile s))
             ∧ i_range logs' = <[i := TJson (log_value l')]> (i_range (au_logs (meanwhile s)))
  | None => markAuditLogReviewed id adminId ch meanwhile s = (Throw "Audit log not found", s)
  end.
Proof.
  intros Hch. pose proof (review_run s id adminId ch meanwhile Hch) as H.
  destruct (find_log id (i_range (au_logs s)) 0) as [[i l]|]; [|exact H].
  intros l' Hi. destruct (store_log_eq i (reviewed_log adminId (iso_time (au_now s)) l) (meanwhile s) Hi) as (logs' & He & Hl).
  exists logs'. split; [|done]. rewrite H. cbv zeta. by rewrite He.
Qed.

(** a review on its own marks the first log with the identifier, and nothing else: its entry becomes
    the log with its defaults, the reviewer and the time, the other entries keep their place, and the
    caller gets what was stored. Without such a log it fails and nothing changes. *)
Lemma review_marks_one_log s id adminId ch :
  au_clickhouse s = false →
  match markAuditLogReviewed id adminId ch (λ x, x) s with
  | (Ret l, s') => ∃ i t l0, i_range (au_logs s) !! i = Some t ∧ read_log t = Some l0 ∧ al_id l0 = id
      ∧ (∀ j t', (j < i)%nat → i_range (au_logs s) !! j = Some t' → has_log_id id t' = false)
      ∧ l = reviewed_log adminId (iso_time (au_now s)) l0
      ∧ i_range (au_logs s') = <[i := TJson (log_value l)]> (i_range (au_logs s))
      ∧ read_log (TJson (log_value l)) = Some l
  | (Throw e, s') => s' = s ∧ ∀ t, t ∈ i_range (au_logs s) → has_log_id id t = false
  end.
Proof.
  intros Hch. pose proof (review_eq s id adminId ch (λ x, x) Hch) as H.
  pose proof (find_log_spec id (i_range (au_logs s)) 0) as Hf.
  destruct (find_log id (i_range (au_logs s)) 0) as [[i l]|].
  - destruct Hf as (_ & t & Ht & Hr & Hid & Hb). rewrite Nat.sub_0_r in *.
    destruct H as (logs' & -> & Hl); [by eapply lookup_lt_Some|].
    exists i, t, l. split_and!; try done. apply read_written.
    destruct (read_log_ok _ _ Hr) as (Hu & Hip & Hrb & Hra). by split_and!.
  - by rewrite H.
Qed.

(** *** Adding *)

Lemma add_log_spec type description user ip ch s :
  let s' := snd (addAuditLog type description user ip ch s) in
  i_range (au_logs s') =
    take 1000 (TJson (log_value (new_log type description user ip (ae_uuid env (au_ids s)) (iso_time (au_now s))))
               :: i_range (au_logs s))
  ∧ (au_clickhouse s = false → au_clickhouse s' = false).
Proof.
  unfold addAuditLog. rewrite !bind_eq. cbv beta iota zeta delta [gets modify]. cbn [au_ids].
  rewrite !bind_eq. cbv beta iota zeta delta [gets modify].
  rewrite withClickHouse_logs. unfold set_logs, next_id. cbn [au_logs].
  split; [by rewrite range_trim, range_lpush|].
  intros H. rewrite withClickHouse_off; [done | exact H].
Qed.

(** The logs added and reviewed, in any order. *)
Inductive audit_call :=
| CallAdd (type description user : string) (ip : option string) (ch : ch_answer unit)
| CallReview (id adminId : string) (ch : ch_answer (option AuditLog)).
Definition audit_step (s : AuditState) (c : audit_call) : AuditState :=
  match c with
  | CallAdd ty d u ip ch => snd (addAuditLog ty d u ip ch s)
  | CallReview id adm ch => snd (markAuditLogReviewed id adm ch (λ x, x) s)
  end.

(** A review that runs while a log is added writes over another log. *)
Lemma review_during_add s id adminId ch type description user ip ch' i l :
  au_clickhouse s = false → find_log id (i_range (au_logs s)) 0 = Some (i, l) →
  (length (i_range (au_logs s)) < 1000)%nat →
  let added := TJson (log_value (new_log type description user ip (ae_uuid env (au_ids s)) (iso_time (au_now s)))) in
  let '(r, s') := markAuditLogReviewed id adminId ch (λ s, snd (addAuditLog type description user ip ch' s)) s in
  let l' := reviewed_log adminId (iso_time (au_now s)) l in
  r = Ret l' ∧ i_range (au_logs s') = <[i := TJson (log_value l')]> (added :: i_range (au_logs s)).
Proof.
  intros Hch Hf Hlen added.
  pose proof (review_eq s id adminId ch (λ s, snd (addAuditLog type description user ip ch' s)) Hch) as H.
  rewrite Hf in H. destruct (add_log_spec type description user ip ch' s) as [Hadd _].
  rewrite take_ge in Hadd by (cbn; lia).
  destruct H as (logs' & -> & Hl).
  - cbn beta. rewrite Hadd. pose proof (find_log_spec id (i_range (au_logs s)) 0) as Hs. rewrite Hf in Hs.
    destruct Hs as (_ & t & Ht%lookup_lt_Some & _). cbn. lia.
  - split; [done|]. cbn. rewrite Hl. cbn beta. by rewrite Hadd.
Qed.

(** *** Listing *)

Lemma js_slice_page {A} (l : list A) (p : nat) (limit : Z) :
  0 < limit → js_slice (Z.of_nat p * limit) (Z.of_nat p * limit + limit) l =
    take (Z.to_nat limit) (drop (Z.to_nat limit * p) l).
Proof.
  intros Hl. unfold js_slice, slice_bound.
  destruct (Z.ltb_spec (Z.of_nat p * limit) 0); [nia|].
  destruct (Z.ltb_spec (Z.of_nat p * limit + limit) 0); [nia|].
  set (n := Z.of_nat (length l)). destruct (decide (n <= Z.of_nat p * limit)).
  - rewrite (Z.min_r (Z.of_nat p * limit)) by lia.
    rewrite !drop_ge, !take_nil; [done|nia|nia].
  - rewrite (Z.min_l (Z.of_nat p * limit)) by lia.
    replace (Z.to_nat (Z.of_nat p * limit)) with (Z.to_nat limit * p)%nat by nia.
    destruct (decide (n <= Z.of_nat p * limit + limit)).
    + rewrite Z.min_r by lia. rewrite !take_ge; [done| |]; rewrite length_drop; nia.
    + rewrite Z.min_l by lia. do 2 f_equal. nia.
Qed.

Lemma pages_tile {A} (l : list A) (limit : Z) (n : nat) :
  0 < limit →
  concat ((λ p, js_slice (Z.of_nat p * limit) (Z.of_nat p * limit + limit) l) <$> seq 0 n) =
    take (Z.to_nat limit * n) l.
Proof.
  intros Hl. induction n as [|n IH]; [by rewrite Nat.mul_0_r|].
  rewrite seq_S, fmap_app, concat_app, IH. cbn. rewrite app_nil_r, js_slice_page by done.
  rewrite Nat.mul_succ_r. by rewrite <- take_take_drop.
Qed.

Definition with_page (f : Filters) (p : nat) : Filters :=
  {| fi_search := fi_search f; fi_type := fi_type f; fi_user := fi_user f; fi_dateFrom := fi_dateFrom f;
     fi_dateTo := fi_dateTo f; fi_page := Z.of_nat p + 1; fi_limit := fi_limit f |}.

(** the pages of a listing are the matching logs cut into pieces: taken from the first on they give,
    one after the other and without gaps or repetitions, the logs that match the filter in the order of
    the list; enough pages give all of them, and every page reports their number. *)
Lemma audit_pages_tile s show f ch n :
  au_clickhouse s = false → 0 < fi_limit f →
  let page p := getAuditLogs show (with_page f p) ch s in
  let matching := filter (λ l, matches f show l) (omap read_log (i_range (au_logs s))) in
  ∃ pages, (λ p, (page p).1) <$> seq 0 n = Ret <$> pages
    ∧ concat (lp_logs <$> pages) = take (Z.to_nat (fi_limit f) * n) matching
    ∧ (∀ p, p ∈ pages → lp_total p = Z.of_nat (length matching))
    ∧ (Z.of_nat (length matching) <= fi_limit f * Z.of_nat n → concat (lp_logs <$> pages) = matching).
Proof.
  intros Hch Hl page matching.
  assert (∀ p, (page p).1 = Ret {| lp_logs := js_slice (Z.of_nat p * fi_limit f) (Z.of_nat p * fi_limit f + fi_limit f) matching;
                                   lp_total := Z.of_nat (length matching) |}) as Hp.
  { intros p. unfold page, getAuditLogs. rewrite bind_eq, withClickHouse_off by done.
    cbn -[js_slice filter]. by replace (Z.of_nat p + 1 - 1) with (Z.of_nat p) by lia. }
  exists ((λ p, {| lp_logs := js_slice (Z.of_nat p * fi_limit f) (Z.of_nat p * fi_limit f + fi_limit f) matching;
                   lp_total := Z.of_nat (length matching) |}) <$> seq 0 n).
  assert (concat (lp_logs <$> ((λ p, {| lp_logs := js_slice (Z.of_nat p * fi_limit f) (Z.of_nat p * fi_limit f + fi_limit f) matching;
                   lp_total := Z.of_nat (length matching) |}) <$> seq 0 n)) = take (Z.to_nat (fi_limit f) * n) matching) as Hc.
  { rewrite <- list_fmap_compose. by apply pages_tile. }
  split_and!; [|exact Hc| |].
  - rewrite <- list_fmap_compose. apply list_fmap_ext. intros i p _. apply Hp.
  - intros p (k & -> & _)%list_elem_of_fmap. done.
  - intros Hn. rewrite Hc. apply take_ge. nia.
Qed.

Lemma audit_logs_bounded s cs :
  au_clickhouse s = false → (length (i_range (au_logs s)) <= 1000)%nat →
  (length (i_range (au_logs (foldl audit_step s cs))) <= 1000)%nat.
Proof.
  intros Hch Hl.
  assert (au_clickhouse (foldl audit_step s cs) = false ∧
          (length (i_range (au_logs (foldl audit_step s cs))) <= 1000)%nat) as [_ H]; [|exact H].
  apply (foldl_invariant (λ s, au_clickhouse s = false ∧ (length (i_range (au_logs s)) <= 1000)%nat)); [|done].
  clear Hch Hl. intros s' c _ [Hch Hl]. destruct c as [ty d u ip ch|id adm ch]; cbn [audit_step].
  - destruct (add_log_spec ty d u ip ch s') as [-> Hc]. split; [by apply Hc|]. rewrite length_take. lia.
  - rewrite (review_run s' id adm ch (λ x, x) Hch).
    destruct (find_log id (i_range (au_logs s')) 0) as [[i l]|] eqn:Ef; [|done]. cbn zeta.
    pose proof (find_log_spec id (i_range (au_logs s')) 0) as Hs. rewrite Ef in Hs.
    destruct Hs as (_ & t & Ht%lookup_lt_Some & _). rewrite Nat.sub_0_r in Ht.
    destruct (store_log_eq i (reviewed_log adm (iso_time (au_now s')) l) s' Ht) as (logs' & -> & Hr).
    cbn. split; [done|]. by rewrite Hr, length_insert.
Qed.
End AuditLogs.

(** ** Concrete runs *)

Definition log0 (id ty : string) : AuditLog :=
  {| al_id := id; al_timestamp := "2024-02-29T12:34:56.789Z"; al_type := ty; al_description := "d";
     al_user := VStr "Ann"; al_ip := VStr ""; al_reviewed := false; al_reviewedBy := VNull;
     al_reviewedAt := VNull |}.
Definition audit0 : AuditState (L := list text) :=
  {| au_logs := [TJson (log_value (log0 "1" "Login")); TRaw "oops"; TJson (log_value (log0 "2" "Error"));
                 TJson (log_value (log0 "3" "Login"))];
     au_clickhouse := false; au_now := 1709210096789; au_ids := 0 |}.
Definition audit_env0 : AuditEnv := {| ae_uuid := λ n, "id" +:+ str_of_Z (Z.of_nat n); ae_date := λ _, None |}.
Definition logins : Filters :=
  {| fi_search := Some "ANN"; fi_type := Some "Login"; fi_user := None; fi_dateFrom := None;
     fi_dateTo := Some ""; fi_page := 1; fi_limit := 1 |}.

Lemma review_marks_one_log_witness :
  match markAuditLogReviewed "2" "adm" (ChOk None) (λ x, x) audit0 with
  | (Ret l, s') => ∃ i t l0, i_range (au_logs audit0) !! i = Some t ∧ read_log t = Some l0 ∧ al_id l0 = "2"
      ∧ (∀ j t', (j < i)%nat → i_range (au_logs audit0) !! j = Some t' → has_log_id "2" t' = false)
      ∧ l = reviewed_log "adm" (iso_time (au_now audit0)) l0
      ∧ i_range (au_logs s') = <[i := TJson (log_value l)]> (i_range (au_logs audit0))
      ∧ read_log (TJson (log_value l)) = Some l
  | (Throw e, s') => s' = audit0 ∧ ∀ t, t ∈ i_range (au_logs audit0) → has_log_id "2" t = false
  end.
Proof. apply (review_marks_one_log audit0 "2" "adm" (ChOk None)). reflexivity. Defined.

Lemma audit_pages_tile_witness :
  let page p := getAuditLogs audit_env0 string_of_val (with_page logins p) (ChOk None) audit0 in
  let matching := filter (λ l, matches audit_env0 logins string_of_val l) (omap read_log (i_range (au_logs audit0))) in
  matching = [log0 "1" "Login"; log0 "3" "Login"] ∧
  ∃ pages, (λ p, (page p).1) <$> seq 0 2 = Ret <$> pages
    ∧ concat (lp_logs <$> pages) = take (Z.to_nat (fi_limit logins) * 2) matching
    ∧ (∀ p, p ∈ pages → lp_total p = Z.of_nat (length matching))
    ∧ (Z.of_nat (length matching) <= fi_limit logins * Z.of_nat 2 → concat (lp_logs <$> pages) = matching).
Proof.
  split; [vm_compute; reflexivity|].
  apply (audit_pages_tile audit_env0 audit0 string_of_val logins (ChOk None) 2); [reflexivity | done].
Defined.

(** A review of log 3 while another is added: log 2 is overwritten, and log 3 is there twice. *)
Lemma review_race_loses_a_log :
  let s' := snd (markAuditLogReviewed "3" "adm" (ChOk None)
              (λ s, snd (addAuditLog audit_env0 "Login" "d" "Bob" None (ChOk tt) s)) audit0) in
  (al_id <$> omap read_log (au_logs s')) = ["id0"; "1"; "3"; "3"].
Proof. vm_compute. reflexivity. Qed.

(** One text that does not parse makes the summary fail, while the listing skips it. *)
Lemma malformed_log_stops_the_summary :
  (getAuditSummary (ChOk None) audit0).1 = Throw "SyntaxError"
  ∧ ∃ p, (getAuditLogs audit_env0 string_of_val logins (ChOk None) audit0).1 = Ret p ∧ lp_total p = 2.
Proof. split; [vm_compute; reflexivity|]. eexists. split; [vm_compute; reflexivity | reflexivity]. Qed.
