(* ===== verification/Alerts.v ===== *)
(** * Acknowledging alerts and events

    [acknowledgeSecurityAlert] and [acknowledgeAdminEvent] of
    backend/src/analytics/analytics.service.ts: a loop of WATCH, LRANGE and
    MULTI/EXEC, split at its awaits. Other processes write the list in between;
    all requests of one process share one Redis connection. *)

From S2P Require Import Prelude JsText Schemas AuditLog.
#[local] Open Scope string_scope.
#[local] Open Scope list_scope.
#[local] Open Scope Z_scope.

(** ** Transactions *)

(** A connection and a list key: whether the key is watched on the connection, and whether it was
    written since. A write marks the watch; [EXEC] fails on a marked watch, and ends it either way. *)
Class RedisTxOps (C X : Type) := {
  tx_items : C → list X;
  tx_watching : C → bool;
  tx_dirty : C → bool;
  tx_watch : C → C;
  tx_unwatch : C → C;
  tx_exec : (list X → list X) → C → bool * C;
  tx_write : (list X → list X) → C → C }.

Class RedisTxLaws (C X : Type) `{!RedisTxOps C X} := {
  watch_spec c : tx_items (tx_watch c) = tx_items c ∧ tx_watching (tx_watch c) = true
                 ∧ tx_dirty (tx_watch c) = tx_dirty c;
  unwatch_spec c : tx_items (tx_unwatch c) = tx_items c ∧ tx_watching (tx_unwatch c) = false
                   ∧ tx_dirty (tx_unwatch c) = false;
  exec_spec f c : (tx_exec f c).1 = negb (tx_dirty c)
    ∧ tx_items (tx_exec f c).2 = (if tx_dirty c then tx_items c else f (tx_items c))
    ∧ tx_watching (tx_exec f c).2 = false ∧ tx_dirty (tx_exec f c).2 = false;
  write_spec f c : tx_items (tx_write f c) = f (tx_items c) ∧ tx_watching (tx_write f c) = tx_watching c
                   ∧ tx_dirty (tx_write f c) = tx_dirty c || tx_watching c }.

Record conn (X : Type) := Conn { cn_items : list X; cn_watching : bool; cn_dirty : bool }.
Arguments Conn {X}. Arguments cn_items {X}. Arguments cn_watching {X}. Arguments cn_dirty {X}.

#[export] Instance conn_ops X : RedisTxOps (conn X) X := {
  tx_items := cn_items; tx_watching := cn_watching; tx_dirty := cn_dirty;
  tx_watch c := Conn (cn_items c) true (cn_dirty c);
  tx_unwatch c := Conn (cn_items c) false false;
  tx_exec f c := (negb (cn_dirty c), Conn (if cn_dirty c then cn_items c else f (cn_items c)) false false);
  tx_write f c := Conn (f (cn_items c)) (cn_watching c) (cn_dirty c || cn_watching c) }.
#[export] Instance conn_laws X : RedisTxLaws (conn X) X.
Proof. done. Qed.

(** ** What an acknowledgement does with the entries it read *)

(** Nothing to acknowledge, an error, or the answer and the change of the list. *)
Definition decision (X A : Type) : Type := outcome (option (A * (list X → list X))).

Fixpoint parse_all `{!ZodOps} (s : schema) (entries : list text) : outcome (list jsval) :=
  match entries with
  | [] => Ret []
  | e :: rest =>
      v ← json_parse e;
      match z_parse s v with
      | Some x => xs ← parse_all s rest; Ret (x :: xs)
      | None => Throw "ZodError"
      end
  end.

Definition has_id (id : string) (v : jsval) : bool :=
  match v with
  | VObj fs => match field "id" fs with VStr s => bool_decide (s = id) | _ => false end
  | _ => false
  end.

Fixpoint find_index {A} (p : A → bool) (l : list A) : option nat :=
  match l with
  | [] => None
  | x :: l' => if p x then Some O else S <$> find_index p l'
  end.

(** [{ ...alert, resolved: true }] *)
Fixpoint set_field (k : string) (x : jsval) (fs : list (string * jsval)) : list (string * jsval) :=
  match fs with
  | [] => [(k, x)]
  | (k', v) :: rest => if String.eqb k k' then (k, x) :: rest else (k', v) :: set_field k x rest
  end.
Definition resolved (v : jsval) : jsval :=
  match v with VObj fs => VObj (set_field "resolved" (VBool true) fs) | _ => v end.

(** [LSET] of an index that is out of range is an error inside the transaction and changes nothing. *)
Definition choose_alert `{!ZodOps} (id : string) (entries : list text) : decision text jsval :=
  parsed ← parse_all AlertItemSchema entries;
  match find_index (has_id id) parsed with
  | None => Ret None
  | Some i =>
      let updated := resolved (default VUndefined (parsed !! i)) in
      Ret (Some (updated, λ l, <[i := TJson updated]> l))
  end.

(** [LREM key 1 raw], where the texts of one value are not told apart. *)
Fixpoint remove_entry (same : text → text → bool) (t : text) (l : list text) : list text :=
  match l with
  | [] => []
  | x :: l' => if same t x then l' else x :: remove_entry same t l'
  end.
Definition choose_event `{!ZodOps} (same : text → text → bool) (id : string) (entries : list text)
    : decision text unit :=
  parsed ← parse_all AdminEventSchema entries;
  match find_index (has_id id) parsed with
  | None => Ret None
  | Some i => Ret (Some (tt, λ l, from_option (λ t, remove_entry same t l) l (entries !! i)))
  end.

(** ** The loop *)

Inductive ack (X A : Type) :=
| AckWatch
| AckRead
| AckExec (answer : A) (change : list X → list X)
| AckUnwatch (failure : option string)
| AckDone (r : outcome A).
Arguments AckWatch {X A}. Arguments AckRead {X A}. Arguments AckExec {X A}.
Arguments AckUnwatch {X A}. Arguments AckDone {X A}.

Section Acknowledge.
Context {C X A : Type} `{!RedisTxOps C X} (choose : list X → decision X A) (notFound : string).

(** One step of a request, up to its next await. A failing parse leaves the key watched. *)
Definition ack_step (k : ack X A) (c : C) : ack X A * C :=
  match k with
  | AckWatch => (AckRead, tx_watch c)
  | AckRead =>
      match choose (tx_items c) with
      | Throw e => (AckDone (Throw e), c)
      | Ret None => (AckUnwatch (Some notFound), c)
      | Ret (Some (v, f)) => (AckExec v f, c)
      end
  | AckExec v f =>
      let '(ok, c') := tx_exec f c in ((if ok then AckDone (Ret v) else AckUnwatch None), c')
  | AckUnwatch (Some e) => (AckDone (Throw e), tx_unwatch c)
  | AckUnwatch None => (AckWatch, tx_unwatch c)
  | AckDone r => (AckDone r, c)
  end.

(** What happens on the key: a request of this process takes its next step, or someone writes. *)
Inductive happening := Step (request : nat) | Write (f : list X → list X).

Definition happen (s : list (ack X A) * C) (h : happening) : list (ack X A) * C :=
  match h with
  | Step i =>
      match s.1 !! i with
      | Some k => let '(k', c') := ack_step k s.2 in (<[i := k']> s.1, c')
      | None => s
      end
  | Write f => (s.1, tx_write f s.2)
  end.
Definition unfold_run (hs : list happening) (s : list (ack X A) * C) : list (ack X A) * C := foldl happen s hs.

Definition writes (hs : list happening) : list (list X → list X) :=
  omap (λ h, match h with Write f => Some f | Step _ => None end) hs.
Definition apply_writes (fs : list (list X → list X)) (l : list X) : list X := foldl (λ l f, f l) l fs.

Context `{!RedisTxLaws C X}.

(** A request alone on its connection: [W] are the writes so far. *)
Inductive single (l0 : list X) (W : list (list X → list X)) : ack X A → C → Prop :=
| SWatch c : tx_items c = apply_writes W l0 → tx_watching c = false → tx_dirty c = false → single l0 W AckWatch c
| SRead c : tx_items c = apply_writes W l0 → tx_watching c = true → single l0 W AckRead c
| SExec c v f : tx_items c = apply_writes W l0 → tx_watching c = true →
    (tx_dirty c = false → choose (tx_items c) = Ret (Some (v, f))) → single l0 W (AckExec v f) c
| SUnwatch c e : tx_items c = apply_writes W l0 →
    (∀ m, e = Some m → m = notFound ∧ ∃ W1 W2, W = W1 ++ W2 ∧ choose (apply_writes W1 l0) = Ret None) →
    single l0 W (AckUnwatch e) c
| SFail c e W1 W2 : tx_items c = apply_writes W l0 → W = W1 ++ W2 →
    choose (apply_writes W1 l0) = Throw e ∨ (e = notFound ∧ choose (apply_writes W1 l0) = Ret None) →
    single l0 W (AckDone (Throw e)) c
| SDone c v f W1 W2 : W = W1 ++ W2 → choose (apply_writes W1 l0) = Ret (Some (v, f)) →
    tx_items c = apply_writes W2 (f (apply_writes W1 l0)) → single l0 W (AckDone (Ret v)) c.

Lemma apply_writes_snoc W f l : apply_writes (W ++ [f]) l = f (apply_writes W l).
Proof. unfold apply_writes. by rewrite foldl_app. Qed.

Lemma single_write l0 W k c f : single l0 W k c → single l0 (W ++ [f]) k (tx_write f c).
Proof.
  destruct (write_spec f c) as (Hi & Hw & Hd). intros H.
  inversion H as [c' E Hnw Hnd|c' E Hwt|c' v g E Hwt Hch|c' e E He|c' e W1 W2 E -> He|c' v g W1 W2 -> Hch E]; subst.
  - apply SWatch; [by rewrite Hi, apply_writes_snoc, E | congruence | by rewrite Hd, Hnw, Hnd].
  - apply SRead; [by rewrite Hi, apply_writes_snoc, E | congruence].
  - apply SExec; [by rewrite Hi, apply_writes_snoc, E | congruence |]. rewrite Hd, Hwt, orb_true_r. done.
  - apply SUnwatch; [by rewrite Hi, apply_writes_snoc, E|]. intros m (-> & W1 & W2 & -> & Hn)%He.
    split; [done|]. exists W1, (W2 ++ [f]). by rewrite app_assoc.
  - apply (SFail _ _ _ _ W1 (W2 ++ [f])); [by rewrite Hi, apply_writes_snoc, E | by rewrite app_assoc | done].
  - apply (SDone _ _ _ _ g W1 (W2 ++ [f])); [by rewrite app_assoc | done | by rewrite Hi, apply_writes_snoc, E].
Qed.

Lemma single_step l0 W k c : single l0 W k c → let '(k', c') := ack_step k c in single l0 W k' c'.
Proof.
  intros H.
  inversion H as [c' E Hnw Hnd|c' E Hwt|c' v g E Hwt Hch|c' e E He|c' e W1 W2 E HW He|c' v g W1 W2 HW Hch E]; subst; cbn [ack_step].
  - destruct (watch_spec c) as (Hi & Hw & _). apply SRead; [by rewrite Hi | done].
  - destruct (choose (tx_items c)) as [[[v g]|]|e] eqn:Hch.
    + by apply SExec.
    + apply SUnwatch; [done|]. intros m [= <-]. split; [done|]. exists W, []. rewrite app_nil_r, <- E. done.
    + apply (SFail _ _ _ _ W []); [done | by rewrite app_nil_r | left; by rewrite <- E].
  - pose proof (exec_spec g c) as (Hok & Hi & Hw & Hd). destruct (tx_exec g c) as [ok c']. cbn in *. subst ok.
    destruct (tx_dirty c); cbn.
    + apply SUnwatch; [by rewrite Hi | done].
    + apply (SDone _ _ _ _ g W []); [by rewrite app_nil_r | by rewrite <- E; apply Hch | cbn; by rewrite Hi, E].
  - destruct (unwatch_spec c) as (Hi & Hw & Hd). destruct e as [m|].
    + destruct (He m eq_refl) as (-> & W1 & W2 & -> & Hn). apply (SFail _ _ _ _ W1 W2); [by rewrite Hi | done | by right].
    + apply SWatch; [by rewrite Hi | done | done].
  - exact H.
  - exact H.
Qed.

Lemma single_run l0 hs W k c : single l0 W k c → Forall (λ h, ∀ i, h = Step i → i = 0%nat) hs →
  ∃ k' c', unfold_run hs ([k], c) = ([k'], c') ∧ single l0 (W ++ writes hs) k' c'.
Proof.
  intros H Hhs. revert W k c H. induction Hhs as [|h hs Hh _ IH]; intros W k c H.
  - exists k, c. by rewrite app_nil_r.
  - destruct h as [i|f]; cbn [unfold_run foldl happen writes omap list_omap].
    + rewrite (Hh i eq_refl). cbn. pose proof (single_step _ _ _ _ H) as Hs.
      destruct (ack_step k c) as [k' c']. apply (IH W k' c' Hs).
    + apply (single_write _ _ _ _ f) in H. destruct (IH _ _ _ H) as (k' & c' & Hr & Hs).
      exists k', c'. split; [exact Hr|]. by rewrite <- app_assoc in Hs.
Qed.

(** an acknowledgement that has its connection to itself takes effect at one point. However the
    writes of other processes fall between its steps, once it has answered, the list is what the writes
    before that point, then the acknowledgement on the list as it is there, then the other writes make
    of it; and if it failed, the list is what the writes make of it. *)
Lemma acknowledge_takes_effect_at_once c hs :
  tx_watching c = false → tx_dirty c = false → Forall (λ h, ∀ i, h = Step i → i = 0%nat) hs →
  ∃ k c', unfold_run hs ([AckWatch], c) = ([k], c') ∧
  match k with
  | AckDone (Ret v) => ∃ W1 W2 f, writes hs = W1 ++ W2
      ∧ choose (apply_writes W1 (tx_items c)) = Ret (Some (v, f))
      ∧ tx_items c' = apply_writes W2 (f (apply_writes W1 (tx_items c)))
  | AckDone (Throw e) => tx_items c' = apply_writes (writes hs) (tx_items c)
      ∧ ∃ W1 W2, writes hs = W1 ++ W2 ∧ (choose (apply_writes W1 (tx_items c)) = Throw e
                 ∨ e = notFound ∧ choose (apply_writes W1 (tx_items c)) = Ret None)
  | _ => tx_items c' = apply_writes (writes hs) (tx_items c)
  end.
Proof.
  intros Hw Hd Hhs.
  destruct (single_run (tx_items c) hs [] AckWatch c) as (k & c' & Hr & Hs); [by apply SWatch | done |].
  exists k, c'. split; [exact Hr|]. cbn in Hs.
  inversion Hs as [| | | |? e W1 W2 E HW He|? v g W1 W2 HW Hch E]; subst; try done.
  - split; [done|]. by exists W1, W2.
  - by exists W1, W2, g.
Qed.

(** Steps without a write in between. *)
Fixpoint steps (n : nat) (k : ack X A) (c : C) : ack X A * C :=
  match n with O => (k, c) | S n' => let '(k', c') := ack_step k c in steps n' k' c' end.
Definition is_done (k : ack X A) : bool := match k with AckDone _ => true | _ => false end.

Lemma steps_done n k c : is_done k = true → steps n k c = (k, c).
Proof. intros H. induction n as [|n IH]; [done|]. destruct k; try done; cbn [steps ack_step]; exact IH. Qed.

Lemma steps_add m n k c : steps (m + n) k c = let '(k', c') := steps m k c in steps n k' c'.
Proof.
  revert k c. induction m as [|m IH]; intros k c; [done|]. cbn [Nat.add steps].
  destruct (ack_step k c) as [k' c']. apply IH.
Qed.

Lemma steps_one n k c : steps (S n) k c = let '(k', c') := ack_step k c in steps n k' c'.
Proof. reflexivity. Qed.

Lemma watch_finishes n c : tx_dirty c = false → is_done (steps (3 + n) AckWatch c).1 = true.
Proof.
  intros Hd. cbn [Nat.add]. rewrite !steps_one. cbn [ack_step]. destruct (watch_spec c) as (Hi & Hw & Hd').
  rewrite steps_one. cbn [ack_step].
  destruct (choose (tx_items (tx_watch c))) as [[[v f]|]|e]; rewrite steps_one; cbn [ack_step];
    [|by rewrite steps_done..].
  pose proof (exec_spec f (tx_watch c)) as (Hok & _). destruct (tx_exec f (tx_watch c)) as [ok c'].
  cbn in Hok. rewrite Hd', Hd in Hok. subst ok. by rewrite steps_done.
Qed.

Lemma unwatch_finishes n e c : is_done (steps (4 + n) (AckUnwatch e) c).1 = true.
Proof.
  cbn [Nat.add]. rewrite steps_one. destruct e as [e|]; cbn [ack_step]; [by rewrite steps_done|].
  apply (watch_finishes n), unwatch_spec.
Qed.

Lemma exec_finishes n v f c : is_done (steps (5 + n) (AckExec v f) c).1 = true.
Proof.
  cbn [Nat.add]. rewrite steps_one. cbn [ack_step].
  destruct (tx_exec f c) as [[|] c']; [by rewrite steps_done | apply (unwatch_finishes n)].
Qed.

Lemma read_finishes n c : is_done (steps (6 + n) AckRead c).1 = true.
Proof.
  cbn [Nat.add]. rewrite steps_one. cbn [ack_step].
  destruct (choose (tx_items c)) as [[[v f]|]|e]; [apply (exec_finishes n) | apply (unwatch_finishes (S n)) |
    by rewrite steps_done].
Qed.

(** the loop ends: from any point of a request, seven steps without a write to the key in between
    finish it. *)
Lemma acknowledge_finishes k c : is_done (steps 7 k c).1 = true.
Proof.
  destruct k as [| |v f|e|r].
  - change 7%nat with (S (6 + 0)). rewrite steps_one. apply read_finishes.
  - apply (read_finishes 1).
  - apply (exec_finishes 2).
  - apply (unwatch_finishes 3).
  - by rewrite steps_done.
Qed.
End Acknowledge.

(** ** What the two decisions are *)

Lemma parse_all_lookup `{!ZodOps} s entries parsed :
  parse_all s entries = Ret parsed →
  length parsed = length entries ∧
  ∀ i v, parsed !! i = Some v → ∃ t u, entries !! i = Some t ∧ json_parse t = Ret u ∧ z_parse s u = Some v.
Proof.
  revert parsed. induction entries as [|e rest IH]; intros parsed; cbn [parse_all].
  - intros [= <-]. by split.
  - destruct (json_parse e) as [u|] eqn:He; [|done]. cbn [mbind outcome_bind].
    destruct (z_parse s u) as [x|] eqn:Hx; [|done].
    destruct (parse_all s rest) as [xs|]; [|done]. cbn. intros [= <-]. destruct (IH xs eq_refl) as [Hl Hi].
    split; [cbn; lia|]. intros [|i] v Hv; cbn in Hv; [simplify_eq; by exists e, u | by apply Hi].
Qed.

Lemma find_index_spec {A} (p : A → bool) l :
  match find_index p l with
  | Some i => ∃ x, l !! i = Some x ∧ p x = true ∧ ∀ j y, (j < i)%nat → l !! j = Some y → p y = false
  | None => ∀ x, x ∈ l → p x = false
  end.
Proof.
  induction l as [|x l IH]; cbn [find_index]; [by intros x []%elem_of_nil|].
  destruct (p x) eqn:Hx; [exists x; split_and!; [done | done | intros j y Hj; lia]|].
  destruct (find_index p l) as [i|]; cbn.
  - destruct IH as (y & Hy & Hp & Hb). exists y. split_and!; [done | done|].
    intros [|j] z Hj Hz; cbn in Hz; [by simplify_eq | apply (Hb j); [lia | done]].
  - by intros y [->|Hy%IH]%elem_of_cons.
Qed.

(** Acknowledging an alert: when it succeeds, exactly the entry of the first alert with the identifier changes. *)
Lemma choose_alert_spec `{!ZodOps} id entries v f :
  choose_alert id entries = Ret (Some (v, f)) →
  ∃ i t u x, entries !! i = Some t ∧ json_parse t = Ret u ∧ z_parse AlertItemSchema u = Some x
    ∧ has_id id x = true ∧ v = resolved x ∧ f entries = <[i := TJson v]> entries.
Proof.
  unfold choose_alert. destruct (parse_all AlertItemSchema entries) as [parsed|] eqn:Hp; [|done].
  cbn [mbind outcome_bind]. apply parse_all_lookup in Hp as [Hl Hp].
  pose proof (find_index_spec (has_id id) parsed) as Hf.
  destruct (find_index (has_id id) parsed) as [i|]; [|done]. intros [= <- <-].
  destruct Hf as (x & Hx & Hid & _). destruct (Hp i x Hx) as (t & u & Ht & Hu & Hz).
  exists i, t, u, x. rewrite Hx. by split_and!.
Qed.

(** ** Concrete runs *)

Definition alert (id : string) (resolved_ : bool) : text :=
  TJson (VObj [("id", VStr id); ("severity", VStr "danger"); ("title", VStr "t"); ("body", VStr "b");
               ("time", VStr "now"); ("resolved", VBool resolved_)]).
Definition alerts0 : conn text := Conn [alert "a" false; alert "b" false; alert "c" false] false false.
Definition push (t : text) : list text → list text := λ l, t :: l.
Abbreviation choose0 := (@choose_alert zod0).

Definition schedule0 : list (happening (X := text)) :=
  [Step 0; Step 0; Write (push (alert "d" false)); Step 0; Step 0; Step 0; Step 0; Step 0].

Lemma acknowledge_takes_effect_at_once_witness :
  cn_items (unfold_run (choose0 "b") "Security alert not found" schedule0 ([AckWatch], alerts0)).2 =
    [alert "d" false; alert "a" false; alert "b" true; alert "c" false] ∧
  ∃ k c', unfold_run (choose0 "b") "Security alert not found" schedule0 ([AckWatch], alerts0) = ([k], c') ∧
  match k with
  | AckDone (Ret v) => ∃ W1 W2 f, writes schedule0 = W1 ++ W2
      ∧ choose0 "b" (apply_writes W1 (tx_items alerts0)) = Ret (Some (v, f))
      ∧ tx_items c' = apply_writes W2 (f (apply_writes W1 (tx_items alerts0)))
  | AckDone (Throw e) => tx_items c' = apply_writes (writes schedule0) (tx_items alerts0)
      ∧ ∃ W1 W2, writes schedule0 = W1 ++ W2 ∧ (choose0 "b" (apply_writes W1 (tx_items alerts0)) = Throw e
                 ∨ e = "Security alert not found" ∧ choose0 "b" (apply_writes W1 (tx_items alerts0)) = Ret None)
  | _ => tx_items c' = apply_writes (writes schedule0) (tx_items alerts0)
  end.
Proof.
  split; [vm_compute; reflexivity|].
  apply (acknowledge_takes_effect_at_once (choose0 "b") "Security alert not found" alerts0 schedule0);
    [reflexivity | reflexivity |].
  unfold schedule0. repeat (apply Forall_cons; split; [by intros i [= <-] || done|]). apply Forall_nil_2.
Defined.

Lemma acknowledge_finishes_witness :
  is_done (steps (choose0 "b") "Security alert not found" 7 AckRead alerts0).1 = true.
Proof. apply (acknowledge_finishes (choose0 "b") "Security alert not found" AckRead alerts0). Defined.

(** Two requests of one process: the first ends the watch of both, and the second writes its alert over
    another one, although the list had changed since it was read. *)
Lemma shared_connection_loses_an_alert :
  cn_items (unfold_run (choose0 "c") "Security alert not found"
    [Step 0; Step 0; Step 1; Step 1; Write (push (alert "d" false)); Step 0; Step 1]
    ([AckWatch; AckWatch], alerts0)).2 =
  [alert "d" false; alert "a" false; alert "c" true; alert "c" false].
Proof. vm_compute. reflexivity. Qed.

(** An entry that does not parse stops every acknowledgement, and leaves the key watched. *)
Lemma malformed_alert_stops_acknowledgements :
  let s := unfold_run (choose0 "a") "Security alert not found" [Step 0; Step 0]
             ([AckWatch], Conn [alert "a" false; TRaw "{"] false false) in
  s.1 = [AckDone (Throw "SyntaxError")] ∧ cn_watching s.2 = true.
Proof. vm_compute. done. Qed.
