(* ===== verification/Analytics.v ===== *)
(** * Analytics: streams, delivery, alarms, classes of log types

    The rest of backend/src/analytics: recording of events in Redis streams, the
    validation and delivery of etl.service.ts, the heuristics that raise anti-cheat
    flags, the daily engagement figures without ClickHouse, and the display classes
    of audit log types. Kafka, ClickHouse, the object store and the JSON-schema
    validators of [ajv] are parameters: what is handed to them is recorded. *)

From S2P Require Import Prelude JsText JsMap Store Schemas AuditLog Collusion.
#[local] Open Scope string_scope.
#[local] Open Scope list_scope.
#[local] Open Scope Z_scope.

(** ** Classes of log types *)

Definition DEFAULT_LOG_TYPE_CLASS : string := "bg-card-bg text-text-secondary".
Definition LOG_TYPE_CLASS_DEFAULT_SEED : list (string * string) := [
  ("Login", "bg-accent-green/20 text-accent-green");
  ("Error", "bg-danger-red/20 text-danger-red");
  ("Broadcast", "bg-accent-yellow/20 text-accent-yellow");
  ("Security Alert", "bg-danger-red/20 text-danger-red")].

(** The patterns are alternatives of words, without regard to case. *)
Definition LOG_TYPE_CLASS_MATCHERS : list (list string * string) := [
  (["error"; "fail"; "denied"; "reject"; "blocked"; "fraud"; "chargeback"; "alert"; "flag"],
   "bg-danger-red/20 text-danger-red");
  (["login"; "auth"; "session"; "register"; "signup"; "verification"],
   "bg-accent-green/20 text-accent-green");
  (["wallet"; "payment"; "balance"; "deposit"; "withdraw"; "payout"; "reserve"; "commit"; "rollback";
    "transfer"; "credit"; "debit"; "transaction"], "bg-accent-blue/20 text-accent-blue");
  (["broadcast"; "notification"; "message"; "email"; "communication"; "announcement"],
   "bg-accent-yellow/20 text-accent-yellow");
  (["table"; "tournament"; "hand"; "leaderboard"; "game"; "seat"; "match"],
   "bg-accent-blue/20 text-accent-blue");
  (["kyc"; "compliance"; "security"; "anti"; "monitor"], "bg-danger-red/20 text-danger-red")].

Definition pattern_test (words : list string) (s : string) : bool :=
  existsb (λ w, js_includes w (to_lower s)) words.

(** An empty class does not count as configured. *)
Definition resolveLogTypeClass (type : string) (defaultMap : list (string * string)) : string :=
  if bool_decide (type = "") then DEFAULT_LOG_TYPE_CLASS else
  match om_get type defaultMap with
  | Some c => if bool_decide (c = "") then default DEFAULT_LOG_TYPE_CLASS
                (snd <$> head (filter (λ m, pattern_test m.1 type = true) LOG_TYPE_CLASS_MATCHERS)) else c
  | None => default DEFAULT_LOG_TYPE_CLASS
              (snd <$> head (filter (λ m, pattern_test m.1 type = true) LOG_TYPE_CLASS_MATCHERS))
  end.

(** [new Map(entries)] *)
Definition map_of (entries : list (string * string)) : list (string * string) :=
  foldl (λ m e, om_set e.1 e.2 m) [] entries.

(** The body of [getAuditLogTypeClasses], on what its three sources answered. *)
Definition getAuditLogTypeClasses (types : list string) (overrides defaultMap : list (string * string))
    : list (string * string) :=
  let overrideMap := map_of overrides in
  let result := foldl (λ m ty,
    match om_get ty overrideMap with
    | Some c => om_set ty c m
    | None => match om_get ty m with
              | Some _ => m
              | None => om_set ty (resolveLogTypeClass ty defaultMap) m
              end
    end) defaultMap types in
  foldl (λ m e, om_set e.1 e.2 m) result overrideMap.

Lemma foldl_om_set (l : list (string * string)) m k :
  om_get k (foldl (λ m e, om_set e.1 e.2 m) m l) =
    match om_get k (rev l) with Some v => Some v | None => om_get k m end.
Proof.
  revert m. induction l as [|[k' v'] l IH]; intros m; [done|]. cbn [foldl rev]. rewrite IH. clear IH.
  cbn [fst snd].
  assert (om_get k (rev l ++ [(k', v')]) = match om_get k (rev l) with Some v => Some v | None => om_get k [(k', v')] end)
    as ->.
  { induction (rev l) as [|[j w] r IHr]; [done|]. cbn [app om_get]. by case_decide. }
  destruct (om_get k (rev l)); [done|]. rewrite om_get_set. cbn. repeat case_decide; congruence.
Qed.

Lemma map_of_get l k : om_get k (map_of l) = om_get k (rev l).
Proof. unfold map_of. rewrite foldl_om_set. by destruct (om_get k (rev l)). Qed.

Lemma map_of_NoDup l : NoDup (map_of l).*1.
Proof.
  unfold map_of. apply (foldl_invariant (λ m, NoDup m.*1)); [intros m e _; apply om_set_NoDup | apply NoDup_nil_2].
Qed.

Lemma om_get_rev (l : list (string * string)) k : NoDup l.*1 → om_get k (rev l) = om_get k l.
Proof.
  intros Hn. assert (NoDup (rev l).*1) as Hr.
  { assert ((rev l).*1 ≡ₚ l.*1) as -> by (apply fmap_Permutation; symmetry; apply Permutation_rev). done. }
  apply option_eq. intros v. rewrite !om_get_elem by done. rewrite !list_elem_of_In. symmetry. apply in_rev.
Qed.

(** A type's class is its override, then its default, then the one its name suggests. *)
Lemma log_type_class types overrides defaultMap ty :
  om_get ty (getAuditLogTypeClasses types overrides defaultMap) =
  match om_get ty (map_of overrides) with
  | Some c => Some c
  | None => match om_get ty defaultMap with
            | Some c => Some c
            | None => if decide (ty ∈ types) then Some (resolveLogTypeClass ty defaultMap) else None
            end
  end.
Proof.
  unfold getAuditLogTypeClasses. rewrite foldl_om_set, om_get_rev by apply map_of_NoDup.
  destruct (om_get ty (map_of overrides)) as [c|] eqn:Ho; [done|].
  assert (∀ m, om_get ty (foldl (λ m ty, match om_get ty (map_of overrides) with
    | Some c => om_set ty c m
    | None => match om_get ty m with Some _ => m | None => om_set ty (resolveLogTypeClass ty defaultMap) m end
    end) m types) = match om_get ty m with
            | Some c => Some c
            | None => if decide (ty ∈ types) then Some (resolveLogTypeClass ty defaultMap) else None
            end) as H; [|apply H].
  induction types as [|t types IH]; intros m; cbn [foldl].
  - destruct (om_get ty m); [done|]. by rewrite decide_False by apply not_elem_of_nil.
  - rewrite IH. destruct (decide (t = ty)) as [->|Hne].
    + rewrite Ho. destruct (om_get ty m) eqn:Em; [by rewrite Em|].
      rewrite om_get_set, decide_True by done. by rewrite decide_True by (by left).
    + assert (om_get ty (match om_get t (map_of overrides) with
        | Some c => om_set t c m
        | None => match om_get t m with Some _ => m | None => om_set t (resolveLogTypeClass t defaultMap) m end
        end) = om_get ty m) as ->.
      { repeat case_match; try done; rewrite om_get_set, decide_False by congruence; done. }
      destruct (om_get ty m); [done|]. destruct (decide (ty ∈ types)) as [Hin|Hin].
      * by rewrite decide_True by (by right).
      * rewrite decide_False; [done|]. intros [?|?]%elem_of_cons; congruence.
Qed.

(** *** The two tables and the cache of the defaults *)

Record LogTypeClass := { lc_type : string; lc_className : string }.
#[export] Instance LogTypeClass_entity : Entity LogTypeClass := { row_id := lc_type; row_clash _ _ := false }.
Definition class_pair (c : LogTypeClass) : string * string := (lc_type c, lc_className c).

Section Classes.
Context {T : Type → Type} `{!TableOps T}.

Record ClassState := {
  cl_overrides : T LogTypeClass;
  cl_defaults : option (T LogTypeClass);   (* if the table exists *)
  cl_cache : option (list (string * string)) }.
Abbreviation CM := (M ClassState).

Definition set_classes (o : T LogTypeClass) (d : option (T LogTypeClass)) (c : option (list (string * string)))
    : ClassState := {| cl_overrides := o; cl_defaults := d; cl_cache := c |}.

Definition ensureDefaultLogTypeClassesSeeded : CM unit := modify (λ s,
  set_classes (cl_overrides s)
    ((λ t : T LogTypeClass, foldl (λ (t : T LogTypeClass) e, default t (insert_row {| lc_type := e.1; lc_className := e.2 |} t)) t
             LOG_TYPE_CLASS_DEFAULT_SEED) <$> cl_defaults s) (cl_cache s)).

Definition refreshDefaultLogTypeClasses : CM (list (string * string)) := λ s,
  let m := match cl_defaults s with
           | Some t => map_of (class_pair <$> rows t)
           | None => map_of LOG_TYPE_CLASS_DEFAULT_SEED
           end in
  (Ret m, set_classes (cl_overrides s) (cl_defaults s) (Some m)).

Definition getDefaultLogTypeClassesMap : CM (list (string * string)) :=
  c ← gets cl_cache;
  match c with Some m => mret m | None => refreshDefaultLogTypeClasses end.

Definition listLogTypeClassDefaults (s : ClassState) : list (string * string) :=
  match cl_defaults s with
  | Some t => js_sort (λ x y, String.leb x.1 y.1) (class_pair <$> rows t)
  | None => LOG_TYPE_CLASS_DEFAULT_SEED
  end.

Definition upsertLogTypeClassDefault (type className : string) : CM (string * string) :=
  d ← gets cl_defaults;
  match d with
  | None => throw "ServiceUnavailableException"
  | Some t =>
      modify (λ s, set_classes (cl_overrides s)
        (Some (save_row {| lc_type := type; lc_className := className |} t)) (cl_cache s)) ;;
      refreshDefaultLogTypeClasses ;;
      mret (type, className)
  end.

Definition listLogTypeClassOverrides (s : ClassState) : list (string * string) := class_pair <$> rows (cl_overrides s).

Definition upsertLogTypeClass (type className : string) : CM (string * string) :=
  modify (λ s, set_classes (save_row {| lc_type := type; lc_className := className |} (cl_overrides s))
                 (cl_defaults s) (cl_cache s)) ;;
  mret (type, className).

Definition removeLogTypeClass (type : string) : CM unit :=
  found ← gets (λ s, find_row (λ c, bool_decide (lc_type c = type)) (cl_overrides s));
  match found with
  | None => throw "Log type class override not found"
  | Some _ => modify (λ s, set_classes (delete_where (λ c, bool_decide (lc_type c = type)) (cl_overrides s))
                             (cl_defaults s) (cl_cache s))
  end.

(** [GET /admin/log-types]: [types] are those ClickHouse lists. *)
Definition log_type_classes (types : list string) : CM (list (string * string)) :=
  overrides ← gets listLogTypeClassOverrides;
  defaults ← getDefaultLogTypeClassesMap;
  mret (getAuditLogTypeClasses types overrides defaults).

Context `{!TableLaws T}.

Lemma om_get_map_of (l : list (string * string)) k : NoDup l.*1 → om_get k (map_of l) = om_get k l.
Proof. intros Hn. rewrite map_of_get. by apply om_get_rev. Qed.

Lemma class_of_table (t : T LogTypeClass) ty c :
  unique_ids t → om_get ty (map_of (class_pair <$> rows t)) = Some c ↔ {| lc_type := ty; lc_className := c |} ∈ rows t.
Proof.
  intros Hu. assert (NoDup (class_pair <$> rows t).*1) as Hn by (by rewrite <- list_fmap_compose).
  rewrite om_get_map_of, om_get_elem by done. rewrite list_elem_of_fmap. split.
  - intros ([ty' c'] & H & Hin). unfold class_pair in H. cbn in H. by injection H as -> ->.
  - intros Hin. by exists {| lc_type := ty; lc_className := c |}.
Qed.

Lemma log_type_classes_cached types s m :
  cl_cache s = Some m → log_type_classes types s = (Ret (getAuditLogTypeClasses types (listLogTypeClassOverrides s) m), s).
Proof.
  intros Hc. unfold log_type_classes, getDefaultLogTypeClassesMap. rewrite !bind_eq. unfold gets. cbv beta iota.
  rewrite !bind_eq. by rewrite Hc.
Qed.

(** What an administrator sets is what the next listing of classes shows, from the cache too. *)
Lemma upserted_class_is_listed s (t : T LogTypeClass) ty c types :
  cl_defaults s = Some t → unique_ids t → om_get ty (map_of (listLogTypeClassOverrides s)) = None →
  let s' := snd (upsertLogTypeClassDefault ty c s) in
  ∃ m, (log_type_classes types s').1 = Ret m ∧ om_get ty m = Some c.
Proof.
  intros Hd Hu Ho. set (t' := save_row {| lc_type := ty; lc_className := c |} t).
  assert (upsertLogTypeClassDefault ty c s = (Ret (ty, c),
    set_classes (cl_overrides s) (Some t') (Some (map_of (class_pair <$> rows t'))))) as ->.
  { unfold upsertLogTypeClassDefault. rewrite bind_eq. unfold gets. cbv beta iota. by rewrite Hd. }
  cbn [snd]. eexists. rewrite (log_type_classes_cached _ _ (map_of (class_pair <$> rows t'))) by done.
  split; [reflexivity|]. rewrite log_type_class.
  change (listLogTypeClassOverrides (set_classes _ _ _)) with (listLogTypeClassOverrides s). rewrite Ho.
  assert (om_get ty (map_of (class_pair <$> rows t')) = Some c) as ->; [|done].
  apply class_of_table; [by apply unique_ids_save|]. unfold t'. rewrite rows_save. by left.
Qed.
End Classes.

(** ** Streams *)

(** [XADD key * value], where the time is the identifier, [XRANGE key since-0 +], [KEYS prefix*]. *)
Class StreamOps (S X : Type) := {
  x_entries : string → S → list (Z * X);
  x_add : string → Z → X → S → S;
  x_keys : S → list string }.

Class StreamLaws (S X : Type) `{!StreamOps S X} := {
  entries_add k k' t x s : x_entries k' (x_add k t x s) =
    if decide (k' = k) then x_entries k s ++ [(t, x)] else x_entries k' s;
  keys_spec k s : k ∈ x_keys s ↔ x_entries k s ≠ [] }.

#[export] Instance map_stream_ops X : StreamOps (gmap string (list (Z * X))) X := {
  x_entries k s := default [] (s !! k);
  x_add k t x s := <[k := default [] (s !! k) ++ [(t, x)]]> s;
  x_keys s := (map_to_list (filter (λ p, p.2 ≠ []) s)).*1 }.
#[export] Instance map_stream_laws X : StreamLaws (gmap string (list (Z * X))) X.
Proof.
  split.
  - intros k k' t x s. cbn. rewrite lookup_insert. by repeat case_decide; try congruence.
  - intros k s. unfold x_keys, x_entries, map_stream_ops. rewrite list_elem_of_fmap. split.
    + intros ([k' l] & -> & [Hl Hne]%elem_of_map_to_list%map_lookup_filter_Some). cbn in *. by rewrite Hl.
    + intros H. destruct (s !! k) as [l|] eqn:E; [|done]. exists (k, l). split; [done|].
      apply elem_of_map_to_list, map_lookup_filter_Some. done.
Qed.

Definition topicMap (prefix : string) : option string :=
  om_get prefix [("game", "hand"); ("hand", "hand"); ("action", "hand"); ("wallet", "wallet");
                 ("tournament", "tourney"); ("auth", "auth"); ("antiCheat", "auth")].

(** [event.replace('.', '_')]: the first dot only. *)
Fixpoint replace_dot (l : list ascii) : list ascii :=
  match l with [] => [] | c :: l' => if Ascii.eqb c "." then "_"%char :: l' else c :: replace_dot l' end.
Definition ingest_table (event : string) : string :=
  String.string_of_list_ascii (replace_dot (String.list_ascii_of_string event)).

Definition day_ms : Z := 86400000.

Section Streams.
Context {ZO : ZodOps} {S : Type} `{!StreamOps S jsval}.

(** The streams, the three lists of the heuristics, what went to Kafka, ClickHouse and the archive,
    the clock and the number of messages sent. *)
Record AnState := {
  an_streams : S; an_sessions : list Session; an_transfers : list Transfer; an_events : list BetEvent;
  an_kafka : list (string * (string * jsval)); an_ingested : list (string * jsval);
  an_archived : list (string * jsval); an_now : Z; an_sends : nat }.

Record AnEnv := { ajv_valid : string → jsval → bool; kafka_ok : nat → bool }.
Context (env : AnEnv).
Abbreviation AM := (M AnState).

Definition set_streams (x : S) (s : AnState) : AnState :=
  {| an_streams := x; an_sessions := an_sessions s; an_transfers := an_transfers s; an_events := an_events s;
     an_kafka := an_kafka s; an_ingested := an_ingested s; an_archived := an_archived s;
     an_now := an_now s; an_sends := an_sends s |}.
Definition set_lists (a : list Session) (b : list Transfer) (c : list BetEvent) (s : AnState) : AnState :=
  {| an_streams := an_streams s; an_sessions := a; an_transfers := b; an_events := c;
     an_kafka := an_kafka s; an_ingested := an_ingested s; an_archived := an_archived s;
     an_now := an_now s; an_sends := an_sends s |}.
(** The three deliveries of an event start together; only a failed send fails the call. *)
Definition deliver (topic event : string) (payload : jsval) (s : AnState) : AnState :=
  {| an_streams := an_streams s; an_sessions := an_sessions s; an_transfers := an_transfers s;
     an_events := an_events s;
     an_kafka := if kafka_ok env (an_sends s) then an_kafka s ++ [(topic, (event, payload))] else an_kafka s;
     an_ingested := an_ingested s ++ [(ingest_table event, payload)];
     an_archived := an_archived s ++ [(event, payload)];
     an_now := an_now s; an_sends := Datatypes.S (an_sends s) |}.

Definition parse_or_throw (event : string) (data : jsval) : AM jsval :=
  match parseEvent event data with Some p => mret p | None => throw "ZodError" end.

Definition runEtl (event : string) (data : jsval) : AM unit :=
  payload ← parse_or_throw event data;
  if negb (ajv_valid env event payload) then mret tt
  else match topicMap (default "" (head (js_split "." event))) with
       | None => mret tt
       | Some topic =>
           ok ← gets (λ s, kafka_ok env (an_sends s));
           modify (deliver topic event payload) ;;
           throw_if (negb ok) "KafkaJSError"
       end.

Definition an_emit (event : string) (data : jsval) : AM unit :=
  payload ← parse_or_throw event data;
  runEtl event payload.

Definition xadd (stream : string) (x : jsval) : AM unit :=
  modify (λ s, set_streams (x_add stream (an_now s) x (an_streams s)) s).

Definition recordStream (stream event : string) (data : jsval) : AM unit :=
  payload ← parse_or_throw event data;
  xadd ("analytics:" +:+ stream) payload ;;
  runEtl event payload.

Definition emitAntiCheatFlag (data : jsval) : AM unit := xadd "analytics:antiCheat.flag" data.

(** *** The heuristics *)

Definition flag (sessionId : string) (users : list string) (features : list (string * jsval)) : jsval :=
  VObj [("sessionId", VStr sessionId); ("users", VArr (VStr <$> users)); ("features", VObj features)].

Definition shared_ip_flag (g : string * list string) : jsval :=
  flag ("shared-" +:+ g.1) g.2 [("type", VStr "sharedIp"); ("ip", VStr g.1)].
Definition sync_flag (g : string * list string) : jsval :=
  flag ("sync-" +:+ g.1) g.2 [("type", VStr "synchronizedBetting"); ("handId", VStr g.1)].

Definition transfer_key (t : Transfer) : string := tr_from t +:+ "-" +:+ tr_to t.
Definition transferTotals (ts : list Transfer) : list (string * Z) :=
  foldl (λ m t, om_set (transfer_key t) (default 0 (om_get (transfer_key t) m) + tr_amount t) m) [] ts.

(** [const [from, to] = key.split('-')] *)
Definition dump_users (key : string) : list jsval :=
  match js_split "-" key with
  | from :: to_ :: _ => [VStr from; VStr to_]
  | [from] => [VStr from; VUndefined]
  | [] => [VUndefined; VUndefined]
  end.
Definition shown (v : jsval) : string := match v with VStr s => s | _ => "undefined" end.
Definition dump_flag (e : string * Z) : jsval :=
  VObj [("sessionId", VStr ("dump-" +:+ shown (nth 0 (dump_users e.1) VUndefined) +:+ "-"
                             +:+ shown (nth 1 (dump_users e.1) VUndefined)));
        ("users", VArr (dump_users e.1));
        ("features", VObj [("type", VStr "chipDumping"); ("total", VNum e.2)])].
Definition dump_flags (ts : list Transfer) : list jsval :=
  dump_flag <$> filter (λ e, 100000 < e.2) (transferTotals ts).

Definition runCollusionHeuristics : AM unit :=
  st ← gets (λ s, (an_sessions s, an_transfers s, an_events s));
  let '(sessions, transfers, events) := st in
  for_each (shared_ip_flag <$> detectSharedIP sessions) emitAntiCheatFlag ;;
  for_each (dump_flags transfers) emitAntiCheatFlag ;;
  for_each (sync_flag <$> detectSynchronizedBetting events 200) emitAntiCheatFlag.

(** A hand, a player and a time make a betting event. *)
Definition bet_event (event : jsval) : option BetEvent :=
  match event with
  | VObj fs =>
      match field "handId" fs, field "playerId" fs, field "timeMs" fs with
      | VStr h, VStr p, VNum t =>
          if bool_decide (h = "" ∨ p = "") then None
          else Some {| be_handId := h; be_playerId := p; be_timeMs := t |}
      | _, _, _ => None
      end
  | _ => None
  end.

Definition recordGameEvent (event : jsval) : AM unit :=
  recordStream "game.analytics" "game.analytics" event ;;
  match bet_event event with
  | Some b =>
      modify (λ s, set_lists (an_sessions s) (an_transfers s) (an_events s ++ [b]) s) ;;
      runCollusionHeuristics
  | None => mret tt
  end.
Definition recordTournamentEvent (event : jsval) : AM unit :=
  recordStream "tournament.analytics" "tournament.analytics" event.
Definition recordCollusionSession (x : Session) : AM unit :=
  modify (λ s, set_lists (an_sessions s ++ [x]) (an_transfers s) (an_events s) s) ;;
  runCollusionHeuristics.
Definition recordCollusionTransfer (x : Transfer) : AM unit :=
  modify (λ s, set_lists (an_sessions s) (an_transfers s ++ [x]) (an_events s) s) ;;
  runCollusionHeuristics.

(** *** Reading streams *)

Definition rangeStream (stream : string) (since : Z) (event : string) (s : AnState) : list jsval :=
  omap (λ e, parseEvent event e.2) (filter (λ e, since <= e.1) (x_entries stream (an_streams s))).

(** Failures are logged and swallowed. *)
Definition processEntry (event : string) (data : jsval) : AM unit :=
  try_catch
    (match event_schema event with
     | None => mret tt
     | Some _ => payload ← parse_or_throw event data; runEtl event payload
     end)
    (λ _, mret tt).

Definition stream_event (stream : string) : string :=
  let key := nth 1 (js_split ":" stream) "undefined" in
  if js_includes "." key then key else key +:+ ".event".

(** Every stream is read from its beginning. *)
Definition drainOnce : AM unit :=
  streams ← gets (λ s, filter (λ k, String.prefix "analytics:" k = true) (x_keys (an_streams s)));
  batches ← gets (λ s, (λ k, (k, x_entries k (an_streams s))) <$> streams);
  for_each batches (λ b, for_each b.2 (λ e, processEntry (stream_event b.1) e.2)).

(** *** The daily figures without ClickHouse *)

Record Engagement := { en_dau : nat; en_mau : nat; en_regs : nat; en_deps : nat }.

Definition text_field (k : string) (v : jsval) : string :=
  match v with VObj fs => string_of_val (field k fs) | _ => "" end.

Definition rebuildEngagementMetrics (s : AnState) : Engagement :=
  let from := (an_now s / day_ms - 1) * day_ms in
  let users since := to_set (text_field "userId" <$> rangeStream "analytics:auth.login" since "auth.login" s) in
  let dau := length (users from) in
  {| en_dau := dau; en_mau := length (users (from - 29 * day_ms)); en_regs := dau;
     en_deps := length (to_set (text_field "accountId" <$>
       filter (λ e, text_field "refType" e = "deposit")
         (rangeStream "analytics:wallet.credit" from "wallet.credit" s))) |}.

(** ** What they do *)

Context {ZL : ZodLaws}.

Lemma dump_users_uuid from to_ :
  is_uuid from = true → ∃ a b, dump_users (from +:+ "-" +:+ to_) = [VStr a; VStr b] ∧ String.length a = 8%nat.
Proof.
  intros Hu. unfold dump_users, js_split. rewrite !list_ascii_of_app. cbn [String.list_ascii_of_string app].
  rewrite split_on_app. unfold is_uuid, js_split in Hu.
  destruct (split_on "-" [] (String.list_ascii_of_string from)) as [|a [|b [|c [|d [|e [|]]]]]]; try done.
  exists a, b. split; [done|]. apply hex_length. do 4 apply andb_true_iff, proj1 in Hu. exact Hu.
Qed.

Lemma transfer_total_key ts k n :
  (k, n) ∈ transferTotals ts → ∃ t, t ∈ ts ∧ k = transfer_key t.
Proof.
  intros H. assert (∀ x, x ∈ (transferTotals ts).*1 → ∃ t, t ∈ ts ∧ x = transfer_key t) as Hk.
  { unfold transferTotals.
    apply (foldl_invariant (λ m : list (string * Z), ∀ x, x ∈ m.*1 → ∃ t, t ∈ ts ∧ x = transfer_key t)).
    - intros m t Ht Hm x. rewrite om_set_keys. case_decide; [apply Hm|].
      intros [Hx| ->%list_elem_of_singleton]%elem_of_app; [by apply Hm | by exists t].
    - intros x []%elem_of_nil. }
  apply Hk. by apply (list_elem_of_fmap_2 fst) in H.
Qed.

(** the alarm for chip dumping names nobody. For players identified by UUIDs, the key of a pair is cut
    at its dashes, so the users of the flag are the first two groups of the giver's identifier: no flag
    of this kind has the type of its event, and no reader of the stream accepts it. *)
Lemma chip_dump_flags_never_parse ts v :
  Forall (λ t, is_uuid (tr_from t) = true) ts → v ∈ dump_flags ts →
  parseEvent "antiCheat.flag" v = None.
Proof.
  intros Hts Hv. apply list_elem_of_fmap in Hv as ([k n] & -> & [_ Hin]%list_elem_of_filter).
  apply transfer_total_key in Hin as (t & Ht & ->). rewrite Forall_forall in Hts.
  destruct (dump_users_uuid (tr_from t) (tr_to t) (Hts t Ht)) as (a & b & He & Hl).
  unfold dump_flag, transfer_key. cbn [fst snd]. rewrite He. unfold parseEvent.
  replace (event_schema "antiCheat.flag") with (Some AntiCheatFlagEvent) by reflexivity. cbn [mbind option_bind].
  assert (z_parse s_uuid VUndefined = None) as Hund by (unfold s_uuid; by rewrite parse_string).
  assert (z_parse s_uuid (VStr a) = None) as Ha.
  { unfold s_uuid. rewrite parse_string. cbn. destruct (is_uuid a) eqn:E; [|done]. apply uuid_length in E. lia. }
  unfold AntiCheatFlagEvent. rewrite parse_union. cbn [first_success].
  unfold AntiCheatWalletEvent at 1, s_object at 1. rewrite parse_object.
  rewrite (shape_refused _ _ "accountId" s_uuid); [|set_solver|by cbn]. cbn [mbind option_bind].
  unfold AntiCheatCollusionEvent at 1, s_object at 1. rewrite parse_object.
  rewrite (shape_refused _ _ "users" (ZArray s_uuid)); [done|set_solver|]. cbn.
  apply (element_refused _ (VStr a)); [by left | done].
Qed.

(** *** What is written and what is delivered *)

Inductive an_call :=
| AnGame (event : jsval) | AnTournament (event : jsval) | AnSession (x : Session) | AnTransfer (x : Transfer)
| AnEmit (event : string) (data : jsval) | AnFlag (data : jsval) | AnDrain.
Definition an_exec (c : an_call) : AM unit :=
  match c with
  | AnGame e => recordGameEvent e
  | AnTournament e => recordTournamentEvent e
  | AnSession x => recordCollusionSession x
  | AnTransfer x => recordCollusionTransfer x
  | AnEmit e d => an_emit e d
  | AnFlag d => emitAntiCheatFlag d
  | AnDrain => drainOnce
  end.
Definition an_run (cs : list an_call) (s : AnState) : AnState := foldl (λ s c, snd (an_exec c s)) s cs.

Definition written_streams : list string :=
  ["analytics:game.analytics"; "analytics:tournament.analytics"; "analytics:antiCheat.flag"].

(** [I] holds through the calls if it holds through appending to the three streams, through the lists
    of the heuristics, and through deliveries of events that passed both validations. *)
Section Calls.
Context (I : AnState → Prop).
Hypothesis I_add : ∀ k x s, k ∈ written_streams → I s → I (set_streams (x_add k (an_now s) x (an_streams s)) s).
Hypothesis I_lists : ∀ a b c s, I s → I (set_lists a b c s).
Hypothesis I_deliver : ∀ topic event data p s,
  parseEvent event data = Some p → ajv_valid env event p = true →
  topicMap (default "" (head (js_split "." event))) = Some topic → I s → I (deliver topic event p s).

Lemma runEtl_keeps event data : preserves I (runEtl event data).
Proof.
  intros s Hs. unfold runEtl, parse_or_throw. destruct (parseEvent event data) as [p|] eqn:Hp; [|done].
  rewrite bind_eq. cbn [mret M_ret]. destruct (ajv_valid env event p) eqn:Hv; cbn [negb]; [|done].
  destruct (topicMap _) as [topic|] eqn:Ht; [|done]. rewrite bind_eq. unfold gets, modify. cbv beta iota.
  rewrite bind_eq. cbv beta iota. destruct (kafka_ok env (an_sends s)); by apply (I_deliver _ _ data).
Qed.
Lemma xadd_keeps k x : k ∈ written_streams → preserves I (xadd k x).
Proof. intros Hk. apply preserves_modify. intros s. by apply I_add. Qed.
Lemma parse_keeps event data : preserves I (parse_or_throw event data).
Proof. unfold parse_or_throw. destruct (parseEvent event data); [apply preserves_ret | apply preserves_throw]. Qed.
#[local] Hint Resolve runEtl_keeps parse_keeps : hub.

Lemma flag_keeps v : preserves I (emitAntiCheatFlag v).
Proof. apply xadd_keeps. set_solver. Qed.
#[local] Hint Resolve flag_keeps : hub.
Lemma heuristics_keep : preserves I runCollusionHeuristics.
Proof.
  unfold runCollusionHeuristics. apply preserves_bind; [apply preserves_gets|]. intros [[a b] c].
  repeat (apply preserves_bind; [apply preserves_for_each; intros; apply flag_keeps|intros _]).
  apply preserves_for_each. intros. apply flag_keeps.
Qed.
Lemma lists_keep f g h : preserves I (modify (λ s, set_lists (f s) (g s) (h s) s)).
Proof. apply preserves_modify. intros s. apply I_lists. Qed.
#[local] Hint Resolve heuristics_keep lists_keep : hub.

Lemma an_exec_keeps c : preserves I (an_exec c).
Proof.
  destruct c as [e|e|x|x|e d|d|]; cbn [an_exec].
  - unfold recordGameEvent, recordStream. apply preserves_bind.
    + apply preserves_bind; [apply parse_keeps|intros p].
      apply preserves_bind; [apply xadd_keeps; set_solver | intros _; apply runEtl_keeps].
    + intros _. destruct (bet_event e); [|apply preserves_ret].
      apply preserves_bind; [apply lists_keep | intros _; apply heuristics_keep].
  - unfold recordTournamentEvent, recordStream. apply preserves_bind; [apply parse_keeps|intros p].
    apply preserves_bind; [apply xadd_keeps; set_solver | intros _; apply runEtl_keeps].
  - apply preserves_bind; [apply lists_keep | intros _; apply heuristics_keep].
  - apply preserves_bind; [apply lists_keep | intros _; apply heuristics_keep].
  - apply preserves_bind; [apply parse_keeps | intros p; apply runEtl_keeps].
  - apply flag_keeps.
  - unfold drainOnce. apply preserves_bind; [apply preserves_gets|intros ks].
    apply preserves_bind; [apply preserves_gets|intros bs]. apply preserves_for_each. intros b _.
    apply preserves_for_each. intros x _. unfold processEntry.
    apply preserves_catch; [|intros _; apply preserves_ret].
    destruct (event_schema _); [|apply preserves_ret].
    apply preserves_bind; [apply parse_keeps | intros p; apply runEtl_keeps].
Qed.

Lemma an_run_keeps cs s : I s → I (an_run cs s).
Proof. apply foldl_invariant. intros s' c _ Hs. by apply an_exec_keeps. Qed.
End Calls.

Context `{!StreamLaws S jsval}.

(** only three streams are ever written. After any calls every other stream has the entries it had,
    so the leaderboard rebuild and the collusion detection, which read analytics:game.event, and the
    daily figures, which read analytics:auth.login and analytics:wallet.credit, see what was there
    before, and on a new system nothing. *)
Lemma only_three_streams_are_written cs s k since event :
  k ∉ written_streams →
  rangeStream k since event (an_run cs s) = rangeStream k since event s
  ∧ (x_keys (an_streams s) = [] →
     rangeStream "analytics:game.event" since "game.event" (an_run cs s) = []
     ∧ rebuildEngagementMetrics (an_run cs s) = {| en_dau := 0; en_mau := 0; en_regs := 0; en_deps := 0 |}).
Proof.
  intros Hk.
  assert (∀ j, j ∉ written_streams → x_entries j (an_streams (an_run cs s)) = x_entries j (an_streams s)) as H.
  { intros j Hj. apply (an_run_keeps (λ s', x_entries j (an_streams s') = x_entries j (an_streams s))); try done.
    intros k' x s' Hk' IH. cbn. rewrite entries_add, decide_False by (intros ->; done). done. }
  split; [unfold rangeStream; by rewrite H|]. intros He.
  assert (∀ j t ev, j ∉ written_streams → rangeStream j t ev (an_run cs s) = []) as Hr.
  { intros j t ev Hj. unfold rangeStream. rewrite H by done.
    destruct (x_entries j (an_streams s)) as [|x l] eqn:E; [done|]. exfalso.
    apply (not_elem_of_nil j). rewrite <- He. apply keys_spec. by rewrite E. }
  assert ("analytics:auth.login" ∉ written_streams) by (unfold written_streams; set_solver).
  assert ("analytics:wallet.credit" ∉ written_streams) by (unfold written_streams; set_solver).
  split; [apply Hr; unfold written_streams; set_solver|].
  unfold rebuildEngagementMetrics. by rewrite !Hr.
Qed.

(** whatever reaches Kafka passed both validations: after any calls, every delivered message is the
    result of parsing with the schema of its event, satisfies the JSON schema, and went to the topic of
    its event's family. *)
Lemma delivered_events_are_valid cs s topic event p :
  an_kafka s = [] → (topic, (event, p)) ∈ an_kafka (an_run cs s) →
  (∃ data, parseEvent event data = Some p) ∧ ajv_valid env event p = true
  ∧ topicMap (default "" (head (js_split "." event))) = Some topic.
Proof.
  intros H0. revert topic event p. apply (an_run_keeps (λ s', ∀ topic event p, (topic, (event, p)) ∈ an_kafka s' →
    (∃ data, parseEvent event data = Some p) ∧ ajv_valid env event p = true
    ∧ topicMap (default "" (head (js_split "." event))) = Some topic)); [done|done| |].
  - intros topic event data p s' Hp Hv Ht IH topic' event' p'. cbn.
    destruct (kafka_ok env (an_sends s')); [|apply IH].
    intros [Hin|[= -> -> ->]%list_elem_of_singleton]%elem_of_app; [by apply IH|]. by split; [exists data|].
  - intros topic event p. rewrite H0. by intros ?%elem_of_nil.
Qed.
End Streams.

(** ** Concrete calls *)

Definition an0 : AnState := {|
  an_streams := (∅ : gmap string (list (Z * jsval))); an_sessions := []; an_transfers := []; an_events := [];
  an_kafka := []; an_ingested := []; an_archived := []; an_now := 172800000; an_sends := 0%nat |}.
Definition an_env0 : AnEnv := {| ajv_valid _ _ := true; kafka_ok n := negb (n =? 1)%nat |}.
Definition alice : string := "3f2504e0-4f89-41d3-9a0c-0305e82c3301".
Definition bob : string := "9b2d0d5c-77a1-4c3e-8f11-2b7f0a6c9e42".
Definition dump : Transfer := {| tr_from := alice; tr_to := bob; tr_amount := 150000 |}.
Definition login_event0 : jsval := VObj [("userId", VStr alice); ("ts", VNum 172800000)].
Definition an_calls0 : list an_call := [AnTransfer dump; AnEmit "auth.login" login_event0; AnEmit "auth.login" login_event0; AnDrain].
Definition an1 := @an_run zod0 _ (map_stream_ops jsval) an_env0 an_calls0 an0.

Lemma chip_dump_flags_never_parse_witness :
  ∃ v, dump_flags [dump] = [v] ∧ @parseEvent zod0 "antiCheat.flag" v = None.
Proof.
  exists (dump_flag (transfer_key dump, 150000)). split; [vm_compute; reflexivity|].
  apply (chip_dump_flags_never_parse (ZO := zod0) (ZL := zod0_laws) [dump]).
  - apply Forall_cons_2; [vm_compute; reflexivity | apply Forall_nil_2].
  - assert (dump_flags [dump] = [dump_flag (transfer_key dump, 150000)]) as -> by (vm_compute; reflexivity).
    by left.
Defined.

Lemma only_three_streams_are_written_witness :
  x_keys (an_streams an1) = ["analytics:antiCheat.flag"]
  ∧ @rebuildEngagementMetrics zod0 _ (map_stream_ops jsval) an1
    = {| en_dau := 0; en_mau := 0; en_regs := 0; en_deps := 0 |}.
Proof.
  split; [vm_compute; reflexivity|].
  assert ("analytics:auth.login" ∉ written_streams) as Hk by (unfold written_streams; set_solver).
  exact (proj2 (proj2 (only_three_streams_are_written (ZO := zod0) (StreamOps0 := map_stream_ops jsval) an_env0
    (ZL := zod0_laws) (StreamLaws0 := map_stream_laws jsval) an_calls0 an0 "analytics:auth.login" 0 "auth.login" Hk)
    eq_refl)).
Defined.

Lemma delivered_events_are_valid_witness :
  an_kafka an1 = [("auth", ("auth.login", login_event0))] ∧ an_sends an1 = 2%nat
  ∧ ∃ data, @parseEvent zod0 "auth.login" data = Some login_event0.
Proof.
  split; [vm_compute; reflexivity|]. split; [vm_compute; reflexivity|].
  assert (("auth", ("auth.login", login_event0)) ∈ an_kafka an1) as Hin.
  { assert (an_kafka an1 = [("auth", ("auth.login", login_event0))]) as -> by (vm_compute; reflexivity). by left. }
  exact (proj1 (delivered_events_are_valid (ZO := zod0) (StreamOps0 := map_stream_ops jsval) an_env0
    (ZL := zod0_laws) an_calls0 an0 "auth" "auth.login" login_event0 eq_refl Hin)).
Defined.
