(* ===== verification/HandAccess.v ===== *)
(** * Reading hands back: logs, proofs, replays

    backend/src/game/hand.controller.ts with the file format of hand-log.ts and the
    schemas of backend/src/schemas/hands.ts. A file is its lines; a line is the JSON
    of a value, or a text that does not parse. Files, the table of hands and the
    verification of tokens are parameters. *)

From S2P Require Import Prelude Fairness SidePots StateMachine Engine JsText Auth AuthSafety Schemas AuditLog.
#[local] Open Scope string_scope.
#[local] Open Scope list_scope.
#[local] Open Scope Z_scope.

(** ** What JSON makes of states, actions and proofs *)

Definition text_of (l : list ascii) : jsval := VStr (String.string_of_list_ascii l).
Definition street_text (s : Street) : string :=
  match s with preflop => "preflop" | flop => "flop" | turn => "turn" | river => "river" | showdown => "showdown" end.
Definition phase_name (p : HandPhase) : string :=
  match p with
  | WAIT_BLINDS => "WAIT_BLINDS" | DEAL => "DEAL" | BETTING_ROUND => "BETTING_ROUND"
  | SHOWDOWN => "SHOWDOWN" | SETTLE => "SETTLE" | NEXT_HAND => "NEXT_HAND"
  end.
Definition cards_value (cs : list Z) : jsval := VArr (VNum <$> cs).
Definition pot_value (p : SidePot) : jsval :=
  VObj [("amount", VNum (sp_amount p)); ("players", VArr (VStr <$> sp_players p));
        ("contributions", VObj ((λ c, (c.1, VNum c.2)) <$> sp_contributions p))].
Definition player_value (p : PlayerStateInternal) : jsval :=
  obj [("id", VStr (p_id p)); ("stack", VNum (p_stack p)); ("folded", VBool (p_folded p));
       ("bet", VNum (p_bet p)); ("allIn", VBool (p_allIn p)); ("holeCards", opt cards_value (p_holeCards p))].
Definition state_value (s : GameStateInternal) : jsval :=
  VObj [("phase", VStr (phase_name (g_phase s))); ("street", VStr (street_text (g_street s)));
        ("pot", VNum (g_pot s)); ("sidePots", VArr (pot_value <$> g_sidePots s));
        ("currentBet", VNum (g_currentBet s)); ("players", VArr (player_value <$> g_players s));
        ("deck", cards_value (g_deck s)); ("communityCards", cards_value (g_communityCards s))].

Definition action_value (a : GameAction) : jsval :=
  let by_player type player amount :=
    obj [("type", VStr type); ("playerId", VStr player); ("amount", opt VNum amount)] in
  match a with
  | PostBlind p n => by_player "postBlind" p (Some n)
  | BetAction p n => by_player "bet" p (Some n)
  | RaiseAction p n => by_player "raise" p (Some n)
  | CallAction p => by_player "call" p None
  | CheckAction p => by_player "check" p None
  | FoldAction p => by_player "fold" p None
  | NextAction => VObj [("type", VStr "next")]
  end.

Definition entry_value (e : HandLogEntry) : jsval :=
  VArr [VNum (Z.of_nat (le_index e)); action_value (le_action e); state_value (le_pre e); state_value (le_post e)].

(** A card the shuffle lost is [undefined], which JSON writes as [null]. *)
Definition proof_value (p : HandProofResponse) : jsval :=
  VObj [("seed", text_of (proof_seed p)); ("nonce", text_of (proof_nonce p));
        ("commitment", text_of (proof_commitment p));
        ("deck", VArr ((λ o, from_option VNum VNull o) <$> proof_deck p))].

(** ** The file of a hand *)

Inductive log_call :=
| LogRecord (a : GameAction) (pre post : GameStateInternal)
| LogCommitment (c : list ascii)
| LogProof (p : HandProofResponse).

Definition log_do (l : HandLog) (c : log_call) : HandLog :=
  match c with
  | LogRecord a pre post => log_record a pre post l
  | LogCommitment c => {| hl_entries := hl_entries l; hl_commitment := Some c; hl_proof := hl_proof l |}
  | LogProof p => recordProof p l
  end.
(** [appendLine]: what the call adds to the file, given the number of entries before. *)
Definition appended (n : nat) (c : log_call) : jsval :=
  match c with
  | LogRecord a pre post => entry_value (LogEntry n a pre post)
  | LogCommitment c => VObj [("commitment", text_of c)]
  | LogProof p => VObj [("proof", proof_value p)]
  end.
Fixpoint file_of (n : nat) (cs : list log_call) : list text :=
  match cs with
  | [] => []
  | c :: rest => TJson (appended n c) :: file_of (match c with LogRecord _ _ _ => Datatypes.S n | _ => n end) rest
  end.
Definition empty_log : HandLog := {| hl_entries := []; hl_commitment := None; hl_proof := None |}.
Definition log_after (cs : list log_call) : HandLog := foldl log_do empty_log cs.

(** ** Parsing a file *)

Record ParsedLog := { pl_entries : list jsval; pl_commitment : jsval; pl_proof : jsval }.

Definition fields_of (v : jsval) : list (string * jsval) := match v with VObj fs => fs | _ => [] end.

(** One line; a line that does not parse, or is [null], is skipped. *)
Definition parse_line (l : ParsedLog) (t : text) : ParsedLog :=
  match t with
  | TRaw _ | TJson VNull | TJson VUndefined => l
  | TJson (VArr xs) =>
      {| pl_entries := pl_entries l ++ [VArr xs]; pl_commitment := pl_commitment l; pl_proof := pl_proof l |}
  | TJson v =>
      let c := field "commitment" (fields_of v) in
      let p := field "proof" (fields_of v) in
      if js_truthy c then {| pl_entries := pl_entries l; pl_commitment := c; pl_proof := pl_proof l |}
      else if js_truthy p then {| pl_entries := pl_entries l; pl_commitment := pl_commitment l; pl_proof := p |}
      else l
  end.
Definition parseHandLog (raw : list text) : ParsedLog :=
  foldl parse_line {| pl_entries := []; pl_commitment := VUndefined; pl_proof := VUndefined |} raw.

(** [for (const p of state.players) participants.add(p.id)]: a player that is no value throws, and keeps
    those added so far. Identifiers that are no strings match no user. *)
Fixpoint add_players (ps : list jsval) (acc : list string) : list string * bool :=
  match ps with
  | [] => (acc, true)
  | (VNull | VUndefined) :: _ => (acc, false)
  | p :: rest => add_players rest (match field "id" (fields_of p) with VStr s => acc ++ [s] | _ => acc end)
  end.

Fixpoint extract_from (raw : list text) (acc : list string) : list string :=
  match raw with
  | [] => acc
  | TJson (VArr parsed) :: rest =>
      match field "players" (fields_of (nth 2 parsed VUndefined)) with
      | VArr ps => let '(acc', finished) := add_players ps acc in
                   if finished then acc' else extract_from rest acc'
      | VStr s => if bool_decide (s = "") then extract_from rest acc else acc
      | _ => extract_from rest acc
      end
  | _ :: rest => extract_from rest acc
  end.
Definition extractParticipants (raw : list text) : list string := extract_from raw [].

(** ** Sanitizing a value *)

(** Destructuring [null] or [undefined] throws. *)
Definition sanitize_player (user : string) (p : jsval) : outcome jsval :=
  match p with
  | VNull | VUndefined => Throw "TypeError"
  | _ =>
      let f k := field k (fields_of p) in
      let own := match f "id", f "holeCards" with
                 | VStr id, VArr [VNum a; VNum b] => if bool_decide (user = id) then f "holeCards" else VUndefined
                 | _, _ => VUndefined
                 end in
      Ret (obj [("id", f "id"); ("stack", f "stack"); ("folded", f "folded"); ("bet", f "bet");
                ("allIn", f "allIn"); ("holeCards", own)])
  end.

Fixpoint sanitize_players (user : string) (ps : list jsval) : outcome (list jsval) :=
  match ps with
  | [] => Ret []
  | p :: rest => x ← sanitize_player user p; xs ← sanitize_players user rest; Ret (x :: xs)
  end.

(** [sanitize] without the server time, which the callers drop. *)
Definition sanitize_value (user : string) (state : jsval) : outcome (list (string * jsval)) :=
  match field "players" (fields_of state) with
  | VArr ps =>
      players ← sanitize_players user ps;
      Ret (filter (λ p, p.1 ∉ ["deck"; "players"; "version"; "serverTime"]) (fields_of state)
           ++ [("version", VStr "1"); ("players", VArr players)])
  | _ => Throw "TypeError"
  end.

(** ** The schemas of the answers *)

Definition SidePotSchema : schema :=
  s_object [("amount", s_num); ("players", ZArray s_str); ("contributions", ZRecord s_num)].
Definition HandProofSchema : schema :=
  s_object [("seed", s_str); ("nonce", s_str); ("commitment", s_str); ("deck", ZOptional (ZArray s_num))].
Definition street_schema : schema := ZEnum ["preflop"; "flop"; "turn"; "river"; "showdown"].
Definition PlayerStateShape : list (string * schema) :=
  [("id", s_str); ("stack", s_num); ("folded", ZBoolean); ("bet", s_num); ("allIn", ZBoolean)].
Definition HandReplayFrame : schema := s_object [
  ("street", street_schema); ("pot", s_num); ("sidePots", ZArray SidePotSchema); ("currentBet", s_num);
  ("players", ZArray (s_object PlayerStateShape)); ("communityCards", ZArray s_num)].
Definition GameStatePlayerSchema : schema :=
  s_object (PlayerStateShape ++ [("holeCards", ZOptional (ZArrayOf 2 s_num))]).
(** [GameStateSchema.omit({ serverTime: true })] *)
Definition GameStateSchema : schema := ZStrict [
  ("version", ZEnum ["1"]); ("tick", s_num);
  ("phase", ZEnum ["WAIT_BLINDS"; "DEAL"; "BETTING_ROUND"; "SHOWDOWN"; "SETTLE"; "NEXT_HAND"]);
  ("street", street_schema); ("pot", s_num); ("sidePots", ZArray SidePotSchema); ("currentBet", s_num);
  ("players", ZArray GameStatePlayerSchema); ("communityCards", ZArray s_num)].

(** ** The controller *)

Record HandRow := { hd_log : list text; hd_commitment : string; hd_seed : option string; hd_nonce : option string }.

(** The log files by hand, the files of the proof directory with their times, the table of hands, and
    [Number(s)] where it is a number. Numbers are counted in a unit in which those at hand are whole. *)
Record HandEnv := {
  he_file : string → option (list text);
  he_proofs : option (list (string * option (Z * text)));
  he_row : string → option HandRow;
  he_number : string → option Z }.

Section Controller.
Context {ZO : ZodOps} (C : Crypto) (cfg : AuthConfig) (env : HandEnv) (now : Z).

Definition verifyToken (header : option string) : outcome Payload :=
  token ← extractBearerToken header;
  match first_valid C (jwtSecrets cfg) token now with
  | Some p => Ret p
  | None => Throw "Unauthorized"
  end.

Definition getParticipants (id : string) : list string :=
  match he_file env id with
  | Some raw => extractParticipants raw
  | None => match he_row env id with Some h => extractParticipants (hd_log h) | None => [] end
  end.

Definition assertParticipantOrAdmin (id : string) (header : option string) : outcome string :=
  p ← verifyToken header;
  if negb (p_admin p) && negb (bool_decide (p_sub p ∈ getParticipants id)) then Throw "Forbidden"
  else Ret (p_sub p).

(** [if (!hand || !hand.log)]: an empty text has no lines. *)
Definition loadHandLog (id : string) : outcome ParsedLog :=
  match he_file env id with
  | Some raw => Ret (parseHandLog raw)
  | None =>
      match he_row env id with
      | Some h => match hd_log h with [] => Throw "log not found" | raw => Ret (parseHandLog raw) end
      | None => Throw "log not found"
      end
  end.

Definition parse_response (s : schema) (v : jsval) : outcome jsval :=
  match z_parse s v with Some x => Ret x | None => Throw "ZodError" end.

Definition getProof (id : string) (header : option string) : outcome jsval :=
  assertParticipantOrAdmin id header ;;
  match he_file env id with
  | None =>
      match he_row env id with
      | Some {| hd_commitment := c; hd_seed := Some seed; hd_nonce := Some nonce |} =>
          if bool_decide (seed = "" ∨ nonce = "") then Throw "proof not found"
          else parse_response HandProofSchema
                 (VObj [("commitment", VStr c); ("seed", VStr seed); ("nonce", VStr nonce)])
      | _ => Throw "proof not found"
      end
  | Some raw =>
      let proof := pl_proof (parseHandLog raw) in
      if js_truthy proof then parse_response HandProofSchema proof else Throw "proof not found"
  end.

Definition frame_player (p : jsval) : jsval :=
  let f k := field k (fields_of p) in
  obj [("id", f "id"); ("stack", f "stack"); ("folded", f "folded"); ("bet", f "bet"); ("allIn", f "allIn")].
Definition frame_of (sanitized : list (string * jsval)) : jsval :=
  let f k := field k sanitized in
  obj [("street", f "street"); ("pot", f "pot"); ("sidePots", f "sidePots"); ("currentBet", f "currentBet");
       ("players", match f "players" with VArr ps => VArr (frame_player <$> ps) | _ => VUndefined end);
       ("communityCards", f "communityCards")].

(** [const [index, , , state] of log.getAll()] *)
Definition entry_state (entry : jsval) : jsval := match entry with VArr l => nth 3 l VUndefined | _ => VUndefined end.
Fixpoint frames_of (user : string) (entries : list jsval) : outcome (list jsval) :=
  match entries with
  | [] => Ret []
  | e :: rest => s ← sanitize_value user (entry_state e); fs ← frames_of user rest; Ret (frame_of s :: fs)
  end.

Definition getReplay (id : string) (header : option string) : outcome jsval :=
  userId ← assertParticipantOrAdmin id header;
  log ← loadHandLog id;
  frames ← frames_of userId (pl_entries log);
  parse_response (ZArray HandReplayFrame) (VArr frames).

(** [index] is [Number(indexParam)] where that is an integer. *)
Definition getState (id : string) (index : option Z) (header : option string) : outcome jsval :=
  userId ← assertParticipantOrAdmin id header;
  match index with
  | None => Throw "state not found"
  | Some i =>
      if i <? 0 then Throw "state not found" else
      log ← loadHandLog id;
      let state := from_option entry_state VUndefined (pl_entries log !! Z.to_nat i) in
      if negb (js_truthy state) then Throw "state not found"
      else
        s ← sanitize_value userId state;
        parse_response GameStateSchema
          (VObj (filter (λ p, p.1 ∉ ["tick"; "version"]) s ++ [("tick", VNum (i + 1)); ("version", VStr "1")]))
  end.

Definition getLog (id : string) (header : option string) : outcome (list text) :=
  assertParticipantOrAdmin id header ;;
  match he_file env id with
  | Some raw => Ret raw
  | None => match he_row env id with Some h => Ret (hd_log h) | None => Throw "log not found" end
  end.

(** A query parameter that is absent or empty does not count, and neither does zero or no number. *)
Definition bound_of (q : option string) : option Z :=
  s ← q; if bool_decide (s = "") then None else
  n ← he_number env s; if n =? 0 then None else Some n.
Definition within (from to_ : option Z) (mtime : Z) : bool :=
  from_option (λ b, b <=? mtime) true from && from_option (λ b, mtime <=? b) true to_.

Definition proof_file (from to_ : option Z) (ids : option (list string)) (f : string * option (Z * text))
    : option jsval :=
  let cs := String.list_ascii_of_string f.1 in
  if negb (bool_decide (slice_last 5 cs = String.list_ascii_of_string ".json")) then None else
  let id := String.string_of_list_ascii (take (length cs - 5) cs) in
  if negb (from_option (λ l, bool_decide (id ∈ l)) true ids) then None else
  c ← f.2;
  if negb (within from to_ c.1) then None else
  match json_parse c.2 with
  | Ret v => proof ← z_parse HandProofSchema v; Some (VObj [("id", VStr id); ("proof", proof)])
  | Throw _ => None
  end.

Definition listProofs (header : option string) (from to_ ids : option string) : outcome jsval :=
  p ← verifyToken header;
  if negb (p_admin p) then Throw "Forbidden" else
  match he_proofs env with
  | None => Ret (VArr [])
  | Some files =>
      let idSet := s ← ids; if bool_decide (s = "") then None else Some (js_split "," s) in
      parse_response (ZArray (s_object [("id", s_str); ("proof", HandProofSchema)]))
        (VArr (omap (proof_file (bound_of from) (bound_of to_) idSet) files))
  end.
End Controller.

(** ** What the handlers serve *)

Definition public_player_value (p : PublicPlayer) : jsval :=
  obj [("id", VStr (pub_id p)); ("stack", VNum (pub_stack p)); ("folded", VBool (pub_folded p));
       ("bet", VNum (pub_bet p)); ("allIn", VBool (pub_allIn p)); ("holeCards", opt cards_value (pub_holeCards p))].
Definition public_fields (s : PublicState) : list (string * jsval) :=
  [("phase", VStr (phase_name (pub_phase s))); ("street", VStr (street_text (pub_street s)));
   ("pot", VNum (pub_pot s)); ("sidePots", VArr (pot_value <$> pub_sidePots s));
   ("currentBet", VNum (pub_currentBet s)); ("communityCards", cards_value (pub_communityCards s));
   ("version", VStr "1"); ("players", VArr (public_player_value <$> pub_players s))].

(** A frame of a replay: no cards but the board. *)
Definition frame_value (s : PublicState) : jsval :=
  VObj [("street", VStr (street_text (pub_street s))); ("pot", VNum (pub_pot s));
        ("sidePots", VArr (pot_value <$> pub_sidePots s)); ("currentBet", VNum (pub_currentBet s));
        ("players", VArr ((λ p, VObj [("id", VStr (pub_id p)); ("stack", VNum (pub_stack p));
           ("folded", VBool (pub_folded p)); ("bet", VNum (pub_bet p)); ("allIn", VBool (pub_allIn p))])
           <$> pub_players s));
        ("communityCards", cards_value (pub_communityCards s))].
(** The state at an index: what [sanitize] shows, with the tick. *)
Definition state_response (i : nat) (s : PublicState) : jsval :=
  VObj [("version", VStr "1"); ("tick", VNum (Z.of_nat i + 1));
        ("phase", VStr (phase_name (pub_phase s))); ("street", VStr (street_text (pub_street s)));
        ("pot", VNum (pub_pot s)); ("sidePots", VArr (pot_value <$> pub_sidePots s));
        ("currentBet", VNum (pub_currentBet s)); ("players", VArr (public_player_value <$> pub_players s));
        ("communityCards", cards_value (pub_communityCards s))].

Definition torn (l : list text) : Prop := Forall (λ t, ∃ raw, t = TRaw raw) l.

(** *** Files *)

Definition parsed_as (l : HandLog) (pl : ParsedLog) : Prop :=
  pl_entries pl = entry_value <$> hl_entries l ∧ pl_proof pl = opt proof_value (hl_proof l).

Lemma parse_appended l pl c :
  parsed_as l pl → parsed_as (log_do l c) (parse_line pl (TJson (appended (length (hl_entries l)) c))).
Proof.
  intros [He Hp]. destruct c as [a pre post|c|p]; cbn.
  - split; [|done]. cbn. by rewrite He, fmap_app.
  - by destruct (String.string_of_list_ascii c).
  - done.
Qed.

Lemma parse_file cs l pl :
  parsed_as l pl → parsed_as (foldl log_do l cs) (foldl parse_line pl (file_of (length (hl_entries l)) cs)).
Proof.
  revert l pl. induction cs as [|c cs IH]; intros l pl H; [done|]. cbn [file_of foldl].
  apply (parse_appended _ _ c) in H.
  assert (match c with LogRecord _ _ _ => Datatypes.S (length (hl_entries l)) | _ => length (hl_entries l) end
          = length (hl_entries (log_do l c))) as ->.
  { destruct c; cbn; [|done|done]. rewrite length_app. cbn. lia. }
  by apply IH.
Qed.

Lemma parse_torn pl l : torn l → foldl parse_line pl l = pl.
Proof. induction 1 as [|t l [raw ->] _ IH]; [done|]. cbn. exact IH. Qed.

(** Reading a file back gives the entries and the proof of the log that wrote it. *)
Lemma parse_written cs tail : torn tail → parsed_as (log_after cs) (parseHandLog (file_of 0 cs ++ tail)).
Proof.
  intros Ht. unfold parseHandLog. rewrite foldl_app, parse_torn by done.
  by apply (parse_file cs empty_log).
Qed.

Lemma add_players_values ps acc : add_players (player_value <$> ps) acc = (acc ++ (p_id <$> ps), true).
Proof.
  revert acc. induction ps as [|p ps IH]; intros acc; cbn; [by rewrite app_nil_r|].
  rewrite IH. by rewrite <- app_assoc.
Qed.

Lemma extract_torn l acc : torn l → extract_from l acc = acc.
Proof. induction 1 as [|t l [raw ->] _ IH]; [done|]. cbn. exact IH. Qed.

Lemma first_entry_stays cs l e :
  head (hl_entries l) = Some e → head (hl_entries (foldl log_do l cs)) = Some e.
Proof.
  revert l. induction cs as [|c cs IH]; intros l He; [done|]. cbn. apply IH.
  destruct c; cbn; [|done|done]. by destruct (hl_entries l).
Qed.

Definition participants (l : HandLog) : list string :=
  from_option (λ e, p_id <$> g_players (le_pre e)) [] (head (hl_entries l)).

Lemma extract_file cs l n tail :
  torn tail → hl_entries l = [] →
  extract_from (file_of n cs ++ tail) [] = participants (foldl log_do l cs).
Proof.
  intros Ht. revert l n. induction cs as [|c cs IH]; intros l n Hl; cbn [file_of app foldl].
  - unfold participants. rewrite Hl. by apply extract_torn.
  - destruct c as [a pre post|c|p]; [|by apply IH..].
    unfold participants. rewrite (first_entry_stays cs _ (LogEntry 0 a pre post)) by (cbn; by rewrite Hl).
    cbn. by rewrite add_players_values.
Qed.

Lemma extract_written cs tail : torn tail → extractParticipants (file_of 0 cs ++ tail) = participants (log_after cs).
Proof. intros Ht. by apply (extract_file cs empty_log 0 tail). Qed.

(** *** Values *)

Lemma sanitize_player_value user p :
  sanitize_player user (player_value p) = Ret (public_player_value (public_player (Some user) p)).
Proof.
  destruct p as [id stack folded bet allIn hole]. unfold player_value, public_player, public_player_value.
  destruct hole as [[|a [|b [|c cs]]]|]; cbn.
  all: repeat case_bool_decide; try done; try (exfalso; naive_solver).
Qed.

Lemma sanitize_players_value user ps :
  sanitize_players user (player_value <$> ps) = Ret (public_player_value <$> (public_player (Some user) <$> ps)).
Proof.
  induction ps as [|p ps IH]; [done|]. cbn [fmap list_fmap sanitize_players].
  rewrite sanitize_player_value. cbn. by rewrite IH.
Qed.

(** The value that is shown is the JSON of the sanitized state. *)
Lemma sanitize_value_spec user s :
  sanitize_value user (state_value s) = Ret (public_fields (sanitize s (Some user))).
Proof.
  unfold sanitize_value, state_value. cbn [fields_of field String.eqb Ascii.eqb Bool.eqb].
  rewrite sanitize_players_value. reflexivity.
Qed.

Section Accepted.
Context {ZO : ZodOps} {ZL : ZodLaws}.

Lemma cards_accepted cs : z_parse (ZArray s_num) (cards_value cs) = Some (cards_value cs).
Proof. apply array_accepted, Forall_fmap, Forall_true. intros n. apply num_accepted. Qed.
Lemma pots_accepted ps : z_parse (ZArray SidePotSchema) (VArr (pot_value <$> ps)) = Some (VArr (pot_value <$> ps)).
Proof.
  apply array_accepted, Forall_fmap, Forall_true. intros p. unfold compose, pot_value, SidePotSchema.
  rewrite object_accepted; [done|]. repeat constructor; cbn [fst snd field String.eqb Ascii.eqb Bool.eqb].
  - apply num_accepted.
  - apply array_accepted, Forall_fmap, Forall_true. intros x. apply str_accepted.
  - apply record_accepted, Forall_fmap, Forall_true. intros c. apply num_accepted.
Qed.
Lemma street_accepted s : z_parse street_schema (VStr (street_text s)) = Some (VStr (street_text s)).
Proof. apply enum_accepted. destruct s; set_solver. Qed.
Lemma phase_accepted p :
  z_parse (ZEnum ["WAIT_BLINDS"; "DEAL"; "BETTING_ROUND"; "SHOWDOWN"; "SETTLE"; "NEXT_HAND"]) (VStr (phase_name p))
  = Some (VStr (phase_name p)).
Proof. apply enum_accepted. destruct p; set_solver. Qed.
#[local] Hint Resolve cards_accepted pots_accepted street_accepted phase_accepted : zod.

Lemma frame_accepted s : z_parse HandReplayFrame (frame_value s) = Some (frame_value s).
Proof.
  unfold HandReplayFrame, frame_value. rewrite object_accepted; [done|].
  repeat constructor; cbn [fst snd field String.eqb Ascii.eqb Bool.eqb]; eauto with zod.
  apply array_accepted, Forall_fmap, Forall_true. intros p. unfold compose.
  rewrite object_accepted; [done|]. repeat constructor; cbn; eauto with zod.
Qed.

Lemma public_player_accepted user p :
  let v := public_player_value (public_player user p) in z_parse GameStatePlayerSchema v = Some v.
Proof.
  unfold GameStatePlayerSchema, public_player_value, public_player, obj. cbn [pub_id pub_stack pub_folded pub_bet pub_allIn pub_holeCards].
  set (h := match p_holeCards p with Some cards => if bool_decide _ then Some cards else None | None => None end).
  assert (∀ cards, h = Some cards → length cards = 2%nat) as Hh.
  { intros cards. unfold h. destruct (p_holeCards p); [|done]. case_bool_decide as H; [|done]. intros [= <-]. apply H. }
  clearbody h. destruct h as [cards|]; cbn [opt from_option].
  - rewrite object_accepted; [done|].
    repeat constructor; cbn [fst snd field String.eqb Ascii.eqb Bool.eqb present is_undefined]; eauto with zod.
    apply optional_accepted. unfold cards_value. apply array_of_accepted; [rewrite length_fmap; by apply Hh|].
    apply Forall_fmap, Forall_true. intros n. apply num_accepted.
  - rewrite object_accepted; [done|].
    repeat constructor; cbn [fst snd field String.eqb Ascii.eqb Bool.eqb present is_undefined]; eauto with zod.
Qed.

Lemma state_accepted i user s :
  let v := state_response i (sanitize s user) in
  z_parse GameStateSchema (VObj (filter (λ p, p.1 ∉ ["tick"; "version"]) (public_fields (sanitize s user))
    ++ [("tick", VNum (Z.of_nat i + 1)); ("version", VStr "1")])) = Some v.
Proof.
  cbv zeta. set (st := sanitize s user).
  replace (filter _ (public_fields st) ++ _) with
    [("phase", VStr (phase_name (pub_phase st))); ("street", VStr (street_text (pub_street st)));
     ("pot", VNum (pub_pot st)); ("sidePots", VArr (pot_value <$> pub_sidePots st));
     ("currentBet", VNum (pub_currentBet st)); ("communityCards", cards_value (pub_communityCards st));
     ("players", VArr (public_player_value <$> pub_players st));
     ("tick", VNum (Z.of_nat i + 1)); ("version", VStr "1")] by reflexivity.
  unfold GameStateSchema. rewrite parse_strict by repeat constructor.
  rewrite shape_accepted; [reflexivity|].
  repeat constructor; cbn [fst snd field String.eqb Ascii.eqb Bool.eqb]; eauto with zod.
  - apply enum_accepted. set_solver.
  - apply array_accepted, Forall_fmap, Forall_fmap, Forall_true. intros p. apply public_player_accepted.
Qed.
End Accepted.

(** ** What the routes answer *)

Section Answers.
Context {ZO : ZodOps} {ZL : ZodLaws} (C : Crypto) (cfg : AuthConfig) (env : HandEnv) (now : Z).

(** The handler's file is what the log wrote, its last line possibly in pieces. *)
Context (id : string) (cs : list log_call) (tail : list text).
Context (file : he_file env id = Some (file_of 0 cs ++ tail)) (Htorn : torn tail).

Definition admitted (p : Payload) : bool := p_admin p || bool_decide (p_sub p ∈ participants (log_after cs)).

Lemma assert_written header p :
  verifyToken C cfg now header = Ret p →
  assertParticipantOrAdmin C cfg env now id header = if admitted p then Ret (p_sub p) else Throw "Forbidden".
Proof.
  intros Hv. unfold assertParticipantOrAdmin, getParticipants. rewrite Hv. cbn.
  rewrite file, extract_written by done. unfold admitted. by destruct (p_admin p), (bool_decide _).
Qed.

Lemma load_written : ∃ pl, loadHandLog env id = Ret pl ∧ parsed_as (log_after cs) pl.
Proof. eexists. unfold loadHandLog. rewrite file. split; [done | by apply parse_written]. Qed.

Lemma frame_of_public st : frame_of (public_fields st) = frame_value st.
Proof.
  assert (frame_player <$> (public_player_value <$> pub_players st) = (λ p, VObj [("id", VStr (pub_id p));
    ("stack", VNum (pub_stack p)); ("folded", VBool (pub_folded p)); ("bet", VNum (pub_bet p));
    ("allIn", VBool (pub_allIn p))]) <$> pub_players st) as Hp.
  { rewrite <- list_fmap_compose. apply list_fmap_ext. intros i p _.
    unfold compose, frame_player, public_player_value. by destruct (pub_holeCards p). }
  unfold frame_of, frame_value, public_fields. cbn [field String.eqb Ascii.eqb Bool.eqb]. rewrite Hp. reflexivity.
Qed.

Lemma frames_written user es :
  frames_of user (entry_value <$> es) = Ret ((λ e, frame_value (sanitize (le_post e) (Some user))) <$> es).
Proof.
  induction es as [|e es IH]; [done|]. cbn [fmap list_fmap frames_of].
  change (entry_state (entry_value e)) with (state_value (le_post e)).
  rewrite sanitize_value_spec. cbn [mbind outcome_bind]. rewrite IH. cbn [mbind outcome_bind].
  by rewrite frame_of_public.
Qed.

(** the history of a hand is served as the log wrote it, through the eyes of who asks. From a file the
    log wrote, with a line cut short at the end or not, an admitted caller (an admin, or a player of the
    first state) gets as a replay one frame per action, with the public state after it and no cards but
    the board, and as the state at an index the sanitized state after that action, with the caller's own
    cards at most; an index without an action is not found, and everyone else is refused. *)
Lemma hand_history_is_served header p :
  verifyToken C cfg now header = Ret p →
  let es := hl_entries (log_after cs) in
  let view e := sanitize (le_post e) (Some (p_sub p)) in
  getReplay C cfg env now id header =
    (if admitted p then Ret (VArr ((λ e, frame_value (view e)) <$> es)) else Throw "Forbidden")
  ∧ (∀ i, getState C cfg env now id (Some (Z.of_nat i)) header =
      if admitted p then from_option (λ e, Ret (state_response i (view e))) (Throw "state not found") (es !! i)
      else Throw "Forbidden").
Proof.
  intros Hv es view. destruct load_written as (pl & Hl & He & _). unfold getReplay, getState.
  rewrite (assert_written _ _ Hv). destruct (admitted p); [|done]. cbn [mbind outcome_bind]. split.
  - rewrite Hl. cbn [mbind outcome_bind]. rewrite He, frames_written. cbn [mbind outcome_bind].
    unfold parse_response. rewrite array_accepted; [done|]. apply Forall_fmap, Forall_true. intros e. apply frame_accepted.
  - intros i. destruct (Z.ltb_spec (Z.of_nat i) 0); [lia|]. rewrite Hl. cbn [mbind outcome_bind].
    rewrite He, list_lookup_fmap, Nat2Z.id. fold es. destruct (es !! i) as [e|]; [|done].
    cbn [fmap option_fmap option_map from_option].
    change (entry_state (entry_value e)) with (state_value (le_post e)).
    replace (js_truthy (state_value (le_post e))) with true by done. cbn [negb].
    rewrite sanitize_value_spec. cbn [mbind outcome_bind]. unfold parse_response. by rewrite state_accepted.
Qed.

(** The raw log is served whole: every card and the deck, to every player, during the hand too. *)
Lemma raw_log_shows_every_card header p :
  verifyToken C cfg now header = Ret p → admitted p = true →
  getLog C cfg env now id header = Ret (file_of 0 cs ++ tail).
Proof. intros Hv Ha. unfold getLog. rewrite (assert_written _ _ Hv), Ha. cbn. by rewrite file. Qed.

Definition whole_deck (p : HandProofResponse) : bool := forallb (λ o, bool_decide (is_Some o)) (proof_deck p).

(** the proof of a hand whose shuffle lost a card cannot be read. The deck of the proof holds null
    where the shuffle left no card, which the schema of the answer refuses: an admitted caller gets the
    proof exactly when its deck is whole, an error when it is not, and not found while there is none. *)
Lemma lost_cards_hide_the_proof header p :
  verifyToken C cfg now header = Ret p → admitted p = true →
  getProof C cfg env now id header =
    match hl_proof (log_after cs) with
    | None => Throw "proof not found"
    | Some proof => if whole_deck proof then Ret (proof_value proof) else Throw "ZodError"
    end.
Proof.
  intros Hv Ha. unfold getProof. rewrite (assert_written _ _ Hv), Ha. cbn [mbind outcome_bind]. rewrite file.
  destruct (parse_written cs tail Htorn) as [_ ->]. destruct (hl_proof (log_after cs)) as [proof|]; [|done].
  cbn [opt from_option]. replace (js_truthy (proof_value proof)) with true by done.
  unfold parse_response, HandProofSchema, proof_value. destruct (whole_deck proof) eqn:Hd.
  - rewrite object_accepted; [done|].
    repeat constructor; cbn [fst snd field String.eqb Ascii.eqb Bool.eqb]; eauto with zod.
    apply optional_accepted, array_accepted, Forall_fmap, Forall_forall. intros o Ho.
    unfold whole_deck in Hd. rewrite forallb_forall in Hd. apply list_elem_of_In in Ho.
    specialize (Hd o Ho). case_bool_decide as Hs; [|done]. destruct Hs as [n ->]. apply num_accepted.
  - unfold s_object. rewrite parse_object.
    assert (∃ o, o ∈ proof_deck proof ∧ o = None) as (o & Ho & ->).
    { unfold whole_deck in Hd. induction (proof_deck proof) as [|o l IH]; [done|]. cbn in Hd.
      destruct o; [destruct (IH Hd) as (x & Hx & ->); exists None; split; [by right | done]|].
      exists None. split; [by left | done]. }
    rewrite (shape_refused _ _ "deck" (ZOptional (ZArray s_num))); [done|set_solver|].
    cbn [field String.eqb Ascii.eqb Bool.eqb]. rewrite parse_optional.
    apply (element_refused _ VNull).
    + apply list_elem_of_fmap. by exists None.
    + unfold s_num. by rewrite parse_number.
Qed.
End Answers.

(** ** Without the file *)

Section Fallback.
Context {ZO : ZodOps} (C : Crypto) (cfg : AuthConfig) (env : HandEnv) (now : Z).

(** Every route needs a valid token of an admin or of a player of the hand; the list of proofs, of an admin. *)
Lemma hand_routes_are_closed id header user :
  assertParticipantOrAdmin C cfg env now id header = Ret user →
  ∃ p, verifyToken C cfg now header = Ret p ∧ p_sub p = user
     ∧ (p_admin p = true ∨ user ∈ getParticipants env id).
Proof.
  unfold assertParticipantOrAdmin. destruct (verifyToken C cfg now header) as [p|]; [|done]. cbn.
  destruct (p_admin p) eqn:Ha; cbn.
  - intros [= <-]. exists p. auto.
  - case_bool_decide; [|done]. intros [= <-]. exists p. auto.
Qed.

Context (id : string) (h : HandRow) (es : list HandLogEntry).
Context (no_file : he_file env id = None) (row : he_row env id = Some h).
(** The table holds [JSON.stringify(getHandLog())]: one line with all the entries. *)
Context (stored : hd_log h = [TJson (VArr (entry_value <$> es))]).

Lemma stored_state user : sanitize_value user (entry_state (VArr (entry_value <$> es))) = Throw "TypeError".
Proof. by destruct es as [|a [|b [|c [|d l]]]]. Qed.

(** The log in the table cannot be read back: its one line is taken for one entry. The players of the
    hand are refused, and an admin gets an error. *)
Lemma stored_log_is_unreadable header p :
  verifyToken C cfg now header = Ret p →
  getParticipants env id = []
  ∧ getReplay C cfg env now id header = Throw (if p_admin p then "TypeError" else "Forbidden")
  ∧ (∀ i, ∃ e, getState C cfg env now id i header = Throw e).
Proof.
  intros Hv.
  assert (getParticipants env id = []) as Hp.
  { unfold getParticipants. rewrite no_file, row, stored. unfold extractParticipants. cbn [extract_from].
    by destruct es as [|a [|b [|c l]]]. }
  assert (loadHandLog env id = Ret {| pl_entries := [VArr (entry_value <$> es)]; pl_commitment := VUndefined; pl_proof := VUndefined |}) as Hl.
  { unfold loadHandLog. by rewrite no_file, row, stored. }
  split; [done|]. unfold getReplay, getState, assertParticipantOrAdmin. rewrite Hv, Hp. cbn [mbind outcome_bind].
  destruct (p_admin p); cbn [negb andb bool_decide decide_rel].
  - rewrite Hl. cbn [mbind outcome_bind pl_entries frames_of]. rewrite stored_state. split; [done|].
    intros [i|]; [|by eexists]. destruct (i <? 0); [by eexists|]. cbn [mbind outcome_bind pl_entries].
    destruct (js_truthy _) eqn:Ht; [|by eexists]. destruct (Z.to_nat i); [|done]. cbn [lookup list_lookup from_option negb].
    rewrite stored_state. by eexists.
  - rewrite bool_decide_eq_false_2 by apply not_elem_of_nil. cbn. split; [done|]. by eexists.
Qed.
End Fallback.

(** ** A hand *)

Definition shown0 (phase : HandPhase) (stack : Z) : GameStateInternal :=
  GameState phase preflop 3 [] 2
    [SidePots.Player "u1" stack false 1 false (Some [0; 51]); SidePots.Player "u2" 98 false 2 false (Some [7; 8])]
    [1; 2; 3] [].
Definition proof0 : HandProofResponse :=
  {| proof_commitment := ["c"%char]; proof_seed := ["5"%char]; proof_nonce := ["6"%char];
     proof_deck := take 4 (shuffle (λ _, [128; 0; 0; 0]) standardDeck []) |}.
Definition calls0 : list log_call :=
  [LogCommitment ["c"%char]; LogRecord (CallAction "u1") (shown0 BETTING_ROUND 99) (shown0 DEAL 98); LogProof proof0].
Definition hand_env0 : HandEnv := {|
  he_file id := if bool_decide (id = "h") then Some (file_of 0 calls0 ++ [TRaw "[1,{"]) else None;
  he_proofs := None; he_row _ := None; he_number _ := None |}.

Lemma hand0_torn : torn [TRaw "[1,{"].
Proof. constructor; [by eexists | constructor]. Qed.

Lemma hand_history_is_served_witness :
  @getReplay zod0 crypto0 cfg0 hand_env0 0 "h" (Some "Bearer Uu3") = Throw "Forbidden"
  ∧ ∃ v, @getState zod0 crypto0 cfg0 hand_env0 0 "h" (Some 0) (Some "Bearer Uu1") = Ret v
  ∧ match field "players" (fields_of v) with
    | VArr [a; b] => field "holeCards" (fields_of a) = cards_value [0; 51] ∧ field "holeCards" (fields_of b) = VUndefined
    | _ => False
    end.
Proof.
  pose proof (hand_history_is_served (ZO := zod0) (ZL := zod0_laws) crypto0 cfg0 hand_env0 0 "h" calls0
    [TRaw "[1,{"] eq_refl hand0_torn) as H. split.
  - exact (proj1 (H (Some "Bearer Uu3") {| p_sub := "u3"; p_admin := false |} eq_refl)).
  - eexists. split; [exact (proj2 (H (Some "Bearer Uu1") {| p_sub := "u1"; p_admin := false |} eq_refl) 0%nat)|].
    split; reflexivity.
Defined.

Lemma lost_cards_hide_the_proof_witness :
  proof_deck proof0 = [Some 0; Some 2; None; Some 4]
  ∧ @getProof zod0 crypto0 cfg0 hand_env0 0 "h" (Some "Bearer Uu1") = Throw "ZodError".
Proof.
  split; [vm_compute; reflexivity|].
  exact (lost_cards_hide_the_proof (ZO := zod0) (ZL := zod0_laws) crypto0 cfg0 hand_env0 0 "h" calls0
    [TRaw "[1,{"] eq_refl hand0_torn (Some "Bearer Uu1") {| p_sub := "u1"; p_admin := false |} eq_refl eq_refl).
Defined.
