(* ===== verification/History.v ===== *)
(** * Histories of games, tournaments and transactions

    backend/src/history/history.service.ts with the query of
    shared/schemas/history.ts: filtering, ordering, cutting into pages that a cursor
    links, and reading amounts written as texts. The comparison of names and
    [new Date(s)] are parameters. Amounts are exact decimals; the rounding to
    binary64 is left out. *)

From S2P Require Import Prelude JsText Schemas AuditLog.
#[local] Open Scope string_scope.
#[local] Open Scope list_scope.
#[local] Open Scope Z_scope.

(** ** Amounts written as texts *)

(** [dec_num / 10 ^ dec_scale] *)
Record decimal := Decimal { dec_num : Z; dec_scale : nat }.
#[export] Instance decimal_eq_dec : EqDecision decimal.
Proof. solve_decision. Defined.
Record Amount := { am_amount : decimal; am_currency : string }.

Fixpoint leading_digits (l : list ascii) : list Z * list ascii :=
  match l with
  | [] => ([], [])
  | c :: rest => match digit_val c with
                 | Some d => let '(ds, r) := leading_digits rest in (d :: ds, r)
                 | None => ([], l)
                 end
  end.

(** [Number.parseFloat] on digits, points and signs; [None] is [NaN]. *)
Definition parseFloat (l : list ascii) : option decimal :=
  let '(sign, l) := match l with
                    | "+"%char :: r => (1, r)
                    | "-"%char :: r => (-1, r)
                    | _ => (1, l)
                    end in
  let '(ip, l) := leading_digits l in
  let fp := match l with "."%char :: r => fst (leading_digits r) | _ => [] end in
  match ip ++ fp with
  | [] => None
  | ds => Some (Decimal (sign * foldl (λ n d, 10 * n + d) 0 ds) (length fp))
  end.

Definition is_letter (c : ascii) : bool :=
  let n := nat_of_ascii c in ((65 <=? n) && (n <=? 90) || (97 <=? n) && (n <=? 122))%nat.
Definition to_upper_char (c : ascii) : ascii :=
  let n := nat_of_ascii c in if ((97 <=? n) && (n <=? 122))%nat then ascii_of_nat (n - 32) else c.
Definition numeric_char (c : ascii) : bool :=
  bool_decide (is_Some (digit_val c)) || Ascii.eqb c "." || Ascii.eqb c "+" || Ascii.eqb c "-".

Definition DEFAULT_CURRENCY : string := "USD".

(** The first of the three symbols in the text, which is in UTF-8. *)
Fixpoint first_symbol (l : list ascii) : option string :=
  match l with
  | [] => None
  | "$"%char :: _ => Some "USD"
  | "226"%char :: "130"%char :: "172"%char :: _ => Some "EUR"
  | "194"%char :: "163"%char :: _ => Some "GBP"
  | _ :: rest => first_symbol rest
  end.
Definition currency_of (l : list ascii) : string :=
  let code := slice_last 3 l in
  if (length code =? 3)%nat && forallb is_letter code
  then String.string_of_list_ascii (to_upper_char <$> code)
  else default DEFAULT_CURRENCY (first_symbol l).

Definition parseAmount (amount : option string) : Amount :=
  match amount with
  | None | Some "" => {| am_amount := Decimal 0 0; am_currency := DEFAULT_CURRENCY |}
  | Some s =>
      let trimmed := String.list_ascii_of_string (js_trim s) in
      {| am_amount := default (Decimal 0 0) (parseFloat (filter (λ c, numeric_char c = true) trimmed));
         am_currency := currency_of trimmed |}
  end.

(** ** Queries and pages *)

Inductive ProfitLoss := Win | Loss.
Record HistoryQuery := {
  hq_gameType : option string; hq_profitLoss : option ProfitLoss;
  hq_dateFrom : option string; hq_dateTo : option string;
  hq_limit : option Z; hq_cursor : option Z; hq_asc : bool (* [sort === 'asc'] *) }.

Record HistoryConfig := {
  hc_gameType : option string; hc_profitLoss : option ProfitLoss;
  hc_dateFrom : option Z; hc_dateTo : option Z; hc_limit : Z; hc_offset : Z; hc_asc : bool }.

Record Paginated (A : Type) := { pg_items : list A; pg_nextCursor : option string; pg_total : Z }.
Arguments pg_items {A} p. Arguments pg_nextCursor {A} p. Arguments pg_total {A} p.

Definition DEFAULT_LIMIT : Z := 25.
Definition MAX_LIMIT : Z := 100.

Definition sliceRows {A} (rows : list A) (offset limit : Z) : list A * option string :=
  if Z.of_nat (length rows) <=? offset then ([], None)
  else
    let slice := js_slice offset (offset + limit) rows in
    let nextOffset := offset + Z.of_nat (length slice) in
    (slice, if nextOffset <? Z.of_nat (length rows) then Some (str_of_Z nextOffset) else None).

(** ** The rows *)

Record GameHistory := {
  gh_id : string; gh_type : string; gh_stakes : string; gh_buyin : string; gh_date : Z; gh_profit : bool;
  gh_amount : string }.
Record TournamentHistory := {
  th_id : string; th_name : string; th_place : string; th_buyin : string; th_prize : string; th_duration : string }.
Record WalletHistory := { wh_id : string; wh_date : Z; wh_type : string; wh_amount : string; wh_status : string }.
Record TournamentBracket := { tb_tournamentId : string; tb_userId : string; tb_rounds : jsval }.

Record GameHistoryEntry := {
  ge_id : string; ge_type : string; ge_stakes : string; ge_buyin : string; ge_date : string; ge_profit : bool;
  ge_amount : Amount }.
Record TransactionEntry := {
  te_date : string; te_type : string; te_amount : Amount; te_status : string }.

Section History.
Context (parse_date : string → option Z) (locale_le : string → string → bool).

Definition parseDate (value : option string) : option Z :=
  match value with None | Some "" => None | Some s => parse_date s end.

Definition normalizeQuery (q : HistoryQuery) : HistoryConfig :=
  {| hc_limit := Z.min (default DEFAULT_LIMIT (hq_limit q)) MAX_LIMIT;
     hc_offset := default 0 (hq_cursor q);
     hc_asc := hq_asc q;
     hc_dateFrom := parseDate (hq_dateFrom q);
     hc_dateTo := parseDate (hq_dateTo q);
     hc_gameType := t ← hq_gameType q;
                    let t := to_lower (js_trim t) in if bool_decide (t = "") then None else Some t;
     hc_profitLoss := hq_profitLoss q |}.

Definition type_ok (c : HistoryConfig) (type : string) : bool :=
  from_option (λ t, bool_decide (to_lower type = t)) true (hc_gameType c).
Definition date_ok (c : HistoryConfig) (date : Z) : bool :=
  from_option (λ d, d <=? date) true (hc_dateFrom c) && from_option (λ d, date <=? d) true (hc_dateTo c).

(** [sort((a, b) => asc ? a - b : b - a)] by a date *)
Definition by_date {A} (date : A → Z) (asc : bool) (x y : A) : bool :=
  if asc then date x <=? date y else date y <=? date x.

Definition page_of {A B} (c : HistoryConfig) (sorted : list A) (entry : A → B) : Paginated B :=
  let '(slice, next) := sliceRows sorted (hc_offset c) (hc_limit c) in
  {| pg_items := entry <$> slice; pg_nextCursor := next; pg_total := Z.of_nat (length sorted) |}.

(** *** Games *)

Definition game_matches (c : HistoryConfig) (r : GameHistory) : bool :=
  type_ok c (gh_type r)
  && match hc_profitLoss c with Some Win => gh_profit r | Some Loss => negb (gh_profit r) | None => true end
  && date_ok c (gh_date r).
Definition game_entry (r : GameHistory) : GameHistoryEntry :=
  {| ge_id := gh_id r; ge_type := gh_type r; ge_stakes := gh_stakes r; ge_buyin := gh_buyin r;
     ge_date := iso_time (gh_date r); ge_profit := gh_profit r; ge_amount := parseAmount (Some (gh_amount r)) |}.
Definition sorted_games (rows : list GameHistory) (c : HistoryConfig) : list GameHistory :=
  js_sort (by_date gh_date (hc_asc c)) (filter (λ r, game_matches c r = true) rows).
Definition getGames (rows : list GameHistory) (q : HistoryQuery) : Paginated GameHistoryEntry :=
  page_of (normalizeQuery q) (sorted_games rows (normalizeQuery q)) game_entry.

(** *** Tournaments: only the order and the page of the query count *)

Definition sorted_tournaments (rows : list TournamentHistory) (c : HistoryConfig) : list TournamentHistory :=
  js_sort (λ x y, if hc_asc c then locale_le (th_name x) (th_name y) else locale_le (th_name y) (th_name x)) rows.
Definition getTournaments (rows : list TournamentHistory) (q : HistoryQuery) : Paginated TournamentHistory :=
  page_of (normalizeQuery q) (sorted_tournaments rows (normalizeQuery q)) id.

Definition TournamentBracketResponseSchema : schema := s_object [
  ("tournamentId", s_str);
  ("rounds", ZArray (s_object [("name", s_str);
     ("matches", ZArray (s_object [("id", s_str); ("players", ZArray s_str); ("winner", ZNullable s_str)]))]))].
Definition getTournamentBracket `{!ZodOps} (rows : list TournamentBracket) (tournamentId userId : string) : outcome jsval :=
  match head (filter (λ b, tb_tournamentId b = tournamentId) rows) with
  | None => Throw "Tournament bracket not found"
  | Some b =>
      if bool_decide (tb_userId b ≠ userId ∧ userId ≠ "admin") then Throw "Forbidden"
      else match z_parse TournamentBracketResponseSchema
                   (VObj [("tournamentId", VStr (tb_tournamentId b));
                          ("rounds", match tb_rounds b with VArr l => VArr l | _ => VArr [] end)]) with
           | Some v => Ret v
           | None => Throw "ZodError"
           end
  end.

(** *** Transactions *)

Definition tx_matches (c : HistoryConfig) (r : WalletHistory) : bool :=
  let amount := dec_num (am_amount (parseAmount (Some (wh_amount r)))) in
  type_ok c (wh_type r)
  && match hc_profitLoss c with Some Win => 0 <? amount | Some Loss => amount <? 0 | None => true end
  && date_ok c (wh_date r).
Definition tx_entry (r : WalletHistory) : TransactionEntry :=
  {| te_date := iso_time (wh_date r); te_type := wh_type r; te_amount := parseAmount (Some (wh_amount r));
     te_status := wh_status r |}.
Definition sorted_transactions (rows : list WalletHistory) (c : HistoryConfig) : list WalletHistory :=
  js_sort (by_date wh_date (hc_asc c)) (filter (λ r, tx_matches c r = true) rows).
Definition getTransactions (rows : list WalletHistory) (q : HistoryQuery) : Paginated TransactionEntry :=
  page_of (normalizeQuery q) (sorted_transactions rows (normalizeQuery q)) tx_entry.
End History.

(** ** Following the cursor *)

Definition with_cursor (q : HistoryQuery) (cursor : option Z) : HistoryQuery :=
  {| hq_gameType := hq_gameType q; hq_profitLoss := hq_profitLoss q; hq_dateFrom := hq_dateFrom q;
     hq_dateTo := hq_dateTo q; hq_limit := hq_limit q; hq_cursor := cursor; hq_asc := hq_asc q |}.

(** A client that asks page after page; the query reads the cursor with [Number(s)]. *)
Section Walk.
Context {A : Type} (get : HistoryQuery → Paginated A).

Fixpoint walk (fuel : nat) (q : HistoryQuery) : option (list A) :=
  match fuel with
  | O => None
  | Datatypes.S fuel' =>
      let page := get q in
      match pg_nextCursor page with
      | None => Some (pg_items page)
      | Some s =>
          n ← js_number s;
          rest ← walk fuel' (with_cursor q (Some n));
          Some (pg_items page ++ rest)
      end
  end.
End Walk.

Lemma js_slice_nat {A} (l : list A) (i : nat) (limit : Z) :
  0 <= limit → (i <= length l)%nat → js_slice (Z.of_nat i) (Z.of_nat i + limit) l = take (Z.to_nat limit) (drop i l).
Proof.
  intros Hl Hi. unfold js_slice, slice_bound.
  destruct (Z.ltb_spec (Z.of_nat i) 0); [lia|]. destruct (Z.ltb_spec (Z.of_nat i + limit) 0); [lia|].
  rewrite (Z.min_l (Z.of_nat i)) by lia. rewrite Nat2Z.id.
  destruct (decide (Z.of_nat (length l) <= Z.of_nat i + limit)).
  - rewrite Z.min_r by lia. rewrite !take_ge; [done| |]; rewrite length_drop; lia.
  - rewrite Z.min_l by lia. f_equal. lia.
Qed.

Lemma sliceRows_spec {A} (rows : list A) (i : nat) (limit : Z) :
  0 < limit → (i < length rows)%nat →
  sliceRows rows (Z.of_nat i) limit =
    (take (Z.to_nat limit) (drop i rows),
     if decide (i + Z.to_nat limit < length rows)%nat then Some (str_of_Z (Z.of_nat (i + Z.to_nat limit))) else None).
Proof.
  intros Hl Hi. unfold sliceRows. destruct (Z.leb_spec (Z.of_nat (length rows)) (Z.of_nat i)); [lia|].
  rewrite js_slice_nat by lia. f_equal. rewrite length_take, length_drop.
  case_decide.
  - replace (Z.of_nat (Z.to_nat limit `min` (length rows - i))) with limit by lia.
    destruct (Z.ltb_spec (Z.of_nat i + limit) (Z.of_nat (length rows))); [|lia]. do 2 f_equal. lia.
  - destruct (Z.ltb_spec (Z.of_nat i + Z.of_nat (Z.to_nat limit `min` (length rows - i))) (Z.of_nat (length rows))); [lia|done].
Qed.

Lemma walk_pages {A B} (get : HistoryQuery → Paginated B) (sorted : list A) (entry : A → B)
    (q : HistoryQuery) (limit : Z) :
  0 < limit →
  (∀ c, get (with_cursor q c) =
     let '(slice, next) := sliceRows sorted (default 0 c) limit in
     {| pg_items := entry <$> slice; pg_nextCursor := next; pg_total := Z.of_nat (length sorted) |}) →
  ∀ fuel (i : nat), (length sorted - i < fuel)%nat → (i < length sorted)%nat ∨ i = 0%nat →
  walk get fuel (with_cursor q (Some (Z.of_nat i))) = Some (entry <$> drop i sorted).
Proof.
  intros Hlim Hget. induction fuel as [|fuel IH]; intros i Hf Hi; [lia|]. cbn [walk].
  rewrite Hget. cbn [default from_option id].
  destruct (decide (i < length sorted)%nat) as [Hlt|Hge].
  - rewrite sliceRows_spec by done. cbn [pg_nextCursor pg_items]. case_decide as Hnext.
    + rewrite js_number_str by lia. cbn [mbind option_bind].
      change (with_cursor (with_cursor q (Some (Z.of_nat i))) ?c) with (with_cursor q c).
      rewrite IH by lia. cbn [mbind option_bind]. rewrite <- fmap_app. do 2 f_equal.
      rewrite <- drop_drop. apply take_drop.
    + rewrite take_ge; [done|]. rewrite length_drop. lia.
  - destruct Hi as [?| ->]; [lia|]. unfold sliceRows.
    destruct (Z.leb_spec (Z.of_nat (length sorted)) (Z.of_nat 0)); [|lia]. cbn.
    destruct sorted; [done|cbn in *; lia].
Qed.

Section Answers.
Context (parse_date : string → option Z).

(** What a client that follows the cursor is owed: the rows that match, in the order of their dates. *)
Definition ordered_matches {A} (rows : list A) (p : A → bool) (date : A → Z) (asc : bool) (l : list A) : Prop :=
  l ≡ₚ filter (λ r, p r = true) rows
  ∧ StronglySorted (λ x y, if asc then date x <= date y else date y <= date x) l.

Lemma sorted_matches {A} (rows : list A) p (date : A → Z) asc :
  ordered_matches rows p date asc (js_sort (by_date date asc) (filter (λ r, p r = true) rows)).
Proof.
  split; [apply js_sort_perm|].
  assert (StronglySorted (λ x y, by_date date asc x y = true)
    (js_sort (by_date date asc) (filter (λ r, p r = true) rows))) as H.
  { apply js_sort_sorted; unfold by_date; intros; destruct asc; lia. }
  clear - H. induction H as [|x l _ IH Hx]; constructor; [done|]. apply (Forall_impl _ _ _ Hx).
  intros y. unfold by_date. destruct asc; lia.
Qed.

Lemma limit_positive q : 0 < default DEFAULT_LIMIT (hq_limit q) → 0 < hc_limit (normalizeQuery parse_date q).
Proof. intros H. cbn. unfold MAX_LIMIT. lia. Qed.

Lemma walk_start {A B} (get : HistoryQuery → Paginated B) (sorted : list A) (entry : A → B) q limit fuel :
  0 < limit →
  (∀ c, get (with_cursor q c) =
     let '(slice, next) := sliceRows sorted (default 0 c) limit in
     {| pg_items := entry <$> slice; pg_nextCursor := next; pg_total := Z.of_nat (length sorted) |}) →
  (length sorted < fuel)%nat → walk get fuel (with_cursor q None) = Some (entry <$> sorted).
Proof.
  intros Hl Hget Hf. pose proof (walk_pages get sorted entry q limit Hl Hget fuel 0 ltac:(lia) (or_intror eq_refl)) as H.
  rewrite drop_0 in H. rewrite <- H. destruct fuel as [|fuel]; [lia|]. cbn [walk]. by rewrite !Hget.
Qed.

(** following the cursor lists the history once. A client that asks for games, or for transactions,
    from the start and repeats the query with each next cursor comes to an end, after at most one request
    per matching row, and has then seen exactly the rows that match, each once, in the order of their
    dates. *)
Lemma history_walk_lists_all games txs q :
  0 < default DEFAULT_LIMIT (hq_limit q) →
  (∃ sorted, ordered_matches games (game_matches (normalizeQuery parse_date q)) gh_date (hq_asc q) sorted
     ∧ ∀ fuel, (length sorted < fuel)%nat →
         walk (getGames parse_date games) fuel (with_cursor q None) = Some (game_entry <$> sorted))
  ∧ (∃ sorted, ordered_matches txs (tx_matches (normalizeQuery parse_date q)) wh_date (hq_asc q) sorted
     ∧ ∀ fuel, (length sorted < fuel)%nat →
         walk (getTransactions parse_date txs) fuel (with_cursor q None) = Some (tx_entry <$> sorted)).
Proof.
  intros Hl%limit_positive. split.
  - exists (sorted_games games (normalizeQuery parse_date q)). split; [apply sorted_matches|].
    intros fuel. by apply walk_start with (limit := hc_limit (normalizeQuery parse_date q)).
  - exists (sorted_transactions txs (normalizeQuery parse_date q)). split; [apply sorted_matches|].
    intros fuel. by apply walk_start with (limit := hc_limit (normalizeQuery parse_date q)).
Qed.
End Answers.

(** ** Concrete histories *)

Definition game0 (id : string) (date : Z) (profit : bool) : GameHistory :=
  {| gh_id := id; gh_type := "Cash"; gh_stakes := "1/2"; gh_buyin := "$100"; gh_date := date; gh_profit := profit;
     gh_amount := "+$12.50" |}.
Definition games0 : list GameHistory := [game0 "a" 10 true; game0 "b" 30 true; game0 "c" 20 false; game0 "d" 20 true].
Definition query0 : HistoryQuery :=
  {| hq_gameType := Some " CASH "; hq_profitLoss := Some Win; hq_dateFrom := None; hq_dateTo := Some "x";
     hq_limit := Some 2; hq_cursor := None; hq_asc := false |}.

Lemma history_walk_lists_all_witness :
  ge_id <$> pg_items (getGames (λ _, None) games0 query0) = ["b"; "d"]
  ∧ pg_nextCursor (getGames (λ _, None) games0 query0) = Some "2"
  ∧ ∃ sorted, sorted ≡ₚ [game0 "a" 10 true; game0 "b" 30 true; game0 "d" 20 true]
    ∧ walk (getGames (λ _, None) games0) 4 query0 = Some (game_entry <$> sorted).
Proof.
  split; [vm_compute; reflexivity|]. split; [vm_compute; reflexivity|].
  destruct (history_walk_lists_all (λ _, None) games0 [] query0 eq_refl) as [(sorted & [Hp _] & Hw) _].
  exists sorted. split; [exact Hp|]. apply (Hw 4%nat). rewrite Hp. vm_compute. lia.
Defined.

(** Amounts: signs, symbols and codes are read; a unit of three letters is taken for a currency, and the
    parentheses of a negative amount are lost. *)
Lemma amounts_read :
  parseAmount (Some " -1,234.50 eur ") = {| am_amount := Decimal (-123450) 2; am_currency := "EUR" |}
  ∧ parseAmount (Some "+$12") = {| am_amount := Decimal 12 0; am_currency := "USD" |}
  ∧ parseAmount (Some "500 chips") = {| am_amount := Decimal 500 0; am_currency := "IPS" |}
  ∧ parseAmount (Some "($50)") = {| am_amount := Decimal 50 0; am_currency := "USD" |}.
Proof. by vm_compute. Qed.
