(* ===== verification/FeatureFlags.v ===== *)
(** * Feature flags

    backend/src/feature-flags/feature-flags.service.ts: flags of the house, of tables
    and of tournaments as texts in Redis, with a set of the keys in use. The set is
    a key among the others, so values have a type here, and a command on a value of
    another type fails. *)

From S2P Require Import Prelude JsText JsMap.
#[local] Open Scope string_scope.
#[local] Open Scope list_scope.

(** ** Redis keys with typed values *)

Inductive RedisValue := RText (s : string) | RKeys (l : list string).
Definition is_text (o : option RedisValue) : bool := match o with Some (RText _) => true | _ => false end.
Definition members (o : option RedisValue) : list string := match o with Some (RKeys l) => l | _ => [] end.

(** A command on a value of the wrong type fails: [None], [false]. A scan answers in batches, until the
    cursor is zero again. *)
Class KeyspaceOps (R : Type) := {
  k_get : string → R → option (option string);
  k_mget : list string → R → list (option string);
  k_set : string → string → R → R;
  k_del : string → R → R;
  k_sadd : string → string → R → bool * R;
  k_srem : string → string → R → bool * R;
  k_sscan : string → R → option (list (list string));
  k_scan : string → R → list (list string) }.

(** [k_look] is the state the laws speak of. An empty set is no key. *)
Class KeyspaceLaws (R : Type) `{!KeyspaceOps R} := {
  k_look : string → R → option RedisValue;
  look_nonempty k r : k_look k r ≠ Some (RKeys []);
  get_look k r : k_get k r = match k_look k r with
                             | None => Some None | Some (RText s) => Some (Some s) | Some (RKeys _) => None end;
  mget_look ks r : k_mget ks r =
    (λ k, match k_look k r with Some (RText s) => Some s | _ => None end) <$> ks;
  look_set k k' s r : k_look k' (k_set k s r) = if decide (k' = k) then Some (RText s) else k_look k' r;
  look_del k k' r : k_look k' (k_del k r) = if decide (k' = k) then None else k_look k' r;
  look_sadd k x r k' : k' ≠ k → k_look k' (k_sadd k x r).2 = k_look k' r;
  look_srem k x r k' : k' ≠ k → k_look k' (k_srem k x r).2 = k_look k' r;
  sadd_text k x r : is_text (k_look k (k_sadd k x r).2) = is_text (k_look k r);
  sadd_look k x r y : is_text (k_look k r) = false →
    y ∈ members (k_look k (k_sadd k x r).2) ↔ y = x ∨ y ∈ members (k_look k r);
  srem_text k x r : is_text (k_look k (k_srem k x r).2) = is_text (k_look k r);
  srem_look k x r y : y ∈ members (k_look k (k_srem k x r).2) ↔ y ≠ x ∧ y ∈ members (k_look k r);
  sscan_text k r : is_text (k_look k r) = true → k_sscan k r = None;
  sscan_look k r : is_text (k_look k r) = false →
    ∃ bs, k_sscan k r = Some bs ∧ ∀ y, y ∈ concat bs ↔ y ∈ members (k_look k r);
  scan_look p r k : k ∈ concat (k_scan p r) ↔ is_Some (k_look k r) ∧ String.prefix p k = true }.

Definition look0 (k : string) (r : gmap string RedisValue) : option RedisValue :=
  match r !! k with Some (RKeys []) => None | o => o end.
#[export] Instance map_keyspace : KeyspaceOps (gmap string RedisValue) := {
  k_get k r := match look0 k r with None => Some None | Some (RText s) => Some (Some s) | Some (RKeys _) => None end;
  k_mget ks r := (λ k, match look0 k r with Some (RText s) => Some s | _ => None end) <$> ks;
  k_set k s r := <[k := RText s]> r;
  k_del k r := delete k r;
  k_sadd k x r := if is_text (look0 k r) then (false, r)
                  else (true, <[k := RKeys (x :: members (look0 k r))]> r);
  k_srem k x r := if is_text (look0 k r) then (false, r)
                  else (true, <[k := RKeys (filter (λ y, y ≠ x) (members (look0 k r)))]> r);
  k_sscan k r := if is_text (look0 k r) then None else Some [members (look0 k r)];
  k_scan p r := [filter (λ k, is_Some (look0 k r) ∧ String.prefix p k = true) (map_to_list r).*1] }.

#[export] Instance map_keyspace_laws : KeyspaceLaws (gmap string RedisValue).
Proof.
  refine {| k_look := look0 |}; unfold k_get, k_mget, k_set, k_del, k_sadd, k_srem, k_sscan, k_scan, map_keyspace.
  - intros k r. unfold look0. by destruct (r !! k) as [[s|[|x l]]|].
  - done.
  - done.
  - intros k k' s r. unfold look0. rewrite lookup_insert. repeat case_decide; congruence.
  - intros k k' r. unfold look0. rewrite lookup_delete. repeat case_decide; congruence.
  - intros k x r k' H. destruct (is_text (look0 k r)); [done|]. unfold look0 at 1. cbn.
    by rewrite lookup_insert_ne by done.
  - intros k x r k' H. destruct (is_text (look0 k r)); [done|]. unfold look0 at 1. cbn.
    by rewrite lookup_insert_ne by done.
  - intros k x r. destruct (is_text (look0 k r)) eqn:E; [done|]. cbn. unfold look0 at 1. by rewrite lookup_insert_eq.
  - intros k x r y E. rewrite E. cbn. unfold look0 at 1. rewrite lookup_insert_eq. cbn. apply elem_of_cons.
  - intros k x r. destruct (is_text (look0 k r)) eqn:E; [done|]. cbn. unfold look0 at 1. rewrite lookup_insert_eq.
    by destruct (filter _ _).
  - intros k x r y. destruct (is_text (look0 k r)) eqn:E.
    + cbn. destruct (look0 k r) as [[s|l]|]; try done. cbn. rewrite elem_of_nil. naive_solver.
    + cbn. unfold look0 at 1. rewrite lookup_insert_eq.
      assert (members (match filter (λ y, y ≠ x) (members (look0 k r)) with [] => None | _ => Some (RKeys (filter (λ y, y ≠ x) (members (look0 k r)))) end)
        = filter (λ y, y ≠ x) (members (look0 k r))) as H by by destruct (filter _ _).
      assert (members (match Some (RKeys (filter (λ y, y ≠ x) (members (look0 k r)))) with Some (RKeys []) => None | o => o end)
        = filter (λ y, y ≠ x) (members (look0 k r))) as -> by by destruct (filter _ _).
      by rewrite list_elem_of_filter.
  - intros k r E. by rewrite E.
  - intros k r E. rewrite E. eexists. split; [done|]. intros y. cbn. by rewrite app_nil_r.
  - intros p r k. cbn. rewrite app_nil_r, list_elem_of_filter. split; [by intros [H _]|]. intros H. split; [done|].
    destruct H as [[v Hv] _]. unfold look0 in Hv. apply list_elem_of_fmap. destruct (r !! k) as [w|] eqn:E; [|done].
    exists (k, w). split; [done|]. by apply elem_of_map_to_list.
Defined.

(** ** The service *)

Definition prefix : string := "feature-flag:".
Definition keySet : string := "feature-flag:keys".
Definition roomKey (tableId flag : string) : string := "room:" +:+ tableId +:+ ":" +:+ flag.
Definition tourneyKey (tourneyId flag : string) : string := "tourney:" +:+ tourneyId +:+ ":" +:+ flag.

Definition flag_value (v : option string) : bool := bool_decide (v = Some "1") || bool_decide (v = Some "true").

(** [new Set<string>()] filled from the batches *)
Definition add_batches (bs : list (list string)) : list string :=
  to_set (concat bs).

Definition drop_prefix (k : string) : string := String.substring (String.length prefix) (String.length k) k.

Section Flags.
Context {R : Type} `{!KeyspaceOps R}.

Abbreviation FM := (M R).

Definition getAll : FM (list (string * bool)) :=
  batches ← gets (k_sscan keySet);
  match batches with
  | None => throw "WRONGTYPE"
  | Some bs =>
      let keys := add_batches bs in
      keys ← (if bool_decide (keys = []) then bs ← gets (k_scan prefix); mret (add_batches bs) else mret keys);
      if bool_decide (keys = []) then mret []
      else
        values ← gets (k_mget keys);
        mret (foldl (λ result kv, om_set (drop_prefix kv.1) (flag_value kv.2) result) [] (zip keys values))
  end.

Definition flag_get (key : string) : FM (option bool) :=
  v ← gets (k_get (prefix +:+ key));
  match v with
  | None => throw "WRONGTYPE"
  | Some None => mret None
  | Some v => mret (Some (flag_value v))
  end.

(** [multi().set().sadd().exec()]: both commands run, errors of one are only in the answer. *)
Definition flag_set (key : string) (value : bool) : FM (string * bool) :=
  modify (k_set (prefix +:+ key) (if value then "1" else "0")) ;;
  modify (λ r, (k_sadd keySet (prefix +:+ key) r).2) ;;
  mret (key, value).
Definition flag_delete (key : string) : FM unit :=
  modify (k_del (prefix +:+ key)) ;;
  modify (λ r, (k_srem keySet (prefix +:+ key) r).2).

Definition getRoom (tableId flag : string) : FM (option bool) := flag_get (roomKey tableId flag).
Definition setRoom (tableId flag : string) (value : bool) : FM (string * bool) := flag_set (roomKey tableId flag) value.
Definition deleteRoom (tableId flag : string) : FM unit := flag_delete (roomKey tableId flag).
Definition getTourney (tourneyId flag : string) : FM (option bool) := flag_get (tourneyKey tourneyId flag).
Definition setTourney (tourneyId flag : string) (value : bool) : FM (string * bool) :=
  flag_set (tourneyKey tourneyId flag) value.
Definition deleteTourney (tourneyId flag : string) : FM unit := flag_delete (tourneyKey tourneyId flag).

Definition canDeal (tableId : string) : FM bool :=
  global ← flag_get "dealing";
  room ← getRoom tableId "dealing";
  mret (negb (bool_decide (global = Some false)) && negb (bool_decide (room = Some false))).

(** The routes of the controller that change flags. *)
Inductive flag_call :=
| FlagSet (key : string) (value : bool) | FlagDelete (key : string)
| RoomSet (tableId key : string) (value : bool) | RoomDelete (tableId key : string)
| TourneySet (tourneyId key : string) (value : bool) | TourneyDelete (tourneyId key : string).
Definition flag_exec (c : flag_call) : R → R :=
  match c with
  | FlagSet k v => λ r, (flag_set k v r).2
  | FlagDelete k => λ r, (flag_delete k r).2
  | RoomSet t k v => λ r, (setRoom t k v r).2
  | RoomDelete t k => λ r, (deleteRoom t k r).2
  | TourneySet t k v => λ r, (setTourney t k v r).2
  | TourneyDelete t k => λ r, (deleteTourney t k r).2
  end.
Definition flag_run (cs : list flag_call) (r : R) : R := foldl (λ r c, flag_exec c r) r cs.
End Flags.

(** ** What it implements: a map *)

Definition call_update (c : flag_call) : string * option bool :=
  match c with
  | FlagSet k v => (k, Some v) | FlagDelete k => (k, None)
  | RoomSet t k v => (roomKey t k, Some v) | RoomDelete t k => (roomKey t k, None)
  | TourneySet t k v => (tourneyKey t k, Some v) | TourneyDelete t k => (tourneyKey t k, None)
  end.
Definition map_update (F : gmap string bool) (c : flag_call) : gmap string bool :=
  match call_update c with (k, Some v) => <[k := v]> F | (k, None) => delete k F end.
Definition flags_after (cs : list flag_call) : gmap string bool := foldl map_update ∅ cs.

#[export] Instance prefix_inj : Inj (=) (=) (String.append prefix).
Proof. intros a b H. unfold prefix in H. cbn in H. by repeat injection H as H. Qed.

Lemma substring_more s n : (String.length s <= n)%nat → String.substring 0 n s = s.
Proof. revert n. induction s as [|c s IH]; intros [|n] H; cbn in *; try done; try lia. by rewrite IH by lia. Qed.
Lemma drop_prefix_app k : drop_prefix (prefix +:+ k) = k.
Proof.
  unfold drop_prefix, prefix. cbn. apply substring_more.
  change (String.length ("feature-flag:" +:+ k)) with (13 + String.length k)%nat. lia.
Qed.

Section Refinement.
Context {R : Type} `{!KeyspaceOps R, !KeyspaceLaws R}.
Implicit Types (r : R) (F : gmap string bool).

Definition text_of_flag (b : bool) : RedisValue := RText (if b then "1" else "0").

(** The keys of the flags, and the set that names them. *)
Record holds r F : Prop := {
  holds_values k : k ≠ "keys" → k_look (prefix +:+ k) r = text_of_flag <$> F !! k;
  holds_type : is_text (k_look keySet r) = false;
  holds_keys y : y ∈ members (k_look keySet r) ↔ ∃ k, y = prefix +:+ k ∧ is_Some (F !! k);
  holds_only k : String.prefix prefix k = true → is_Some (k_look k r) → k = keySet ∨ ∃ j, k = prefix +:+ j;
  holds_free : F !! "keys" = None }.

Lemma holds_set r F k v : k ≠ "keys" → holds r F → holds (flag_set k v r).2 (<[k := v]> F).
Proof.
  intros Hk [Hv Ht Hs Ho Hf]. set (r1 := k_set (prefix +:+ k) (if v then "1" else "0") r).
  change (flag_set k v r).2 with (k_sadd keySet (prefix +:+ k) r1).2.
  assert (prefix +:+ k ≠ keySet) as Hne by (intros [= E]; done).
  assert (k_look keySet r1 = k_look keySet r) as E1 by (unfold r1; by rewrite look_set, decide_False by done).
  split.
  - intros j Hj. rewrite look_sadd by (intros [= E]; done). unfold r1. rewrite look_set.
    destruct (decide (j = k)) as [->|Hjk].
    + rewrite decide_True by done. rewrite lookup_insert_eq. by destruct v.
    + rewrite decide_False by (intros E%(inj _); done). rewrite lookup_insert_ne by done. by apply Hv.
  - by rewrite sadd_text, E1.
  - intros y. rewrite sadd_look by (by rewrite E1). rewrite E1, Hs. split.
    + intros [->|(j & -> & Hj)]; [exists k; by rewrite lookup_insert_eq|]. exists j. split; [done|].
      rewrite lookup_insert. by case_decide.
    + intros (j & -> & Hj). destruct (decide (j = k)) as [->|?]; [by left|]. right. exists j. split; [done|].
      by rewrite lookup_insert_ne in Hj.
  - intros j Hp Hj. destruct (decide (j = keySet)) as [->|Hjs]; [by left|]. rewrite look_sadd in Hj by done.
    unfold r1 in Hj. rewrite look_set in Hj. case_decide as Hjk; [right; by exists k|]. by apply Ho.
  - by rewrite lookup_insert_ne.
Qed.

Lemma holds_delete r F k : k ≠ "keys" → holds r F → holds (flag_delete k r).2 (delete k F).
Proof.
  intros Hk [Hv Ht Hs Ho Hf]. set (r1 := k_del (prefix +:+ k) r).
  change (flag_delete k r).2 with (k_srem keySet (prefix +:+ k) r1).2.
  assert (prefix +:+ k ≠ keySet) as Hne by (intros [= E]; done).
  assert (k_look keySet r1 = k_look keySet r) as E1 by (unfold r1; by rewrite look_del, decide_False by done).
  split.
  - intros j Hj. rewrite look_srem by (intros [= E]; done). unfold r1. rewrite look_del.
    destruct (decide (j = k)) as [->|Hjk].
    + rewrite decide_True by done. by rewrite lookup_delete_eq.
    + rewrite decide_False by (intros E%(inj _); done). rewrite lookup_delete_ne by done. by apply Hv.
  - by rewrite srem_text, E1.
  - intros y. rewrite srem_look, E1, Hs. split.
    + intros [Hy (j & -> & Hj)]. exists j. split; [done|]. rewrite lookup_delete_ne; [done | by intros ->].
    + intros (j & -> & Hj). destruct (decide (j = k)) as [->|?]; [by rewrite lookup_delete_eq in Hj; destruct Hj|].
      rewrite lookup_delete_ne in Hj by done. split; [by intros E%(inj _) | by exists j].
  - intros j Hp Hj. destruct (decide (j = keySet)) as [->|Hjs]; [by left|]. rewrite look_srem in Hj by done.
    unfold r1 in Hj. rewrite look_del in Hj. case_decide as Hjk; [by destruct Hj|]. by apply Ho.
  - rewrite lookup_delete. by case_decide.
Qed.

Lemma holds_run r F cs :
  Forall (λ c, (call_update c).1 ≠ "keys") cs → holds r F → holds (flag_run cs r) (foldl map_update F cs).
Proof.
  intros Hcs. revert r F. induction Hcs as [|c cs Hc _ IH]; intros r F Hr; [done|]. cbn [flag_run foldl].
  apply IH. unfold map_update. destruct c; cbn in *; unfold setRoom, deleteRoom, setTourney, deleteTourney;
    first [by apply holds_set | by apply holds_delete].
Qed.

Lemma get_holds r F k : holds r F → k ≠ "keys" → flag_get k r = (Ret (F !! k), r).
Proof.
  intros H Hk. unfold flag_get. rewrite bind_eq. unfold gets. cbv beta iota.
  rewrite get_look, (holds_values _ _ H) by done. destruct (F !! k) as [[]|]; reflexivity.
Qed.

Lemma prefix_app k : String.prefix prefix (prefix +:+ k) = true.
Proof. unfold prefix. cbn. by destruct k. Qed.

Lemma batches_holds r F bs : holds r F → k_sscan keySet r = Some bs →
  ∀ y, y ∈ add_batches bs ↔ ∃ k, y = prefix +:+ k ∧ is_Some (F !! k).
Proof.
  intros H Hbs y. destruct (sscan_look keySet r (holds_type _ _ H)) as (bs' & Hbs' & Hm).
  unfold add_batches. rewrite (proj2 (to_set_spec _)). simplify_eq. by rewrite Hm, (holds_keys _ _ H).
Qed.

(** Without an entry in the set there is no flag to fall back to. *)
Lemma scan_holds r F : holds r F → (∀ k, F !! k = None) → add_batches (k_scan prefix r) = [].
Proof.
  intros H HF. apply elem_of_nil_inv. intros y Hy. unfold add_batches in Hy.
  apply (proj2 (to_set_spec _)), scan_look in Hy as [Hy Hp].
  assert (y = keySet → False) as Hset.
  { intros ->. destruct Hy as [v Hv]. pose proof (holds_type _ _ H) as Ht. pose proof (holds_keys _ _ H) as Hk.
    rewrite Hv in Ht, Hk. destruct v as [s|[|x l]]; [done|by apply look_nonempty in Hv|].
    destruct (proj1 (Hk x)) as (k & _ & Hs); [by left|]. rewrite HF in Hs. by destruct Hs. }
  destruct (holds_only _ _ H y Hp Hy) as [|(j & ->)]; [done|].
  destruct (decide (j = "keys")) as [->|Hj]; [by apply Hset|].
  rewrite (holds_values _ _ H), HF in Hy by done. by destruct Hy.
Qed.

Lemma getAll_holds r F : holds r F → ∃ l, getAll r = (Ret l, r) ∧ ∀ k, om_get k l = F !! k.
Proof.
  intros H. destruct (sscan_look keySet r (holds_type _ _ H)) as (bs & Hbs & _).
  pose proof (batches_holds _ _ _ H Hbs) as Hkeys.
  unfold getAll. rewrite bind_eq. unfold gets. cbv beta iota. rewrite Hbs. cbv zeta.
  destruct (decide (add_batches bs = [])) as [E|E].
  - assert (∀ k, F !! k = None) as HF.
    { intros k. apply eq_None_not_Some. intros Hk. apply (not_elem_of_nil (prefix +:+ k)).
      rewrite <- E. apply Hkeys. by exists k. }
    rewrite (bool_decide_eq_true_2 _ E). rewrite !bind_eq. cbv beta iota. cbn [mret M_ret].
    rewrite (scan_holds _ _ H HF). cbn. exists []. by split.
  - rewrite (bool_decide_eq_false_2 _ E). rewrite bind_eq. cbn [mret M_ret]. rewrite (bool_decide_eq_false_2 _ E).
    rewrite bind_eq. cbv beta iota. eexists. split; [reflexivity|]. intros k. rewrite mget_look.
    set (keys := add_batches bs) in *.
    assert (∀ kv, kv ∈ zip keys ((λ k, match k_look k r with Some (RText s) => Some s | _ => None end) <$> keys) →
      ∃ j, kv.1 = prefix +:+ j ∧ is_Some (F !! j) ∧ Some (flag_value kv.2) = F !! j) as Hzip.
    { intros kv Hkv. apply list_elem_of_lookup in Hkv as [i Hi]. rewrite lookup_zip_with, list_lookup_fmap in Hi.
      destruct (keys !! i) as [y|] eqn:Hy; cbn in Hi; [|done]. injection Hi as <-. cbn.
      apply list_elem_of_lookup_2, Hkeys in Hy as (j & -> & Hj). exists j. split_and!; [done|done|].
      rewrite (holds_values _ _ H) by (intros ->; rewrite (holds_free _ _ H) in Hj; by destruct Hj).
      by destruct Hj as [[] ->]. }
    assert ((drop_prefix ∘ fst) <$> zip keys ((λ k, match k_look k r with Some (RText s) => Some s | _ => None end) <$> keys)
      = drop_prefix <$> keys) as Hks.
    { rewrite list_fmap_compose. f_equal. apply fst_zip. by rewrite length_fmap. }
    rewrite (om_get_foldl (λ kv, drop_prefix kv.1) (λ kv, flag_value kv.2) _ k (default false (F !! k))).
    + change (λ kv : string * option string, drop_prefix kv.1) with (drop_prefix ∘ @fst string (option string)).
      rewrite Hks. case_decide as Hin.
      * apply list_elem_of_fmap in Hin as (y & -> & (j & -> & Hj)%Hkeys). rewrite drop_prefix_app.
        by destruct Hj as [b ->].
      * destruct (F !! k) as [b|] eqn:Hb; [|done]. exfalso. apply Hin. apply list_elem_of_fmap.
        exists (prefix +:+ k). split; [by rewrite drop_prefix_app|]. apply Hkeys. eauto.
    + intros kv (j & Hj & _ & Hv)%Hzip <-. rewrite Hj, drop_prefix_app, <- Hv. done.
Qed.

(** the flags are a map. After any calls of the routes that use no flag named keys, from a store
    without flags, reading a flag gives what was last written under its name (for a table and for a
    tournament under the name that holds its id), the listing gives exactly the flags that are set with
    their values, and a table may deal unless the flag of the house or its own is off. *)
Lemma flags_refine_map r0 cs :
  (∀ k, String.prefix prefix k = true → k_look k r0 = None) → Forall (λ c, (call_update c).1 ≠ "keys") cs →
  let F := flags_after cs in
  let r := flag_run cs r0 in
  (∀ k, k ≠ "keys" → (flag_get k r).1 = Ret (F !! k))
  ∧ (∃ l, (getAll r).1 = Ret l ∧ ∀ k, om_get k l = F !! k)
  ∧ ∀ t, (canDeal t r).1 = Ret (negb (bool_decide (F !! "dealing" = Some false))
                              && negb (bool_decide (F !! roomKey t "dealing" = Some false))).
Proof.
  intros H0 Hcs F r. assert (holds r F) as H.
  { apply holds_run; [done|]. assert (k_look keySet r0 = None) as Hs by by apply H0. split.
    - intros k _. by rewrite H0 by apply prefix_app.
    - by rewrite Hs.
    - intros y. rewrite Hs. cbn. split; [by intros ?%elem_of_nil | by intros (k & _ & [])].
    - intros k Hp [v Hv]. by rewrite H0 in Hv.
    - done. }
  split_and!.
  - intros k Hk. by rewrite (get_holds r F k).
  - destruct (getAll_holds r F H) as (l & -> & Hl). by exists l.
  - intros t. unfold canDeal, getRoom. rewrite bind_eq, (get_holds r F) by done. cbv beta iota.
    rewrite bind_eq, (get_holds r F) by done. reflexivity.
Qed.
End Refinement.

(** ** Concrete calls *)

Definition flag_calls0 : list flag_call :=
  [FlagSet "dealing" true; RoomSet "t1" "dealing" true; RoomSet "t1" "dealing" false; TourneySet "x" "rebuy" true;
   TourneyDelete "x" "rebuy"].
Definition flags0 : gmap string RedisValue := flag_run flag_calls0 ∅.

Lemma flags_refine_map_witness :
  (flag_get "room:t1:dealing" flags0).1 = Ret (Some false)
  ∧ (∃ l, (getAll flags0).1 = Ret l ∧ om_get "tourney:x:rebuy" l = None)
  ∧ (canDeal "t1" flags0).1 = Ret false ∧ (canDeal "t2" flags0).1 = Ret true.
Proof.
  destruct (flags_refine_map (∅ : gmap string RedisValue) flag_calls0) as (Hg & (l & Hl & Ho) & Hc).
  - intros k _. change (look0 k ∅ = None). unfold look0. by rewrite lookup_empty.
  - repeat constructor; done.
  - split; [exact (Hg "room:t1:dealing" ltac:(done))|]. split; [exists l; split; [exact Hl | by rewrite Ho]|].
    split; [exact (Hc "t1") | exact (Hc "t2")].
Defined.

(** A flag named keys is the set itself: the listing fails until it is deleted. *)
Lemma flag_named_keys_breaks_the_list :
  (getAll (flag_run [FlagSet "a" true; FlagSet "keys" true] (∅ : gmap string RedisValue))).1 = Throw "WRONGTYPE"
  ∧ (getAll (flag_run [FlagSet "a" true; FlagSet "keys" true; FlagDelete "keys"] (∅ : gmap string RedisValue))).1
    = Ret [("a", true)].
Proof. split; vm_compute; reflexivity. Qed.

(** Flags from before the set are listed only while the set is empty. *)
Lemma old_flags_disappear_from_the_list :
  let old : gmap string RedisValue := {[prefix +:+ "old" := RText "true"]} in
  (getAll old).1 = Ret [("old", true)] ∧ (getAll (flag_run [FlagSet "a" true] old)).1 = Ret [("a", true)]
  ∧ (flag_get "old" (flag_run [FlagSet "a" true] old)).1 = Ret (Some true).
Proof. split_and!; vm_compute; reflexivity. Qed.
