(* ===== verification/ClientSocket.v ===== *)
(** * The client's socket, and an action on its way to the gateway

    src/frontend/src/lib/socket-core.ts: the sockets of a page with their listeners,
    and [emitWithAck], which repeats a request until it is acknowledged. With the
    gateway of Gateway.v and a network that delays, repeats and loses messages, a
    request takes effect at most once. *)

From S2P Require Import Prelude Store SidePots StateMachine Engine Gateway GatewaySafety GatewayFrames.
#[local] Open Scope string_scope.
#[local] Open Scope list_scope.
#[local] Open Scope Z_scope.

(** ** Sockets and listeners *)

(** Handlers are told apart by their identity. *)
Definition handler := nat.
Record SocketEntry := {
  se_attached : list (string * handler);    (* [socket.on] *)
  se_listeners : list (string * handler) }. (* what the page remembers *)
Abbreviation sockets := (gmap string SocketEntry).

Definition socket_on (e : string) (h : handler) (l : list (string * handler)) : list (string * handler) := l ++ [(e, h)].
(** [socket.off(event, handler)] takes away one registration. *)
Fixpoint socket_off (e : string) (h : handler) (l : list (string * handler)) : list (string * handler) :=
  match l with
  | [] => []
  | x :: rest => if bool_decide (x = (e, h)) then rest else x :: socket_off e h rest
  end.
Fixpoint replace_first (e : string) (h : handler) (l : list (string * handler)) : list (string * handler) :=
  match l with
  | [] => []
  | (e', h') :: rest => if bool_decide (e' = e) then (e, h) :: rest else (e', h') :: replace_first e h rest
  end.

Definition listener_of (e : string) (l : list (string * handler)) : option handler :=
  snd <$> head (filter (λ p, p.1 = e) l).

Definition addListener (e : string) (h : handler) (s : SocketEntry) : SocketEntry :=
  match listener_of e (se_listeners s) with
  | Some h' =>
      if bool_decide (h' = h) then s
      else {| se_attached := socket_on e h (socket_off e h' (se_attached s));
              se_listeners := replace_first e h (se_listeners s) |}
  | None => {| se_attached := socket_on e h (se_attached s); se_listeners := se_listeners s ++ [(e, h)] |}
  end.

Record SocketOptions := {
  so_namespace : string; so_onConnect : option handler; so_onDisconnect : option handler; so_onError : option handler }.

Definition add_opt (e : string) (h : option handler) (s : SocketEntry) : SocketEntry :=
  from_option (λ h, addListener e h s) s h.

Definition getSocket (o : SocketOptions) (ss : sockets) : sockets :=
  let s := default {| se_attached := []; se_listeners := [] |} (ss !! so_namespace o) in
  let s := add_opt "connect" (so_onConnect o) s in
  let s := add_opt "disconnect" (so_onDisconnect o) s in
  let s := add_opt "connect_error" (so_onError o) (add_opt "error" (so_onError o) s) in
  <[so_namespace o := s]> ss.

(** The entry is forgotten, its socket without the listeners is what is left of it. *)
Definition disconnectSocket (ns : string) (ss : sockets) : sockets * list (string * handler) :=
  match ss !! ns with
  | Some s => (delete ns ss, foldl (λ l p, socket_off p.1 p.2 l) (se_attached s) (se_listeners s))
  | None => (ss, [])
  end.

(** The page's listeners are the ones attached, one for an event. *)
Definition in_step (s : SocketEntry) : Prop :=
  se_attached s ≡ₚ se_listeners s ∧ NoDup (se_listeners s).*1.

Lemma socket_off_perm e h l : (e, h) ∈ l → (e, h) :: socket_off e h l ≡ₚ l.
Proof.
  induction l as [|x l IH]; [by intros ?%elem_of_nil|]. cbn. case_bool_decide as E; [by subst|].
  intros [?|Hin]%elem_of_cons; [congruence|]. rewrite Permutation_swap. by rewrite IH.
Qed.

Lemma listener_of_Some e l h : NoDup l.*1 → listener_of e l = Some h ↔ (e, h) ∈ l.
Proof.
  unfold listener_of. induction l as [|[e' h'] l IH]; intros Hn.
  - split; [done | by intros ?%elem_of_nil].
  - rewrite fmap_cons, NoDup_cons in Hn. destruct Hn as [Hx Hn]. rewrite elem_of_cons. cbn in Hx.
    rewrite filter_cons. case_decide as E; cbn in *.
    + subst e'. split; [intros [= ->]; by left|]. intros [[= ->]|Hin]; [done|].
      destruct Hx. by apply (list_elem_of_fmap_2 fst) in Hin.
    + rewrite IH by done. split; [by right|]. intros [[= -> ->]|?]; done.
Qed.

Lemma listener_of_None e l : listener_of e l = None ↔ e ∉ l.*1.
Proof.
  unfold listener_of. rewrite fmap_None, head_None. split.
  - intros H Hin. apply list_elem_of_fmap in Hin as ([e' h] & -> & Hin).
    apply (not_elem_of_nil (e', h)). rewrite <- H. by apply list_elem_of_filter.
  - intros H. apply elem_of_nil_inv. intros [e' h] [Hp Hin]%list_elem_of_filter. cbn in Hp. subst e'.
    apply H. by apply (list_elem_of_fmap_2 fst) in Hin.
Qed.

Lemma replace_first_spec e h h' l : NoDup l.*1 → (e, h') ∈ l →
  (replace_first e h l).*1 = l.*1 ∧ replace_first e h l ≡ₚ (e, h) :: socket_off e h' l.
Proof.
  induction l as [|[e1 h1] l IH]; [by intros _ ?%elem_of_nil|]. rewrite fmap_cons, NoDup_cons. cbn [fst].
  intros [Hx Hn] Hin. cbn [replace_first socket_off]. case_bool_decide as E.
  - subst e1. apply elem_of_cons in Hin as [[= ->]|Hin].
    + rewrite bool_decide_eq_true_2 by done. done.
    + destruct Hx. by apply (list_elem_of_fmap_2 fst) in Hin.
  - rewrite bool_decide_eq_false_2 by congruence.
    apply elem_of_cons in Hin as [[= -> ->]|Hin]; [done|]. destruct (IH Hn Hin) as [H1 H2].
    split; [by rewrite fmap_cons, H1|]. rewrite H2. apply Permutation_swap.
Qed.

Lemma addListener_in_step e h s :
  in_step s → in_step (addListener e h s) ∧ listener_of e (se_listeners (addListener e h s)) = Some h
    ∧ ∀ e', e' ≠ e → listener_of e' (se_listeners (addListener e h s)) = listener_of e' (se_listeners s).
Proof.
  intros [Hp Hn]. unfold addListener. destruct (listener_of e (se_listeners s)) as [h'|] eqn:E.
  - case_bool_decide as Eh; [by subst|]. pose proof E as Hin. apply listener_of_Some in Hin; [|done].
    destruct (replace_first_spec e h h' _ Hn Hin) as [H1 H2].
    assert (NoDup (replace_first e h (se_listeners s)).*1) as Hn' by by rewrite H1.
    split_and!; cbn.
    + split; cbn; [|done]. unfold socket_on. rewrite H2.
      rewrite Permutation_app_comm. cbn. f_equiv.
      apply (Permutation_cons_inv (a := (e, h'))). rewrite !socket_off_perm; [done | done |]. by rewrite Hp.
    + apply listener_of_Some; [done|]. rewrite H2. by left.
    + intros e' He'. apply option_eq. intros h2. rewrite !listener_of_Some by done. rewrite H2, elem_of_cons.
      rewrite <- (socket_off_perm e h' (se_listeners s)) at 2 by done. rewrite elem_of_cons.
      split; intros [[= ??]|?]; try done; by right.
  - apply listener_of_None in E. split_and!; cbn.
    + split; cbn; [unfold socket_on; by rewrite Hp|]. rewrite fmap_app. apply NoDup_app. split_and!; [done| |].
      * cbn. intros x Hx ->%list_elem_of_singleton. done.
      * apply NoDup_singleton.
    + apply listener_of_Some; [|apply elem_of_app; right; by left].
      rewrite fmap_app. apply NoDup_app. split_and!; [done| |apply NoDup_singleton].
      intros x Hx ->%list_elem_of_singleton. done.
    + intros e' He'. unfold listener_of. rewrite filter_app, filter_cons_False by (cbn; congruence).
      by rewrite filter_nil, app_nil_r.
Qed.

Lemma add_opt_in_step e h s : in_step s → in_step (add_opt e h s).
Proof. intros Hs. destruct h as [h|]; [by apply addListener_in_step | done]. Qed.

(** However often a page asks for its sockets, each has one listener for an event, the last one given;
    the ones before are silently replaced. After [disconnectSocket] nothing is attached. *)
Lemma sockets_in_step (os : list SocketOptions) ns s :
  foldl (λ ss o, getSocket o ss) (∅ : sockets) os !! ns = Some s → in_step s.
Proof.
  revert ns s.
  apply (foldl_invariant (λ ss : sockets, ∀ ns s, ss !! ns = Some s → in_step s)).
  - intros ss o _ IH ns s. unfold getSocket. rewrite lookup_insert. case_decide as E; [|apply IH].
    intros [= <-]. do 4 apply add_opt_in_step. destruct (ss !! so_namespace o) as [s0|] eqn:E0; cbn.
    + by apply (IH (so_namespace o)).
    + split; [done | apply NoDup_nil_2].
  - intros ns s. by rewrite lookup_empty.
Qed.

Lemma disconnect_detaches s ss ns :
  ss !! ns = Some s → in_step s → disconnectSocket ns ss = (delete ns ss, []).
Proof.
  intros Hs [Hp _]. unfold disconnectSocket. rewrite Hs. f_equal. revert Hp. generalize (se_attached s).
  induction (se_listeners s) as [|[e h] l IH]; intros a Hp; cbn [foldl].
  - by apply Permutation_nil_r in Hp.
  - apply IH. apply (Permutation_cons_inv (a := (e, h))). rewrite <- Hp. apply socket_off_perm. rewrite Hp. by left.
Qed.

(** ** [emitWithAck] *)

Inductive Status := Waiting (deadline : Z) | Resolved | Rejected.
#[export] Instance Status_eq_dec : EqDecision Status.
Proof. solve_decision. Defined.

(** A request under way: the id it carries, its retries, attempts, messages emitted and promise. *)
Record Emission := { em_id : string; em_retries : nat; em_attempts : nat; em_sends : nat; em_status : Status }.

Definition baseDelay : Z := 2000.
Definition maxDelay : Z := 8000.
Definition delay_of (attempts : nat) : Z := Z.min (baseDelay * 2 ^ Z.of_nat attempts) maxDelay.

(** [send]: emit, and set the timer. *)
Definition send (now : Z) (attempts : nat) (e : Emission) : Emission :=
  {| em_id := em_id e; em_retries := em_retries e; em_attempts := attempts; em_sends := S (em_sends e);
     em_status := Waiting (now + delay_of attempts) |}.
Definition settle_with (st : Status) (e : Emission) : Emission :=
  {| em_id := em_id e; em_retries := em_retries e; em_attempts := em_attempts e; em_sends := em_sends e;
     em_status := st |}.

Definition emitWithAck (now : Z) (actionId : string) (retries : nat) : Emission :=
  send now 0 {| em_id := actionId; em_retries := retries; em_attempts := 0; em_sends := 0; em_status := Rejected |}.

(** The timer goes off. *)
Definition on_timer (now : Z) (e : Emission) : Emission :=
  match em_status e with
  | Waiting d =>
      if now <? d then e
      else if (em_attempts e <? em_retries e)%nat then send now (S (em_attempts e)) e
      else settle_with Rejected e
  | _ => e
  end.
(** An acknowledgement arrives; the handler is gone once the promise is settled. *)
Definition on_ack (actionId : string) (e : Emission) : Emission :=
  match em_status e with
  | Waiting _ => if bool_decide (actionId = em_id e) then settle_with Resolved e else e
  | _ => e
  end.

Inductive client_event := Timer (now : Z) | Ack (actionId : string).
Definition client_step (e : Emission) (ev : client_event) : Emission :=
  match ev with Timer now => on_timer now e | Ack id => on_ack id e end.

(** The time the first [n] waits take. *)
Fixpoint waits (n : nat) : Z := match n with O => 0 | S n => waits n + delay_of n end.

Definition emission_ok (t0 : Z) (e : Emission) : Prop :=
  (em_attempts e <= em_retries e)%nat ∧ em_sends e = S (em_attempts e).

Lemma emission_ok_step t0 e ev : emission_ok t0 e → emission_ok t0 (client_step e ev).
Proof.
  intros [Ha Hs]. destruct ev as [now|id]; cbn; unfold on_timer, on_ack; destruct (em_status e); try done.
  - destruct (now <? deadline); [done|]. destruct (Nat.ltb_spec (em_attempts e) (em_retries e)); [|done].
    unfold emission_ok, send. cbn. lia.
  - by case_bool_decide.
Qed.

Lemma settled_stays e ev : (∀ d, em_status e ≠ Waiting d) → client_step e ev = e.
Proof. intros H. destruct ev; cbn; unfold on_timer, on_ack; destruct (em_status e) eqn:E; try done; by destruct (H deadline). Qed.

(** a request ends. It is sent at most once more than it may be retried, whatever is acknowledged and
    whenever its timer goes off; and if every timer goes off on time, then after one firing more than the
    retries, at the latest when the waits of two, four and eight seconds at most are over, the promise is
    settled, and stays so. *)
Lemma request_ends t0 actionId retries evs :
  let e := foldl client_step (emitWithAck t0 actionId retries) evs in
  (em_sends e <= S retries)%nat
  ∧ (∀ fires, (∀ i, (i <= retries)%nat → fires !! i = Some (Timer (t0 + waits (S i)))) → length fires = S retries →
     em_status (foldl client_step (emitWithAck t0 actionId retries) fires) = Rejected)
  ∧ ((∀ d, em_status e ≠ Waiting d) → ∀ evs', foldl client_step e evs' = e).
Proof.
  cbv zeta. split_and!.
  - assert (emission_ok t0 (foldl client_step (emitWithAck t0 actionId retries) evs)
            ∧ em_retries (foldl client_step (emitWithAck t0 actionId retries) evs) = retries) as [[Ha Hs] Hr].
    { apply (foldl_invariant (λ e, emission_ok t0 e ∧ em_retries e = retries)).
      - intros e ev _ [He Hr]. split; [by apply emission_ok_step|]. rewrite <- Hr.
        destruct ev; cbn; unfold on_timer, on_ack; repeat case_match; done.
      - split; [|done]. split; cbn; lia. }
    lia.
  - intros fires Hf Hl.
    assert (∀ k, (k <= retries)%nat → foldl client_step (emitWithAck t0 actionId retries) (take k fires) =
      {| em_id := actionId; em_retries := retries; em_attempts := k; em_sends := S k;
         em_status := Waiting (t0 + waits (S k)) |}) as H.
    { induction k as [|k IH]; intros Hk; [reflexivity|].
      rewrite (take_S_r _ _ _ (Hf k ltac:(lia))), foldl_app, IH by lia. cbn [foldl client_step]. unfold on_timer.
      cbn [em_status em_attempts em_retries]. rewrite Z.ltb_irrefl.
      destruct (Nat.ltb_spec k retries); [|lia]. unfold send. cbn -[waits delay_of Z.add]. f_equal. f_equal. cbn. lia. }
    rewrite <- (take_ge fires (S retries)) by lia. rewrite (take_S_r _ _ _ (Hf retries ltac:(lia))), foldl_app, H by lia.
    cbn [foldl client_step]. unfold on_timer. cbn [em_status em_attempts em_retries].
    by rewrite Z.ltb_irrefl, Nat.ltb_irrefl.
  - intros Hd. induction evs' as [|ev evs' IH]; [done|]. cbn [foldl]. by rewrite settled_stays.
Qed.

Lemma filter_two {A} (P : A → Prop) `{!∀ x, Decision (P x)} l x y rest :
  filter P l = x :: y :: rest → ∃ i j, (i < j)%nat ∧ l !! i = Some x ∧ l !! j = Some y.
Proof.
  intros Hf. induction l as [|z l IH]; [done|]. rewrite filter_cons in Hf. case_decide.
  - injection Hf as -> Hf. assert (y ∈ l) as [j Hj]%list_elem_of_lookup.
    { apply (list_elem_of_filter P). rewrite Hf. by left. }
    exists 0%nat, (S j). split_and!; [lia | done | done].
  - destruct (IH Hf) as (i & j & Hij & Hi & Hj). exists (S i), (S j). split_and!; [lia | done | done].
Qed.

(** ** With the gateway and a network *)

Section Network.
Context {R H : Type} `{!RedisOps R Cached} `{!RedisHashOps H Z, !RedisHashLaws H Z}.
Context (env : GatewayEnv) (c : Client) (payload : RawAction).

Record World := {
  wo_em : Emission;
  wo_up : nat;                                   (* copies the network has taken, any of which may arrive *)
  wo_gw : GameGateway (R := R) (H := H) }.

(** What may happen next: a timer of the page; one of the copies sent so far arrives, for the first time
    or again; an acknowledgement the gateway sent arrives; the gateway does something else. A copy that
    never arrives is lost. *)
Inductive world_event := WTimer (now : Z) | WArrive (copy : nat) | WAck (frame : nat) | WOther (op : GatewayOp).

Definition ack_in (frame : nat) (g : GameGateway (R := R) (H := H)) : option string :=
  match ob_sent (gw_out g) !! frame with
  | Some (client, _, FAck "action:ack" id _) => if bool_decide (client = cl_id c) then Some id else None
  | _ => None
  end.

Definition world_step (w : World) (ev : world_event) : World :=
  match ev with
  | WTimer now =>
      let e := on_timer now (wo_em w) in {| wo_em := e; wo_up := em_sends e; wo_gw := wo_gw w |}
  | WArrive copy =>
      if (copy <? wo_up w)%nat
      then {| wo_em := wo_em w; wo_up := wo_up w;
              wo_gw := gateway_step env (OpAction c payload (em_id (wo_em w))) (wo_gw w) |}
      else w
  | WAck frame =>
      {| wo_em := from_option (λ id, on_ack id (wo_em w)) (wo_em w) (ack_in frame (wo_gw w));
         wo_up := wo_up w; wo_gw := wo_gw w |}
  | WOther op => {| wo_em := wo_em w; wo_up := wo_up w; wo_gw := gateway_step env op (wo_gw w) |}
  end.
Definition world_run (evs : list world_event) (w : World) : World := foldl world_step w evs.

(** Nobody else uses the id: it was drawn at random. *)
Definition others_id (id : string) (ev : world_event) : Prop :=
  match ev with WOther (OpAction _ _ id') => id' ≠ id | _ => True end.

Definition own_event (id : string) (ev : GameEvent) : Prop :=
  ev_actionId ev = id → ev_client ev = cl_id c ∧ parse_action payload = Ret (ev_table ev, ev_action ev).

Record world_ok (id : string) (w : World) : Prop := {
  wk_id : em_id (wo_em w) = id;
  wk_ids : ids_ok env (wo_gw w);
  wk_own : Forall (own_event id) (st_events (gw_store (wo_gw w))) }.

(** The events of an operation: none, or the one of the action it carries. *)
Lemma events_step op (g : GameGateway (R := R) (H := H)) :
  st_events (gw_store (gateway_step env op g)) = st_events (gw_store g)
  ∨ ∃ c' raw id t a, op = OpAction c' raw id ∧ parse_action raw = Ret (t, a)
    ∧ st_events (gw_store (gateway_step env op g)) = st_events (gw_store g)
        ++ [{| ev_client := cl_id c'; ev_table := t; ev_action := a; ev_actionId := id; ev_time := gw_now g |}].
Proof.
  pose proof (step_tables env op g) as Hst.
  destruct op as [c' raw id|c' ev id| | | | | | | | | | ]; try (left; unfold tail, tables in Hst; congruence).
  - cbn [gateway_step]. destruct (handleAction_cases env c' raw id g) as (_ & _ & [Ht|(t & a & Hp & _ & _ & _ & Hcase)]).
    + left. unfold tables in Ht. congruence.
    + destruct Hcase as [[_ ->]|(e & _ & _ & _ & Hs)]; [by left|]. unfold table_step in Hs.
      destruct (applyAction (ge_sha256 env) a e) as [[s|x] e']; destruct Hs as [_ ->]; [|by left].
      right. by exists c', raw, id, t, a.
  - left. by destruct (handleSeat_cases env c' ev id g) as (_ & _ & Hv & _).
  - by left.
  - by left.
  - by left.
Qed.

Lemma world_ok_step id w ev : others_id id ev → world_ok id w → world_ok id (world_step w ev).
Proof.
  intros Ho [Hid Hi Hown]. destruct ev as [now|copy|frame|op]; cbn [world_step].
  - split; cbn; [|done|done]. unfold on_timer. by repeat case_match.
  - destruct (copy <? wo_up w)%nat; [|by split]. split; cbn -[gateway_step]; [done | by apply ids_ok_step|].
    destruct (events_step (OpAction c payload (em_id (wo_em w))) (wo_gw w)) as [->|(c' & raw & id' & t & a & E & Hp & ->)]; [done|].
    apply Forall_app. split; [done|]. constructor; [|done]. injection E as <- <- <-. by intros _.
  - split; cbn; [|done|done]. destruct (ack_in frame (wo_gw w)); cbn; [|done]. unfold on_ack. by repeat case_match.
  - split; cbn -[gateway_step]; [done | by apply ids_ok_step|].
    destruct (events_step op (wo_gw w)) as [->|(c' & raw & id' & t & a & -> & Hp & ->)]; [done|].
    apply Forall_app. split; [done|]. constructor; [|done]. cbn in Ho. by intros ?.
Qed.

(** The page sends as often as it may retry, and once more. *)
Lemma world_sends evs w :
  emission_ok 0 (wo_em w) → (em_sends (wo_em (world_run evs w)) <= S (em_retries (wo_em w)))%nat.
Proof.
  intros Hw. assert (emission_ok 0 (wo_em (world_run evs w))
    ∧ em_retries (wo_em (world_run evs w)) = em_retries (wo_em w)) as [[Ha Hs] Hr]; [|lia].
  apply (foldl_invariant (λ w', emission_ok 0 (wo_em w') ∧ em_retries (wo_em w') = em_retries (wo_em w))); [|by split].
  intros w' ev _ [He Hr]. rewrite <- Hr. destruct ev as [now|copy|frame|op]; cbn [world_step].
  - split; [by apply (emission_ok_step 0 _ (Timer now))|]. cbn. unfold on_timer. by repeat case_match.
  - by destruct (copy <? wo_up w')%nat.
  - cbn. destruct (ack_in frame (wo_gw w')) as [i|]; [|by split].
    split; [by apply (emission_ok_step 0 _ (Ack i))|]. cbn. unfold on_ack. by repeat case_match.
  - by split.
Qed.

(** A promise is resolved by an acknowledgement that the gateway has sent. *)
Lemma resolved_by_ack evs w :
  (∃ d, em_status (wo_em w) = Waiting d) → em_status (wo_em (world_run evs w)) = Resolved →
  ∃ evs1 frame evs2, evs = evs1 ++ WAck frame :: evs2
    ∧ ack_in frame (wo_gw (world_run evs1 w)) = Some (em_id (wo_em (world_run evs1 w))).
Proof.
  intros [d Hd]. induction evs as [|ev evs IH] using rev_ind; [cbn; congruence|].
  unfold world_run. rewrite foldl_app. cbn [foldl]. fold (world_run evs w). intros Hr.
  destruct (decide (em_status (wo_em (world_run evs w)) = Resolved)) as [E|E].
  { destruct (IH E) as (evs1 & f & evs2 & -> & Hf). exists evs1, f, (evs2 ++ [ev]). by rewrite <- app_assoc. }
  destruct ev as [now|copy|frame|op]; cbn [world_step] in Hr.
  - cbn in Hr. unfold on_timer in Hr. repeat case_match; cbn in Hr; congruence.
  - by destruct (copy <? wo_up (world_run evs w))%nat.
  - exists evs, frame, []. split; [done|]. cbn in Hr. destruct (ack_in frame _) as [i|]; [|by destruct E]. cbn in Hr.
    unfold on_ack in Hr. destruct (em_status (wo_em (world_run evs w))) eqn:Es; [|congruence|congruence].
    case_bool_decide as Hi; [by rewrite Hi|]. rewrite Es in Hr. done.
  - done.
Qed.

(** C11: an action takes effect at most once. A page emits an action under a fresh id; its copies, retries
    included, may be lost, delayed, overtake each other or arrive twice, among anything else clients and
    time do to the gateway, whose handlers run one after the other (when two overlap, both apply it:
    [overlapping_duplicates_both_applied]). As long as a day has not passed, the gateway has applied it at
    most once, and if at all, as the action the payload says, at the table it says, for this client. The page
    sends it once more than it may retry at most; and its promise is resolved only by an acknowledgement of this
    id that the gateway had sent to this client when it arrived. *)
Theorem emitted_action_applied_once g0 id retries now evs :
  st_events (gw_store g0) = [] → Forall (others_id id) evs →
  let e0 := emitWithAck now id retries in
  let w0 := {| wo_em := e0; wo_up := em_sends e0; wo_gw := g0 |} in
  let w := world_run evs w0 in
  let applied := filter (λ ev, ev_actionId ev = id) (st_events (gw_store (wo_gw w))) in
  (∀ ev, ev ∈ applied → ev_client ev = cl_id c ∧ parse_action payload = Ret (ev_table ev, ev_action ev))
  ∧ (gw_now (wo_gw w) < (match applied with ev :: _ => ev_time ev | [] => 0 end) + actionRetentionMs →
     (length applied <= 1)%nat)
  ∧ (em_sends (wo_em w) <= S retries)%nat
  ∧ (em_status (wo_em w) = Resolved →
     ∃ evs1 frame evs2, evs = evs1 ++ WAck frame :: evs2 ∧ ack_in frame (wo_gw (world_run evs1 w0)) = Some id).
Proof.
  intros H0 Hevs e0 w0 w applied.
  assert (∀ evs, Forall (others_id id) evs → world_ok id (world_run evs w0)) as Hok.
  { intros evs' Hevs'. apply (foldl_invariant (world_ok id)).
    - intros w' ev Hev. apply world_ok_step. rewrite Forall_forall in Hevs'. by apply Hevs'.
    - split; cbn -[ids_ok]; [done | by apply ids_ok_start | by rewrite H0]. }
  pose proof (Hok evs Hevs) as [_ [Hpast _ Hsp] Hown]. fold w in Hpast, Hsp, Hown. split_and!.
  - intros ev [Hid Hin]%list_elem_of_filter. rewrite Forall_forall in Hown. by apply Hown.
  - destruct applied as [|e1 [|e2 l]] eqn:Ea; cbn; try lia. intros Ht. exfalso.
    destruct (filter_two _ _ e1 e2 l Ea) as (i & j & Hij & Hi & Hj).
    assert (ev_actionId e1 = id ∧ ev_actionId e2 = id) as [E1 E2].
    { assert (e1 ∈ applied ∧ e2 ∈ applied) as [[? _]%list_elem_of_filter [? _]%list_elem_of_filter] by (rewrite Ea; set_solver). done. }
    pose proof (Hsp i j e1 e2 Hij Hi Hj ltac:(congruence)).
    pose proof (Hpast e2 (list_elem_of_lookup_2 _ _ _ Hj)). lia.
  - apply world_sends. split; cbn; lia.
  - intros (evs1 & f & evs2 & E & Hf)%resolved_by_ack; [|by eexists]. exists evs1, f, evs2. split; [done|].
    rewrite Hf. f_equal. apply (wk_id id). apply Hok. rewrite E in Hevs. by apply Forall_app in Hevs as [? _].
Qed.
End Network.

(** ** A lossy network *)

(** The action is sent three times; its copies arrive late, the first one last and twice. *)
Definition lossy : list world_event :=
  [WTimer 3000; WArrive 1; WTimer 7000; WArrive 2; WOther (OpDeliver "s1"); WArrive 0; WArrive 0; WOther (OpPass 60000);
   WArrive 2; WOther (OpDeliver "s1"); WOther (OpDeliver "s1"); WAck 1; WAck 2].
Definition started : DemoGateway := gateway_run gateway_env opening empty_gateway.
Definition world0 : World (R := map_redis Cached) (H := gmap string Z) :=
  {| wo_em := emitWithAck 1000 "x" 2; wo_up := em_sends (emitWithAck 1000 "x" 2); wo_gw := started |}.
Definition world1 := world_run gateway_env client_a blind_a lossy world0.

Lemma emitted_action_applied_once_witness :
  em_status (wo_em world1) = Resolved ∧ em_sends (wo_em world1) = 3%nat
  ∧ st_events (gw_store (wo_gw world1)) = [blind_event 1000]
  ∧ (length (filter (λ ev, ev_actionId ev = "x") (st_events (gw_store (wo_gw world1)))) <= 1)%nat.
Proof.
  split; [vm_compute; reflexivity|]. split; [vm_compute; reflexivity|]. split; [vm_compute; reflexivity|].
  refine (proj1 (proj2 (emitted_action_applied_once gateway_env client_a blind_a started "x" 2 1000 lossy eq_refl _)) _).
  - repeat constructor.
  - vm_compute. reflexivity.
Defined.

Lemma request_ends_witness :
  em_status (foldl client_step (emitWithAck 1000 "x" 1) [Timer 3000; Timer 7000]) = Rejected
  ∧ em_sends (foldl client_step (emitWithAck 1000 "x" 1) [Timer 3000; Timer 7000]) = 2%nat.
Proof.
  split; [|reflexivity]. apply (request_ends 1000 "x" 1 []); [|reflexivity].
  intros [|[|i]] Hi; [reflexivity | reflexivity | lia].
Defined.
