(* ===== verification/Consumers.v ===== *)
(** * Consumers: notifications, and deposits shown to administrators

    backend/src/notifications (notifications.listener.ts, notifications.service.ts)
    and backend/src/wallet/admin-deposit.gateway.ts. The listener reads one message
    after the other from Kafka, which keeps the offset it committed; the process may
    stop between any two awaits and start again from there. *)

From S2P Require Import Prelude Store JsText Auth AuthSafety Schemas AuditLog.
#[local] Open Scope string_scope.
#[local] Open Scope list_scope.
#[local] Open Scope Z_scope.

(** ** Notifications *)

Record Notification := {
  nt_id : string; nt_userId : string; nt_type : string; nt_title : string; nt_message : string; nt_read : bool }.
#[export] Instance Notification_entity : Entity Notification := { row_id := nt_id; row_clash _ _ := false }.

Section Listener.
Context {ZO : ZodOps} {T : Type → Type} `{!TableOps T} (uuid : nat → string).
(** The messages of the partition; one may have no value. *)
Context (partition : list (option text)).

Inductive Phase := Ready | Committing (raw : text) | Failed (raw : text).
Record ListenerState := {
  ns_phase : Phase; ns_position : nat; ns_committed : option nat;
  ns_table : T Notification; ns_dead : list text; ns_ids : nat }.

Definition with_phase (p : Phase) (s : ListenerState) : ListenerState :=
  {| ns_phase := p; ns_position := ns_position s; ns_committed := ns_committed s; ns_table := ns_table s;
     ns_dead := ns_dead s; ns_ids := ns_ids s |}.
Definition next_message (s : ListenerState) : ListenerState :=
  {| ns_phase := Ready; ns_position := S (ns_position s); ns_committed := ns_committed s; ns_table := ns_table s;
     ns_dead := ns_dead s; ns_ids := ns_ids s |}.
Definition on_table (f : T Notification → T Notification) (s : ListenerState) : ListenerState :=
  {| ns_phase := ns_phase s; ns_position := ns_position s; ns_committed := ns_committed s; ns_table := f (ns_table s);
     ns_dead := ns_dead s; ns_ids := ns_ids s |}.

(** [NotificationCreateEvent.parse(JSON.parse(text))], and once more in [handleEvent]. *)
Definition parse_notification (raw : text) : option (list (string * jsval)) :=
  match json_parse raw with
  | Ret v =>
      match z_parse NotificationCreateEvent v with
      | Some p => match z_parse NotificationCreateEvent p with Some (VObj fs) => Some fs | _ => None end
      | None => None
      end
  | Throw _ => None
  end.

Definition notification_of (id : string) (fs : list (string * jsval)) : Notification :=
  {| nt_id := id; nt_userId := string_of_val (field "userId" fs); nt_type := string_of_val (field "type" fs);
     nt_title := string_of_val (field "type" fs); nt_message := string_of_val (field "message" fs); nt_read := false |}.

(** What happens next: the message at the position is taken, and its row saved or not; the offset is
    committed or not; the text goes to the dead letters or, without Redis, nowhere; the process starts
    again, where a group that never committed begins at the [latest] offset; users read. *)
Inductive listener_event :=
| NDeliver (saves : bool) | NCommit (commits : bool) | NDead (pushes : bool) | NRestart (latest : nat)
| NMarkRead (id userId : string) | NMarkAllRead (userId : string).

(** An empty text is falsy. *)
Definition text_empty (t : text) : bool := match t with TRaw s => bool_decide (s = "") | TJson _ => false end.

(** notifications.service.ts *)
Definition set_read (n : Notification) : Notification :=
  {| nt_id := nt_id n; nt_userId := nt_userId n; nt_type := nt_type n; nt_title := nt_title n;
     nt_message := nt_message n; nt_read := true |}.
Definition markAllRead (userId : string) (t : T Notification) : T Notification :=
  update_where (λ n, bool_decide (nt_userId n = userId)) set_read t.
Definition markRead (id userId : string) (t : T Notification) : T Notification :=
  update_where (λ n, bool_decide (nt_id n = id ∧ nt_userId n = userId)) set_read t.
Definition countUnread (userId : string) (t : T Notification) : nat :=
  length (find_rows (λ n, bool_decide (nt_userId n = userId) && negb (nt_read n)) t).

Definition listen_step (s : ListenerState) (ev : listener_event) : ListenerState :=
  match ev with
  | NDeliver saves =>
      match ns_phase s, partition !! ns_position s with
      | Ready, Some None => next_message s
      | Ready, Some (Some raw) =>
          match parse_notification raw with
          | Some fs =>
              if saves then
                {| ns_phase := Committing raw; ns_position := ns_position s; ns_committed := ns_committed s;
                   ns_table := save_row (notification_of (uuid (ns_ids s)) fs) (ns_table s);
                   ns_dead := ns_dead s; ns_ids := S (ns_ids s) |}
              else with_phase (Failed raw) s
          | None => with_phase (Failed raw) s
          end
      | _, _ => s
      end
  | NCommit commits =>
      match ns_phase s with
      | Committing raw =>
          if commits then
            {| ns_phase := Ready; ns_position := S (ns_position s); ns_committed := Some (S (ns_position s));
               ns_table := ns_table s; ns_dead := ns_dead s; ns_ids := ns_ids s |}
          else with_phase (Failed raw) s
      | _ => s
      end
  | NDead pushes =>
      match ns_phase s with
      | Failed raw =>
          if negb (text_empty raw) && pushes then
            {| ns_phase := Ready; ns_position := S (ns_position s); ns_committed := ns_committed s;
               ns_table := ns_table s; ns_dead := raw :: ns_dead s; ns_ids := ns_ids s |}
          else next_message s
      | _ => s
      end
  | NRestart latest =>
      {| ns_phase := Ready; ns_position := default latest (ns_committed s); ns_committed := ns_committed s; ns_table := ns_table s;
         ns_dead := ns_dead s; ns_ids := ns_ids s |}
  | NMarkRead id u => on_table (markRead id u) s
  | NMarkAllRead u => on_table (markAllRead u) s
  end.
Definition listen (evs : list listener_event) (s : ListenerState) : ListenerState := foldl listen_step s evs.

Context {ZL : ZodLaws} `{!TableLaws T}.

(** A text is stored when some row says what it says. *)
Definition says (fs : list (string * jsval)) (n : Notification) : Prop :=
  nt_userId n = string_of_val (field "userId" fs) ∧ nt_type n = string_of_val (field "type" fs)
  ∧ nt_message n = string_of_val (field "message" fs).
Definition stored (t : T Notification) (raw : text) : Prop :=
  ∃ fs n, parse_notification raw = Some fs ∧ n ∈ rows t ∧ says fs n.
Definition accounted (s : ListenerState) (raw : text) : Prop :=
  text_empty raw = true ∨ stored (ns_table s) raw ∨ raw ∈ ns_dead s.

Record listener_ok (s : ListenerState) : Prop := {
  lo_committed : ∃ c, ns_committed s = Some c ∧ (c <= ns_position s)%nat;
  lo_behind i raw : (i < ns_position s)%nat → partition !! i = Some (Some raw) → accounted s raw;
  lo_phase : match ns_phase s with
             | Ready => True
             | Committing raw => partition !! ns_position s = Some (Some raw) ∧ stored (ns_table s) raw
             | Failed raw => partition !! ns_position s = Some (Some raw)
             end;
  lo_ids n : n ∈ rows (ns_table s) → ∃ i, (i < ns_ids s)%nat ∧ nt_id n = uuid i }.

Context (uuid_inj : Inj (=) (=) uuid).

Lemma stored_save (t : T Notification) n raw :
  (∀ m, m ∈ rows t → nt_id m ≠ nt_id n) → stored t raw → stored (save_row n t) raw.
Proof.
  intros Hn (fs & m & Hp & Hm & Hs). exists fs, m. split_and!; [done| |done].
  rewrite rows_save, elem_of_cons, list_elem_of_filter. right. split; [by apply Hn | done].
Qed.

Lemma stored_update (t : T Notification) p raw : stored t raw → stored (update_where p set_read t) raw.
Proof.
  intros (fs & m & Hp & Hm & Hs). exists fs, (if p m then set_read m else m). split_and!; [done| |].
  - rewrite rows_update. by apply (list_elem_of_fmap_2 (λ r, if p r then set_read r else r)).
  - by destruct (p m).
Qed.

Lemma accounted_later s s' raw :
  (∀ r, stored (ns_table s) r → stored (ns_table s') r) → (∀ r, r ∈ ns_dead s → r ∈ ns_dead s') →
  accounted s raw → accounted s' raw.
Proof. unfold accounted. naive_solver. Qed.

Lemma update_ok s p : listener_ok s → listener_ok (on_table (update_where p set_read) s).
Proof.
  intros [Hc Hb Hp Hi]. split; cbn; [done| | |].
  - intros i raw Hlt Hr. apply (accounted_later s); [intros r; apply stored_update | done | by apply (Hb i)].
  - destruct (ns_phase s); [done| |done]. split; [apply Hp | apply stored_update, Hp].
  - intros n. rewrite rows_update. intros (m & -> & Hm)%list_elem_of_fmap. destruct (Hi m Hm) as (i & Hlt & E).
    exists i. split; [done|]. by destruct (p m).
Qed.

(** A message that is accounted for is left behind. *)
Lemma leave_ok s s' raw :
  listener_ok s → ns_phase s' = Ready → ns_position s' = S (ns_position s) →
  (∃ c, ns_committed s' = Some c ∧ (c <= S (ns_position s))%nat) →
  ns_table s' = ns_table s → ns_ids s' = ns_ids s → (∀ r, r ∈ ns_dead s → r ∈ ns_dead s') →
  partition !! ns_position s = Some raw → from_option (accounted s') True raw → listener_ok s'.
Proof.
  intros [Hc Hb _ Hi] E1 E2 Hc' E3 E4 Hd Hm Hraw. split.
  - by rewrite E2.
  - intros i r Hlt Hr. rewrite E2 in Hlt. destruct (decide (i = ns_position s)) as [->|].
    + by simplify_eq.
    + apply (accounted_later s); [by rewrite E3 | done | apply (Hb i); [lia | done]].
  - by rewrite E1.
  - rewrite E3, E4. done.
Qed.

Definition pushes_work (ev : listener_event) : Prop := match ev with NDead b => b = true | _ => True end.

Lemma deliver_ok s saves : listener_ok s → listener_ok (listen_step s (NDeliver saves)).
Proof.
  intros Hok. pose proof Hok as [Hc Hb Hp Hi]. cbn [listen_step].
  destruct (ns_phase s) eqn:Eph; [|exact Hok|exact Hok].
  destruct (partition !! ns_position s) as [[raw|]|] eqn:Em; [| |exact Hok].
  - assert (listener_ok (with_phase (Failed raw) s)) as Hf by (split; done).
    destruct (parse_notification raw) as [fs|] eqn:Ep; [|exact Hf]. destruct saves; [|exact Hf].
    set (n := notification_of (uuid (ns_ids s)) fs).
    assert (∀ m, m ∈ rows (ns_table s) → nt_id m ≠ nt_id n) as Hfresh.
    { intros m Hm E. destruct (Hi m Hm) as (i & Hlt & E'). rewrite E' in E. apply (inj uuid) in E. lia. }
    split; cbn; [done| | |].
    + intros i r Hlt Hr. apply (accounted_later s); [intros r'; by apply stored_save | done | by apply (Hb i)].
    + split; [done|]. exists fs, n. split_and!; [done| |by split_and!]. rewrite rows_save. by left.
    + intros m. rewrite rows_save, elem_of_cons, list_elem_of_filter. intros [->|[_ Hm]].
      * exists (ns_ids s). split; [lia | done].
      * destruct (Hi m Hm) as (i & Hlt & E). exists i. split; [lia | done].
  - destruct Hc as (c & Ec & Hle). apply (leave_ok s _ None); try done. exists c. split; [done | lia].
Qed.

Lemma listen_step_ok s ev : pushes_work ev → listener_ok s → listener_ok (listen_step s ev).
Proof.
  intros Hev Hok. destruct ev as [saves|commits|pushes|latest|id u|u];
    [by apply deliver_ok| | | |by apply update_ok|by apply update_ok];
    pose proof Hok as [(c & Ec & Hle) Hb Hp Hi]; cbn [listen_step].
  - destruct (ns_phase s) as [|raw|raw] eqn:Eph; [exact Hok| |exact Hok].
    destruct Hp as [Hm Hst]. destruct commits; [|split; cbn; eauto].
    apply (leave_ok s _ (Some raw)); try done; [eexists; split; [done | lia] | by right; left].
  - destruct (ns_phase s) as [|raw|raw] eqn:Eph; [exact Hok|exact Hok|]. cbn in Hev. subst pushes.
    rewrite andb_true_r. destruct (text_empty raw) eqn:Ee; cbn [negb].
    all: apply (leave_ok s _ (Some raw)); try done; [exists c; split; [done | lia] | | ..].
    + by left.
    + intros r Hr. by right.
    + right; right. by left.
  - rewrite Ec. split; cbn; [by exists c| |done|done]. intros i r Hlt. apply (Hb i r). lia.
Qed.

Definition listener_start (committed : option nat) (t : T Notification) : ListenerState :=
  {| ns_phase := Ready; ns_position := 0; ns_committed := committed; ns_table := t; ns_dead := []; ns_ids := 0 |}.

(** C39: No notification is lost. Whatever messages arrive, saves and commits fail, users read, and wherever
    the process stops and starts again, as long as the group has an offset and the dead letters can be
    written: every message with a text before the position is in the table, read or unread, or among the
    dead letters; and the offset Kafka holds never passes the position. *)
Theorem no_notification_is_lost t0 evs :
  rows t0 = [] → Forall pushes_work evs →
  let s := listen evs (listener_start (Some 0%nat) t0) in
  (∃ c, ns_committed s = Some c ∧ (c <= ns_position s)%nat)
  ∧ ∀ i raw, (i < ns_position s)%nat → partition !! i = Some (Some raw) → text_empty raw = false →
    stored (ns_table s) raw ∨ raw ∈ ns_dead s.
Proof.
  intros H0 Hevs s. assert (listener_ok s) as [Hc Hb _ _].
  - apply (foldl_invariant listener_ok).
    + intros s' ev Hev. apply listen_step_ok. rewrite Forall_forall in Hevs. by apply Hevs.
    + split; cbn; [by exists 0%nat|lia|done|]. intros n. rewrite H0. by intros ?%elem_of_nil.
  - split; [done|]. intros i raw Hlt Hr He. destruct (Hb i raw Hlt Hr) as [E|]; [by rewrite E in He | done].
Qed.

(** Before the first commit a restart may pass over messages nobody has seen. *)
Lemma first_messages_can_be_skipped t0 latest :
  ns_position (listen [NRestart latest] (listener_start None t0)) = latest.
Proof. done. Qed.

(** *** The service *)

Lemma length_filter_update (p q : Notification → bool) f (t : T Notification) :
  length (find_rows q (update_where p f t)) = length (filter (λ n, q (if p n then f n else n)) (rows t)).
Proof.
  unfold find_rows. rewrite (Permutation_length (filter_Permutation _ _ _ (rows_update p f t))).
  induction (rows t) as [|n l IH]; [done|]. rewrite fmap_cons, !filter_cons. repeat case_decide; cbn; congruence.
Qed.

(** [countUnread] after [markAllRead]: nothing for the user, and for the others what was there. *)
Lemma markAllRead_spec u u' (t : T Notification) :
  countUnread u' (markAllRead u t) = if decide (u' = u) then 0%nat else countUnread u' t.
Proof.
  unfold countUnread, markAllRead. rewrite length_filter_update. unfold find_rows.
  induction (rows t) as [|n l IH]; [by case_decide|]. rewrite !filter_cons.
  destruct (bool_decide_reflect (nt_userId n = u)) as [E1|E1]; cbn [nt_userId nt_read set_read];
    destruct (bool_decide_reflect (nt_userId n = u')) as [E2|E2]; cbn [andb negb];
    try (rewrite decide_False by done; exact IH); repeat case_decide; cbn; try congruence; try done.
  all: destruct (nt_read n); cbn in *; congruence.
Qed.
End Listener.

(** ** Deposits shown to administrators *)

(** [validateEvent] of backend/src/events: a name without schema passes everything. *)
Definition validateEvent `{!ZodOps} (name : string) (payload : jsval) : option jsval :=
  match event_schema name with None => Some payload | Some sch => z_parse sch payload end.

Section Deposits.
Context {ZO : ZodOps} (C : Crypto) (cfg : AuthConfig).

(** [handleConnection]: the user the socket is connected for. *)
Definition handleConnection (header : option string) (now : Z) : option string :=
  match header with
  | Some h =>
      if String.prefix "Bearer " h then
        let token := String.substring 7 (String.length h - 7) h in
        match verifyAccessToken C cfg token now with
        | None | Some "" => None
        | Some userId =>
            match first_valid C (jwtSecrets cfg) token now with
            | Some p => if p_admin p then Some userId else None
            | None => None
            end
        end
      else None
  | None => None
  end.

Definition frame_name (topic : string) : option string :=
  if bool_decide (topic = "admin.deposit.pending") then Some "deposit.pending"
  else if bool_decide (topic = "admin.deposit.rejected") then Some "deposit.rejected"
  else if bool_decide (topic = "admin.deposit.confirmed") then Some "deposit.confirmed"
  else None.

(** [eachMessage]: the frame all sockets of the namespace receive. *)
Definition eachMessage (topic : string) (value : option text) : option (string * jsval) :=
  match value, frame_name topic with
  | Some raw, Some name =>
      match json_parse raw with
      | Ret v =>
          payload ← validateEvent topic v;
          payload' ← validateEvent topic payload;
          Some (name, payload')
      | Throw _ => None
      end
  | _, _ => None
  end.

Inductive deposit_event :=
| DConnect (sid : nat) (header : option string) (now : Z)
| DLeave (sid : nat)
| DMessage (topic : string) (value : option text).

(** The sockets of the namespace with [client.data.userId], and what was emitted to each. *)
Record AdminNamespace := { an_sockets : list (nat * string); an_frames : list (nat * (string * jsval)) }.
Definition deposit_step (s : AdminNamespace) (ev : deposit_event) : AdminNamespace :=
  match ev with
  | DConnect sid header now =>
      match handleConnection header now with
      | Some u => {| an_sockets := (sid, u) :: an_sockets s; an_frames := an_frames s |}
      | None => s
      end
  | DLeave sid => {| an_sockets := filter (λ p, p.1 ≠ sid) (an_sockets s); an_frames := an_frames s |}
  | DMessage topic value =>
      match eachMessage topic value with
      | Some f => {| an_sockets := an_sockets s; an_frames := an_frames s ++ ((λ p, (p.1, f)) <$> an_sockets s) |}
      | None => s
      end
  end.
Definition deposits (evs : list deposit_event) : AdminNamespace :=
  foldl deposit_step {| an_sockets := []; an_frames := [] |} evs.

(** A socket is let in exactly when the two guards of the HTTP routes would let the request pass. *)
Lemma admits_like_the_guards header now u :
  handleConnection header now = Some u ↔
  auth_guard C cfg header now = Ret u ∧ ∃ v, admin_guard C cfg header now = Ret v.
Proof.
  unfold handleConnection, auth_guard, admin_guard, extractBearerToken.
  destruct header as [h|]; [|naive_solver]. destruct (String.prefix _ h); [|naive_solver]. cbn.
  destruct (verifyAccessToken _ _ _ _) as [[|a w]|]; destruct (first_valid _ _ _ _) as [p|];
    try destruct (p_admin p); naive_solver.
Qed.

Definition entitled (evs : list deposit_event) (sid : nat) : Prop :=
  ∃ header now u v, DConnect sid header now ∈ evs ∧ auth_guard C cfg header now = Ret u
                    ∧ admin_guard C cfg header now = Ret v.
Definition announced (evs : list deposit_event) (f : string * jsval) : Prop :=
  ∃ topic raw, DMessage topic (Some raw) ∈ evs ∧ eachMessage topic (Some raw) = Some f.

Lemma eachMessage_value topic value f : eachMessage topic value = Some f → ∃ raw, value = Some raw.
Proof. destruct value; [eauto | done]. Qed.

Lemma deposits_snoc evs ev : deposits (evs ++ [ev]) = deposit_step (deposits evs) ev.
Proof. unfold deposits. by rewrite foldl_app. Qed.

(** Pending, rejected and confirmed deposits reach administrators only. Every frame emitted is a
    validated payload of one of the three topics, and the socket that receives it presented, when it
    connected, a token that both guards of the administrators' routes accept. *)
Lemma deposits_reach_administrators evs sid f :
  (sid, f) ∈ an_frames (deposits evs) → entitled evs sid ∧ announced evs f.
Proof.
  assert ((∀ sid u, (sid, u) ∈ an_sockets (deposits evs) → entitled evs sid)
          ∧ ∀ sid f, (sid, f) ∈ an_frames (deposits evs) → entitled evs sid ∧ announced evs f) as [_ H];
    [|apply H].
  clear. induction evs as [|ev evs [Hs Hf]] using rev_ind.
  { split; intros ? ?; by intros ?%elem_of_nil. }
  assert (∀ sid, entitled evs sid → entitled (evs ++ [ev]) sid) as Hse.
  { intros sid (h & n & u & v & Hin & H). exists h, n, u, v. rewrite elem_of_app. naive_solver. }
  assert (∀ f, announced evs f → announced (evs ++ [ev]) f) as Hfa.
  { intros f (t & r & Hin & H). exists t, r. rewrite elem_of_app. naive_solver. }
  rewrite deposits_snoc. destruct ev as [sid header now|sid|topic value]; cbn [deposit_step].
  - destruct (handleConnection header now) as [u|] eqn:E; cbn; [|naive_solver].
    split; [|naive_solver]. intros sid' u' [[= -> ->]|]%elem_of_cons; [|naive_solver].
    apply admits_like_the_guards in E as [Hu [v Hv]]. exists header, now, u, v.
    split; [|done]. apply elem_of_app. right. by left.
  - cbn. split; [|naive_solver]. intros sid' u' [_ ?]%list_elem_of_filter. naive_solver.
  - destruct (eachMessage topic value) as [g|] eqn:E; cbn; [|naive_solver]. split; [naive_solver|].
    destruct (eachMessage_value _ _ _ E) as [raw ->].
    intros sid' f' [?|((sid0 & u) & [= -> ->] & Hin)%list_elem_of_fmap]%elem_of_app; [naive_solver|].
    split; [naive_solver|]. exists topic, raw. split; [|done]. apply elem_of_app. right. by left.
Qed.
End Deposits.

(** ** Witness: a save that fails, a restart, and a text that is no notification *)

Definition note0 : text :=
  TJson (VObj [("userId", VStr "00000000-0000-0000-0000-000000000001"); ("type", VStr "bonus"); ("message", VStr "hi")]).
Definition topic0 : list (option text) := [Some note0; None; Some (TRaw "{")].
Definition evs0 : list listener_event :=
  [NDeliver true; NRestart 3; NDeliver true; NCommit true; NDeliver true; NDeliver true; NDead true].
Definition s0 := listen (ZO := zod0) (T := list) pretty topic0 evs0 (listener_start (Some 0%nat) []).

Lemma no_notification_is_lost_witness :
  ns_position s0 = 3%nat ∧ length (ns_table s0) = 2%nat ∧ ns_dead s0 = [TRaw "{"]
  ∧ (∃ c, ns_committed s0 = Some c ∧ (c <= ns_position s0)%nat)
  ∧ ∀ i raw, (i < ns_position s0)%nat → topic0 !! i = Some (Some raw) → text_empty raw = false →
    stored (ZO := zod0) (ns_table s0) raw ∨ raw ∈ ns_dead s0.
Proof.
  split; [vm_compute; done|]. split; [vm_compute; done|]. split; [vm_compute; done|].
  apply (no_notification_is_lost (ZO := zod0) (T := list) pretty topic0 _ [] evs0); [done|].
  repeat constructor.
Defined.
