(* ===== verification/Tables.v ===== *)
(** * Tables and their chat

    backend/src/game/tables.service.ts and chat.service.ts, with the chat route of
    routes/tables.controller.ts. The pages of a table are built from the public
    state its room answers with; the rows are kept by the database, which removes
    the messages of a table with it. *)

From S2P Require Import Prelude Store JsText SidePots StateMachine HandEval Engine Auth AuthSafety.
#[local] Open Scope string_scope.
#[local] Open Scope list_scope.
#[local] Open Scope Z_scope.

(** ** Cards and streets as text *)

Definition SUIT_CHARS : list string := ["♣"; "♦"; "♥"; "♠"].
(** [l[i]]; there is nothing at a negative index. *)
Definition at_index {A} (l : list A) (i : Z) : option A := if i <? 0 then None else l !! Z.to_nat i.
Definition cardToString (card : Z) : string :=
  default "?" (at_index RANKS (card / 4)) +:+ default "?" (at_index SUIT_CHARS (Z.rem card 4)).

Definition mapStreet (s : Street) : string :=
  match s with flop => "flop" | turn => "turn" | river | showdown => "river" | preflop => "pre" end.

Definition formatAgo (ms : Z) : string :=
  let minutes := ms / 60000 in
  if minutes <? 1 then "just now"
  else if minutes <? 60 then str_of_Z minutes +:+ "m"
  else str_of_Z (minutes / 60) +:+ "h".

(** ** Rows *)

Record TableRow := {
  tb_id : string; tb_name : string; tb_gameType : string; tb_smallBlind : Z; tb_bigBlind : Z;
  tb_startingStack : Z; tb_playersCurrent : Z; tb_playersMax : Z; tb_minBuyIn : Z; tb_maxBuyIn : Z;
  tb_handsPerHour : Z; tb_avgPot : Z; tb_rake : Z; tb_tabs : option (list string); tb_createdAt : Z;
  tb_players : list string }.
#[export] Instance TableRow_entity : Entity TableRow := { row_id := tb_id; row_clash _ _ := false }.

Record ChatRow := { ch_id : Z; ch_table : string; ch_user : string; ch_message : string; ch_createdAt : Z }.
#[export] Instance ChatRow_entity : Entity ChatRow := { row_id r := str_of_Z (ch_id r); row_clash _ _ := false }.

(** ** What the routes answer *)

Record TableDto := {
  td_id : string; td_tableName : string; td_gameType : string; td_small : Z; td_big : Z; td_startingStack : Z;
  td_current : Z; td_max : Z; td_buyInMin : Z; td_buyInMax : Z; td_handsPerHour : Z; td_avgPot : Z; td_rake : Z;
  td_createdAgo : string }.
Record ChatDto := { cd_id : Z; cd_username : string; cd_avatar : string; cd_text : string; cd_time : Z }.
Record PagePlayer := {
  pp_id : Z; pp_username : string; pp_avatar : string; pp_chips : Z; pp_committed : Z; pp_isFolded : bool;
  pp_isAllIn : bool }.
Record TableData := {
  tp_smallBlind : Z; tp_bigBlind : Z; tp_pot : Z; tp_communityCards : list string; tp_players : list PagePlayer;
  tp_chatMessages : list ChatDto; tp_stateAvailable : bool }.
Record TableSeat := { se_id : Z; se_name : string; se_avatar : string; se_balance : Z; se_inHand : bool }.
Record TableState := {
  tz_handId : string; tz_seats : list TableSeat; tz_main : Z; tz_sidePots : list Z; tz_street : string; tz_serverTime : Z }.

(** A partial request; the objects in it are whole. *)
Record CreateTableRequest := {
  ct_tableName : string; ct_gameType : string; ct_stakes : Z * Z; ct_startingStack : Z; ct_playersMax : Z;
  ct_buyIn : Z * Z }.
Record UpdateTableRequest := {
  ut_tableName : option string; ut_gameType : option string; ut_stakes : option (Z * Z);
  ut_startingStack : option Z; ut_playersMax : option Z; ut_buyIn : option (Z * Z) }.

Section Tables.
Context {T : Type → Type} `{!TableOps T}.

Record TablesStore := {
  ts_tables : T TableRow; ts_users : T User; ts_chat : T ChatRow; ts_nextChat : Z;
  ts_rooms : list string; ts_sent : list (string * ChatDto) }.
Abbreviation TM := (M TablesStore).

Definition on_tables (f : T TableRow → T TableRow) (s : TablesStore) : TablesStore :=
  {| ts_tables := f (ts_tables s); ts_users := ts_users s; ts_chat := ts_chat s; ts_nextChat := ts_nextChat s;
     ts_rooms := ts_rooms s; ts_sent := ts_sent s |}.
Definition on_rooms (f : list string → list string) (s : TablesStore) : TablesStore :=
  {| ts_tables := ts_tables s; ts_users := ts_users s; ts_chat := ts_chat s; ts_nextChat := ts_nextChat s;
     ts_rooms := f (ts_rooms s); ts_sent := ts_sent s |}.
Definition on_chat (f : T ChatRow → T ChatRow) (s : TablesStore) : TablesStore :=
  {| ts_tables := ts_tables s; ts_users := ts_users s; ts_chat := f (ts_chat s); ts_nextChat := ts_nextChat s;
     ts_rooms := ts_rooms s; ts_sent := ts_sent s |}.

(** ** Listing and editing *)

Definition toDto (t : TableRow) (now : Z) : TableDto :=
  {| td_id := tb_id t; td_tableName := tb_name t; td_gameType := tb_gameType t; td_small := tb_smallBlind t;
     td_big := tb_bigBlind t; td_startingStack := tb_startingStack t; td_current := tb_playersCurrent t;
     td_max := tb_playersMax t; td_buyInMin := tb_minBuyIn t; td_buyInMax := tb_maxBuyIn t;
     td_handsPerHour := tb_handsPerHour t; td_avgPot := tb_avgPot t; td_rake := tb_rake t;
     td_createdAgo := formatAgo (now - tb_createdAt t) |}.

Definition getTables (status : option string) (now : Z) (s : TablesStore) : list TableDto :=
  let all := rows (ts_tables s) in
  let filtered := if bool_decide (status = Some "active") then filter (λ t, 0 < tb_playersCurrent t) all else all in
  (λ t, toDto t now) <$> filtered.
Definition getTablesForUser (userId : string) (now : Z) (s : TablesStore) : list TableDto :=
  (λ t, toDto t now) <$> find_rows (λ t, bool_decide (userId ∈ tb_players t)) (ts_tables s).
Definition find_table (id : string) (s : TablesStore) : option TableRow :=
  find_row (λ t, bool_decide (tb_id t = id)) (ts_tables s).

Definition getSidePanelTabs (id : string) (s : TablesStore) : outcome (list string) :=
  match find_table id s with
  | None => Throw "Table not found"
  | Some t => Ret (default ["history"; "chat"; "notes"] (tb_tabs t))
  end.

Definition new_table (uuid : string) (now : Z) (data : CreateTableRequest) : TableRow :=
  {| tb_id := uuid; tb_name := ct_tableName data; tb_gameType := ct_gameType data;
     tb_smallBlind := (ct_stakes data).1; tb_bigBlind := (ct_stakes data).2;
     tb_startingStack := ct_startingStack data; tb_playersCurrent := 0; tb_playersMax := ct_playersMax data;
     tb_minBuyIn := (ct_buyIn data).1; tb_maxBuyIn := (ct_buyIn data).2; tb_handsPerHour := 0; tb_avgPot := 0;
     tb_rake := 0; tb_tabs := Some ["history"; "chat"; "notes"]; tb_createdAt := now; tb_players := [] |}.
Definition createTable (uuid : string) (now : Z) (data : CreateTableRequest) : TM TableDto :=
  modify (on_tables (save_row (new_table uuid now data))) ;;
  mret (toDto (new_table uuid now data) now).

Definition updated_table (data : UpdateTableRequest) (t : TableRow) : TableRow :=
  {| tb_id := tb_id t; tb_name := default (tb_name t) (ut_tableName data);
     tb_gameType := default (tb_gameType t) (ut_gameType data);
     tb_smallBlind := default (tb_smallBlind t) (fst <$> ut_stakes data);
     tb_bigBlind := default (tb_bigBlind t) (snd <$> ut_stakes data);
     tb_startingStack := default (tb_startingStack t) (ut_startingStack data);
     tb_playersCurrent := tb_playersCurrent t;
     tb_playersMax := default (tb_playersMax t) (ut_playersMax data);
     tb_minBuyIn := default (tb_minBuyIn t) (fst <$> ut_buyIn data);
     tb_maxBuyIn := default (tb_maxBuyIn t) (snd <$> ut_buyIn data);
     tb_handsPerHour := tb_handsPerHour t; tb_avgPot := tb_avgPot t; tb_rake := tb_rake t; tb_tabs := tb_tabs t;
     tb_createdAt := tb_createdAt t; tb_players := tb_players t |}.
Definition updateTable (id : string) (now : Z) (data : UpdateTableRequest) : TM TableDto :=
  t ← gets (find_table id);
  match t with
  | None => throw "Table not found"
  | Some t =>
      modify (on_tables (save_row (updated_table data t))) ;;
      mret (toDto (updated_table data t) now)
  end.

(** The database removes the messages of the table as well. *)
Definition deleteTable (id : string) : TM unit :=
  modify (on_tables (delete_where (λ t, bool_decide (tb_id t = id)))) ;;
  modify (on_chat (delete_where (λ c, bool_decide (ch_table c = id)))).

(** ** Chat *)

Definition user_of (id : string) (s : TablesStore) : option User :=
  find_row (λ u, bool_decide (u_id u = id)) (ts_users s).
Definition chat_dto (s : TablesStore) (c : ChatRow) : option ChatDto :=
  (λ u, {| cd_id := ch_id c; cd_username := u_username u; cd_avatar := default "" (u_avatarKey u);
           cd_text := ch_message c; cd_time := ch_createdAt c |}) <$> user_of (ch_user c) s.

(** A message of an unknown table or user breaks a foreign key. The room of the table hears it. *)
Definition appendMessage (tableId userId text : string) (now : Z) : TM unit :=
  table ← gets (find_table tableId);
  user ← gets (user_of userId);
  match table, user with
  | Some _, Some u =>
      n ← gets ts_nextChat;
      let c := {| ch_id := n; ch_table := tableId; ch_user := userId; ch_message := text; ch_createdAt := now |} in
      modify (λ s, {| ts_tables := ts_tables s; ts_users := ts_users s; ts_chat := save_row c (ts_chat s);
                      ts_nextChat := n + 1; ts_rooms := ts_rooms s; ts_sent := ts_sent s |}) ;;
      modify (λ s, {| ts_tables := ts_tables s; ts_users := ts_users s; ts_chat := ts_chat s;
                      ts_nextChat := ts_nextChat s; ts_rooms := ts_rooms s;
                      ts_sent := ts_sent s ++ match chat_dto s c with Some d => [(tableId, d)] | None => [] end |})
  | _, _ => throw "violates foreign key constraint"
  end.

(** [order: { createdAt: 'DESC' }, take: limit], then [reverse]. *)
Definition newer_message (a b : ChatRow) : bool := ch_createdAt b <=? ch_createdAt a.
Definition getRecentMessages (tableId : string) (limit : nat) (s : TablesStore) : list ChatDto :=
  reverse (omap (chat_dto s)
    (take limit (js_sort newer_message (find_rows (λ c, bool_decide (ch_table c = tableId)) (ts_chat s))))).

(** The routes: anybody reads; to post one must be logged in, but the author is the one the body names. *)
Definition sendChat (cfg : AuthConfig) (C : Crypto) (header : option string) (tableId userId text : string)
    (now : Z) : TM unit :=
  lift (auth_guard C cfg header now) ;; appendMessage tableId userId text now.

(** ** Pages *)

(** What the rooms answer, and whether the queries for users and messages succeed. *)
Record PageEnv := {
  pe_state : string → outcome PublicState; pe_hand : string → outcome string; pe_users : bool; pe_chat : bool }.

(** [rooms.get(id)] starts a room when there is none. *)
Definition rooms_get (id : string) : TM unit :=
  modify (on_rooms (λ l, if decide (id ∈ l) then l else id :: l)).

Definition page_players (s : TablesStore) (l : list PublicPlayer) : list PagePlayer :=
  imap (λ i p, {| pp_id := Z.of_nat i + 1;
                  pp_username := from_option u_username (pub_id p) (user_of (pub_id p) s);
                  pp_avatar := default "" (user_of (pub_id p) s ≫= u_avatarKey);
                  pp_chips := pub_stack p; pp_committed := pub_bet p; pp_isFolded := pub_folded p;
                  pp_isAllIn := pub_allIn p |}) l.
Definition state_seats (s : TablesStore) (l : list PublicPlayer) : list TableSeat :=
  imap (λ i p, {| se_id := Z.of_nat i + 1;
                  se_name := from_option u_username (pub_id p) (user_of (pub_id p) s);
                  se_avatar := default "" (user_of (pub_id p) s ≫= u_avatarKey);
                  se_balance := pub_stack p; se_inHand := negb (pub_folded p) |}) l.

(** What was read before a failure stays. *)
Definition getTable (env : PageEnv) (id : string) : TM TableData :=
  table ← gets (find_table id);
  match table with
  | None => throw "Table not found"
  | Some t =>
      rooms_get id ;;
      s ← gets (λ s, s);
      let page pot cards players chat ok :=
        {| tp_smallBlind := tb_smallBlind t; tp_bigBlind := tb_bigBlind t; tp_pot := pot;
           tp_communityCards := cards; tp_players := players; tp_chatMessages := chat; tp_stateAvailable := ok |} in
      mret match pe_state env id with
           | Throw _ => page 0 [] [] [] false
           | Ret st =>
               let cards := cardToString <$> pub_communityCards st in
               if pe_users env then
                 let players := page_players s (pub_players st) in
                 if pe_chat env then page (pub_pot st) cards players (getRecentMessages id 20 s) true
                 else page (pub_pot st) cards players [] false
               else page (pub_pot st) cards [] [] false
           end
  end.

Definition getTableState (env : PageEnv) (id : string) (now : Z) : TM TableState :=
  rooms_get id ;;
  s ← gets (λ s, s);
  let handId := match pe_hand env id with Ret h => h | Throw _ => "" end in
  mret match pe_state env id with
       | Throw _ => {| tz_handId := ""; tz_seats := []; tz_main := 0; tz_sidePots := []; tz_street := "pre";
                       tz_serverTime := now |}
       | Ret st =>
           let page h seats := {| tz_handId := h; tz_seats := seats; tz_main := pub_pot st;
             tz_sidePots := sp_amount <$> pub_sidePots st; tz_street := mapStreet (pub_street st);
             tz_serverTime := now |} in
           if pe_users env then page handId (state_seats s (pub_players st)) else page "" []
       end.

(** ** Facts *)

Context `{!TableLaws T}.

(** What a post leaves: nothing unless its table and its author exist. *)
Record Post := { po_table : string; po_user : string; po_text : string; po_now : Z }.
Definition post (p : Post) : TM unit := appendMessage (po_table p) (po_user p) (po_text p) (po_now p).
Definition welcome (s : TablesStore) (p : Post) : bool :=
  bool_decide (is_Some (find_table (po_table p) s)) && bool_decide (is_Some (user_of (po_user p) s)).
Definition run_posts (ps : list Post) (s : TablesStore) : TablesStore := foldl (λ s p, (post p s).2) s ps.

(** The rows of the posts, numbered from [n]. *)
Fixpoint post_rows (n : Z) (ps : list Post) : list ChatRow :=
  match ps with
  | [] => []
  | p :: ps' =>
      {| ch_id := n; ch_table := po_table p; ch_user := po_user p; ch_message := po_text p; ch_createdAt := po_now p |}
      :: post_rows (n + 1) ps'
  end.

Lemma post_rows_app n ps qs : post_rows n (ps ++ qs) = post_rows n ps ++ post_rows (n + Z.of_nat (length ps)) qs.
Proof.
  revert n. induction ps as [|p ps IH]; intros n; [by rewrite Z.add_0_r|]. cbn [app post_rows length].
  rewrite IH. do 3 f_equal. lia.
Qed.

Lemma post_rows_id n ps c : c ∈ post_rows n ps → n <= ch_id c < n + Z.of_nat (length ps).
Proof.
  revert n. induction ps as [|p ps IH]; intros n; [by intros ?%elem_of_nil|]. cbn [post_rows length].
  intros [->|H%IH]%elem_of_cons; cbn; lia.
Qed.

Lemma post_rows_time n ps c : c ∈ post_rows n ps → ∃ p, p ∈ ps ∧ ch_createdAt c = po_now p ∧ ch_user c = po_user p.
Proof.
  revert n. induction ps as [|p ps IH]; intros n; [by intros ?%elem_of_nil|].
  intros [->|(q & ? & ?)%IH]%elem_of_cons; [exists p | exists q]; rewrite elem_of_cons; eauto.
Qed.

Lemma appendMessage_eq p s :
  post p s = if welcome s p
             then (Ret tt, (post p s).2)
             else (Throw "violates foreign key constraint", s).
Proof.
  unfold post, appendMessage, welcome. cbv beta iota zeta delta [gets modify mbind M_bind throw].
  destruct (find_table _ s); [|done]. destruct (user_of _ s); done.
Qed.

Lemma post_effect p s :
  welcome s p = true →
  let c := {| ch_id := ts_nextChat s; ch_table := po_table p; ch_user := po_user p; ch_message := po_text p;
              ch_createdAt := po_now p |} in
  ts_tables (post p s).2 = ts_tables s ∧ ts_users (post p s).2 = ts_users s
  ∧ ts_nextChat (post p s).2 = ts_nextChat s + 1 ∧ ts_chat (post p s).2 = save_row c (ts_chat s)
  ∧ (ts_sent (post p s).2 = ts_sent s ++ from_option (λ d, [(po_table p, d)]) [] (chat_dto s c)).
Proof.
  unfold post, appendMessage, welcome. cbv beta iota zeta delta [gets modify mbind M_bind throw].
  destruct (find_table _ s); [|done]. destruct (user_of _ s) eqn:Eu; [|done]. intros _.
  by split_and!.
Qed.

Lemma chat_dto_users s s' c : ts_users s' = ts_users s → chat_dto s' c = chat_dto s c.
Proof. unfold chat_dto, user_of. by intros ->. Qed.

(** The frame a row was announced with. *)
Definition chat_frame (s : TablesStore) (c : ChatRow) : option (string * ChatDto) :=
  (λ d, (ch_table c, d)) <$> chat_dto s c.

(** The chat of a store that started empty: the rows and frames of the posts that were accepted. *)
Record chat_of (n : Z) (ps : list Post) (s : TablesStore) : Prop := {
  co_rows : rows (ts_chat s) ≡ₚ post_rows n ps;
  co_next : ts_nextChat s = n + Z.of_nat (length ps);
  co_sent : ts_sent s = omap (chat_frame s) (post_rows n ps);
  co_known p : p ∈ ps → is_Some (user_of (po_user p) s) }.

Lemma post_keeps n qs p s :
  chat_of n qs s → chat_of n (qs ++ (if welcome s p then [p] else [])) (post p s).2
                   ∧ ts_tables (post p s).2 = ts_tables s ∧ ts_users (post p s).2 = ts_users s.
Proof.
  intros Hok. pose proof Hok as [Hr Hn Hs Hk]. rewrite appendMessage_eq.
  destruct (welcome s p) eqn:Ew; [|by rewrite app_nil_r].
  destruct (post_effect p s Ew) as (H1 & H2 & H3 & H4 & H5). split; [|done]. cbn [snd].
  assert (∀ c, chat_frame (post p s).2 c = chat_frame s c) as Hf.
  { intros c. unfold chat_frame. by rewrite (chat_dto_users s). }
  split.
  - rewrite H4, rows_save, filter_all.
    + rewrite post_rows_app, Hr, <- Hn. cbn. by rewrite <- Permutation_cons_append.
    + intros c Hc E. rewrite Hr in Hc. apply post_rows_id in Hc. cbn in E.
      apply (inj pretty) in E. rewrite Hn in E. lia.
  - rewrite H3, Hn, length_app. cbn. lia.
  - rewrite H5, Hs, post_rows_app, omap_app, <- Hn. f_equal.
    + apply omap_same. intros c _. by rewrite Hf.
    + cbn. rewrite Hf. unfold chat_frame. by destruct (chat_dto s _).
  - unfold user_of. rewrite H2. intros q [Hq| ->%list_elem_of_singleton]%elem_of_app; [by apply Hk|].
    unfold welcome in Ew. apply andb_true_iff in Ew as [_ ?%bool_decide_eq_true]. done.
Qed.

Lemma run_posts_keeps n ps qs s :
  chat_of n qs s →
  chat_of n (qs ++ filter (λ p, welcome s p = true) ps) (run_posts ps s)
  ∧ ts_users (run_posts ps s) = ts_users s.
Proof.
  revert qs s. induction ps as [|p ps IH]; intros qs s Hs; [by rewrite app_nil_r|].
  destruct (post_keeps n qs p s Hs) as (H1 & Ht & Hu). destruct (IH _ _ H1) as [H2 H3].
  assert (∀ q, welcome (post p s).2 q = welcome s q) as Hw.
  { intros q. unfold welcome, find_table, user_of. by rewrite Ht, Hu. }
  split; [|by rewrite <- Hu]. cbn [run_posts foldl]. rewrite filter_cons.
  rewrite (list_filter_iff _ (λ q, welcome s q = true)) in H2 by (intros q; by rewrite Hw).
  rewrite <- app_assoc in H2. destruct (welcome s p); cbn in *; [by rewrite decide_True by done | done].
Qed.

Lemma post_rows_sorted n ps :
  StronglySorted (λ p q, po_now p < po_now q) ps →
  StronglySorted (λ a b, ch_createdAt a < ch_createdAt b) (post_rows n ps).
Proof.
  intros H. revert n. induction H as [|p ps Hps IH Hp]; intros n; [constructor|]. cbn. constructor; [apply IH|].
  apply Forall_forall. intros c (q & Hq & -> & _)%post_rows_time. cbn. by apply (proj1 (Forall_forall _ _) Hp).
Qed.

(** Rows with different times are sorted in one way only. *)
Lemma sort_later l l' :
  StronglySorted (λ a b, ch_createdAt a < ch_createdAt b) l → l' ≡ₚ l → js_sort newer_message l' = reverse l.
Proof.
  intros Hl Hp. set (R a b := ch_createdAt b < ch_createdAt a).
  assert (AntiSymm (=) R) by (intros a b; unfold R; lia).
  assert (StronglySorted R (reverse l)) as Hr by (by apply sorted_reverse).
  apply (StronglySorted_unique R); [|done|].
  - assert (StronglySorted (λ a b, newer_message a b = true) (js_sort newer_message l')) as Hs
      by (apply js_sort_sorted; unfold newer_message; intros; lia).
    apply (sorted_strictly (λ a b, newer_message a b = true) R ch_createdAt); [unfold newer_message, R; intros; lia|done|].
    rewrite js_sort_perm, Hp. apply (strictly_NoDup (λ a b, ch_createdAt a < ch_createdAt b)); [intros ? ? ? ?; lia | done].
  - rewrite js_sort_perm, Hp. symmetry. apply reverse_Permutation.
Qed.

(** The last [n] of a list. *)
Definition last_n {A} (n : nat) (l : list A) : list A := drop (length l - n) l.

Lemma last_n_omap {A B} (f : A → option B) n (l : list A) :
  (∀ x, x ∈ l → is_Some (f x)) → last_n n (omap f l) = omap f (last_n n l).
Proof.
  intros H. unfold last_n. assert (length (omap f l) = length l) as ->.
  { induction l as [|x l IH]; [done|]. cbn. destruct (H x) as [y ->]; [by left|]. cbn. f_equal. apply IH.
    intros z Hz. apply H. by right. }
  generalize (length l - n)%nat as k. induction l as [|x l IH]; intros k; [by destruct k|].
  destruct (H x) as [y Ey]; [by left|]. destruct k; [done|]. cbn. rewrite Ey. cbn. apply IH.
  intros z Hz. apply H. by right.
Qed.

(** The text, time and author a message of the chat shows. *)
Definition shown (d : ChatDto) : string * Z * string := (cd_text d, cd_time d, cd_username d).
Definition written (s : TablesStore) (p : Post) : string * Z * string :=
  (po_text p, po_now p, from_option u_username "" (user_of (po_user p) s)).

Lemma frames_at tableId s n ps :
  (∀ p, p ∈ ps → is_Some (user_of (po_user p) s)) →
  snd <$> filter (λ f, f.1 = tableId) (omap (chat_frame s) (post_rows n ps))
  = omap (chat_dto s) (filter (λ c, bool_decide (ch_table c = tableId)) (post_rows n ps))
  ∧ shown <$> omap (chat_dto s) (filter (λ c, bool_decide (ch_table c = tableId)) (post_rows n ps))
    = written s <$> filter (λ p, po_table p = tableId) ps.
Proof.
  revert n. induction ps as [|p ps IH]; intros n Hk; [done|]. cbn [post_rows].
  destruct (IH (n + 1)) as [IH1 IH2]; [intros q Hq; apply Hk; by right|].
  destruct (Hk p) as [u Eu]; [by left|]. cbn [post_rows].
  set (c := {| ch_id := n; ch_table := po_table p; ch_user := po_user p; ch_message := po_text p;
               ch_createdAt := po_now p |}).
  set (d := {| cd_id := n; cd_username := u_username u; cd_avatar := default "" (u_avatarKey u);
               cd_text := po_text p; cd_time := po_now p |}).
  assert (chat_dto s c = Some d) as Ec by (unfold chat_dto; cbn; by rewrite Eu).
  set (rest := post_rows (n + 1) ps) in *.
  assert (omap (chat_frame s) (c :: rest) = (po_table p, d) :: omap (chat_frame s) rest) as ->
    by (cbn; unfold chat_frame at 1; by rewrite Ec).
  rewrite !filter_cons. cbn [fst ch_table c]. destruct (decide (po_table p = tableId)) as [E|E].
  - rewrite bool_decide_true, decide_True by done.
    assert (∀ l, omap (chat_dto s) (c :: l) = d :: omap (chat_dto s) l) as Hc by (intros l; cbn; by rewrite Ec).
    rewrite !Hc, !fmap_cons, IH1, IH2. split; [done|]. unfold written at 2. by rewrite Eu.
  - rewrite bool_decide_false, decide_False by (done || intros []). by split.
Qed.

(** The chat a visitor loads is what the table heard. From an empty chat, after any posts at increasing
    times, the recent messages of a table are the last ones broadcast to it, in order; and those broadcasts
    are the posts whose author and table exist, with the text and the author's name, and no others. *)
Lemma chat_shows_last_messages s ps tableId n :
  rows (ts_chat s) = [] → ts_sent s = [] → StronglySorted (λ p q, po_now p < po_now q) ps →
  let s' := run_posts ps s in
  let heard := snd <$> filter (λ f, f.1 = tableId) (ts_sent s') in
  getRecentMessages tableId n s' = last_n n heard
  ∧ shown <$> heard = written s <$> filter (λ p, po_table p = tableId) (filter (λ p, welcome s p = true) ps).
Proof.
  intros Hr Hs Hps s' heard.
  assert (chat_of (ts_nextChat s) [] s) as H0 by (split; [by rewrite Hr | cbn; lia | done | by intros ? ?%elem_of_nil]).
  destruct (run_posts_keeps _ ps [] s H0) as [[Hrows _ Hsent Hk] Hu]. fold s' in Hrows, Hsent, Hk, Hu. cbn [app] in *.
  set (qs := filter (λ p, welcome s p = true) ps) in *.
  destruct (frames_at tableId s' (ts_nextChat s) qs Hk) as [H1 H2]. rewrite <- Hsent in H1. fold heard in H1.
  split.
  - unfold getRecentMessages, find_rows.
    rewrite (sort_later (filter (λ c, bool_decide (ch_table c = tableId)) (post_rows (ts_nextChat s) qs)));
      [|apply sorted_filter, post_rows_sorted; by apply sorted_filter | by rewrite Hrows].
    rewrite take_reverse, omap_reverse, reverse_involutive, H1. symmetry. apply last_n_omap.
    intros c [_ (p & Hp & _ & E)%post_rows_time]%list_elem_of_filter. unfold chat_dto. rewrite E.
    destruct (Hk p Hp) as [u ->]. by eexists.
  - rewrite H1, H2. apply list_fmap_ext. intros i p _. unfold written, user_of. by rewrite Hu.
Qed.

(** A table's edit touches its row only, and in it only the fields the request names. *)
Lemma updateTable_spec id now data s t :
  find_table id s = Some t →
  (updateTable id now data s).1 = Ret (toDto (updated_table data t) now)
  ∧ rows (ts_tables (updateTable id now data s).2)
    ≡ₚ updated_table data t :: filter (λ t', tb_id t' ≠ tb_id t) (rows (ts_tables s))
  ∧ ts_chat (updateTable id now data s).2 = ts_chat s.
Proof.
  intros Hf. unfold updateTable. cbv beta iota zeta delta [gets modify mbind M_bind throw mret M_ret]. rewrite Hf.
  cbn. rewrite rows_save. done.
Qed.

Lemma empty_update_changes_nothing t : updated_table {| ut_tableName := None; ut_gameType := None; ut_stakes := None;
  ut_startingStack := None; ut_playersMax := None; ut_buyIn := None |} t = t.
Proof. by destruct t. Qed.

Lemma deleteTable_spec id s :
  rows (ts_tables (deleteTable id s).2) ≡ₚ filter (λ t, tb_id t ≠ id) (rows (ts_tables s))
  ∧ ∀ n, getRecentMessages id n (deleteTable id s).2 = [].
Proof.
  unfold deleteTable. cbv beta iota zeta delta [gets modify mbind M_bind]. split.
  - cbn. rewrite rows_delete. apply Permutation_refl'. apply list_filter_iff. intros t.
    split; intros H E; apply H; [by apply bool_decide_pack | by apply bool_decide_unpack in E].
  - intros n. unfold getRecentMessages. cbn.
    assert (find_rows (λ c, bool_decide (ch_table c = id))
              (delete_where (λ c, bool_decide (ch_table c = id)) (ts_chat s)) = []) as ->; [|by destruct n].
    apply elem_of_nil_inv. intros c. unfold find_rows. rewrite list_elem_of_filter, rows_delete, list_elem_of_filter.
    tauto.
Qed.

(** Reading the state of a table that does not exist starts a room for it. *)
Lemma any_id_gets_a_room env id now s : id ∈ ts_rooms (getTableState env id now s).2.
Proof.
  unfold getTableState, rooms_get. cbv beta iota zeta delta [gets modify mbind M_bind mret M_ret]. cbn.
  destruct (decide (id ∈ ts_rooms s)); [done | by left].
Qed.
End Tables.

(** The fifty-two cards have fifty-two names. *)
Lemma card_names_distinct a b : 0 <= a < 52 → 0 <= b < 52 → cardToString a = cardToString b → a = b.
Proof.
  intros Ha Hb.
  assert (Forall (λ a, Forall (λ b, cardToString a = cardToString b → a = b) (seqZ 0 52)) (seqZ 0 52)) as H
    by (apply (bool_decide_unpack _); vm_compute; done).
  rewrite Forall_forall in H. specialize (H a). rewrite Forall_forall in H. apply H; apply elem_of_seqZ; lia.
Qed.

(** ** Witness: three posts, one of them by nobody *)

Definition chatter0 : User :=
  {| u_id := "u1"; u_username := "ann"; u_email := None; u_password := None; u_role := Player;
     u_avatarKey := None; u_banned := false |}.
Definition store0 : TablesStore (T := list) :=
  {| ts_tables := [new_table "t1" 0 {| ct_tableName := "Red"; ct_gameType := "texas"; ct_stakes := (1, 2);
       ct_startingStack := 100; ct_playersMax := 6; ct_buyIn := (40, 200) |}];
     ts_users := [chatter0]; ts_chat := []; ts_nextChat := 1; ts_rooms := []; ts_sent := [] |}.
Definition posts0 : list Post :=
  [{| po_table := "t1"; po_user := "u1"; po_text := "hello"; po_now := 10 |};
   {| po_table := "t1"; po_user := "nobody"; po_text := "boo"; po_now := 11 |};
   {| po_table := "t1"; po_user := "u1"; po_text := "bye"; po_now := 12 |}].

Lemma chat_shows_last_messages_witness :
  cd_text <$> getRecentMessages "t1" 1 (run_posts posts0 store0) = ["bye"]
  ∧ let s' := run_posts posts0 store0 in
    let heard := snd <$> filter (λ f, f.1 = "t1") (ts_sent s') in
    getRecentMessages "t1" 1 s' = last_n 1 heard
    ∧ shown <$> heard
      = written store0 <$> filter (λ p, po_table p = "t1") (filter (λ p, welcome store0 p = true) posts0).
Proof.
  split; [vm_compute; done|]. apply (chat_shows_last_messages store0 posts0 "t1" 1); [done|done|].
  repeat constructor.
Defined.

(** Anybody who is logged in writes under any name: the author is what the body says. *)
Lemma chat_author_is_not_checked {T} `{!TableOps T} cfg C header u tableId userId text now (s : TablesStore (T := T)) :
  auth_guard C cfg header now = Ret u →
  sendChat cfg C header tableId userId text now s = appendMessage tableId userId text now s.
Proof. intros H. unfold sendChat. by rewrite H. Qed.
