(* ===== verification/Promotions.v ===== *)
(** * Promotions

    backend/src/promotions/promotions.service.ts with the rows of
    database/entities/promotion.entity.ts and promotion-claim.entity.ts. Calls run
    at the same time, so a claim is split at its awaits; what keeps it single is
    the primary key of the claims. *)

From stdpp Require Import countable.
From S2P Require Import Prelude Store JsText Schemas.
#[local] Open Scope string_scope.
#[local] Open Scope list_scope.
#[local] Open Scope Z_scope.

Record PromotionEntity := { pr_id : string; pr_title : string; pr_columns : list (string * jsval) }.
#[export] Instance PromotionEntity_entity : Entity PromotionEntity := { row_id := pr_id; row_clash _ _ := false }.

(** The primary key is the pair. *)
Record PromotionClaimEntity := { pc_promotionId : string; pc_userId : string }.
Definition claim_pair (c : PromotionClaimEntity) : string * string := (pc_promotionId c, pc_userId c).
Definition pair_key (p : string * string) : string := pretty (N.pos (encode p)).
#[export] Instance PromotionClaim_entity : Entity PromotionClaimEntity := {
  row_id c := pair_key (claim_pair c); row_clash _ _ := false }.

#[export] Instance pair_key_inj : Inj (=) (=) pair_key.
Proof. intros p q H. unfold pair_key in H. apply (inj pretty) in H. apply (inj encode). congruence. Qed.

Section Promotions.
Context {T : Type → Type} `{!TableOps T}.

(** Where a call of [claim] stands: before its first query, before the second, before the insert, answered. *)
Inductive claim_phase :=
| FindPromotion
| FindClaim (title : string)
| Insert (title : string)
| Answered (o : outcome string).
Record Call := { ca_pair : string * string; ca_phase : claim_phase }.
Record PromoStore := {
  ps_promotions : T PromotionEntity; ps_claims : T PromotionClaimEntity; ps_calls : list Call }.

Definition findAll (s : PromoStore) : list PromotionEntity := rows (ps_promotions s).
Definition findOne (id : string) (s : PromoStore) : option PromotionEntity :=
  find_row (λ r, bool_decide (pr_id r = id)) (ps_promotions s).
Definition claimed (p : string * string) (s : PromoStore) : bool :=
  match find_row (λ c, bool_decide (claim_pair c = p)) (ps_claims s) with Some _ => true | None => false end.
Definition quote : string := String (ascii_of_nat 34) "".
Definition claim_message (title : string) : string := "Promotion " +:+ quote +:+ title +:+ quote +:+ " claimed".

(** One query of a call; the answer follows the insert at once. *)
Definition claim_step (c : Call) (s : PromoStore) : claim_phase * T PromotionClaimEntity :=
  match ca_phase c with
  | FindPromotion =>
      (match findOne (ca_pair c).1 s with
       | Some r => FindClaim (pr_title r)
       | None => Answered (Throw "Promotion not found")
       end, ps_claims s)
  | FindClaim title =>
      (if claimed (ca_pair c) s then Answered (Throw "Promotion already claimed") else Insert title, ps_claims s)
  | Insert title =>
      match insert_row {| pc_promotionId := (ca_pair c).1; pc_userId := (ca_pair c).2 |} (ps_claims s) with
      | Some t => (Answered (Ret (claim_message title)), t)
      | None => (Answered (Throw "duplicate key value violates unique constraint"), ps_claims s)
      end
  | Answered o => (Answered o, ps_claims s)
  end.

Inductive promo_event := Claim (id userId : string) | Run (call : nat).
Definition promo_step (s : PromoStore) (ev : promo_event) : PromoStore :=
  match ev with
  | Claim id userId =>
      {| ps_promotions := ps_promotions s; ps_claims := ps_claims s;
         ps_calls := ps_calls s ++ [{| ca_pair := (id, userId); ca_phase := FindPromotion |}] |}
  | Run k =>
      match ps_calls s !! k with
      | Some c =>
          let '(phase, claims) := claim_step c s in
          {| ps_promotions := ps_promotions s; ps_claims := claims;
             ps_calls := <[k := {| ca_pair := ca_pair c; ca_phase := phase |}]> (ps_calls s) |}
      | None => s
      end
  end.
Definition promo_run (evs : list promo_event) (s : PromoStore) : PromoStore := foldl promo_step s evs.

(** A call by itself. *)
Definition claim (id userId : string) (s : PromoStore) : PromoStore :=
  let k := length (ps_calls s) in promo_run [Claim id userId; Run k; Run k; Run k] s.

Definition succeeded (c : Call) : bool := match ca_phase c with Answered (Ret _) => true | _ => false end.
Definition wins (l : list Call) : list (string * string) := ca_pair <$> filter (λ c, succeeded c = true) l.
Definition claim_winners (s : PromoStore) : list (string * string) := wins (ps_calls s).
Definition claims_of (s : PromoStore) : list (string * string) := claim_pair <$> rows (ps_claims s).

Context `{!TableLaws T}.

Record promo_ok (s : PromoStore) : Prop := {
  po_winners : claim_winners s ≡ₚ claims_of s;
  po_once : NoDup (claims_of s) }.

Lemma wins_app l1 l2 : wins (l1 ++ l2) = wins l1 ++ wins l2.
Proof. unfold wins. by rewrite filter_app, fmap_app. Qed.

Lemma wins_middle l1 c l2 : wins (l1 ++ c :: l2) ≡ₚ wins [c] ++ wins (l1 ++ l2).
Proof.
  change (c :: l2) with ([c] ++ l2). rewrite !wins_app, !app_assoc.
  by rewrite (Permutation_app_comm (wins l1) (wins [c])).
Qed.

(** Another phase for one call. *)
Lemma wins_insert k c c' l :
  l !! k = Some c → ∃ rest, wins l ≡ₚ wins [c] ++ rest ∧ wins (<[k := c']> l) ≡ₚ wins [c'] ++ rest.
Proof.
  intros Hk. exists (wins (take k l ++ drop (S k) l)). split.
  - rewrite <- wins_middle. by rewrite take_drop_middle.
  - rewrite (insert_take_drop _ _ _ (lookup_lt_Some _ _ _ Hk)). apply wins_middle.
Qed.

Lemma promo_step_ok s ev : promo_ok s → promo_ok (promo_step s ev).
Proof.
  intros [Hw Ho]. destruct ev as [id u|k]; cbn [promo_step].
  - split; [|done]. unfold claim_winners. cbn [ps_calls]. by rewrite wins_app, app_nil_r.
  - destruct (ps_calls s !! k) as [c|] eqn:Ek; [|done].
    assert (∀ ph t won, rows t ≡ₚ ((λ p, {| pc_promotionId := p.1; pc_userId := p.2 |}) <$> won) ++ rows (ps_claims s) →
      wins [{| ca_pair := ca_pair c; ca_phase := ph |}] ≡ₚ won ++ wins [c] → NoDup (claim_pair <$> rows t) →
      promo_ok {| ps_promotions := ps_promotions s; ps_claims := t;
                  ps_calls := <[k := {| ca_pair := ca_pair c; ca_phase := ph |}]> (ps_calls s) |}) as Hgo.
    { intros ph t won Ht Hwon Hnd. split; [|done]. unfold claim_winners, claims_of in *. cbn [ps_calls ps_claims].
      destruct (wins_insert k c {| ca_pair := ca_pair c; ca_phase := ph |} _ Ek) as (rest & H1 & H2).
      rewrite H2, Hwon, <- app_assoc, <- H1, Hw, Ht, fmap_app, <- list_fmap_compose. apply Permutation_app_tail.
      apply Permutation_refl'. symmetry. rewrite <- (list_fmap_id won) at 2. apply list_fmap_ext. by intros i [? ?] _. }
    assert (∀ ph, succeeded {| ca_pair := ca_pair c; ca_phase := ph |} = succeeded c →
      promo_ok {| ps_promotions := ps_promotions s; ps_claims := ps_claims s;
                  ps_calls := <[k := {| ca_pair := ca_pair c; ca_phase := ph |}]> (ps_calls s) |}) as Hsame.
    { intros ph Hs. apply (Hgo ph _ []); [done| |done]. unfold wins. rewrite !filter_cons, Hs.
      by destruct (succeeded c). }
    unfold claim_step. unfold succeeded in Hsame. destruct (ca_phase c) as [|title|title|o] eqn:Ep.
    + apply Hsame. by destruct (findOne _ _).
    + apply Hsame. by destruct (claimed _ _).
    + destruct (insert_row _ _) as [t|] eqn:Ei; [|by apply Hsame].
      apply (Hgo _ _ [ca_pair c]).
      * rewrite (rows_insert _ _ _ Ei). by destruct (ca_pair c).
      * unfold wins. rewrite !filter_cons. unfold succeeded. rewrite Ep. done.
      * rewrite (rows_insert _ _ _ Ei), fmap_cons. apply NoDup_cons. split; [|done].
        intros (d & Ed & Hd)%list_elem_of_fmap.
        assert (insert_row {| pc_promotionId := (ca_pair c).1; pc_userId := (ca_pair c).2 |} (ps_claims s) = None);
          [|congruence].
        apply insert_clash. exists d. split; [done|]. left. cbn. by rewrite <- Ed.
    + apply Hsame. done.
Qed.

Definition promo_start (promotions : T PromotionEntity) (claims : T PromotionClaimEntity) : PromoStore :=
  {| ps_promotions := promotions; ps_claims := claims; ps_calls := [] |}.

(** A promotion is claimed once. However calls of [claim] run between each other, from a table without
    claims: the calls that answered with success are, pair by pair, the rows of the table, and no pair of a
    promotion and a user is among them twice. *)
Lemma promotion_claimed_once promotions claims evs :
  rows claims = [] →
  let s := promo_run evs (promo_start promotions claims) in
  claim_winners s ≡ₚ claims_of s ∧ NoDup (claim_winners s).
Proof.
  intros H0 s. assert (promo_ok s) as [Hw Ho].
  - apply (foldl_invariant promo_ok); [intros; by apply promo_step_ok|].
    split; unfold claim_winners, claims_of; cbn; rewrite H0; [done | constructor].
  - split; [done | by rewrite Hw].
Qed.

(** A call by itself answers by what the tables hold. *)
Lemma claim_spec id u s :
  ∃ o, ps_calls (claim id u s) = ps_calls s ++ [{| ca_pair := (id, u); ca_phase := Answered o |}]
  ∧ match findOne id s with
    | None => o = Throw "Promotion not found"
    | Some r => o = if claimed (id, u) s then Throw "Promotion already claimed" else Ret (claim_message (pr_title r))
    end.
Proof.
  unfold claim, promo_run. cbn [foldl]. set (k := length (ps_calls s)).
  set (at_ ph t := {| ps_promotions := ps_promotions s; ps_claims := t;
                      ps_calls := ps_calls s ++ [{| ca_pair := (id, u); ca_phase := ph |}] |}).
  assert (∀ ph t ph' t', claim_step {| ca_pair := (id, u); ca_phase := ph |} (at_ ph t) = (ph', t') →
            promo_step (at_ ph t) (Run k) = at_ ph' t') as Hrun.
  { intros ph t ph' t' H. cbn [promo_step at_ ps_calls]. rewrite list_lookup_middle by done. rewrite H.
    unfold at_. f_equal. by rewrite insert_app_r_alt, Nat.sub_diag by done. }
  change (promo_step s (Claim id u)) with (at_ FindPromotion (ps_claims s)).
  assert (∀ o t, promo_step (at_ (Answered o) t) (Run k) = at_ (Answered o) t) as Hdone by (intros; by apply Hrun).
  assert (∀ t, findOne id (at_ FindPromotion t) = findOne id s) as Hf by done.
  destruct (findOne id s) as [r|] eqn:Er.
  - rewrite (Hrun _ _ (FindClaim (pr_title r)) (ps_claims s)) by (unfold claim_step; cbn; by rewrite Hf).
    destruct (claimed (id, u) s) eqn:Ec.
    + rewrite (Hrun _ _ (Answered (Throw "Promotion already claimed")) (ps_claims s))
        by (unfold claim_step, claimed in *; cbn in *; by rewrite Ec).
      rewrite Hdone. by eexists.
    + rewrite (Hrun _ _ (Insert (pr_title r)) (ps_claims s))
        by (unfold claim_step, claimed in *; cbn in *; by rewrite Ec).
      assert (∃ t, insert_row {| pc_promotionId := id; pc_userId := u |} (ps_claims s) = Some t) as [t Ht].
      { destruct (insert_row _ (ps_claims s)) eqn:Ei; [by eexists|]. apply insert_clash in Ei as (d & Hd & [E|E]); [|done].
        cbn in E. apply (inj pair_key) in E. unfold claimed in Ec. destruct (find_row _ _) eqn:Ef; [done|].
        pose proof (find_row_None _ _ Ef d Hd) as Hn. cbn in Hn. by apply bool_decide_eq_false in Hn. }
      rewrite (Hrun _ _ (Answered (Ret (claim_message (pr_title r)))) t) by (unfold claim_step; cbn; by rewrite Ht).
      by eexists.
  - rewrite (Hrun _ _ (Answered (Throw "Promotion not found")) (ps_claims s)) by (unfold claim_step; cbn; by rewrite Hf).
    rewrite !Hdone. by eexists.
Qed.
End Promotions.

(** ** Witness: two calls of one user meet before the insert *)

Definition promo0 : PromotionEntity := {| pr_id := "p"; pr_title := "Reload"; pr_columns := [] |}.
Definition race0 : list promo_event :=
  [Claim "p" "ann"; Claim "p" "ann"; Run 0; Run 1; Run 0; Run 1; Run 1; Run 0].
Definition after0 := promo_run race0 (promo_start (T := list) [promo0] []).

Lemma promotion_claimed_once_witness :
  (ca_phase <$> ps_calls after0)
  = [Answered (Throw "duplicate key value violates unique constraint"); Answered (Ret (claim_message "Reload"))]
  ∧ claim_winners after0 ≡ₚ claims_of after0 ∧ NoDup (claim_winners after0).
Proof. split; [vm_compute; done|]. by apply (promotion_claimed_once (T := list) [promo0] [] race0). Defined.
