(* ===== verification/Bonus.v ===== *)
(** * Bonuses

    backend/src/services/bonus.service.ts and bonus.helpers.ts with the schemas of
    backend/src/schemas/bonus.ts and the rows of database/entities/bonus*.entity.ts.
    Bodies are JSON; dates are normalised, or refused, by the database ([pg_date]),
    and read by the runtime ([parse_date]). *)

From S2P Require Import Prelude Store JsText JsNum Schemas AuditLog.
#[local] Open Scope string_scope.
#[local] Open Scope list_scope.
#[local] Open Scope Z_scope.

(** ** Schemas *)

Definition OptionSchema : schema := s_object [("value", s_str); ("label", s_str)].
Definition BonusOptionsResponseSchema : schema := s_object [
  ("types", ZArray OptionSchema); ("eligibilities", ZArray OptionSchema); ("statuses", ZArray OptionSchema)].
Definition base_shape : list (string * schema) := [
  ("name", s_str); ("type", s_str); ("description", s_str); ("bonusPercent", ZOptional s_num);
  ("maxBonusUsd", ZOptional s_num); ("expiryDate", ZOptional s_str); ("eligibility", s_str); ("status", s_str)].
Definition BonusDefaultsResponseSchema : schema := s_object base_shape.
Definition BonusDefaultsRequestSchema : schema := BonusDefaultsResponseSchema.
Definition s_claims : schema := ZNumber [CInt; CNonnegative].
Definition NullableClaimSchema : schema := ZOptional (ZNullable s_claims).
Definition BonusSchema : schema :=
  s_object (base_shape ++ [("claimsTotal", s_claims); ("claimsWeek", s_claims); ("id", ZNumber [CInt])]).
Definition BonusesResponseSchema : schema := ZArray BonusSchema.
Definition create_shape : list (string * schema) :=
  base_shape ++ [("claimsTotal", NullableClaimSchema); ("claimsWeek", NullableClaimSchema)].
Definition BonusCreateRequestSchema : schema := s_object create_shape.
(** [partial()] *)
Definition BonusUpdateRequestSchema : schema := s_object ((λ p, (p.1, ZOptional p.2)) <$> create_shape).

(** ** Rows *)

Record BonusBase := {
  bb_name : string; bb_type : string; bb_description : string; bb_bonusPercent : option Z; bb_maxBonusUsd : option Z;
  bb_expiryDate : option string; bb_eligibility : string; bb_status : string }.
Record BonusEntity := { bo_id : Z; bo_base : BonusBase; bo_claimsTotal : Z; bo_claimsWeek : Z }.
Record BonusDefaultEntity := { bf_id : Z; bf_base : BonusBase }.
Record BonusOptionEntity := {
  bp_id : Z; bp_type : option string; bp_eligibility : option string; bp_status : option string; bp_label : string }.
#[export] Instance BonusEntity_entity : Entity BonusEntity := { row_id r := str_of_Z (bo_id r); row_clash _ _ := false }.
#[export] Instance BonusDefault_entity : Entity BonusDefaultEntity := {
  row_id r := str_of_Z (bf_id r); row_clash _ _ := false }.

(** ** bonus.helpers.ts *)

(** A prepared entity: the columns that are set, a nullable one to a value or to null. *)
Record Prepared := {
  in_name : option string; in_type : option string; in_description : option string;
  in_bonusPercent : option (option Z); in_maxBonusUsd : option (option Z); in_expiryDate : option (option string);
  in_eligibility : option string; in_status : option string;
  in_claimsTotal : option Z; in_claimsWeek : option Z }.

Definition text_of (v : jsval) : option string := match v with VStr s => Some s | _ => None end.
Definition nullableNumber (v : jsval) : option Z := match v with VNum n => Some n | _ => None end.
(** [if (key in payload) prepared.key = payload.key ?? null] *)
Definition or_null {A} (read : jsval → option A) (v : jsval) : option (option A) :=
  if is_undefined v then None else Some (read v).

Definition toBonusEntityInput (fs : list (string * jsval)) : Prepared :=
  {| in_name := text_of (field "name" fs); in_type := text_of (field "type" fs);
     in_description := text_of (field "description" fs);
     in_bonusPercent := or_null nullableNumber (field "bonusPercent" fs);
     in_maxBonusUsd := or_null nullableNumber (field "maxBonusUsd" fs);
     in_expiryDate := or_null text_of (field "expiryDate" fs);
     in_eligibility := text_of (field "eligibility" fs); in_status := text_of (field "status" fs);
     in_claimsTotal := nullableNumber (field "claimsTotal" fs);
     in_claimsWeek := nullableNumber (field "claimsWeek" fs) |}.
(** Every column is set. *)
Definition toBonusDefaultsInput (fs : list (string * jsval)) : Prepared :=
  {| in_name := text_of (field "name" fs); in_type := text_of (field "type" fs);
     in_description := text_of (field "description" fs);
     in_bonusPercent := Some (nullableNumber (field "bonusPercent" fs));
     in_maxBonusUsd := Some (nullableNumber (field "maxBonusUsd" fs));
     in_expiryDate := Some (text_of (field "expiryDate" fs));
     in_eligibility := text_of (field "eligibility" fs); in_status := text_of (field "status" fs);
     in_claimsTotal := None; in_claimsWeek := None |}.

Definition base_fields (b : BonusBase) : list (string * jsval) := [
  ("name", VStr (bb_name b)); ("type", VStr (bb_type b)); ("description", VStr (bb_description b));
  ("bonusPercent", opt VNum (bb_bonusPercent b)); ("maxBonusUsd", opt VNum (bb_maxBonusUsd b));
  ("expiryDate", opt VStr (bb_expiryDate b)); ("eligibility", VStr (bb_eligibility b));
  ("status", VStr (bb_status b))].
Definition mapBonusBaseFields (b : BonusBase) : jsval := obj (base_fields b).
Definition mapBonusEntity (r : BonusEntity) : jsval :=
  obj ([("id", VNum (bo_id r))] ++ base_fields (bo_base r)
       ++ [("claimsTotal", VNum (bo_claimsTotal r)); ("claimsWeek", VNum (bo_claimsWeek r))]).

(** [{ ...existing, ...prepared }] *)
Definition merge_base (p : Prepared) (b : BonusBase) : BonusBase :=
  {| bb_name := default (bb_name b) (in_name p); bb_type := default (bb_type b) (in_type p);
     bb_description := default (bb_description b) (in_description p);
     bb_bonusPercent := default (bb_bonusPercent b) (in_bonusPercent p);
     bb_maxBonusUsd := default (bb_maxBonusUsd b) (in_maxBonusUsd p);
     bb_expiryDate := default (bb_expiryDate b) (in_expiryDate p);
     bb_eligibility := default (bb_eligibility b) (in_eligibility p);
     bb_status := default (bb_status b) (in_status p) |}.
Definition merge (p : Prepared) (r : BonusEntity) : BonusEntity :=
  {| bo_id := bo_id r; bo_base := merge_base p (bo_base r);
     bo_claimsTotal := default (bo_claimsTotal r) (in_claimsTotal p);
     bo_claimsWeek := default (bo_claimsWeek r) (in_claimsWeek p) |}.
(** A new row; columns that are not set are null, which most refuse. *)
Definition new_base (p : Prepared) : option BonusBase :=
  name ← in_name p; type ← in_type p; description ← in_description p;
  eligibility ← in_eligibility p; status ← in_status p;
  Some {| bb_name := name; bb_type := type; bb_description := description;
          bb_bonusPercent := default None (in_bonusPercent p); bb_maxBonusUsd := default None (in_maxBonusUsd p);
          bb_expiryDate := default None (in_expiryDate p); bb_eligibility := eligibility; bb_status := status |}.

Definition mapBonusDefaults `{!ZodOps} (e : option BonusDefaultEntity) (fallback : jsval) : outcome jsval :=
  match e with
  | None => Ret fallback
  | Some e => match z_parse BonusDefaultsResponseSchema (mapBonusBaseFields (bf_base e)) with
              | Some v => Ret v
              | None => Throw "ZodError"
              end
  end.

(** ** bonus.service.ts *)

Definition BONUS_DEFAULTS : jsval := VObj [
  ("name", VStr ""); ("type", VStr "deposit"); ("description", VStr ""); ("eligibility", VStr "all");
  ("status", VStr "active")].

Section Bonus.
Context {ZO : ZodOps} {T : Type → Type} `{!TableOps T}.
Context (pg_date : string → option string) (parse_date : string → option Z).

Record BonusStore := {
  bs_bonuses : T BonusEntity; bs_nextBonus : Z; bs_defaults : T BonusDefaultEntity; bs_nextDefault : Z;
  bs_options : list BonusOptionEntity }.
Abbreviation BM := (M BonusStore).

Definition on_bonuses (f : T BonusEntity → T BonusEntity) (n : Z) (s : BonusStore) : BonusStore :=
  {| bs_bonuses := f (bs_bonuses s); bs_nextBonus := n; bs_defaults := bs_defaults s;
     bs_nextDefault := bs_nextDefault s; bs_options := bs_options s |}.
Definition on_defaults (f : T BonusDefaultEntity → T BonusDefaultEntity) (n : Z) (s : BonusStore) : BonusStore :=
  {| bs_bonuses := bs_bonuses s; bs_nextBonus := bs_nextBonus s; bs_defaults := f (bs_defaults s);
     bs_nextDefault := n; bs_options := bs_options s |}.

Definition parsed (s : schema) (v : jsval) : BM (list (string * jsval)) :=
  match z_parse s v with Some (VObj fs) => mret fs | _ => throw "ZodError" end.
Definition checked (s : schema) (v : jsval) : BM jsval :=
  match z_parse s v with Some v => mret v | None => throw "ZodError" end.

(** What the database keeps of a row: a date column, and four-byte integers. *)
Definition pg_base (b : BonusBase) : option BonusBase :=
  match bb_expiryDate b with
  | None => Some b
  | Some d =>
      d' ← pg_date d;
      Some {| bb_name := bb_name b; bb_type := bb_type b; bb_description := bb_description b;
              bb_bonusPercent := bb_bonusPercent b; bb_maxBonusUsd := bb_maxBonusUsd b; bb_expiryDate := Some d';
              bb_eligibility := bb_eligibility b; bb_status := bb_status b |}
  end.
Definition pg_row (r : BonusEntity) : option BonusEntity :=
  b ← pg_base (bo_base r);
  if (bo_claimsTotal r <? 2 ^ 31) && (bo_claimsWeek r <? 2 ^ 31) then
    Some {| bo_id := bo_id r; bo_base := b; bo_claimsTotal := bo_claimsTotal r; bo_claimsWeek := bo_claimsWeek r |}
  else None.
(** [save] answers with the entity it was given. *)
Definition save_bonus (r : BonusEntity) (next : Z) : BM BonusEntity :=
  match pg_row r with
  | Some kept => modify (on_bonuses (save_row kept) next) ;; mret r
  | None => throw "QueryFailedError"
  end.

Definition find_bonus (id : Z) (s : BonusStore) : option BonusEntity :=
  find_row (λ r, bool_decide (bo_id r = id)) (bs_bonuses s).

Definition create (payload : jsval) : BM jsval :=
  fs ← parsed BonusCreateRequestSchema payload;
  let normalized := toBonusEntityInput fs in
  match new_base normalized with
  | None => throw "QueryFailedError"
  | Some b =>
      n ← gets bs_nextBonus;
      saved ← save_bonus {| bo_id := n; bo_base := b; bo_claimsTotal := default 0 (in_claimsTotal normalized);
                            bo_claimsWeek := default 0 (in_claimsWeek normalized) |} (n + 1);
      checked BonusSchema (mapBonusEntity saved)
  end.

Definition update (id : Z) (payload : jsval) : BM jsval :=
  fs ← parsed BonusUpdateRequestSchema payload;
  existing ← gets (find_bonus id);
  match existing with
  | None => throw ("Bonus " +:+ str_of_Z id +:+ " not found")
  | Some r =>
      n ← gets bs_nextBonus;
      updated ← save_bonus (merge (toBonusEntityInput fs) r) n;
      checked BonusSchema (mapBonusEntity updated)
  end.

Definition remove (id : Z) : BM unit :=
  modify (λ s, on_bonuses (delete_where (λ r, bool_decide (bo_id r = id))) (bs_nextBonus s) s).

(** [order: { id: 'DESC' }] *)
Definition newer (a b : BonusEntity) : bool := bo_id b <=? bo_id a.
Definition list_bonuses : BM jsval :=
  rows_ ← gets (λ s, js_sort newer (rows (bs_bonuses s)));
  checked BonusesResponseSchema (VArr (mapBonusEntity <$> rows_)).

(** The defaults are the row with the least identifier. *)
Definition older (a b : BonusDefaultEntity) : bool := bf_id a <=? bf_id b.
Definition first_defaults (s : BonusStore) : option BonusDefaultEntity := head (js_sort older (rows (bs_defaults s))).
Definition getDefaults : BM jsval :=
  e ← gets first_defaults; lift (mapBonusDefaults e BONUS_DEFAULTS).
Definition save_defaults (r : BonusDefaultEntity) (next : Z) : BM BonusDefaultEntity :=
  match pg_base (bf_base r) with
  | Some b => modify (on_defaults (save_row {| bf_id := bf_id r; bf_base := b |}) next) ;; mret r
  | None => throw "QueryFailedError"
  end.
Definition createDefaults (payload : jsval) : BM jsval :=
  fs ← parsed BonusDefaultsRequestSchema payload;
  existing ← gets (λ s, length (rows (bs_defaults s)));
  throw_if (0 <? existing)%nat "Bonus defaults already exist" ;;
  match new_base (toBonusDefaultsInput fs) with
  | None => throw "QueryFailedError"
  | Some b =>
      n ← gets bs_nextDefault;
      saved ← save_defaults {| bf_id := n; bf_base := b |} (n + 1);
      lift (mapBonusDefaults (Some saved) BONUS_DEFAULTS)
  end.
Definition updateDefaults (payload : jsval) : BM jsval :=
  fs ← parsed BonusDefaultsRequestSchema payload;
  existing ← gets first_defaults;
  match existing with
  | None => createDefaults (VObj fs)
  | Some e =>
      n ← gets bs_nextDefault;
      updated ← save_defaults {| bf_id := bf_id e; bf_base := merge_base (toBonusDefaultsInput fs) (bf_base e) |} n;
      lift (mapBonusDefaults (Some updated) BONUS_DEFAULTS)
  end.
Definition deleteDefaults : BM unit := modify (λ s, on_defaults (delete_where (λ _, true)) (bs_nextDefault s) s).

Definition truthy_text (o : option string) : option string :=
  match o with Some "" | None => None | Some s => Some s end.
Definition option_items (f : BonusOptionEntity → option string) (l : list BonusOptionEntity) : jsval :=
  VArr (omap (λ r, (λ v, VObj [("value", VStr v); ("label", VStr (bp_label r))]) <$> truthy_text (f r)) l).
Definition listOptions : BM jsval :=
  l ← gets (λ s, js_sort (λ a b, bp_id a <=? bp_id b) (bs_options s));
  checked BonusOptionsResponseSchema
    (VObj [("types", option_items bp_type l); ("eligibilities", option_items bp_eligibility l);
           ("statuses", option_items bp_status l)]).

(** ** Statistics *)

Record BonusTransaction := { bt_amount : Z; bt_status : string }.
Record BonusStats := {
  st_activeBonuses : Z; st_weeklyClaims : Z; st_completedPayouts : double; st_currency : string;
  st_conversionRate : double }.

(** A date that does not parse never expires. *)
Definition isExpired (expiryDate : option string) (now : Z) : bool :=
  match expiryDate with
  | None | Some "" => false
  | Some d => match parse_date d with
              | Some t => t / 86400000 * 86400000 + 86399999 <? now
              | None => false
              end
  end.

(** [Number(x.toFixed(2))]: the nearest number of hundredths, the larger of two. *)
Definition hundredths (m e : Z) : Z :=
  if 0 <=? e then m * 2 ^ e * 100 else (m * 200 + 2 ^ (- e)) / (2 * 2 ^ (- e)).
Definition fixed2 (x : double) : double :=
  match x with
  | S754_finite s m e =>
      dbl_div (dbl_of_Z (if s then - hundredths (Z.pos m) e else hundredths (Z.pos m) e)) (dbl_of_Z 100)
  | _ => x
  end.

Definition completed (t : BonusTransaction) : bool :=
  let status := to_lower (bt_status t) in
  bool_decide (status = "completed") || bool_decide (status = "confirmed").
Definition getStats (currency : string) (minorPerMajor : Z) (now : Z) (txs : list BonusTransaction) : BM BonusStats :=
  bonuses ← gets (λ s, rows (bs_bonuses s));
  let activeBonuses := length (filter (λ r, bb_status (bo_base r) = "active"
                                            ∧ isExpired (bb_expiryDate (bo_base r)) now = false) bonuses) in
  let weeklyClaims := sum_by bo_claimsWeek bonuses in
  let done_ := filter (λ t, completed t) txs in
  let minor := if minorPerMajor =? 0 then 100 else minorPerMajor in
  let completedPayouts := fixed2 (dbl_div (dbl_of_Z (sum_by bt_amount done_)) (dbl_of_Z minor)) in
  let conversionRate :=
    if 0 <? weeklyClaims
    then dbl_mul (dbl_div (dbl_of_Z (Z.of_nat (length done_))) (dbl_of_Z weeklyClaims)) (dbl_of_Z 100)
    else dbl_of_Z 0 in
  throw_if ((weeklyClaims <? 0) || dbl_ltb completedPayouts (dbl_of_Z 0)
            || negb (String.length currency =? 3)%nat) "ZodError" ;;
  mret {| st_activeBonuses := Z.of_nat activeBonuses; st_weeklyClaims := weeklyClaims;
          st_completedPayouts := completedPayouts; st_currency := currency; st_conversionRate := conversionRate |}.

(** ** Facts *)

Context {ZL : ZodLaws} `{!TableLaws T}.

(** What a bonus looks like in an answer: the fields in the order of the schema. *)
Definition entry (r : BonusEntity) : jsval :=
  obj (base_fields (bo_base r)
       ++ [("claimsTotal", VNum (bo_claimsTotal r)); ("claimsWeek", VNum (bo_claimsWeek r)); ("id", VNum (bo_id r))]).

Lemma nonneg_accepted n : 0 <= n → z_parse s_claims (VNum n) = Some (VNum n).
Proof. intros Hn. unfold s_claims. rewrite parse_number. cbn. by destruct (Z.leb_spec 0 n); [|lia]. Qed.

Lemma entry_accepted r :
  0 <= bo_claimsTotal r → 0 <= bo_claimsWeek r → z_parse BonusSchema (mapBonusEntity r) = Some (entry r).
Proof.
  intros H1 H2. destruct r as [id [n t d bp mx ex el st] ct cw]. cbn in *.
  unfold mapBonusEntity, obj. cbn [bo_id bo_base bo_claimsTotal bo_claimsWeek]. unfold BonusSchema.
  rewrite object_accepted.
  - by destruct bp, mx, ex.
  - destruct bp, mx, ex; repeat constructor; cbn; eauto using nonneg_accepted with zod.
Qed.

Lemma list_accepted l :
  Forall (λ r, 0 <= bo_claimsTotal r ∧ 0 <= bo_claimsWeek r) l →
  z_parse BonusesResponseSchema (VArr (mapBonusEntity <$> l)) = Some (VArr (entry <$> l)).
Proof.
  intros H. unfold BonusesResponseSchema. rewrite parse_array.
  assert (mapM (z_parse BonusSchema) (mapBonusEntity <$> l) = Some (entry <$> l)) as ->; [|done].
  induction H as [|r l [H1 H2] _ IH]; [done|]. cbn. rewrite entry_accepted by done. cbn. by rewrite IH.
Qed.

(** Values that the schemas of the claims let pass. *)
Lemma claims_value sch x v n :
  sch = NullableClaimSchema ∨ sch = ZOptional NullableClaimSchema →
  z_parse sch x = Some v → nullableNumber v = Some n → 0 <= n.
Proof.
  intros Hs Hp Hn. assert (z_parse NullableClaimSchema x = Some v) as H.
  { destruct Hs as [-> | ->]; [done|]. rewrite parse_optional in Hp. destruct x; simplify_eq/=; done. }
  unfold NullableClaimSchema in H. rewrite parse_optional, parse_nullable in H.
  unfold s_claims in H. rewrite parse_number in H. destruct x; simplify_eq/=.
  destruct (Z.leb_spec 0 n0); simplify_eq/=; lia.
Qed.

Definition claims_ok (p : Prepared) : Prop :=
  (∀ n, in_claimsTotal p = Some n → 0 <= n) ∧ (∀ n, in_claimsWeek p = Some n → 0 <= n).

Lemma object_parsed shape v fs :
  z_parse (s_object shape) v = Some (VObj fs) → ∃ fs0, v = VObj fs0 ∧ parse_shape z_parse shape fs0 = Some fs.
Proof.
  unfold s_object. rewrite parse_object. destruct v as [| | | | | |fs0|]; try done. intros H. exists fs0.
  destruct (parse_shape z_parse shape fs0) as [r|]; [|done]. cbn in H. rewrite app_nil_r in H. by simplify_eq.
Qed.

Lemma prepared_claims shape v fs sch :
  z_parse (s_object shape) v = Some (VObj fs) → NoDup shape.*1 →
  sch = NullableClaimSchema ∨ sch = ZOptional NullableClaimSchema →
  ("claimsTotal", sch) ∈ shape → ("claimsWeek", sch) ∈ shape → claims_ok (toBonusEntityInput fs).
Proof.
  intros (fs0 & -> & Hp)%object_parsed Hnd Hs H1 H2.
  split; intros n; cbn; eapply claims_value; try eassumption; by eapply parse_shape_field.
Qed.

Lemma keys_distinct : NoDup create_shape.*1.
Proof. apply (bool_decide_unpack _). vm_compute. done. Qed.

Lemma create_claims v fs : z_parse BonusCreateRequestSchema v = Some (VObj fs) → claims_ok (toBonusEntityInput fs).
Proof.
  intros H. eapply prepared_claims; [exact H|apply keys_distinct|by left| |]; cbn; set_solver.
Qed.
Lemma update_claims v fs : z_parse BonusUpdateRequestSchema v = Some (VObj fs) → claims_ok (toBonusEntityInput fs).
Proof.
  intros H. eapply prepared_claims; [exact H| |by right| |]; [|cbn; set_solver..].
  rewrite <- list_fmap_compose. exact keys_distinct.
Qed.

(** *** What every call keeps *)

Definition row_ok (r : BonusEntity) : Prop := 0 <= bo_claimsTotal r ∧ 0 <= bo_claimsWeek r.
Record bonus_ok (s : BonusStore) : Prop := {
  bk_rows r : r ∈ rows (bs_bonuses s) → row_ok r ∧ bo_id r < bs_nextBonus s;
  bk_ids : NoDup (bo_id <$> rows (bs_bonuses s)) }.

Lemma pg_row_ok r kept : pg_row r = Some kept → row_ok r → row_ok kept ∧ bo_id kept = bo_id r.
Proof. unfold pg_row. destruct (pg_base _); [|done]. cbn. destruct (_ && _); [|done]. by intros [= <-]. Qed.

Lemma save_bonus_ok r next s :
  row_ok r → bo_id r < next → bs_nextBonus s <= next → bonus_ok s → bonus_ok (save_bonus r next s).2.
Proof.
  intros Hr Hid Hle [Hrows Hids]. unfold save_bonus. destruct (pg_row r) as [kept|] eqn:E; [|by split].
  destruct (pg_row_ok _ _ E Hr) as [Hk Ek]. cbv beta iota zeta delta [modify mbind M_bind mret M_ret]. cbn.
  split; cbn.
  - intros r'. rewrite rows_save, elem_of_cons, list_elem_of_filter. intros [->|[_ Hr']]; [rewrite Ek; done|].
    destruct (Hrows _ Hr') as [? ?]. split; [done | lia].
  - rewrite rows_save, fmap_cons. apply NoDup_cons. split.
    + intros (r' & E' & [Hne _]%list_elem_of_filter)%list_elem_of_fmap. apply Hne. cbn. by rewrite E'.
    + by apply NoDup_fmap_filter.
Qed.

Inductive bonus_call := CCreate (payload : jsval) | CUpdate (id : Z) (payload : jsval) | CRemove (id : Z).
Definition bonus_step (s : BonusStore) (c : bonus_call) : BonusStore :=
  match c with
  | CCreate p => (create p s).2
  | CUpdate id p => (update id p s).2
  | CRemove id => (remove id s).2
  end.

Lemma checked_state sch v s : (checked sch v s).2 = s.
Proof. unfold checked. by destruct (z_parse sch v). Qed.

(** Saving, and the answer from what was saved. *)
Definition save_and_show (r : BonusEntity) (next : Z) : BM jsval :=
  saved ← save_bonus r next; checked BonusSchema (mapBonusEntity saved).
Lemma save_and_show_eq r next s :
  row_ok r →
  save_and_show r next s = match pg_row r with
                           | Some kept => (Ret (entry r), on_bonuses (save_row kept) next s)
                           | None => (Throw "QueryFailedError", s)
                           end.
Proof.
  intros [H1 H2]. unfold save_and_show, save_bonus, checked. cbv beta iota zeta delta [mbind M_bind].
  destruct (pg_row r); [|done]. cbv beta iota zeta delta [modify mret M_ret]. by rewrite entry_accepted.
Qed.
Lemma save_and_show_ok r next s :
  row_ok r → bo_id r < next → bs_nextBonus s <= next → bonus_ok s → bonus_ok (save_and_show r next s).2.
Proof.
  intros Hr Hid Hle Hok. pose proof (save_bonus_ok r next s Hr Hid Hle Hok) as H. rewrite save_and_show_eq by done.
  unfold save_bonus in H. destruct (pg_row r); [|done]. exact H.
Qed.

Lemma default_claims o : (∀ n, o = Some n → 0 <= n) → 0 <= default 0 o.
Proof. destruct o; cbn; [auto | lia]. Qed.

Lemma create_eq p s :
  create p s = match z_parse BonusCreateRequestSchema p with
               | Some (VObj fs) =>
                   match new_base (toBonusEntityInput fs) with
                   | None => (Throw "QueryFailedError", s)
                   | Some b => save_and_show {| bo_id := bs_nextBonus s; bo_base := b;
                       bo_claimsTotal := default 0 (in_claimsTotal (toBonusEntityInput fs));
                       bo_claimsWeek := default 0 (in_claimsWeek (toBonusEntityInput fs)) |} (bs_nextBonus s + 1) s
                   end
               | _ => (Throw "ZodError", s)
               end.
Proof.
  unfold create, parsed. cbv beta iota zeta delta [gets mbind M_bind mret M_ret throw].
  destruct (z_parse _ p) as [[]|]; try done. by destruct (new_base _).
Qed.

Lemma update_eq id p s :
  update id p s = match z_parse BonusUpdateRequestSchema p with
                  | Some (VObj fs) =>
                      match find_bonus id s with
                      | None => (Throw ("Bonus " +:+ str_of_Z id +:+ " not found"), s)
                      | Some r => save_and_show (merge (toBonusEntityInput fs) r) (bs_nextBonus s) s
                      end
                  | _ => (Throw "ZodError", s)
                  end.
Proof.
  unfold update, parsed. cbv beta iota zeta delta [gets mbind M_bind mret M_ret throw].
  destruct (z_parse _ p) as [[]|]; try done. by destruct (find_bonus id s).
Qed.

Lemma merge_ok fs r : claims_ok (toBonusEntityInput fs) → row_ok r → row_ok (merge (toBonusEntityInput fs) r).
Proof.
  intros [H1 H2] [H3 H4]. split; unfold merge; cbn -[toBonusEntityInput].
  - destruct (in_claimsTotal _); cbn; auto.
  - destruct (in_claimsWeek _); cbn; auto.
Qed.

Lemma bonus_step_ok s c : bonus_ok s → bonus_ok (bonus_step s c).
Proof.
  intros Hok. destruct c as [p|id p|id]; cbn [bonus_step].
  - rewrite create_eq. destruct (z_parse _ p) as [[]|] eqn:Ep; try done. destruct (new_base _) as [b|]; [|done].
    apply create_claims in Ep as [H1 H2]. apply save_and_show_ok; cbn [bo_id]; [|lia|lia|done].
    split; by apply default_claims.
  - rewrite update_eq. destruct (z_parse _ p) as [[]|] eqn:Ep; try done.
    destruct (find_bonus id s) as [r|] eqn:Ef; [|done]. apply find_row_Some in Ef as [Hr _].
    destruct Hok as [Hrows Hids]. destruct (Hrows r Hr) as [Hrok Hlt].
    apply save_and_show_ok; [|done|lia|by split]. apply merge_ok; [by eapply update_claims | done].
  - destruct Hok as [Hrows Hids]. split; cbn.
    + intros r. rewrite rows_delete. intros [_ Hr]%list_elem_of_filter. by apply Hrows.
    + rewrite rows_delete. by apply NoDup_fmap_filter.
Qed.

(** Bonuses can always be shown. After any calls that create, update and remove bonuses, with any bodies,
    the list is answered: it is every row, the newest first, in the shape of its schema. *)
Lemma bonuses_can_be_shown s0 calls :
  rows (bs_bonuses s0) = [] →
  let s := foldl bonus_step s0 calls in
  list_bonuses s = (Ret (VArr (entry <$> js_sort newer (rows (bs_bonuses s)))), s)
  ∧ StronglySorted (λ a b, bo_id b < bo_id a) (js_sort newer (rows (bs_bonuses s))).
Proof.
  intros H0 s. assert (bonus_ok s) as [Hrows Hids].
  { apply (foldl_invariant bonus_ok); [intros; by apply bonus_step_ok|]. split; rewrite H0; [|constructor].
    by intros ? ?%elem_of_nil. }
  split.
  - unfold list_bonuses, checked. cbv beta iota zeta delta [gets mbind M_bind]. rewrite list_accepted; [done|].
    apply Forall_forall. intros r. rewrite js_sort_perm. intros Hr. by apply Hrows.
  - assert (StronglySorted (λ a b, newer a b = true) (js_sort newer (rows (bs_bonuses s)))) as Hs
      by (apply js_sort_sorted; unfold newer; intros; lia).
    eapply (sorted_strictly _ _ bo_id); [|exact Hs|by rewrite js_sort_perm]. unfold newer. intros x y. lia.
Qed.

(** A body that names some columns changes those, for that bonus. *)
Lemma update_merges id p s fs r kept :
  z_parse BonusUpdateRequestSchema p = Some (VObj fs) → find_bonus id s = Some r → bonus_ok s →
  pg_row (merge (toBonusEntityInput fs) r) = Some kept →
  (update id p s).1 = Ret (entry (merge (toBonusEntityInput fs) r))
  ∧ rows (bs_bonuses (update id p s).2) ≡ₚ kept :: filter (λ r', str_of_Z (bo_id r') ≠ str_of_Z (bo_id kept)) (rows (bs_bonuses s)).
Proof.
  intros Hp Hf [Hrows _] Hk. rewrite update_eq, Hp, Hf. rewrite save_and_show_eq, Hk.
  - split; [done|]. cbn. by rewrite rows_save.
  - apply merge_ok; [by eapply update_claims|]. apply find_row_Some in Hf as [Hr _]. by apply Hrows.
Qed.

(** An expiry date, once set, cannot be taken away again: the schema refuses null. *)
Lemma expiry_cannot_be_cleared id p s :
  (∀ r, r ∈ rows (bs_bonuses s) → bo_id r = id → bb_expiryDate (bo_base r) ≠ None) → bonus_ok s →
  ∀ r, r ∈ rows (bs_bonuses (update id p s).2) → bo_id r = id → bb_expiryDate (bo_base r) ≠ None.
Proof.
  intros He Hok. rewrite update_eq. destruct (z_parse _ p) as [[| | | | | |fs|]|] eqn:Ep; try done.
  destruct (find_bonus id s) as [r|] eqn:Ef; [|done].
  pose proof (find_row_Some _ _ _ Ef) as [Hr Hid%bool_decide_eq_true].
  rewrite save_and_show_eq; [|apply merge_ok; [by eapply update_claims | by apply Hok]].
  destruct (pg_row _) as [kept|] eqn:Ek; [|done]. cbn. intros r'. rewrite rows_save, elem_of_cons, list_elem_of_filter.
  intros [->|[_ Hr']] Hid'; [|by apply He].
  assert (bb_expiryDate (merge_base (toBonusEntityInput fs) (bo_base r)) ≠ None) as Hne.
  { cbn. apply object_parsed in Ep as (fs0 & -> & Hp).
    assert (z_parse (ZOptional (ZOptional s_str)) (field "expiryDate" fs0) = Some (field "expiryDate" fs)) as H.
    { eapply parse_shape_field; [exact Hp| |cbn; set_solver]. rewrite <- list_fmap_compose. exact keys_distinct. }
    rewrite !parse_optional in H. unfold s_str in H. rewrite parse_string in H. specialize (He r Hr Hid).
    destruct (field "expiryDate" fs0); simplify_eq/=; try done; by rewrite <- H. }
  unfold pg_row, pg_base in Ek. cbn [bo_base merge] in Ek. destruct (bb_expiryDate (merge_base _ _)) as [d|]; [|done].
  destruct (pg_date d); [|done]. cbn in Ek. destruct (_ && _); simplify_eq/=. done.
Qed.
End Bonus.

(** ** Witness *)

Definition bonus_body0 : jsval := VObj [
  ("name", VStr "Reload"); ("type", VStr "deposit"); ("description", VStr "d"); ("bonusPercent", VNum 50);
  ("expiryDate", VStr "2030-01-31"); ("eligibility", VStr "all"); ("status", VStr "active"); ("claimsWeek", VNull)].
Definition bonus_calls0 : list bonus_call := [
  CCreate bonus_body0; CCreate bonus_body0; CUpdate 1 (VObj [("status", VStr "paused"); ("claimsWeek", VNum 3)]);
  CUpdate 1 (VObj [("claimsWeek", VNum (-1))]); CCreate (VObj []); CRemove 2].
Definition bonus0 : BonusStore (T := list) :=
  {| bs_bonuses := []; bs_nextBonus := 1; bs_defaults := []; bs_nextDefault := 1; bs_options := [] |}.
Definition bonus1 := foldl (bonus_step (ZO := zod0) Some) bonus0 bonus_calls0.

Lemma bonuses_can_be_shown_witness :
  ((λ r, (bo_id r, bb_status (bo_base r), bo_claimsWeek r)) <$> bs_bonuses bonus1) = [(1, "paused", 3)]
  ∧ list_bonuses (ZO := zod0) bonus1 = (Ret (VArr (entry <$> js_sort newer (rows (bs_bonuses bonus1)))), bonus1)
  ∧ StronglySorted (λ a b, bo_id b < bo_id a) (js_sort newer (rows (bs_bonuses bonus1))).
Proof.
  split; [vm_compute; done|]. by apply (bonuses_can_be_shown (ZO := zod0) (ZL := zod0_laws) Some bonus0 bonus_calls0).
Defined.
