(* ===== verification/Simulator.v ===== *)
(** * The tournament simulator

    shared/utils/tournamentSimulator.ts and the route of
    backend/src/routes/admin-tournaments.controller.ts that calls it. The generator
    works on integers below 2^53, so [Z] is exact; durations and shares are taken
    as exact rationals, and [Math.log10] is a parameter. *)

From Stdlib Require Import QArith Qround Qminmax Lqa.
From S2P Require Import Prelude JsNum.
#[local] Open Scope Z_scope.

Record BlindLevel := { bl_durationMinutes : Q; bl_blindMultiplier : option Q }.
Record SimulationOptions := { so_handsPerLevel : Q; so_msPerMinute : Q; so_seedValue : option Z }.
Record SimulationResult := { sr_levelAverages : list Q; sr_totalDuration : Q }.
Record BotProfile := { bp_proportion : Q; bp_bustMultiplier : Q }.
Record TournamentSimulationResult := { tr_averageDuration : Q; tr_durationVariance : Q }.

Definition DEFAULT_OPTIONS : SimulationOptions :=
  {| so_handsPerLevel := 5; so_msPerMinute := 60000; so_seedValue := Some 1 |}.
Definition DEFAULT_PROFILE : BotProfile := {| bp_proportion := 1; bp_bustMultiplier := 1 |}.

(** ** The generator *)

Definition modulus : Z := 4294967295. (* 0xffffffff *)
Definition next_seed (seed : Z) : Z := Z.rem (seed * 1664525 + 1013904223) modulus.
Definition rand (seed : Z) : Q * Z := ((inject_Z (next_seed seed) / inject_Z modulus)%Q, next_seed seed).
Definition xor32 (a b : Z) : Z := to_int32 (Z.lxor a b).

Definition playHand (expected : Q) (seed : Z) : Q * Z :=
  let '(r, seed') := rand seed in
  let variance := ((9#10) + (1#5) * r)%Q in
  ((expected * variance)%Q, seed').

(** ** One run *)

Fixpoint play_hands (n : nat) (expected levelTotal : Q) (seed : Z) : Q * Z :=
  match n with
  | O => (levelTotal, seed)
  | S n' => let '(d, seed') := playHand expected seed in play_hands n' expected (levelTotal + d)%Q seed'
  end.

(** [Math.max(1, Math.round(x))] *)
Definition hand_count (handsPerLevel : Q) (l : BlindLevel) : Z :=
  Z.max 1 (Qfloor (handsPerLevel * default 1%Q (bl_blindMultiplier l) + (1#2))).
Definition expected_of (msPerMinute : Q) (l : BlindLevel) : Q := (bl_durationMinutes l * msPerMinute)%Q.

Fixpoint run_levels (o : SimulationOptions) (structure : list BlindLevel) (averages : list Q) (total : Q) (seed : Z)
    : SimulationResult :=
  match structure with
  | [] => {| sr_levelAverages := averages; sr_totalDuration := total |}
  | lvl :: rest =>
      let handCount := hand_count (so_handsPerLevel o) lvl in
      let '(levelTotal, seed') := play_hands (Z.to_nat handCount) (expected_of (so_msPerMinute o) lvl) 0 seed in
      run_levels o rest (averages ++ [(levelTotal / inject_Z handCount)%Q]) (total + levelTotal)%Q seed'
  end.
Definition simulateStructure (structure : list BlindLevel) (o : SimulationOptions) : SimulationResult :=
  run_levels o structure [] 0 (default 1 (so_seedValue o)).

(** ** Profiles and the scale *)

Fixpoint sumQ (l : list Q) : Q := match l with [] => 0%Q | x :: l' => (x + sumQ l')%Q end.

Definition with_proportion (q : Q) (p : BotProfile) : BotProfile :=
  {| bp_proportion := q; bp_bustMultiplier := bp_bustMultiplier p |}.
Definition nonnegative (p : BotProfile) : BotProfile :=
  with_proportion (if Qle_bool 0 (bp_proportion p) then bp_proportion p else 0%Q) p.
Definition normalizeProfiles (profiles : list BotProfile) : list BotProfile :=
  match profiles with
  | [] => [DEFAULT_PROFILE]
  | _ =>
      let ps := nonnegative <$> profiles in
      let total := sumQ (bp_proportion <$> ps) in
      if Qle_bool total 0 then with_proportion (1 / inject_Z (Z.of_nat (length ps)))%Q <$> ps
      else (λ p, with_proportion (bp_proportion p / total)%Q p) <$> ps
  end.

Fixpoint weigh (profiles : list BotProfile) (weighted : Q) (seed : Z) : Q :=
  match profiles with
  | [] => weighted
  | p :: rest =>
      let '(r, seed') := rand seed in
      let variance := ((9#10) + (1#5) * r)%Q in
      weigh rest (weighted + bp_proportion p * bp_bustMultiplier p * variance)%Q seed'
  end.

Section Simulator.
Context (log10 : Q → Q).

(** The numbers are 0x9e3779b9 and 0x85ebca77; the results of [^] are signed. *)
Definition computeDurationScale (entrants : Q) (profiles : list BotProfile) (seedValue : Z) : Q :=
  let '(r, _) := rand (xor32 seedValue 2654435769) in
  let entrantsBase := Qmax 1 (log10 (Qmax entrants 1)) in
  let entrantsVariance := ((9#10) + (1#5) * r)%Q in
  let entrantsFactor := (entrantsBase * entrantsVariance)%Q in
  let weighted := weigh profiles 0 (xor32 seedValue 2246822519) in
  let bustFactor := if Qle_bool weighted 0 then 1%Q else (1 / weighted)%Q in
  let scale := (entrantsFactor * bustFactor)%Q in
  Qmin (Qmax scale (1#4)) 12.

Definition with_seed (o : SimulationOptions) (seed : Z) : SimulationOptions :=
  {| so_handsPerLevel := so_handsPerLevel o; so_msPerMinute := so_msPerMinute o; so_seedValue := Some seed |}.
Definition sample (structure : list BlindLevel) (entrants : Q) (profiles : list BotProfile) (o : SimulationOptions)
    (i : nat) : Q :=
  let seedValue := default 1 (so_seedValue o) + Z.of_nat i * 97 in
  (sr_totalDuration (simulateStructure structure (with_seed o seedValue))
   * computeDurationScale entrants profiles seedValue)%Q.
Definition collectDurationSamples (structure : list BlindLevel) (entrants : Q) (runs : Z) (profiles : list BotProfile)
    (o : SimulationOptions) : list Q :=
  sample structure entrants (normalizeProfiles profiles) o <$> seq 0 (Z.to_nat (Z.max 1 runs)).

Definition computeAverage (values : list Q) : Q :=
  match values with [] => 0%Q | _ => (sumQ values / inject_Z (Z.of_nat (length values)))%Q end.
Definition computeVariance (values : list Q) (mean : Q) : Q :=
  match values with
  | [] => 0%Q
  | _ => (sumQ ((λ v, (v - mean) * (v - mean))%Q <$> values) / inject_Z (Z.of_nat (length values)))%Q
  end.

Definition simulate (structure : list BlindLevel) (entrants : Q) (runs : Z) (profiles : list BotProfile)
    (o : SimulationOptions) : TournamentSimulationResult :=
  let durations := collectDurationSamples structure entrants runs profiles o in
  let averageDuration := computeAverage durations in
  {| tr_averageDuration := averageDuration; tr_durationVariance := computeVariance durations averageDuration |}.

(** The route builds the levels. *)
Definition route_structure (levels : nat) (levelMinutes increment : Q) : list BlindLevel :=
  (λ i, {| bl_durationMinutes := levelMinutes; bl_blindMultiplier := Some (1 + inject_Z (Z.of_nat i) * increment)%Q |})
  <$> seq 0 levels.
Definition simulate_route (levels : nat) (levelMinutes increment entrants : Q) (runs : Z) (profiles : list BotProfile)
    : TournamentSimulationResult :=
  simulate (route_structure levels levelMinutes increment) entrants runs profiles DEFAULT_OPTIONS.
End Simulator.

(** ** The generator stays in range *)

Lemma next_seed_range seed : - modulus < next_seed seed < modulus.
Proof. unfold next_seed. pose proof (Z.rem_bound_abs (seed * 1664525 + 1013904223) modulus). unfold modulus in *. lia. Qed.
Lemma next_seed_nonneg seed : 0 <= seed → 0 <= next_seed seed.
Proof. intros H. unfold next_seed. apply Z.rem_nonneg; unfold modulus; lia. Qed.

Lemma over_modulus z q : (inject_Z z / inject_Z modulus == q)%Q ↔ (inject_Z z == q * inject_Z modulus)%Q.
Proof. split; intros H; [rewrite <- H | rewrite H]; field; done. Qed.

Lemma rand_any seed : (-1 < (rand seed).1 < 1)%Q.
Proof.
  cbn [rand fst]. pose proof (next_seed_range seed) as [H1 H2].
  split; [apply Qlt_shift_div_l | apply Qlt_shift_div_r]; try done.
  - change (-1 * inject_Z modulus)%Q with (inject_Z (- modulus)). by rewrite <- Zlt_Qlt.
  - rewrite Qmult_1_l. by rewrite <- Zlt_Qlt.
Qed.
Lemma rand_nonneg seed : 0 <= seed → (0 <= (rand seed).1)%Q ∧ 0 <= (rand seed).2.
Proof.
  intros H. pose proof (next_seed_nonneg seed H) as H1. split; [|done]. cbn [rand fst].
  apply Qle_shift_div_l; [done|]. rewrite Qmult_0_l. change 0%Q with (inject_Z 0). by rewrite <- Zle_Qle.
Qed.

(** One seed is its own successor. *)
Lemma stuck_seed : next_seed 1144735523 = 1144735523.
Proof. done. Qed.
(** The seeds of the scale are often negative, and so are their numbers. *)
Lemma scale_seed_is_negative : xor32 1 2654435769 = -1640531528 ∧ ((rand (xor32 1 2654435769)).1 < 0)%Q.
Proof. by vm_compute. Qed.

Definition inside (lo x hi : Q) : Prop := (lo <= x)%Q ∧ (x <= hi)%Q.

Lemma play_bounds expected seed :
  0 <= seed → (0 <= expected)%Q →
  inside ((9#10) * expected) (playHand expected seed).1 ((11#10) * expected) ∧ 0 <= (playHand expected seed).2.
Proof.
  intros Hs He. unfold playHand. pose proof (rand_any seed) as [_ Hlt]. destruct (rand_nonneg seed Hs) as [Hr Hs'].
  destruct (rand seed) as [r seed']. cbn [fst snd] in *. split; [|done]. split; cbn; nra.
Qed.

Lemma inject_S n : (inject_Z (Z.of_nat (S n)) == inject_Z (Z.of_nat n) + 1)%Q.
Proof. rewrite Nat2Z.inj_succ, <- Z.add_1_r, inject_Z_plus. done. Qed.

Lemma play_hands_bounds n expected levelTotal seed :
  0 <= seed → (0 <= expected)%Q →
  inside (levelTotal + inject_Z (Z.of_nat n) * ((9#10) * expected)) (play_hands n expected levelTotal seed).1
          (levelTotal + inject_Z (Z.of_nat n) * ((11#10) * expected))
  ∧ 0 <= (play_hands n expected levelTotal seed).2.
Proof.
  revert levelTotal seed. induction n as [|n IH]; intros levelTotal seed Hs He.
  { split; [|done]. split; cbn [play_hands fst]; change (inject_Z (Z.of_nat 0)) with 0%Q; lra. }
  cbn [play_hands]. destruct (play_bounds expected seed Hs He) as [[H1 H2] Hs'].
  destruct (playHand expected seed) as [d seed']. cbn [fst snd] in *.
  destruct (IH (levelTotal + d)%Q seed' Hs' He) as [[H3 H4] H5]. split; [|done].
  split; rewrite inject_S; lra.
Qed.

(** ** Totals *)

(** What the structure would last at the expected times. *)
Definition nominal (o : SimulationOptions) (structure : list BlindLevel) : Q :=
  sumQ ((λ l, inject_Z (hand_count (so_handsPerLevel o) l) * expected_of (so_msPerMinute o) l)%Q <$> structure).

Definition sane (o : SimulationOptions) (structure : list BlindLevel) : Prop :=
  (0 <= so_msPerMinute o)%Q ∧ Forall (λ l, 0 <= bl_durationMinutes l)%Q structure.

Lemma expected_nonneg o structure l : sane o structure → l ∈ structure → (0 <= expected_of (so_msPerMinute o) l)%Q.
Proof.
  intros [Hm Hd] Hl. rewrite Forall_forall in Hd. specialize (Hd l Hl). unfold expected_of.
  by apply Qmult_le_0_compat.
Qed.

Lemma hand_count_pos h l : 1 <= hand_count h l.
Proof. unfold hand_count. lia. Qed.

Lemma run_levels_bounds o structure averages total seed :
  sane o structure → 0 <= seed →
  inside (total + (9#10) * nominal o structure) (sr_totalDuration (run_levels o structure averages total seed))
          (total + (11#10) * nominal o structure).
Proof.
  revert averages total seed. induction structure as [|l structure IH]; intros averages total seed Hs Hseed.
  { split; cbn; lra. }
  cbn [run_levels]. pose proof (expected_nonneg _ _ l Hs ltac:(by left)) as He.
  set (n := Z.to_nat (hand_count (so_handsPerLevel o) l)).
  destruct (play_hands_bounds n _ 0 seed Hseed He) as [[H1 H2] H3].
  destruct (play_hands n _ 0 seed) as [t seed']. cbn [fst snd] in *.
  assert (sane o structure) as Hs' by (destruct Hs as [? [_ ?]%Forall_cons]; done).
  destruct (IH (averages ++ [(t / inject_Z (hand_count (so_handsPerLevel o) l))%Q]) (total + t)%Q seed' Hs' H3) as [H4 H5].
  assert (Z.of_nat n = hand_count (so_handsPerLevel o) l) as En
    by (unfold n; pose proof (hand_count_pos (so_handsPerLevel o) l); lia). rewrite En in *.
  unfold nominal in *. rewrite fmap_cons. cbn [sumQ]. split; lra.
Qed.

(** ** The scale *)

Lemma scale_bounds log10 entrants profiles seed :
  inside (1#4) (computeDurationScale log10 entrants profiles seed) 12.
Proof.
  unfold computeDurationScale. destruct (rand _) as [r ?]. split.
  - apply Q.min_glb; [apply Q.le_max_r | done].
  - apply Q.le_min_r.
Qed.

(** ** Profiles *)

Lemma sumQ_scale q l : (sumQ ((λ x, x * q)%Q <$> l) == sumQ l * q)%Q.
Proof. induction l as [|x l IH]; cbn; [lra|]. change (list_fmap _ _ _ l) with ((λ x, x * q)%Q <$> l). rewrite IH. lra. Qed.
Lemma sumQ_const q {A} (l : list A) : (sumQ ((λ _, q) <$> l) == inject_Z (Z.of_nat (length l)) * q)%Q.
Proof.
  induction l as [|x l IH]; [done|]. rewrite fmap_cons. cbn [sumQ length]. rewrite IH, inject_S. lra.
Qed.
Lemma sumQ_bounds lo hi l :
  Forall (λ x, inside lo x hi) l →
  inside (inject_Z (Z.of_nat (length l)) * lo) (sumQ l) (inject_Z (Z.of_nat (length l)) * hi).
Proof.
  induction 1 as [|x l [H1 H2] _ [H3 H4]]; [by split|]. cbn [sumQ length]. split; rewrite inject_S; lra.
Qed.

(** The shares are not negative and make one. *)
Lemma normalized profiles :
  Forall (λ p, 0 <= bp_proportion p)%Q (normalizeProfiles profiles)
  ∧ (sumQ (bp_proportion <$> normalizeProfiles profiles) == 1)%Q.
Proof.
  destruct profiles as [|p ps]; [by split; [repeat constructor|]|]. unfold normalizeProfiles.
  set (l := nonnegative <$> p :: ps). assert (Forall (λ p, 0 <= bp_proportion p)%Q l) as Hn.
  { apply Forall_fmap, Forall_true. intros q. cbn. destruct (Qle_bool 0 (bp_proportion q)) eqn:E; [|done].
    by apply Qle_bool_iff. }
  assert (0 < length l)%nat as Hl by (cbn; lia). clearbody l. clear p ps.
  destruct (Qle_bool (sumQ (bp_proportion <$> l)) 0) eqn:E.
  - assert (0 < inject_Z (Z.of_nat (length l)))%Q as Hq by (change 0%Q with (inject_Z 0); rewrite <- Zlt_Qlt; lia).
    split.
    + apply Forall_fmap, Forall_true. intros q. cbn. apply Qle_shift_div_l; lra.
    + rewrite <- list_fmap_compose. etransitivity; [apply (sumQ_const (1 / inject_Z (Z.of_nat (length l)))%Q l)|]. field. lra.
  - assert (0 < sumQ (bp_proportion <$> l))%Q as Hq.
    { apply Qnot_le_lt. intros H. apply Qle_bool_iff in H. congruence. }
    split.
    + apply Forall_fmap. apply (Forall_impl _ _ _ Hn). intros q Hq0. cbn. apply Qle_shift_div_l; lra.
    + rewrite <- list_fmap_compose. set (t := sumQ (bp_proportion <$> l)) in *.
      assert (bp_proportion ∘ (λ p, with_proportion (bp_proportion p / t)%Q p) <$> l
              = (λ x, x * / t)%Q <$> (bp_proportion <$> l)) as -> by by rewrite <- list_fmap_compose.
      rewrite sumQ_scale. fold t. field. lra.
Qed.

(** ** The result *)

Lemma average_bounds lo hi l : l ≠ [] → Forall (λ x, inside lo x hi) l → inside lo (computeAverage l) hi.
Proof.
  intros Hne H. destruct (sumQ_bounds _ _ _ H) as [H1 H2]. unfold computeAverage. destruct l as [|x l]; [done|].
  assert (0 < inject_Z (Z.of_nat (length (x :: l))))%Q as Hq
    by (change 0%Q with (inject_Z 0); rewrite <- Zlt_Qlt; cbn; lia).
  split; [apply Qle_shift_div_l | apply Qle_shift_div_r]; try done; lra.
Qed.

Lemma variance_as_average l mean : computeVariance l mean = computeAverage ((λ v, (v - mean) * (v - mean))%Q <$> l).
Proof. destruct l as [|x l]; [done|]. unfold computeVariance, computeAverage. by rewrite length_fmap. Qed.

Lemma square_bound a x y b : inside a x b → inside a y b → inside 0 ((x - y) * (x - y)) ((b - a) * (b - a)).
Proof.
  intros [H1 H2] [H3 H4]. split.
  { destruct (Qlt_le_dec (x - y) 0) as [H|H]; [|by apply Qmult_le_0_compat].
    assert (0 <= (y - x) * (y - x))%Q by (apply Qmult_le_0_compat; lra). lra. }
  assert (0 <= ((b - a) - (x - y)) * ((b - a) + (x - y)))%Q by (apply Qmult_le_0_compat; lra). lra.
Qed.

Lemma variance_bounds lo hi l :
  l ≠ [] → Forall (λ x, inside lo x hi) l →
  inside 0 (computeVariance l (computeAverage l)) ((hi - lo) * (hi - lo)).
Proof.
  intros Hne H. rewrite variance_as_average. apply average_bounds; [by destruct l|].
  apply Forall_fmap. pose proof (average_bounds _ _ _ Hne H) as Hm. apply (Forall_impl _ _ _ H).
  intros x Hx. cbn. by apply square_bound.
Qed.

Lemma nominal_nonneg o structure : sane o structure → (0 <= nominal o structure)%Q.
Proof.
  intros Hs. unfold nominal. destruct Hs as [Hm Hd]. induction Hd as [|l structure Hl _ IH]; [done|].
  rewrite fmap_cons. cbn [sumQ]. pose proof (hand_count_pos (so_handsPerLevel o) l) as H.
  assert (0 <= expected_of (so_msPerMinute o) l)%Q by by apply Qmult_le_0_compat.
  assert (0 <= inject_Z (hand_count (so_handsPerLevel o) l))%Q
    by (change 0%Q with (inject_Z 0); rewrite <- Zle_Qle; lia).
  assert (0 <= inject_Z (hand_count (so_handsPerLevel o) l) * expected_of (so_msPerMinute o) l)%Q
    by by apply Qmult_le_0_compat. lra.
Qed.

Section Result.
Context (log10 : Q → Q).

Lemma sample_bounds structure entrants profiles o i :
  sane o structure → 0 <= default 1 (so_seedValue o) →
  inside ((9#40) * nominal o structure) (sample log10 structure entrants profiles o i) ((66#5) * nominal o structure).
Proof.
  intros Hs Hseed. unfold sample. set (seed := default 1 (so_seedValue o) + Z.of_nat i * 97).
  assert (0 <= seed) as Hs0 by lia.
  destruct (scale_bounds log10 entrants profiles seed) as [H1 H2].
  assert (sane (with_seed o seed) structure) as Hs' by done.
  destruct (run_levels_bounds (with_seed o seed) structure [] 0 seed Hs' Hs0) as [H3 H4].
  change (nominal (with_seed o seed) structure) with (nominal o structure) in *.
  change (simulateStructure structure (with_seed o seed)) with (run_levels (with_seed o seed) structure [] 0 seed).
  pose proof (nominal_nonneg o structure Hs) as Hn.
  set (d := sr_totalDuration _) in *. set (c := computeDurationScale _ _ _ _) in *. clearbody d c. split; nra.
Qed.

(** The simulator stays within its factors. For a structure without negative times, a seed that is not
    negative, any profiles, entrants and number of runs, and whatever the logarithm answers: every
    simulated duration, and their average, lies between nine fortieths and sixty-six fifths of what the
    hands would last at their expected times, and the variance between zero and the square of that range;
    the shares of the profiles are not negative and make one. *)
Lemma simulation_stays_in_range structure entrants runs profiles o :
  sane o structure → 0 <= default 1 (so_seedValue o) →
  let lo := ((9#40) * nominal o structure)%Q in
  let hi := ((66#5) * nominal o structure)%Q in
  let r := simulate log10 structure entrants runs profiles o in
  length (collectDurationSamples log10 structure entrants runs profiles o) = Z.to_nat (Z.max 1 runs)
  ∧ Forall (λ d, inside lo d hi) (collectDurationSamples log10 structure entrants runs profiles o)
  ∧ inside lo (tr_averageDuration r) hi
  ∧ inside 0 (tr_durationVariance r) ((hi - lo) * (hi - lo))
  ∧ Forall (λ p, 0 <= bp_proportion p)%Q (normalizeProfiles profiles)
  ∧ (sumQ (bp_proportion <$> normalizeProfiles profiles) == 1)%Q.
Proof.
  intros Hs Hseed lo hi r.
  assert (Forall (λ d, inside lo d hi) (collectDurationSamples log10 structure entrants runs profiles o)) as Hall.
  { apply Forall_fmap, Forall_true. intros i. by apply sample_bounds. }
  assert (collectDurationSamples log10 structure entrants runs profiles o ≠ []) as Hne.
  { intros E%(f_equal length). unfold collectDurationSamples in E. rewrite length_fmap, length_seq in E. cbn in E. lia. }
  split_and!; [|done|by apply average_bounds|by apply variance_bounds|apply normalized..].
  unfold collectDurationSamples. by rewrite length_fmap, length_seq.
Qed.
End Result.

(** The multiplier of a level does not touch its blinds: it adds hands, and so time. *)
Lemma multiplier_adds_hands h d m :
  0 < h → 0 < m →
  hand_count (inject_Z h) {| bl_durationMinutes := d; bl_blindMultiplier := Some (inject_Z m) |} = h * m.
Proof.
  intros Hh Hm. unfold hand_count, Qfloor, inject_Z. cbn.
  change (Z.pos (1 * 1 * 2)) with 2. change (1 * Z.pos (1 * 1)) with 1.
  rewrite Z.div_add_l by lia. change (1 / 2) with 0. nia.
Qed.

(** ** Witness *)

Definition structure0 : list BlindLevel := [
  {| bl_durationMinutes := 10; bl_blindMultiplier := None |};
  {| bl_durationMinutes := 10; bl_blindMultiplier := Some (3#2) |}].
Lemma simulation_stays_in_range_witness :
  nominal DEFAULT_OPTIONS structure0 = (7800000 # 1)%Q
  ∧ let lo := ((9#40) * nominal DEFAULT_OPTIONS structure0)%Q in
    let hi := ((66#5) * nominal DEFAULT_OPTIONS structure0)%Q in
    let r := simulate (λ _, 2%Q) structure0 100 2 [] DEFAULT_OPTIONS in
    length (collectDurationSamples (λ _, 2%Q) structure0 100 2 [] DEFAULT_OPTIONS) = Z.to_nat (Z.max 1 2)
    ∧ Forall (λ d, inside lo d hi) (collectDurationSamples (λ _, 2%Q) structure0 100 2 [] DEFAULT_OPTIONS)
    ∧ inside lo (tr_averageDuration r) hi
    ∧ inside 0 (tr_durationVariance r) ((hi - lo) * (hi - lo))
    ∧ Forall (λ p, 0 <= bp_proportion p)%Q (normalizeProfiles [])
    ∧ (sumQ (bp_proportion <$> normalizeProfiles []) == 1)%Q.
Proof.
  split; [vm_compute; done|]. apply (simulation_stays_in_range (λ _, 2%Q) structure0 100 2 [] DEFAULT_OPTIONS); [|done].
  split; [done|]. repeat constructor; done.
Defined.
