(* ===== verification/WalletRoutes.v ===== *)
(** * The wallet's routes

    backend/src/routes/wallet.controller.ts with its guards: AuthGuard, the limit of
    requests and SelfGuard, in that order, over the wallet of [WalletModel] and
    [WalletCash], and the identity service of [Kyc] over the same accounts. Bodies are
    JSON and parsed by the schemas of shared/wallet.schema.ts; the schemas of the
    answers are left out. The limit of requests is a package: a request says whether
    it was let through. What the wallet itself asks the identity service before cash
    moves is a parameter of the wallet (see [Compliance]); the flag such a question may
    set on the row of the account it is about is left out there. *)

From S2P Require Import Prelude JsText Kyc KycSafety SidePots Store Schemas WalletModel WalletCash WalletLedger Auth.
#[local] Open Scope string_scope.
#[local] Open Scope list_scope.
#[local] Open Scope Z_scope.

(** ** Bodies *)

Definition CurrencySchema : schema := ZString [CLength 3].
Definition s_amount : schema := ZNumber [CInt; CPositive].
Definition AmountDeviceSchema : schema := s_object [
  ("amount", s_amount); ("deviceId", s_str); ("currency", CurrencySchema)].
Definition WithdrawSchema : schema := AmountDeviceSchema.
Definition DepositSchema : schema := AmountDeviceSchema.
Definition TxSchema : schema := s_object [
  ("amount", s_amount); ("tx", s_str); ("currency", CurrencySchema);
  ("rake", ZOptional (ZNumber [CInt; CNonnegative]))].
Definition BankTransferDepositRequestSchema : schema := s_object [
  ("amount", s_amount); ("currency", CurrencySchema); ("deviceId", s_str); ("ip", ZOptional s_str);
  ("idempotencyKey", ZOptional s_str)].

Definition num_of (v : jsval) : Z := match v with VNum n => n | _ => 0 end.
Definition str_of (v : jsval) : string := match v with VStr s => s | _ => "" end.
Definition text_of_val (v : jsval) : option string := match v with VStr s => Some s | _ => None end.

(** ** Requests *)

Record WalletRequest := {
  wr_header : option string; wr_now : Z; wr_throttled : bool; wr_ip : option string; wr_remoteAddress : option string }.

Definition present_text (o : option string) : option string :=
  match o with Some s => if bool_decide (js_trim s = "") then None else Some s | None => None end.
Definition getRequestIp (req : WalletRequest) : string :=
  match present_text (wr_ip req) with
  | Some ip => ip
  | None => default "0.0.0.0" (present_text (wr_remoteAddress req))
  end.
Definition resolveIp (preferred : option string) (fallback : string) : string :=
  default fallback (present_text preferred).

Inductive WalletRoute :=
| RReserve (body : jsval) | RCommit (body : jsval) | RRollback (body : jsval)
| RWithdraw (body : jsval) | RDeposit (body : jsval) | RBankTransfer (body : jsval)
| RCancelDeposit (depositId : string) | RVerify | RStatus | RTransactions | RPending.

Inductive WalletAnswer :=
| Message (text : string) | Challenge (v : CachedValue) | Status (s : WalletStatus) | View (v : TransactionsView).

Section Routes.
Context {ZO : ZodOps} {T : Type → Type} `{!TableOps T} {R : Type} `{!RedisOps R CachedValue}
  {B : Type} `{!BusOps B WalletEvent} (env : WalletEnv) (C : Crypto) (cfg : AuthConfig).
(** The identity service: its providers, and its cache. *)
Context {K : Type} `{!RedisOps K KycCached} (kenv : KycEnv).
Abbreviation WM := (M (WalletState T R B)).
Abbreviation W := (WalletState T R B).

(** The wallet, and what the identity service keeps of its own. The two share the table of accounts,
    which is the wallet's. *)
Record RouteWorld := { rw_wallet : W; rw_kyc : KycStore (T := list) (R := K) }.
Abbreviation RM := (M RouteWorld).

Definition on_wallet {A} (m : WM A) : RM A := λ s,
  let '(o, w) := m (rw_wallet s) in (o, {| rw_wallet := w; rw_kyc := rw_kyc s |}).
(** The row of an account as kyc.service.ts reads it: the entity has no column [region]. *)
Definition kyc_row (a : Account) : KycAccount :=
  {| ka_id := a_id a; ka_name := a_name a; ka_region := None; ka_verified := a_kycVerified a |}.
Definition with_verdict (l : list KycAccount) (a : Account) : Account :=
  match find_row (λ b, bool_decide (ka_id b = a_id a)) l with
  | Some b => {| a_id := a_id a; a_name := a_name a; a_currency := a_currency a; a_balance := a_balance a;
                 a_creditBalance := a_creditBalance a; a_kycVerified := ka_verified b |}
  | None => a
  end.
(** A call of the identity service, which reads the rows of the accounts and sets their flag. *)
Definition on_identity {A} (m : M (KycStore (T := list) (R := K)) A) : RM A := λ s,
  let '(o, k) := m (Kyc.set_accounts (λ _, kyc_row <$> rows (accounts (rw_wallet s))) (rw_kyc s)) in
  (o, {| rw_wallet := set_accounts (update_where (λ _, true) (with_verdict (ks_accounts k)) (accounts (rw_wallet s))) (rw_wallet s);
         rw_kyc := k |}).

(** A [ZodError] becomes a bad request. *)
Definition parse_body (sch : schema) (body : jsval) : WM (list (string * jsval)) :=
  match z_parse sch body with Some (VObj fs) => mret fs | _ => throw "Bad Request" end.
Definition body_field (k : string) (body : jsval) : jsval := match body with VObj fs => field k fs | _ => VUndefined end.

Definition post_reserve (id : string) (body : jsval) : WM WalletAnswer :=
  fs ← parse_body TxSchema body;
  reserve env id (num_of (field "amount" fs)) (str_of (field "tx" fs)) (str_of (field "currency" fs)) None ;;
  mret (Message "reserved").
Definition post_commit (body : jsval) : WM WalletAnswer :=
  fs ← parse_body TxSchema body;
  commit env (str_of (field "tx" fs)) (num_of (field "amount" fs)) (num_of (field "rake" fs))
    (str_of (field "currency" fs)) None ;;
  mret (Message "committed").
Definition post_rollback (id : string) (body : jsval) : WM WalletAnswer :=
  fs ← parse_body TxSchema body;
  rollback env id (num_of (field "amount" fs)) (str_of (field "tx" fs)) (str_of (field "currency" fs)) None ;;
  mret (Message "rolled back").
Definition post_withdraw (req : WalletRequest) (id : string) (body : jsval) : WM WalletAnswer :=
  fs ← parse_body WithdrawSchema body;
  withdraw env id (num_of (field "amount" fs)) (str_of (field "deviceId" fs)) (getRequestIp req)
    (str_of (field "currency" fs)) (text_of_val (body_field "idempotencyKey" body)) ;;
  mret (Message "withdrawn").
Definition post_deposit (req : WalletRequest) (id : string) (body : jsval) : WM WalletAnswer :=
  fs ← parse_body DepositSchema body;
  v ← deposit env id (num_of (field "amount" fs)) (str_of (field "deviceId" fs)) (getRequestIp req)
        (str_of (field "currency" fs)) (text_of_val (body_field "idempotencyKey" body));
  mret (Challenge v).
Definition post_bankTransfer (req : WalletRequest) (id : string) (body : jsval) : WM WalletAnswer :=
  fs ← parse_body BankTransferDepositRequestSchema body;
  v ← initiateBankTransfer env id (num_of (field "amount" fs)) (str_of (field "deviceId" fs))
        (resolveIp (text_of_val (field "ip" fs)) (getRequestIp req)) (str_of (field "currency" fs))
        (text_of_val (field "idempotencyKey" fs));
  mret (Challenge v).
Definition delete_deposit (id depositId : string) : WM WalletAnswer :=
  cancelPendingDeposit id depositId ;; mret (Message "cancelled").
Definition post_kyc (id : string) : RM WalletAnswer :=
  on_identity (verify kenv id None None) ;; mret (Message "verified").
Definition get_status (id : string) : WM WalletAnswer :=
  s ← status env id; mret (Status s).
Definition get_transactions (id : string) : WM WalletAnswer :=
  v ← transactions id; mret (View v).
Definition get_pending (id : string) : WM WalletAnswer :=
  v ← pending id; mret (View v).
Definition serve (req : WalletRequest) (id : string) (r : WalletRoute) : RM WalletAnswer :=
  match r with
  | RReserve body => on_wallet (post_reserve id body)
  | RCommit body => on_wallet (post_commit body)
  | RRollback body => on_wallet (post_rollback id body)
  | RWithdraw body => on_wallet (post_withdraw req id body)
  | RDeposit body => on_wallet (post_deposit req id body)
  | RBankTransfer body => on_wallet (post_bankTransfer req id body)
  | RCancelDeposit depositId => on_wallet (delete_deposit id depositId)
  | RVerify => post_kyc id
  | RStatus => on_wallet (get_status id)
  | RTransactions => on_wallet (get_transactions id)
  | RPending => on_wallet (get_pending id)
  end.

(** The guards of the controller, and the route. *)
Definition wallet_route (req : WalletRequest) (id : string) (r : WalletRoute) : RM WalletAnswer :=
  userId ← lift (auth_guard C cfg (wr_header req) (wr_now req));
  throw_if (wr_throttled req) "Too Many Requests" ;;
  lift (self_guard userId id) ;;
  serve req id r.

(** ** Bystanders *)

Context `{!TableLaws T}.

(** Accounts of others, which are not the house's. *)
Definition bystander (userId : string) (a : Account) : Prop := a_id a ≠ userId ∧ a_name a ∉ system_names.
(** The rows [l] are there as they were. *)
Definition stands (l : list Account) (w : W) : Prop :=
  unique_ids (accounts w) ∧ ∀ a, a ∈ l → a ∈ rows (accounts w).
Definition apart (l : list Account) (a : Account) : Prop := ∀ x, x ∈ l → a_id a ≠ a_id x.

Section Bystanders.
Context (userId : string) (l : list Account) (Hl : ∀ a, a ∈ l → bystander userId a).

Lemma stands_accounts (f : W → W) : (∀ w, accounts (f w) = accounts w) → preserves (stands l) (modify f).
Proof. intros Hf. apply preserves_modify. intros w. unfold stands. by rewrite Hf. Qed.

Lemma post_entries_stands refType refId m t entries a j n a' j' n' :
  post_entries env refType refId m t entries a j n = Some (a', j', n') →
  (∀ e, e ∈ entries → apart l (mv_account e)) →
  unique_ids a ∧ (∀ x, x ∈ l → x ∈ rows a) → unique_ids a' ∧ (∀ x, x ∈ l → x ∈ rows a').
Proof.
  revert a j n. induction entries as [|e rest IH]; intros a j n H He [Hu Hin]; simpl in H; [by simplify_eq|].
  destruct (insert_row _ j) as [j1|]; [|done]. apply (IH _ _ _ H).
  - intros e' He'. apply He. by right.
  - split; [by apply unique_ids_save|]. intros x Hx. rewrite rows_save. apply elem_of_cons. right.
    apply list_elem_of_filter. split; [|by apply Hin]. cbn. intros E. by apply (He e ltac:(by left) x Hx).
Qed.

Lemma stands_emit ev : preserves (stands l) (emit ev : WM unit).
Proof. intros w Hw. unfold emit. by destruct (bus_emit ev (bus w)). Qed.
Hint Resolve stands_emit : hub.

Lemma record_stands refType refId entries m :
  (∀ e, e ∈ entries → apart l (mv_account e)) → preserves (stands l) (record env refType refId entries m).
Proof.
  intros He. unfold record. preserve.
  - intros w Hw. unfold post. destruct (post_entries _ _ _ _ _ _ _ _ _) as [[[a' j'] n']|] eqn:E; [|done].
    exact (post_entries_stands _ _ _ _ _ _ _ _ _ _ _ E He Hw).
  - unfold announce. preserve.
Qed.

Lemma found_apart {A} (m : WM Account) (k : Account → WM A) :
  triple (stands l) m (λ a w, stands l w ∧ apart l a) (stands l) →
  (∀ a, apart l a → preserves (stands l) (k a)) → preserves (stands l) (m ≫= k).
Proof.
  intros Hm Hk w Hw. specialize (Hm w Hw). unfold mbind, M_bind. destruct (m w) as [[a|e] w']; [|done].
  destruct Hm as [Hw' Ha]. by apply Hk.
Qed.

Lemma account_by_id_apart currency :
  triple (stands l) (account_by_id userId currency) (λ a w, stands l w ∧ apart l a) (stands l).
Proof.
  intros w Hw. unfold account_by_id. rewrite bind_eq. unfold gets.
  destruct (find_row _ (accounts w)) as [a|] eqn:Ef; [|done]. apply find_row_Some in Ef as [_ H%andb_true_iff].
  destruct H as [Hid%bool_decide_eq_true _]. split; [done|]. intros x Hx. rewrite Hid. intros E. destruct (Hl x Hx) as [Hne _]. by apply Hne.
Qed.

Lemma account_by_name_apart name currency :
  name ∈ system_names →
  triple (stands l) (account_by_name name currency) (λ a w, stands l w ∧ apart l a) (stands l).
Proof.
  intros Hn w Hw. unfold account_by_name. rewrite bind_eq. unfold gets.
  destruct (find_row _ (accounts w)) as [a|] eqn:Ef; [|done]. apply find_row_Some in Ef as [Ha H%andb_true_iff].
  destruct H as [Hname%bool_decide_eq_true _]. split; [done|]. intros x Hx E. destruct Hw as [Hu Hin].
  assert (x = a) as ->.
  { apply (NoDup_fmap_inj_in a_id (rows (accounts w))); [done|by apply Hin|done|done]. }
  destruct (Hl _ Hx) as [_ Hns]. by rewrite Hname in Hns.
Qed.

Lemma system_known : "reserve" ∈ system_names ∧ "prize" ∈ system_names ∧ "rake" ∈ system_names.
Proof. unfold system_names. set_solver. Qed.

Ltac found := first
  [ apply found_apart; [apply account_by_id_apart|intros ? ?]
  | apply found_apart; [apply account_by_name_apart; apply system_known|intros ? ?] ].
Ltac movements := intros e He; repeat (apply elem_of_cons in He as [->|He]; [done|]); by apply elem_of_nil in He.

Lemma reserve_stands amount refId currency : preserves (stands l) (reserve env userId amount refId currency None).
Proof. unfold reserve. do 2 found. cbn [truthy]. preserve. apply record_stands. movements. Qed.
Lemma commit_stands refId amount rake currency : preserves (stands l) (commit env refId amount rake currency None).
Proof. unfold commit. do 3 found. cbn [truthy]. preserve. apply record_stands. movements. Qed.
Lemma rollback_stands amount refId currency : preserves (stands l) (rollback env userId amount refId currency None).
Proof. unfold rollback. do 2 found. cbn [truthy]. preserve. apply record_stands. movements. Qed.

(** What moves no money moves none of these. *)
Lemma stands_redis_get k : preserves (stands l) (redis_get k : WM (option CachedValue)).
Proof. unfold redis_get. preserve. Qed.
Lemma stands_redis_set k v ttl : preserves (stands l) (redis_set k v ttl : WM unit).
Proof. by apply stands_accounts. Qed.
Lemma stands_redis_del k : preserves (stands l) (redis_del k : WM unit).
Proof. by apply stands_accounts. Qed.
Lemma stands_redis_setnx k v ttl : preserves (stands l) (redis_setnx k v ttl : WM bool).
Proof. intros w Hw. unfold redis_setnx. by destruct (r_setnx k v ttl (redis w)). Qed.
Lemma stands_redis_incrby k n : preserves (stands l) (redis_incrby k n : WM Z).
Proof. intros w Hw. unfold redis_incrby. by destruct (r_incrby k n (redis w)). Qed.
Lemma stands_redis_expire k ttl : preserves (stands l) (redis_expire k ttl : WM Z).
Proof. intros w Hw. unfold redis_expire. by destruct (r_expire k ttl (redis w)). Qed.
Lemma stands_or_fail {A} e (o : option A) : preserves (stands l) (or_fail e o : WM A).
Proof. unfold or_fail. destruct o; preserve. Qed.
Lemma stands_uuid : preserves (stands l) (fresh_uuid env : WM string).
Proof. intros w Hw. exact Hw. Qed.
Hint Resolve stands_redis_get stands_redis_set stands_redis_del stands_redis_setnx stands_redis_incrby
  stands_redis_expire stands_or_fail stands_uuid : hub.
Hint Extern 1 (preserves (stands l) (modify _)) => (apply stands_accounts; done) : hub.

Lemma stands_account_by_id id currency : preserves (stands l) (account_by_id id currency : WM Account).
Proof. unfold account_by_id. preserve. Qed.
Lemma stands_account_of id : preserves (stands l) (account_of id : WM Account).
Proof. unfold account_of. preserve. Qed.
Lemma stands_checkVelocity op dev ip : preserves (stands l) (checkVelocity op dev ip : WM unit).
Proof. unfold checkVelocity. preserve. Qed.
Lemma stands_window key step limit ttl ev : preserves (stands l) (velocity_window key step limit ttl ev : WM unit).
Proof. unfold velocity_window. preserve. Qed.
Hint Resolve stands_window stands_account_by_id stands_account_of stands_checkVelocity : hub.
Lemma stands_enforceVelocity op acc amt : preserves (stands l) (enforceVelocity env op acc amt : WM unit).
Proof. unfold enforceVelocity. preserve. Qed.
Lemma stands_enforceDailyLimit op acc amt cur : preserves (stands l) (enforceDailyLimit env op acc amt cur : WM unit).
Proof. unfold enforceDailyLimit. preserve. Qed.
Lemma stands_request n e : preserves (stands l) (request_attempts env n e : WM string).
Proof.
  revert e. induction n as [|n IH]; intros e; [apply preserves_throw|]. intros w Hw. cbn [request_attempts].
  destruct (provider_http env (http_calls w)); [exact Hw | by apply IH].
Qed.
Lemma stands_check_chargebacks acc dev : preserves (stands l) (check_chargebacks env acc dev : WM unit).
Proof. unfold check_chargebacks, chargeback_check. preserve. Qed.
Hint Resolve stands_enforceVelocity stands_enforceDailyLimit stands_request stands_check_chargebacks : hub.
Lemma stands_idempotent key body : preserves (stands l) body → preserves (stands l) (idempotent key body : WM CachedValue).
Proof. intros Hb. unfold idempotent, idem_enter, idem_store. preserve. Qed.
Lemma stands_mark id job : preserves (stands l) (markActionRequiredIfPending id job : WM unit).
Proof. unfold markActionRequiredIfPending. preserve. Qed.
Lemma stands_save_deposit d : preserves (stands l) (save_deposit d : WM unit).
Proof. by apply stands_accounts. Qed.
Hint Resolve stands_mark stands_save_deposit : hub.

Lemma stands_withdraw acc amt dev ip cur key :
  preserves (stands l) (withdraw env acc amt dev ip cur key : WM CachedValue).
Proof. unfold withdraw. apply stands_idempotent. unfold withdraw_body, check_geo, initiate3DS. preserve. Qed.
Lemma stands_deposit acc amt dev ip cur key :
  preserves (stands l) (deposit env acc amt dev ip cur key : WM CachedValue).
Proof. unfold deposit. apply stands_idempotent. unfold deposit_body, check_geo, initiate3DS. preserve. Qed.
Lemma stands_bank acc amt dev ip cur key :
  preserves (stands l) (initiateBankTransfer env acc amt dev ip cur key : WM CachedValue).
Proof. unfold initiateBankTransfer. apply stands_idempotent. unfold bank_body. preserve. Qed.
Lemma stands_cancel id depositId : preserves (stands l) (cancelPendingDeposit id depositId : WM unit).
Proof. unfold cancelPendingDeposit. preserve. Qed.
Hint Resolve stands_withdraw stands_deposit stands_bank stands_cancel reserve_stands commit_stands rollback_stands : hub.

(** The same of the two stores together. *)
Definition world_stands (s : RouteWorld) : Prop := stands l (rw_wallet s).

Lemma on_wallet_stands {A} (m : WM A) : preserves (stands l) m → preserves world_stands (on_wallet m).
Proof. intros Hm s Hs. specialize (Hm _ Hs). unfold on_wallet. by destruct (m (rw_wallet s)). Qed.
Hint Resolve on_wallet_stands : hub.

(** A check of the user's account sets the flag of no other. *)
Definition verdicts_of_others (l0 : list KycAccount) (k : KycStore (T := list) (R := K)) : Prop :=
  ∀ b, b ∈ ks_accounts k → ka_id b ≠ userId → b ∈ l0.
Lemma verify_keeps_others l0 : preserves (verdicts_of_others l0) (verify kenv userId None None).
Proof.
  assert (∀ f, preserves (verdicts_of_others l0) (modify (set_kcache f))) as Hc by (intros f k Hk; exact Hk).
  assert (∀ key v ttl, preserves (verdicts_of_others l0) (cache_put key v ttl)) as Hp by (intros; apply Hc).
  assert (∀ key, preserves (verdicts_of_others l0) (cache_drop key)) as Hd by (intros; apply Hc).
  assert (∀ id r, preserves (verdicts_of_others l0) (deny_if id r)) as Hdn by (intros; unfold deny_if, has_cache; preserve).
  assert (∀ n ip b, preserves (verdicts_of_others l0) (runChecks kenv n ip b)) as Hr by (intros; unfold runChecks; preserve).
  assert (preserves (verdicts_of_others l0) (verify_account userId)) as Hv.
  { intros k Hk b Hb Hne. cbn in Hb. apply list_elem_of_fmap in Hb as (x & -> & Hx).
    case_bool_decide as E; [by destruct Hne|]. by apply Hk. }
  intros k Hk. unfold verify, kyc_account. rewrite !bind_eq. unfold gets at 1.
  destruct (find_row _ (ks_accounts k)) as [a|] eqn:E; [|exact Hk].
  apply find_row_Some in E as [_ Hid%bool_decide_eq_true]. cbn [mret M_ret]. revert k Hk.
  change (preserves (verdicts_of_others l0) (validate kenv a None None)). unfold validate, cached_result. rewrite Hid. preserve.
Qed.

Lemma post_kyc_stands : preserves world_stands (post_kyc userId).
Proof.
  unfold post_kyc. apply preserves_bind; [|intros; apply preserves_ret]. intros s [Hu Hin]. unfold on_identity.
  set (l0 := kyc_row <$> rows (accounts (rw_wallet s))).
  pose proof (verify_keeps_others l0 (Kyc.set_accounts (λ _, l0) (rw_kyc s))) as Hk.
  destruct (verify _ _ _ _ _) as [o k]. cbn in Hk. assert (verdicts_of_others l0 k) as Hk' by (apply Hk; by intros b Hb _).
  clear Hk. unfold world_stands, stands. cbn [snd rw_wallet set_accounts accounts].
  assert (∀ a, a_id (with_verdict (ks_accounts k) a) = a_id a) as Hid.
  { intros a. unfold with_verdict. by destruct (find_row _ _). }
  split.
  - unfold unique_ids. rewrite rows_update, <- list_fmap_compose.
    assert (∀ L : list Account, row_id ∘ (λ a, with_verdict (ks_accounts k) a) <$> L = row_id <$> L) as ->; [|exact Hu].
    intros L. apply list_fmap_ext. intros i a _. apply Hid.
  - intros a Ha. rewrite rows_update. apply list_elem_of_fmap. exists a. split; [|by apply Hin].
    unfold with_verdict. destruct (find_row _ _) as [b|] eqn:E; [|done].
    apply find_row_Some in E as [Hb Hbid%bool_decide_eq_true].
    destruct (Hl a Ha) as [Hne _]. assert (ka_id b ≠ userId) as Hb' by by rewrite Hbid.
    pose proof (Hk' b Hb Hb') as (a' & -> & Ha')%list_elem_of_fmap.
    assert (a' = a) as -> by (apply (NoDup_fmap_inj_in a_id (rows (accounts (rw_wallet s)))); [done|done|by apply Hin|done]).
    by destruct a.
Qed.
Hint Resolve post_kyc_stands : hub.

Lemma serve_stands req r : preserves world_stands (serve req userId r).
Proof.
  destruct r; cbn [serve]; [..|apply post_kyc_stands| | |]; apply on_wallet_stands;
    unfold post_reserve, post_commit, post_rollback, post_withdraw, post_deposit, post_bankTransfer,
    delete_deposit, get_status, get_transactions, get_pending, parse_body, status, transactions, pending; preserve.
Qed.
End Bystanders.

(** A request is served when the token is for the account and the limit of requests let it through. *)
Lemma wallet_route_eq req id r (s : RouteWorld) :
  wallet_route req id r s =
    match auth_guard C cfg (wr_header req) (wr_now req) with
    | Throw e => (Throw e, s)
    | Ret u => if wr_throttled req then (Throw "Too Many Requests", s)
               else if bool_decide (u = id) then serve req id r s else (Throw "Forbidden", s)
    end.
Proof.
  unfold wallet_route, self_guard. rewrite bind_eq. unfold lift at 1.
  destruct (auth_guard _ _ _ _) as [u|e]; [|done]. rewrite bind_eq. unfold throw_if.
  destruct (wr_throttled req); [done|]. cbn. case_bool_decide; done.
Qed.

(** The routes that only read. *)
Definition is_read (r : WalletRoute) : bool := match r with RStatus | RTransactions | RPending => true | _ => false end.
Lemma account_of_read id (w : W) : (account_of id w).2 = w.
Proof. unfold account_of. rewrite bind_eq. unfold gets. by destruct (find_row _ _). Qed.
Lemma read_changes_nothing req id r (s : RouteWorld) : is_read r = true → (serve req id r s).2 = s.
Proof.
  assert (∀ w w' : W, w' = w → {| rw_wallet := w'; rw_kyc := rw_kyc s |} = {| rw_wallet := w; rw_kyc := rw_kyc s |}) as Heq
    by by intros w w' ->.
  assert (∀ {A} (k : Account → WM A) (w : W), (∀ a, (k a w).2 = w) → ((account_of id ≫= k) w).2 = w) as Hacc.
  { intros A k w Hk. rewrite bind_eq. pose proof (account_of_read id w) as E. destruct (account_of id w) as [[a|e] w'];
      cbn in E; subst w'; [apply Hk|done]. }
  assert (∀ {A} (m : WM A), (m (rw_wallet s)).2 = rw_wallet s → (on_wallet m s).2 = s) as Hon.
  { intros A m Hm. unfold on_wallet. destruct (m (rw_wallet s)) as [o w]. cbn in *. subst w. by destruct s. }
  assert (∀ {A B} (m : WM A) (f : A → B) (w : W), (m w).2 = w → ((a ← m; mret (f a)) w).2 = w) as Hret.
  { intros A B' m f w Hm. rewrite bind_eq. by destruct (m w) as [[a|e] w']. }
  destruct r; try done; intros _; apply Hon; unfold get_status, get_transactions, get_pending; apply Hret;
    unfold status, transactions, pending; [|rewrite bind_eq; unfold gets at 1..]; by apply Hacc.
Qed.

(** C18: The wallet's routes serve and touch one account. A request is either refused, with an error and no
    effect, or it comes from the user whose account the path names, let through by the limit of requests,
    and is answered as the route answers that user. Then, whatever it asks for, with whatever body, the
    accounts of all other players are row for row what they were, balances and identity flags included,
    and a request that reads changes nothing at all. *)
Theorem wallet_routes_touch_one_account req id r (s : RouteWorld) :
  unique_ids (accounts (rw_wallet s)) →
  let '(answer, s') := wallet_route req id r s in
  (∃ e, answer = Throw e ∧ s' = s
        ∧ ¬ (auth_guard C cfg (wr_header req) (wr_now req) = Ret id ∧ wr_throttled req = false))
  ∨ auth_guard C cfg (wr_header req) (wr_now req) = Ret id ∧ wr_throttled req = false
    ∧ answer = (serve req id r s).1
    ∧ unique_ids (accounts (rw_wallet s'))
    ∧ (∀ a, a ∈ rows (accounts (rw_wallet s)) → bystander id a → a ∈ rows (accounts (rw_wallet s')))
    ∧ (is_read r = true → s' = s).
Proof.
  intros Hu. rewrite wallet_route_eq.
  destruct (auth_guard _ _ _ _) as [u|e]; [|left; exists e; split_and!; [done..|by intros [? _]]].
  destruct (wr_throttled req); [left; eexists; split_and!; [done..|by intros [_ ?]]|].
  case_bool_decide as E; [subst u | left; eexists; split_and!; [done..|by intros [[= ?] _]]].
  pose proof (read_changes_nothing req id r s) as Hread.
  assert (world_stands (filter (λ a, bystander id a) (rows (accounts (rw_wallet s)))) (serve req id r s).2) as [H1 H2].
  { apply (serve_stands id); [|split; [done|]]; by intros a [? ?]%list_elem_of_filter. }
  destruct (serve req id r s) as [answer s']. right. split_and!; try done.
  intros a Ha Hb. apply H2. by apply list_elem_of_filter.
Qed.
End Routes.

(** The address the country check and the limits of bank transfers see is the one the body names. *)
Lemma transfer_address_is_chosen ip req : js_trim ip ≠ "" → resolveIp (Some ip) (getRequestIp req) = ip.
Proof. intros H. unfold resolveIp, present_text. by rewrite bool_decide_false. Qed.

(** ** Witness, and what a player may do *)

Definition routes_crypto0 : Crypto := {|
  bcrypt_hash _ p := p; bcrypt_compare p h := bool_decide (p = h); sha256_hex s := s;
  jwt_sign p _ _ _ := p_sub p;
  jwt_verify t s _ := if bool_decide (t = "alice-token" ∧ s = "k") then Some {| p_sub := "alice"; p_admin := false |}
                      else None |}.
Definition routes_cfg0 : AuthConfig := {|
  jwtSecrets := ["k"]; accessTtl := 900; refreshTtl := 3600; resetReqLimit := 1; resetReqWindow := 60; resetTtl := 60;
  rateWindow := 60; rateMax := 5 |}.
Definition alice_request : WalletRequest := {|
  wr_header := Some "Bearer alice-token"; wr_now := 0; wr_throttled := false; wr_ip := Some "1.2.3.4";
  wr_remoteAddress := None |}.
Definition tx0 : jsval := VObj [("amount", VNum 1000); ("tx", VStr "never"); ("currency", VStr "USD")].
Definition route_world0 : RouteWorld (T := list) (R := map_redis CachedValue) (B := list WalletEvent) (K := map_redis KycCached) :=
  {| rw_wallet := demo_world; rw_kyc := kyc0 cache0 |}.
Definition ask0 (id : string) (r : WalletRoute) :=
  wallet_route (ZO := zod0) demo_env routes_crypto0 routes_cfg0 kyc_env0 alice_request id r route_world0.

Lemma wallet_routes_touch_one_account_witness :
  (ask0 "bob" RStatus).1 = Throw "Forbidden"
  ∧ let '(answer, s') := ask0 "alice" RVerify in
    (∃ e, answer = Throw e ∧ s' = route_world0
          ∧ ¬ (auth_guard routes_crypto0 routes_cfg0 (wr_header alice_request) (wr_now alice_request) = Ret "alice"
               ∧ wr_throttled alice_request = false))
    ∨ auth_guard routes_crypto0 routes_cfg0 (wr_header alice_request) (wr_now alice_request) = Ret "alice"
      ∧ wr_throttled alice_request = false
      ∧ answer = (serve (ZO := zod0) demo_env kyc_env0 alice_request "alice" RVerify route_world0).1
      ∧ unique_ids (accounts (rw_wallet s'))
      ∧ (∀ a, a ∈ rows (accounts (rw_wallet route_world0)) → bystander "alice" a → a ∈ rows (accounts (rw_wallet s')))
      ∧ (is_read RVerify = true → s' = route_world0).
Proof.
  split; [vm_compute; done|].
  apply (wallet_routes_touch_one_account (ZO := zod0) demo_env routes_crypto0 routes_cfg0 kyc_env0
           alice_request "alice" RVerify route_world0).
  apply (bool_decide_eq_true_1 (NoDup _)). vm_compute. reflexivity.
Defined.

(** The check sets the flag of the row that asked for it. *)
Definition unverified_world : RouteWorld (T := list) (R := map_redis CachedValue) (B := list WalletEvent) (K := map_redis KycCached) :=
  {| rw_wallet := set_accounts (update_where (λ _, true) (λ a,
       {| a_id := a_id a; a_name := a_name a; a_currency := a_currency a; a_balance := a_balance a;
          a_creditBalance := a_creditBalance a; a_kycVerified := false |}) (accounts demo_world)) demo_world;
     rw_kyc := kyc0 cache0 |}.
Example check_sets_one_flag :
  (λ a, (a_name a, a_kycVerified a)) <$> accounts (rw_wallet
     (wallet_route (ZO := zod0) demo_env routes_crypto0 routes_cfg0 kyc_env0 alice_request "alice" RVerify unverified_world).2)
  = [("alice", true); ("bob", false); ("reserve", false); ("house", false); ("rake", false); ("prize", false)].
Proof. vm_compute. reflexivity. Qed.

(** A player rolls back what was never reserved, and is paid. *)
Lemma rollback_pays_for_nothing :
  (ask0 "alice" (RRollback tx0)).1 = Ret (Message "rolled back")
  ∧ (λ a, (a_name a, a_balance a)) <$> accounts (rw_wallet (ask0 "alice" (RRollback tx0)).2)
    = [("alice", 1000); ("bob", 0); ("reserve", -1000); ("house", 0); ("rake", 0); ("prize", 0)].
Proof. vm_compute. done. Qed.

(** A player commits what was never reserved, under any reference. *)
Lemma commit_needs_no_reserve :
  (ask0 "alice" (RCommit tx0)).1 = Ret (Message "committed")
  ∧ (λ a, (a_name a, a_balance a)) <$> accounts (rw_wallet (ask0 "alice" (RCommit tx0)).2)
    = [("alice", 0); ("bob", 0); ("reserve", -1000); ("house", 0); ("rake", 0); ("prize", 1000)].
Proof. vm_compute. done. Qed.
