(* ===== verification/MoneyRoutes.v ===== *)
(** * Who may move money

    The other routes over the wallet, next to the player's in [WalletRoutes]:
    backend/src/routes/wallet-iban.controller.ts, admin-balance.controller.ts,
    admin-pending.controller.ts with admin-deposits.controller.ts and
    admin-withdrawals.controller.ts, bank-reconciliation.controller.ts,
    backend/src/withdrawals/withdrawals.controller.ts and
    backend/src/wallet/webhook.controller.ts, each behind its guards. An adjustment
    of a balance also writes an audit log, which may fail. *)

From S2P Require Import Prelude JsText Kyc KycSafety SidePots Store Schemas WalletModel WalletCash WalletLedger Auth WalletRoutes.
#[local] Open Scope string_scope.
#[local] Open Scope list_scope.
#[local] Open Scope Z_scope.

(** ** Bodies *)

Definition AdminBalanceRequestSchema : schema := s_object [
  ("action", ZEnum ["add"; "remove"; "freeze"]); ("amount", s_amount); ("currency", CurrencySchema);
  ("notes", ZOptional s_str)].
Definition DepositDecisionRequestSchema : schema := s_object [("reason", ZOptional s_str)].
Definition WithdrawalDecisionRequestSchema : schema := s_object [("comment", s_str)].
Definition BankReconciliationEntrySchema : schema := s_object [("reference", s_str); ("amount", s_amount)].
Definition BankReconciliationRequestSchema : schema := s_object [("entries", ZArray BankReconciliationEntrySchema)].
Definition IbanUpdateRequestSchema : schema := s_object [
  ("iban", s_str); ("holder", s_str); ("instructions", s_str); ("notes", ZOptional s_str)].

Definition admin_action (v : jsval) : AdminAction :=
  match v with VStr "add" => AdminAdd | VStr "remove" => AdminRemove | _ => AdminFreeze end.
Definition bank_entry (v : jsval) : BankEntry :=
  match v with
  | VObj fs => {| be_reference := str_of (field "reference" fs); be_amount := num_of (field "amount" fs) |}
  | _ => {| be_reference := ""; be_amount := 0 |}
  end.
Definition entries_of (v : jsval) : list BankEntry := match v with VArr l => bank_entry <$> l | _ => [] end.

(** ** Requests *)

Record AuditEntry := { ae_description : string; ae_user : string; ae_ip : option string }.

(** What the upload of a bank statement brings: the lines of a file, a file without text, or a body. *)
Inductive statement := Csv (lines : list string) | EmptyFile | Entries (body : jsval).

Inductive money_request :=
| QPlayer (req : WalletRequest) (id : string) (r : WalletRoute)
| QIban (req : WalletRequest) | QIbanHistory (req : WalletRequest) | QIbanUpdate (req : WalletRequest) (body : jsval)
| QAdjust (req : WalletRequest) (userId : string) (body : jsval) (audit_ok : bool)
| QDeposits (req : WalletRequest) | QConfirmDeposit (req : WalletRequest) (id : string)
| QRejectDeposit (req : WalletRequest) (id : string) (body : jsval)
| QWithdrawals (req : WalletRequest) | QConfirmWithdrawal (req : WalletRequest) (id : string)
| QRejectWithdrawal (req : WalletRequest) (id : string) (body : jsval)
| QApprove (req : WalletRequest) (user : string) (body : jsval)
| QReject (req : WalletRequest) (user : string) (body : jsval)
| QReconcile (req : WalletRequest) (st : statement)
| QCallback (eventId : option string) (signed : bool) (payload : ProviderPayload).

Inductive MoneyAnswer :=
| AText (message : string) | APlayer (a : WalletAnswer) | AIban (i : DepositIban)
| AIbanHistory (l : list DepositIbanHistory) | ADeposits (l : list PendingDeposit)
| AWithdrawals (l : list PendingWithdrawal).

Section Money.
Context {ZO : ZodOps} {T : Type → Type} `{!TableOps T} {R : Type} `{!RedisOps R CachedValue}
  {B : Type} `{!BusOps B WalletEvent} (env : WalletEnv) (C : Crypto) (cfg : AuthConfig).
Context {K : Type} `{!RedisOps K KycCached} (kenv : KycEnv).

Record MoneyWorld := {
  mw_wallet : WalletState T R B; mw_kyc : KycStore (T := list) (R := K); mw_audit : list AuditEntry }.
Abbreviation MM := (M MoneyWorld).
Abbreviation W := (WalletState T R B).

Definition in_wallet {A} (m : M W A) : MM A := λ s,
  let '(o, w) := m (mw_wallet s) in (o, {| mw_wallet := w; mw_kyc := mw_kyc s; mw_audit := mw_audit s |}).
Definition in_routes {A} (m : M (RouteWorld (T := T) (R := R) (B := B) (K := K)) A) : MM A := λ s,
  let '(o, rw) := m {| rw_wallet := mw_wallet s; rw_kyc := mw_kyc s |} in
  (o, {| mw_wallet := rw_wallet rw; mw_kyc := rw_kyc rw; mw_audit := mw_audit s |}).
Definition write_audit (ok : bool) (e : AuditEntry) : MM unit :=
  if ok then modify (λ s, {| mw_wallet := mw_wallet s; mw_kyc := mw_kyc s; mw_audit := e :: mw_audit s |}) else throw "Redis".

(** *** Guards *)

(** [@UseGuards(AuthGuard, RateLimitGuard)] *)
Definition user_limited (req : WalletRequest) : MM string :=
  userId ← lift (auth_guard C cfg (wr_header req) (wr_now req));
  throw_if (wr_throttled req) "Too Many Requests" ;;
  mret userId.
(** [@UseGuards(AdminGuard)]: the user is the token's. *)
Definition admin_token (req : WalletRequest) : MM string := lift (admin_guard C cfg (wr_header req) (wr_now req)).
(** [@UseGuards(AuthGuard, AdminGuard)] *)
Definition admin_only (req : WalletRequest) : MM string :=
  lift (auth_guard C cfg (wr_header req) (wr_now req)) ;; admin_token req.

Definition money_body (sch : schema) (body : jsval) : MM (list (string * jsval)) :=
  match z_parse sch body with Some (VObj fs) => mret fs | _ => throw "ZodError" end.

(** *** wallet-iban.controller.ts *)

Definition getIban (req : WalletRequest) : MM MoneyAnswer :=
  user_limited req ;; i ← in_wallet getDepositIban; mret (AIban i).
Definition getHistory (req : WalletRequest) : MM MoneyAnswer :=
  user_limited req ;; l ← in_wallet (gets getIbanHistory); mret (AIbanHistory l).
Definition updateIban (req : WalletRequest) (body : jsval) : MM MoneyAnswer :=
  userId ← user_limited req;
  fs ← money_body IbanUpdateRequestSchema body;
  i ← in_wallet (updateDepositIban env
        {| iu_iban := str_of (field "iban" fs); iu_holder := str_of (field "holder" fs);
           iu_instructions := str_of (field "instructions" fs); iu_notes := text_of_val (field "notes" fs) |} userId);
  mret (AIban i).

(** *** admin-balance.controller.ts *)

Definition adjust_description (fs : list (string * jsval)) : string :=
  str_of (field "action" fs) +:+ " " +:+ str_of_Z (num_of (field "amount" fs)) +:+ " "
  +:+ str_of (field "currency" fs)
  +:+ match truthy (text_of_val (field "notes" fs)) with Some n => " - " +:+ n | None => "" end.
Definition adjust (req : WalletRequest) (userId : string) (body : jsval) (audit_ok : bool) : MM MoneyAnswer :=
  admin ← admin_only req;
  fs ← money_body AdminBalanceRequestSchema body;
  in_wallet (adminAdjustBalance env userId (admin_action (field "action" fs)) (num_of (field "amount" fs))
               (str_of (field "currency" fs))) ;;
  write_audit audit_ok {| ae_description := adjust_description fs; ae_user := admin; ae_ip := truthy (wr_ip req) |} ;;
  mret (AText "ok").

(** *** admin-pending.controller.ts *)

Definition list_deposits (req : WalletRequest) : MM MoneyAnswer :=
  admin_only req ;; l ← in_wallet (gets listPendingDeposits); mret (ADeposits l).
Definition confirm_deposit (req : WalletRequest) (id : string) : MM MoneyAnswer :=
  admin ← admin_only req; in_wallet (confirmPendingDeposit env id admin) ;; mret (AText "confirmed").
Definition reject_deposit (req : WalletRequest) (id : string) (body : jsval) : MM MoneyAnswer :=
  admin ← admin_only req;
  fs ← money_body DepositDecisionRequestSchema body;
  in_wallet (rejectPendingDeposit id admin (text_of_val (field "reason" fs))) ;; mret (AText "rejected").
Definition list_withdrawals (req : WalletRequest) : MM MoneyAnswer :=
  admin_only req ;; l ← in_wallet (gets listPendingWithdrawals); mret (AWithdrawals l).
Definition confirm_withdrawal (req : WalletRequest) (id : string) : MM MoneyAnswer :=
  admin_only req ;; in_wallet (confirmPendingWithdrawal env id) ;; mret (AText "confirmed").
Definition reject_pending_withdrawal (req : WalletRequest) (id : string) (body : jsval) : MM MoneyAnswer :=
  admin_only req ;; money_body WithdrawalDecisionRequestSchema body ;;
  in_wallet (rejectPendingWithdrawal env id) ;; mret (AText "rejected").

(** *** withdrawals.controller.ts *)

Definition approve_route (req : WalletRequest) (user : string) (body : jsval) : MM MoneyAnswer :=
  admin_token req ;; money_body WithdrawalDecisionRequestSchema body ;;
  in_wallet (approve_withdrawal env user) ;; mret (AText "approved").
Definition reject_route (req : WalletRequest) (user : string) (body : jsval) : MM MoneyAnswer :=
  admin_token req ;; money_body WithdrawalDecisionRequestSchema body ;;
  in_wallet (reject_withdrawal env user) ;; mret (AText "rejected").

(** *** bank-reconciliation.controller.ts *)

Definition reconcile_route (req : WalletRequest) (st : statement) : MM MoneyAnswer :=
  admin_only req ;;
  match st with
  | Csv lines => in_wallet (reconcileCsv env lines)
  | EmptyFile => throw "Uploaded file is empty or unreadable."
  | Entries (VObj fs0) =>
      if is_undefined (field "entries" fs0) then throw "Provide a CSV file or JSON entries."
      else
        fs ← money_body BankReconciliationRequestSchema (VObj fs0);
        in_wallet (bank_reconcile env (entries_of (field "entries" fs)))
  | Entries _ => throw "Provide a CSV file or JSON entries."
  end ;;
  mret (AText "reconciled").

Definition money_route (q : money_request) : MM MoneyAnswer :=
  match q with
  | QPlayer req id r => a ← in_routes (wallet_route env C cfg kenv req id r); mret (APlayer a)
  | QIban req => getIban req
  | QIbanHistory req => getHistory req
  | QIbanUpdate req body => updateIban req body
  | QAdjust req userId body ok => adjust req userId body ok
  | QDeposits req => list_deposits req
  | QConfirmDeposit req id => confirm_deposit req id
  | QRejectDeposit req id body => reject_deposit req id body
  | QWithdrawals req => list_withdrawals req
  | QConfirmWithdrawal req id => confirm_withdrawal req id
  | QRejectWithdrawal req id body => reject_pending_withdrawal req id body
  | QApprove req user body => approve_route req user body
  | QReject req user body => reject_route req user body
  | QReconcile req st => reconcile_route req st
  | QCallback eventId signed p => m ← in_wallet (callback env eventId signed p); mret (AText m)
  end.

(** ** Who may *)

Context `{!TableLaws T}.

(** The request carries a right over the account with this id. *)
Definition has_right (q : money_request) (id : string) : Prop :=
  match q with
  | QPlayer req id' _ => id' = id ∧ auth_guard C cfg (wr_header req) (wr_now req) = Ret id ∧ wr_throttled req = false
  | QIban _ | QIbanHistory _ | QIbanUpdate _ _ => False
  | QAdjust req _ _ _ | QDeposits req | QConfirmDeposit req _ | QRejectDeposit req _ _ | QWithdrawals req
  | QConfirmWithdrawal req _ | QRejectWithdrawal req _ _ | QApprove req _ _ | QReject req _ _ | QReconcile req _ =>
      ∃ admin, admin_guard C cfg (wr_header req) (wr_now req) = Ret admin
  | QCallback _ signed _ => signed = true
  end.

(** What a refused request leaves as it was. *)
Definition same_wallet (w : W) (s : MoneyWorld) : Prop := mw_wallet s = w.

Lemma in_wallet_same {A} (m : M W A) w : (m w).2 = w → preserves (same_wallet w) (in_wallet m).
Proof. intros Hm s Hs. unfold same_wallet, in_wallet in *. rewrite Hs. destruct (m w) as [o w']. exact Hm. Qed.

Lemma user_limited_same req w : preserves (same_wallet w) (user_limited req).
Proof. unfold user_limited. preserve. Qed.
Lemma money_body_same sch body w : preserves (same_wallet w) (money_body sch body).
Proof. unfold money_body. preserve. Qed.

(** Without a right to it, an administrator's route does nothing. *)
Lemma admin_token_refuses {A} req (k : string → MM A) s :
  (∀ admin, admin_guard C cfg (wr_header req) (wr_now req) ≠ Ret admin) → ((admin_token req ≫= k) s).2 = s.
Proof.
  intros H. rewrite bind_eq. unfold admin_token, lift. destruct (admin_guard _ _ _ _) as [ad|e]; [by destruct (H ad)|done].
Qed.
Lemma admin_only_refuses {A} req (k : string → MM A) s :
  (∀ admin, admin_guard C cfg (wr_header req) (wr_now req) ≠ Ret admin) → ((admin_only req ≫= k) s).2 = s.
Proof.
  intros H. unfold admin_only. rewrite bind_eq, bind_eq. unfold lift at 1. destruct (auth_guard _ _ _ _); [|done].
  unfold admin_token, lift. destruct (admin_guard _ _ _ _) as [ad|e]; [by destruct (H ad)|done].
Qed.

Lemma callback_refuses eventId p (w : W) : (callback env eventId false p w).2 = w.
Proof. unfold callback. by destruct (truthy eventId). Qed.

(** The house's own bank account is no player's account. *)
Lemma updateDepositIban_accounts data userId (w : W) :
  accounts (updateDepositIban env data userId w).2 = accounts w.
Proof.
  unfold updateDepositIban. cbv beta iota zeta delta [gets mbind M_bind fresh_uuid modify mret M_ret].
  by destruct (head (rows (depositIbans w))).
Qed.

Lemma updateIban_accounts req body s : accounts (mw_wallet (updateIban req body s).2) = accounts (mw_wallet s).
Proof.
  set (I := λ s', accounts (mw_wallet s') = accounts (mw_wallet s)).
  assert (preserves I (updateIban req body)) as H; [|by apply (H s)].
  unfold updateIban, user_limited, money_body. preserve.
  intros s' Hs'. unfold I, in_wallet in *. rewrite <- Hs'.
  match goal with |- context [updateDepositIban env ?d ?u ?w] =>
    rewrite <- (updateDepositIban_accounts d u w); by destruct (updateDepositIban env d u w) end.
Qed.

Lemma getIban_same req s : mw_wallet (getIban req s).2 = mw_wallet s.
Proof.
  assert (preserves (same_wallet (mw_wallet s)) (getIban req)) as H; [|by apply (H s)].
  unfold getIban. apply preserves_bind; [apply user_limited_same|]. intros _.
  apply preserves_bind; [|intros; apply preserves_ret]. apply in_wallet_same.
  unfold getDepositIban, or_fail. cbv beta iota zeta delta [gets mbind M_bind]. by destruct (latest_iban _).
Qed.
Lemma getHistory_same req s : mw_wallet (getHistory req s).2 = mw_wallet s.
Proof.
  assert (preserves (same_wallet (mw_wallet s)) (getHistory req)) as H; [|by apply (H s)].
  unfold getHistory. apply preserves_bind; [apply user_limited_same|]. intros _.
  apply preserves_bind; [by apply in_wallet_same|intros; apply preserves_ret].
Qed.

(** A player's request reaches no other player's row. *)
Lemma player_by_right req id r (s : MoneyWorld) a :
  unique_ids (accounts (mw_wallet s)) → a ∈ rows (accounts (mw_wallet s)) → a_name a ∉ system_names →
  a ∉ rows (accounts (rw_wallet (wallet_route env C cfg kenv req id r {| rw_wallet := mw_wallet s; rw_kyc := mw_kyc s |}).2)) →
  id = a_id a ∧ auth_guard C cfg (wr_header req) (wr_now req) = Ret (a_id a) ∧ wr_throttled req = false.
Proof.
  intros Hu Ha Hn Hgone. rewrite wallet_route_eq in Hgone.
  destruct (auth_guard _ _ _ _) as [u|e]; [|done]. destruct (wr_throttled req); [done|].
  case_bool_decide as E; [subst u|done]. destruct (decide (a_id a = id)) as [<-|Hne]; [done|].
  exfalso. apply Hgone.
  assert (world_stands [a] (serve env kenv req id r {| rw_wallet := mw_wallet s; rw_kyc := mw_kyc s |}).2) as [_ H]; [|apply H; by left].
  apply (serve_stands env kenv id [a]).
  - intros x ->%list_elem_of_singleton. done.
  - split; [done|]. by intros x ->%list_elem_of_singleton.
Qed.

(** C19: Money moves by right only. When any request to the routes of the wallet changes the row of an account
    that is not the house's, it is a player's request under a token for that very account, let through by
    the limit of requests, or it carries an administrator's token, or it is a callback whose signature the
    payment provider's check accepted. *)
Theorem money_moves_by_right q (s : MoneyWorld) a :
  unique_ids (accounts (mw_wallet s)) →
  a ∈ rows (accounts (mw_wallet s)) → a_name a ∉ system_names →
  a ∉ rows (accounts (mw_wallet (money_route q s).2)) → has_right q (a_id a).
Proof.
  intros Hu Ha Hn Hgone.
  assert (∀ req (k : string → MM MoneyAnswer),
    a ∉ rows (accounts (mw_wallet ((admin_only req ≫= k) s).2)) →
    ∃ admin, admin_guard C cfg (wr_header req) (wr_now req) = Ret admin) as Honly.
  { intros req k Hk. destruct (admin_guard C cfg (wr_header req) (wr_now req)) as [ad|e] eqn:E; [by exists ad|].
    exfalso. apply Hk. rewrite admin_only_refuses; [done|]. intros ad. by rewrite E. }
  assert (∀ req (k : string → MM MoneyAnswer),
    a ∉ rows (accounts (mw_wallet ((admin_token req ≫= k) s).2)) →
    ∃ admin, admin_guard C cfg (wr_header req) (wr_now req) = Ret admin) as Htoken.
  { intros req k Hk. destruct (admin_guard C cfg (wr_header req) (wr_now req)) as [ad|e] eqn:E; [by exists ad|].
    exfalso. apply Hk. rewrite admin_token_refuses; [done|]. intros ad. by rewrite E. }
  destruct q as [req id r|req|req|req body|req u body ok|req|req id|req id body|req|req id|req id body|req u body|req u body|req st|ev signed p];
    cbn [money_route has_right] in *; try (by eapply Honly); try (by eapply Htoken).
  - apply (player_by_right req id r s a Hu Ha Hn). revert Hgone. rewrite bind_eq. unfold in_routes.
    by destruct (wallet_route _ _ _ _ _ _ _ _) as [[an|e] w'].
  - by rewrite getIban_same in Hgone.
  - by rewrite getHistory_same in Hgone.
  - by rewrite updateIban_accounts in Hgone.
  - destruct signed; [done|]. exfalso. apply Hgone. rewrite bind_eq. unfold in_wallet.
    pose proof (callback_refuses ev p (mw_wallet s)) as Hc.
    destruct (callback _ _ _ _ _) as [[m|e] w']; cbn in *; by rewrite Hc.
Qed.
End Money.

(** ** Witness, and the house's bank account *)

Definition money_crypto0 : Crypto := {|
  bcrypt_hash _ p := p; bcrypt_compare p h := bool_decide (p = h); sha256_hex s := s;
  jwt_sign p _ _ _ := p_sub p;
  jwt_verify t s _ :=
    if bool_decide (t = "alice-token" ∧ s = "k") then Some {| p_sub := "alice"; p_admin := false |}
    else if bool_decide (t = "root-token" ∧ s = "k") then Some {| p_sub := "root"; p_admin := true |} else None |}.
Definition request_with (token : string) : WalletRequest := {|
  wr_header := Some ("Bearer " +:+ token); wr_now := 0; wr_throttled := false; wr_ip := Some "1.2.3.4";
  wr_remoteAddress := None |}.
Definition money_world0 : MoneyWorld (T := list) (R := map_redis CachedValue) (B := list WalletEvent) (K := map_redis KycCached) :=
  {| mw_wallet := demo_world; mw_kyc := kyc0 cache0; mw_audit := [] |}.
Definition ask_money (q : money_request) :=
  money_route (ZO := zod0) demo_env money_crypto0 routes_cfg0 kyc_env0 q money_world0.
Definition adjust0 : jsval := VObj [("action", VStr "add"); ("amount", VNum 500); ("currency", VStr "USD")].
Definition bob0 : Account := demo_account "bob" "bob".

Lemma money_moves_by_right_witness :
  has_right money_crypto0 routes_cfg0 (QAdjust (request_with "root-token") "bob" adjust0 true) "bob".
Proof.
  apply (money_moves_by_right (ZO := zod0) demo_env money_crypto0 routes_cfg0 kyc_env0
           (QAdjust (request_with "root-token") "bob" adjust0 true) money_world0 bob0).
  - apply (bool_decide_eq_true_1 (NoDup _)). vm_compute. reflexivity.
  - right. left.
  - apply (bool_decide_eq_true_1 (_ ∉ system_names)). vm_compute. reflexivity.
  - intros Hin%(list_elem_of_fmap_2 (λ a, (a_name a, a_balance a))). revert Hin.
    apply (bool_decide_eq_true_1 (("bob", 0) ∉ _)). vm_compute. reflexivity.
Defined.

(** A failing audit log leaves the balance adjusted: the request reports an error, and repeating it adds again. *)
Lemma adjusted_without_audit :
  let q := QAdjust (request_with "root-token") "bob" adjust0 false in
  (ask_money q).1 = Throw "Redis" ∧ mw_audit (ask_money q).2 = []
  ∧ (λ a, (a_name a, a_balance a)) <$> filter (λ a, a_name a = "bob") (accounts (mw_wallet (ask_money q).2)) = [("bob", 500)].
Proof. vm_compute. done. Qed.

(** Any player replaces the account to which all deposits are asked to be sent. *)
Lemma player_replaces_the_iban :
  let body := VObj [("iban", VStr "MT00ALICE"); ("holder", VStr "Alice"); ("instructions", VStr "")] in
  let w' := mw_wallet (ask_money (QIbanUpdate (request_with "alice-token") body)).2 in
  di_iban <$> latest_iban w' = Some "MT00ALICE" ∧ di_updatedBy <$> latest_iban w' = Some "alice".
Proof. vm_compute. done. Qed.
