(* ===== verification/TablePage.v ===== *)
(** * The page of a table

    frontend/src/app/table/[id]/TablePageClient.tsx, hooks/useBetting.ts,
    hooks/useTableState.ts, hooks/useToasts.ts, components/tables/poker-table-layout.tsx
    and action-controls.tsx, components/ui/player-chip-stack.tsx: what the page makes of
    the table the server answers with, the amounts it offers and the buttons and keys
    that are live, next to the machine those buttons are meant for. Amounts are
    integers; what is typed, and the presets, are rationals, rounded as the page rounds
    them. *)

From Stdlib Require Import QArith Qround.
From S2P Require Import Prelude JsText SidePots Schemas Store StateMachine HandSafety Engine EngineSafety Auth AuthSafety Tables.
#[local] Open Scope string_scope.
#[local] Open Scope list_scope.
#[local] Open Scope Z_scope.

(** ** Which screen *)

Inductive Screen :=
| LoadingTable | CenteredMessage (text : string) | TableLayout (heroId : jsval).

(** The answer of the table's query, parsed or, after a frame, whatever the frame held. *)
Definition truthy_val (v : jsval) : bool :=
  match v with
  | VUndefined | VNull => false
  | VBool b => b
  | VNum n => negb (n =? 0)
  | VStr s => negb (bool_decide (s = ""))
  | _ => true
  end.
Definition get (k : string) (v : jsval) : jsval := match v with VObj fs => field k fs | _ => VUndefined end.

Definition TablePageClient (isLoading : bool) (data : jsval) (errorMessage : option string) : Screen :=
  if isLoading then LoadingTable
  else if negb (truthy_val data) then CenteredMessage (default "Table not found." errorMessage)
  else if negb (truthy_val (get "stateAvailable" data)) then CenteredMessage "Table state unavailable."
  else match get "players" data with
       | VArr [] => CenteredMessage "No players at this table."
       | VArr (p :: _) => TableLayout (get "id" p)
       | _ => CenteredMessage "Application error"
       end.

(** The two queries of the page keep their answers under one key. *)
Inductive CacheEvent := TableAnswer (v : jsval) | StateAnswer (v : jsval) | StateFrame (v : jsval).
Definition table_key (tableId : option string) : list string := ["table"; default "local" tableId].
Definition cache_step (cache : jsval) (e : CacheEvent) : jsval :=
  match e with TableAnswer v | StateAnswer v | StateFrame v => v end.

(** ** [useBetting] *)

Record Betting := {
  bt_hero : option PagePlayer; bt_youChips : Z; bt_currentBet : Z; bt_callAmount : Z; bt_street : string;
  bt_pot : Z; bt_minTotal : Z; bt_maxTotal : Z; bt_effective : Z; bt_initialRaise : Z }.

Definition js_max (l : list Z) : Z := foldr Z.max 0 l.
Definition page_street (communityCards : list string) : string :=
  match length communityCards with 0%nat => "pre" | 3%nat => "flop" | 4%nat => "turn" | _ => "river" end.

Definition find_hero (players : list PagePlayer) (heroId : option Z) (heroUsername : option string) : option PagePlayer :=
  match heroId, heroUsername with
  | Some id, _ => List.find (λ p, pp_id p =? id) players
  | None, Some name => List.find (λ p, bool_decide (pp_username p = name)) players
  | None, None => None
  end.

Definition useBetting (players : list PagePlayer) (communityCards : list string) (basePot bigBlind : Z)
    (heroId : option Z) (heroUsername : option string) : Betting :=
  let hero := find_hero players heroId heroUsername in
  let commitments := pp_committed <$> players in
  let currentBet := js_max commitments in
  let sorted := js_sort (λ a b, b <=? a) commitments in
  let previousBetTo := default 0 (sorted !! 1%nat) in
  let heroCommitted := from_option pp_committed 0 hero in
  let callAmount := Z.max 0 (currentBet - heroCommitted) in
  let lastRaiseSize := Z.max bigBlind (currentBet - previousBetTo) in
  let minOpenTo := bigBlind in
  let minTotal := if 0 <? callAmount then currentBet + lastRaiseSize else minOpenTo in
  let heroBehind := from_option pp_chips 0 hero in
  let maxOppBehind := js_max (pp_chips <$> List.filter (λ p, negb (bool_decide (Some (pp_id p) = pp_id <$> hero))) players) in
  let effective := Z.min heroBehind maxOppBehind in
  {| bt_hero := hero;
     bt_youChips := match hero with Some h => pp_chips h | None => from_option pp_chips 0 (head players) end;
     bt_currentBet := currentBet; bt_callAmount := callAmount; bt_street := page_street communityCards;
     bt_pot := basePot + sumZ commitments; bt_minTotal := minTotal;
     bt_maxTotal := Z.max minTotal (heroCommitted + effective); bt_effective := effective;
     bt_initialRaise := Z.max minTotal (if currentBet =? 0 then minOpenTo else currentBet) |}.

(** ** [BetInput] *)

(** A number that may be NaN. *)
Abbreviation number := (option Z).
Definition number_text (n : number) : string := match n with Some z => str_of_Z z | None => "NaN" end.
(** [Math.round] *)
Definition js_round (q : Q) : Z := Qfloor (q + (1 # 2)).

Section BetInput.
Context (b : Betting) (bigBlind : Z).
(** [Number(text)], when it is finite. *)
Context (read_number : string → option Q).

Definition snapBB (n : Q) : number :=
  if bigBlind =? 0 then None else Some (js_round (n / inject_Z bigBlind) * bigBlind).
Definition clampSnap (n : Q) : number :=
  (λ snapped, Z.max (bt_minTotal b) (Z.min (bt_maxTotal b) snapped)) <$> snapBB n.

Record BetState := { bs_total : number; bs_typed : string }.
Definition setTotal (n : option Q) (st : BetState) : BetState :=
  let v := n ≫= clampSnap in {| bs_total := v; bs_typed := number_text v |}.

Definition potOddsPct : Z :=
  if bt_callAmount b <=? 0 then 0
  else js_round (inject_Z (bt_callAmount b) / inject_Z (bt_pot b + bt_callAmount b) * inject_Z 100).

Inductive BetGesture :=
| PresetFrac (f : Q) | PresetPot | PresetAllIn | Step (bbs : Z) | Slide (n : Q)
| Type_ (text : string) | TypedBlur.

Definition pot_target : Z :=
  if 0 <? bt_callAmount b then bt_currentBet b + 2 * bt_callAmount b + bt_pot b
  else Z.max (bt_pot b) (bt_minTotal b).
Definition frac_target (f : Q) : Q := inject_Z (bt_pot b + bt_callAmount b) * f + inject_Z (bt_currentBet b).
Definition bet_gesture (st : BetState) (g : BetGesture) : BetState :=
  match g with
  | PresetFrac f => setTotal (Some (frac_target f)) st
  | PresetPot => setTotal (Some (inject_Z pot_target)) st
  | PresetAllIn => setTotal (Some (inject_Z (bt_maxTotal b))) st
  | Step bbs => setTotal ((λ t, inject_Z (t + bbs * bigBlind)) <$> bs_total st) st
  | Slide n => setTotal (Some n) st
  | Type_ text => {| bs_total := bs_total st; bs_typed := text |}
  | TypedBlur => match read_number (bs_typed st) with
                 | Some n => setTotal (Some n) st
                 | None => {| bs_total := bs_total st; bs_typed := number_text (bs_total st) |}
                 end
  end.

Definition ticks : list number :=
  ((λ n, clampSnap (inject_Z n)) <$>
    [bigBlind; 2 * bigBlind; 3 * bigBlind; 5 * bigBlind; 10 * bigBlind; Z.max (bt_pot b) (bt_minTotal b)])
  ++ [Some (bt_maxTotal b)].

(** ** [ActionControls] *)

Inductive PageAction := PFold | PCheck | PCall | PRaiseTo (total : number).

Definition isBBStep (total : number) : bool :=
  match total with Some t => negb (bigBlind =? 0) && (Z.rem t bigBlind =? 0) | None => false end.
Definition isIllegal (total : number) : bool :=
  from_option (λ t, (t <? bt_minTotal b) || (bt_maxTotal b <? t)) false total || negb (isBBStep total).
Definition labelPrimary (total : number) : string :=
  (if bt_currentBet b =? 0 then "Bet $" else "Raise to $") +:+ number_text total.

(** The buttons that can be pressed, and what a key, in lower case, presses; a key that repeats is ignored. *)
Definition buttons (total : number) : list PageAction :=
  (if bt_callAmount b =? 0 then [] else [PFold])
  ++ (if 0 <? bt_callAmount b then [PCall] else [PCheck])
  ++ (if isIllegal total then [] else [PRaiseTo total]).
Definition onKey (total : number) (repeat : bool) (key : string) : option PageAction :=
  if repeat then None
  else if bool_decide (key = "f") && (0 <? bt_callAmount b) then Some PFold
  else if bool_decide (key = "c") then Some (if 0 <? bt_callAmount b then PCall else PCheck)
  else if bool_decide (key = "r") && negb (isIllegal total) then Some (PRaiseTo total)
  else None.
End BetInput.

(** The timer: an effect runs when one of the values it lists has changed. *)
Record TimerProps := { tm_isHeroTurn : bool; tm_turnDeadline : option Z; tm_acknowledged : bool }.
Definition deadline_step (old : option TimerProps) (new : TimerProps) (deadline : option Z) : option Z :=
  let changed {A} `{!EqDecision A} (f : TimerProps → A) := bool_decide (f <$> old ≠ Some (f new)) in
  let deadline :=
    if changed tm_isHeroTurn || changed tm_turnDeadline then
      match tm_turnDeadline new with
      | Some t => if tm_isHeroTurn new && negb (t =? 0) then Some t else deadline
      | None => deadline
      end
    else deadline in
  if changed tm_acknowledged && tm_acknowledged new then None else deadline.

(** ** [poker-table-layout.tsx] and its toasts *)

Definition action_toast (b : Betting) (a : PageAction) : string :=
  match a with
  | PFold => "You folded"
  | PCheck => "You checked"
  | PCall => "You called $" +:+ str_of_Z (bt_callAmount b)
  | PRaiseTo total => (if bt_currentBet b =? 0 then "You bet" else "You raised to") +:+ " $" +:+ number_text total
  end.

Record Toast := { to_id : Z; to_message : string; to_variant : string; to_duration : Z }.
Record Toasts := { ts_shown : list Toast; ts_timeouts : list (Z * Z); ts_nextId : Z }.
Definition no_toasts : Toasts := {| ts_shown := []; ts_timeouts := []; ts_nextId := 0 |}.

Definition pushToast (now : Z) (message : string) (duration : Z) (variant : string) (s : Toasts) : Toasts :=
  let id := ts_nextId s in
  {| ts_shown := slice_last 3 (ts_shown s ++ [{| to_id := id; to_message := message; to_variant := variant;
                                                  to_duration := duration |}]);
     ts_timeouts := ts_timeouts s ++ [(id, now + duration)]; ts_nextId := id + 1 |}.
Definition toast_timeout (id : Z) (s : Toasts) : Toasts :=
  {| ts_shown := List.filter (λ t, negb (to_id t =? id)) (ts_shown s);
     ts_timeouts := List.filter (λ x, negb (x.1 =? id)) (ts_timeouts s); ts_nextId := ts_nextId s |}.

(** ** [PlayerChipStack] *)

Definition breakdown_step (st : Z * gmap Z Z) (d : Z) : Z * gmap Z Z :=
  let '(remaining, res) := st in
  if d <=? remaining then (Z.rem remaining d, <[d := remaining / d]> res) else (remaining, <[d := 0]> res).
(** What remains, and the count of each denomination; for an amount in whole chips. *)
Definition breakdown (amount : Z) (denoms : list Z) : Z * gmap Z Z :=
  foldl breakdown_step (Z.max 0 amount, ∅) denoms.
Definition chip_count (res : gmap Z Z) (d : Z) : Z := default 0 (res !! d).
Definition MAX_CHIPS_PER_DENOM : Z := 4.
(** What a column shows: chips, and the count when there are more. *)
Definition chipColumn (res : gmap Z Z) (d : Z) : option (Z * option Z) :=
  let count := chip_count res d in
  if count =? 0 then None
  else let shown := Z.min count MAX_CHIPS_PER_DENOM in
       Some (shown, if 0 <? count - shown then Some count else None).

(** ** Facts *)

(** A frame of the game hides the table: the answer it replaces is the one the page reads. *)
Lemma frame_hides_the_table cache fs :
  field "stateAvailable" fs = VUndefined →
  TablePageClient false (cache_step cache (StateFrame (VObj fs))) None = CenteredMessage "Table state unavailable.".
Proof. intros H. unfold TablePageClient. cbn [cache_step truthy_val get negb]. by rewrite H. Qed.

(** *** Amounts *)

Section Amounts.
Context (b : Betting) (bigBlind : Z) (read_number : string → option Q).
Context (Hrange : bt_minTotal b <= bt_maxTotal b) (Hbb : bigBlind ≠ 0).

Definition total_ok (n : number) : Prop := ∃ t, n = Some t ∧ bt_minTotal b <= t <= bt_maxTotal b.

Lemma clampSnap_ok n : total_ok (clampSnap b bigBlind n).
Proof.
  unfold clampSnap, snapBB. destruct (Z.eqb_spec bigBlind 0) as [E|_]; [by destruct (Hbb E)|]. eexists. split; [done|lia].
Qed.
Lemma bet_gesture_ok st g :
  total_ok (bs_total st) → total_ok (bs_total (bet_gesture b bigBlind read_number st g)).
Proof.
  intros Hst. assert (∀ q, total_ok (bs_total (setTotal b bigBlind (Some q) st))) as Hset by apply clampSnap_ok.
  destruct g; cbn [bet_gesture]; try apply Hset; [|done|].
  - destruct Hst as (t & -> & _). apply Hset.
  - destruct (read_number _); [apply Hset|done].
Qed.
Lemma gestures_ok gs st :
  total_ok (bs_total st) → total_ok (bs_total (foldl (bet_gesture b bigBlind read_number) st gs)).
Proof. intros H. apply (foldl_invariant (λ st, total_ok (bs_total st))); [|done]. intros x g _. apply bet_gesture_ok. Qed.
End Amounts.

(** Keys press buttons that are there. *)
Lemma keys_press_buttons b bigBlind total rep key a :
  0 <= bt_callAmount b → onKey b bigBlind total rep key = Some a → a ∈ buttons b bigBlind total.
Proof.
  intros Hc. unfold onKey, buttons. destruct rep; [done|].
  destruct (bool_decide (key = "f") && (0 <? bt_callAmount b)) eqn:Ef.
  { apply andb_true_iff in Ef as [_ H%Z.ltb_lt]. intros [= <-].
    destruct (Z.eqb_spec (bt_callAmount b) 0); [lia|]. by left. }
  destruct (bool_decide (key = "c")).
  { intros [= <-]. apply elem_of_app. right. apply elem_of_app. left. destruct (0 <? _); by left. }
  destruct (bool_decide (key = "r") && _) eqn:Er; [|done]. intros [= <-].
  apply andb_true_iff in Er as [_ ->%negb_true_iff]. apply elem_of_app. right. apply elem_of_app. right. by left.
Qed.

Lemma isIllegal_false b bigBlind total :
  isIllegal b bigBlind total = false →
  ∃ t, total = Some t ∧ bt_minTotal b <= t <= bt_maxTotal b ∧ bigBlind ≠ 0 ∧ Z.rem t bigBlind = 0.
Proof.
  unfold isIllegal, isBBStep. destruct total as [t|]; [|done]. cbn.
  intros [[H1%Z.ltb_ge H2%Z.ltb_ge]%orb_false_iff [H3%negb_true_iff%Z.eqb_neq H4%Z.eqb_eq]%negb_false_iff%andb_true_iff]%orb_false_iff.
  by exists t.
Qed.

(** *** The current bet is the highest bet *)

Lemma js_max_insert l i x y : l !! i = Some x → x <= y → js_max (<[i := y]> l) = Z.max (js_max l) y.
Proof.
  revert i. induction l as [|z l IH]; intros [|i] Hi Hy; simpl in *; try done; simplify_eq; [lia|].
  rewrite (IH _ Hi Hy). lia.
Qed.
Lemma js_max_zero l : Forall (λ x, x <= 0) l → js_max l = 0.
Proof. induction 1 as [|x l Hx _ IH]; simpl; lia. Qed.
Lemma js_max_ge l x : x ∈ l → x <= js_max l.
Proof. induction 1 as [x l|x y l _ IH]; simpl; lia. Qed.
Lemma js_max_nonneg l : 0 <= js_max l.
Proof. induction l; simpl; lia. Qed.

Definition bets (s : GameStateInternal) : list Z := p_bet <$> g_players s.
Definition top_bet (s : GameStateInternal) : Prop := g_currentBet s = js_max (bets s).
Definition topped (m : HandStateMachine) : Prop := top_bet (m_state m).

(** Only bets and the current bet matter. *)
Lemma top_bet_same s s' : bets s' = bets s → g_currentBet s' = g_currentBet s → top_bet s → top_bet s'.
Proof. unfold top_bet. by intros -> ->. Qed.
Lemma top_bet_zero s : Forall (λ x, x <= 0) (bets s) → g_currentBet s = 0 → top_bet s.
Proof. intros H E. unfold top_bet. by rewrite js_max_zero. Qed.

Lemma clear_bets ps : Forall (λ x, x <= 0) (p_bet <$> (clear_bet <$> ps)).
Proof. apply Forall_fmap, Forall_fmap, Forall_true. done. Qed.

Lemma finish_top s : top_bet (finishBettingRound s).
Proof.
  unfold finishBettingRound. destruct (bettors_of s) as [|p l] eqn:E.
  - apply top_bet_zero; [|done]. apply Forall_fmap, Forall_forall. intros p Hp. cbn.
    destruct (decide (0 < p_bet p)) as [H|H]; [|lia].
    assert (p ∈ bettors_of s) as Hin by (by apply list_elem_of_filter). rewrite E in Hin. by apply elem_of_nil in Hin.
  - apply top_bet_zero; [apply clear_bets|done].
Qed.
Lemma close_top s : top_bet s → top_bet (close_if_alone s).
Proof.
  intros H. unfold close_if_alone. case_bool_decide; [|done].
  destruct (existsb _ _) eqn:E; [apply (top_bet_same (finishBettingRound s)); try done; apply finish_top|].
  apply top_bet_zero; [|done]. apply Forall_fmap, Forall_forall. intros p Hp. cbn.
  destruct (Z.ltb_spec 0 (p_bet p)); [|lia]. exfalso. apply not_true_iff_false in E. apply E. apply existsb_exists.
  exists p. split; [by apply list_elem_of_In|by apply Z.ltb_lt].
Qed.
Lemma next_street_top s : top_bet (next_street s).
Proof. unfold next_street. destruct (decide _); apply (top_bet_same (finishBettingRound s)); try done; apply finish_top. Qed.
Lemma fold_top i s : top_bet s → top_bet (set_players (alter fold_player i (g_players s)) s).
Proof. apply top_bet_same; [|done]. unfold bets. cbn. by apply list_fmap_alter_same. Qed.
Lemma placed_top i p amount s :
  g_players s !! i = Some p → 0 < amount → top_bet s → top_bet (placed_bet i p amount s).
Proof.
  intros Hi Ha H. unfold top_bet, bets in *. cbn. rewrite list_fmap_insert.
  rewrite (js_max_insert _ _ (p_bet p)); [|by rewrite list_lookup_fmap, Hi|cbn; lia].
  rewrite H. cbn. destruct (Z.ltb_spec (js_max (p_bet <$> g_players s)) (p_bet p + amount)); lia.
Qed.

Section Topped.
Context (sha256 : list Z → list Z) (seed : list Z).

Lemma findPlayer_topped id : preserves topped (findPlayer id).
Proof. intros m Hm. unfold findPlayer. by destruct (find_seat _ _). Qed.
Lemma placeBet_topped i amount : preserves topped (placeBet i amount).
Proof.
  intros m Hm. unfold placeBet. destruct (g_players (m_state m) !! i) as [p|] eqn:Ep; [|done].
  destruct (Z.leb_spec amount 0); [done|]. destruct (p_stack p <? amount); [done|]. by apply placed_top.
Qed.
Lemma blinds_topped f : preserves topped (blinds_modify f).
Proof. by apply preserves_modify. Qed.
Lemma state_topped f : (∀ s, top_bet s → top_bet (f s)) → preserves topped (state_modify f).
Proof. intros H. apply preserves_modify. intros m. apply H. Qed.
Lemma deal_one_topped : preserves topped deal_one.
Proof. intros m Hm. unfold deal_one. by destruct (pop _) as [[c|] d]. Qed.
Lemma ensure_topped n : preserves topped (ensureDeckCapacity sha256 seed n).
Proof. intros m Hm. unfold ensureDeckCapacity. case_bool_decide; [case_bool_decide|]; done. Qed.
Hint Resolve findPlayer_topped placeBet_topped blinds_topped deal_one_topped ensure_topped : hub.

Lemma deal_top s : top_bet s → top_bet (deal_hands sha256 seed s).
Proof.
  apply top_bet_same; unfold deal_hands, bets.
  - pose proof (deal_holes_seats (buildDeck sha256 seed []) (g_players s)) as E. destruct (deal_holes _ _) as [ps deck].
    exact (fmap_same_compose _ (λ x, x.2.2) _ _ E).
  - by destruct (deal_holes _ _).
Qed.
Lemma settle_top s : top_bet s → top_bet (settlePots s).
Proof.
  unfold settlePots. destruct (active_seats (g_players s)); [done|]. apply top_bet_same; [|done]. unfold bets. cbn.
  apply list_eq. intros i. rewrite !list_lookup_fmap, settle_pots_lookup. by destruct (g_players s !! i).
Qed.
Lemma clear_top s : top_bet (clear_hand s).
Proof. apply top_bet_zero; [|done]. apply Forall_fmap, Forall_fmap, Forall_true. done. Qed.

Lemma apply_topped a : preserves topped (hsm_apply sha256 seed a).
Proof.
  unfold hsm_apply. apply preserves_bind; [apply preserves_gets|]. intros ph.
  apply preserves_bind; [|intros; apply preserves_gets].
  destruct ph; unfold apply_blinds, apply_deal, apply_betting, apply_showdown, apply_settle, invalid_action, dealCommunity;
    destruct a; preserve; apply state_topped; intros s Hs; auto using deal_top, settle_top, clear_top, close_top,
      next_street_top, fold_top.
Qed.

Lemma reachable_topped ids stack m : reachable sha256 seed ids stack m → topped m.
Proof.
  induction 1 as [|m a _ IH]; [|by apply apply_topped]. apply top_bet_zero; [|done].
  apply Forall_fmap, Forall_fmap, Forall_true. done.
Qed.
End Topped.

(** *** What the page shows of a machine *)

Section View.
Context {T : Type → Type} `{!TableOps T} (db : TablesStore (T := T)).

(** The players [getTable] answers with, for a state. *)
Definition seen_players (s : GameStateInternal) : list PagePlayer := page_players db (pub_players (sanitize s None)).

Lemma page_committed s : pp_committed <$> seen_players s = bets s.
Proof.
  unfold seen_players, page_players, bets. cbn [sanitize pub_players]. apply list_eq. intros i.
  rewrite !list_lookup_fmap, list_lookup_imap, list_lookup_fmap. by destruct (g_players s !! i).
Qed.

Lemma find_imap {A} (f : nat → A → PagePlayer) (n i : nat) (l : list A) :
  (∀ j x, pp_id (f j x) = Z.of_nat j + 1) →
  List.find (λ p, pp_id p =? Z.of_nat (n + i) + 1) (imap (λ j x, f (n + j)%nat x) l) = f (n + i)%nat <$> l !! i.
Proof.
  intros Hf. revert n i. induction l as [|x l IH]; intros n [|i]; try done; rewrite imap_cons; cbn [List.find]; rewrite Hf.
  - rewrite !Nat.add_0_r, Z.eqb_refl. done.
  - destruct (Z.eqb_spec (Z.of_nat (n + 0) + 1) (Z.of_nat (n + S i) + 1)); [lia|].
    replace (n + S i)%nat with (S n + i)%nat by lia. etrans; [|apply (IH (S n) i)]. f_equal.
    apply imap_ext. intros j y _. cbn. f_equal. lia.
Qed.

Lemma page_hero s i p name :
  g_players s !! i = Some p →
  ∃ h, find_hero (seen_players s) (Some (Z.of_nat i + 1)) name = Some h ∧ pp_chips h = p_stack p ∧ pp_committed h = p_bet p.
Proof.
  intros Hi. unfold find_hero, seen_players, page_players. cbn [sanitize pub_players].
  pose proof (find_imap (λ j x, {| pp_id := Z.of_nat j + 1;
                  pp_username := from_option u_username (pub_id x) (user_of (pub_id x) db);
                  pp_avatar := default "" (user_of (pub_id x) db ≫= u_avatarKey);
                  pp_chips := pub_stack x; pp_committed := pub_bet x; pp_isFolded := pub_folded x;
                  pp_isAllIn := pub_allIn x |}) 0 i (public_player None <$> g_players s) ltac:(done)) as E.
  cbn [Nat.add] in E. rewrite E, list_lookup_fmap, Hi. by eexists.
Qed.

(** The pot on the page counts the bets of the round twice. *)
Lemma pot_counts_bets_twice s cards bb hero name :
  bt_pot (useBetting (seen_players s) cards (g_pot s) bb hero name) = g_pot s + bets_total s.
Proof. unfold useBetting. cbn [bt_pot]. by rewrite page_committed. Qed.

(** What a button asks the machine of the player to do. *)
Definition asks (p : PlayerStateInternal) (a : PageAction) : option GameAction :=
  match a with
  | PFold => Some (FoldAction (p_id p)) | PCheck => Some (CheckAction (p_id p)) | PCall => Some (CallAction (p_id p))
  | PRaiseTo (Some t) => Some (RaiseAction (p_id p) (t - p_bet p))
  | PRaiseTo None => None
  end.
End View.

Section Machine.
Context (sha256 : list Z → list Z) (seed : list Z).

Lemma find_seat_at ids stack m i p :
  NoDup ids → reachable sha256 seed ids stack m → g_players (m_state m) !! i = Some p →
  find_seat (p_id p) (g_players (m_state m)) = Some i.
Proof.
  intros Hnd Hr Hi. unfold find_seat. apply fmap_Some. exists (i, p). split; [|done]. apply list_find_Some.
  split_and!; [done..|]. intros j q Hj Hlt E. rewrite <- (reachable_ids sha256 seed _ _ _ Hr) in Hnd.
  pose proof (NoDup_lookup _ i j (p_id p) Hnd) as H. unfold seat_ids in H. rewrite !list_lookup_fmap, Hi, Hj in H.
  cbn in H. rewrite E in H. specialize (H eq_refl eq_refl). lia.
Qed.

(** A bet or a call in a round of betting. *)
Definition takes (m : HandStateMachine) (a : GameAction) (i : nat) (p : PlayerStateInternal) (amount : Z) : Prop :=
  hsm_apply sha256 seed a m =
    (Ret (placed_bet i p amount (m_state m)), Machine (placed_bet i p amount (m_state m)) (m_blindsPosted m)).
Definition refuses (m : HandStateMachine) (a : GameAction) : Prop := ∃ e, hsm_apply sha256 seed a m = (Throw e, m).

Section Round.
Context (m : HandStateMachine) (i : nat) (p : PlayerStateInternal).
Context (Hph : g_phase (m_state m) = BETTING_ROUND) (Hact : (2 ≤ active_count (g_players (m_state m)))%nat).
Context (Hf : find_seat (p_id p) (g_players (m_state m)) = Some i) (Hi : g_players (m_state m) !! i = Some p).

Lemma placed_round amount : close_if_alone (placed_bet i p amount (m_state m)) = placed_bet i p amount (m_state m).
Proof.
  unfold close_if_alone. rewrite bool_decide_eq_false_2; [done|]. intros [_ H].
  assert (active_count (g_players (placed_bet i p amount (m_state m))) = active_count (g_players (m_state m))) as E.
  { apply active_count_ext. cbn. by apply (list_fmap_insert_same p_folded _ i p). }
  unfold active_count, activePlayers in *. lia.
Qed.

Lemma betting_eq a : hsm_apply sha256 seed a m = (apply_betting a ;; gets m_state) m.
Proof. unfold hsm_apply. rewrite bind_eq. unfold gets at 1. by rewrite Hph. Qed.
Lemma find_eq : findPlayer (p_id p) m = (Ret i, m).
Proof. unfold findPlayer. by rewrite Hf. Qed.

Lemma raise_run amount :
  (0 < amount <= p_stack p → takes m (RaiseAction (p_id p) amount) i p amount) ∧
  (¬ 0 < amount <= p_stack p → refuses m (RaiseAction (p_id p) amount)).
Proof.
  unfold takes, refuses. rewrite betting_eq. unfold apply_betting, mbind, M_bind. rewrite find_eq.
  destruct (placeBet_cases i p amount m Hi) as [[Ha E]|[Ha [e E]]]; rewrite E; split; intros H; try done.
  - unfold state_modify, modify, gets. cbn. by rewrite placed_round.
  - by exists e.
Qed.

Lemma call_run :
  hsm_apply sha256 seed (CallAction (p_id p)) m =
  hsm_apply sha256 seed (RaiseAction (p_id p) (g_currentBet (m_state m) - p_bet p)) m.
Proof. rewrite !betting_eq. unfold apply_betting, mbind, M_bind, gets. rewrite find_eq. by rewrite Hi. Qed.
End Round.

(** C34: What the buttons of the page offer, the machine takes. For every machine a hand can reach while bets are
    placed, and the page of its state for the player of any seat: the amount to call is what the player is short
    of the current bet; a call the stack covers is taken and evens the bet; a total the raise button is live for
    is taken exactly when it is above what the player has bet and within the stack, and is then the player's bet;
    and facing a bet, with a stack that covers the least raise, that is every such total. *)
Theorem page_offers_what_machine_takes {T : Type → Type} `{!TableOps T} (db : TablesStore (T := T)) ids stack m i p cards bb :
  (2 ≤ length ids)%nat → 0 <= stack → NoDup ids → 0 < bb →
  reachable sha256 seed ids stack m → g_phase (m_state m) = BETTING_ROUND → g_players (m_state m) !! i = Some p →
  let b := useBetting (seen_players db (m_state m)) cards (g_pot (m_state m)) bb (Some (Z.of_nat i + 1)) None in
  bt_callAmount b = g_currentBet (m_state m) - p_bet p ∧
  (0 < bt_callAmount b <= p_stack p → takes m (CallAction (p_id p)) i p (bt_callAmount b)) ∧
  (∀ t, isIllegal b bb (Some t) = false →
     let a := RaiseAction (p_id p) (t - p_bet p) in
     (p_bet p < t <= p_bet p + p_stack p → takes m a i p (t - p_bet p) ∧ p_bet (bet_player (t - p_bet p) p) = t) ∧
     (¬ p_bet p < t <= p_bet p + p_stack p → refuses m a) ∧
     (0 < bt_callAmount b → bt_minTotal b <= p_bet p + p_stack p → p_bet p < t <= p_bet p + p_stack p)).
Proof.
  intros Hn Hs Hnd Hbb Hr Hph Hi b.
  pose proof (reachable_chips sha256 seed ids stack m Hn Hs Hr) as [Hm Hp]. unfold phase_wf in Hp. rewrite Hph in Hp.
  pose proof (find_seat_at ids stack m i p Hnd Hr Hi) as Hf.
  pose proof (reachable_topped sha256 seed ids stack m Hr) as Htop. unfold topped, top_bet in Htop.
  pose proof (Forall_lookup_1 _ _ _ _ (mw_seats _ Hm) Hi) as Hseat. cbn in Hseat.
  destruct (page_hero db (m_state m) i p None Hi) as (h & Hh & Hchips & Hcom).
  assert (bt_callAmount b = g_currentBet (m_state m) - p_bet p) as Hcall.
  { unfold b, useBetting. cbn [bt_callAmount]. rewrite page_committed, Hh. cbn [from_option]. rewrite Hcom, <- Htop. lia. }
  pose proof (raise_run m i p Hph Hp Hf Hi) as Hrun.
  split_and!; [done| |].
  - intros Hc. unfold takes. rewrite (call_run m i p Hph Hf Hi), <- Hcall. by apply Hrun.
  - intros t Hlegal a. apply isIllegal_false in Hlegal as (t' & [= <-] & Ht & _ & _). split_and!.
    + intros Hok. split; [apply Hrun; lia|]. cbn. lia.
    + intros Hno. apply Hrun. lia.
    + intros Hpos Hmin. revert Ht Hpos Hmin. unfold b, useBetting. cbn [bt_minTotal bt_maxTotal bt_callAmount].
      rewrite page_committed, Hh. cbn [from_option]. rewrite Hcom, Hchips, <- Htop.
      intros Ht Hpos Hmin. revert Ht Hmin. rewrite (proj2 (Z.ltb_lt _ _) Hpos). lia.
Qed.
End Machine.

(** *** Toasts *)

(** At most three, numbered in order, each with the timeout that will take it away. *)
Definition toasts_inv (s : Toasts) : Prop :=
  (length (ts_shown s) ≤ 3)%nat ∧ Forall (λ t, to_id t < ts_nextId s) (ts_shown s) ∧ NoDup (to_id <$> ts_shown s) ∧
  Forall (λ t, to_id t ∈ (ts_timeouts s).*1) (ts_shown s).

Lemma pushToast_inv now message duration variant s : toasts_inv s → toasts_inv (pushToast now message duration variant s).
Proof.
  intros (Hlen & Hid & Hnd & Hto). unfold pushToast, slice_last. cbn.
  set (t := {| to_id := ts_nextId s; to_message := message; to_variant := variant; to_duration := duration |}).
  split_and!; cbn.
  - rewrite length_drop. lia.
  - apply Forall_drop, Forall_app. split; [|repeat constructor; cbn; lia]. eapply Forall_impl; [exact Hid|]. cbn. lia.
  - rewrite fmap_drop. apply (sublist_NoDup _ (to_id <$> (ts_shown s ++ [t]))); [|apply sublist_drop].
    rewrite fmap_app. apply NoDup_app. split_and!; [done| |apply NoDup_singleton].
    intros x (y & -> & Hy)%list_elem_of_fmap Hx%list_elem_of_singleton. rewrite Forall_forall in Hid.
    specialize (Hid _ Hy). cbn in Hx. lia.
  - apply Forall_drop, Forall_app. rewrite fmap_app. split.
    + eapply Forall_impl; [exact Hto|]. cbn. intros x Hx. apply elem_of_app. by left.
    + repeat constructor. cbn. apply elem_of_app. right. by left.
Qed.
Lemma toast_timeout_inv id s : toasts_inv s → toasts_inv (toast_timeout id s).
Proof.
  intros (Hlen & Hid & Hnd & Hto). unfold toast_timeout.
  assert (sublist (List.filter (λ t, negb (to_id t =? id)) (ts_shown s)) (ts_shown s)) as Hsub.
  { clear. induction (ts_shown s) as [|x l IH]; simpl; [constructor|]. destruct (negb _); by constructor. }
  split_and!; cbn.
  - apply sublist_length in Hsub. lia.
  - apply Forall_forall. intros t [Ht _]%list_elem_of_In%filter_In. rewrite Forall_forall in Hid. apply Hid, list_elem_of_In, Ht.
  - apply (sublist_NoDup _ _ Hnd). by apply fmap_sublist.
  - apply Forall_forall. intros t [Ht Hne%negb_true_iff%Z.eqb_neq]%list_elem_of_In%filter_In.
    rewrite Forall_forall in Hto. specialize (Hto t). rewrite list_elem_of_In in Hto. specialize (Hto Ht).
    apply list_elem_of_fmap in Hto as ([k due] & E & Hk). apply list_elem_of_fmap. exists (k, due). split; [done|].
    apply list_elem_of_In, filter_In. split; [by apply list_elem_of_In|]. cbn in *. subst k.
    by apply negb_true_iff, Z.eqb_neq.
Qed.

(** *** Chips *)

Lemma breakdown_from denoms : NoDup denoms → Forall (λ d, 0 < d) denoms → ∀ rem res, 0 <= rem →
  let r := foldl breakdown_step (rem, res) denoms in
  (∀ d, d ∉ denoms → r.2 !! d = res !! d) ∧
  sum_by (λ d, d * chip_count r.2 d) denoms + r.1 = rem ∧ 0 <= r.1 <= rem ∧ ∀ d, d ∈ denoms → r.1 < d.
Proof.
  induction 1 as [|d l Hd Hnd IH]; intros Hpos rem res Hrem r.
  - unfold r. cbn. split_and!; [done|lia..|]. intros d Hd. by apply elem_of_nil in Hd.
  - apply Forall_cons in Hpos as [Hd0 Hpos]. unfold r. cbn [foldl breakdown_step].
    set (q := if d <=? rem then rem / d else 0). set (rem' := if d <=? rem then Z.rem rem d else rem).
    assert ((if d <=? rem then (Z.rem rem d, <[d := rem / d]> res) else (rem, <[d := 0]> res)) = (rem', <[d := q]> res)) as ->
      by (unfold q, rem'; by destruct (d <=? rem)).
    assert (d * q + rem' = rem ∧ 0 <= rem' <= rem ∧ rem' < d) as (Hq & Hr & Hlt).
    { unfold q, rem'. destruct (Z.leb_spec d rem); [|lia].
      rewrite Z.rem_mod_nonneg by lia. pose proof (Z.div_mod rem d ltac:(lia)). pose proof (Z.mod_pos_bound rem d Hd0).
      pose proof (Z.mod_le rem d Hrem Hd0). lia. }
    specialize (IH Hpos rem' (<[d := q]> res) (proj1 Hr)) as (Hother & Hsum & Hle & Hall).
    split_and!; [| |lia|lia|].
    + intros d' [Hne Hd']%not_elem_of_cons. rewrite Hother by done. by apply lookup_insert_ne.
    + rewrite sum_by_cons. unfold chip_count at 1. rewrite (Hother d Hd), lookup_insert_eq. cbn. lia.
    + intros d' [->|Hd']%elem_of_cons; [lia|by apply Hall].
Qed.

(** The columns of distinct denominations add up to the amount but for less than the least of them. *)
Lemma breakdown_adds_up amount denoms :
  NoDup denoms → Forall (λ d, 0 < d) denoms →
  let r := breakdown amount denoms in
  sum_by (λ d, d * chip_count r.2 d) denoms + r.1 = Z.max 0 amount ∧ 0 <= r.1 ∧ ∀ d, d ∈ denoms → r.1 < d.
Proof.
  intros Hnd Hpos r. destruct (breakdown_from denoms Hnd Hpos (Z.max 0 amount) ∅ ltac:(lia)) as (_ & H1 & H2 & H3).
  split_and!; [done|apply H2|done].
Qed.

(** ** Witness, and what the page gets wrong *)

(** After the flop [b] has bet 10, and [a], at the first seat, faces it. *)
Definition flop0 : HandStateMachine := run_actions (λ _, [1; 2; 3; 4]) [] demo_actions (new_machine ["a"; "b"] 100).
Definition facing_ten : PlayerStateInternal := default (new_player 0 "") (g_players (m_state flop0) !! 0%nat).

Lemma page_offers_what_machine_takes_witness :
  bt_callAmount (useBetting (seen_players store0 (m_state flop0)) [] (g_pot (m_state flop0)) 2 (Some 1) None) = 10 - 0.
Proof.
  refine (proj1 (page_offers_what_machine_takes (λ _, [1; 2; 3; 4]) [] store0 ["a"; "b"] 100 flop0 0 facing_ten [] 2
                   _ _ _ _ _ _ _)).
  - simpl. lia.
  - lia.
  - apply (bool_decide_eq_true_1 (NoDup _)). vm_compute. reflexivity.
  - lia.
  - apply reachable_run.
  - vm_compute. reflexivity.
  - vm_compute. reflexivity.
Defined.

Definition seat_with (id chips committed : Z) : PagePlayer :=
  {| pp_id := id; pp_username := ""; pp_avatar := ""; pp_chips := chips; pp_committed := committed;
     pp_isFolded := false; pp_isAllIn := false |}.
(** The hero sits at the first seat. *)
Definition page0 (bigBlind : Z) (players : list PagePlayer) : Betting :=
  useBetting players [] 0 bigBlind (Some 1) None.
Definition all_in (bigBlind : Z) (b : Betting) : number :=
  bs_total (bet_gesture b bigBlind (λ _, None) {| bs_total := None; bs_typed := "" |} PresetAllIn).

(** All-in is rounded to whole blinds: a stack of 940 goes in for 900, one of 950 makes the button dead. *)
Lemma all_in_needs_whole_blinds :
  all_in 100 (page0 100 [seat_with 1 940 0; seat_with 2 5000 0]) = Some 900
  ∧ all_in 100 (page0 100 [seat_with 1 950 0; seat_with 2 5000 0]) = Some 950
  ∧ isIllegal (page0 100 [seat_with 1 950 0; seat_with 2 5000 0]) 100 (Some 950) = true.
Proof. vm_compute. done. Qed.

(** A player who cannot cover the least raise is offered it nevertheless. *)
Lemma short_stack_is_offered_too_much :
  let b := page0 10 [seat_with 1 30 10; seat_with 2 500 60] in
  bt_minTotal b = 110 ∧ bt_maxTotal b = 110 ∧ isIllegal b 10 (Some 110) = false ∧ isIllegal b 10 (Some 40) = true.
Proof. vm_compute. done. Qed.

(** Somebody's call of a raise to 60 brings the least raise down from 110 to 70. *)
Lemma caller_shrinks_min_raise :
  bt_minTotal (page0 10 [seat_with 1 500 10; seat_with 2 500 60]) = 110
  ∧ bt_minTotal (page0 10 [seat_with 1 500 10; seat_with 2 500 60; seat_with 3 500 60]) = 70.
Proof. vm_compute. done. Qed.

(** The big blind, called, may raise to what it has bet; the machine refuses the raise of nothing. *)
Lemma big_blind_option_raises_nothing :
  let m := run_actions (λ _, [1; 2; 3; 4]) []
             [PostBlind "a" 1; PostBlind "b" 2; NextAction; CallAction "a"] (new_machine ["a"; "b"] 100) in
  let b := useBetting (seen_players store0 (m_state m)) [] (g_pot (m_state m)) 2 (Some 2) None in
  isIllegal b 2 (Some 2) = false
  ∧ (hsm_apply (λ _, [1; 2; 3; 4]) [] (RaiseAction "b" (2 - 2)) m).1 = Throw "amount must be positive".
Proof. vm_compute. done. Qed.

(** The timer stays when the turn passes on: nothing passes the acknowledgement that would clear it. *)
Lemma timer_outlives_turn t : t ≠ 0 →
  let mine := {| tm_isHeroTurn := true; tm_turnDeadline := Some t; tm_acknowledged := false |} in
  let over := {| tm_isHeroTurn := false; tm_turnDeadline := None; tm_acknowledged := false |} in
  deadline_step (Some mine) over (deadline_step None mine None) = Some t.
Proof.
  intros Ht. unfold deadline_step. cbn. rewrite (proj2 (Z.eqb_neq _ _) Ht). cbn.
  repeat (case_bool_decide; try done).
Qed.

(** A denomination stored twice loses its chips. *)
Lemma twice_stored_denomination_vanishes : chipColumn (breakdown 250 [100; 100]).2 100 = None.
Proof. vm_compute. done. Qed.
