(* ===== verification/TournamentRoutes.v ===== *)
(** * The tournaments' routes

    backend/src/tournament/tournament.controller.ts behind its guards, over the service
    of [Tournament], with the service's pages (list, options, formats, bots, the page of
    one tournament). The limit of requests is a package: a request says whether it was
    let through. Bodies arrive as the types say; the controller does not parse them.
    Dates are milliseconds. *)

From S2P Require Import Prelude JsNum JsText SidePots Store Schemas WalletModel WalletCash WalletLedger Auth WalletRoutes TournamentPay Tournament TournamentSafety.
#[local] Open Scope string_scope.
#[local] Open Scope list_scope.
#[local] Open Scope Z_scope.

(** ** Pages *)

Inductive TournamentDetailType := OVERVIEW | STRUCTURE | PRIZES.
#[export] Instance TournamentDetailType_eq_dec : EqDecision TournamentDetailType.
Proof. solve_decision. Defined.
Record TournamentDetail := {
  dt_id : string; dt_tournamentId : string; dt_type : TournamentDetailType; dt_sortOrder : Z; dt_title : string;
  dt_description : string }.
Record OptionRow := { op_id : string; op_label : string; op_color : option string; op_sortOrder : Z }.
Record BotRow := { bo_name : string; bo_proportion : double; bo_bustMultiplier : double }.

(** The tables only read. *)
Record TournamentPagesDb := {
  db_details : list TournamentDetail; db_filters : list OptionRow; db_adminFilters : list OptionRow;
  db_formats : list OptionRow; db_bots : list BotRow }.

Record AdminFilterOption := { af_id : string; af_label : string; af_colorClass : option string }.
Definition DEFAULT_ADMIN_TOURNAMENT_FILTERS : list AdminFilterOption := [
  {| af_id := "all"; af_label := "All"; af_colorClass := None |};
  {| af_id := "scheduled"; af_label := "Scheduled"; af_colorClass := Some "border-accent-blue text-accent-blue" |};
  {| af_id := "auto-start"; af_label := "Auto-start"; af_colorClass := Some "border-accent-blue text-accent-blue" |};
  {| af_id := "running"; af_label := "Running"; af_colorClass := Some "border-accent-green text-accent-green" |};
  {| af_id := "finished"; af_label := "Finished"; af_colorClass := Some "border-text-secondary text-text-secondary" |};
  {| af_id := "cancelled"; af_label := "Cancelled"; af_colorClass := Some "border-red-500 text-red-500" |}].
Definition admin_filter_ids : list string := ["all"; "scheduled"; "running"; "finished"; "cancelled"; "auto-start"].

Record TournamentDetails := {
  tp_id : string; tp_title : string; tp_buyIn : Z; tp_currency : option string; tp_gameType : string;
  tp_prizePool : Z; tp_state : TournamentState; tp_current : nat; tp_max : Z; tp_registered : bool;
  tp_open : option Z; tp_close : option Z; tp_overview : list (string * string); tp_structure : list (string * string);
  tp_prizes : list (string * string) }.

(** ** Requests *)

Record CalculatePrizesRequest := {
  cp_prizePool : Z; cp_payouts : list double; cp_bountyPct : option double; cp_satelliteSeatCost : option Z }.
Record TournamentScheduleRequest := {
  sr_startTime : Z; sr_open : Z; sr_close : Z; sr_structure : list (Z * Z); sr_breaks : option (list (Z * Z)) }.

Inductive TournamentRoute :=
| RList | RBotProfiles | RFilters | RGet (id : string)
| RRegister (id : string) | RLeave (id : string) | RCancel (id : string)
| RPrizes (id : string) (body : CalculatePrizesRequest)
| RHotPatch (id : string) (level smallBlind bigBlind : Z)
| RSchedule (id : string) (body : TournamentScheduleRequest).

Inductive TournamentAnswer :=
| TAList (l : list Tournament) | TABots (l : list BotRow) | TAFilters (l : list (string * string))
| TADetails (d : TournamentDetails) | TASeat (s : Seat) | TAMessage (text : string)
| TAPrizes (o : option (outcome PrizeResult)) | TAJobs (jobs : list Job) | TANothing.

Section TournamentRoutes.
Context {T : Type → Type} `{!TableOps T} {R : Type} `{!RedisOps R CachedValue}
  {B : Type} `{!BusOps B WalletEvent} (env : TournamentEnv) (C : Crypto) (cfg : AuthConfig).
(** The order of texts, of the database and of [localeCompare]. *)
Context (text_leb : string → string → bool) (db : TournamentPagesDb).
Abbreviation TW := (TournamentWorld T R B).
Abbreviation RM := (M TW).

(** *** Pages *)

Definition list_tournaments (w : TW) : list Tournament := rows (tw_tournaments w).

Definition by_order (a b : OptionRow) : bool := op_sortOrder a <=? op_sortOrder b.
Definition known_filter (s : string) : bool := bool_decide (s ∈ ["active"; "upcoming"; "past"]).
(** Labels and values; a value out of the enum fails the parse of the answer. *)
Definition tournament_filters : outcome (list (string * string)) :=
  let options := js_sort (λ a b, text_leb (op_id a) (op_id b)) (db_filters db) in
  if forallb (λ o, known_filter (op_id o)) options then Ret ((λ o, (op_label o, op_id o)) <$> options) else Throw "ZodError".

Definition admin_option (o : OptionRow) : AdminFilterOption :=
  {| af_id := op_id o; af_label := op_label o; af_colorClass := truthy (op_color o) |}.
Definition admin_option_ok (o : AdminFilterOption) : bool :=
  bool_decide (af_id o ∈ admin_filter_ids) && negb (bool_decide (af_label o = "")).
Definition getAdminFilterOptions : list AdminFilterOption :=
  let parsed := admin_option <$> js_sort by_order (db_adminFilters db) in
  if negb (bool_decide (parsed = [])) && forallb admin_option_ok parsed then parsed
  else DEFAULT_ADMIN_TOURNAMENT_FILTERS.

Definition listFormats : list (string * string) := (λ o, (op_id o, op_label o)) <$> js_sort by_order (db_formats db).

Definition detail_leb (a b : TournamentDetail) : bool :=
  if dt_sortOrder a =? dt_sortOrder b then text_leb (dt_id a) (dt_id b) else dt_sortOrder a <? dt_sortOrder b.
Definition details_of (id : string) (ty : TournamentDetailType) : list (string * string) :=
  let detailRows := js_sort detail_leb (List.filter (λ d, bool_decide (dt_tournamentId d = id)) (db_details db)) in
  let sortedRows := js_sort detail_leb detailRows in
  (λ d, (dt_title d, dt_description d)) <$> List.filter (λ d, bool_decide (dt_type d = ty)) sortedRows.

Definition get_tournament (id : string) (userId : option string) : RM TournamentDetails :=
  t ← getEntity id;
  playerCount ← gets (λ w, length (seats_of id w));
  registered ← gets (λ w, match truthy userId with
                          | Some u => bool_decide (u ∈ st_userId <$> seats_of id w)
                          | None => false
                          end);
  mret {| tp_id := t_id t; tp_title := t_title t; tp_buyIn := t_buyIn t; tp_currency := t_currency t;
          tp_gameType := t_gameType t; tp_prizePool := t_prizePool t; tp_state := t_state t;
          tp_current := playerCount; tp_max := t_maxPlayers t; tp_registered := registered;
          tp_open := t_registrationOpen t; tp_close := t_registrationClose t;
          tp_overview := details_of id OVERVIEW; tp_structure := details_of id STRUCTURE;
          tp_prizes := details_of id PRIZES |}.
Definition tournament_getState (id : string) (w : TW) : option TournamentState :=
  t_state <$> find_row (λ t, bool_decide (t_id t = id)) (tw_tournaments w).

(** *** Guards and routes *)

Definition user_guard (req : WalletRequest) : RM string := lift (auth_guard C cfg (wr_header req) (wr_now req)).
Definition admins_only (req : WalletRequest) : RM string :=
  user_guard req ;; lift (admin_guard C cfg (wr_header req) (wr_now req)).

Definition tournament_serve (req : WalletRequest) (r : TournamentRoute) : RM TournamentAnswer :=
  match r with
  | RList => l ← gets list_tournaments; mret (TAList l)
  | RBotProfiles => mret (TABots (db_bots db))
  | RFilters => l ← lift tournament_filters; mret (TAFilters l)
  | RGet id => d ← get_tournament id None; mret (TADetails d)
  | RRegister id => userId ← user_guard req; s ← join env id userId; mret (TASeat s)
  | RLeave id => userId ← user_guard req; withdraw_seat env id userId ;; mret (TAMessage "tournament withdrawal")
  | RCancel id => admins_only req ;; cancel env id ;; mret (TAMessage "tournament cancelled")
  | RPrizes id body =>
      user_guard req ;;
      mret (TAPrizes (calculatePrizes (cp_prizePool body) (TopN (cp_payouts body))
        {| o_bountyPct := cp_bountyPct body; o_satelliteSeatCost := cp_satelliteSeatCost body |}))
  | RHotPatch id level small big => admins_only req ;; hotPatchLevel id level small big ;; mret TANothing
  | RSchedule id body =>
      admins_only req ;;
      mret (TAJobs (scheduleTournament id (sr_open body, sr_close body) (sr_structure body)
                      (default [] (sr_breaks body)) (sr_startTime body) (wr_now req)))
  end.
Definition tournament_route (req : WalletRequest) (r : TournamentRoute) : RM TournamentAnswer :=
  throw_if (wr_throttled req) "Too Many Requests" ;; tournament_serve req r.

(** ** Who changes what *)

Context `{!TableLaws T}.

Definition same_outside (w0 w : TW) : Prop :=
  tw_tournaments w = tw_tournaments w0 ∧ tw_tables w = tw_tables w0 ∧ tw_levels w = tw_levels w0 ∧
  tw_patched w = tw_patched w0 ∧ tw_bubble w = tw_bubble w0 ∧ tw_lastMoved w = tw_lastMoved w0.
(** The seats of others are those of [w0]. *)
Definition others_seated (u : string) (w0 w : TW) : Prop :=
  unique_ids (tw_seats w) ∧ ∀ s, st_userId s ≠ u → s ∈ rows (tw_seats w) ↔ s ∈ rows (tw_seats w0).
(** The accounts of others are those of [w0]. *)
Definition others_paid (u : string) (w0 w : TW) : Prop :=
  match tw_wallet w0, tw_wallet w with
  | Some x0, Some x => stands (List.filter (λ a, bool_decide (bystander u a)) (rows (accounts x0))) x
  | None, None => True
  | _, _ => False
  end.
Definition only_mine (u : string) (w0 w : TW) : Prop := same_outside w0 w ∧ others_seated u w0 w ∧ others_paid u w0 w.

Section Mine.
Context (u : string) (w0 : TW).

Lemma wallet_call_mine c :
  (∀ l, (∀ a, a ∈ l → bystander u a) → preserves (stands l) c) → preserves (only_mine u w0) (wallet_call c).
Proof.
  intros Hc w (Hs & Hseats & Hpaid). unfold wallet_call. unfold others_paid in Hpaid.
  destruct (tw_wallet w) as [x|] eqn:Ex; [|split_and!; [exact Hs|exact Hseats|by unfold others_paid; cbn; rewrite Ex]].
  destruct (tw_wallet w0) as [x0|] eqn:E0; [|done].
  assert (∀ a, a ∈ List.filter (λ a, bool_decide (bystander u a)) (rows (accounts x0)) → bystander u a) as Hl.
  { intros a [_ H%bool_decide_eq_true]%list_elem_of_In%filter_In. done. }
  specialize (Hc _ Hl x Hpaid). destruct (c x) as [o x'].
  split_and!; [exact Hs|exact Hseats|]. unfold others_paid. rewrite E0. exact Hc.
Qed.
Lemma reserve_mine amount refId currency :
  preserves (only_mine u w0) (wallet_call (reserve (te_wallet env) u amount refId currency None)).
Proof. apply wallet_call_mine. intros l Hl. by apply (reserve_stands _ u). Qed.
Lemma rollback_mine amount refId currency :
  preserves (only_mine u w0) (wallet_call (rollback (te_wallet env) u amount refId currency None)).
Proof. apply wallet_call_mine. intros l Hl. by apply (rollback_stands _ u). Qed.
Lemma emit_mine ev : preserves (only_mine u w0) (t_emit ev).
Proof. intros w Hw. exact Hw. Qed.

Lemma new_seat_mine tb n : preserves (only_mine u w0) (new_seat env tb u n).
Proof.
  intros w (Hs & [Hu Hseats] & Hpaid). unfold new_seat.
  destruct (insert_row _ _) as [seats|] eqn:E; [|by split_and!].
  split_and!; [exact Hs| |exact Hpaid]. split; [by eapply unique_ids_insert|]. intros s Hne. cbn.
  rewrite (rows_insert _ _ _ E), elem_of_cons, <- (Hseats s Hne). split; [|by right]. by intros [->|?].
Qed.
Lemma getEntity_mine id : preserves (only_mine u w0) (getEntity id).
Proof. unfold getEntity. preserve. Qed.
Hint Resolve reserve_mine rollback_mine emit_mine new_seat_mine getEntity_mine : hub.

Lemma join_mine id : preserves (only_mine u w0) (join env id u).
Proof. unfold join, join_seat, if_wallet. preserve. Qed.

Lemma if_wallet_mine ev : preserves (only_mine u w0) (if_wallet (t_emit ev)).
Proof. unfold if_wallet. preserve. Qed.

(** The seat that goes is one of the user's. *)
Lemma delete_mine s w :
  only_mine u w0 w → s ∈ rows (tw_seats w) → st_userId s = u →
  only_mine u w0 (set_seats (delete_where (λ x, bool_decide (st_id x = st_id s)) (tw_seats w)) (tw_seatCount w) w).
Proof.
  intros (Hs & [Hu Hseats] & Hpaid) Hin Hmine. split_and!; [exact Hs| |exact Hpaid]. split; [by apply unique_ids_delete|].
  intros x Hne. cbn. rewrite rows_delete, list_elem_of_filter, <- (Hseats x Hne). split; [tauto|]. intros Hx. split; [|done].
  rewrite bool_decide_spec. intros E. apply Hne. rewrite <- Hmine. f_equal.
  by apply (NoDup_fmap_inj_in st_id (rows (tw_seats w))).
Qed.
Lemma withdraw_mine id : preserves (only_mine u w0) (withdraw_seat env id u).
Proof.
  unfold withdraw_seat. apply preserves_bind; [apply getEntity_mine|]. intros t w Hw. rewrite bind_eq. unfold gets.
  destruct (head (filter (λ s, st_userId s = u) (seats_of id w))) as [s|] eqn:E; [|done].
  assert (s ∈ rows (tw_seats w) ∧ st_userId s = u) as [Hin Hmine].
  { apply head_Some_elem_of in E. apply list_elem_of_filter in E as [Hu Hin]. split; [|done].
    unfold seats_of, find_rows in Hin. by apply list_elem_of_filter in Hin as [_ ?]. }
  rewrite bind_eq. pose proof (rollback_mine (t_buyIn t) id (entry_currency t) w Hw) as H.
  assert (tw_seats (wallet_call (rollback (te_wallet env) u (t_buyIn t) id (entry_currency t) None) w).2 = tw_seats w) as Es.
  { unfold wallet_call. destruct (tw_wallet w); [|done]. by destruct (rollback _ _ _ _ _ _ _). }
  destruct (wallet_call _ w) as [[[]|e] w1]; [|exact H]. cbn in H, Es.
  rewrite bind_eq. unfold modify at 1. apply (if_wallet_mine _ _ (delete_mine s w1 H ltac:(by rewrite Es) Hmine)).
Qed.
End Mine.

Lemma only_mine_refl u w :
  unique_ids (tw_seats w) → (∀ x, tw_wallet w = Some x → unique_ids (accounts x)) → only_mine u w w.
Proof.
  intros Hs Hw. split_and!; [done..|]. unfold others_paid. destruct (tw_wallet w) as [x|]; [|done].
  split; [by apply Hw|]. by intros a [Ha _]%list_elem_of_In%filter_In; apply list_elem_of_In.
Qed.

(** The guards of administrators let administrators through. *)
Lemma admins_only_cases {A} req (k : string → RM A) (w : TW) :
  (∃ admin, admin_guard C cfg (wr_header req) (wr_now req) = Ret admin) ∨ ((admins_only req ≫= k) w).2 = w.
Proof.
  unfold admins_only, user_guard, lift. destruct (admin_guard C cfg (wr_header req) (wr_now req)) as [ad|e]; [left; by exists ad|right].
  rewrite bind_eq, bind_eq. by destruct (auth_guard _ _ _ _).
Qed.

(** C20: Tournaments change by right. A request to the tournaments' routes leaves everything as it was, or carries
    an administrator's token, or comes from a user whose token was accepted and who was let through by the limit of
    requests; then no tournament, table or level changes, the seats of all others are the ones there were, and so
    are the accounts of all other players. *)
Theorem tournaments_change_by_right req r (w : TW) :
  unique_ids (tw_seats w) → (∀ x, tw_wallet w = Some x → unique_ids (accounts x)) →
  let w' := (tournament_route req r w).2 in
  w' = w ∨ (∃ admin, admin_guard C cfg (wr_header req) (wr_now req) = Ret admin) ∨
  (∃ u, auth_guard C cfg (wr_header req) (wr_now req) = Ret u ∧ wr_throttled req = false ∧ only_mine u w w').
Proof.
  intros Hs Hw w'. subst w'. unfold tournament_route. rewrite bind_eq. unfold throw_if.
  destruct (wr_throttled req); [by left|]. cbn [mret M_ret].
  assert (∀ {A} (k : string → RM A), (∀ u, preserves (only_mine u w) (k u)) →
    let w' := ((user_guard req ≫= k) w).2 in
    w' = w ∨ (∃ admin, admin_guard C cfg (wr_header req) (wr_now req) = Ret admin) ∨
    (∃ u, auth_guard C cfg (wr_header req) (wr_now req) = Ret u ∧ false = false ∧ only_mine u w w')) as Huser.
  { intros A k Hk w'. subst w'. rewrite bind_eq. unfold user_guard, lift. destruct (auth_guard _ _ _ _) as [u|e]; [|by left].
    right. right. exists u. split_and!; [done..|]. by apply Hk, only_mine_refl. }
  assert (∀ {A} (k : string → RM A) P, ((admins_only req ≫= k) w).2 = w ∨
    (∃ admin, admin_guard C cfg (wr_header req) (wr_now req) = Ret admin) ∨ P) as Hadmin.
  { intros A k P. destruct (admins_only_cases req k w); auto. }
  destruct r as [| | |id|id|id|id|id body|id level small big|id body]; cbn [tournament_serve]; try apply Hadmin.
  - by left.
  - by left.
  - left. rewrite bind_eq. unfold lift. by destruct (tournament_filters).
  - left. rewrite bind_eq. unfold get_tournament, getEntity, or_fail. rewrite bind_eq, bind_eq. unfold gets at 1.
    by destruct (find_row _ _).
  - apply Huser. intros u. apply preserves_bind; [apply join_mine|intros; apply preserves_ret].
  - apply Huser. intros u. apply preserves_bind; [apply withdraw_mine|intros; apply preserves_ret].
  - left. rewrite bind_eq. unfold user_guard, lift. by destruct (auth_guard _ _ _ _).
Qed.
End TournamentRoutes.

(** ** Witness, and what players may do *)

Definition entry_request (id : string) : outcome TournamentAnswer * DemoTournaments :=
  tournament_route demo_tenv routes_crypto0 routes_cfg0 (λ _ _, true)
    {| db_details := []; db_filters := []; db_adminFilters := []; db_formats := []; db_bots := [] |}
    alice_request (RRegister id) (cup_world [cup_table]).

Lemma tournaments_change_by_right_witness :
  st_userId <$> tw_seats (entry_request "cup").2 = ["alice"]
  ∧ let w := cup_world [cup_table] in
    let w' := (entry_request "cup").2 in
    w' = w ∨ (∃ admin, admin_guard routes_crypto0 routes_cfg0 (wr_header alice_request) (wr_now alice_request) = Ret admin) ∨
    (∃ u, auth_guard routes_crypto0 routes_cfg0 (wr_header alice_request) (wr_now alice_request) = Ret u
          ∧ wr_throttled alice_request = false ∧ only_mine u w w').
Proof.
  split; [vm_compute; done|].
  apply (tournaments_change_by_right demo_tenv routes_crypto0 routes_cfg0 (λ _ _, true)
    {| db_details := []; db_filters := []; db_adminFilters := []; db_formats := []; db_bots := [] |}
    alice_request (RRegister "cup") (cup_world [cup_table])).
  - apply (bool_decide_eq_true_1 (NoDup _)). vm_compute. reflexivity.
  - intros x [= <-]. apply (bool_decide_eq_true_1 (NoDup _)). vm_compute. reflexivity.
Defined.

(** A player leaves a tournament that is over, and has the buy-in back. *)
Lemma refund_after_the_end :
  let run := run_tournament demo_tenv in
  let over := run [TJoin "cup" "alice"; TStart "cup"; TFinish "cup"] (cup_world [cup_table]) in
  let left_ := run [TWithdraw "cup" "alice"] over in
  state_of "cup" over = Some FINISHED ∧ take 1 (balances over) = [("alice", 200)]
  ∧ take 1 (balances left_) = [("alice", 300)].
Proof. vm_compute. done. Qed.

(** The page of a tournament never says that its reader is registered: the route asks for no token. *)
Lemma registered_is_never_shown {T : Type → Type} `{!TableOps T} {R B : Type} text_leb db id (w : TournamentWorld T R B) :
  ∀ d w', get_tournament text_leb db id None w = (Ret d, w') → tp_registered d = false.
Proof.
  intros d w'. unfold get_tournament. rewrite bind_eq. unfold getEntity. rewrite bind_eq. unfold gets at 1.
  destruct (find_row _ _); [|done]. by intros [= <- _].
Qed.

(** ** The list and the lobby *)

(** backend/src/schemas/tournaments.ts, which the lobby parses the list with. *)
Definition TournamentSchema : schema := s_object [
  ("id", s_str); ("title", s_str); ("gameType", ZEnum ["texas"; "omaha"; "allin"; "tournaments"]);
  ("buyIn", ZNumber []); ("fee", ZOptional (ZNumber [])); ("prizePool", ZNumber []);
  ("state", ZEnum ["REG_OPEN"; "RUNNING"; "PAUSED"; "FINISHED"; "CANCELLED"]);
  ("players", s_object [("current", ZNumber []); ("max", ZNumber [])]); ("registered", ZBoolean)].
Definition date_json (d : option Z) : jsval := match d with Some ms => VStr (iso_time ms) | None => VNull end.
(** A row as the list sends it. *)
Definition tournament_json (t : Tournament) : jsval := VObj [
  ("id", VStr (t_id t)); ("title", VStr (t_title t)); ("gameType", VStr (t_gameType t)); ("buyIn", VNum (t_buyIn t));
  ("currency", match t_currency t with Some c => VStr c | None => VNull end); ("prizePool", VNum (t_prizePool t));
  ("maxPlayers", VNum (t_maxPlayers t)); ("state", VStr (state_name (t_state t)));
  ("registrationOpen", date_json (t_registrationOpen t)); ("registrationClose", date_json (t_registrationClose t))].

(** The lobby refuses every list that is not empty: the rows say nothing of players. *)
Lemma lobby_refuses_tournaments `{!ZodOps, !ZodLaws} t l :
  z_parse (ZArray TournamentSchema) (VArr (tournament_json <$> t :: l)) = None.
Proof.
  rewrite parse_array. cbn [fmap list_fmap mapM].
  assert (z_parse TournamentSchema (tournament_json t) = None) as ->; [|done].
  unfold TournamentSchema, s_object, tournament_json. rewrite parse_object.
  rewrite (parse_shape_fails _ _ _ "players" (s_object [("current", ZNumber []); ("max", ZNumber [])])); [done| |].
  - repeat (first [left; reflexivity | right]).
  - cbn [field]. unfold s_object. by rewrite parse_object.
Qed.
