(* ===== verification/TournamentLevels.v ===== *)
(** * Blind levels across restarts

    The levels of backend/src/tournament/tournament.service.ts: the current level of a
    tournament and the blinds an administrator patched, in memory and in Redis, and
    [onModuleInit], which reads them back after a restart. Redis answers KEYS in an
    order of its own; a JSON text is the object it encodes. *)

From S2P Require Import Prelude JsText.
#[local] Open Scope string_scope.
#[local] Open Scope list_scope.
#[local] Open Scope Z_scope.

(** What the service keeps under its keys. *)
Inductive LevelText := LevelNumber (s : string) | PatchedLevels (l : list (string * (Z * Z))).

(** The service and, when there is one, Redis; [None] as a level is NaN. *)
Record LevelService := {
  lv_current : gmap string (option Z); lv_patched : gmap string (gmap Z (Z * Z)); lv_redis : option (gmap string LevelText) }.

Definition level_key (tournamentId : string) : string := "tournament:" +:+ tournamentId +:+ ":currentLevel".
Definition patch_key (tournamentId : string) : string := "tournament:" +:+ tournamentId +:+ ":patchedLevels".

Definition redis_put (k : string) (v : LevelText) (s : LevelService) : LevelService :=
  {| lv_current := lv_current s; lv_patched := lv_patched s; lv_redis := <[k := v]> <$> lv_redis s |}.

Definition level_up (tournamentId : string) (level : Z) (s : LevelService) : LevelService :=
  redis_put (level_key tournamentId) (LevelNumber (str_of_Z level))
    {| lv_current := <[tournamentId := Some level]> (lv_current s); lv_patched := lv_patched s; lv_redis := lv_redis s |}.

Definition level_entries (levels : gmap Z (Z * Z)) : list (string * (Z * Z)) :=
  (λ x, (str_of_Z x.1, x.2)) <$> map_to_list levels.
Definition patch_level (tournamentId : string) (level smallBlind bigBlind : Z) (s : LevelService) : LevelService :=
  let levels := <[level := (smallBlind, bigBlind)]> (default ∅ (lv_patched s !! tournamentId)) in
  redis_put (patch_key tournamentId) (PatchedLevels (level_entries levels))
    {| lv_current := lv_current s; lv_patched := <[tournamentId := levels]> (lv_patched s); lv_redis := lv_redis s |}.

Definition current_level (tournamentId : string) (s : LevelService) : option Z :=
  default (Some 1) (lv_current s !! tournamentId).
Definition patched_level (tournamentId : string) (level : Z) (s : LevelService) : option (Z * Z) :=
  lv_patched s !! tournamentId ≫= λ levels, levels !! level.

(** KEYS with a pattern of one star. *)
Definition key_like (before after key : string) : bool :=
  let p := String.list_ascii_of_string before in
  let q := String.list_ascii_of_string after in
  let l := String.list_ascii_of_string key in
  bool_decide (take (length p) l = p) && bool_decide (drop (length l - length q) l = q)
  && (length p + length q <=? length l)%nat.
(** [key.split(':')[1]] *)
Definition key_tournament (key : string) : option string := js_split ":" key !! 1%nat.

Definition restore_level (key : string) (v : LevelText) (levels : gmap string (option Z)) : gmap string (option Z) :=
  if key_like "tournament:" ":currentLevel" key then
    match v, key_tournament key with
    | LevelNumber t, Some id => <[id := js_number t]> levels
    | _, _ => levels
    end
  else levels.
Definition read_entry (m : gmap Z (Z * Z)) (x : string * (Z * Z)) : gmap Z (Z * Z) :=
  match js_number x.1 with Some lvl => <[lvl := x.2]> m | None => m end.
Definition read_entries (l : list (string * (Z * Z))) : gmap Z (Z * Z) := foldl read_entry ∅ l.
Definition restore_patches (key : string) (v : LevelText) (m : gmap string (gmap Z (Z * Z)))
    : gmap string (gmap Z (Z * Z)) :=
  if key_like "tournament:" ":patchedLevels" key then
    match v, key_tournament key with
    | PatchedLevels l, Some id => <[id := read_entries l]> m
    | _, _ => m
    end
  else m.

(** [onModuleInit] of a fresh service. *)
Definition restart (redis : option (gmap string LevelText)) : LevelService :=
  match redis with
  | None => {| lv_current := ∅; lv_patched := ∅; lv_redis := None |}
  | Some r => {| lv_current := map_fold restore_level ∅ r; lv_patched := map_fold restore_patches ∅ r; lv_redis := redis |}
  end.

Inductive LevelCall := LevelUp (tournamentId : string) (level : Z) | HotPatch (tournamentId : string) (level smallBlind bigBlind : Z).
Definition level_call (s : LevelService) (c : LevelCall) : LevelService :=
  match c with
  | LevelUp id level => level_up id level s
  | HotPatch id level small big => patch_level id level small big s
  end.

(** ** Facts *)

(** An identifier without a colon, as UUIDs are, and a level that is written in digits. *)
Definition plain (id : string) : Prop := ":"%char ∉ String.list_ascii_of_string id.
Definition call_ok (c : LevelCall) : Prop :=
  match c with LevelUp id level | HotPatch id level _ _ => plain id ∧ 0 <= level end.

Lemma list_ascii_inj a b : String.list_ascii_of_string a = String.list_ascii_of_string b → a = b.
Proof. intros H. by rewrite <- (String.string_of_list_ascii_of_string a), H, String.string_of_list_ascii_of_string. Qed.

Lemma key_like_app p id q : key_like p q (p +:+ id +:+ q) = true.
Proof.
  unfold key_like. rewrite !list_ascii_of_app.
  set (a := String.list_ascii_of_string p). set (b := String.list_ascii_of_string id). set (c := String.list_ascii_of_string q).
  rewrite !andb_true_iff. split_and!.
  - apply bool_decide_eq_true. by rewrite take_app_length.
  - apply bool_decide_eq_true. rewrite !length_app.
    replace (length a + (length b + length c) - length c)%nat with (length (a ++ b)) by (rewrite length_app; lia).
    by rewrite app_assoc, drop_app_length.
  - apply Nat.leb_le. rewrite !length_app. lia.
Qed.
Lemma key_like_inv p q key : key_like p q key = true → ∃ id, key = p +:+ id +:+ q.
Proof.
  unfold key_like. set (a := String.list_ascii_of_string p). set (c := String.list_ascii_of_string q).
  set (l := String.list_ascii_of_string key).
  intros [[H1%bool_decide_eq_true H2%bool_decide_eq_true]%andb_true_iff H3%Nat.leb_le]%andb_true_iff.
  exists (String.string_of_list_ascii (take (length l - length a - length c) (drop (length a) l))).
  apply list_ascii_inj. rewrite !list_ascii_of_app, String.list_ascii_of_string_of_list_ascii. fold a c l.
  rewrite <- (take_drop (length a) l) at 1. rewrite H1. f_equal.
  rewrite <- (take_drop (length l - length a - length c) (drop (length a) l)) at 1. f_equal.
  rewrite drop_drop. replace (length a + (length l - length a - length c))%nat with (length l - length c)%nat by lia. done.
Qed.

Lemma key_tournament_plain id q : plain id → key_tournament ("tournament:" +:+ id +:+ String ":" q) = Some id.
Proof.
  intros H. unfold key_tournament, js_split. rewrite !list_ascii_of_app.
  change (String.list_ascii_of_string "tournament:") with (String.list_ascii_of_string "tournament" ++ [":"%char]).
  rewrite <- app_assoc. cbn [app]. rewrite split_on_plain by (apply (bool_decide_eq_true_1 (_ ∉ _)); vm_compute; done).
  cbn [lookup list_lookup String.list_ascii_of_string]. rewrite split_on_plain by done. cbn [list_lookup].
  unfold str_rev_append. rewrite app_nil_r, rev_involutive, String.string_of_list_ascii_of_string. done.
Qed.
Lemma key_inj p q a b : p +:+ a +:+ q = p +:+ b +:+ q → a = b.
Proof. by intros ?%str_app_inj_l%str_app_inj_r. Qed.

(** Reading back keys of one pattern, whatever the order. *)
Lemma fold_restores {V} (p q : string) (step : string → LevelText → gmap string V → gmap string V)
    (get : LevelText → option V) (r : gmap string LevelText) :
  (∀ k v m, key_like p q k = false → step k v m = m) →
  (∀ id v m x, plain id → get v = Some x → step (p +:+ id +:+ q) v m = <[id := x]> m) →
  (∀ id v, r !! (p +:+ id +:+ q) = Some v → plain id ∧ is_Some (get v)) →
  ∀ id, map_fold step ∅ r !! id = r !! (p +:+ id +:+ q) ≫= get.
Proof.
  intros Hother Hstep Hr.
  cut (r ⊆ r → ∀ id, map_fold step ∅ r !! id = r !! (p +:+ id +:+ q) ≫= get); [intros H; by apply H|].
  apply (map_fold_weak_ind (λ acc m, m ⊆ r → ∀ id, acc !! id = m !! (p +:+ id +:+ q) ≫= get)).
  - intros _ id. by rewrite !lookup_empty.
  - intros k v m acc Hk IH Hsub id.
    assert (r !! k = Some v) as Hv by (apply (lookup_weaken _ _ _ _ (lookup_insert_eq m k v) Hsub)).
    assert (m ⊆ r) as Hm by (etrans; [by apply insert_subseteq|exact Hsub]).
    specialize (IH Hm). destruct (key_like p q k) eqn:El.
    + apply key_like_inv in El as [id' ->]. destruct (Hr _ _ Hv) as [Hp [x Hx]]. rewrite (Hstep _ _ _ _ Hp Hx).
      destruct (decide (id = id')) as [->|Hne]; [by rewrite !lookup_insert_eq|].
      rewrite !lookup_insert_ne; [apply IH|intros E; apply Hne; by eapply eq_sym, key_inj|done].
    + rewrite (Hother _ _ _ El), lookup_insert_ne; [apply IH|].
      intros ->. by rewrite key_like_app in El.
Qed.

Definition get_level (v : LevelText) : option (option Z) := match v with LevelNumber t => Some (js_number t) | _ => None end.
Definition get_patches (v : LevelText) : option (gmap Z (Z * Z)) :=
  match v with PatchedLevels l => Some (read_entries l) | _ => None end.

(** What the service remembers is what Redis holds. *)
Record levels_inv (s : LevelService) (r : gmap string LevelText) : Prop := {
  li_redis : lv_redis s = Some r;
  li_current id : r !! level_key id = (λ o, LevelNumber (from_option str_of_Z "" o)) <$> lv_current s !! id;
  li_level id o : lv_current s !! id = Some o → plain id ∧ ∃ n, o = Some n ∧ 0 <= n;
  li_patched id : r !! patch_key id = PatchedLevels ∘ level_entries <$> lv_patched s !! id;
  li_patch id m : lv_patched s !! id = Some m → plain id ∧ ∀ lvl, is_Some (m !! lvl) → 0 <= lvl }.

Lemma keys_apart a b : level_key a ≠ patch_key b.
Proof.
  intros E. apply (f_equal (λ s, last (String.list_ascii_of_string s))) in E. unfold level_key, patch_key in E.
  rewrite !list_ascii_of_app in E. cbn [String.list_ascii_of_string] in E. by rewrite !app_assoc, !last_app_cons in E.
Qed.

Lemma call_inv c s r : call_ok c → levels_inv s r → ∃ r', levels_inv (level_call s c) r'.
Proof.
  intros Hc [Hr Hcur Hlev Hpat Hpatch].
  destruct c as [id level|id level small big]; destruct Hc as [Hp Hl]; cbn [level_call]; unfold level_up, patch_level, redis_put.
  - eexists (<[level_key id := LevelNumber (str_of_Z level)]> r). split; cbn [lv_redis lv_current lv_patched].
    + by rewrite Hr.
    + intros id'. destruct (decide (id = id')) as [<-|Hne]; [by rewrite !lookup_insert_eq|].
      rewrite !lookup_insert_ne; [apply Hcur|done|intros E; by apply key_inj in E].
    + intros id' o. destruct (decide (id = id')) as [<-|Hne]; [|rewrite lookup_insert_ne by done; apply Hlev].
      rewrite lookup_insert_eq. intros [= <-]. split; [done|]. by exists level.
    + intros id'. rewrite lookup_insert_ne by apply keys_apart. apply Hpat.
    + apply Hpatch.
  - set (levels := <[level := (small, big)]> (default ∅ (lv_patched s !! id))).
    eexists (<[patch_key id := PatchedLevels (level_entries levels)]> r). split; cbn [lv_redis lv_current lv_patched].
    + by rewrite Hr.
    + intros id'. rewrite lookup_insert_ne by (intros E; by apply (keys_apart id' id)). apply Hcur.
    + apply Hlev.
    + intros id'. destruct (decide (id = id')) as [<-|Hne]; [by rewrite !lookup_insert_eq|].
      rewrite !lookup_insert_ne; [apply Hpat|done|intros E; by apply key_inj in E].
    + intros id' m. destruct (decide (id = id')) as [<-|Hne]; [|rewrite lookup_insert_ne by done; apply Hpatch].
      rewrite lookup_insert_eq. intros [= <-]. split; [done|]. intros lvl. unfold levels.
      destruct (decide (level = lvl)) as [<-|Hlvl]; [done|]. rewrite lookup_insert_ne by done.
      destruct (lv_patched s !! id) as [m|] eqn:Em; cbn; [by apply (Hpatch id)|]. rewrite lookup_empty. by intros [??].
Qed.

(** Patched levels survive as JSON. *)
Lemma read_entries_list (l : list (Z * (Z * Z))) (acc : gmap Z (Z * Z)) :
  (∀ lvl b, (lvl, b) ∈ l → 0 <= lvl) →
  foldl read_entry acc ((λ x, (str_of_Z x.1, x.2)) <$> l) = foldl (λ m x, <[x.1 := x.2]> m) acc l.
Proof.
  revert acc. induction l as [|[lvl b] l IH]; intros acc H; [done|]. cbn [fmap list_fmap foldl fst snd].
  unfold read_entry at 2. cbn [fst snd]. rewrite js_number_str by (apply (H lvl b); by left). apply IH. intros lvl' b' Hin. apply (H lvl' b'). by right.
Qed.
Lemma foldl_inserts (l : list (Z * (Z * Z))) (acc : gmap Z (Z * Z)) :
  NoDup l.*1 → foldl (λ m x, <[x.1 := x.2]> m) acc l = (list_to_map l : gmap Z (Z * Z)) ∪ acc.
Proof.
  revert acc. induction l as [|[k v] l IH]; intros acc Hnd; [symmetry; apply (left_id_L ∅ (∪))|].
  apply NoDup_cons in Hnd as [Hk Hnd]. cbn [foldl fst snd]. rewrite IH by done. rewrite list_to_map_cons.
  rewrite <- insert_union_r by (by apply not_elem_of_list_to_map_1). by rewrite insert_union_l.
Qed.
Lemma patches_roundtrip (m : gmap Z (Z * Z)) :
  (∀ lvl, is_Some (m !! lvl) → 0 <= lvl) → read_entries (level_entries m) = m.
Proof.
  intros H. unfold read_entries, level_entries. rewrite read_entries_list.
  - rewrite foldl_inserts by apply NoDup_fst_map_to_list. rewrite list_to_map_to_list. apply map_union_empty.
  - intros lvl b Hin%elem_of_map_to_list. apply H. by exists b.
Qed.

(** A restart of a service that its Redis agrees with. *)
Lemma restart_restores s r :
  levels_inv s r → (∀ id, lv_current (restart (lv_redis s)) !! id = lv_current s !! id) ∧
                   (∀ id, lv_patched (restart (lv_redis s)) !! id = lv_patched s !! id).
Proof.
  intros [Hr Hcur Hlev Hpat Hpatch]. rewrite Hr. cbn [restart lv_current lv_patched]. split; intros id.
  - rewrite (fold_restores "tournament:" ":currentLevel" restore_level get_level).
    + change ("tournament:" +:+ id +:+ ":currentLevel") with (level_key id). rewrite Hcur.
      destruct (lv_current s !! id) as [o|] eqn:E; [|done]. destruct (Hlev id o E) as (_ & n & -> & Hn).
      change (Some (js_number (str_of_Z n)) = Some (Some n)). by rewrite js_number_str.
    + intros k v m H. unfold restore_level. by rewrite H.
    + intros id' v m x Hp Hx. unfold restore_level. rewrite key_like_app, key_tournament_plain by done. by destruct v; simplify_eq/=.
    + intros id' v Hv. change (r !! level_key id' = Some v) in Hv. rewrite Hcur in Hv.
      destruct (lv_current s !! id') as [o|] eqn:E; [|done]. destruct (Hlev id' o E) as [Hp _].
      injection Hv as <-. by split.
  - rewrite (fold_restores "tournament:" ":patchedLevels" restore_patches get_patches).
    + change ("tournament:" +:+ id +:+ ":patchedLevels") with (patch_key id). rewrite Hpat.
      destruct (lv_patched s !! id) as [m|] eqn:E; [|done].
      change (Some (read_entries (level_entries m)) = Some m). f_equal. apply patches_roundtrip. apply (Hpatch id m E).
    + intros k v m H. unfold restore_patches. by rewrite H.
    + intros id' v m x Hp Hx. unfold restore_patches. rewrite key_like_app, key_tournament_plain by done. by destruct v; simplify_eq/=.
    + intros id' v Hv. change (r !! patch_key id' = Some v) in Hv. rewrite Hpat in Hv.
      destruct (lv_patched s !! id') as [m|] eqn:E; [|done]. destruct (Hpatch id' m E) as [Hp _].
      injection Hv as <-. by split.
Qed.

(** Levels survive restarts. Whatever levels tournaments went up to and whatever blinds were patched, a
    service that is started anew, over the Redis the old one wrote, answers every question for a current level
    and for patched blinds as the old one did. *)
Lemma levels_survive_restart (cs : list LevelCall) :
  Forall call_ok cs →
  let s := foldl level_call (restart (Some ∅)) cs in
  let s' := restart (lv_redis s) in
  (∀ id, current_level id s' = current_level id s) ∧ (∀ id level, patched_level id level s' = patched_level id level s).
Proof.
  intros Hok s s'.
  assert (∃ r, levels_inv s r) as [r Hinv].
  { unfold s. apply (foldl_invariant (λ s, ∃ r, levels_inv s r)).
    - intros a c Hc [r Hr]. apply (call_inv c a r); [|done]. rewrite Forall_forall in Hok. by apply Hok.
    - exists ∅. split; cbn [restart lv_redis lv_current lv_patched]; rewrite ?map_fold_empty;
        [done|intros id; by rewrite !lookup_empty..]. }
  destruct (restart_restores s r Hinv) as [H1 H2]. unfold current_level, patched_level. split; intros; by rewrite ?H1, ?H2.
Qed.

(** ** Witness *)

Definition calls0 : list LevelCall := [LevelUp "t1" 2; HotPatch "t1" 3 100 200; LevelUp "t2" 5; LevelUp "t1" 3; HotPatch "t1" 4 150 300].
Lemma levels_survive_restart_witness :
  let s := foldl level_call (restart (Some ∅)) calls0 in
  patched_level "t1" 4 s = Some (150, 300)
  ∧ let s' := restart (lv_redis s) in
    (∀ id, current_level id s' = current_level id s) ∧ (∀ id level, patched_level id level s' = patched_level id level s).
Proof.
  split; [vm_compute; done|]. apply (levels_survive_restart calls0).
  repeat (apply Forall_cons; split; [split; [apply (bool_decide_eq_true_1 (_ ∉ _)); vm_compute; done|lia]|]). by apply Forall_nil.
Defined.

(** An identifier with a colon comes back under another name; without Redis nothing comes back. *)
Lemma colon_loses_level :
  let s := foldl level_call (restart (Some ∅)) [LevelUp "spring:1" 7] in
  current_level "spring:1" s = Some 7 ∧ current_level "spring:1" (restart (lv_redis s)) = Some 1
  ∧ current_level "spring" (restart (lv_redis s)) = Some 7.
Proof. vm_compute. done. Qed.
