(* ===== verification/UserRoutes.v ===== *)
(** * The users' routes

    backend/src/routes/users.controller.ts, admin-users.controller.ts,
    profile.controller.ts and me.controller.ts behind their guards, with the pages of
    backend/src/users/users.service.ts, over the users of [Auth]. Answers are built from
    the whole row and go through their schemas. The columns that no code here writes,
    and the rows of other tables, are given as functions. A limit is read when it is
    written in digits. *)

From S2P Require Import Prelude JsNum JsText Store Schemas WalletModel Leaderboard Auth AuthSafety WalletRoutes.
#[local] Open Scope string_scope.
#[local] Open Scope list_scope.
#[local] Open Scope Z_scope.

(** ** Schemas *)

Definition role_name (r : Role) : string := match r with Player => "Player" | Admin => "Admin" end.
Definition UserRoleSchema : schema := ZEnum ["Player"; "Admin"].
Definition s_email : schema := ZString [CEmail].
Definition s_datetime : schema := ZString [CDatetime].
Definition UserSchema : schema := s_object [
  ("id", s_str); ("username", s_str); ("email", ZNullable s_email); ("avatarKey", ZOptional s_str); ("banned", ZBoolean);
  ("role", UserRoleSchema); ("bank", ZNullable s_str); ("location", ZNullable s_str); ("joined", s_datetime);
  ("bio", s_str); ("experience", ZNumber [CInt]); ("balance", ZNumber [CInt])].
Definition CreateUserSchema : schema := s_object [
  ("username", s_str); ("avatarKey", ZOptional s_str); ("email", ZOptional s_email);
  ("password", ZOptional (ZString [CMin 6])); ("role", ZOptional UserRoleSchema)].
Definition UpdateUserSchema : schema := s_object [("username", ZOptional s_str); ("avatarKey", ZOptional s_str)].
Definition BanUserSchema : schema := s_object [("reason", ZOptional s_str)].
Definition DashboardUserSchema : schema := s_object [
  ("id", s_str); ("username", s_str); ("avatarKey", ZOptional s_str); ("balance", ZNumber []); ("currency", s_str);
  ("banned", ZBoolean)].
Definition AdminPlayerSchema : schema := s_object [("id", s_str); ("username", s_str)].
Definition UserProfileSchema : schema := s_object [
  ("username", s_str); ("email", s_email); ("avatarUrl", s_str); ("bank", s_str); ("location", s_str);
  ("joined", s_datetime); ("bio", s_str); ("experience", ZNumber []); ("balance", ZNumber [])].
Definition MeResponseSchema : schema := s_object [("avatarUrl", s_str)].

(** ** Rows, requests and answers *)

Record UserColumns := {
  uc_bank : option string; uc_location : option string; uc_joined : Z; uc_bio : option string; uc_experience : Z;
  uc_balance : Z }.
Record ProfileStats := {
  ps_handsPlayed : Z; ps_winRate : double; ps_tournamentsPlayed : Z; ps_topThreeRate : double }.

(** What the database draws for a row it makes. *)
Inductive UserRoute :=
| UCreate (uuid salt : string) (body : jsval) | UFind (id : string) | UUpdate (id : string) (body : jsval)
| UBan (id : string) (body : jsval) | AMeta | ACreate (uuid salt : string) (body : jsval)
| AList (limit : option string) | APlayers (limit : option string) | PProfile | PStats | PMe.
Inductive UserAnswer := UJson (v : jsval) | UStats (s : ProfileStats).

Section UserRoutes.
Context {ZO : ZodOps} {T : Type → Type} `{!TableOps T} {R : Type} `{!RedisOps R AuthValue, !RedisKeysOps R}.
Context (C : Crypto) (cfg : AuthConfig).
Context (columns : string → UserColumns) (currency_of : string → option string) (board : string → option LeaderboardRow).
Abbreviation UM := (M (AuthStore (T := T) (R := R))).

Definition nullable (o : option string) : jsval := match o with Some s => VStr s | None => VNull end.
(** [{ ...user }]: the row with all its columns. *)
Definition user_entity_fields (u : User) : list (string * jsval) :=
  let c := columns (u_id u) in
  [("id", VStr (u_id u)); ("username", VStr (u_username u)); ("email", nullable (u_email u));
   ("password", nullable (u_password u)); ("role", VStr (role_name (u_role u))); ("avatarKey", nullable (u_avatarKey u));
   ("banned", VBool (u_banned u)); ("bank", nullable (uc_bank c)); ("location", nullable (uc_location c));
   ("joined", VStr (iso_time (uc_joined c))); ("bio", nullable (uc_bio c)); ("experience", VNum (uc_experience c));
   ("balance", VNum (uc_balance c))].
(** [{ ...a, k: v }] *)
Definition spread (a : list (string * jsval)) (over : list (string * jsval)) : list (string * jsval) :=
  ((λ p, (p.1, if bool_decide (p.1 ∈ over.*1) then field p.1 over else p.2)) <$> a)
  ++ filter (λ p, p.1 ∉ a.*1) over.
Definition parse_answer (sch : schema) (v : jsval) : UM UserAnswer :=
  match z_parse sch v with Some v' => mret (UJson v') | None => throw "ZodError" end.
Definition user_spread (u : User) : list (string * jsval) :=
  let c := columns (u_id u) in
  spread (user_entity_fields u)
    [("email", nullable (u_email u)); ("avatarKey", opt VStr (u_avatarKey u)); ("bank", nullable (uc_bank c));
     ("location", nullable (uc_location c)); ("joined", VStr (iso_time (uc_joined c)));
     ("bio", VStr (default "" (uc_bio c))); ("experience", VNum (uc_experience c)); ("balance", VNum (uc_balance c))].
Definition parseUser (u : User) : UM UserAnswer := parse_answer UserSchema (obj (user_spread u)).

Definition body_of (sch : schema) (body : jsval) : UM (list (string * jsval)) :=
  match z_parse sch body with Some (VObj fs) => mret fs | _ => throw "ZodError" end.
(** [body ?? {}] *)
Definition body_or_empty (v : jsval) : jsval := match v with VUndefined | VNull => VObj [] | _ => v end.
Definition text_field (k : string) (fs : list (string * jsval)) : option string := text_of_val (field k fs).
Definition role_field (fs : list (string * jsval)) : option Role :=
  match field "role" fs with VStr "Admin" => Some Admin | VStr _ => Some Player | _ => None end.

(** *** users.service.ts *)

Definition create_from (uuid salt : string) (fs : list (string * jsval)) : UM User :=
  create_user C uuid salt (str_of (field "username" fs)) (text_field "avatarKey" fs) (text_field "email" fs)
    (text_field "password" fs) (role_field fs) ;;
  user_by_id uuid.

Definition getProfile (id : string) : UM (list (string * jsval)) :=
  u ← user_by_id id;
  let c := columns id in
  mret [("username", VStr (u_username u)); ("email", VStr (default "" (u_email u)));
        ("avatarUrl", VStr (default "" (u_avatarKey u))); ("bank", VStr (default "" (uc_bank c)));
        ("location", VStr (default "" (uc_location c))); ("joined", VStr (iso_time (uc_joined c)));
        ("bio", VStr (default "" (uc_bio c))); ("experience", VNum (uc_experience c)); ("balance", VNum (uc_balance c))].

Definition finished (lb : option LeaderboardRow) (place : Z) : Z := default 0 (lb ≫= λ l, l_finishes l !! place).
Definition rate_of (n played : Z) : double :=
  if played =? 0 then dbl_of_Z 0 else dbl_mul (dbl_div (dbl_of_Z n) (dbl_of_Z played)) (dbl_of_Z 100).
Definition profile_stats (id : string) : UM ProfileStats :=
  user_by_id id ;;
  let lb := board id in
  let played := from_option (λ l, map_fold (λ _ n acc, acc + n) 0 (l_finishes l)) 0 lb in
  let wins := finished lb 1 in
  let topThree := finished lb 1 + finished lb 2 + finished lb 3 in
  mret {| ps_handsPlayed := from_option l_hands 0 lb; ps_winRate := rate_of wins played;
          ps_tournamentsPlayed := played; ps_topThreeRate := rate_of topThree played |}.

Definition latest_first (a b : User) : bool := uc_joined (columns (u_id b)) <=? uc_joined (columns (u_id a)).
Definition list_users (limit : option Z) : UM (list (User * string)) :=
  gets (λ s, let sorted := js_sort latest_first (rows (as_users s)) in
             (λ u, (u, default "USD" (currency_of (u_id u)))) <$>
             match limit with Some n => take (Z.to_nat n) sorted | None => sorted end).

(** *** admin-users.controller.ts *)

Definition dashboard_fields (x : User * string) : jsval :=
  obj [("id", VStr (u_id x.1)); ("username", VStr (u_username x.1)); ("avatarKey", opt VStr (u_avatarKey x.1));
       ("balance", VNum (uc_balance (columns (u_id x.1)))); ("banned", VBool (u_banned x.1)); ("currency", VStr x.2)].
Definition query_limit (limit : option string) : UM (option Z) :=
  match limit with
  | None => mret None
  | Some s => match js_number s with
              | Some n => if 0 <? n then mret (Some n) else throw "ZodError"
              | None => throw "ZodError"
              end
  end.
Definition option_json (value : string) : jsval := VObj [("value", VStr value); ("label", VStr value)].
Definition user_meta : jsval :=
  VObj [("roles", VArr (option_json <$> ["Player"; "Admin"]));
        ("statuses", VArr (option_json <$> ["Active"; "Frozen"; "Banned"]))].

(** *** Guards and routes *)

Definition logged_in (req : WalletRequest) : UM string := lift (auth_guard C cfg (wr_header req) (wr_now req)).
Definition administrator (req : WalletRequest) : UM string :=
  logged_in req ;; lift (admin_guard C cfg (wr_header req) (wr_now req)).
Definition uuid_pipe (id : string) : UM unit := throw_if (negb (is_uuid id)) "Validation failed (uuid is expected)".

(** The routes that turn a [ZodError] into a bad request. *)
Definition zod_caught {A} (m : UM A) : UM A :=
  try_catch m (λ e, throw (if bool_decide (e = "ZodError") then "Bad Request" else e)).

Definition user_route (req : WalletRequest) (r : UserRoute) : UM UserAnswer :=
  match r with
  | UCreate uuid salt body =>
      administrator req ;;
      zod_caught (fs ← body_of CreateUserSchema body; u ← create_from uuid salt fs; parseUser u)
  | UFind id =>
      userId ← logged_in req; lift (self_guard userId id) ;; uuid_pipe id ;;
      zod_caught (u ← user_by_id id; parseUser u)
  | UUpdate id body =>
      userId ← logged_in req; lift (self_guard userId id) ;; uuid_pipe id ;;
      zod_caught (
        fs ← body_of UpdateUserSchema body;
        update_user id (text_field "username" fs) (text_field "avatarKey" fs) ;;
        u ← user_by_id id; parseUser u)
  | UBan id body =>
      administrator req ;; uuid_pipe id ;;
      zod_caught (
        body_of BanUserSchema (body_or_empty body) ;;
        ban id ;; u ← user_by_id id; parseUser u)
  | AMeta => administrator req ;; mret (UJson user_meta)
  | ACreate uuid salt body =>
      administrator req ;;
      zod_caught (
        fs ← body_of CreateUserSchema body; u ← create_from uuid salt fs;
        parse_answer DashboardUserSchema (dashboard_fields (u, "USD")))
  | AList limit =>
      administrator req ;; n ← query_limit limit; l ← list_users n;
      parse_answer (ZArray DashboardUserSchema) (VArr (dashboard_fields <$> l))
  | APlayers limit =>
      administrator req ;; n ← query_limit limit; l ← list_users n;
      parse_answer (ZArray AdminPlayerSchema)
        (VArr ((λ x, VObj [("id", VStr (u_id x.1)); ("username", VStr (u_username x.1))]) <$> l))
  | PProfile => userId ← logged_in req; fs ← getProfile userId; parse_answer UserProfileSchema (VObj fs)
  | PStats => userId ← logged_in req; s ← profile_stats userId; mret (UStats s)
  | PMe =>
      userId ← logged_in req; fs ← getProfile userId;
      parse_answer MeResponseSchema (VObj [("avatarUrl", field "avatarUrl" fs)])
  end.

(** ** Passwords stay inside *)

Context {ZL : ZodLaws} `{!TableLaws T}.
Abbreviation Store := (AuthStore (T := T) (R := R)).

Definition hide (u : User) : User :=
  {| u_id := u_id u; u_username := u_username u; u_email := u_email u; u_password := None; u_role := u_role u;
     u_avatarKey := u_avatarKey u; u_banned := u_banned u |}.
(** The same users, but for their passwords. *)
Definition alike (s1 s2 : Store) : Prop :=
  unique_ids (as_users s1) ∧ unique_ids (as_users s2) ∧ hide <$> rows (as_users s1) = hide <$> rows (as_users s2).

Lemma hide_cons a b l1 l2 : hide <$> a :: l1 = hide <$> b :: l2 → hide a = hide b ∧ hide <$> l1 = hide <$> l2.
Proof. rewrite !fmap_cons. intros E. split; [by apply (f_equal head) in E; cbn in E; apply (inj Some)|]. by apply (f_equal tail) in E. Qed.
Lemma hide_fields a b : hide a = hide b → u_id a = u_id b ∧ u_username a = u_username b ∧ u_email a = u_email b
  ∧ u_role a = u_role b ∧ u_avatarKey a = u_avatarKey b ∧ u_banned a = u_banned b.
Proof. unfold hide. intros E. by injection E. Qed.

Lemma alike_filter (l1 l2 : list User) (p : User → bool) :
  (∀ u, p (hide u) = p u) → hide <$> l1 = hide <$> l2 → hide <$> filter (λ u, p u) l1 = hide <$> filter (λ u, p u) l2.
Proof.
  intros Hp. revert l2. induction l1 as [|a l1 IH]; intros [|b l2] E; try done.
  apply hide_cons in E as [Hab El].
  assert (p a = p b) as Epq by (by rewrite <- (Hp a), Hab, Hp). rewrite !filter_cons, Epq.
  case_decide; [|by apply IH]. by rewrite !fmap_cons, Hab, (IH l2 El).
Qed.
Lemma alike_find s1 s2 (p : User → bool) :
  (∀ u, p (hide u) = p u) → alike s1 s2 →
  hide <$> find_row p (as_users s1) = hide <$> find_row p (as_users s2).
Proof.
  intros Hp (_ & _ & E). pose proof (alike_filter _ _ p Hp E) as H. unfold find_row, find_rows. revert H.
  destruct (filter (λ u, p u) (rows (as_users s1))), (filter (λ u, p u) (rows (as_users s2))); try done.
  intros H%hide_cons. cbn. by rewrite (proj1 H).
Qed.
Lemma alike_sort (l1 l2 : list User) :
  hide <$> l1 = hide <$> l2 → hide <$> js_sort latest_first l1 = hide <$> js_sort latest_first l2.
Proof.
  revert l2. induction l1 as [|a l1 IH]; intros [|b l2] E; try done.
  apply hide_cons in E as [Hab El]. cbn [js_sort foldr]. specialize (IH l2 El).
  change (foldr (sort_insert latest_first) []) with (js_sort latest_first).
  generalize dependent (js_sort latest_first l2). generalize (js_sort latest_first l1). clear -Hab.
  intros m1. induction m1 as [|x m1 IH]; intros [|y m2] E; try done; cbn [sort_insert]; [by rewrite !fmap_cons, Hab|].
  pose proof (hide_cons _ _ _ _ E) as [Hxy Em]. unfold latest_first at 1 3.
  rewrite (proj1 (hide_fields a b Hab)), (proj1 (hide_fields x y Hxy)).
  fold (latest_first b y). destruct (latest_first b y); rewrite !fmap_cons, ?Hab, ?Hxy; f_equal; [by rewrite Em | by apply IH].
Qed.

(** *** What a request answers in two such stores *)

(** Both runs answer alike, or fail with the same error. *)
Definition twin {A B} (P : Store → Store → Prop) (m : UM A) (n : UM B) (Q : A → B → Store → Store → Prop) : Prop :=
  ∀ s1 s2, P s1 s2 → match m s1, n s2 with
                     | (Ret a, t1), (Ret b, t2) => Q a b t1 t2
                     | (Throw e, _), (Throw e', _) => e = e'
                     | _, _ => False
                     end.
Lemma twin_bind {A A' B B'} P (m : UM A) (n : UM A') Q (f : A → UM B) (g : A' → UM B') Q' :
  twin P m n Q → (∀ a b, twin (Q a b) (f a) (g b) Q') → twin P (m ≫= f) (n ≫= g) Q'.
Proof.
  intros Hm Hf s1 s2 HP. specialize (Hm s1 s2 HP). unfold mbind, M_bind.
  destruct (m s1) as [[a|e] t1], (n s2) as [[b|e'] t2]; try done. by apply Hf.
Qed.
Lemma twin_lift {A} P (o : outcome A) : twin P (lift o) (lift o) (λ a b s1 s2, a = b ∧ P s1 s2).
Proof. intros s1 s2 HP. unfold lift. by destruct o. Qed.
Lemma twin_caught {A} P (m n : UM A) Q : twin P m n Q → twin P (zod_caught m) (zod_caught n) Q.
Proof.
  intros H s1 s2 HP. specialize (H s1 s2 HP). unfold zod_caught, try_catch.
  destruct (m s1) as [[a|e] t1], (n s2) as [[b|e'] t2]; try done. cbn. by subst.
Qed.
(** A check that reads no store. *)
Definition stateless {A} (m : UM A) : Prop := ∃ o, m = lift o.
Lemma twin_after {A B B'} P (m : UM A) (f : A → UM B) (g : A → UM B') Q :
  stateless m → (∀ a, twin P (f a) (g a) Q) → twin P (m ≫= f) (m ≫= g) Q.
Proof. intros [o ->] H. eapply twin_bind; [apply twin_lift|]. intros a b s1 s2 [-> HP]. by apply H. Qed.
Lemma stateless_lift {A} (o : outcome A) : stateless (lift o).
Proof. by exists o. Qed.
Lemma logged_stateless req : stateless (logged_in req).
Proof. apply stateless_lift. Qed.
Lemma administrator_stateless req : stateless (administrator req).
Proof.
  exists (auth_guard C cfg (wr_header req) (wr_now req) ≫= λ _, admin_guard C cfg (wr_header req) (wr_now req)).
  unfold administrator, logged_in. by destruct (auth_guard _ _ _ _).
Qed.
Lemma uuid_stateless id : stateless (uuid_pipe id).
Proof. unfold uuid_pipe, throw_if. destruct (negb _); [by eexists (Throw _) | by exists (Ret tt)]. Qed.
Lemma body_stateless sch body : stateless (body_of sch body).
Proof. unfold body_of. destruct (z_parse sch body) as [[]|]; solve [by eexists (Throw _) | by eexists (Ret _)]. Qed.
Lemma limit_stateless l : stateless (query_limit l).
Proof. unfold query_limit. repeat case_match; solve [by eexists (Throw _) | by eexists (Ret _)]. Qed.
#[local] Hint Resolve stateless_lift logged_stateless administrator_stateless uuid_stateless body_stateless limit_stateless : core.

(** The row of every key, but for the password. *)
Definition akin (s1 s2 : Store) : Prop :=
  ∀ id, hide <$> find_row (λ u, bool_decide (u_id u = id)) (as_users s1)
        = hide <$> find_row (λ u, bool_decide (u_id u = id)) (as_users s2).
Lemma alike_akin s1 s2 : alike s1 s2 → akin s1 s2.
Proof. intros H id. by apply alike_find. Qed.

Lemma user_twin id P :
  (∀ s1 s2, P s1 s2 → akin s1 s2) →
  twin P (user_by_id id) (user_by_id id) (λ a b s1 s2, hide a = hide b ∧ P s1 s2).
Proof.
  intros HP s1 s2 H. pose proof (HP _ _ H id) as E. unfold user_by_id. cbv [gets mbind M_bind].
  destruct (find_row _ (as_users s1)) as [a|], (find_row _ (as_users s2)) as [b|]; try done.
  cbn [fmap option_fmap option_map] in E. split; [by apply (inj Some)|done].
Qed.

Lemma clash_alike s1 s2 a b : hide a = hide b → alike s1 s2 →
  existsb (λ u, bool_decide (u_id u ≠ u_id a) && row_clash u a) (rows (as_users s1))
  = existsb (λ u, bool_decide (u_id u ≠ u_id b) && row_clash u b) (rows (as_users s2)).
Proof.
  intros Hab (_ & _ & E). destruct (hide_fields a b Hab) as (Ei & En & Em & _). revert E.
  generalize (rows (as_users s2)). induction (rows (as_users s1)) as [|x l IH]; intros [|y l2] E; try done.
  apply hide_cons in E as [Hxy El]. cbn [existsb]. rewrite (IH _ El). f_equal. destruct (hide_fields x y Hxy) as (Ei' & En' & Em' & _).
  cbn. by rewrite Ei, Ei', En, En', Em, Em'.
Qed.
Lemma save_twin a b : hide a = hide b → twin alike (save_user a) (save_user b) (λ _ _, akin).
Proof.
  intros Hab s1 s2 H. unfold save_user. rewrite (clash_alike s1 s2 a b Hab H).
  destruct (existsb _ (rows (as_users s2))); [done|]. intros id.
  pose proof (alike_akin _ _ H id) as E. destruct H as (H1 & H2 & _). cbn [on_users as_users].
  change (λ u, bool_decide (u_id u = id)) with (λ u, bool_decide (row_id u = id)).
  rewrite !find_save by done. cbn [row_id user_entity]. rewrite (proj1 (hide_fields a b Hab)).
  destruct (decide (u_id b = id)); [by cbn; rewrite Hab | exact E].
Qed.

Lemma shape_ext (P : schema → jsval → option jsval) shape f g :
  Forall (λ k, field k f = field k g) shape.*1 → parse_shape P shape f = parse_shape P shape g.
Proof.
  induction shape as [|[k s] shape IH]; [done|]. cbn [fmap list_fmap fst]. intros [Hk Hr]%Forall_cons. cbn. by rewrite Hk, (IH Hr).
Qed.
Lemma object_ext shape f g :
  Forall (λ k, field k f = field k g) shape.*1 → z_parse (s_object shape) (VObj f) = z_parse (s_object shape) (VObj g).
Proof. intros H. unfold s_object. rewrite !parse_object. by rewrite (shape_ext _ shape f g H). Qed.

Lemma present_user k u : field k (present (user_spread u)) = field k (user_spread u).
Proof.
  destruct (field_present k (user_spread u)) as [?|[_ H]]; [done|]. exfalso. apply H.
  by apply (bool_decide_unpack _).
Qed.
(** The password is a column of the row that the schema of users does not name. *)
Lemma parseUser_hides a b s1 s2 : hide a = hide b → (parseUser a s1).1 = (parseUser b s2).1.
Proof.
  intros H. destruct (hide_fields a b H) as (Ei & En & Em & Er & Ea & Eb).
  unfold parseUser, parse_answer, UserSchema, obj.
  rewrite (object_ext _ _ (present (user_spread b))); [by case_match|].
  repeat (constructor; [rewrite !present_user; cbn; by rewrite ?Ei, ?En, ?Em, ?Er, ?Ea, ?Eb|]). constructor.
Qed.

Lemma parse_twin P sch (va vb : jsval) :
  z_parse sch va = z_parse sch vb → twin P (parse_answer sch va) (parse_answer sch vb) (λ x y _ _, x = y).
Proof. intros H s1 s2 _. unfold parse_answer. rewrite H. by destruct (z_parse sch vb). Qed.
Lemma parseUser_twin P a b : hide a = hide b → twin P (parseUser a) (parseUser b) (λ x y _ _, x = y).
Proof.
  intros H s1 s2 _. pose proof (parseUser_hides a b s1 s2 H) as E. unfold parseUser, parse_answer in *.
  destruct (z_parse _ _), (z_parse _ _); cbn in E; by simplify_eq.
Qed.

Lemma fresh_twin uuid P :
  (∀ s1 s2, P s1 s2 → akin s1 s2) →
  twin P (u ← user_by_id uuid; parseUser u) (u ← user_by_id uuid; parseUser u) (λ x y _ _, x = y).
Proof. intros HP. eapply twin_bind; [by apply user_twin|]. intros a b s1 s2 [H HP']. revert s1 s2 HP'. by apply parseUser_twin. Qed.

Definition save_over (f : User → User) (id : string) : UM unit := u ← user_by_id id; save_user (f u).
Lemma save_over_twin f id :
  (∀ a b, hide a = hide b → hide (f a) = hide (f b)) → twin alike (save_over f id) (save_over f id) (λ _ _, akin).
Proof.
  intros Hf. eapply twin_bind; [apply user_twin; apply alike_akin|]. intros a b s1 s2 [H Hs]. revert s1 s2 Hs.
  apply save_twin. by apply Hf.
Qed.

Lemma create_twin uuid salt fs :
  twin alike (create_from uuid salt fs) (create_from uuid salt fs) (λ a b s1 s2, hide a = hide b).
Proof.
  unfold create_from, create_user. eapply (twin_bind _ _ _ (λ _ _, akin)).
  - intros s1 s2 H. unfold try_catch. match goal with |- context [save_user ?u s1] => set (v := u) end.
    pose proof (save_twin v v eq_refl s1 s2 H) as E.
    destruct (save_user v s1) as [[]], (save_user v s2) as [[]]; cbn in *; try done. by subst.
  - intros _ _ s1 s2 H. pose proof (user_twin uuid akin (λ _ _ H, H) s1 s2 H) as E.
    destruct (user_by_id uuid s1) as [[]], (user_by_id uuid s2) as [[]]; try done. apply E.
Qed.

Lemma profile_twin id P :
  (∀ s1 s2, P s1 s2 → akin s1 s2) → twin P (getProfile id) (getProfile id) (λ x y _ _, x = y).
Proof.
  intros HP. eapply twin_bind; [by apply user_twin|]. intros a b s1 s2 [H _]. cbn.
  by destruct (hide_fields a b H) as (_ & -> & -> & _ & -> & _).
Qed.
Lemma list_twin {A} limit (f : User * string → A) :
  (∀ a b c, hide a = hide b → f (a, c) = f (b, c)) →
  twin alike (list_users limit) (list_users limit) (λ x y _ _, f <$> x = f <$> y).
Proof.
  intros Hf s1 s2 (_ & _ & H%alike_sort). unfold list_users, gets. cbv beta iota.
  set (l1 := js_sort latest_first (rows (as_users s1))) in *. set (l2 := js_sort latest_first (rows (as_users s2))) in *.
  assert (hide <$> (match limit with Some n => take (Z.to_nat n) l1 | None => l1 end)
          = hide <$> (match limit with Some n => take (Z.to_nat n) l2 | None => l2 end)) as E.
  { destruct limit; [|done]. by rewrite !fmap_take, H. }
  revert E. generalize (match limit with Some n => take (Z.to_nat n) l1 | None => l1 end).
  generalize (match limit with Some n => take (Z.to_nat n) l2 | None => l2 end). clear -Hf.
  intros m2 m1. revert m2. induction m1 as [|a m1 IH]; intros [|b m2] E; try done.
  apply hide_cons in E as [Hab E]. rewrite !fmap_cons. f_equal; [|by apply IH].
  rewrite (proj1 (hide_fields a b Hab)). by apply Hf.
Qed.
Lemma stats_twin id P :
  (∀ s1 s2, P s1 s2 → akin s1 s2) → twin P (profile_stats id) (profile_stats id) (λ x y _ _, x = y).
Proof. intros HP. eapply twin_bind; [by apply user_twin|]. by intros a b s1 s2 _. Qed.

Lemma route_twin req r : twin alike (user_route req r) (user_route req r) (λ x y _ _, x = y).
Proof.
  destruct r; cbn [user_route]; repeat first [apply twin_after; [by eauto|let g := fresh "g" in intros g] | apply twin_caught]; try by intros s1 s2.
  - eapply twin_bind; [apply create_twin|]. intros a b s1 s2 H. by apply (parseUser_twin (λ _ _, True)).
  - apply fresh_twin, alike_akin.
  - eapply (twin_bind _ _ _ (λ _ _, akin)); [apply (save_over_twin (λ u, _))|by intros a b; apply fresh_twin].
    intros a b H. destruct (hide_fields a b H) as (Ei & En & Em & Er & Ea & Eb). unfold hide. cbn. by rewrite Ei, En, Em, Er, Ea, ?Eb.
  - eapply (twin_bind _ _ _ (λ _ _, akin)); [apply (save_over_twin (λ u, _))|by intros a b; apply fresh_twin].
    intros a b H. destruct (hide_fields a b H) as (Ei & En & Em & Er & Ea & Eb). unfold hide. cbn. by rewrite Ei, En, Em, Er, Ea, ?Eb.
  - eapply twin_bind; [apply create_twin|]. intros a b s1 s2 H. apply (parse_twin (λ _ _, True)); [|done].
    destruct (hide_fields a b H) as (Ei & En & _ & _ & Ea & Eb). unfold dashboard_fields. cbn [fst snd].
    by rewrite Ei, En, Ea, Eb.
  - eapply twin_bind.
    + apply (list_twin _ dashboard_fields). intros a b c H. unfold dashboard_fields. cbn [fst snd].
      by destruct (hide_fields a b H) as (-> & -> & _ & _ & -> & ->).
    + intros x y s1 s2 E. cbn beta in E. rewrite E. by apply (parse_twin (λ _ _, True)).
  - eapply twin_bind.
    + apply (list_twin _ (λ x, VObj [("id", VStr (u_id x.1)); ("username", VStr (u_username x.1))])).
      intros a b c H. cbn. by destruct (hide_fields a b H) as (-> & -> & _).
    + intros x y s1 s2 E. cbn beta in E. rewrite E. by apply (parse_twin (λ _ _, True)).
  - eapply twin_bind; [apply profile_twin, alike_akin|]. intros x y s1 s2 ->. by apply (parse_twin (λ _ _, True)).
  - eapply twin_bind; [apply stats_twin, alike_akin|]. by intros x y s1 s2 ->.
  - eapply twin_bind; [apply profile_twin, alike_akin|]. intros x y s1 s2 ->. by apply (parse_twin (λ _ _, True)).
Qed.

(** C21: A stored password, hashed or not, never decides what a request about users is answered: two stores
    with the same users but for their passwords give the same answer, or the same error, on every route,
    although the answers are built by spreading the whole row. *)
Theorem answers_tell_no_passwords req r s1 s2 :
  alike s1 s2 → (user_route req r s1).1 = (user_route req r s2).1.
Proof.
  intros H. pose proof (route_twin req r s1 s2 H) as E.
  destruct (user_route req r s1) as [[a|e] t1], (user_route req r s2) as [[b|e'] t2]; cbn in *; by subst.
Qed.

(** ** Who changes which user *)

Definition admin_request (req : WalletRequest) : Prop := ∃ a, admin_guard C cfg (wr_header req) (wr_now req) = Ret a.
Definition row_of (id : string) (s : Store) : option User := find_row (λ u, bool_decide (u_id u = id)) (as_users s).
Definition own_fields_kept (u u' : User) : Prop :=
  u_id u' = u_id u ∧ u_email u' = u_email u ∧ u_password u' = u_password u ∧ u_role u' = u_role u ∧ u_banned u' = u_banned u.
Definition rightful (req : WalletRequest) (s s' : Store) : Prop :=
  as_redis s' = as_redis s ∧ as_mails s' = as_mails s ∧ as_logins s' = as_logins s
  ∧ ∀ id, admin_request req ∨ row_of id s' = row_of id s
          ∨ (auth_guard C cfg (wr_header req) (wr_now req) = Ret id
             ∧ ∃ u u', row_of id s = Some u ∧ row_of id s' = Some u' ∧ own_fields_kept u u').

Lemma rightful_refl req s : rightful req s s.
Proof. repeat split; [done..|]. intros id. by right; left. Qed.
Lemma quiet_route {A} req (m : UM A) s : preserves (λ s', s' = s) m → rightful req s (m s).2.
Proof. intros H. rewrite (H s eq_refl). apply rightful_refl. Qed.
Lemma caught_keeps {A} I (m : UM A) : preserves I m → preserves I (zod_caught m).
Proof. intros H. unfold zod_caught. preserve. Qed.
Lemma caught_state {A} (m : UM A) s : (zod_caught m s).2 = (m s).2.
Proof. unfold zod_caught, try_catch. by destruct (m s) as [[]]. Qed.
Lemma stateless_keeps {A} (m : UM A) s0 : stateless m → preserves (λ s', s' = s0) m.
Proof. by intros [o ->] s ->. Qed.
Lemma answer_keeps sch v s0 : preserves (λ s', s' = s0) (parse_answer sch v).
Proof. unfold parse_answer. by case_match; intros s ->. Qed.
Lemma by_id_keeps id (s0 : Store) : preserves (λ s', s' = s0) (user_by_id id).
Proof. unfold user_by_id. preserve. Qed.

Lemma fresh_keeps id s0 : preserves (λ s', s' = s0) (u ← user_by_id id; parseUser u).
Proof. preserve; [apply by_id_keeps | apply answer_keeps]. Qed.

(** Everything but the users. *)
Definition beside (s0 s : Store) : Prop :=
  as_redis s = as_redis s0 ∧ as_mails s = as_mails s0 ∧ as_logins s = as_logins s0.
Lemma save_beside s0 u : preserves (beside s0) (save_user u).
Proof. intros s Hs. unfold save_user. by destruct (existsb _ _). Qed.
Lemma keeps_beside {A} s0 (m : UM A) : (∀ s, preserves (λ s', s' = s) m) → preserves (beside s0) m.
Proof. intros H s Hs. by rewrite (H s s eq_refl). Qed.
#[local] Hint Resolve stateless_keeps answer_keeps by_id_keeps save_beside : hub.
Lemma parseUser_keeps u s0 : preserves (λ s', s' = s0) (parseUser u).
Proof. apply answer_keeps. Qed.
#[local] Hint Resolve parseUser_keeps logged_stateless uuid_stateless body_stateless limit_stateless : hub.
#[local] Hint Extern 2 (preserves (beside _) _) => apply keeps_beside; intros ? : hub.

Lemma admin_then {A} req (k : string → UM A) s :
  (∀ a, preserves (beside s) (k a)) → rightful req s ((administrator req ≫= k) s).2.
Proof.
  intros Hk. unfold administrator, logged_in, lift, mbind, M_bind. cbv beta.
  destruct (auth_guard C cfg (wr_header req) (wr_now req)) as [u|e]; [|apply rightful_refl].
  destruct (admin_guard C cfg (wr_header req) (wr_now req)) as [a|e] eqn:Ea; [|apply rightful_refl].
  destruct (Hk a s) as (? & ? & ?); [done|]. split_and!; [done..|]. intros id. left. by exists a.
Qed.
Lemma create_beside uuid salt fs s0 : preserves (beside s0) (create_from uuid salt fs).
Proof. unfold create_from, create_user. preserve. Qed.
Lemma ban_beside id s0 : preserves (beside s0) (ban id).
Proof. unfold ban. preserve. Qed.

Lemma update_row id username avatarKey s : unique_ids (as_users s) →
  let s' := (update_user id username avatarKey s).2 in
  s' = s ∨ (∃ u u', s' = on_users (save_row u') s ∧ row_of id s = Some u ∧ own_fields_kept u u'
            ∧ ∀ id', row_of id' s' = if decide (id' = id) then Some u' else row_of id' s).
Proof.
  intros Hu. unfold update_user, user_by_id, save_user. cbv [gets mbind M_bind]. fold (row_of id s).
  destruct (row_of id s) as [u|] eqn:Er; [|by left]. cbv [mret M_ret].
  destruct (existsb _ _); [by left|]. right. eexists u, _. split; [reflexivity|].
  split; [done|]. split; [by repeat split|]. intros id'. unfold row_of. cbn [snd on_users as_users].
  change (λ u, bool_decide (u_id u = id')) with (λ u, bool_decide (row_id u = id')). rewrite find_save by done.
  apply find_row_Some in Er as [_ <-%bool_decide_eq_true]. cbn [row_id user_entity u_id].
  destruct (decide (u_id u = id')) as [->|Hne]; [by rewrite decide_True | by rewrite decide_False].
Qed.

Lemma moved_by_owner req id s s' :
  auth_guard C cfg (wr_header req) (wr_now req) = Ret id →
  s' = s ∨ (∃ u u', s' = on_users (save_row u') s ∧ row_of id s = Some u ∧ own_fields_kept u u'
            ∧ ∀ id', row_of id' s' = if decide (id' = id) then Some u' else row_of id' s) →
  rightful req s s'.
Proof.
  intros Ha [->|(u & u' & Es & Hr & Ho & Hrow)]; [apply rightful_refl|]. subst s'. split_and!; [done..|].
  intros id'. right. rewrite Hrow. case_decide as Hd; [subst id'|by left]. right. split; [done|]. by exists u, u'.
Qed.

Ltac walk := preserve; try (apply caught_keeps; preserve).

(** A request about users changes nothing but users, and of these only what its sender may change. Without
    an administrator's token, every row stays as it was but the sender's own, and of that the role, the
    password, the address and the ban stay: nobody promotes or unbans himself, or touches another account. *)
Lemma users_change_by_right req r s :
  unique_ids (as_users s) → rightful req s (user_route req r s).2.
Proof.
  intros Hu. destruct r; cbn [user_route].
  - apply admin_then. intros a. walk; eauto using create_beside with hub.
  - apply quiet_route. walk; eauto with hub.
  - unfold logged_in, lift, mbind, M_bind. cbv beta.
    destruct (auth_guard C cfg (wr_header req) (wr_now req)) as [u|e] eqn:Ea; [|apply rightful_refl].
    unfold self_guard. case_bool_decide as Hid; [subst u | apply rightful_refl].
    unfold uuid_pipe, throw_if. destruct (negb (is_uuid id)); [apply rightful_refl|].
    cbv beta iota delta [mret M_ret]. rewrite caught_state. unfold body_of. cbv [mbind M_bind].
    destruct (z_parse UpdateUserSchema body) as [[]|]; try apply rightful_refl.
    pose proof (update_row id (text_field "username" fields) (text_field "avatarKey" fields) s Hu) as H. cbv zeta in H.
    cbv beta iota delta [mret M_ret]. destruct (update_user id _ _ s) as [[x|e] s']; cbn [snd] in H.
    + pose proof (fresh_keeps id s' s' eq_refl) as Es. cbn beta in Es.
      change (rightful req s ((u ← user_by_id id; parseUser u) s').2). rewrite Es. by apply moved_by_owner with (id := id).
    + by apply moved_by_owner with (id := id).
  - apply admin_then. intros a. walk; eauto using ban_beside with hub.
  - apply admin_then. intros a. preserve.
  - apply admin_then. intros a. walk; eauto using create_beside with hub.
  - apply admin_then. intros a. preserve; eauto with hub.
  - apply admin_then. intros a. preserve; eauto with hub.
  - apply quiet_route. unfold getProfile. preserve; eauto with hub.
  - apply quiet_route. unfold profile_stats. preserve; eauto with hub.
  - apply quiet_route. unfold getProfile. preserve; eauto with hub.
Qed.

End UserRoutes.

(** ** Instances *)

Definition id1 : string := "8f14e45f-ceea-467f-a1c6-91f2d8a8b001".
Definition id2 : string := "8f14e45f-ceea-467f-a1c6-91f2d8a8b002".
Definition user_of (id name pw : string) : User :=
  {| u_id := id; u_username := name; u_email := Some (name +:+ "@x.org"); u_password := Some pw; u_role := Player;
     u_avatarKey := None; u_banned := false |}.
Definition store_of (us : list User) : AuthStore (T := list) (R := map_redis AuthValue) :=
  {| as_users := us; as_redis := MapRedis ∅ ∅ ∅; as_mails := []; as_logins := [] |}.
Definition columns0 (_ : string) : UserColumns :=
  {| uc_bank := None; uc_location := None; uc_joined := 0; uc_bio := None; uc_experience := 0; uc_balance := 0 |}.
Definition request_by (token : string) : WalletRequest :=
  {| wr_header := Some ("Bearer " +:+ token); wr_now := 0; wr_throttled := false; wr_ip := None; wr_remoteAddress := None |}.
Definition route0 := user_route (ZO := zod0) (T := list) (R := map_redis AuthValue) crypto0 cfg0 columns0 (λ _, None) (λ _, None).

Lemma answers_tell_no_passwords_witness :
  let s pw := store_of [user_of id1 "ann" pw; user_of id2 "bob" "b"] in
  let rename := UUpdate id1 (VObj [("username", VStr "anna"); ("password", VStr "stolen!")]) in
  (route0 (request_by ("U" +:+ id1)) rename (s "a")).1 = (route0 (request_by ("U" +:+ id1)) rename (s "z")).1
  ∧ (∃ v, (route0 (request_by ("U" +:+ id1)) rename (s "a")).1 = Ret (UJson (VObj v)) ∧ field "username" v = VStr "anna"
          ∧ field "password" v = VUndefined)
  ∧ (u_password <$> as_users (route0 (request_by ("U" +:+ id1)) rename (s "a")).2) = [Some "a"; Some "b"].
Proof.
  split; [|split].
  - apply (answers_tell_no_passwords (ZO := zod0) crypto0 cfg0 columns0 (λ _, None) (λ _, None) (ZL := zod0_laws)). split_and!; [..|reflexivity].
    all: by apply (bool_decide_unpack _); vm_compute.
  - eexists. split; [vm_compute; reflexivity|]. by split.
  - by vm_compute.
Defined.

Lemma users_change_by_right_witness :
  let s := store_of [user_of id1 "ann" "a"; user_of id2 "bob" "b"] in
  let promote := UUpdate id1 (VObj [("role", VStr "Admin"); ("username", VStr "anna")]) in
  rightful crypto0 cfg0 (request_by ("U" +:+ id1)) s (route0 (request_by ("U" +:+ id1)) promote s).2
  ∧ (u_role <$> as_users (route0 (request_by ("U" +:+ id1)) promote s).2) = [Player; Player]
  ∧ (route0 (request_by ("U" +:+ id1)) (UUpdate id2 (VObj [])) s).1 = Throw "Forbidden"
  ∧ (route0 (request_by ("U" +:+ id1)) (UBan id2 VUndefined) s).1 = Throw "Forbidden".
Proof.
  split.
  - apply (users_change_by_right (ZO := zod0) crypto0 cfg0 columns0 (λ _, None) (λ _, None)). by apply (bool_decide_unpack _); vm_compute.
  - by vm_compute.
Defined.

(** A user without an address has no profile: the answer's schema wants an address. *)
Example profile_needs_an_address :
  let u := {| u_id := id1; u_username := "ann"; u_email := None; u_password := None; u_role := Player;
              u_avatarKey := None; u_banned := false |} in
  (route0 (request_by ("U" +:+ id1)) PProfile (store_of [u])).1 = Throw "ZodError"
  ∧ (route0 (request_by ("U" +:+ id1)) PMe (store_of [u])).1 = Ret (UJson (VObj [("avatarUrl", VStr "")])).
Proof. by vm_compute. Qed.
