(* ===== verification/AuthRoutes.v ===== *)
(** * The routes of sessions and resets

    backend/src/auth/auth.controller.ts with the schemas of backend/src/schemas/auth.ts,
    geoip.service.ts and the limit of requests that auth.module.ts puts before logging in and
    refreshing, over [Auth]. The country of an address is the answer of a package. The rest of
    the users' columns is written by [UserRoutes]. *)

From S2P Require Import Prelude JsText Store Schemas WalletRoutes Auth AuthSafety UserRoutes.
#[local] Open Scope string_scope.
#[local] Open Scope list_scope.
#[local] Open Scope Z_scope.

(** ** Schemas *)

Definition s_credentials : list (string * schema) := [("email", s_email); ("password", s_str)].
Definition LoginRequestSchema : schema := s_object s_credentials.
Definition RegisterRequestSchema : schema := LoginRequestSchema.
Definition RefreshRequestSchema : schema := s_object [("refreshToken", s_str)].
Definition RequestResetSchema : schema := s_object [("email", s_email)].
Definition VerifyResetCodeSchema : schema := s_object [("email", s_email); ("code", s_str)].
Definition ResetPasswordSchema : schema := s_object [("email", s_email); ("code", s_str); ("password", s_str)].
Definition API_CONTRACT_VERSION : string := "7.0.0".

(** ** Requests and answers *)

(** What a request carries beside its body, and what is drawn while it is served. *)
Record AuthRequest := {
  ar_forwardedFor : option string; ar_ip : option string; ar_socket : option string; ar_device : option string;
  ar_path : string; ar_now : Z; ar_uuid : string; ar_salt : string; ar_code : string }.
Inductive AuthRoute :=
| ALogin (body : jsval) | ARegister (body : jsval) | ARefresh (body : jsval) | ALogout (body : jsval)
| ARequestReset (body : jsval) | AVerifyResetCode (body : jsval) | AResetPassword (body : jsval) | AProviders.
(** The refresh token goes into a cookie that scripts cannot read. *)
Record Cookie := { ck_refreshToken : string; ck_maxAge : Z }.
Inductive AuthBody := TokenBody (token : string) | MessageBody (message contractVersion : string)
  | ProvidersBody (providers : list (string * string * string)).
Record AuthAnswer := { aa_body : AuthBody; aa_cookie : option Cookie }.

(** [geoip.lookup(ip)?.country] *)
Record GeoEnv := { geo_lookup : string → option string; allowedCountries : list string }.
Definition isAllowed (g : GeoEnv) (ip : string) : bool :=
  match allowedCountries g with
  | [] => true
  | allowed => match geo_lookup g ip with None | Some "" => false | Some c => bool_decide (c ∈ allowed) end
  end.

Section AuthRoutes.
Context {ZO : ZodOps} {T : Type → Type} `{!TableOps T} {R : Type} `{!RedisOps R AuthValue, !RedisKeysOps R}.
Context (C : Crypto) (cfg : AuthConfig) (geo : GeoEnv) (providers : list (string * string * string)).
Abbreviation AM := (M (AuthStore (T := T) (R := R))).

Definition client_ip (req : AuthRequest) : string :=
  match ar_forwardedFor req with
  | Some f => if bool_decide (f = "") then default "" (ar_ip req) else f
  | None => default "" (ar_ip req)
  end.
Definition refresh_cookie (refreshToken : string) (maxAgeSeconds : Z) : option Cookie :=
  Some {| ck_refreshToken := refreshToken; ck_maxAge := maxAgeSeconds * 1000 |}.
Definition message (text : string) (c : option Cookie) : AuthAnswer :=
  {| aa_body := MessageBody text API_CONTRACT_VERSION; aa_cookie := c |}.
Definition parsed (sch : schema) (body : jsval) : AM (list (string * jsval)) :=
  match z_parse sch body with Some (VObj fs) => mret fs | _ => throw "ZodError" end.
Definition body_text (k : string) (fs : list (string * jsval)) : string := str_of (field k fs).
Definition signed_in (error : string) (tokens : option Tokens) : AM AuthAnswer :=
  match tokens with
  | None => throw error
  | Some t => mret {| aa_body := TokenBody (accessToken t); aa_cookie := refresh_cookie (refreshToken t) (refreshTtl cfg) |}
  end.

(** The limit of requests, put before two of the routes. *)
Definition AuthRateLimitMiddleware (req : AuthRequest) : AM unit :=
  rate_limit cfg (ar_path req)
    (match ar_ip req with Some ip => ip | None => default "unknown" (ar_socket req) end)
    (default "unknown" (ar_device req)).

Definition auth_route (req : AuthRequest) (r : AuthRoute) : AM AuthAnswer :=
  match r with
  | ALogin body =>
      AuthRateLimitMiddleware req ;;
      throw_if (negb (isAllowed geo (client_ip req))) "Country not allowed" ;;
      fs ← parsed LoginRequestSchema body;
      tokens ← login C cfg (ar_uuid req) (ar_now req) (body_text "email" fs) (body_text "password" fs);
      signed_in "Invalid credentials" tokens
  | ARegister body =>
      fs ← parsed RegisterRequestSchema body;
      register C (ar_uuid req) (ar_salt req) (body_text "email" fs) (body_text "password" fs) ;;
      mret (message "registered" None)
  | ARefresh body =>
      AuthRateLimitMiddleware req ;;
      fs ← parsed RefreshRequestSchema body;
      tokens ← refresh C cfg (ar_uuid req) (ar_now req) (body_text "refreshToken" fs);
      signed_in "Invalid token" tokens
  | ALogout body =>
      fs ← parsed RefreshRequestSchema body;
      logout cfg (body_text "refreshToken" fs) ;;
      mret (message "logged out" (refresh_cookie "" 0))
  | ARequestReset body =>
      fs ← parsed RequestResetSchema body;
      requestPasswordReset C cfg (ar_code req) (body_text "email" fs) (client_ip req) ;;
      mret (message "reset requested" None)
  | AVerifyResetCode body =>
      fs ← parsed VerifyResetCodeSchema body;
      ok ← verifyResetCode C (body_text "email" fs) (body_text "code" fs);
      throw_if (negb ok) "Invalid code" ;;
      mret (message "code verified" None)
  | AResetPassword body =>
      fs ← parsed ResetPasswordSchema body;
      ok ← resetPassword C (ar_salt req) (body_text "email" fs) (body_text "code" fs) (body_text "password" fs);
      throw_if (negb ok) "Invalid code" ;;
      mret (message "password reset" None)
  | AProviders => mret {| aa_body := ProvidersBody providers; aa_cookie := None |}
  end.

(** ** Everything that may happen to the accounts *)

Inductive AuthStep :=
| SRoute (req : AuthRequest) (r : AuthRoute)
| SCreate (id salt username : string) (avatarKey email password : option string) (role : option Role)
| SUpdate (id : string) (username avatarKey : option string)
| SBan (id : string)
| SExpire (key : string).   (* Redis drops a key whose time is over *)
Definition exec_step (st : AuthStep) : AM unit :=
  match st with
  | SRoute req r => auth_route req r ;; mret tt
  | SCreate id salt name av email pw role => create_user C id salt name av email pw role
  | SUpdate id name av => update_user id name av
  | SBan id => ban id
  | SExpire key => rdel key
  end.
Definition run_steps (sts : list AuthStep) (s : AuthStore) : AuthStore := foldl (λ s st, (exec_step st s).2) s sts.
(** The identifier the database draws for a new row. *)
Definition drawn_id (st : AuthStep) : option string :=
  match st with SRoute req (ARegister _) => Some (ar_uuid req) | SCreate id _ _ _ _ _ _ => Some id | _ => None end.

(** ** Codes in Redis were mailed *)

Context `{!TableLaws T, !RedisLaws R AuthValue, !RedisKeysLaws R AuthValue}.
Abbreviation Store := (AuthStore (T := T) (R := R)).
Implicit Types (s : Store).

Definition codes_mailed s : Prop :=
  ∀ e h, r_get (resetKey e) (as_redis s) = Some (Text h) → ∃ c, (e, c) ∈ as_mails s ∧ h = sha256_hex C c.

Lemma codes_redis f :
  (∀ e v r, r_get (resetKey e) (f r) = Some v → r_get (resetKey e) r = Some v) →
  preserves codes_mailed (modify (on_redis f)).
Proof. intros Hf s Hs e h H. apply Hs. by apply Hf in H. Qed.
Lemma codes_rset k v ex : (∀ e, resetKey e ≠ k) → preserves codes_mailed (rset k v ex).
Proof. intros Hk. apply codes_redis. intros e v' r. by rewrite get_set, decide_False. Qed.
Lemma codes_rdel k : preserves codes_mailed (rdel k).
Proof. apply codes_redis. intros e v r. rewrite get_del. by case_decide. Qed.
Lemma codes_rincr k : preserves codes_mailed (rincr k).
Proof.
  intros s Hs. rewrite rincr_eq. apply (codes_redis (λ r, (r_incrby k 1 r).2)); [|done].
  intros e v r. apply get_counter.
Qed.
Lemma codes_rexpire k n : preserves codes_mailed (rexpire k n).
Proof. apply codes_redis. intros e v r. by rewrite get_expire. Qed.
Lemma codes_save u : preserves codes_mailed (save_user u).
Proof. intros s Hs. unfold save_user. by destruct (existsb _ _). Qed.
Lemma codes_elsewhere f : (∀ s, as_redis (f s) = as_redis s ∧ as_mails (f s) = as_mails s) →
  preserves codes_mailed (modify f).
Proof. intros Hf s Hs e h. unfold modify. cbn. destruct (Hf s) as [-> ->]. apply Hs. Qed.
#[local] Hint Resolve codes_rdel codes_rincr codes_rexpire codes_save : hub.
#[local] Hint Extern 1 (preserves codes_mailed (rset _ _ _)) => (by apply codes_rset) : hub.

Lemma codes_issue uuid now u a : preserves codes_mailed (issueTokens C cfg uuid now u a).
Proof. unfold issueTokens. preserve. Qed.
Lemma codes_within k : preserves codes_mailed (within_limit cfg k).
Proof. unfold within_limit. preserve. Qed.
#[local] Hint Resolve codes_issue codes_within : hub.
Lemma codes_login uuid now e pw : preserves codes_mailed (login C cfg uuid now e pw).
Proof.
  unfold login, validateUser, find_user, recordLogin. preserve.
  - by apply codes_elsewhere.
  - apply codes_redis. intros e' v r. apply get_zadd.
  - apply codes_redis. intros e' v r. apply get_zrem.
Qed.
Lemma codes_mail code e :
  preserves codes_mailed (rset (resetKey e) (Text (sha256_hex C code)) (resetTtl cfg) ;; modify (add_mail (e, code))).
Proof.
  intros s Hs e' h. cbv [mbind M_bind rset modify]. cbn [snd as_redis as_mails on_redis add_mail]. rewrite get_set. case_decide as He.
  - apply append_inj in He as ->. intros [= <-]. exists code. rewrite elem_of_app, list_elem_of_singleton. by split; [right|].
  - intros (c & Hc & ->)%Hs. exists c. rewrite elem_of_app. by split; [left|].
Qed.
#[local] Hint Resolve codes_mail : hub.
Lemma codes_request code e ip : preserves codes_mailed (requestPasswordReset C cfg code e ip).
Proof. unfold requestPasswordReset, find_user. preserve. Qed.
Lemma codes_step st : preserves codes_mailed (exec_step st).
Proof.
  destruct st as [req r| | | |]; cbn [exec_step].
  - apply preserves_bind; [|intros _; apply preserves_ret].
    destruct r; cbn [auth_route]; unfold AuthRateLimitMiddleware, rate_limit, parsed, signed_in.
    all: preserve; auto using codes_login, codes_request with hub.
    + unfold register, find_user. preserve.
    + unfold refresh, rotate, rget, mark_revoked. preserve.
    + unfold logout, mark_revoked, revoke. preserve.
    + unfold verifyResetCode, rget. preserve.
    + unfold resetPassword, verifyResetCode, find_user, revokeAll, rget. preserve.
  - unfold create_user. preserve.
  - unfold update_user, user_by_id. preserve.
  - unfold ban, user_by_id. preserve.
  - apply codes_rdel.
Qed.
Lemma codes_run sts s : codes_mailed s → codes_mailed (run_steps sts s).
Proof. apply foldl_invariant. intros s' st _. apply codes_step. Qed.

(** ** What keeps a password *)

Definition keeps (id : string) (u : User) s : Prop :=
  unique_ids (as_users s) ∧ ∃ u', row_of id s = Some u' ∧ u_password u' = u_password u ∧ u_email u' = u_email u.

Lemma keeps_users id u f : (∀ s, as_users (f s) = as_users s) → preserves (keeps id u) (modify f).
Proof. intros Hf s Hs. unfold keeps, row_of, modify in *. cbn [snd]. rewrite Hf. exact Hs. Qed.
Lemma keeps_save id u r : u_id r ≠ id → preserves (keeps id u) (save_user r).
Proof.
  intros Hr s [Hu (u' & Hu' & He)]. unfold save_user. destruct (existsb _ _); [by split; [|exists u']|]. split; [by apply unique_ids_save|].
  exists u'. split; [|done]. unfold row_of in *. cbn [snd on_users as_users].
  change (λ u, bool_decide (u_id u = id)) with (λ u, bool_decide (row_id u = id)). by rewrite find_save, decide_False.
Qed.
Lemma keeps_own id u (f : User → User) id' :
  (∀ u', u_id (f u') = u_id u' ∧ u_password (f u') = u_password u' ∧ u_email (f u') = u_email u') →
  preserves (keeps id u) (u' ← user_by_id id'; save_user (f u')).
Proof.
  intros Hf s Hs. unfold user_by_id. cbv [gets mbind M_bind]. fold (row_of id' s).
  destruct (row_of id' s) as [v|] eqn:Ev; [|done]. cbv [mret M_ret]. destruct (Hf v) as (Hi & Hp & He).
  destruct (decide (id' = id)) as [->|Hne].
  - destruct Hs as [Hu (u' & Hu' & Hpe)]. rewrite Ev in Hu'. injection Hu' as ->. unfold save_user.
    destruct (existsb _ _); [by split; [|exists u']|]. split; [by apply unique_ids_save|]. exists (f u').
    apply find_row_Some in Ev as [_ Eid%bool_decide_eq_true]. split; [|by rewrite Hp, He].
    unfold row_of. cbn [snd on_users as_users].
    change (λ u, bool_decide (u_id u = id)) with (λ u, bool_decide (row_id u = id)). rewrite find_save by done.
    apply decide_True. cbn. congruence.
  - apply keeps_save; [|done]. apply find_row_Some in Ev as [_ Eid%bool_decide_eq_true]. congruence.
Qed.
Lemma keeps_update id u id' username avatarKey : preserves (keeps id u) (update_user id' username avatarKey).
Proof.
  unfold update_user. apply (keeps_own id u (λ v, {| u_id := u_id v; u_username := default (u_username v) username;
    u_email := u_email v; u_password := u_password v; u_role := u_role v;
    u_avatarKey := match avatarKey with Some a => Some a | None => u_avatarKey v end; u_banned := u_banned v |})). done.
Qed.
Lemma keeps_ban id u id' : preserves (keeps id u) (ban id').
Proof. by apply keeps_own. Qed.
#[local] Hint Extern 1 (preserves (keeps _ _) (modify _)) => (by apply keeps_users) : hub.
#[local] Hint Extern 1 (preserves (keeps _ _) (save_user _)) => (by apply keeps_save) : hub.
Lemma keeps_rincr id u k : preserves (keeps id u) (rincr k).
Proof. intros s Hs. rewrite rincr_eq. exact Hs. Qed.
#[local] Hint Resolve keeps_rincr keeps_update keeps_ban : hub.
Lemma keeps_request id u code e ip : preserves (keeps id u) (requestPasswordReset C cfg code e ip).
Proof. unfold requestPasswordReset, find_user, within_limit, rexpire, rset. preserve. Qed.

(** Every step but a reset. *)
Lemma keeps_step id u st :
  drawn_id st ≠ Some id → (∀ req body, st ≠ SRoute req (AResetPassword body)) → preserves (keeps id u) (exec_step st).
Proof.
  intros Hd Hr. destruct st as [req r|id' salt name av email pw role| | |]; cbn [exec_step].
  - apply preserves_bind; [|intros _; apply preserves_ret].
    destruct r; cbn [auth_route]; try (by destruct (Hr req body));
      unfold AuthRateLimitMiddleware, rate_limit, parsed, signed_in, rexpire.
    + unfold login, validateUser, find_user, recordLogin, issueTokens, rset. preserve.
    + assert (ar_uuid req ≠ id) by (cbn in Hd; congruence). unfold register, find_user. preserve.
    + unfold refresh, rotate, issueTokens, rget, mark_revoked, rset, rdel. preserve.
    + unfold logout, mark_revoked, revoke, rset, rdel. preserve.
    + preserve. apply keeps_request.
    + unfold verifyResetCode, rget. preserve.
    + preserve.
  - assert (id' ≠ id) by (cbn in Hd; congruence). unfold create_user. preserve.
  - apply keeps_update.
  - apply keeps_ban.
  - by apply keeps_users.
Qed.

Lemma revoking_keeps_users us who email :
  preserves (λ s, as_users s = us) (revokeAll who ;; rdel (resetKey email) ;; mret true : AM bool).
Proof. unfold revokeAll, rget, rdel. preserve; by intros s. Qed.

(** What a reset does to the users. *)
Lemma reset_users_eq salt email code pw s : codes_mailed s →
  let s' := (resetPassword C salt email code pw s).2 in
  as_users s' = as_users s
  ∨ ∃ v c, (email, c) ∈ as_mails s ∧ sha256_hex C c = sha256_hex C code ∧ v ∈ rows (as_users s)
           ∧ u_email v = Some email ∧ as_users s' = save_row (with_password (bcrypt_hash C salt pw) v) (as_users s).
Proof.
  intros Hs. cbv zeta. rewrite resetPassword_eq. destruct (r_get (resetKey email) (as_redis s)) as [[h|]|] eqn:Eh; try by left.
  case_bool_decide as Hh; [by left|]. case_bool_decide as Hc; [|by left]. cbn [negb andb].
  destruct (find_row _ (as_users s)) as [v|] eqn:Ev; [|by left]. rewrite save_then. destruct (existsb _ _); [by left|].
  right. apply find_row_Some in Ev as [Hin He%bool_decide_eq_true]. destruct (Hs _ _ Eh) as (c & Hmail & ->).
  exists v, c. split_and!; [done..|]. by rewrite (revoking_keeps_users _ _ _ _ eq_refl).
Qed.

Lemma route_then st s : ∀ req r, st = SRoute req r → (exec_step st s).2 = (auth_route req r s).2.
Proof.
  intros req r ->. cbn [exec_step]. unfold mbind, M_bind. by destruct (auth_route req r s) as [[]].
Qed.
Lemma reset_route req body s :
  (auth_route req (AResetPassword body) s).2
  = match z_parse ResetPasswordSchema body with
    | Some (VObj fs) => (resetPassword C (ar_salt req) (body_text "email" fs) (body_text "code" fs) (body_text "password" fs) s).2
    | _ => s
    end.
Proof.
  cbn [auth_route]. unfold parsed. cbv [mbind M_bind]. destruct (z_parse ResetPasswordSchema body) as [[]|]; try done.
  cbv [mret M_ret]. destruct (resetPassword C _ _ _ _ s) as [[[]|] s']; done.
Qed.

Lemma unique_step st : preserves (λ s, unique_ids (as_users s)) (exec_step st).
Proof.
  assert (∀ u, preserves (λ s, unique_ids (as_users s)) (save_user u)) as Hsave.
  { intros u s Hs. unfold save_user. destruct (existsb _ _); [done|]. by apply unique_ids_save. }
  assert (∀ f, (∀ s, as_users (f s) = as_users s) → preserves (λ s, unique_ids (as_users s)) (modify f)) as Hmod.
  { intros f Hf s Hs. unfold modify. cbn [snd]. by rewrite Hf. }
  assert (∀ k, preserves (λ s, unique_ids (as_users s)) (rincr k)) as Hincr by (intros k s Hs; by rewrite rincr_eq).
  destruct st as [req r| | | |]; cbn [exec_step].
  - apply preserves_bind; [|intros _; apply preserves_ret].
    destruct r; cbn [auth_route]; unfold AuthRateLimitMiddleware, rate_limit, parsed, signed_in, login, validateUser,
      recordLogin, register, refresh, rotate, issueTokens, logout, mark_revoked, revoke, requestPasswordReset, within_limit,
      resetPassword, verifyResetCode, revokeAll, find_user, rset, rget, rdel, rexpire; preserve; auto.
  - unfold create_user. preserve; auto.
  - unfold update_user, user_by_id. preserve; auto.
  - unfold ban, user_by_id. preserve; auto.
  - by apply Hmod.
Qed.

(** C15: The password of an account changes in one way only. From a Redis without codes, after any requests, changes
    of accounts and expiries, a step that leaves an account with another password is a reset whose code hashes like
    one that was mailed before to the account's own address, and the new password is the one of its body. *)
Theorem password_changes_by_mailed_code sts st s0 id u u' :
  (∀ e, r_get (resetKey e) (as_redis s0) = None) → unique_ids (as_users s0) → drawn_id st ≠ Some id →
  let s := run_steps sts s0 in
  let s' := (exec_step st s).2 in
  row_of id s = Some u → row_of id s' = Some u' → u_password u' ≠ u_password u →
  ∃ req body fs c, st = SRoute req (AResetPassword body) ∧ z_parse ResetPasswordSchema body = Some (VObj fs)
    ∧ u_email u = Some (body_text "email" fs) ∧ (body_text "email" fs, c) ∈ as_mails s
    ∧ sha256_hex C c = sha256_hex C (body_text "code" fs)
    ∧ u_password u' = Some (bcrypt_hash C (ar_salt req) (body_text "password" fs)).
Proof.
  intros H0 Hu0 Hd s s' Hrow Hrow' Hpw.
  assert (unique_ids (as_users s)) as Hu
    by (apply (foldl_invariant (λ s, unique_ids (as_users s))); [intros ? ? _; apply unique_step | done]).
  assert (codes_mailed s) as Hs by (apply codes_run; intros e h H; by rewrite H0 in H).
  assert (¬ ∀ req body, st ≠ SRoute req (AResetPassword body)) as Hst.
  { intros Hn. destruct (keeps_step id u st Hd Hn s) as [_ (u1 & Hu1 & Hp & _)]; [by split; [|exists u]|].
    fold s' in Hu1. congruence. }
  destruct st as [req [| | | | | |body|]| | | |]; try (exfalso; apply Hst; by intros ? ?).
  assert (s' = (auth_route req (AResetPassword body) s).2) as Es' by (by eapply route_then).
  rewrite reset_route in Es'.
  destruct (z_parse ResetPasswordSchema body) as [[]|] eqn:Ep; try (rewrite Es' in Hrow'; congruence).
  exists req, body, fields.
  destruct (reset_users_eq (ar_salt req) (body_text "email" fields) (body_text "code" fields) (body_text "password" fields) s Hs)
    as [E|(v & c & Hmail & Hc & Hv & He & E)]; rewrite <- Es' in E.
  { unfold row_of in Hrow, Hrow'. congruence. }
  exists c. unfold row_of in Hrow'. rewrite E in Hrow'.
  change (λ u, bool_decide (u_id u = id)) with (λ u, bool_decide (row_id u = id)) in *. rewrite find_save in Hrow' by done.
  unfold row_of in Hrow. change (λ u, bool_decide (u_id u = id)) with (λ u, bool_decide (row_id u = id)) in Hrow.
  case_decide as Hid; [|congruence]. injection Hrow' as <-.
  assert (v = u) as -> by (eapply Some_inj; rewrite <- Hrow; symmetry; by apply find_by_key).
  by split_and!.
Qed.

(** ** What the routes leave open *)

(** Checking a code counts nothing: after any number of wrong guesses the store is the same. *)
Lemma guesses_cost_nothing reqs s :
  foldl (λ s p, (exec_step (SRoute p.1 (AVerifyResetCode p.2)) s).2) s reqs = s.
Proof.
  apply (foldl_invariant (λ s', s' = s)); [|done]. intros s' [req body] _ ->. cbn [exec_step auth_route fst snd].
  apply (λ H : preserves (λ s', s' = s) _, H s eq_refl).
  unfold parsed, verifyResetCode, rget. preserve.
Qed.

(** Without a refresh token in the body, which a script cannot read from the cookie, nobody is logged out. *)
Lemma logout_needs_a_body `{!ZodLaws} req s : auth_route req (ALogout VUndefined) s = (Throw "ZodError", s).
Proof. cbn [auth_route]. unfold parsed, RefreshRequestSchema, s_object. by rewrite parse_object. Qed.

End AuthRoutes.

(** ** Instances *)

Definition geo0 : GeoEnv :=
  {| geo_lookup ip := if bool_decide (ip = "1.1.1.1") then Some "DE" else if bool_decide (ip = "2.2.2.2") then Some "XX" else None;
     allowedCountries := ["DE"] |}.
Definition request0 (forwarded : option string) (uuid code : string) (now : Z) : AuthRequest :=
  {| ar_forwardedFor := forwarded; ar_ip := Some "2.2.2.2"; ar_socket := None; ar_device := None; ar_path := "/api/auth/login";
     ar_now := now; ar_uuid := uuid; ar_salt := "x"; ar_code := code |}.
Definition account0 (email : string) (pw : string) : jsval := VObj [("email", VStr email); ("password", VStr pw)].
Definition auth_route0 := auth_route (ZO := zod0) (T := list) (R := map_redis AuthValue) crypto0 cfg0 geo0 [].
Definition sign_up : list AuthStep := [
  SRoute (request0 None id1 "" 1) (ARegister (account0 "a@b.org" "secret"));
  SRoute (request0 None "" "123456" 2) (ARequestReset (VObj [("email", VStr "a@b.org")]))].

Lemma password_changes_by_mailed_code_witness :
  let run := run_steps (ZO := zod0) (T := list) (R := map_redis AuthValue) crypto0 cfg0 geo0 [] in
  let body c := VObj [("email", VStr "a@b.org"); ("code", VStr c); ("password", VStr "other!")] in
  let st := SRoute (request0 None "" "" 3) (AResetPassword (body "123456")) in
  (∃ u u', row_of id1 (run sign_up auth0) = Some u ∧ row_of id1 (run (sign_up ++ [st]) auth0) = Some u'
           ∧ u_password u = Some "secret" ∧ u_password u' = Some "other!" ∧ ("a@b.org", "123456") ∈ as_mails (run sign_up auth0))
  ∧ run (sign_up ++ [SRoute (request0 None "" "" 3) (AResetPassword (body "123457"))]) auth0 = run sign_up auth0.
Proof.
  split; [|by vm_compute].
  set (st := SRoute (request0 None "" "" 3)
    (AResetPassword (VObj [("email", VStr "a@b.org"); ("code", VStr "123456"); ("password", VStr "other!")]))).
  set (u := {| u_id := id1; u_username := "a@b.org"; u_email := Some "a@b.org"; u_password := Some "secret"; u_role := Player;
               u_avatarKey := None; u_banned := false |}).
  set (u' := {| u_id := id1; u_username := "a@b.org"; u_email := Some "a@b.org"; u_password := Some "other!"; u_role := Player;
               u_avatarKey := None; u_banned := false |}).
  exists u, u'. split; [by vm_compute|]. split; [by vm_compute|]. split; [done|]. split; [done|].
  destruct (password_changes_by_mailed_code (ZO := zod0) crypto0 cfg0 geo0 [] sign_up st auth0 id1 u u')
    as (req & body & fs & c & Est & Ep & He & Hm & Hc & _); try by vm_compute.
  { by apply NoDup_nil. }
  injection Est as <- <-. vm_compute in Ep. injection Ep as <-. vm_compute in Hc. subst c. exact Hm.
Defined.

(** The address that decides about the country is one the client writes. *)
Example country_is_chosen :
  let body := account0 "a@b.org" "secret" in
  let s := run_steps (ZO := zod0) (T := list) (R := map_redis AuthValue) crypto0 cfg0 geo0 [] sign_up auth0 in
  (auth_route0 (request0 None "t" "" 5) (ALogin body) s).1 = Throw "Country not allowed"
  ∧ (auth_route0 (request0 (Some "1.1.1.1") "t" "" 5) (ALogin body) s).1
    = Ret {| aa_body := TokenBody ("U" +:+ id1); aa_cookie := Some {| ck_refreshToken := "t"; ck_maxAge := 604800000 |} |}.
Proof. by vm_compute. Qed.
