(* ===== verification/ApiClient.v ===== *)
(** * Requests of a page

    frontend/src/lib/api/client.ts and utils.ts over shared/utils/http.ts: how a page asks
    the server and what becomes of the answer. The network answers a request or fails; a
    body is a text that is the JSON of a value or does not parse ([AuditLog]). JSON.parse of
    a string that a JSON body holds is a parameter; files of forms are opaque. *)

From S2P Require Import Prelude JsText Schemas AuditLog AuthRoutes.
#[local] Open Scope string_scope.
#[local] Open Scope list_scope.
#[local] Open Scope Z_scope.

(** ** Requests, responses and errors *)

Abbreviation headers := (gmap string string).
(** [JSON.stringify] of a value, or a form. *)
Inductive RequestBody := BodyText (t : text) | BodyForm (file : string).
Record HttpRequest := { rq_url : string; rq_method : string; rq_headers : headers; rq_body : option RequestBody }.

(** A response of fetch: [rs_read] is what reading its body gives. *)
Record Response := {
  rs_status : Z; rs_statusText : string; rs_contentType : option string; rs_read : outcome text }.
Definition rs_ok (r : Response) : bool := (200 <=? rs_status r) && (rs_status r <=? 299).

(** What [handleResponse] asks of a response: the methods may be missing. *)
Record ResponseLike := {
  rl_status : Z; rl_statusText : string; rl_ok : bool; rl_contentType : option string;
  rl_json : option (outcome jsval); rl_text : option (outcome text) }.
(** A response of fetch has them all. *)
Definition like (r : Response) : ResponseLike :=
  {| rl_status := rs_status r; rl_statusText := rs_statusText r; rl_ok := rs_ok r; rl_contentType := rs_contentType r;
     rl_json := Some (rs_read r ≫= json_parse); rl_text := Some (rs_read r) |}.

(** An [ApiError], or anything else that is thrown. *)
Inductive ClientError :=
| ApiError (message : string) (errors : option jsval) (status : option Z) (details : option text)
| Thrown (e : string).
Inductive Settled := Resolved (v : jsval) | Rejected (e : ClientError).
Definition error_message (e : ClientError) : string := match e with ApiError m _ _ _ => m | Thrown m => m end.
Definition invalidResponseError : ClientError := ApiError "Invalid server response" None None None.

(** What was read: nothing, a JSON value, or a text. *)
Inductive Data := DNone | DJson (v : jsval) | DText (t : text).
Definition text_empty (t : text) : bool := match t with TRaw s => bool_decide (s = "") | TJson _ => false end.
Definition data_value (d : Data) : jsval := match d with DJson v => v | _ => VUndefined end.

Section Client.
Context {ZO : ZodOps} (string_text : string → text).

(** *** The error of a response that is not ok *)

(** [data == null], [typeof data === 'string'], or else its JSON. *)
Definition details_text (d : Data) : option text :=
  match d with
  | DNone | DJson VNull | DJson VUndefined => None
  | DJson (VStr s) => Some (string_text s)
  | DJson v => Some (TJson v)
  | DText t => Some t
  end.
Definition record_of (v : jsval) : option (list (string * jsval)) :=
  match v with VObj fs => Some fs | VArr _ => Some [] | _ => None end.
Definition is_object (v : jsval) : bool := match v with VObj _ | VArr _ => true | _ => false end.
Definition status_message (statusText : string) : string := if bool_decide (statusText = "") then "Request failed" else statusText.
Definition failure (status : Z) (statusText : string) (d : Data) : ClientError :=
  let details := details_text d in
  let parsed := match details with Some t => match json_parse t with Ret v => record_of v | Throw _ => None end | None => None end in
  let message := match field "message" (default [] parsed) with VStr m => m | _ => status_message statusText end in
  let errors := let e := field "errors" (default [] parsed) in if is_object e then Some e else None in
  ApiError message errors (Some status) details.

(** *** shared/utils/http.ts *)

Definition is_json (contentType : option string) : bool :=
  match contentType with
  | Some c => negb (bool_decide (c = "")) && js_includes "application/json" c
  | None => false
  end.
Definition read_response (r : Response) (sch : schema) : Settled :=
  let finish d :=
    if rs_ok r then match z_parse sch (data_value d) with Some v => Resolved v | None => Rejected invalidResponseError end
    else Rejected (failure (rs_status r) (rs_statusText r) d) in
  if rs_status r =? 204 then finish DNone
  else if is_json (rs_contentType r) then
    match rs_read r ≫= json_parse with Ret v => finish (DJson v) | Throw _ => Rejected invalidResponseError end
  else
    match rs_read r with
    | Throw e => Rejected (Thrown e)
    | Ret t => if rs_ok r then if text_empty t then finish DNone else Rejected invalidResponseError else finish (DText t)
    end.

Definition with_token (authToken : option string) (h : headers) : headers :=
  match authToken with
  | None | Some "" => h
  | Some t => match h !! "Authorization" with None | Some "" => <["Authorization" := "Bearer " +:+ t]> h | Some _ => h end
  end.
Context (network : HttpRequest → outcome Response).
Definition fetchJson (rq : HttpRequest) (sch : schema) (authToken : option string) : Settled :=
  match network {| rq_url := rq_url rq; rq_method := rq_method rq; rq_headers := with_token authToken (rq_headers rq);
                   rq_body := rq_body rq |} with
  | Throw e => Rejected (Thrown e)
  | Ret r => read_response r sch
  end.

(** *** client.ts *)

Definition handleResponse (res : outcome ResponseLike) (sch : schema) : Settled :=
  match res with
  | Throw e => Rejected (ApiError e None None None)
  | Ret r =>
      let finish d :=
        if rl_ok r then match z_parse sch (data_value d) with Some v => Resolved v | None => Rejected invalidResponseError end
        else Rejected (failure (rl_status r) (rl_statusText r) d) in
      if rl_status r =? 204 then finish DNone
      else if js_includes "application/json" (default "" (rl_contentType r)) then
        match rl_json r with
        | Some (Ret v) => finish (DJson v)
        | _ => Rejected invalidResponseError
        end
      else
        match rl_text r with
        | None => Rejected invalidResponseError
        | Some (Throw e) => Rejected (Thrown e)
        | Some (Ret t) => if rl_ok r then if text_empty t then finish DNone else Rejected invalidResponseError else finish (DText t)
        end
  end.

(** The body a page hands over. *)
Inductive CallBody := NoBody | JsonBody (v : jsval) | FormBody (file : string).
Record CallOptions := { co_method : option string; co_body : CallBody; co_headers : headers }.
Definition call_headers (o : CallOptions) : headers :=
  match co_body o with
  | JsonBody _ => <["content-type" := default "application/json" (co_headers o !! "content-type")]> (co_headers o)
  | _ => co_headers o
  end.
Definition apiClient (baseUrl : string) (token : option string) (path : string) (sch : schema) (o : CallOptions) : Settled :=
  fetchJson {| rq_url := baseUrl +:+ path; rq_method := default "GET" (co_method o); rq_headers := call_headers o;
               rq_body := match co_body o with
                          | NoBody => None
                          | JsonBody v => Some (BodyText (TJson v))
                          | FormBody f => Some (BodyForm f)
                          end |} sch token.

(** utils.ts, and the same lines of lobby.ts, nav.ts, profile.ts, notifications.ts and admin.ts. *)
Definition safeApiClient (errorMessage : string) (r : Settled) : Settled :=
  match r with
  | Resolved v => Resolved v
  | Rejected e => Rejected (ApiError (errorMessage +:+ ": " +:+ error_message e) None None None)
  end.

Definition major (version : string) : string := default "" (head (js_split "." version)).
Definition ServiceStatusResponseSchema : schema := s_object [("status", s_str); ("contractVersion", s_str)].
(** Answers whether the page is told to reload; other errors are ignored. *)
Definition checkApiContractVersion (baseUrl : string) : bool :=
  match fetchJson {| rq_url := baseUrl +:+ "/status"; rq_method := "GET"; rq_headers := ∅; rq_body := None |}
          ServiceStatusResponseSchema None with
  | Resolved (VObj fs) =>
      match field "contractVersion" fs with
      | VStr v => negb (bool_decide (major v = major API_CONTRACT_VERSION))
      | _ => false
      end
  | _ => false
  end.

(** ** The two readings of an answer are one *)

Lemma is_json_includes c : is_json c = js_includes "application/json" (default "" c).
Proof. destruct c as [c|]; [|done]. cbn. case_bool_decide as E; [by subst|done]. Qed.

(** The client of the pages reads an answer like the shared helper. For every response the two settle alike, with
    the same value or the same error, whatever the body, its type and the status; and when the network fails
    both reject with the network's message. *)
Lemma handleResponse_is_fetchJson rq sch token :
  let res := network {| rq_url := rq_url rq; rq_method := rq_method rq; rq_headers := with_token token (rq_headers rq);
                        rq_body := rq_body rq |} in
  match res with
  | Ret r => fetchJson rq sch token = handleResponse (Ret (like r)) sch
  | Throw e => ∃ x y, fetchJson rq sch token = Rejected x ∧ handleResponse (Throw e) sch = Rejected y
                      ∧ error_message x = error_message y
  end.
Proof.
  cbv zeta. unfold fetchJson. destruct (network _) as [r|e]; [|by repeat eexists]. cbn [handleResponse].
  unfold read_response. rewrite is_json_includes. cbn [like rl_status rl_statusText rl_ok rl_contentType rl_json rl_text].
  destruct (rs_status r =? 204); [done|]. destruct (js_includes _ _); [|done]. by destruct (rs_read r ≫= json_parse).
Qed.

(** *** When a request resolves *)

(** What an answer holds: nothing, or the JSON of a value. *)
Definition answer_holds (r : Response) (x : jsval) : Prop :=
  if rs_status r =? 204 then x = VUndefined
  else if is_json (rs_contentType r) then rs_read r = Ret (TJson x)
  else rs_read r = Ret (TRaw "") ∧ x = VUndefined.

Lemma read_resolves r sch v :
  read_response r sch = Resolved v ↔ rs_ok r = true ∧ ∃ x, answer_holds r x ∧ z_parse sch x = Some v.
Proof.
  unfold read_response, answer_holds. destruct (rs_status r =? 204).
  { destruct (rs_ok r); [|by split; [|intros []]]. cbn [data_value]. split.
    - destruct (z_parse sch VUndefined) eqn:E; [|done]. intros [= <-]. split; [done|]. by exists VUndefined.
    - intros (_ & x & -> & ->). done. }
  destruct (is_json (rs_contentType r)).
  - destruct (rs_read r) as [[x|s]|e]; cbn; [|by split; [|intros (_ & x & ? & _)]..].
    destruct (rs_ok r); [|by split; [|intros []]]. split.
    + destruct (z_parse sch x) eqn:E; [|done]. intros [= <-]. split; [done|]. by exists x.
    + intros (_ & y & [= <-] & ->). done.
  - destruct (rs_read r) as [[x|s]|e]; cbn; [| |by split; [|intros (_ & x & [? _] & _)]].
    + destruct (rs_ok r); by split; [|intros (_ & y & [? _] & _)].
    + destruct (rs_ok r); [|by split; [|intros []]]. case_bool_decide as Es.
      * subst s. split.
        -- destruct (z_parse sch VUndefined) eqn:E; [|done]. intros [= <-]. split; [done|]. by exists VUndefined.
        -- intros (_ & x & [_ ->] & ->). done.
      * split; [done|]. intros (_ & x & [[= ->] _] & _). done.
Qed.
End Client.

(** ** Instances *)

(** A refusal of the server keeps its status, its message and its errors. *)
Example refusal_is_kept :
  let body := VObj [("message", VStr "Not allowed"); ("errors", VObj [("amount", VStr "too big")])] in
  read_response (ZO := zod0) TRaw
    {| rs_status := 400; rs_statusText := "Bad Request"; rs_contentType := Some "application/json; charset=utf-8";
       rs_read := Ret (TJson body) |} s_str
  = Rejected (ApiError "Not allowed" (Some (VObj [("amount", VStr "too big")])) (Some 400) (Some (TJson body))).
Proof. by vm_compute. Qed.
(** A page of the proxy keeps its text as details. *)
Example html_is_a_detail :
  read_response (ZO := zod0) TRaw
    {| rs_status := 502; rs_statusText := ""; rs_contentType := Some "text/html"; rs_read := Ret (TRaw "<html>") |} s_str
  = Rejected (ApiError "Request failed" None (Some 502) (Some (TRaw "<html>"))).
Proof. by vm_compute. Qed.
