(* ===== verification/HttpRoutes.v ===== *)
(** * The table of routes

    The controllers of backend/src as their decorators declare them: method, path, guards,
    status, schema of the body and of the answer, for every route of the REST interface
    (main.ts puts them under api). What the handlers do is in the files of their parts
    ([WalletRoutes], [MoneyRoutes], [AuthRoutes], [UserRoutes], [TournamentRoutes],
    [HandAccess], [History], [Tables] and others); here a request is dispatched to a handler
    past its guards. Schemas are named, as in the source. The router is a package: it takes
    the first route of the table that accepts a request, literals in any case; which
    module's controllers come first is its business. HEAD and OPTIONS are left out, and so is
    the controller of end-to-end tests (test-support), registered under a switch only. *)

From S2P Require Import Prelude JsText AuditLog Auth AuthSafety.
#[local] Open Scope string_scope.
#[local] Open Scope list_scope.
#[local] Open Scope Z_scope.

(** ** Routes and controllers *)

Inductive Method := GET | POST | PUT | PATCH | DELETE.
#[export] Instance Method_eq : EqDecision Method.
Proof. solve_decision. Defined.
Inductive Guard := GAuth | GAdmin | GSelf | GRate.
#[export] Instance Guard_eq : EqDecision Guard.
Proof. solve_decision. Defined.
(** Literals are kept in lower case. *)
Inductive Segment := Lit (s : string) | Param (name : string).
(** What a handler answers: what a schema let through, or a list of it (parsed in the handler or in the service it
    calls); a value of the type of a schema, or a list of them, which nothing parses; something else; nothing; a text. *)
Inductive RouteAnswer :=
| AShape (schema : string) | AListOf (schema : string) | ATyped (schema : string) | ATypedList (schema : string)
| AOther (what : string) | AVoid | AText.
#[export] Instance RouteAnswer_eq : EqDecision RouteAnswer.
Proof. solve_decision. Defined.
Record Route := {
  rt_method : Method; rt_path : list Segment; rt_guards : list Guard; rt_status : Z;
  rt_handler : string; rt_body : option string; rt_answer : RouteAnswer }.
Record Controller := { ct_name : string; ct_routes : list Route }.

Definition segment_of (s : string) : Segment :=
  match s with String ":" name => Param name | _ => Lit (to_lower s) end.
Definition segments (path : string) : list Segment :=
  segment_of <$> List.filter (λ s, negb (String.eqb s "")) (js_split "/" path).
(** main.ts: everything is under api, but for status and docs. *)
Definition global_prefix (p : list Segment) : list Segment :=
  match p with
  | [Lit "status"] | [Lit "docs"] => p
  | _ => Lit "api" :: p
  end.
Definition route (m : Method) (path : string) (guards : list Guard) (status : Z) (handler : string)
    (body : option string) (answer : RouteAnswer) : Route :=
  {| rt_method := m; rt_path := segments path; rt_guards := guards; rt_status := status; rt_handler := handler;
     rt_body := body; rt_answer := answer |}.
(** Guards of the class come before those of the method. *)
Definition controller (name prefix : string) (guards : list Guard) (rs : list Route) : Controller :=
  {| ct_name := name;
     ct_routes := (λ r, {| rt_method := rt_method r; rt_path := global_prefix (segments prefix ++ rt_path r);
                           rt_guards := guards ++ rt_guards r; rt_status := rt_status r;
                           rt_handler := name +:+ "." +:+ rt_handler r; rt_body := rt_body r;
                           rt_answer := rt_answer r |}) <$> rs |}.

(** ** The table *)

Definition AnalyticsController : Controller := controller "AnalyticsController" "analytics" [GAdmin] [
  route GET "logs" [] 200 "logs" None (AShape "AuditLogsResponseSchema");
  route GET "log-types" [] 200 "logTypes" None (AShape "AuditLogTypesResponseSchema");
  route GET "log-types/classes" [] 200 "logTypeClasses" None (AShape "LogTypeClassesSchema");
  route GET "log-types/classes/overrides" [] 200 "logTypeClassOverrides" None (AShape "LogTypeClassOverrideListSchema");
  route GET "log-types/classes/defaults" [] 200 "logTypeClassDefaults" None (AShape "LogTypeClassDefaultListSchema");
  route POST "log-types/classes" [] 201 "createLogTypeClass" (Some "CreateLogTypeClassOverrideSchema") (AShape "LogTypeClassOverrideSchema");
  route PUT "log-types/classes/defaults" [] 200 "updateLogTypeClassDefault" (Some "LogTypeClassSchema") (AShape "LogTypeClassDefaultSchema");
  route PUT "log-types/classes/:type" [] 200 "updateLogTypeClass" (Some "UpdateLogTypeClassOverrideSchema") (AShape "LogTypeClassOverrideSchema");
  route DELETE "log-types/classes/:type" [] 204 "deleteLogTypeClass" None AVoid;
  route GET "summary" [] 200 "summary" None (ATyped "AuditSummarySchema");
  route GET "activity" [] 200 "activity" None (AShape "ActivityResponseSchema");
  route GET "error-categories" [] 200 "errorCategories" None (AShape "ErrorCategoriesResponseSchema")].
Definition CollusionController : Controller := controller "CollusionController" "analytics/collusion" [GAdmin] [
  route POST ":sessionId/:action" [] 201 "record" None (AOther "entry of the history")].
Definition ReviewController : Controller := controller "ReviewController" "analytics/collusion" [GAdmin] [
  route GET "flagged" [] 200 "list" None (AOther "flagged sessions");
  route GET ":id/audit" [] 200 "audit" None (AOther "history of a session")].
Definition AppController : Controller := controller "AppController" "" [] [
  route GET "status" [] 200 "getStatus" None (ATyped "ServiceStatusResponseSchema")].
Definition AuthController : Controller := controller "AuthController" "auth" [] [
  route POST "login" [] 200 "login" (Some "LoginRequestSchema") (ATyped "LoginResponseSchema");
  route POST "register" [] 200 "register" (Some "RegisterRequestSchema") (ATyped "MessageResponseSchema");
  route POST "refresh" [] 200 "refresh" (Some "RefreshRequestSchema") (ATyped "LoginResponseSchema");
  route POST "logout" [] 200 "logout" (Some "RefreshRequestSchema") (ATyped "MessageResponseSchema");
  route POST "request-reset" [] 200 "requestReset" (Some "RequestResetSchema") (ATyped "MessageResponseSchema");
  route POST "verify-reset-code" [] 200 "verifyResetCode" (Some "VerifyResetCodeSchema") (ATyped "MessageResponseSchema");
  route POST "reset-password" [] 200 "resetPassword" (Some "ResetPasswordSchema") (ATyped "MessageResponseSchema");
  route GET "providers" [] 200 "getProviders" None (ATyped "AuthProvidersResponseSchema")].
Definition FeatureFlagsController : Controller := controller "FeatureFlagsController" "feature-flags" [GAuth; GAdmin] [
  route GET "" [] 200 "list" None (AShape "FeatureFlagsResponseSchema");
  route PUT ":key" [] 200 "set" (Some "FeatureFlagRequestSchema") (AShape "FeatureFlagSchema");
  route DELETE ":key" [] 200 "remove" None AVoid;
  route PUT "room/:tableId/:key" [] 200 "setRoom" (Some "FeatureFlagRequestSchema") (AShape "FeatureFlagSchema");
  route DELETE "room/:tableId/:key" [] 200 "removeRoom" None AVoid;
  route PUT "tourney/:tourneyId/:key" [] 200 "setTourney" (Some "FeatureFlagRequestSchema") (AShape "FeatureFlagSchema");
  route DELETE "tourney/:tourneyId/:key" [] 200 "removeTourney" None AVoid].
Definition HandController : Controller := controller "HandController" "hands" [] [
  route GET "proofs" [] 200 "listProofs" None (AShape "HandProofsResponseSchema");
  route GET ":id/proof" [] 200 "getProof" None (AShape "HandProofResponseSchema");
  route GET ":id/replay" [] 200 "getReplay" None (AShape "HandReplayResponseSchema");
  route GET ":id/state/:index" [] 200 "getState" None (AShape "GameStateSchema.omit({ serverTime: true })");
  route GET ":id/log" [] 200 "getLog" None AText].
Definition HistoryController : Controller := controller "HistoryController" "history" [GAuth] [
  route GET "games" [] 200 "games" None (AShape "PaginatedResponseSchema(GameHistoryEntrySchema)");
  route GET "tournaments" [] 200 "tournaments" None (AShape "PaginatedResponseSchema(TournamentHistoryEntrySchema)");
  route GET "tournaments/:id/bracket" [] 200 "tournamentBracket" None (AShape "TournamentBracketResponseSchema");
  route GET "transactions" [] 200 "transactions" None (AShape "PaginatedResponseSchema(TransactionEntrySchema)")].
Definition AdminLeaderboardConfigController : Controller := controller "AdminLeaderboardConfigController" "admin/leaderboard-config" [GAuth; GAdmin] [
  route GET "" [] 200 "list" None (AShape "LeaderboardConfigListResponseSchema");
  route POST "" [] 201 "create" (Some "LeaderboardConfigSchema") (AShape "LeaderboardConfigListResponseSchema");
  route PUT "" [] 200 "update" (Some "LeaderboardConfigUpdateSchema") (AShape "LeaderboardConfigListResponseSchema");
  route DELETE "" [] 200 "remove" (Some "LeaderboardConfigSchema") (AShape "LeaderboardConfigListResponseSchema")].
Definition LeaderboardController : Controller := controller "LeaderboardController" "leaderboard" [] [
  route GET "" [] 200 "getLeaderboard" None (ATypedList "LeaderboardEntrySchema");
  route POST "rebuild" [GAuth; GAdmin] 202 "rebuild" None (AOther "status");
  route GET "ranges" [] 200 "getRanges" None (ATyped "LeaderboardRangesResponseSchema");
  route GET "modes" [] 200 "getModes" None (ATyped "LeaderboardModesResponseSchema")].
Definition BroadcastsController : Controller := controller "BroadcastsController" "admin/broadcasts" [GAuth; GAdmin] [
  route GET "" [] 200 "list" None (AShape "BroadcastsResponseSchema");
  route POST "" [] 201 "send" (Some "SendBroadcastRequestSchema") (AShape "BroadcastSchema")].
Definition BroadcastMetadataController : Controller := controller "BroadcastMetadataController" "" [] [
  route GET "broadcast/templates" [] 200 "templates" None (AShape "BroadcastTemplatesResponseSchema");
  route GET "broadcasts/types" [] 200 "types" None (AShape "BroadcastTypesResponseSchema")].
Definition MonitoringController : Controller := controller "MonitoringController" "monitoring" [] [
  route POST "" [] 202 "record" (Some "WebVitalMetricSchema") (AShape "MonitoringAcceptedResponseSchema")].
Definition AdminNavController : Controller := controller "AdminNavController" "admin/nav" [GAuth; GAdmin] [
  route GET "" [] 200 "list" None (AShape "NavItemsResponseSchema");
  route POST "" [] 200 "create" (Some "NavItemRequestSchema") (AShape "NavItemSchema");
  route PUT ":flag" [] 200 "update" (Some "NavItemRequestSchema") (AShape "NavItemSchema");
  route DELETE ":flag" [] 204 "remove" None AVoid].
Definition NavController : Controller := controller "NavController" "nav-items" [] [
  route GET "" [] 200 "list" None (AShape "NavItemsResponseSchema")].
Definition NotificationsController : Controller := controller "NotificationsController" "notifications" [GAuth] [
  route GET "" [] 200 "getAll" None (AShape "NotificationsResponseSchema");
  route GET "filters" [] 200 "getFilters" None (AShape "NotificationFiltersResponseSchema");
  route GET "unread" [] 200 "getUnread" None (ATyped "UnreadCountResponseSchema");
  route POST "mark-all" [] 201 "markAll" None (ATyped "StatusResponseSchema");
  route POST ":id" [] 201 "markOne" None (ATyped "StatusResponseSchema")].
Definition AdminBalanceController : Controller := controller "AdminBalanceController" "admin/balance" [GAuth; GAdmin] [
  route POST ":userId" [] 200 "adjust" (Some "AdminBalanceRequestSchema") (AShape "MessageResponseSchema")].
Definition AdminBlockedCountriesController : Controller := controller "AdminBlockedCountriesController" "admin/blocked-countries" [GAuth; GAdmin] [
  route GET "" [] 200 "list" None (AShape "BlockedCountriesResponseSchema");
  route POST "" [] 200 "create" (Some "BlockedCountrySchema") (AShape "BlockedCountrySchema");
  route PUT ":country" [] 200 "update" (Some "BlockedCountrySchema") (AShape "BlockedCountrySchema");
  route DELETE ":country" [] 204 "remove" None AVoid].
Definition AdminBonusController : Controller := controller "AdminBonusController" "admin/bonus" [GAuth; GAdmin] [
  route GET "options" [] 200 "options" None (AShape "BonusOptionsResponseSchema");
  route GET "defaults" [] 200 "defaults" None (AShape "BonusDefaultsResponseSchema");
  route GET "stats" [] 200 "stats" None (AShape "BonusStatsResponseSchema");
  route POST "defaults" [] 201 "create" (Some "BonusDefaultsRequestSchema") (AShape "BonusDefaultsResponseSchema");
  route PUT "defaults" [] 200 "update" (Some "BonusDefaultsRequestSchema") (AShape "BonusDefaultsResponseSchema");
  route DELETE "defaults" [] 200 "remove" None (AShape "MessageResponseSchema")].
Definition AdminBonusesController : Controller := controller "AdminBonusesController" "admin/bonuses" [GAuth; GAdmin] [
  route GET "" [] 200 "list" None (AShape "BonusesResponseSchema");
  route POST "" [] 201 "create" (Some "BonusCreateRequestSchema") (AShape "BonusSchema");
  route PUT ":id" [] 200 "update" (Some "BonusUpdateRequestSchema") (AShape "BonusSchema");
  route DELETE ":id" [] 200 "remove" None (AShape "MessageResponseSchema")].
Definition AdminMessagesController : Controller := controller "AdminMessagesController" "admin/messages" [GAuth; GAdmin] [
  route GET "" [] 200 "list" None (AShape "AdminMessagesResponseSchema");
  route POST ":id/reply" [] 200 "reply" (Some "ReplyMessageRequestSchema") (AShape "MessageResponseSchema");
  route POST ":id/read" [] 200 "markRead" None (AShape "AdminMessageSchema")].
Definition AdminNavIconsController : Controller := controller "AdminNavIconsController" "admin/nav-icons" [GAuth; GAdmin] [
  route GET "" [] 200 "list" None (AShape "NavIconsResponseSchema");
  route POST "" [] 200 "create" (Some "NavIconSchema") (AShape "NavIconSchema");
  route PUT ":name" [] 200 "update" (Some "NavIconSchema") (AShape "NavIconSchema");
  route DELETE ":name" [] 204 "remove" None AVoid].
Definition AdminTournamentsController : Controller := controller "AdminTournamentsController" "admin/tournaments" [GAuth; GAdmin] [
  route GET "filters" [] 200 "filters" None (AShape "AdminTournamentFiltersResponseSchema");
  route GET "formats" [] 200 "formats" None (AShape "TournamentFormatsResponseSchema");
  route GET "defaults" [] 200 "defaults" None (AShape "AdminTournamentSchema");
  route POST "simulate" [] 200 "simulate" (Some "TournamentSimulateRequestSchema") (ATyped "TournamentSimulateResponseSchema")].
Definition AdminUsersController : Controller := controller "AdminUsersController" "admin/users" [GAuth; GAdmin] [
  route GET "meta" [] 200 "meta" None (AShape "UserMetaResponseSchema");
  route POST "" [] 201 "create" (Some "CreateUserSchema") (AShape "DashboardUserSchema");
  route GET "" [] 200 "list" None (AShape "DashboardUserListSchema");
  route GET "players" [] 200 "listPlayers" None (AListOf "AdminPlayerSchema")].
Definition AdminController : Controller := controller "AdminController" "admin" [GAuth; GAdmin] [
  route GET "kyc/:id/denial" [] 200 "getKycDenial" None (AShape "KycDenialResponseSchema");
  route GET "audit-logs" [] 200 "auditLogs" None (AShape "AuditLogsResponseSchema");
  route POST "audit-logs/:id/review" [] 200 "reviewAuditLog" None (AShape "AuditLogEntrySchema");
  route GET "audit/log-types" [] 200 "auditLogTypes" None (AShape "AuditLogTypesResponseSchema");
  route GET "log-types" [] 200 "auditLogTypeClasses" None (AShape "LogTypeClassesSchema");
  route GET "security-alerts" [] 200 "securityAlerts" None (AListOf "AlertItemSchema");
  route POST "security-alerts/:id/ack" [] 200 "acknowledgeSecurityAlert" None (AShape "AlertItemSchema");
  route GET "events" [] 200 "events" None (AShape "AdminEventsResponseSchema");
  route POST "events/:id/ack" [] 200 "acknowledgeAdminEvent" None (AShape "MessageResponseSchema");
  route GET "tabs" [] 200 "getTabs" None (AShape "AdminTabResponseSchema");
  route GET "tabs/:id" [] 200 "getTabMeta" None (AShape "AdminTabMetaSchema");
  route POST "tabs" [] 200 "createTab" (Some "AdminTabCreateRequestSchema") (AShape "AdminTabSchema");
  route PATCH "tabs/:id" [] 200 "updateTab" (Some "AdminTabUpdateRequestSchema") (AShape "AdminTabSchema");
  route DELETE "tabs/:id" [] 204 "deleteTab" None AVoid;
  route GET "revenue-breakdown" [] 200 "revenueBreakdown" None (AShape "RevenueBreakdownSchema");
  route GET "wallet/reconcile/mismatches" [] 200 "walletReconcileMismatches" None (AShape "WalletReconcileMismatchesResponseSchema");
  route POST "wallet/reconcile/mismatches/:account/ack" [] 200 "acknowledgeWalletMismatch" None (AShape "WalletReconcileMismatchAcknowledgementSchema")].
Definition BankReconciliationController : Controller := controller "BankReconciliationController" "admin/deposits" [GAuth; GAdmin] [
  route POST "reconcile" [] 200 "reconcile" (Some "file or BankReconciliationRequestSchema") (AShape "MessageResponseSchema")].
Definition ConfigController : Controller := controller "ConfigController" "config" [] [
  route GET "chips" [] 200 "listChips" None (ATyped "ChipDenominationsResponseSchema");
  route PUT "chips" [GAuth; GAdmin] 200 "updateChips" (Some "ChipDenominationsResponseSchema") (ATyped "ChipDenominationsResponseSchema");
  route GET "table-theme" [] 200 "getTableTheme" None (ATyped "TableThemeResponseSchema");
  route PUT "table-theme" [GAuth; GAdmin] 200 "updateTableTheme" (Some "TableThemeResponseSchema") (ATyped "TableThemeResponseSchema");
  route GET "default-avatar" [] 200 "getDefaultAvatar" None (ATyped "DefaultAvatarResponseSchema");
  route PUT "default-avatar" [GAuth; GAdmin] 200 "updateDefaultAvatar" (Some "DefaultAvatarResponseSchema") (ATyped "DefaultAvatarResponseSchema");
  route GET "performance-thresholds" [] 200 "getPerformanceThresholds" None (AShape "PerformanceThresholdsResponseSchema");
  route PUT "performance-thresholds" [GAuth; GAdmin] 200 "updatePerformanceThresholds" (Some "PerformanceThresholdsResponseSchema") (AShape "PerformanceThresholdsResponseSchema")].
Definition CtasController : Controller := controller "CtasController" "ctas" [] [
  route GET "" [] 200 "getCtas" None (AShape "CTAsResponseSchema");
  route POST "" [GAuth; GAdmin] 200 "createCta" (Some "CTASchema") (AShape "CTASchema");
  route PUT ":id" [GAuth; GAdmin] 200 "updateCta" (Some "CTASchema") (AShape "CTASchema")].
Definition DashboardController : Controller := controller "DashboardController" "dashboard" [GAuth; GAdmin] [
  route GET "metrics" [] 200 "metrics" None (AShape "DashboardMetricsSchema")].
Definition HistoryTabsController : Controller := controller "HistoryTabsController" "history-tabs" [] [
  route GET "" [] 200 "list" None (AShape "HistoryTabsResponseSchema")].
Definition LanguagesController : Controller := controller "LanguagesController" "languages" [] [
  route GET "" [] 200 "list" None (AShape "LanguagesResponseSchema")].
Definition MeController : Controller := controller "MeController" "" [GAuth] [
  route GET "me" [] 200 "getMe" None (AShape "MeResponseSchema")].
Definition MetadataController : Controller := controller "MetadataController" "site-metadata" [] [
  route GET "" [] 200 "get" None (AShape "SiteMetadataResponseSchema")].
Definition PrecacheController : Controller := controller "PrecacheController" "precache-manifest" [] [
  route GET "" [] 200 "list" None (AShape "PrecacheListResponseSchema")].
Definition ProfileController : Controller := controller "ProfileController" "user/profile" [GAuth] [
  route GET "" [] 200 "getProfile" None (AShape "UserProfileSchema");
  route GET "stats" [] 200 "getStats" None (AShape "ProfileStatsResponseSchema")].
Definition PromotionsController : Controller := controller "PromotionsController" "promotions" [] [
  route GET "" [] 200 "getPromotions" None (AShape "PromotionsResponseSchema");
  route GET ":id" [] 200 "getPromotion" None (AShape "PromotionSchema");
  route POST ":id/claim" [GAuth] 200 "claimPromotion" None (AShape "MessageResponseSchema")].
Definition SettingsController : Controller := controller "SettingsController" "settings" [] [
  route GET "chart-palette" [] 200 "getChartPalette" None (AShape "ChartPaletteResponseSchema");
  route PUT "chart-palette" [GAuth; GAdmin] 200 "updateChartPalette" (Some "ChartPaletteResponseSchema") (ATyped "ChartPaletteResponseSchema")].
Definition TablesController : Controller := controller "TablesController" "tables" [] [
  route GET "" [] 200 "list" None (AShape "TableListSchema");
  route GET "sessions" [GAuth] 200 "listSessions" None (AShape "TableListSchema");
  route GET ":id" [] 200 "get" None (AShape "TableDataSchema");
  route GET ":id/state" [] 200 "getState" None (AShape "TableStateSchema");
  route GET ":id/tabs" [] 200 "getTabs" None (AShape "TableTabsResponseSchema");
  route POST "" [GAuth; GAdmin] 201 "create" (Some "CreateTableSchema") (AShape "TableSchema");
  route PUT ":id" [GAuth; GAdmin] 200 "update" (Some "UpdateTableSchema") (AShape "TableSchema");
  route DELETE ":id" [GAuth; GAdmin] 204 "remove" None AVoid;
  route GET ":id/chat" [] 200 "getChat" None (AShape "ChatMessagesSchema");
  route POST ":id/chat" [GAuth] 204 "sendChat" (Some "SendChatMessageRequestSchema") AVoid].
Definition TiersController : Controller := controller "TiersController" "tiers" [] [
  route GET "" [] 200 "getTiers" None (AShape "TiersSchema")].
Definition TransactionsController : Controller := controller "TransactionsController" "" [GAuth] [
  route GET "admin/transactions/tabs" [GAdmin] 200 "tabs" None (AShape "TransactionTabsResponseSchema");
  route GET "transactions/filters" [GAdmin] 200 "filters" None (AShape "FilterOptionsSchema");
  route GET "transactions/types" [GAdmin] 200 "types" None (AShape "TransactionTypesResponseSchema");
  route GET "transactions/statuses" [] 200 "statuses" None (AShape "TransactionStatusesResponseSchema");
  route GET "transactions/columns" [] 200 "columns" None (AShape "TransactionColumnsResponseSchema");
  route PUT "admin/transactions/columns" [GAdmin] 200 "updateColumns" (Some "TransactionColumnsUpdateSchema") (AShape "TransactionColumnsResponseSchema");
  route GET "admin/transactions" [GAdmin] 200 "list" None (AShape "TransactionLogResponseSchema");
  route GET "users/:id/transactions" [GAdmin] 200 "userTransactions" None (AShape "AdminTransactionEntriesSchema")].
Definition TranslationsController : Controller := controller "TranslationsController" "translations" [] [
  route GET ":locale" [] 200 "get" None (AShape "TranslationsResponseSchema")].
Definition UsersController : Controller := controller "UsersController" "users" [GAuth] [
  route POST "" [GAdmin] 201 "create" (Some "CreateUserSchema") (AShape "UserSchema");
  route GET ":id" [GSelf] 200 "findById" None (AShape "UserSchema");
  route PUT ":id" [GSelf] 200 "update" (Some "UpdateUserSchema") (AShape "UserSchema");
  route POST ":id/ban" [GAdmin] 200 "ban" (Some "BanUserSchema") (AShape "UserSchema")].
Definition WalletIbanController : Controller := controller "WalletIbanController" "wallet/iban" [GAuth; GRate] [
  route GET "" [] 200 "getIban" None (AShape "IbanResponseSchema");
  route GET "history" [] 200 "getHistory" None (AShape "IbanHistoryResponseSchema");
  route POST "" [] 200 "update" (Some "IbanUpdateRequestSchema") (AShape "IbanResponseSchema")].
Definition WalletController : Controller := controller "WalletController" "wallet" [GAuth; GRate; GSelf] [
  route POST ":id/reserve" [] 201 "reserve" (Some "TxSchema") (AShape "MessageResponseSchema");
  route POST ":id/commit" [] 201 "commit" (Some "TxSchema") (AShape "MessageResponseSchema");
  route POST ":id/rollback" [] 201 "rollback" (Some "TxSchema") (AShape "MessageResponseSchema");
  route POST ":id/withdraw" [] 201 "withdraw" (Some "WithdrawSchema") (AShape "MessageResponseSchema");
  route POST ":id/deposit" [] 201 "deposit" (Some "DepositSchema") (AOther "challenge");
  route POST ":id/deposit/bank-transfer" [] 201 "bankTransfer" (Some "BankTransferDepositRequestSchema") (AShape "BankTransferDepositResponseSchema");
  route DELETE ":id/deposit/:depositId" [] 200 "cancelDeposit" None (AShape "MessageResponseSchema");
  route POST ":id/kyc" [] 201 "verify" None (AShape "MessageResponseSchema");
  route GET ":id/status" [] 200 "status" None (AShape "WalletStatusSchema");
  route GET ":id/transactions" [] 200 "transactions" None (AShape "WalletTransactionsResponseSchema");
  route GET ":id/pending" [] 200 "pending" None (AShape "PendingTransactionsResponseSchema")].
Definition TournamentController : Controller := controller "TournamentController" "tournaments" [GRate] [
  route GET "" [] 200 "list" None (AOther "rows of the table");
  route GET "bot-profiles" [] 200 "botProfiles" None (AShape "BotProfilesResponseSchema");
  route GET "filters" [] 200 "filters" None (AShape "TournamentFiltersResponseSchema");
  route GET ":id" [] 200 "get" None (AOther "details");
  route POST ":id/register" [GAuth] 201 "register" None (AOther "seat");
  route POST ":id/withdraw" [GAuth] 200 "withdraw" None (AShape "MessageResponseSchema");
  route POST ":id/cancel" [GAuth; GAdmin] 200 "cancel" None (AShape "MessageResponseSchema");
  route POST ":id/prizes" [GAuth] 201 "calculatePrizes" (Some "CalculatePrizesRequest") (ATyped "CalculatePrizesResponseSchema");
  route POST ":id/levels/hot-patch" [GAuth; GAdmin] 201 "hotPatchLevel" (Some "HotPatchLevelRequest") AVoid;
  route POST ":id/schedule" [GAuth; GAdmin] 200 "schedule" (Some "ScheduleTournamentRequest") (AShape "MessageResponseSchema")].
Definition WebhookController : Controller := controller "WebhookController" "wallet/provider" [] [
  route POST "callback" [] 201 "callback" (Some "ProviderCallback") (AShape "MessageResponseSchema")].
Definition WithdrawalsController : Controller := controller "WithdrawalsController" "withdrawals" [GAdmin] [
  route POST ":user/approve" [] 200 "approve" (Some "WithdrawalDecisionRequestSchema") (AShape "MessageResponseSchema");
  route POST ":user/reject" [] 200 "reject" (Some "WithdrawalDecisionRequestSchema") (AShape "MessageResponseSchema")].
Definition NavIconsController : Controller := controller "NavIconsController" "nav-icons" [] [
  route GET "" [] 200 "list" None (AShape "NavIconsResponseSchema")].
Definition GameTypesController : Controller := controller "GameTypesController" "game-types" [] [
  route GET "" [] 200 "list" None (AShape "GameTypeListSchema")].

(** [AdminPendingTransactionsController] of a path and its schemas. *)
Definition AdminPendingTransactionsController (name path response request : string) : Controller :=
  controller name path [GAuth; GAdmin] [
  route GET "" [] 200 "list" None (AShape response);
  route POST ":id/confirm" [] 201 "confirm" None (AShape "MessageResponseSchema");
  route POST ":id/reject" [] 201 "reject" (Some request) (AShape "MessageResponseSchema")].
Definition AdminDepositsController : Controller := AdminPendingTransactionsController
  "AdminDepositsController" "admin/deposits" "PendingDepositsResponseSchema" "DepositDecisionRequestSchema".
Definition AdminWithdrawalsController : Controller := AdminPendingTransactionsController
  "AdminWithdrawalsController" "admin/withdrawals" "PendingWithdrawalsResponseSchema" "WithdrawalDecisionRequestSchema".

Definition controllers : list Controller := [
  AnalyticsController; CollusionController; ReviewController; AppController; AuthController;
  FeatureFlagsController; HandController; HistoryController; AdminLeaderboardConfigController;
  LeaderboardController; BroadcastsController; BroadcastMetadataController; MonitoringController;
  AdminNavController; NavController; NotificationsController; AdminBalanceController;
  AdminBlockedCountriesController; AdminBonusController; AdminBonusesController; AdminMessagesController;
  AdminNavIconsController; AdminTournamentsController; AdminUsersController; AdminController;
  BankReconciliationController; ConfigController; CtasController; DashboardController; HistoryTabsController;
  LanguagesController; MeController; MetadataController; PrecacheController; ProfileController;
  PromotionsController; SettingsController; TablesController; TiersController; TransactionsController;
  TranslationsController; UsersController; WalletIbanController; WalletController; TournamentController;
  WebhookController; WithdrawalsController; NavIconsController; GameTypesController; AdminDepositsController;
  AdminWithdrawalsController].
(** ** Requests *)

(** [decode] is the router's reading of a part of the path, which may be refused. *)
Record HttpCall := {
  hc_method : Method; hc_path : string; hc_header : option string; hc_now : Z; hc_throttled : bool }.

Fixpoint fits (p : list Segment) (parts : list string) : bool :=
  match p, parts with
  | [], [] => true
  | Lit l :: p, s :: parts => String.eqb l (to_lower s) && fits p parts
  | Param _ :: p, s :: parts => negb (String.eqb s "") && fits p parts
  | _, _ => false
  end.
Definition accepts (m : Method) (parts : list string) (r : Route) : bool :=
  bool_decide (m = rt_method r) && fits (rt_path r) parts.
(** The parts of a path, without its query; one slash at the end does not count. *)
Definition drop_end (parts : list string) : list string :=
  match last parts with Some "" => take (length parts - 1) parts | _ => parts end.
Definition parts_of (path : string) : list string :=
  match js_split "/" (default "" (head (js_split "?" path))) with
  | "" :: parts => drop_end parts
  | _ => [""]
  end.
Fixpoint params_of (decode : string → option string) (p : list Segment) (parts : list string)
    : option (list (string * string)) :=
  match p, parts with
  | Param x :: p, s :: parts => v ← decode s; vs ← params_of decode p parts; Some ((x, v) :: vs)
  | Lit _ :: p, _ :: parts => params_of decode p parts
  | _, _ => Some []
  end.

(** What the router promises. *)
Class Router := route_of : list Route → Method → list string → option Route.
Class RouterLaws `{!Router} := route_of_first rs m parts :
  match route_of rs m parts with
  | Some r => ∃ l1 l2, rs = l1 ++ r :: l2 ∧ accepts m parts r = true ∧ Forall (λ x, accepts m parts x = false) l1
  | None => Forall (λ x, accepts m parts x = false) rs
  end.
#[export] Instance first_router : Router := λ rs m parts, find (accepts m parts) rs.
#[export] Instance first_router_laws : @RouterLaws first_router.
Proof.
  intros rs m parts. unfold route_of, first_router. induction rs as [|x rs IH]; [constructor|]. cbn [find].
  destruct (accepts m parts x) eqn:E; [by exists [], rs|].
  destruct (find _ rs) as [r|]; [|by constructor]. destruct IH as (l1 & l2 & -> & Hr & Hl).
  exists (x :: l1), l2. split; [done|]. split; [done|]. by constructor.
Qed.

(** No route, a refusal of the router or of a guard, or a handler and who asks. *)
Inductive Served := NotFound | Refused (e : string) | Reached (r : Route) (userId : option string).

Section Serving.
Context (C : Crypto) (cfg : AuthConfig) (decode : string → option string) `{!Router}.

Fixpoint run_guards (gs : list Guard) (req : HttpCall) (params : list (string * string)) (userId : option string)
    : outcome (option string) :=
  match gs with
  | [] => Ret userId
  | GAuth :: gs => u ← auth_guard C cfg (hc_header req) (hc_now req); run_guards gs req params (Some u)
  | GAdmin :: gs => u ← admin_guard C cfg (hc_header req) (hc_now req); run_guards gs req params (Some u)
  | GRate :: gs => if hc_throttled req then Throw "Too Many Requests" else run_guards gs req params userId
  | GSelf :: gs =>
      match userId, snd <$> find (λ p, String.eqb p.1 "id") params with
      | Some u, Some id => self_guard u id ;; run_guards gs req params userId
      | None, None => run_guards gs req params userId
      | _, _ => Throw "Forbidden"
      end
  end.
Definition routes_of (cs : list Controller) : list Route := concat (ct_routes <$> cs).
Definition dispatch (cs : list Controller) (req : HttpCall) : Served :=
  let parts := parts_of (hc_path req) in
  match route_of (routes_of cs) (hc_method req) parts with
  | None => NotFound
  | Some r =>
      match params_of decode (rt_path r) parts with
      | None => Refused "Bad Request"
      | Some params =>
          match run_guards (rt_guards r) req params None with
          | Throw e => Refused e
          | Ret userId => Reached r userId
          end
      end
  end.
End Serving.

(** ** The order of the modules *)

Section Order.
Context `{HR : Router} {HL : RouterLaws}.

Lemma route_of_find rs m parts : route_of rs m parts = find (accepts m parts) rs.
Proof.
  pose proof (route_of_first rs m parts) as H. destruct (route_of rs m parts) as [r|].
  - destruct H as (l1 & l2 & -> & Hr & Hl). induction Hl as [|x l1 Hx Hl IH]; cbn; [by rewrite Hr|by rewrite Hx].
  - induction H as [|x rs Hx H IH]; [done|]. cbn. by rewrite Hx.
Qed.
End Order.

(** May one path fit both patterns? *)
Fixpoint compatible (p q : list Segment) : bool :=
  match p, q with
  | [], [] => true
  | Lit a :: p, Lit b :: q => String.eqb a b && compatible p q
  | _ :: p, _ :: q => compatible p q
  | _, _ => false
  end.
Definition clash (r s : Route) : bool := bool_decide (rt_method r = rt_method s) && compatible (rt_path r) (rt_path s).
Definition apart (c d : Controller) : bool :=
  forallb (λ r, forallb (λ s, negb (clash r s)) (ct_routes d)) (ct_routes c).

Lemma fits_compatible p q parts : fits p parts = true → fits q parts = true → compatible p q = true.
Proof.
  revert q parts. induction p as [|[a|x] p IH]; intros [|[b|y] q] [|s parts]; cbn [fits compatible]; try done.
  - intros [Ha Hp]%andb_prop [Hb Hq]%andb_prop. apply String.eqb_eq in Ha, Hb. subst a b.
    rewrite String.eqb_refl. exact (IH _ _ Hp Hq).
  - intros [_ Hp]%andb_prop [_ Hq]%andb_prop. exact (IH _ _ Hp Hq).
  - intros [_ Hp]%andb_prop [_ Hq]%andb_prop. exact (IH _ _ Hp Hq).
  - intros [_ Hp]%andb_prop [_ Hq]%andb_prop. exact (IH _ _ Hp Hq).
Qed.
Lemma accepts_clash m parts r s : accepts m parts r = true → accepts m parts s = true → clash r s = true.
Proof.
  intros [Hm Hf]%andb_prop [Hm' Hf']%andb_prop. apply bool_decide_eq_true in Hm, Hm'. unfold clash.
  rewrite bool_decide_true by congruence. exact (fits_compatible _ _ _ Hf Hf').
Qed.
Lemma find_accepts m parts rs r : find (accepts m parts) rs = Some r → r ∈ rs ∧ accepts m parts r = true.
Proof. intros [H ?]%find_some. split; [by apply list_elem_of_In|done]. Qed.
Lemma apart_finds c d m parts r s :
  apart c d = true → find (accepts m parts) (ct_routes c) = Some r → find (accepts m parts) (ct_routes d) = Some s → False.
Proof.
  intros Ha [Hr Ar]%find_accepts [Hs As]%find_accepts. unfold apart in Ha. rewrite forallb_forall in Ha.
  specialize (Ha r (proj1 (list_elem_of_In _ _) Hr)). rewrite forallb_forall in Ha.
  specialize (Ha s (proj1 (list_elem_of_In _ _) Hs)). by rewrite (accepts_clash m parts) in Ha.
Qed.

Fixpoint separated (cs : list Controller) : bool :=
  match cs with
  | [] => true
  | c :: cs => forallb (λ d, apart c d && apart d c) cs && separated cs
  end.
Lemma find_app {A} (f : A → bool) l1 l2 : find f (l1 ++ l2) = match find f l1 with Some x => Some x | None => find f l2 end.
Proof. induction l1 as [|x l1 IH]; cbn; [done|]. by destruct (f x). Qed.
Lemma forallb_permuted {A} (f : A → bool) l l' : l ≡ₚ l' → forallb f l = forallb f l'.
Proof.
  induction 1 as [|x l l' _ IH|x y l|l1 l2 l3 _ IH1 _ IH2]; cbn; [done|by rewrite IH|by destruct (f x), (f y)|congruence].
Qed.
Lemma separated_permuted cs ds : cs ≡ₚ ds → separated cs = true → separated ds = true.
Proof.
  induction 1 as [|x l l' Hp IH|x y l|l1 l2 l3 _ IH1 _ IH2]; cbn; [done| | |tauto].
  - intros [H1 H2]%andb_prop. by rewrite <-(forallb_permuted _ _ _ Hp), H1, IH.
  - intros [[[H1 H1']%andb_prop H2]%andb_prop [H3 H4]%andb_prop]%andb_prop. by rewrite H1, H1', H2, H3, H4.
Qed.
Lemma find_permuted m parts cs ds : cs ≡ₚ ds → separated cs = true →
  find (accepts m parts) (routes_of cs) = find (accepts m parts) (routes_of ds).
Proof.
  induction 1 as [|x l l' Hp IH|x y l|l1 l2 l3 H1 IH1 H2 IH2]; [done| | |].
  - cbn. intros [_ Hs]%andb_prop. unfold routes_of in *. cbn. by rewrite !find_app, IH.
  - cbn. intros [[[Ha _]%andb_prop _]%andb_prop _]%andb_prop. unfold routes_of. cbn. rewrite !find_app.
    destruct (find _ (ct_routes x)) eqn:Ex, (find _ (ct_routes y)) eqn:Ey; try done.
    by destruct (apart_finds _ _ _ _ _ _ Ha Ey Ex).
  - intros Hs. rewrite IH1 by done. apply IH2. exact (separated_permuted _ _ H1 Hs).
Qed.

Lemma controllers_separated : separated controllers = true.
Proof. vm_compute. reflexivity. Qed.

(** ** What the guards let through *)

Section Rights.
Context (C : Crypto) (cfg : AuthConfig) (decode : string → option string).
Abbreviation is_user req x := (auth_guard C cfg (hc_header req) (hc_now req) = Ret x).
Abbreviation is_admin req x := (admin_guard C cfg (hc_header req) (hc_now req) = Ret x).

(** The guard that names who asks: the last one does. *)
Definition asker (gs : list Guard) : option Guard :=
  foldl (λ a g, match g with GAuth | GAdmin => Some g | _ => a end) None gs.
Definition named (req : HttpCall) (a : option Guard) (u : option string) : Prop :=
  match a with
  | Some GAdmin => ∃ x, is_admin req x ∧ u = Some x
  | Some GAuth => ∃ x, is_user req x ∧ u = Some x
  | _ => u = None
  end.

Lemma run_named gs req ps a u0 u : named req a u0 → run_guards C cfg gs req ps u0 = Ret u →
  named req (foldl (λ a g, match g with GAuth | GAdmin => Some g | _ => a end) a gs) u.
Proof.
  revert a u0. induction gs as [|[] gs IH]; intros a u0 H0; cbn [run_guards foldl].
  - by intros [= <-].
  - destruct (auth_guard _ _ _ _) as [x|] eqn:E; [|done]. cbn. apply IH. by exists x.
  - destruct (admin_guard _ _ _ _) as [x|] eqn:E; [|done]. cbn. apply IH. by exists x.
  - destruct u0 as [x|], (snd <$> _) as [i|]; try done; [|by apply IH].
    destruct (self_guard x i); [|done]. cbn. by apply IH.
  - destruct (hc_throttled req); [done|]. by apply IH.
Qed.
Lemma run_asker gs req ps u : run_guards C cfg gs req ps None = Ret u → named req (asker gs) u.
Proof. intros H. exact (run_named gs req ps None None u eq_refl H). Qed.

(** Whoever passes the guard of the owner is the one the path names. *)
Lemma run_self gs req ps u0 u : run_guards C cfg (gs ++ [GSelf]) req ps u0 = Ret u →
  u = snd <$> find (λ p, String.eqb p.1 "id") ps.
Proof.
  revert u0. induction gs as [|[] gs IH]; intros u0; cbn [app run_guards].
  - destruct u0 as [x|], (snd <$> _) as [i|]; try done; [|by intros [= <-]].
    unfold self_guard. case_bool_decide as E; [|done]. subst i. by intros [= <-].
  - destruct (auth_guard _ _ _ _) as [x|]; [|done]. apply IH.
  - destruct (admin_guard _ _ _ _) as [x|]; [|done]. apply IH.
  - destruct u0 as [x|], (snd <$> _) as [i|]; try done; [|by apply IH].
    destruct (self_guard x i); [|done]. cbn. by apply IH.
  - destruct (hc_throttled req); [done|]. by apply IH.
Qed.

(** *** The rights of the table *)

(** The parts of the interface that are for admins. *)
Definition admin_areas : list string := ["admin"; "analytics"; "dashboard"; "feature-flags"; "withdrawals"].
(** The handlers that change something for anybody. *)
Definition open_handlers : list string := [
  "AuthController.login"; "AuthController.register"; "AuthController.refresh"; "AuthController.logout";
  "AuthController.requestReset"; "AuthController.verifyResetCode"; "AuthController.resetPassword";
  "MonitoringController.record"; "WebhookController.callback"].
Definition needs_admin (r : Route) : bool :=
  match rt_path r with
  | [] | [_] => true
  | Lit _ :: Lit a :: _ => implb (existsb (String.eqb a) admin_areas) (bool_decide (asker (rt_guards r) = Some GAdmin))
  | _ => false
  end.
Definition needs_login (r : Route) : bool :=
  bool_decide (rt_method r = GET) || existsb (String.eqb (rt_handler r)) open_handlers
  || match asker (rt_guards r) with Some GAuth | Some GAdmin => true | _ => false end.
(** A path of wallet/:id, and the guard of the owner as the last one. *)
Definition needs_owner (r : Route) : bool :=
  match rt_path r with
  | Lit _ :: Lit "wallet" :: Lit i :: _ => existsb (String.eqb i) ["iban"; "provider"]
  | Lit _ :: Lit "wallet" :: Param x :: p =>
      String.eqb x "id" && bool_decide (rt_guards r = [GAuth; GRate; GSelf])
  | _ => true
  end.
Lemma table_rights : forallb (λ r, needs_admin r && needs_login r && needs_owner r) (routes_of controllers) = true.
Proof. vm_compute. reflexivity. Qed.

Lemma served_by `{HR : Router} {HL : RouterLaws} cs req r u : cs ≡ₚ controllers → dispatch C cfg decode cs req = Reached r u →
  let parts := parts_of (hc_path req) in
  find (accepts (hc_method req) parts) (routes_of controllers) = Some r
  ∧ ∃ ps, params_of decode (rt_path r) parts = Some ps ∧ run_guards C cfg (rt_guards r) req ps None = Ret u.
Proof.
  intros Hp. unfold dispatch. rewrite route_of_find.
  rewrite <-(find_permuted _ _ controllers cs) by (done || apply controllers_separated).
  destruct (find _ _) as [r'|] eqn:E; [|done]. destruct (params_of _ _ _) as [ps|] eqn:Eps; [|done].
  destruct (run_guards _ _ _ _ _ _) as [v|] eqn:Er; [|done]. intros [= <- <-]. split; [done|]. by exists ps.
Qed.

Lemma found_rights m parts r : find (accepts m parts) (routes_of controllers) = Some r →
  rt_method r = m ∧ fits (rt_path r) parts = true
  ∧ needs_admin r = true ∧ needs_login r = true ∧ needs_owner r = true.
Proof.
  intros [Hr Ha]%find_accepts. pose proof table_rights as H. rewrite forallb_forall in H.
  specialize (H r (proj1 (list_elem_of_In _ _) Hr)). apply andb_prop in H as [[H1 H2]%andb_prop H3].
  apply andb_prop in Ha as [Hm Hf]. by apply bool_decide_eq_true in Hm.
Qed.
Lemma fits_lit l p parts : fits (Lit l :: p) parts = true →
  ∃ s rest, parts = s :: rest ∧ to_lower s = l ∧ fits p rest = true.
Proof.
  destruct parts as [|s rest]; [done|]. cbn [fits]. intros [H1 H2]%andb_prop. apply String.eqb_eq in H1. eauto.
Qed.
Lemma mem_eqb s (l : list string) : existsb (String.eqb s) l = true ↔ s ∈ l.
Proof.
  rewrite existsb_exists. setoid_rewrite <-list_elem_of_In. setoid_rewrite String.eqb_eq.
  split; [by intros (x & ? & ->)|by exists s].
Qed.

Lemma admin_asks r parts a rest : needs_admin r = true → fits (rt_path r) parts = true →
  to_lower <$> parts = "api" :: a :: rest → a ∈ admin_areas → asker (rt_guards r) = Some GAdmin.
Proof.
  unfold needs_admin. intros Hn Hf Hp Ha. destruct (rt_path r) as [|[l0|x0] [|[l1|x1] p]] eqn:E; try done.
  - by destruct parts.
  - apply fits_lit in Hf as (s & rest' & -> & _ & Hf). by destruct rest'.
  - apply fits_lit in Hf as (s & rest' & -> & _ & Hf). apply fits_lit in Hf as (s1 & rest'' & -> & <- & Hf).
    injection Hp as _ <- _. apply mem_eqb in Ha. rewrite Ha in Hn. by apply bool_decide_eq_true in Hn.
  - destruct parts as [|? [|]]; [done|done|]. cbn [fits] in Hf. by rewrite andb_false_r in Hf.
Qed.
Lemma owner_asks r a b id rest : needs_admin r = true → needs_owner r = true → fits (rt_path r) (a :: b :: id :: rest) = true →
  to_lower b = "wallet" → to_lower id ∉ ["iban"; "provider"] →
  ∃ l p, rt_path r = Lit l :: Lit "wallet" :: Param "id" :: p ∧ rt_guards r = [GAuth; GRate; GSelf].
Proof.
  unfold needs_admin, needs_owner. intros Hn Ho Hf Hb Hi.
  destruct (rt_path r) as [|[l0|x0] [|[l1|x1] p]] eqn:E; try done.
  - cbn [fits] in Hf. by rewrite andb_false_r in Hf.
  - apply fits_lit in Hf as (? & ? & [= <- <-] & _ & Hf). apply fits_lit in Hf as (? & ? & [= <- <-] & <- & Hf).
    rewrite Hb in *. destruct p as [|[i|x] p]; [done| |].
    + apply fits_lit in Hf as (? & ? & [= <- <-] & <- & _). by apply mem_eqb in Ho.
    + apply andb_prop in Ho as [Hx Hg]. apply String.eqb_eq in Hx as ->. apply bool_decide_eq_true in Hg. eauto.
  - cbn [fits] in Hf. by rewrite andb_false_r in Hf.
Qed.

(** C22: Nobody reaches a handler without the right to it. Whatever the order in which the modules register their
    controllers and whatever the path: under api/admin, analytics, dashboard, feature-flags and
    withdrawals a handler runs for an admin only; a request that may change something runs for a user who is
    logged in, save for the handlers of logging in, of the metrics and of the payment provider; and the
    routes of a wallet run for its owner only. *)
Theorem requests_need_their_right `{HR : Router} {HL : RouterLaws} cs req r u :
  cs ≡ₚ controllers → dispatch C cfg decode cs req = Reached r u →
  let parts := parts_of (hc_path req) in
  (∀ a rest, to_lower <$> parts = "api" :: a :: rest → a ∈ admin_areas → ∃ x, is_admin req x ∧ u = Some x)
  ∧ (hc_method req ≠ GET → rt_handler r ∉ open_handlers → ∃ x, (is_user req x ∨ is_admin req x) ∧ u = Some x)
  ∧ (∀ a b id rest, parts = a :: b :: id :: rest → to_lower b = "wallet" → to_lower id ∉ ["iban"; "provider"] →
       ∃ x, is_user req x ∧ u = Some x ∧ decode id = Some x).
Proof.
  intros Hp Hs. cbv zeta. destruct (served_by cs req r u Hp Hs) as (Hf & ps & Eps & Hg).
  apply found_rights in Hf as (Hm & Hf & Hna & Hnl & Hno). pose proof (run_asker _ _ _ _ Hg) as Hu. split_and!.
  - intros a rest E Ha. by rewrite (admin_asks r _ a rest Hna Hf E Ha) in Hu.
  - intros Hget Hopen. unfold needs_login in Hnl. rewrite Hm, bool_decide_false in Hnl by done.
    destruct (existsb _ open_handlers) eqn:Eo; [by apply mem_eqb in Eo|].
    destruct (asker (rt_guards r)) as [[]|]; try done; destruct Hu as (x & Hx & ->); eauto.
  - intros a b id rest E Hb Hi. rewrite E in *. destruct (owner_asks r a b id rest) as (l & p & Ep & Eg); [done..|].
    rewrite Eg in *. destruct Hu as (x & Hx & ->). exists x. split_and!; [done|done|].
    pose proof (run_self [GAuth; GRate] _ _ _ _ Hg) as Hid. rewrite Ep in Eps. cbn in Eps.
    destruct (decode id) as [v|]; [|done]. cbn in Eps. destruct (params_of _ _ _); [|done]. cbn in Eps.
    injection Eps as <-. cbn in Hid. congruence.
Qed.
End Rights.

(** ** Instances *)

Definition http_req (m : Method) (path : string) (header : option string) : HttpCall :=
  {| hc_method := m; hc_path := path; hc_header := header; hc_now := 999; hc_throttled := false |}.
Definition dispatch0 (m : Method) (path : string) (header : option string) : Served :=
  dispatch crypto0 cfg0 Some controllers (http_req m path header).
Definition reached (s : Served) : option (string * option string) :=
  match s with Reached r u => Some (rt_handler r, u) | _ => None end.

Lemma requests_need_their_right_witness :
  ∃ r, dispatch0 POST "/api/wallet/u1/withdraw" (Some "Bearer Uu1") = Reached r (Some "u1")
       ∧ rt_handler r = "WalletController.withdraw"
       ∧ ∃ x, auth_guard crypto0 cfg0 (Some "Bearer Uu1") 999 = Ret x ∧ Some "u1" = Some x ∧ Some "u1" = Some x.
Proof.
  eexists. split; [vm_compute; reflexivity|]. split; [reflexivity|].
  refine (proj2 (proj2 (requests_need_their_right crypto0 cfg0 Some controllers
    (http_req POST "/api/wallet/u1/withdraw" (Some "Bearer Uu1")) _ (Some "u1") _ _)) "api" "wallet" "u1" ["withdraw"] _ _ _);
    [reflexivity | vm_compute; reflexivity | reflexivity | reflexivity | apply (bool_decide_eq_true_1 (_ ∉ _)); vm_compute; reflexivity].
Defined.

(** Words of a path come before its parameters; the wallet of another, the area of the admins and paths without api
    are out of reach. *)
Example requests_find_their_handler :
  reached (dispatch0 GET "/api/tables/sessions" (Some "Bearer Uu1")) = Some ("TablesController.listSessions", Some "u1")
  ∧ reached (dispatch0 GET "/API/Tables/T1/?x=1" None) = Some ("TablesController.get", None)
  ∧ dispatch0 POST "/api/wallet/u2/withdraw" (Some "Bearer Uu1") = Refused "Forbidden"
  ∧ dispatch0 GET "/api/admin/users" (Some "Bearer Uu1") = Refused "Forbidden"
  ∧ dispatch0 POST "/leaderboard/rebuild?days=30" (Some "Bearer Uu1") = NotFound
  ∧ reached (dispatch0 GET "/status" None) = Some ("AppController.getStatus", None).
Proof. split_and!; vm_compute; reflexivity. Qed.
