(* ===== verification/ApiCalls.v ===== *)
(** * The calls of the pages

    frontend/src/lib/api, one list per file: the method, the path, the body and the schema
    of the answer that each function asks the server with through [apiClient], and what
    becomes of it at the table of [HttpRoutes]. Paths are kept as the templates of the
    source, without the query; schemas are named. Filling a template is done with identifiers of
    letters, digits, - and _, which encodeURIComponent leaves alone. Types of TypeScript
    count as the schema they are inferred from. *)

From S2P Require Import Prelude JsText AuditLog Auth AuthSafety HttpRoutes.
#[local] Open Scope string_scope.
#[local] Open Scope list_scope.
#[local] Open Scope Z_scope.

(** ** Calls *)

(** No body; a value of a schema, or perhaps none; an object with these fields; a value that is
    written as JSON twice; a form. *)
Inductive PageBody :=
| BNone | BValue (schema : string) | BMaybe (schema : string) | BFields (fields : list string) | BTwice (schema : string)
| BForm (field : string).
(** The schema of the answer; [EMissing] is one that its module does not export. *)
Inductive Expects := EShape (schema : string) | EListOf (schema : string) | EVoid | EText | EMissing (schema : string).
#[export] Instance Expects_eq : EqDecision Expects.
Proof. solve_decision. Defined.
Record ApiCall := {
  ac_name : string; ac_method : Method; ac_path : string; ac_body : PageBody; ac_expects : Expects; ac_token : bool }.
Definition call (name : string) (m : Method) (path : string) (body : PageBody) (e : Expects) : ApiCall :=
  {| ac_name := name; ac_method := m; ac_path := path; ac_body := body; ac_expects := e; ac_token := true |}.
(** A call that does not go through the client and shows no token. *)
Definition bare_fetch (name path : string) (e : Expects) : ApiCall :=
  {| ac_name := name; ac_method := GET; ac_path := path; ac_body := BNone; ac_expects := e; ac_token := false |}.

Definition admin_calls : list ApiCall := [
  call "fetchAdminTabs" GET "/api/admin/tabs" BNone (EShape "AdminTabResponseSchema");
  call "createAdminTab" POST "/api/admin/tabs" (BValue "AdminTabCreateRequestSchema") (EShape "AdminTabSchema");
  call "updateAdminTab" PATCH "/api/admin/tabs/${id}" (BValue "AdminTabUpdateRequestSchema") (EShape "AdminTabSchema");
  call "deleteAdminTab" DELETE "/api/admin/tabs/${id}" BNone EVoid;
  call "fetchAdminTabMeta" GET "/api/admin/tabs/${id}" BNone (EShape "AdminTabMetaSchema");
  call "acknowledgeAdminEvent" POST "/api/admin/events/${id}/ack" BNone (EShape "MessageResponseSchema");
  call "fetchDashboardUsers" GET "/api/admin/users" BNone (EListOf "DashboardUserSchema");
  call "fetchUserMeta" GET "/api/admin/users/meta" BNone (EShape "UserMetaResponseSchema");
  call "createAdminUser" POST "/api/admin/users" (BValue "CreateUserSchema") (EShape "DashboardUserSchema");
  call "banUser" POST "/api/users/${id}/ban" (BMaybe "BanUserSchema") (EShape "UserSchema")].
Definition admin_tournament_calls : list ApiCall := [
  call "fetchAdminTournaments" GET "/api/admin/tournaments" BNone (EShape "AdminTournamentListSchema");
  call "createAdminTournament" POST "/api/admin/tournaments" (BValue "AdminTournamentSchema") (EShape "AdminTournamentSchema");
  call "updateAdminTournament" PUT "/api/admin/tournaments/${id}" (BValue "AdminTournamentSchema") (EShape "AdminTournamentSchema");
  call "deleteAdminTournament" DELETE "/api/admin/tournaments/${id}" BNone (EShape "MessageResponseSchema");
  call "fetchAdminTournamentDefaults" GET "/api/admin/tournaments/defaults" BNone (EShape "AdminTournamentSchema");
  call "fetchTournamentFormats" GET "/api/admin/tournaments/formats" BNone (EShape "TournamentFormatsResponseSchema");
  call "fetchAdminTournamentFilters" GET "/api/admin/tournaments/filters" BNone (EShape "AdminTournamentFiltersResponseSchema");
  call "fetchBonusOptions" GET "/api/admin/bonus/options" BNone (EShape "BonusOptionsResponseSchema");
  call "fetchBonuses" GET "/api/admin/bonuses" BNone (EShape "BonusesResponseSchema");
  call "createBonus" POST "/api/admin/bonuses" (BValue "BonusCreateRequestSchema") (EShape "BonusSchema");
  call "updateBonus" PUT "/api/admin/bonuses/${id}" (BValue "BonusUpdateRequestSchema") (EShape "BonusSchema");
  call "deleteBonus" DELETE "/api/admin/bonuses/${id}" BNone (EShape "MessageResponseSchema")].
Definition analytics_calls : list ApiCall := [
  call "fetchLogTypeClasses" GET "/api/analytics/log-types/classes" BNone (EShape "LogTypeClassesSchema");
  call "fetchErrorCategories" GET "/api/analytics/error-categories" BNone (EShape "ErrorCategoriesResponseSchema");
  call "fetchActivity" GET "/api/analytics/activity" BNone (EShape "ActivityResponseSchema");
  call "updateChartPalette" PUT "/api/settings/chart-palette" (BValue "ChartPaletteResponseSchema") (EShape "ChartPaletteResponseSchema");
  call "markAuditLogReviewed" POST "/api/admin/audit-logs/${encodedId}/review" BNone (EShape "AuditLogEntrySchema");
  call "acknowledgeSecurityAlert" POST "/api/admin/security-alerts/${encodedId}/ack" BNone (EShape "AlertItemSchema")].
Definition auth_calls : list ApiCall := [
  call "login" POST "/api/auth/login" (BFields ["email"; "password"]) (EShape "LoginResponseSchema");
  call "logout" POST "/api/auth/logout" BNone (EShape "MessageResponseSchema");
  call "requestPasswordReset" POST "/api/auth/request-reset" (BFields ["email"]) (EShape "MessageResponseSchema");
  call "verifyResetCode" POST "/api/auth/verify-reset-code" (BFields ["email"; "code"]) (EShape "MessageResponseSchema");
  call "resetPassword" POST "/api/auth/reset-password" (BFields ["email"; "code"; "password"]) (EShape "MessageResponseSchema");
  call "fetchAuthProviders" GET "/api/auth/providers" BNone (EShape "AuthProvidersResponseSchema")].
Definition blockedCountries_calls : list ApiCall := [
  call "fetchBlockedCountries" GET "/api/admin/blocked-countries" BNone (EShape "BlockedCountriesResponseSchema");
  call "createBlockedCountry" POST "/api/admin/blocked-countries" (BValue "BlockedCountrySchema") (EShape "BlockedCountrySchema");
  call "updateBlockedCountry" PUT "/api/admin/blocked-countries/${code}" (BValue "BlockedCountrySchema") (EShape "BlockedCountrySchema");
  call "deleteBlockedCountry" DELETE "/api/admin/blocked-countries/${code}" BNone EVoid].
Definition bonus_calls : list ApiCall := [
  call "fetchBonusDefaults" GET "/api/admin/bonus/defaults" BNone (EShape "BonusDefaultsResponseSchema");
  call "fetchBonusStats" GET "/api/admin/bonus/stats" BNone (EShape "BonusStatsResponseSchema");
  call "createBonusDefaults" POST "/api/admin/bonus/defaults" (BValue "BonusDefaultsRequestSchema") (EShape "BonusDefaultsResponseSchema");
  call "updateBonusDefaults" PUT "/api/admin/bonus/defaults" (BValue "BonusDefaultsRequestSchema") (EShape "BonusDefaultsResponseSchema");
  call "deleteBonusDefaults" DELETE "/api/admin/bonus/defaults" BNone (EShape "MessageResponseSchema")].
Definition broadcasts_calls : list ApiCall := [
  call "fetchBroadcasts" GET "/api/admin/broadcasts" BNone (EShape "BroadcastsResponseSchema");
  call "sendBroadcast" POST "/api/admin/broadcasts" (BValue "SendBroadcastRequestSchema") (EShape "BroadcastSchema");
  call "fetchBroadcastTemplates" GET "/api/broadcast/templates" BNone (EShape "BroadcastTemplatesResponseSchema")].
Definition collusion_calls : list ApiCall := [
  call "listFlaggedSessions" GET "/api/analytics/collusion/flagged" BNone (EMissing "FlaggedSessionsResponseSchema");
  call "getActionHistory" GET "/api/analytics/collusion/${id}/audit" BNone (EMissing "ReviewActionLogsResponseSchema");
  call "applyAction" POST "/api/analytics/collusion/${id}/${action}" BNone (EMissing "ReviewActionLogSchema")].
Definition config_calls : list ApiCall := [
  call "fetchChipDenominations" GET "/api/config/chips" BNone (EShape "ChipDenominationsResponseSchema");
  call "updateChipDenominations" PUT "/api/config/chips" (BTwice "ChipDenominationsResponseSchema") (EShape "ChipDenominationsResponseSchema");
  call "fetchPerformanceThresholds" GET "/api/config/performance-thresholds" BNone (EShape "PerformanceThresholdsResponseSchema");
  call "updatePerformanceThresholds" PUT "/api/config/performance-thresholds" (BTwice "PerformanceThresholdsResponseSchema")
    (EShape "PerformanceThresholdsResponseSchema")].
Definition featureFlags_calls : list ApiCall := [
  call "updateFeatureFlag (true)" PUT "/api/feature-flags/${name}" (BFields ["value"]) (EShape "FeatureFlagSchema");
  call "updateFeatureFlag (false)" DELETE "/api/feature-flags/${name}" BNone EVoid].
Definition gameTypes_calls : list ApiCall := [
  call "fetchGameTypes" GET "/api/game-types" BNone (EShape "GameTypeListSchema")].
Definition hands_calls : list ApiCall := [
  call "fetchHandProof" GET "/api/hands/${id}/proof" BNone (EShape "HandProofResponse");
  bare_fetch "fetchHandLog" "/api/hands/${id}/log" EText;
  call "fetchHandState" GET "/api/hands/${id}/state/${actionIndex}" BNone (EShape "HandStateResponse")].
Definition history_calls : list ApiCall := [
  call "fetchGameHistory" GET "/api/history/games" BNone (EShape "PaginatedResponseSchema(GameHistoryEntrySchema)");
  call "fetchTournamentHistory" GET "/api/history/tournaments" BNone (EShape "PaginatedResponseSchema(TournamentHistoryEntrySchema)");
  call "fetchTransactions" GET "/api/history/transactions" BNone (EShape "PaginatedResponseSchema(TransactionEntrySchema)");
  call "fetchTournamentBracket" GET "/api/history/tournaments/${id}/bracket" BNone (EShape "TournamentBracketResponseSchema")].
Definition historyTabs_calls : list ApiCall := [
  call "fetchHistoryTabs" GET "/api/history-tabs" BNone (EListOf "HistoryTabItemSchema")].
Definition index_calls : list ApiCall := [
  call "fetchDefaultAvatar" GET "/config/default-avatar" BNone (EShape "DefaultAvatarResponseSchema");
  call "fetchPendingWithdrawals" GET "/api/admin/withdrawals" BNone (EShape "PendingWithdrawalsResponseSchema")].
Definition kyc_calls : list ApiCall := [
  call "getKycDenial" GET "/api/admin/kyc/${id}/denial" BNone (EMissing "KycDenialResponseSchema");
  call "startKyc" POST "/api/wallet/${id}/kyc" BNone (EShape "MessageResponseSchema")].
Definition leaderboard_calls : list ApiCall := [
  call "fetchLeaderboard" GET "/api/leaderboard" BNone (EShape "LeaderboardResponseSchema");
  call "rebuildLeaderboard" POST "/leaderboard/rebuild" BNone (EShape "StatusResponseSchema");
  call "useLeaderboardRanges" GET "/api/leaderboard/ranges" BNone (EShape "LeaderboardRangesResponseSchema");
  call "useLeaderboardModes" GET "/api/leaderboard/modes" BNone (EShape "LeaderboardModesResponseSchema")].
Definition lobby_calls : list ApiCall := [
  call "fetchTournaments" GET "/api/tournaments" BNone (EListOf "TournamentSchema");
  call "fetchTournamentFilters" GET "/api/tournaments/filters" BNone (EShape "TournamentFiltersResponseSchema");
  call "fetchCTAs" GET "/api/ctas" BNone (EListOf "CTASchema");
  call "createCTA" POST "/api/ctas" (BValue "CTASchema") (EShape "CTASchema");
  call "updateCTA" PUT "/api/ctas/${id}" (BValue "CTASchema") (EShape "CTASchema");
  call "fetchTournamentDetails" GET "/api/tournaments/${id}" BNone (EShape "TournamentDetailsSchema");
  call "registerTournament" POST "/api/tournaments/${id}/register" BNone (EShape "MessageResponseSchema");
  call "withdrawTournament" POST "/api/tournaments/${id}/withdraw" BNone (EShape "MessageResponseSchema")].
Definition messages_calls : list ApiCall := [
  call "fetchMessages" GET "/api/admin/messages" BNone (EShape "AdminMessagesResponseSchema");
  call "replyMessage" POST "/api/admin/messages/${id}/reply" (BValue "ReplyMessageRequestSchema") (EShape "MessageResponseSchema");
  call "markMessageRead" POST "/api/admin/messages/${id}/read" BNone (EShape "AdminMessageSchema")].
Definition monitoring_calls : list ApiCall := [
  call "recordWebVital" POST "/api/monitoring" (BValue "WebVitalMetricSchema") (EShape "MonitoringAcceptedResponseSchema")].
Definition nav_calls : list ApiCall := [
  call "fetchNavItems" GET "/api/nav-items" BNone (EShape "NavItemsResponseSchema");
  call "fetchNavItems (icons)" GET "/api/nav-icons" BNone (EShape "NavIconsResponseSchema");
  call "createNavItem" POST "/api/admin/nav" (BValue "NavItemRequestSchema") (EShape "NavItemSchema");
  call "updateNavItem" PUT "/api/admin/nav/${flag}" (BValue "NavItemRequestSchema") (EShape "NavItemSchema");
  call "deleteNavItem" DELETE "/api/admin/nav/${flag}" BNone EVoid].
Definition notifications_calls : list ApiCall := [
  call "fetchNotifications" GET "/api/notifications" BNone (EShape "NotificationsResponseSchema");
  call "markAllNotificationsRead" POST "/api/notifications/mark-all" BNone (EShape "MessageResponseSchema");
  call "markNotificationRead" POST "/api/notifications/${id}" BNone (EShape "MessageResponseSchema");
  call "fetchNotificationFilters" GET "/api/notifications/filters" BNone (EShape "NotificationFiltersResponseSchema");
  call "fetchUnreadCount" GET "/api/notifications/unread" BNone (EShape "UnreadCountResponseSchema")].
Definition profile_calls : list ApiCall := [
  call "fetchProfile" GET "/api/user/profile" BNone (EShape "UserProfileSchema");
  call "fetchMe" GET "/api/me" BNone (EShape "MeResponseSchema");
  call "fetchStats" GET "/api/user/profile/stats" BNone (EShape "ProfileStatsResponseSchema");
  call "updateProfile" PATCH "/api/user/profile" (BForm "data") (EShape "UserProfileSchema")].
Definition promotions_calls : list ApiCall := [
  call "fetchPromotions" GET "/api/promotions" BNone (EShape "PromotionsResponseSchema");
  call "claimPromotion" POST "/api/promotions/${id}/claim" BNone (EShape "PromotionClaimResponseSchema")].
Definition pwa_calls : list ApiCall := [bare_fetch "fetchPrecacheManifest" "/api/precache-manifest" (EShape "PrecacheListResponseSchema")].
Definition replay_calls : list ApiCall := [
  call "fetchHandReplay" GET "/api/hands/${id}/replay" BNone (EShape "HandReplayResponse")].
Definition table_calls : list ApiCall := [
  call "fetchTables" GET "/api/tables" BNone (EShape "TableListSchema");
  call "fetchTable" GET "/api/tables/${id}" BNone (EShape "TableDataSchema");
  call "fetchTableState" GET "/api/tables/${id}/state" BNone (EShape "TableStateSchema");
  call "fetchPlayerTables" GET "/api/tables/sessions" BNone (EShape "PlayerTablesResponseSchema");
  call "fetchTableHands" GET "/api/table/${id}/hands" BNone (EListOf "HandSummarySchema");
  call "fetchSidePanelTabs" GET "/api/tables/${id}/tabs" BNone (EShape "TableTabsResponseSchema");
  call "sendChatMessage" POST "/api/tables/${id}/chat" (BValue "SendChatMessageRequestSchema") EVoid;
  call "createTable" POST "/api/tables" (BValue "CreateTableSchema") (EShape "TableSchema");
  call "updateTable" PUT "/api/tables/${id}" (BValue "UpdateTableSchema") (EShape "TableSchema");
  call "deleteTable" DELETE "/api/tables/${id}" BNone EVoid].
Definition tiers_calls : list ApiCall := [call "fetchTiers" GET "/api/tiers" BNone (EShape "TiersSchema")].
Definition transactions_calls : list ApiCall := [
  call "fetchTransactionFilters" GET "/api/transactions/filters" BNone (EShape "FilterOptionsSchema");
  call "fetchUserTransactions" GET "/api/users/${userId}/transactions" BNone (EShape "AdminTransactionEntriesSchema");
  call "fetchTransactionStatuses" GET "/api/transactions/statuses" BNone (EShape "TransactionStatusesResponseSchema");
  call "fetchTransactionTypes" GET "/api/transactions/types" BNone (EShape "TransactionTypesResponseSchema");
  call "fetchTransactionsLog" GET "/api/admin/transactions" BNone (EShape "TransactionLogResponseSchema");
  call "updateTransactionColumns" PUT "/api/admin/transactions/columns" (BFields ["columns"]) (EShape "TransactionColumnsResponseSchema")].
Definition translations_calls : list ApiCall := [
  call "fetchTranslations" GET "/api/translations/${locale}" BNone (EShape "TranslationsResponseSchema");
  call "fetchLanguages" GET "/api/languages" BNone (EShape "LanguagesResponseSchema")].
Definition wallet_calls : list ApiCall := [
  call "withdraw" POST "/api/wallet/${playerId}/withdraw" (BValue "WithdrawSchema") (EMissing "WalletStatusResponseSchema");
  call "deposit" POST "/api/wallet/${playerId}/deposit" (BValue "DepositSchema") (EMissing "WalletStatusResponseSchema");
  call "initiateBankTransfer" POST "/api/wallet/${playerId}/deposit/bank-transfer" (BValue "BankTransferDepositRequestSchema")
    (EShape "BankTransferDepositResponseSchema");
  call "getStatus" GET "/api/wallet/${playerId}/status" BNone (EMissing "WalletStatusResponseSchema");
  call "fetchWalletReconcileMismatches" GET "/api/admin/wallet/reconcile/mismatches" BNone (EShape "WalletReconcileMismatchesResponseSchema");
  call "markWalletMismatchAcknowledged" POST "/api/admin/wallet/reconcile/mismatches/${account}/ack" BNone
    (EShape "WalletReconcileMismatchAcknowledgementSchema");
  call "reconcileDeposits (file)" POST "/api/admin/deposits/reconcile" (BForm "file") (EShape "MessageResponseSchema");
  call "reconcileDeposits" POST "/api/admin/deposits/reconcile" (BValue "BankReconciliationRequestSchema") (EShape "MessageResponseSchema")].
Definition wallet_admin_calls : list ApiCall := [
  call "confirmDeposit" POST "/api/admin/deposits/${id}/confirm" BNone (EShape "MessageResponseSchema");
  call "rejectDeposit" POST "/api/admin/deposits/${id}/reject" (BValue "DepositDecisionRequestSchema") (EShape "MessageResponseSchema");
  call "confirmWithdrawal" POST "/api/admin/withdrawals/${id}/confirm" BNone (EShape "MessageResponseSchema");
  call "rejectWithdrawal" POST "/api/admin/withdrawals/${id}/reject" (BValue "WithdrawalDecisionRequestSchema") (EShape "MessageResponseSchema");
  call "adminAdjustBalance" POST "/api/admin/balance/${userId}" (BValue "AdminBalanceRequestSchema") (EShape "MessageResponseSchema");
  call "fetchAdminPlayers" GET "/api/admin/users/players" BNone (EListOf "AdminPlayerSchema");
  call "fetchIbanDetails" GET "/api/wallet/iban" BNone (EShape "IbanDetailsSchema");
  call "fetchIban" GET "/api/wallet/iban" BNone (EShape "IbanResponseSchema");
  call "fetchIbanHistory" GET "/api/wallet/iban/history" BNone (EShape "IbanHistoryResponseSchema");
  call "updateIban" POST "/api/wallet/iban" (BValue "IbanUpdateRequestSchema") (EShape "IbanResponseSchema")].

Definition page_calls : list ApiCall := concat [
  admin_calls; admin_tournament_calls; analytics_calls; auth_calls; blockedCountries_calls; bonus_calls; broadcasts_calls;
  collusion_calls; config_calls; featureFlags_calls; gameTypes_calls; hands_calls; history_calls; historyTabs_calls;
  index_calls; kyc_calls; leaderboard_calls; lobby_calls; messages_calls; monitoring_calls; nav_calls; notifications_calls;
  profile_calls; promotions_calls; pwa_calls; replay_calls; table_calls; tiers_calls; transactions_calls;
  translations_calls; wallet_calls; wallet_admin_calls].

(** ** At the table of routes *)

(** Literals of a path, and the identifiers that fill it. *)
Inductive Piece := PLit (s : string) | PArg (name : string).
Definition piece_of (s : string) : Piece :=
  match s with
  | String "$" (String "{" rest) => PArg (default "" (head (js_split "}" rest)))
  | _ => PLit s
  end.
Definition pieces (template : string) : list Piece := piece_of <$> drop 1 (js_split "/" template).
Definition fill (args : string → string) (p : Piece) : string := match p with PLit s => s | PArg x => args x end.
Definition slashes (parts : list string) : string := foldr (λ s rest, "/" +:+ s +:+ rest) "" parts.
Definition url (c : ApiCall) (args : string → string) (query : option string) : string :=
  slashes (fill args <$> pieces (ac_path c)) +:+ match query with Some q => "?" +:+ q | None => "" end.

(** Fields of the bodies that a page puts together itself. *)
Definition request_fields : list (string * list string) := [
  ("LoginRequestSchema", ["email"; "password"]); ("RequestResetSchema", ["email"]);
  ("VerifyResetCodeSchema", ["email"; "code"]); ("ResetPasswordSchema", ["email"; "code"; "password"]);
  ("FeatureFlagRequestSchema", ["value"]); ("TransactionColumnsUpdateSchema", ["columns"])].
(** A text as JSON body is refused before any handler; a route without a body looks at none. *)
Definition body_fits (b : PageBody) (r : Route) : bool :=
  match b, rt_body r with
  | BTwice _, _ => false
  | _, None => true
  | BValue s, Some t => String.eqb s t || bool_decide (t = "file or BankReconciliationRequestSchema" ∧ s = "BankReconciliationRequestSchema")
  | BMaybe s, Some t => String.eqb s t && String.eqb t "BanUserSchema"
  | BFields fs, Some t => existsb (λ p, String.eqb p.1 t && bool_decide (p.2 = fs)) request_fields
  | BForm f, Some t => String.eqb f "file" && String.eqb t "file or BankReconciliationRequestSchema"
  | BNone, Some _ => false
  end.
(** Schemas under two names, or with fields that the reader drops. An answer that is not parsed counts as the schema of
    its type. *)
Definition same_schemas : list (RouteAnswer * Expects) := [
  (AShape "DashboardUserListSchema", EListOf "DashboardUserSchema"); (ATypedList "LeaderboardEntrySchema", EShape "LeaderboardResponseSchema");
  (AShape "CTAsResponseSchema", EListOf "CTASchema"); (AShape "MessageResponseSchema", EShape "PromotionClaimResponseSchema");
  (AShape "HandProofResponseSchema", EShape "HandProofResponse"); (AShape "HandReplayResponseSchema", EShape "HandReplayResponse");
  (AShape "GameStateSchema.omit({ serverTime: true })", EShape "HandStateResponse"); (AOther "details", EShape "TournamentDetailsSchema")].
Definition answer_fits (a : RouteAnswer) (e : Expects) : bool :=
  match a, e with
  | AShape s, EShape t | ATyped s, EShape t | AListOf s, EListOf t | ATypedList s, EListOf t => String.eqb s t
  | AVoid, EVoid | AText, EText => true
  | _, _ => false
  end || bool_decide ((a, e) ∈ same_schemas).
(** What becomes of a call: no route, refused for want of a token or for its body, an answer that the page refuses. *)
Inductive Fate := Lost | WithoutToken | BadBody | BadAnswer | Fits.
Definition fate (c : ApiCall) (r : option Route) : Fate :=
  match r with
  | None => Lost
  | Some r =>
      if negb (ac_token c) && bool_decide (asker (rt_guards r) ≠ None) then WithoutToken
      else if negb (body_fits (ac_body c) r) then BadBody
      else if answer_fits (rt_answer r) (ac_expects c) then Fits else BadAnswer
  end.

(** The route of a call, whatever its identifiers. *)
Fixpoint fits_pieces (p : list Segment) (ps : list Piece) : bool :=
  match p, ps with
  | [], [] => true
  | Lit l :: p, PLit s :: ps => String.eqb l (to_lower s) && fits_pieces p ps
  | Param _ :: p, _ :: ps => fits_pieces p ps
  | _, _ => false
  end.
Definition accepts_call (c : ApiCall) (r : Route) : bool :=
  bool_decide (ac_method c = rt_method r) && fits_pieces (rt_path r) (pieces (ac_path c)).
Definition route_of_call (c : ApiCall) : option Route := find (accepts_call c) (routes_of controllers).

(** The calls that go wrong. *)
Definition lost_calls : list string := [
  "fetchAdminTournaments"; "createAdminTournament"; "updateAdminTournament"; "deleteAdminTournament";
  "fetchDefaultAvatar"; "rebuildLeaderboard"; "updateProfile"; "fetchTableHands"].
Definition unread_calls : list string := ["logout"; "updateChipDenominations"; "updatePerformanceThresholds"].
Definition misread_calls : list string := [
  "listFlaggedSessions"; "getActionHistory"; "applyAction"; "fetchHistoryTabs"; "getKycDenial"; "fetchTournaments";
  "registerTournament"; "markAllNotificationsRead"; "markNotificationRead"; "fetchPlayerTables"; "withdraw"; "deposit";
  "getStatus"; "fetchIbanDetails"].
Definition known_fate (name : string) : Fate :=
  if existsb (String.eqb name) lost_calls then Lost
  else if existsb (String.eqb name) unread_calls then BadBody
  else if existsb (String.eqb name) misread_calls then BadAnswer
  else Fits.

(** Identifiers: letters, digits, - and _, and no word of the table. *)
Definition plain_char (c : ascii) : bool :=
  let n := N_of_ascii c in
  ((48 <=? n) && (n <=? 57) || (65 <=? n) && (n <=? 90) || (97 <=? n) && (n <=? 122) || (n =? 45) || (n =? 95))%N.
Definition plain_text (s : string) : bool := negb (String.eqb s "") && forallb plain_char (String.list_ascii_of_string s).
Definition words : list string :=
  concat ((λ r, omap (λ g, match g with Lit l => Some l | Param _ => None end) (rt_path r)) <$> routes_of controllers).
Definition plain_id (s : string) : Prop := plain_text s = true ∧ to_lower s ∉ words.

(** ** Reading back a path *)

Lemma str_app_nil (s : string) : s +:+ "" = s.
Proof. induction s as [|c s IH]; [done|]. change (String c s +:+ "") with (String c (s +:+ "")). by rewrite IH. Qed.
Lemma plain_no c s : plain_char c = false → plain_text s = true → c ∉ String.list_ascii_of_string s.
Proof.
  intros Hc [_ Hs]%andb_prop Hin. rewrite forallb_forall in Hs. apply list_elem_of_In in Hin.
  by rewrite (Hs _ Hin) in Hc.
Qed.
Lemma split_slashes x parts : Forall (λ s, plain_text s = true) (x :: parts) →
  js_split "/" (x +:+ slashes parts) = x :: parts.
Proof.
  revert x. induction parts as [|y parts IH]; intros x [Hx H]%Forall_cons.
  - change (slashes []) with "". rewrite str_app_nil. by apply js_split_none, plain_no.
  - change (slashes (y :: parts)) with (String "/" (y +:+ slashes parts)).
    rewrite js_split_first by by apply plain_no. by rewrite IH.
Qed.
Lemma slashes_plain c parts : plain_char c = false → c ≠ "/"%char → Forall (λ s, plain_text s = true) parts →
  c ∉ String.list_ascii_of_string (slashes parts).
Proof.
  intros Hc Hs. induction 1 as [|x parts Hx _ IH]; [apply not_elem_of_nil|].
  change (slashes (x :: parts)) with (String "/" (x +:+ slashes parts)). cbn [String.list_ascii_of_string].
  rewrite list_ascii_of_app. apply not_elem_of_cons. split; [done|]. apply not_elem_of_app. split; [by apply plain_no|done].
Qed.
Lemma parts_of_slashes parts query : parts ≠ [] → Forall (λ s, plain_text s = true) parts →
  parts_of (slashes parts +:+ match query with Some q => "?" +:+ q | None => "" end) = parts.
Proof.
  intros Hne Hp. unfold parts_of.
  assert (head (js_split "?" (slashes parts +:+ match query with Some q => "?" +:+ q | None => "" end)) = Some (slashes parts)) as ->.
  { pose proof (slashes_plain "?" parts eq_refl ltac:(done) Hp) as Hq. destruct query as [q|].
    - change ("?" +:+ q) with (String "?" q). by rewrite js_split_first.
    - rewrite str_app_nil. by rewrite js_split_none. }
  destruct parts as [|x parts]; [done|].
  change (default "" (Some (slashes (x :: parts)))) with ("" +:+ String "/" (x +:+ slashes parts)).
  rewrite js_split_first by apply not_elem_of_nil. rewrite split_slashes by done. unfold drop_end.
  destruct (last (x :: parts)) as [[|]|] eqn:E; try done. apply last_Some in E as [l E]. rewrite E in Hp.
  apply Forall_app in Hp as [_ [Hp _]%Forall_cons]. done.
Qed.

(** ** The calls and the handlers *)

Section Calls.
Context (args : string → string) (Hargs : ∀ x, plain_id (args x)).

Definition plain_literals (c : ApiCall) : bool :=
  negb (bool_decide (length (pieces (ac_path c)) = 0%nat))
  && forallb (λ p, match p with PLit s => plain_text s | PArg _ => true end) (pieces (ac_path c)).
Lemma filled_plain ps : forallb (λ p, match p with PLit s => plain_text s | PArg _ => true end) ps = true →
  Forall (λ s, plain_text s = true) (fill args <$> ps).
Proof.
  intros H. apply Forall_fmap, Forall_forall. intros p Hp. rewrite forallb_forall in H.
  specialize (H p (proj1 (list_elem_of_In _ _) Hp)). destruct p as [s|x]; [done|]. exact (proj1 (Hargs x)).
Qed.
Lemma parts_of_url c query : plain_literals c = true → parts_of (url c args query) = fill args <$> pieces (ac_path c).
Proof.
  intros [Hne Hp]%andb_prop. apply parts_of_slashes; [|by apply filled_plain].
  apply negb_true_iff, bool_decide_eq_false in Hne. by destruct (pieces (ac_path c)).
Qed.

Lemma fits_filled p ps : (∀ l, Lit l ∈ p → l ∈ words) →
  forallb (λ p, match p with PLit s => plain_text s | PArg _ => true end) ps = true →
  fits p (fill args <$> ps) = fits_pieces p ps.
Proof.
  revert ps. induction p as [|g p IH]; intros [|q ps] Hw Hp; [done|done|by destruct g|].
  cbn [forallb] in Hp. apply andb_prop in Hp as [Hq Hp].
  assert (∀ l, Lit l ∈ p → l ∈ words) as Hw' by (intros l Hl; apply Hw; by right).
  rewrite fmap_cons. destruct g as [l|x], q as [s|y]; cbn [fits fits_pieces fill]; rewrite ?IH by done.
  - done.
  - destruct (String.eqb_spec l (to_lower (args y))) as [El|]; [|done].
    destruct (proj2 (Hargs y)). rewrite <-El. apply Hw. by left.
  - destruct (String.eqb_spec s ""); [by subst|done].
  - destruct (String.eqb_spec (args y) "") as [Ey|]; [|done]. pose proof (proj1 (Hargs y)) as H. by rewrite Ey in H.
Qed.
Lemma word_of_route r l : r ∈ routes_of controllers → Lit l ∈ rt_path r → l ∈ words.
Proof.
  intros Hr Hl. apply list_elem_of_In, in_concat. eexists.
  split; [apply list_elem_of_In, list_elem_of_fmap; by exists r|]. apply list_elem_of_In, list_elem_of_omap. by exists (Lit l).
Qed.
Lemma accepts_filled c r : plain_literals c = true → r ∈ routes_of controllers →
  accepts (ac_method c) (fill args <$> pieces (ac_path c)) r = accepts_call c r.
Proof.
  intros [_ Hp]%andb_prop Hr. unfold accepts, accepts_call. f_equal. apply fits_filled; [|done].
  intros l. by apply word_of_route.
Qed.
End Calls.

Lemma find_ext_in {A} (f g : A → bool) l : (∀ x, x ∈ l → f x = g x) → find f l = find g l.
Proof.
  induction l as [|x l IH]; intros H; [done|]. cbn. rewrite (H x) by by left.
  rewrite IH; [done|]. intros y Hy. apply H. by right.
Qed.

(** Checked once for the whole table. *)
Definition fate_eqb (f g : Fate) : bool :=
  match f, g with
  | Lost, Lost | WithoutToken, WithoutToken | BadBody, BadBody | BadAnswer, BadAnswer | Fits, Fits => true
  | _, _ => false
  end.
Lemma calls_checked :
  let rs := routes_of controllers in
  forallb (λ c, plain_literals c && fate_eqb (fate c (find (accepts_call c) rs)) (known_fate (ac_name c))) page_calls = true.
Proof. vm_compute. reflexivity. Qed.

(** C23: Every call of the pages is followed to its handler. With identifiers of letters, digits, - and _ that are no word
    of the table of routes, and whatever the query and the order of the modules, a call comes to one and the same
    route, which takes the body that the page sends and answers with the schema that the page reads, or with a value of
    its type: except for the eight calls that no route takes, the three whose body is refused and the fourteen whose
    answer the page refuses, which are listed. Other identifiers may lead elsewhere ([words_lead_elsewhere]). *)
Theorem page_calls_reach_their_handlers `{HR : Router} {HL : RouterLaws} cs c args query :
  cs ≡ₚ controllers → c ∈ page_calls → (∀ x, plain_id (args x)) →
  let r := route_of (routes_of cs) (ac_method c) (parts_of (url c args query)) in
  r = route_of_call c ∧ fate c r = known_fate (ac_name c).
Proof.
  intros Hcs Hc Hargs. cbv zeta. pose proof calls_checked as H. cbv zeta in H. rewrite forallb_forall in H.
  specialize (H c (proj1 (list_elem_of_In _ _) Hc)). apply andb_prop in H as [Hp Hf].
  rewrite (parts_of_url args Hargs) by done. rewrite route_of_find.
  rewrite <-(find_permuted _ _ controllers cs) by (done || apply controllers_separated).
  rewrite (find_ext_in _ (accepts_call c)) by (intros r Hr; by apply accepts_filled).
  split; [done|]. by destruct (fate c _), (known_fate (ac_name c)).
Qed.

(** ** Instances *)

Definition a_table : ApiCall := call "fetchTableState" GET "/api/tables/${id}/state" BNone (EShape "TableStateSchema").
Lemma page_calls_reach_their_handlers_witness :
  plain_id "T1" ∧ a_table ∈ page_calls
  ∧ rt_handler <$> route_of (routes_of (reverse controllers)) GET (parts_of "/api/tables/T1/state") = Some "TablesController.getState".
Proof.
  assert (plain_id "T1") as Hid.
  { split; [vm_compute; reflexivity|]. apply (bool_decide_eq_true_1 (_ ∉ _)). vm_compute. reflexivity. }
  assert (a_table ∈ page_calls) as Hc.
  { apply (list_elem_of_lookup_2 page_calls 104). reflexivity. }
  split; [exact Hid|]. split; [exact Hc|].
  destruct (page_calls_reach_their_handlers (reverse controllers) a_table (λ _, "T1") None) as [H _];
    [apply reverse_Permutation | exact Hc | intros _; exact Hid |].
  change (url a_table (λ _, "T1") None) with "/api/tables/T1/state" in H.
  refine (eq_trans (f_equal (λ o, rt_handler <$> o) H) _). vm_compute. reflexivity.
Defined.

(** An identifier that is a word of the table, or that has a slash, leads to another handler. *)
Definition handler_at (m : Method) (path : string) : option string :=
  rt_handler <$> route_of (routes_of controllers) m (parts_of path).
Example words_lead_elsewhere :
  let table := call "fetchTable" GET "/api/tables/${id}" BNone (EShape "TableDataSchema") in
  let note := call "markNotificationRead" POST "/api/notifications/${id}" BNone (EShape "MessageResponseSchema") in
  table ∈ page_calls ∧ note ∈ page_calls
  ∧ handler_at GET (url table (λ _, "T1") None) = Some "TablesController.get"
  ∧ handler_at GET (url table (λ _, "sessions") None) = Some "TablesController.listSessions"
  ∧ handler_at GET (url table (λ _, "T1/chat") None) = Some "TablesController.getChat"
  ∧ handler_at POST (url note (λ _, "mark-all") None) = Some "NotificationsController.markAll"
  ∧ handler_at PUT "/api/analytics/log-types/classes/Login" = Some "AnalyticsController.updateLogTypeClass"
  ∧ handler_at PUT "/api/analytics/log-types/classes/defaults" = Some "AnalyticsController.updateLogTypeClassDefault".
Proof.
  split_and!; [apply (list_elem_of_lookup_2 page_calls 103); reflexivity
              |apply (list_elem_of_lookup_2 page_calls 91); reflexivity
              |vm_compute; reflexivity..].
Qed.
