(* ===== verification/BlockedCountries.v ===== *)
(** * Blocked countries

    backend/src/services/blocked-countries.service.ts behind
    routes/admin-blocked-countries.controller.ts, over the table that [Kyc] reads its list
    from (common/kyc.service.ts): what administrators block is what the identity checks
    refuse. The query of the list may fail, which the code takes for an empty list. Guards are
    those of [HttpRoutes]; a request that runs is not interleaved with another. *)

From S2P Require Import Prelude Store JsText Schemas Kyc KycSafety Auth AuthSafety HttpRoutes.
#[local] Open Scope string_scope.
#[local] Open Scope list_scope.
#[local] Open Scope Z_scope.

(** ** Codes *)

(** [/^[A-Za-z]{2}$/] *)
Definition code_letter (c : ascii) : bool :=
  let n := nat_of_ascii c in ((65 <=? n) && (n <=? 90) || (97 <=? n) && (n <=? 122))%nat.
Definition two_letters (s : string) : bool :=
  match String.list_ascii_of_string s with [a; b] => code_letter a && code_letter b | _ => false end.
(** [CountryCodeSchema] of shared/types.ts: trimmed, matched, in upper case. *)
Definition CountryCodeSchema (v : jsval) : option string :=
  match v with
  | VStr s => let t := js_trim s in if two_letters t then Some (toUpperCase t) else None
  | _ => None
  end.
Definition BlockedCountrySchema (v : jsval) : option string :=
  match v with VObj fs => CountryCodeSchema (field "country" fs) | _ => None end.

Record BlockedCountryEntity := { bc_country : string }.
#[export] Instance BlockedCountry_entity : Entity BlockedCountryEntity := { row_id := bc_country; row_clash _ _ := false }.

(** [this.accounts.query] gives the rows, or fails. *)
Definition reading (db : option (list string)) (e : KycEnv) : KycEnv :=
  {| ke_provider := ke_provider e; ke_blockedDb := db; ke_blockedConfig := ke_blockedConfig e;
     ke_sanctionedConfig := ke_sanctionedConfig e; ke_sanctionedDb := ke_sanctionedDb e; ke_pep := ke_pep e;
     ke_flag := ke_flag e; ke_onfido := ke_onfido e; ke_geoip := ke_geoip e; ke_blockedRegions := ke_blockedRegions e;
     ke_configured := ke_configured e; ke_apiUrl := ke_apiUrl e; ke_apiKey := ke_apiKey e; ke_fetch := ke_fetch e;
     ke_queueUp := ke_queueUp e; ke_now := ke_now e; ke_dateOf := ke_dateOf e |}.

Inductive CountryRequest :=
| CList | CCreate (body : jsval) | CUpdate (country : string) (body : jsval) | CRemove (country : string).

Section Blocked.
Context {T : Type → Type} `{!TableOps T} {R : Type} `{!RedisOps R KycCached}.
Context (env : KycEnv) (C : Crypto) (cfg : AuthConfig).

Record BlockedWorld := { bw_rows : T BlockedCountryEntity; bw_kyc : KycStore (T := T) (R := R) }.
Abbreviation BW := (M BlockedWorld).

Definition countries (s : BlockedWorld) : list string := bc_country <$> rows (bw_rows s).
Definition on_rows (f : T BlockedCountryEntity → T BlockedCountryEntity) (s : BlockedWorld) : BlockedWorld :=
  {| bw_rows := f (bw_rows s); bw_kyc := bw_kyc s |}.
(** A call of the identity service, whose query [reads] or fails. *)
Definition in_kyc {A} (reads : bool) (m : KycEnv → M (KycStore (T := T) (R := R)) A) : BW A := λ s,
  let '(o, k) := m (reading (if reads then Some (countries s) else None) env) (bw_kyc s) in
  (o, {| bw_rows := bw_rows s; bw_kyc := k |}).

(** ** blocked-countries.service.ts *)

Definition normalize (code : string) : string := toUpperCase (js_trim code).
Definition find_country (c : string) : BW (option BlockedCountryEntity) :=
  gets (λ s, find_row (λ r, bool_decide (bc_country r = c)) (bw_rows s)).
Definition refresh_blocked (reads : bool) : BW unit :=
  in_kyc reads (λ e, refreshBlockedCountries e false) ;; mret tt.

Fixpoint insert_sorted (x : string) (l : list string) : list string :=
  match l with [] => [x] | y :: l' => if String.leb x y then x :: l else y :: insert_sorted x l' end.
Definition list_countries : BW (list string) := gets (λ s, foldr insert_sorted [] (countries s)).
Definition create_country (reads : bool) (country : string) : BW string :=
  let normalized := normalize country in
  existing ← find_country normalized;
  match existing with
  | Some _ => throw "Blocked country already exists"
  | None =>
      modify (on_rows (save_row {| bc_country := normalized |})) ;;
      refresh_blocked reads ;; mret normalized
  end.
Definition update_country (reads : bool) (current next : string) : BW string :=
  let from := normalize current in
  let to := normalize next in
  existing ← find_country from;
  match existing with
  | None => throw "Blocked country not found"
  | Some _ =>
      (if bool_decide (from = to) then mret tt
       else
         duplicate ← find_country to;
         match duplicate with
         | Some _ => throw "Blocked country already exists"
         | None => modify (on_rows (update_where (λ r, bool_decide (bc_country r = from)) (λ _, {| bc_country := to |})))
         end) ;;
      updated ← find_country to;
      match updated with
      | None => throw "Blocked country not found"
      | Some r => refresh_blocked reads ;; mret (bc_country r)
      end
  end.
Definition remove_country (reads : bool) (country : string) : BW unit :=
  let normalized := normalize country in
  existing ← find_country normalized;
  modify (on_rows (delete_where (λ r, bool_decide (bc_country r = normalized)))) ;;
  match existing with
  | None => throw "Blocked country not found"
  | Some _ => refresh_blocked reads
  end.

(** ** admin-blocked-countries.controller.ts *)

Definition parsed_country (v : option string) : BW string := match v with Some c => mret c | None => throw "ZodError" end.
(** [BlockedCountrySchema.parse] of the answer *)
Definition answer_countries (l : list string) : BW (list string) :=
  match mapM (λ c, BlockedCountrySchema (VObj [("country", VStr c)])) l with Some l => mret l | None => throw "ZodError" end.
Definition country_route (reads : bool) (req : HttpCall) (r : CountryRequest) : BW (list string) :=
  lift (run_guards C cfg [GAuth; GAdmin] req [] None) ;;
  match r with
  | CList => l ← list_countries; answer_countries l
  | CCreate body => c ← parsed_country (BlockedCountrySchema body); c ← create_country reads c; answer_countries [c]
  | CUpdate country body =>
      current ← parsed_country (CountryCodeSchema (VStr country));
      c ← parsed_country (BlockedCountrySchema body);
      c ← update_country reads current c; answer_countries [c]
  | CRemove country =>
      c ← parsed_country (CountryCodeSchema (VStr country)); remove_country reads c ;; mret []
  end.

(** ** Runs *)

(** A start of the process, a request of an administrator, or a call of the identity checks. *)
Inductive BlockedStep := BStart (reads : bool) | BRequest (reads : bool) (req : HttpCall) (r : CountryRequest) | BCheck (c : KycCall).
Definition step_reads (st : BlockedStep) : bool :=
  match st with BStart b | BRequest b _ _ => b | BCheck KInit => false | BCheck _ => true end.
Definition blocked_step (st : BlockedStep) (s : BlockedWorld) : BlockedWorld :=
  match st with
  | BStart reads => (in_kyc reads kyc_init s).2
  | BRequest reads req r => (country_route reads req r s).2
  | BCheck c => (in_kyc true (λ e, exec_kyc e c) s).2
  end.
Definition blocked_run (sts : list BlockedStep) (s : BlockedWorld) : BlockedWorld := foldl (λ s st, blocked_step st s) s sts.
End Blocked.

(** ** Facts on codes *)

Definition code_ok (c : string) : Prop := two_letters c = true ∧ toUpperCase c = c ∧ js_trim c = c.

Lemma letter_facts a : code_letter a = true →
  is_blank a = false ∧ is_blank (upper_ascii a) = false ∧ code_letter (upper_ascii a) = true
  ∧ upper_ascii (upper_ascii a) = upper_ascii a.
Proof. destruct a as [[] [] [] [] [] [] [] []]; by vm_compute. Qed.
Lemma trim_two a b : is_blank a = false → is_blank b = false →
  js_trim (String.string_of_list_ascii [a; b]) = String.string_of_list_ascii [a; b].
Proof.
  intros Ha Hb. unfold js_trim. rewrite String.list_ascii_of_string_of_list_ascii. cbn [drop_blank]. rewrite Ha.
  cbn [rev app drop_blank]. by rewrite Hb.
Qed.
Lemma parsed_code_ok v c : CountryCodeSchema v = Some c → code_ok c.
Proof.
  destruct v as [| | | | |s| |]; try done. cbn [CountryCodeSchema]. unfold two_letters.
  destruct (String.list_ascii_of_string (js_trim s)) as [|a [|b [|]]] eqn:E; try done.
  destruct (code_letter a) eqn:Ha; [|done]. destruct (code_letter b) eqn:Hb; [|done]. intros [= <-].
  apply letter_facts in Ha as (_ & Ha & Hla & Hua). apply letter_facts in Hb as (_ & Hb & Hlb & Hub).
  assert (toUpperCase (js_trim s) = String.string_of_list_ascii [upper_ascii a; upper_ascii b]) as ->
    by (unfold toUpperCase, map_string; by rewrite E).
  split; [|split].
  - unfold two_letters. rewrite String.list_ascii_of_string_of_list_ascii. by rewrite Hla, Hlb.
  - unfold toUpperCase, map_string. rewrite String.list_ascii_of_string_of_list_ascii. cbn [fmap list_fmap].
    by rewrite Hua, Hub.
  - by apply trim_two.
Qed.
Lemma body_code_ok v c : BlockedCountrySchema v = Some c → code_ok c.
Proof. destruct v; try done. apply parsed_code_ok. Qed.
Lemma normalize_ok c : code_ok c → normalize c = c.
Proof. intros (_ & Hu & Ht). unfold normalize. by rewrite Ht. Qed.

(** ** The list follows the table *)

Section Facts.
Context {T : Type → Type} `{!TableOps T, !TableLaws T} {R : Type} `{!RedisOps R KycCached}.
Context (env : KycEnv) (C : Crypto) (cfg : AuthConfig).
Abbreviation World := (BlockedWorld (T := T) (R := R)).
Implicit Types (s : World).

Definition table_ok s : Prop := NoDup (countries s) ∧ Forall code_ok (countries s).
Definition list_ok s : Prop := table_ok s ∧ ks_blocked (bw_kyc s) ≡ₚ countries s.

Lemma find_country_eq c s : find_country c s = (Ret (find_row (λ r, bool_decide (bc_country r = c)) (bw_rows s)), s).
Proof. reflexivity. Qed.
Lemma found_country c s r : find_row (λ r, bool_decide (bc_country r = c)) (bw_rows s) = Some r → bc_country r = c ∧ c ∈ countries s.
Proof.
  intros [Hr Hc]%find_row_Some. apply bool_decide_eq_true in Hc. split; [done|]. subst c. by apply list_elem_of_fmap_2.
Qed.
Lemma no_country c s : find_row (λ r, bool_decide (bc_country r = c)) (bw_rows s) = None → c ∉ countries s.
Proof.
  intros H (r & -> & Hr)%list_elem_of_fmap. pose proof (find_row_None _ _ H r Hr) as E. by apply bool_decide_eq_false in E.
Qed.

Lemma upper_all s : Forall code_ok (countries s) → toUpperCase <$> countries s = countries s.
Proof.
  generalize (countries s). induction l as [|c l IH]; [done|]. intros [(_ & Hc & _) Hl]%Forall_cons.
  rewrite fmap_cons, Hc. by rewrite IH.
Qed.
Lemma refreshed s : table_ok s → list_ok (refresh_blocked env true s).2.
Proof.
  intros Hs. split; [exact Hs|]. change (toUpperCase <$> countries s ≡ₚ countries s). by rewrite (upper_all s (proj2 Hs)).
Qed.
Lemma started s : table_ok s → list_ok (in_kyc env true kyc_init s).2.
Proof. intros Hs. split; [exact Hs|]. change (toUpperCase <$> countries s ≡ₚ countries s). by rewrite (upper_all s (proj2 Hs)). Qed.

Lemma kept_codes (P : string → Prop) `{!∀ x, Decision (P x)} (l : list string) : Forall code_ok l → Forall code_ok (filter P l).
Proof. rewrite !Forall_forall. intros Hl x [_ Hx]%list_elem_of_filter. by apply Hl. Qed.

Lemma save_table c s : table_ok s → code_ok c → c ∉ countries s → table_ok (on_rows (save_row {| bc_country := c |}) s).
Proof.
  intros [Hu Hc] Hok Hn. unfold table_ok, countries. cbn [on_rows bw_rows].
  assert (bc_country <$> rows (save_row {| bc_country := c |} (bw_rows s)) ≡ₚ c :: filter (λ x, x ≠ c) (countries s)) as ->.
  { rewrite rows_save, fmap_cons. apply Permutation_skip. unfold countries. generalize (rows (bw_rows s)). intros l.
    induction l as [|r l IH]; [done|]. rewrite fmap_cons, !filter_cons. cbn [row_id BlockedCountry_entity bc_country].
    case_decide; [rewrite fmap_cons; by apply Permutation_skip|done]. }
  split.
  - apply NoDup_cons. split; [intros [? _]%list_elem_of_filter; done|]. by apply NoDup_filter.
  - apply Forall_cons. split; [done|]. by apply kept_codes.
Qed.
Lemma update_table from to s : table_ok s → code_ok to → to ∉ countries s →
  table_ok (on_rows (update_where (λ r, bool_decide (bc_country r = from)) (λ _, {| bc_country := to |})) s).
Proof.
  intros [Hu Hc] Hok Hn. unfold table_ok, countries. cbn [on_rows bw_rows].
  assert (bc_country <$> rows (update_where (λ r, bool_decide (bc_country r = from)) (λ _, {| bc_country := to |}) (bw_rows s))
          ≡ₚ (λ c, if decide (c = from) then to else c) <$> countries s) as ->.
  { unfold countries. rewrite rows_update, <- !list_fmap_compose. apply reflexive_eq, list_fmap_ext. intros i r _. cbn.
    case_bool_decide; by case_decide. }
  split.
  - revert Hu Hn. generalize (countries s). induction l as [|c l IH]; [done|]. rewrite fmap_cons, !NoDup_cons.
    intros [Hcl Hl] [Hne Hnl]%not_elem_of_cons. split; [|by apply IH].
    intros (x & Ex & Hx)%list_elem_of_fmap. destruct (decide (c = from)), (decide (x = from)); congruence.
  - apply Forall_fmap, Forall_forall. intros x Hx. cbn. case_decide; [done|]. rewrite Forall_forall in Hc. by apply Hc.
Qed.
Lemma delete_table c s : table_ok s → table_ok (on_rows (delete_where (λ r, bool_decide (bc_country r = c))) s).
Proof.
  intros [Hu Hc]. unfold table_ok, countries. cbn [on_rows bw_rows].
  assert (bc_country <$> rows (delete_where (λ r, bool_decide (bc_country r = c)) (bw_rows s))
          ≡ₚ filter (λ x, x ≠ c) (countries s)) as ->.
  { rewrite rows_delete. unfold countries. generalize (rows (bw_rows s)). intros l.
    induction l as [|r l IH]; [done|]. rewrite fmap_cons, !filter_cons.
    case_bool_decide as Hr.
    - rewrite !decide_False by (intros Hn; by apply Hn). done.
    - rewrite decide_True by (intros []). rewrite decide_True by done. rewrite fmap_cons. by apply Permutation_skip. }
  split; [by apply NoDup_filter|by apply kept_codes].
Qed.

(** *** Requests *)

Lemma create_ok c s : code_ok c → list_ok s → list_ok (create_country env true c s).2.
Proof.
  intros Hc Hs. unfold create_country. rewrite (normalize_ok c Hc), bind_eq, find_country_eq.
  destruct (find_row _ _) as [r|] eqn:E; [done|]. rewrite bind_eq. cbn [modify]. rewrite bind_eq.
  apply refreshed, save_table; [apply Hs|done|by apply no_country].
Qed.
Lemma update_country_ok from to s : code_ok from → code_ok to → list_ok s → list_ok (update_country env true from to s).2.
Proof.
  intros Hf Ht Hs. unfold update_country. rewrite (normalize_ok from Hf), (normalize_ok to Ht), bind_eq, find_country_eq.
  destruct (find_row _ (bw_rows s)) as [r|] eqn:E; [|done]. rewrite bind_eq. case_bool_decide as Heq.
  - subst from. cbn [mret M_ret]. rewrite bind_eq, find_country_eq, E, bind_eq. by apply refreshed, Hs.
  - rewrite bind_eq, find_country_eq. destruct (find_row _ (bw_rows s)) as [r'|] eqn:E' in |- *; [done|]. cbn [modify].
    rewrite bind_eq, find_country_eq.
    assert (table_ok (on_rows (update_where (λ r, bool_decide (bc_country r = from)) (λ _, {| bc_country := to |})) s)) as Hs'.
    { apply update_table; [apply Hs|done|by apply no_country]. }
    assert (to ∈ countries (on_rows (update_where (λ r, bool_decide (bc_country r = from)) (λ _, {| bc_country := to |})) s)) as Hto.
    { unfold countries. cbn [on_rows bw_rows]. apply list_elem_of_fmap. exists {| bc_country := to |}. split; [done|].
      rewrite rows_update. apply list_elem_of_fmap. apply find_row_Some in E as [Hr Hb]. exists r. by rewrite Hb. }
    cbn beta iota.
    destruct (find_row _ (bw_rows (on_rows _ _))) as [r2|] eqn:E2; [rewrite bind_eq; by apply refreshed|].
    by apply no_country in E2.
Qed.
Lemma remove_ok c s : code_ok c → list_ok s → list_ok (remove_country env true c s).2.
Proof.
  intros Hc Hs. unfold remove_country. rewrite (normalize_ok c Hc), bind_eq, find_country_eq, bind_eq. cbn [modify].
  destruct (find_row _ (bw_rows s)) as [r|] eqn:E; [apply refreshed, delete_table, Hs|].
  split; [apply delete_table, Hs|]. cbn [throw snd]. rewrite (proj2 Hs). unfold countries. cbn [on_rows bw_rows bw_kyc].
  rewrite rows_delete. apply no_country in E. unfold countries in E. revert E. generalize (rows (bw_rows s)).
  intros l. induction l as [|x l IH]; [done|]. rewrite fmap_cons. intros [Hx Hl]%not_elem_of_cons. rewrite filter_cons.
  rewrite bool_decide_false by congruence. rewrite decide_True by (intros []). rewrite fmap_cons. by apply Permutation_skip, IH.
Qed.

Lemma route_ok req r s : list_ok s → list_ok (country_route env C cfg true req r s).2.
Proof.
  intros Hs. unfold country_route. rewrite bind_eq. unfold lift at 1. destruct (run_guards _ _ _ _ _ _) as [u|e]; [|done].
  assert (∀ l s, (answer_countries (R := R) l s).2 = s) as Ha by (intros l t; unfold answer_countries; by destruct (mapM _ l)).
  destruct r as [|body|country body|country]; rewrite bind_eq.
  - unfold list_countries, gets. by rewrite Ha.
  - destruct (BlockedCountrySchema body) as [c|] eqn:E; [|done]. cbn [parsed_country mret M_ret]. rewrite bind_eq.
    pose proof (create_ok c s (body_code_ok _ _ E) Hs) as H.
    destruct (create_country _ _ _ _) as [[x|e] s']; [cbn beta iota; by rewrite Ha|done].
  - destruct (CountryCodeSchema _) as [from|] eqn:Ef; [|done]. cbn [parsed_country mret M_ret]. rewrite bind_eq.
    destruct (BlockedCountrySchema body) as [c|] eqn:E; [|done]. cbn [parsed_country mret M_ret]. rewrite bind_eq.
    pose proof (update_country_ok from c s (parsed_code_ok _ _ Ef) (body_code_ok _ _ E) Hs) as H.
    destruct (update_country _ _ _ _ _) as [[x|e] s']; [cbn beta iota; by rewrite Ha|done].
  - destruct (CountryCodeSchema _) as [c|] eqn:Ef; [|done]. cbn [parsed_country mret M_ret]. rewrite bind_eq.
    pose proof (remove_ok c s (parsed_code_ok _ _ Ef) Hs) as H. by destruct (remove_country _ _ _ _) as [[x|e] s'].
Qed.

(** Checks, jobs and updates of the provider leave the list alone. *)
Section Kept.
Context (e : KycEnv) (l : list string).
Abbreviation kept := (λ k : KycStore (T := T) (R := R), ks_blocked k = l).
Lemma kept_modify f : (∀ k, ks_blocked (f k) = ks_blocked k) → preserves kept (modify f).
Proof. intros Hf. apply preserves_modify. intros k Hk. by rewrite Hf. Qed.
Lemma kept_check c : c ≠ KInit → preserves kept (exec_kyc e c).
Proof.
  assert (∀ n ip b, preserves kept (runChecks e n ip b)) as Hr by (intros; unfold runChecks; preserve).
  assert (∀ key v ttl, preserves kept (cache_put key v ttl)) as Hp by (intros; by apply kept_modify).
  assert (∀ key, preserves kept (cache_drop key)) as Hd by (intros; by apply kept_modify).
  assert (∀ id, preserves kept (verify_account id)) as Hv by (intros; by apply kept_modify).
  assert (∀ v, preserves kept (save_verification v)) as Hsv by (intros; by apply kept_modify).
  assert (∀ j, preserves kept (modify (enqueue_job j))) as Hj by (intros; by apply kept_modify).
  assert (∀ id r, preserves kept (deny_if id r)) as Hdn by (intros; unfold deny_if, has_cache; preserve).
  assert (∀ a ip b, preserves kept (validate e a ip b)) as Hval by (intros; unfold validate, cached_result; preserve).
  assert (∀ j, preserves kept (validateJob e j)) as Hvj by (intros; unfold validateJob, verification_of; preserve).
  destruct c as [|id ip bd|id ip bd|id acc name bd ip|i|id st]; [done|..]; intros _.
  - change (preserves kept (verify e id ip bd)). unfold verify, kyc_account. preserve.
  - change (preserves kept (_ ← isVerified e id ip bd; mret tt)). unfold isVerified, kyc_account. preserve.
  - intros k Hk. cbn [exec_kyc]. case_bool_decide as Hid; [done|]. clear Hid. revert k Hk.
    change (preserves kept (requestVerification e id acc name bd ip)). unfold requestVerification. preserve.
  - intros k Hk. cbn [exec_kyc]. destruct (ks_queue k !! i) as [[job d]|]; [|done]. by apply Hvj.
  - change (preserves kept (handleProviderUpdate id st)). unfold handleProviderUpdate, verification_of. preserve.
Qed.
End Kept.

Lemma blocked_step_ok st s : step_reads st = true → list_ok s → list_ok (blocked_step env C cfg st s).
Proof.
  destruct st as [reads|reads req r|c]; cbn [step_reads blocked_step].
  - intros -> Hs. by apply started, Hs.
  - intros ->. apply route_ok.
  - intros Hc [Ht Hl]. unfold in_kyc.
    assert (c ≠ KInit) as Hne by by destruct c.
    pose proof (kept_check (reading (Some (countries s)) env) (ks_blocked (bw_kyc s)) c Hne (bw_kyc s) eq_refl) as H.
    destruct (exec_kyc _ _ _) as [o k] eqn:E. cbn in H. split; [exact Ht|].
    cbn [snd bw_kyc]. rewrite H. exact Hl.
Qed.

(** C16: Countries that administrators block are those the identity checks refuse. From a start of the process over a table
    of country codes, after any requests, checks, jobs and restarts, as long as the query of the list does not fail:
    the table holds each country once, as two capital letters, and a check of a person whose address
    is in a country is refused for its jurisdiction exactly when the table has that country. The table alone
    decides, whatever the setting KYC_BLOCKED_COUNTRIES lists ([setting_blocks_nobody] below). *)
Theorem blocked_list_is_enforced sts s :
  table_ok s → Forall (λ st, step_reads st = true) sts →
  let s' := blocked_run env C cfg (BStart true :: sts) s in
  table_ok s'
  ∧ ∀ n getCountry name ip birthdate c, ke_provider env = Some (n, getCountry) → getCountry ip = Ret c →
      (runChecks env name ip birthdate (bw_kyc s')).1 = Throw "Blocked jurisdiction" ↔ toUpperCase c ∈ countries s'.
Proof.
  intros Hs Hr. cbv zeta. assert (list_ok (blocked_run env C cfg (BStart true :: sts) s)) as [Ht Hl].
  { cbn. generalize (started s Hs). generalize (in_kyc env true kyc_init s).2. clear Hs s.
    induction Hr as [|st sts Hst _ IH]; intros s Hs; [done|]. cbn. by apply IH, blocked_step_ok. }
  split; [exact Ht|]. intros n getCountry name ip bd c Hp Hc. unfold runChecks. rewrite Hp, bind_eq. unfold lift. rewrite Hc.
  rewrite bind_eq. cbn [gets]. rewrite bind_eq. rewrite <-Hl. case_bool_decide as Hin; cbn [throw_if]; [done|].
  split; [|done]. intros H. exfalso. cbv [throw_if mret M_ret mbind M_bind gets throw] in H.
  repeat match goal with H : context [if ?b then _ else _] |- _ => destruct b end; by cbn in H.
Qed.

(** Only administrators change the table. *)
Lemma only_admins_block req reads r s :
  countries (country_route env C cfg reads req r s).2 ≠ countries s →
  ∃ a, admin_guard C cfg (hc_header req) (hc_now req) = Ret a.
Proof.
  unfold country_route. rewrite bind_eq. unfold lift at 1. cbn [run_guards].
  destruct (auth_guard _ _ _ _) as [u|e]; [|done]. cbn [mbind outcome_bind].
  destruct (admin_guard _ _ _ _) as [a|e]; [by exists a|done].
Qed.
End Facts.

(** ** Concrete runs *)

Definition cfg1 : AuthConfig := {|
  jwtSecrets := ["k"]; accessTtl := 900; refreshTtl := 1; resetReqLimit := 5; resetReqWindow := 1; resetTtl := 1;
  rateWindow := 1; rateMax := 5 |}.
Definition by_admin : HttpCall := {|
  hc_method := POST; hc_path := "/api/admin/blocked-countries"; hc_header := Some "Bearer kroot"; hc_now := 0; hc_throttled := false |}.
Definition country (c : string) : jsval := VObj [("country", VStr c)].
Definition blocked0 : BlockedWorld (T := list) (R := map_redis KycCached) := {|
  bw_rows := []; bw_kyc := kyc0 cache0 |}.
Definition block_two : list BlockedStep := [
  BRequest true by_admin (CCreate (country " ir ")); BRequest true by_admin (CCreate (country "kp"));
  BRequest true by_admin (CUpdate "ir" (country "de"))].

Lemma blocked_list_is_enforced_witness :
  let s := blocked_run kyc_env0 crypto1 cfg1 (BStart true :: block_two) blocked0 in
  countries s = ["DE"; "KP"]
  ∧ (runChecks kyc_env0 "Ann" "1.2.3.4" "1970-01-01" (bw_kyc s)).1 = Throw "Blocked jurisdiction".
Proof.
  assert (countries (blocked_run kyc_env0 crypto1 cfg1 (BStart true :: block_two) blocked0) = ["DE"; "KP"]) as E
    by (vm_compute; reflexivity).
  split; [exact E|].
  refine (proj2 (proj2 (blocked_list_is_enforced kyc_env0 crypto1 cfg1 block_two blocked0 _ _) "GeoProvider" (λ _, Ret "de")
    "Ann" "1.2.3.4" "1970-01-01" "de" eq_refl eq_refl) _).
  - split; constructor.
  - repeat constructor.
  - rewrite E. vm_compute. left.
Defined.

(** When the query of the list fails once, every country is open until the next change or start. *)
Example failing_query_opens_every_country :
  let s := blocked_run kyc_env0 crypto1 cfg1
    (BStart true :: block_two ++ [BRequest false by_admin (CCreate (country "sy"))]) blocked0 in
  countries s = ["DE"; "KP"; "SY"] ∧ ks_blocked (bw_kyc s) = []
  ∧ (runChecks kyc_env0 "Ann" "1.2.3.4" "1970-01-01" (bw_kyc s)).1 = Ret "de".
Proof. split_and!; vm_compute; reflexivity. Qed.

(** The setting [KYC_BLOCKED_COUNTRIES] lists a country, and its people pass: the list of the
    setting is read only when the query of the table fails at a start. *)
Definition setting_env : KycEnv := {|
  ke_provider := ke_provider kyc_env0; ke_blockedDb := ke_blockedDb kyc_env0; ke_blockedConfig := ["DE"];
  ke_sanctionedConfig := ke_sanctionedConfig kyc_env0; ke_sanctionedDb := ke_sanctionedDb kyc_env0; ke_pep := ke_pep kyc_env0;
  ke_flag := ke_flag kyc_env0; ke_onfido := ke_onfido kyc_env0; ke_geoip := ke_geoip kyc_env0;
  ke_blockedRegions := ke_blockedRegions kyc_env0; ke_configured := true; ke_apiUrl := ke_apiUrl kyc_env0;
  ke_apiKey := ke_apiKey kyc_env0; ke_fetch := ke_fetch kyc_env0; ke_queueUp := ke_queueUp kyc_env0;
  ke_now := ke_now kyc_env0; ke_dateOf := ke_dateOf kyc_env0 |}.
Example setting_blocks_nobody :
  let check reads := (runChecks setting_env "Ann" "1.2.3.4" "1970-01-01"
    (bw_kyc (blocked_run setting_env crypto1 cfg1 [BStart reads] blocked0))).1 in
  check true = Ret "de" ∧ check false = Throw "Blocked jurisdiction".
Proof. split; vm_compute; reflexivity. Qed.
