(* ===== verification/Metrics.v ===== *)
(** * Samples of latency and throughput

    shared/telemetry/metrics.ts and the gauges of backend/src/game/game.gateway.ts that are
    computed from it. Times are milliseconds, in whole numbers. *)

From S2P Require Import Prelude JsNum HandEval.
#[local] Open Scope list_scope.
#[local] Open Scope Z_scope.

(** ** metrics.ts *)

Definition addSample (arr : list Z) (value : Z) (maxSamples : nat) : list Z :=
  let arr := arr ++ [value] in if (maxSamples <? length arr)%nat then tail arr else arr.
(** [while (arr.length && arr[0] < cutoff) arr.shift()] *)
Fixpoint shift_before (cutoff : Z) (arr : list Z) : list Z :=
  match arr with [] => [] | x :: rest => if x <? cutoff then shift_before cutoff rest else arr end.
Definition recordTimestamp (arr : list Z) (ts windowMs : Z) : list Z := shift_before (ts - windowMs) (arr ++ [ts]).
(** [Math.floor((p / 100) * (sorted.length - 1))], on doubles *)
Definition percentile_index (p : Z) (length : nat) : option Z :=
  dbl_floor (dbl_mul (dbl_div (dbl_of_Z p) (dbl_of_Z 100)) (dbl_of_Z (Z.of_nat length - 1))).
(** [None] is [undefined]. *)
Definition percentile (arr : list Z) (p : Z) : option Z :=
  match arr with
  | [] => Some 0
  | _ => idx ← percentile_index p (length arr);
         if 0 <=? idx then js_sort asc arr !! Z.to_nat idx else None
  end.

(** ** The gateway's samples *)

Definition MAX_SAMPLES : nat := 1000.
Record GatewaySamples := {
  gs_ackLatency : list Z; gs_stateLatency : list Z; gs_timestamps : list Z; gs_throughput : list Z;
  gs_maxQueueSizes : gmap string Z }.
Definition no_samples : GatewaySamples :=
  {| gs_ackLatency := []; gs_stateLatency := []; gs_timestamps := []; gs_throughput := []; gs_maxQueueSizes := ∅ |}.

Definition recordStateLatency (start now : Z) (s : GatewaySamples) : GatewaySamples :=
  {| gs_ackLatency := gs_ackLatency s; gs_stateLatency := addSample (gs_stateLatency s) (now - start) MAX_SAMPLES;
     gs_timestamps := gs_timestamps s; gs_throughput := gs_throughput s; gs_maxQueueSizes := gs_maxQueueSizes s |}.
Definition recordAckLatency (start now : Z) (s : GatewaySamples) : GatewaySamples :=
  {| gs_ackLatency := addSample (gs_ackLatency s) (now - start) MAX_SAMPLES; gs_stateLatency := gs_stateLatency s;
     gs_timestamps := recordTimestamp (gs_timestamps s) now 1000; gs_throughput := gs_throughput s;
     gs_maxQueueSizes := gs_maxQueueSizes s |}.
(** The callback of the gauge of throughput: what it observes. *)
Definition observe_throughput (now : Z) (s : GatewaySamples) : Z * GatewaySamples :=
  let timestamps := shift_before (now - 1000) (gs_timestamps s) in
  let tps := Z.of_nat (length timestamps) in
  (tps, {| gs_ackLatency := gs_ackLatency s; gs_stateLatency := gs_stateLatency s; gs_timestamps := timestamps;
           gs_throughput := addSample (gs_throughput s) tps MAX_SAMPLES; gs_maxQueueSizes := gs_maxQueueSizes s |}).
(** The end of [enqueue], and [observeQueueMax], which starts over. *)
Definition note_depth (client : string) (depth : Z) (s : GatewaySamples) : GatewaySamples :=
  {| gs_ackLatency := gs_ackLatency s; gs_stateLatency := gs_stateLatency s; gs_timestamps := gs_timestamps s;
     gs_throughput := gs_throughput s;
     gs_maxQueueSizes := <[client := Z.max (default 0 (gs_maxQueueSizes s !! client)) depth]> (gs_maxQueueSizes s) |}.
Definition observeQueueMax (s : GatewaySamples) : list (string * Z) * GatewaySamples :=
  (map_to_list (gs_maxQueueSizes s),
   {| gs_ackLatency := gs_ackLatency s; gs_stateLatency := gs_stateLatency s; gs_timestamps := gs_timestamps s;
      gs_throughput := gs_throughput s; gs_maxQueueSizes := (λ _, 0) <$> gs_maxQueueSizes s |}).
(** The gauges of percentiles: of acknowledgements, states and throughput. *)
Definition observe_percentiles (s : GatewaySamples) : list (option Z) :=
  (percentile (gs_ackLatency s) <$> [50; 95; 99]) ++ (percentile (gs_stateLatency s) <$> [50; 95; 99])
  ++ (percentile (gs_throughput s) <$> [50; 95; 99]).

Inductive SampleOp := SAck (start now : Z) | SState (start now : Z) | SThroughput (now : Z) | SDepth (client : string) (depth : Z) | SQueueMax.
Definition sample_step (s : GatewaySamples) (op : SampleOp) : GatewaySamples :=
  match op with
  | SAck start now => recordAckLatency start now s
  | SState start now => recordStateLatency start now s
  | SThroughput now => (observe_throughput now s).2
  | SDepth client depth => note_depth client depth s
  | SQueueMax => (observeQueueMax s).2
  end.
Definition sample_run (ops : list SampleOp) (s : GatewaySamples) : GatewaySamples := foldl sample_step s ops.

(** ** Bounds *)

Lemma addSample_bounded arr v n : (0 < n)%nat → (length arr ≤ n)%nat → (0 < length (addSample arr v n) ≤ n)%nat.
Proof.
  intros Hn Hl. unfold addSample. pose proof (length_app arr [v]) as E. cbn [length] in E.
  destruct (Nat.ltb_spec n (length (arr ++ [v]))); [|lia]. destruct (arr ++ [v]) as [|x l]; cbn in *; lia.
Qed.
Definition bounded (s : GatewaySamples) : Prop :=
  (length (gs_ackLatency s) ≤ MAX_SAMPLES ∧ length (gs_stateLatency s) ≤ MAX_SAMPLES
   ∧ length (gs_throughput s) ≤ MAX_SAMPLES)%nat.
Lemma samples_bounded ops : bounded (sample_run ops no_samples).
Proof.
  assert (bounded no_samples) as H0 by (unfold bounded; cbn; lia). revert H0. generalize no_samples.
  unfold sample_run. induction ops as [|op ops IH]; intros s Hs; [exact Hs|]. cbn [foldl]. apply IH. clear IH.
  destruct Hs as (Ha & Hst & Ht).
  assert (∀ arr v, (length arr ≤ MAX_SAMPLES)%nat → (length (addSample arr v MAX_SAMPLES) ≤ MAX_SAMPLES)%nat) as Hadd
    by (intros arr v Harr; destruct (addSample_bounded arr v MAX_SAMPLES); [unfold MAX_SAMPLES; lia|done|done]).
  destruct op; (split_and!; cbn; [..|try done]; try done; by apply Hadd).
Qed.

(** ** Throughput *)

Lemma shift_before_filter cutoff arr : StronglySorted Z.le arr → shift_before cutoff arr = filter (λ t, cutoff <= t) arr.
Proof.
  induction 1 as [|x l Hl IH Hx]; [done|]. cbn [shift_before]. rewrite filter_cons. destruct (Z.ltb_spec x cutoff).
  - rewrite decide_False by lia. exact IH.
  - rewrite decide_True by done. f_equal. rewrite Forall_forall in Hx. clear IH Hl.
    induction l as [|y l IH]; [done|]. rewrite filter_cons, decide_True by (pose proof (Hx y ltac:(left)); lia).
    f_equal. apply IH. intros z Hz. apply Hx. by right.
Qed.
Lemma sorted_snoc_Z l x : StronglySorted Z.le l → Forall (λ y, y <= x) l → StronglySorted Z.le (l ++ [x]).
Proof.
  intros Hl Hx. apply StronglySorted_app_2; [|done|by repeat constructor]. intros a b Ha ->%list_elem_of_singleton.
  rewrite Forall_forall in Hx. by apply Hx.
Qed.

Lemma wider_filter c n (l : list Z) : (l ≠ [] → c <= n) → filter (λ t, n <= t) (filter (λ t, c <= t) l) = filter (λ t, n <= t) l.
Proof.
  intros Hc. destruct l as [|x l]; [done|]. specialize (Hc ltac:(done)). rewrite list_filter_filter_l; [done|]. intros; lia.
Qed.
(** With a clock that does not run backwards, the gauge shows the acknowledgements of the last second. *)
Lemma throughput_counts_last_second (acks : list (Z * Z)) (now : Z) :
  StronglySorted Z.le (acks.*2) → Forall (λ t, t <= now) (acks.*2) →
  (observe_throughput now (sample_run ((λ a, SAck a.1 a.2) <$> acks) no_samples)).1
  = Z.of_nat (length (filter (λ t, now - 1000 <= t) (acks.*2))).
Proof.
  intros Hs Hn. unfold observe_throughput. cbn [fst]. f_equal.
  assert (∃ c, gs_timestamps (sample_run ((λ a, SAck a.1 a.2) <$> acks) no_samples) = filter (λ t, c <= t) acks.*2
    ∧ ∀ n, Forall (λ t, t <= n) acks.*2 → acks ≠ [] → c <= n - 1000) as (c & -> & Hc).
  { clear Hn now. revert Hs. induction acks as [|[start t] acks IH] using rev_ind; intros Hs; [by exists 0|].
    rewrite !fmap_app. rewrite fmap_app in Hs. cbn [fmap list_fmap snd fst] in Hs |- *. apply StronglySorted_app in Hs as (Hlt & Hs & _).
    destruct (IH Hs) as (c & Ec & Hc). clear IH. exists (t - 1000).
    unfold sample_run in Ec |- *. rewrite foldl_app. cbn [foldl sample_step recordAckLatency gs_timestamps fmap list_fmap fst snd].
    rewrite Ec. split; [|intros n [_ [Hn _]%Forall_cons]%Forall_app _; lia].
    assert (Forall (λ t', t' <= t) acks.*2) as Ht by (apply Forall_forall; intros x Hx; apply Hlt; [done|by left]).
    unfold recordTimestamp. rewrite shift_before_filter.
    - rewrite !filter_app, (wider_filter c); [done|]. intros Hne. apply Hc; [done|]. by intros ->.
    - apply sorted_snoc_Z; [by apply sorted_filter|]. by apply Forall_filter_keep. }
  rewrite shift_before_filter by by apply sorted_filter. rewrite (wider_filter c); [done|]. intros Hne. apply Hc; [done|].
  by intros ->.
Qed.

(** ** Percentiles *)

(** For the three percentiles of the gauges and all lengths that occur, rounding does no harm. *)
Definition index_exact (factor : double) (p : Z) (n : nat) : bool :=
  bool_decide (dbl_floor (dbl_mul factor (dbl_of_Z (Z.of_nat n - 1))) = Some (p * (Z.of_nat n - 1) / 100)).
Lemma index_exact_upto factor p n : dbl_div (dbl_of_Z p) (dbl_of_Z 100) = factor →
  forallb (index_exact factor p) (seq 1 1000) = true → (0 < n ≤ MAX_SAMPLES)%nat →
  percentile_index p n = Some (p * (Z.of_nat n - 1) / 100).
Proof.
  intros Hf H Hn. unfold percentile_index. rewrite Hf. rewrite forallb_forall in H.
  specialize (H n (proj2 (in_seq 1000 1 n) ltac:(unfold MAX_SAMPLES in Hn; lia))). unfold index_exact in H.
  by apply bool_decide_eq_true_1 in H.
Qed.
Lemma percentile_index_exact p n : p ∈ [50; 95; 99] → (0 < n ≤ MAX_SAMPLES)%nat →
  percentile_index p n = Some (p * (Z.of_nat n - 1) / 100).
Proof.
  intros Hp Hn.
  repeat (apply elem_of_cons in Hp as [->|Hp];
    [eapply index_exact_upto; [vm_compute; reflexivity|vm_compute; reflexivity|done]|]).
  by apply not_elem_of_nil in Hp.
Qed.
(** A gauge shows one of the samples, with as many of them at or below it as the percentile says. *)
Lemma percentile_is_order_statistic p arr : p ∈ [50; 95; 99] → arr ≠ [] → (length arr ≤ MAX_SAMPLES)%nat →
  ∃ v, percentile arr p = Some v ∧ v ∈ arr
    ∧ p * (Z.of_nat (length arr) - 1) / 100 + 1 <= Z.of_nat (length (filter (λ x, x <= v) arr)).
Proof.
  intros Hp Ha Hl. unfold percentile. destruct arr as [|x0 arr0]; [done|]. set (arr := x0 :: arr0) in *.
  rewrite percentile_index_exact; [|done|split; [cbn; lia|done]]. cbn [mbind option_bind].
  set (i := p * (Z.of_nat (length arr) - 1) / 100).
  assert (0 <= i < Z.of_nat (length arr)) as Hi.
  { assert (0 <= p <= 100) as Hp'
      by (repeat (apply elem_of_cons in Hp as [->|Hp]; [lia|]); by apply not_elem_of_nil in Hp). unfold i. split; [apply Z.div_pos; [|lia]; cbn; nia|].
    apply Z.div_lt_upper_bound; cbn; nia. }
  destruct (Z.leb_spec 0 i); [|lia].
  destruct (lookup_lt_is_Some_2 (js_sort asc arr) (Z.to_nat i)) as [v Hv]; [rewrite js_sort_length; lia|].
  exists v. split; [done|]. split; [rewrite <-(js_sort_perm asc arr); by eapply list_elem_of_lookup_2|].
  assert (StronglySorted (λ a b, asc a b = true) (js_sort asc arr)) as Hs by (apply js_sort_sorted; unfold asc; intros; lia).
  rewrite <-(take_drop_middle _ _ _ Hv) in Hs.
  apply StronglySorted_app in Hs as (Hle & _ & _).
  assert (filter (λ x, x <= v) arr ≡ₚ filter (λ x, x <= v) (js_sort asc arr)) as -> by by rewrite js_sort_perm.
  rewrite <-(take_drop_middle _ _ _ Hv), filter_app, length_app, filter_cons, decide_True by lia. cbn [length].
  assert (filter (λ x, x <= v) (take (Z.to_nat i) (js_sort asc arr)) = take (Z.to_nat i) (js_sort asc arr)) as ->.
  { apply filter_all. intros x Hx. specialize (Hle x v Hx ltac:(left)). unfold asc in Hle. lia. }
  rewrite length_take, js_sort_length. lia.
Qed.
