(* ===== verification/GatewayRestart.v ===== *)
(** * What the gateway brings back: restarts, resumptions, proofs

    The rest of backend/src/game/game.gateway.ts: the states it reads from Redis and from its
    snapshots when it starts, the check [isInternalGameState] they go through, and the messages
    proof, replay and resume. Room and table of hands answer as parameters; [Room] says what a
    room answers. *)

From S2P Require Import Prelude SidePots StateMachine Store Engine Room Schemas HandAccess Gateway GatewaySafety GatewayFrames.
#[local] Open Scope string_scope.
#[local] Open Scope list_scope.
#[local] Open Scope Z_scope.

(** ** The check of stored states *)

Definition is_number (v : jsval) : bool := match v with VNum _ => true | _ => false end.
Definition is_string (v : jsval) : bool := match v with VStr _ => true | _ => false end.
Definition is_boolean (v : jsval) : bool := match v with VBool _ => true | _ => false end.
(** [typeof value === 'object' && value !== null], with what its properties read; an array has none of them. *)
Definition properties_of (v : jsval) : option (list (string * jsval)) :=
  match v with VObj fs => Some fs | VArr _ => Some [] | _ => None end.
Definition values_of (v : jsval) : list jsval := match v with VObj fs => fs.*2 | VArr l => l | _ => [] end.
Definition array_of (p : jsval → bool) (v : jsval) : bool := match v with VArr l => forallb p l | _ => false end.

Definition is_player (v : jsval) : bool :=
  match properties_of v with
  | None => false
  | Some fs =>
      is_string (field "id" fs) && is_number (field "stack" fs) && is_boolean (field "folded" fs)
      && is_number (field "bet" fs) && is_boolean (field "allIn" fs)
      && match field "holeCards" fs with VUndefined => true | cards => array_of is_number cards end
  end.
Definition is_side_pot (v : jsval) : bool :=
  match properties_of v with
  | None => false
  | Some fs =>
      is_number (field "amount" fs) && array_of is_string (field "players" fs)
      && match properties_of (field "contributions" fs) with
         | None => false
         | Some _ => forallb is_number (values_of (field "contributions" fs))
         end
  end.
Definition isInternalGameState (v : jsval) : bool :=
  match properties_of v with
  | None => false
  | Some fs =>
      is_string (field "phase" fs) && is_string (field "street" fs) && is_number (field "pot" fs)
      && is_number (field "currentBet" fs) && array_of is_player (field "players" fs)
      && array_of is_number (field "communityCards" fs) && array_of is_number (field "deck" fs)
      && array_of is_side_pot (field "sidePots" fs)
  end.

(** [JSON.parse(JSON.stringify(state))]; what a room answers has no deck. *)
Definition seen_value (s : SeenState) : jsval :=
  match s with
  | Internal s => state_value s
  | Public s => VObj [("phase", VStr (phase_name (pub_phase s))); ("street", VStr (street_text (pub_street s)));
      ("pot", VNum (pub_pot s)); ("sidePots", VArr (pot_value <$> pub_sidePots s));
      ("currentBet", VNum (pub_currentBet s)); ("players", VArr (public_player_value <$> pub_players s));
      ("communityCards", cards_value (pub_communityCards s))]
  end.

Lemma numbers_ok (l : list Z) : forallb is_number (VNum <$> l) = true.
Proof. by induction l. Qed.
Lemma array_ok {A} (p : jsval → bool) (f : A → jsval) (l : list A) : (∀ x, p (f x) = true) → array_of p (VArr (f <$> l)) = true.
Proof. intros H. cbn. induction l as [|x l IH]; [done|]. cbn. by rewrite H. Qed.

Lemma side_pot_ok p : is_side_pot (pot_value p) = true.
Proof.
  unfold is_side_pot, pot_value, properties_of. cbn [field String.eqb Ascii.eqb Bool.eqb].
  assert (array_of is_string (VArr (VStr <$> sp_players p)) = true) as -> by by apply array_ok.
  cbn. induction (sp_contributions p) as [|c l IH]; [done|]. exact IH.
Qed.
Lemma player_ok p : is_player (player_value p) = true.
Proof. destruct p as [i s f b a [cards|]]; [|done]. cbn. apply numbers_ok. Qed.

(** States of the engine pass the check, answers of a room do not. *)
Lemma internal_is_internal s : isInternalGameState (seen_value (Internal s)) = true.
Proof.
  unfold isInternalGameState, seen_value, state_value, properties_of. cbn [field String.eqb Ascii.eqb Bool.eqb is_string is_number andb].
  rewrite (array_ok is_player player_value _ player_ok), (array_ok is_side_pot pot_value _ side_pot_ok).
  unfold cards_value. by rewrite !(array_ok is_number VNum).
Qed.
Lemma public_is_not_internal s : isInternalGameState (seen_value (Public s)) = false.
Proof.
  unfold isInternalGameState, seen_value, properties_of. cbn [field String.eqb Ascii.eqb Bool.eqb array_of].
  by rewrite andb_false_r.
Qed.

(** ** restoreState *)

(** [key.substring(n)] *)
Fixpoint substring_from (n : nat) (s : string) : string :=
  match n, s with S n', String _ s' => substring_from n' s' | _, _ => s end.
Definition table_of (key : string) : string := substring_from (String.length "game:state" + 1) key.

Section Restart.
Context {R H : Type} `{!RedisOps R Cached, !RedisKeysOps R} `{!RedisHashOps H Z}.
Abbreviation Gw := (GameGateway (R := R) (H := H)).
Implicit Types (g : Gw).

(** The next process: the stores stay, the rest starts empty. *)
Definition restarted g : Gw :=
  {| gw_now := gw_now g; gw_store := gw_store g; gw_out := no_frames; gw_engines := ∅; gw_socketPlayers := ∅;
     gw_states := ∅; gw_lastSnapshot := ∅; gw_tick := 0; gw_globalActionCountValue := 0;
     gw_clock := {| clock_now := 0; clock_timers := [] |} |}.

(** [order: { tick: 'DESC' }] *)
Definition by_tick_desc (a b : string * Z * SeenState) : bool := b.1.2 <=? a.1.2.
Fixpoint restore_snapshots (snaps : list (string * Z * SeenState)) (states : gmap string SeenState) (tick : Z)
    : gmap string SeenState * Z :=
  match snaps with
  | [] => (states, tick)
  | (t, n, s) :: rest =>
      if bool_decide (is_Some (states !! t)) then restore_snapshots rest states tick
      else if isInternalGameState (seen_value s)
      then restore_snapshots rest (<[t := s]> states) (if tick <? n then n else tick)
      else restore_snapshots rest states tick
  end.
Definition restore_cached (r : R) (keys : list string) (states : gmap string SeenState) : gmap string SeenState :=
  foldl (λ m key, match r_get key r with
                  | Some (CState s) => if isInternalGameState (seen_value s) then <[table_of key := s]> m else m
                  | _ => m
                  end) states keys.
Definition restoreState : M Gw unit :=
  snaps ← gets (λ g, js_sort by_tick_desc (st_snapshots (gw_store g)));
  modify (λ g, let '(states, tick) := restore_snapshots snaps (gw_states g) (gw_tick g) in
               set_game states (gw_lastSnapshot g) tick g) ;;
  storedTick ← gets (λ g, r_get "game:tick" (st_redis (gw_store g)));
  match storedTick with
  | Some (CTick n) => modify (λ g, set_game (gw_states g) (gw_lastSnapshot g) n g)
  | _ => mret tt
  end ;;
  keys ← gets (λ g, r_keys "game:state:" (st_redis (gw_store g)));
  modify (λ g, set_game (restore_cached (st_redis (gw_store g)) keys (gw_states g)) (gw_lastSnapshot g) (gw_tick g) g).
(** [onModuleInit] of the next process *)
Definition restart_gateway g : Gw := (restoreState (restarted g)).2.
End Restart.

(** ** proof, replay, resume *)

(** [!x], for a text that may be missing *)
Definition missing (x : option string) : bool := match x with Some s => bool_decide (s = "") | None => true end.
(** [sanitize(state)] for no player *)
Definition hide_cards (p : PublicPlayer) : PublicPlayer :=
  {| pub_id := pub_id p; pub_stack := pub_stack p; pub_folded := pub_folded p; pub_bet := pub_bet p;
     pub_allIn := pub_allIn p; pub_holeCards := None |}.
Definition sanitize_seen (s : SeenState) : PublicState :=
  match s with
  | Internal s => sanitize s None
  | Public s => {| pub_phase := pub_phase s; pub_street := pub_street s; pub_pot := pub_pot s; pub_sidePots := pub_sidePots s;
                   pub_currentBet := pub_currentBet s; pub_players := hide_cards <$> pub_players s;
                   pub_communityCards := pub_communityCards s |}
  end.

Section Messages.
Context {R H : Type} `{!RedisOps R Cached} `{!RedisHashOps H Z} (env : GatewayEnv).
Abbreviation GM := (M (GameGateway (R := R) (H := H))).

Definition handleProof (hands : option (string → option HandRow)) (c : Client) (handId : string) : GM unit :=
  limited ← isRateLimited env c;
  if (limited : bool) then mret tt
  else match hands with
  | None => enqueue env c (FError "proof unavailable") false
  | Some findOne =>
      match findOne handId with
      | Some h =>
          if missing (hd_seed h) || missing (hd_nonce h) then enqueue env c (FError "proof unavailable") false
          else enqueue env c (FProof (hd_commitment h) (default "" (hd_seed h)) (default "" (hd_nonce h))) true
      | None => enqueue env c (FError "proof unavailable") false
      end
  end.

(** [answer] is what the room of the table default answers. *)
Definition handleReplay (c : Client) (answer : outcome (option SeenState)) : GM unit :=
  if disabled env "dealing" "default" then enqueue env c (FError "dealing disabled") false
  else
    state ← lift answer;
    match state with
    | None => throw "TypeError"
    | Some s =>
        tick ← gets gw_tick;
        enqueue env c (FState (sanitize_seen s) tick) false
    end.
Definition handleResume (c : Client) (tick : option nat) (resume : nat → outcome (list (nat * SeenState))) : GM unit :=
  if disabled env "dealing" "default" then enqueue env c (FError "dealing disabled") false
  else
    states ← lift (resume (default 0%nat tick));
    for_each states (λ '(index, s), enqueue env c (FState (sanitize_seen s) (Z.of_nat index + 1)) false).
End Messages.

(** ** What a restart restores *)

Lemma table_of_stateKey t : table_of (stateKey t) = t.
Proof. reflexivity. Qed.
Lemma key_of_prefix k : String.prefix "game:state:" k = true → k = stateKey (table_of k).
Proof.
  unfold stateKey, table_of. change (String.length "game:state" + 1)%nat with 11%nat.
  do 11 (destruct k as [|c k]; [discriminate|]; cbn [String.prefix]; destruct (ascii_dec _ c) as [<-|]; [|discriminate]).
  reflexivity.
Qed.

Section RestartFacts.
Context {R H : Type} `{!RedisOps R Cached, !RedisLaws R Cached, !RedisKeysOps R, !RedisKeysLaws R Cached} `{!RedisHashOps H Z}.
Context (env : GatewayEnv).
Abbreviation Gw := (GameGateway (R := R) (H := H)).
Abbreviation Snap := (string * Z * SeenState)%type.
Implicit Types (g : Gw) (r : R).

Definition is_internal (s : SeenState) : bool := match s with Internal _ => true | Public _ => false end.
Lemma check_is_internal s : isInternalGameState (seen_value s) = is_internal s.
Proof. destruct s; [apply internal_is_internal|apply public_is_not_internal]. Qed.

Definition cached_state r t : option SeenState :=
  match r_get (stateKey t) r with Some (CState s) => if is_internal s then Some s else None | _ => None end.
Lemma restore_cached_keys r ks m t :
  Forall (λ k, String.prefix "game:state:" k = true) ks →
  restore_cached r ks m !! t =
  match cached_state r t with Some s => if decide (stateKey t ∈ ks) then Some s else m !! t | None => m !! t end.
Proof.
  intros Hks. revert m. induction Hks as [|k ks Hk Hks IH]; intros m.
  { cbn. destruct (cached_state r t); [|done]. by rewrite decide_False by apply not_elem_of_nil. }
  apply key_of_prefix in Hk. unfold restore_cached in *. cbn [foldl]. rewrite IH. clear IH.
  set (m' := match r_get k r with Some _ => _ | None => _ end).
  assert (m' !! t = match cached_state r t with Some s => if decide (stateKey t = k) then Some s else m !! t | None => m !! t end) as ->.
  { unfold m', cached_state. destruct (decide (stateKey t = k)) as [<-|Hne].
    - destruct (r_get (stateKey t) r) as [[s|n]|]; [|done..]. rewrite check_is_internal, table_of_stateKey.
      destruct (is_internal s); [by rewrite lookup_insert_eq|done].
    - assert (table_of k ≠ t) as Hkt by congruence.
      destruct (r_get k r) as [[s|n]|]; [rewrite check_is_internal; destruct (is_internal s); [rewrite lookup_insert_ne by done|]| |];
        (destruct (r_get (stateKey t) r) as [[s'|n']|]; [destruct (is_internal s')|..]); done. }
  destruct (cached_state r t) as [s|]; [|done].
  destruct (decide (stateKey t ∈ ks)) as [Hin|Hn].
  - by rewrite decide_True by (by right).
  - destruct (decide (stateKey t = k)) as [->|Hne]; [by rewrite decide_True by left|].
    by rewrite decide_False by (by intros [?|?]%elem_of_cons).
Qed.
Lemma restore_all_keys r m t :
  restore_cached r (r_keys "game:state:" r) m !! t = match cached_state r t with Some s => Some s | None => m !! t end.
Proof.
  rewrite restore_cached_keys by (apply Forall_forall; intros k; apply keys_prefix).
  destruct (cached_state r t) as [s|] eqn:E; [|done]. rewrite decide_True; [done|].
  unfold cached_state in E. destruct (r_get (stateKey t) r) as [v|] eqn:Ev; [|done]. apply (keys_all (V := Cached) _ _ v); [done|by destruct t].
Qed.

(** The last snapshot of a table that passes the check. *)
Definition usable (t : string) (x : Snap) : Prop := x.1.1 = t ∧ is_internal x.2 = true.
#[local] Instance usable_dec t x : Decision (usable t x).
Proof. unfold usable. apply _. Defined.
Definition last_usable (snaps : list Snap) (t : string) : option SeenState := snd <$> last (filter (usable t) snaps).

Lemma restore_snapshots_states snaps m n t :
  (restore_snapshots snaps m n).1 !! t
  = match m !! t with Some s => Some s | None => snd <$> head (filter (usable t) snaps) end.
Proof.
  revert m n. induction snaps as [|[[t' k] s] snaps IH]; intros m n; [cbn; by destruct (m !! t)|].
  cbn [restore_snapshots]. rewrite filter_cons. case_bool_decide as Hs; [|rewrite check_is_internal; destruct (is_internal s) eqn:Es].
  - rewrite IH. destruct (m !! t) as [s'|] eqn:E; [done|]. rewrite decide_False; [done|].
    intros [Ht _]. cbn in Ht. subst t'. destruct Hs as [? Hs]. congruence.
  - rewrite IH. destruct (decide (t' = t)) as [->|Hne].
    + rewrite lookup_insert_eq, decide_True by done. destruct (m !! t) as [s'|] eqn:E; [|done]. by destruct Hs.
    + rewrite lookup_insert_ne by done. rewrite decide_False; [done|]. by intros [? _].
  - rewrite IH. rewrite decide_False; [done|]. unfold usable; cbn. intros [_ ?]. congruence.
Qed.
Lemma head_reverse_filter (P : Snap → Prop) `{!∀ x, Decision (P x)} snaps : head (filter P (reverse snaps)) = last (filter P snaps).
Proof.
  induction snaps as [|x snaps IH] using rev_ind; [done|]. rewrite reverse_snoc, filter_app, !filter_cons, filter_nil.
  case_decide; [by rewrite last_snoc|]. by rewrite app_nil_r.
Qed.

(** What holds between handlers: Redis has the states and the tick, the snapshots are in the order of their ticks. *)
Record kept_up (n : Z) (g : Gw) : Prop := {
  ku_states : ∀ t, r_get (stateKey t) (st_redis (gw_store g)) = CState <$> gw_states g !! t;
  ku_sorted : StronglySorted (λ x y : Snap, x.1.2 < y.1.2) (st_snapshots (gw_store g));
  ku_ticks : Forall (λ x : Snap, x.1.2 <= n) (st_snapshots (gw_store g)) }.
Definition at_rest (g : Gw) : Prop :=
  kept_up (gw_tick g) g ∧
  match r_get "game:tick" (st_redis (gw_store g)) with
  | Some (CTick n) => n = gw_tick g
  | Some (CState _) => False
  | None => gw_tick g = 0 ∧ st_snapshots (gw_store g) = []
  end.

Lemma sorted_desc snaps : StronglySorted (λ x y : Snap, x.1.2 < y.1.2) snaps → js_sort by_tick_desc snaps = reverse snaps.
Proof.
  intros Hs. assert (∀ a b : Snap, a ∈ snaps → b ∈ snaps → a.1.2 = b.1.2 → a = b) as Heq.
  { intros a b Ha Hb Heq.
    induction Hs as [|x snaps Hs IH Hx]; [by apply not_elem_of_nil in Ha|]. rewrite Forall_forall in Hx.
    apply elem_of_cons in Ha as [->|Ha], Hb as [->|Hb]; [done| | |by apply IH]; [apply Hx in Hb|apply Hx in Ha]; lia. }
  apply (StronglySorted_unique_strong (λ a b, by_tick_desc a b = true)).
  - intros a b Ha Hb. rewrite js_sort_perm in Ha. rewrite elem_of_reverse in Hb. unfold by_tick_desc. intros. apply Heq; [done..|lia].
  - apply js_sort_sorted; unfold by_tick_desc; intros; lia.
  - apply (sorted_reverse (λ a b, by_tick_desc b a = true)). clear Heq. induction Hs as [|x snaps Hs IH Hx]; constructor; [done|].
    eapply Forall_impl; [exact Hx|]. unfold by_tick_desc. cbn. intros; lia.
  - by rewrite js_sort_perm, reverse_Permutation.
Qed.

Lemma restart_eq g : at_rest g →
  gw_tick (restart_gateway g) = gw_tick g
  ∧ ∀ t, gw_states (restart_gateway g) !! t =
      match gw_states g !! t with Some (Internal s) => Some (Internal s) | _ => last_usable (st_snapshots (gw_store g)) t end.
Proof.
  intros [[Hst Hso Hti] Hn]. unfold restart_gateway, restoreState. cbn [mbind M_bind gets modify].
  unfold mbind, M_bind, gets, modify. cbn beta iota. cbn [restarted gw_store]. rewrite (sorted_desc _ Hso).
  destruct (restore_snapshots _ _ _) as [states tick] eqn:Es. cbn [restarted gw_states gw_tick] in Es.
  assert (∀ t, states !! t = last_usable (st_snapshots (gw_store g)) t) as Hs.
  { intros t. pose proof (restore_snapshots_states (reverse (st_snapshots (gw_store g))) ∅ 0 t) as E. rewrite Es in E.
    cbn [fst] in E. rewrite E, lookup_empty. unfold last_usable. by rewrite head_reverse_filter. }
  assert (∀ t, restore_cached (st_redis (gw_store g)) (r_keys "game:state:" (st_redis (gw_store g))) states !! t =
    match gw_states g !! t with Some (Internal s) => Some (Internal s) | _ => last_usable (st_snapshots (gw_store g)) t end) as Hall.
  { intros t. rewrite restore_all_keys. unfold cached_state. rewrite Hst, Hs. by destruct (gw_states g !! t) as [[s|s]|]. }
  cbn [restarted set_game gw_store gw_lastSnapshot].
  destruct (r_get "game:tick" (st_redis (gw_store g))) as [[s|n]|]; [done|by subst n|].
  destruct Hn as [Ht Hsn]. rewrite Hsn in Es. injection Es as _ <-. by rewrite Ht.
Qed.
End RestartFacts.

(** ** Handlers leave the stores in step *)

Section Steps.
Context {R H : Type} `{!RedisOps R Cached, !RedisLaws R Cached} `{!RedisHashOps H Z} (env : GatewayEnv).
Abbreviation Gw := (GameGateway (R := R) (H := H)).
Implicit Types (g : Gw).

(** All that [at_rest] looks at: the values of Redis, the snapshots, the states and the tick. *)
Definition same_view g g' : Prop :=
  (∀ t, r_get (stateKey t) (st_redis (gw_store g')) = r_get (stateKey t) (st_redis (gw_store g)))
  ∧ r_get "game:tick" (st_redis (gw_store g')) = r_get "game:tick" (st_redis (gw_store g))
  ∧ st_snapshots (gw_store g') = st_snapshots (gw_store g) ∧ gw_states g' = gw_states g ∧ gw_tick g' = gw_tick g.
Lemma kept_view n g g' : same_view g g' → kept_up n g → kept_up n g'.
Proof. intros (Hr & _ & Hs & Hst & _) [A B C]. split; [intros t; by rewrite Hr, Hst|by rewrite Hs..]. Qed.
Lemma rest_view g g' : same_view g g' → at_rest g → at_rest g'.
Proof.
  intros Hv [Hk Ht]. pose proof Hv as (_ & Hr & Hs & _ & Hn). split; [rewrite Hn; by eapply kept_view|]. by rewrite Hr, Hs, Hn.
Qed.
Lemma view_refl g : same_view g g.
Proof. done. Qed.
Lemma view_trans g1 g2 g3 : same_view g1 g2 → same_view g2 g3 → same_view g1 g3.
Proof. intros (A & B & C & D & E) (A' & B' & C' & D' & E'). split_and!; [intros t|..]; congruence. Qed.
(** [m] keeps the view whatever it answers. *)
Definition quiet {A} (m : M Gw A) : Prop := ∀ g, same_view g (m g).2.
Lemma quiet_iff {A} (m : M Gw A) : (∀ g0, preserves (same_view g0) m) ↔ quiet m.
Proof. split; intros Hm; [intros g; by apply Hm, view_refl|intros g0 g Hg; eapply view_trans; [exact Hg|apply Hm]]. Qed.
Lemma view_modify g0 f : (∀ g, same_view g (f g)) → preserves (same_view g0) (modify f).
Proof. intros Hf g Hg. eapply view_trans; [exact Hg|]. apply Hf. Qed.

Lemma quiet_enqueue g0 c f b : preserves (same_view g0) (enqueue env c f b).
Proof. by apply view_modify. Qed.
Lemma quiet_ack g0 c ev id b : preserves (same_view g0) (ack env c ev id b).
Proof. apply quiet_enqueue. Qed.
Lemma quiet_refuse g0 c msg id : preserves (same_view g0) (refuse env c msg id).
Proof. unfold refuse. preserve; [apply quiet_enqueue|apply quiet_ack]. Qed.
Lemma quiet_count g0 key : (∀ t, stateKey t ≠ key) → "game:tick" ≠ key → preserves (same_view g0) (count_action (H := H) key).
Proof.
  intros Hk Ht. unfold count_action. intros g Hg. eapply view_trans; [exact Hg|]. cbn.
  split_and!; [intros t; by apply get_incrby|by apply get_incrby|done..].
Qed.
Lemma quiet_limit g0 c : preserves (same_view g0) (isRateLimited (H := H) env c).
Proof.
  unfold isRateLimited, expire_fresh, getRateLimitKey, globalActionCounterKey.
  preserve; try (apply quiet_count; [intros t|]; discriminate); try apply quiet_enqueue; apply view_modify; [..|done|done];
    intros g; (split_and!; [intros t; apply get_expire|apply get_expire|done..]).
Qed.
#[local] Hint Resolve quiet_enqueue quiet_ack quiet_refuse quiet_limit : hub.

Lemma tick_is_no_state t : "game:tick" ≠ stateKey t.
Proof. discriminate. Qed.
Lemma state_keys t t' : stateKey t = stateKey t' → t = t'.
Proof. intros E. by rewrite <-(table_of_stateKey t), E. Qed.

(** *** The writes *)

Lemma kept_more n n' g : n <= n' → kept_up n g → kept_up n' g.
Proof. intros Hn [A B C]. split; [done..|]. eapply Forall_impl; [exact C|]. cbn. intros. lia. Qed.
Lemma kept_write n t s g g' :
  kept_up n g → gw_states g' = <[t := s]> (gw_states g) → st_snapshots (gw_store g') = st_snapshots (gw_store g) →
  st_redis (gw_store g') = r_set (stateKey t) (CState s) 0 (st_redis (gw_store g)) → kept_up n g'.
Proof.
  intros [A B C] Hs Hn Hr. split; [|by rewrite Hn..]. intros t'. rewrite Hr, Hs, get_set, lookup_insert, A.
  destruct (decide (t = t')) as [<-|Hne]; [by rewrite decide_True|].
  rewrite decide_False; [done|]. intros E%state_keys. by subst.
Qed.
(** After the write of the tick, the snapshots are older than it. *)
Definition written g : Prop :=
  kept_up (gw_tick g - 1) g ∧ r_get "game:tick" (st_redis (gw_store g)) = Some (CTick (gw_tick g)).
Lemma put_tick n g : n = gw_tick g → kept_up (n - 1) g → written (put_redis "game:tick" (CTick n) g).2.
Proof.
  intros -> [A B C]. split; [split|]; cbn; [intros t| done|done|].
  - rewrite get_set, decide_False by (intros E; by apply (tick_is_no_state t)). apply A.
  - by rewrite get_set, decide_True.
Qed.
Lemma written_rest g : written g → at_rest g.
Proof. intros [Hk Ht]. split; [|by rewrite Ht]. eapply kept_more; [|exact Hk]. lia. Qed.
Lemma snapshot_rest t s g : written g → at_rest (maybeSnapshot t s g).2.
Proof.
  intros Hw. unfold maybeSnapshot. rewrite !bind_eq. cbn [gets]. rewrite bind_eq. unfold gets at 1. cbn beta iota.
  destruct (snapshotInterval <=? _); [|by apply written_rest]. cbn [when]. rewrite bind_eq. cbn [modify snd].
  destruct Hw as [[A B C] Ht]. split; [split|]; cbn; [exact A| | |by rewrite Ht].
  - apply StronglySorted_app_2; [|done|by repeat constructor]. intros x y Hx ->%list_elem_of_singleton. cbn.
    rewrite Forall_forall in C. apply C in Hx. lia.
  - apply Forall_app. split; [|repeat constructor; cbn; lia]. eapply Forall_impl; [exact C|]. cbn. intros. lia.
Qed.
Lemma drop_rest t g : at_rest g → at_rest (drop_state t g).2.
Proof.
  intros [[A B C] Ht]. unfold drop_state. rewrite bind_eq. cbn [modify snd]. split; [split|]; cbn; [intros t'|done|done|].
  - rewrite get_del, lookup_delete, A. destruct (decide (t = t')) as [<-|Hne]; [by rewrite decide_True|].
    rewrite decide_False; [done|]. intros E%state_keys. by subst.
  - rewrite get_del, decide_False by apply tick_is_no_state. exact Ht.
Qed.
Lemma rest_quiet {A} (m : M Gw A) : (∀ g0, preserves (same_view g0) m) → preserves at_rest m.
Proof. intros Hm g Hg. eapply rest_view; [|exact Hg]. by apply Hm, view_refl. Qed.
#[local] Hint Resolve drop_rest : hub.

(** *** The handler *)

Definition stage (p : option Pending) : nat :=
  match p with Some (PLooked _ _ _ _ _) => 4 | Some (PStored _ _ _ _) => 3 | Some (PFlags _ _ _ _) => 2
             | Some (PApplied _ _ _ _ _ _) => 1 | None => 0 end%nat.
Definition pending_ok (p : option Pending) g : Prop :=
  match p with Some (PApplied _ _ _ _ _ _) => kept_up (gw_tick g - 1) g | _ => at_rest g end.
Definition next_ok (p : option Pending) (r : outcome (option Pending) * Gw) : Prop :=
  match r.1 with Ret p' => (stage p' < stage p)%nat ∧ pending_ok p' r.2 | Throw _ => at_rest r.2 end.

Lemma refused_ok p c msg id g : (0 < stage p)%nat → at_rest g → next_ok p (refuse env c msg id g).
Proof.
  intros Hp Hg. pose proof (rest_quiet _ (λ g0, quiet_refuse g0 c msg id) g Hg) as H1. unfold next_ok.
  destruct (refuse env c msg id g) as [o g'] eqn:E. assert (o = Ret None) as -> by (unfold refuse in E; by injection E). done.
Qed.
Lemma apply_ok c id t a g : at_rest g → next_ok (Some (PFlags c id t a)) (apply_to_engine env c id t a g).
Proof.
  intros Hg. unfold apply_to_engine. rewrite bind_eq. unfold gets at 1. cbn beta iota.
  destruct (gw_engines g !! t) as [e|]; [|apply refused_ok; [cbn; lia|done]].
  destruct (applyAction _ _ _) as [[s|x] e'].
  - split; [cbn; lia|]. apply (kept_more (gw_tick g)); [change (gw_tick g <= gw_tick g + 1 - 1); lia|].
    apply (kept_write _ t (Internal s) g); [apply Hg|done..].
  - rewrite bind_eq. cbn [modify]. apply refused_ok; [cbn; lia|]. by eapply rest_view; [|exact Hg].
Qed.
Lemma after_ok c id t a s n g : kept_up (gw_tick g - 1) g → at_rest (after_apply env c id t a s n g).2.
Proof.
  intros Hg. unfold after_apply. rewrite bind_eq. unfold gets at 1. cbn beta iota.
  pose proof (put_tick (gw_tick g) g eq_refl Hg) as H1. rewrite bind_eq. unfold put_redis at 1, modify at 1. cbn beta iota.
  unfold put_redis, modify in H1. cbn [snd] in H1. apply (snapshot_rest t (Internal s)) in H1. rewrite bind_eq.
  destruct (maybeSnapshot _ _ _) as [[u|x] g']; [|done]. cbn [snd] in H1. revert g' H1.
  match goal with |- ∀ g', _ → _ (?m g').2 => change (preserves at_rest m) end.
  preserve; try (apply rest_quiet; intros ?; (apply quiet_ack || by apply view_modify)). intros g1. apply drop_rest.
Qed.
Lemma none_bind {A B} (m : M Gw A) (k : A → M Gw (option B)) :
  (∀ a g p g', k a g = (Ret p, g') → p = None) → ∀ g p g', (m ≫= k) g = (Ret p, g') → p = None.
Proof. intros Hk g p g'. rewrite bind_eq. destruct (m g) as [[a|x] g1]; [apply Hk|done]. Qed.
Lemma after_none c id t a s n g p g' : after_apply env c id t a s n g = (Ret p, g') → p = None.
Proof. revert g p g'. unfold after_apply. do 8 (apply none_bind; intros ?). by intros g p g' [= <- _]. Qed.
Lemma next_rest p g : pending_ok (Some p) g → next_ok (Some p) (handle_next env p g).
Proof.
  destruct p as [c id t a existing|c id t a|c id t a|c id t a s n]; intros Hg.
  - cbn [handle_next]. rewrite bind_eq. unfold gets at 1. cbn beta iota.
    destruct (match existing with Some _ => _ | None => _ end).
    + split; [cbn; lia|]. by eapply rest_view; [|exact Hg].
    + split; [cbn; lia|]. by eapply rest_view; [|exact Hg].
  - cbn [handle_next]. rewrite bind_eq. destruct (acting_player a); (split; [cbn; lia|]); by eapply rest_view; [|exact Hg].
  - cbn [handle_next]. destruct (disabled _ "dealing" _); [apply refused_ok; [cbn; lia|done]|].
    destruct (disabled _ "settlement" _); [apply refused_ok; [cbn; lia|done]|]. by apply apply_ok.
  - pose proof (after_ok c id t a s n g Hg) as H1. cbn [handle_next]. unfold next_ok.
    destruct (after_apply env c id t a s n g) as [[p'|x] g'] eqn:E; [|done]. cbn [fst snd] in *.
    apply after_none in E as ->. by split; [cbn; lia|].
Qed.
Lemma handle_rest_ok n p g : (stage p ≤ n)%nat → pending_ok p g → at_rest (handle_rest env n p g).2.
Proof.
  revert p g. induction n as [|n IH]; intros p g Hn Hg.
  - destruct p as [[]|]; cbn in Hn; try lia. exact Hg.
  - destruct p as [p|]; [|exact Hg]. cbn [handle_rest]. rewrite bind_eq. pose proof (next_rest p g Hg) as H1. unfold next_ok in H1.
    destruct (handle_next env p g) as [[p'|x] g']; [|done]. destruct H1 as [H1 H2]. apply IH; [cbn [fst] in *; lia|done].
Qed.
End Steps.

(** ** Everything the gateway does *)

Section Run.
Context {R H : Type} `{!RedisOps R Cached, !RedisLaws R Cached, !RedisKeysOps R, !RedisKeysLaws R Cached} `{!RedisHashOps H Z}.
Context (env : GatewayEnv).
Abbreviation Gw := (GameGateway (R := R) (H := H)).
Implicit Types (g : Gw).

(** Only counters expire. *)
Definition keeps_states (op : GatewayOp) : Prop :=
  match op with OpExpire key => "game:tick" ≠ key ∧ ∀ t, stateKey t ≠ key | _ => True end.

Lemma begin_ok c raw id g : at_rest g →
  match handle_begin env c raw id g with
  | (Ret p, g') => (stage p ≤ 4)%nat ∧ pending_ok p g'
  | (Throw _, g') => at_rest g'
  end.
Proof.
  intros Hg. unfold handle_begin. rewrite bind_eq.
  assert (at_rest (isRateLimited env c g).2) as H1 by (apply (rest_quiet _ (λ g0, quiet_limit env g0 c)), Hg).
  destruct (isRateLimited env c g) as [[[]|x] g1]; [split; [cbn; lia|exact H1]| |exact H1].
  destruct (parse_action raw) as [[t a]|x].
  - rewrite bind_eq. unfold gets at 1. cbn beta iota.
    destruct (match acting_player a with Some _ => _ | None => _ end).
    + assert (next_ok (Some (PLooked c id t a None)) (refuse env c "player mismatch" id g1)) as H2
        by (apply refused_ok; [cbn; lia|exact H1]). unfold next_ok in H2.
      destruct (refuse _ _ _ _ _) as [[p|x] g2]; [|exact H2]. split; [cbn [fst stage] in *; lia|apply H2].
    + split; [cbn; lia|exact H1].
  - rewrite bind_eq. apply (rest_quiet _ (λ g0, quiet_ack env g0 c "action:ack" id false)) in H1.
    by destruct (ack _ _ _ _ _ _) as [[u|y] g2].
Qed.
Lemma timeout_rest t answer over g : at_rest g → at_rest (handleTimeout t answer over g).2.
Proof.
  intros Hg. destruct answer as [s|]; [|exact Hg]. unfold handleTimeout. rewrite bind_eq. unfold modify at 1. cbn beta iota.
  rewrite bind_eq. unfold put_redis at 1, modify at 1. cbn beta iota. rewrite bind_eq. unfold gets at 1. cbn beta iota.
  set (g1 := on_store _ _). assert (kept_up (gw_tick g1 - 1) g1) as H1.
  { apply (kept_more (gw_tick g)); [change (gw_tick g <= gw_tick g + 1 - 1); lia|].
    apply (kept_write _ t s g); [apply Hg|done..]. }
  apply (put_tick (gw_tick g1) g1 eq_refl) in H1. rewrite bind_eq.
  unfold put_redis, modify in H1 |- *. cbn [snd] in H1. cbn beta iota. apply (snapshot_rest t s) in H1. rewrite bind_eq.
  destruct (maybeSnapshot _ _ _) as [[u|x] g']; [|exact H1]. cbn [snd] in H1.
  destruct over; [by apply drop_rest|exact H1].
Qed.
Lemma step_rest op g : keeps_states op → at_rest g → at_rest (gateway_step env op g).
Proof.
  intros Hop Hg. destruct op; cbn [gateway_step]; try (by eapply rest_view; [|exact Hg]).
  - unfold handleAction. rewrite bind_eq. pose proof (begin_ok c raw actionId g Hg) as H1.
    destruct (handle_begin env c raw actionId g) as [[p|x] g1]; [|exact H1]. destruct H1 as [H1 H2]. by apply handle_rest_ok.
  - revert g Hg. change (preserves at_rest (handleSeat (R := R) (H := H) env c event actionId)).
    apply rest_quiet. intros g0. unfold handleSeat, acknowledge.
    preserve; try apply quiet_limit; try apply quiet_ack; by apply view_modify.
  - destruct playerId; by eapply rest_view; [|exact Hg].
  - by apply timeout_rest.
  - eapply rest_view; [|exact Hg]. destruct Hop as [Ht Hs].
    split_and!; [intros t; cbn; by rewrite get_del, decide_False|cbn; by rewrite get_del, decide_False|done..].
Qed.
Lemma run_rest ops g : Forall keeps_states ops → at_rest g → at_rest (gateway_run env ops g).
Proof. intros Hops. revert g. induction Hops as [|op ops Hop _ IH]; intros g Hg; [exact Hg|]. by apply IH, step_rest. Qed.

(** C9: What a restart brings back. After any messages, time-outs and connections of a gateway that began with empty stores,
    the next process starts from the same tick, and every table has the state it had if the last one came from an
    action; a table whose hand is over, or whose last state is what a room answered to a time-out, gets the
    state of the last snapshot of it that came from an action, if there is one. *)
Theorem restart_restores_tables (ops : list GatewayOp) g :
  gw_states g = ∅ → gw_tick g = 0 → st_snapshots (gw_store g) = [] →
  r_get "game:tick" (st_redis (gw_store g)) = None → (∀ t, r_get (stateKey t) (st_redis (gw_store g)) = None) →
  Forall keeps_states ops →
  let g' := gateway_run env ops g in
  gw_tick (restart_gateway g') = gw_tick g'
  ∧ ∀ t, gw_states (restart_gateway g') !! t =
      match gw_states g' !! t with
      | Some (Internal s) => Some (Internal s)
      | _ => last_usable (st_snapshots (gw_store g')) t
      end.
Proof.
  intros Hs Hn Hsn Hr Hk Hops. apply restart_eq, run_rest; [done|]. split; [split|].
  - intros t. by rewrite Hk, Hs, lookup_empty.
  - rewrite Hsn. constructor.
  - rewrite Hsn. constructor.
  - by rewrite Hr.
Qed.
End Run.

(** ** A resumption *)

Section Resume.
Context {R H : Type} `{!RedisOps R Cached} `{!RedisHashOps H Z} (env : GatewayEnv).
Abbreviation Gw := (GameGateway (R := R) (H := H)).

Definition queue_of (c : Client) (g : Gw) : list (Frame * bool) := default [] (ob_queues (gw_out g) !! cl_id c).
Definition resumed_frame (p : nat * SeenState) : Frame * bool := (FState (sanitize_seen p.2) (Z.of_nat p.1 + 1), false).

Lemma enqueue_all (c : Client) (l : list (nat * SeenState)) (g : Gw) :
  let room := (ge_queueLimit env - length (queue_of c g))%nat in
  let g' := (for_each l (λ '(index, s), enqueue env c (FState (sanitize_seen s) (Z.of_nat index + 1)) false) g).2 in
  queue_of c g' = queue_of c g ++ take room (resumed_frame <$> l)
  ∧ ob_sent (gw_out g') = ob_sent (gw_out g) ++ replicate (length l - room) (cl_id c, None, FError "throttled").
Proof.
  revert g. induction l as [|[i s] l IH]; intros g; [cbn; by rewrite take_nil, !app_nil_r|].
  set (frame := FState (sanitize_seen s) (Z.of_nat i + 1)). set (g1 := on_out (enqueue_out env (cl_id c) frame false) g).
  cbn [for_each]. cbv zeta in IH |- *. rewrite bind_eq. cbn beta iota. change (enqueue env c _ false g) with (Ret tt : outcome unit, g1).
  cbn beta iota. destruct (IH g1) as [H1 H2]. rewrite H1, H2. clear IH H1 H2.
  assert ((ge_queueLimit env <= length (queue_of c g))%nat ∧ queue_of c g1 = queue_of c g
          ∧ ob_sent (gw_out g1) = ob_sent (gw_out g) ++ [(cl_id c, None, FError "throttled")]
          ∨ (length (queue_of c g) < ge_queueLimit env)%nat ∧ queue_of c g1 = queue_of c g ++ [resumed_frame (i, s)]
          ∧ ob_sent (gw_out g1) = ob_sent (gw_out g)) as [(Hl & -> & ->)|(Hl & -> & ->)].
  { unfold g1, queue_of. cbn. unfold enqueue_out. destruct (Nat.leb_spec (ge_queueLimit env) (length (default [] (ob_queues (gw_out g) !! cl_id c)))).
    - left. done.
    - right. split_and!; [done| |done]. cbn. by rewrite lookup_insert_eq. }
  - replace (ge_queueLimit env - length (queue_of c g))%nat with 0%nat by lia. cbn [length]. rewrite Nat.sub_0_r.
    split; [done|]. by rewrite <-app_assoc.
  - rewrite length_app. cbn [length]. replace (ge_queueLimit env - length (queue_of c g))%nat
      with (S (ge_queueLimit env - (length (queue_of c g) + 1)))%nat by lia.
    split; [|done]. rewrite fmap_cons. cbn [take]. by rewrite <-app_assoc.
Qed.

(** A client that resumes from an index gets the states that the log of the room has from there, in order, without
    cards, as far as its queue has room; for each of the others it is told that it is throttled. *)
Lemma resume_sends_logged_states (c : Client) (from : nat) (e : GameEngine) (g : Gw) :
  disabled env "dealing" "default" = false →
  let states := filter (λ en, (from ≤ le_index en)%nat) (hl_entries (e_log e)) in
  let room := (ge_queueLimit env - length (queue_of c g))%nat in
  let g' := (handleResume env c (Some from) (λ n, Ret (logged_states n e)) g).2 in
  queue_of c g' = queue_of c g ++
    take room ((λ en, (FState (sanitize (le_post en) None) (Z.of_nat (le_index en) + 1), false)) <$> states)
  ∧ ob_sent (gw_out g') = ob_sent (gw_out g) ++ replicate (length states - room) (cl_id c, None, FError "throttled").
Proof.
  intros Hd. cbv zeta.
  assert (handleResume env c (Some from) (λ n, Ret (logged_states n e)) g = for_each (logged_states from e)
    (λ '(index, s), enqueue env c (FState (sanitize_seen s) (Z.of_nat index + 1)) false) g) as ->
    by (unfold handleResume; by rewrite Hd).
  destruct (enqueue_all c (logged_states from e) g) as [H1 H2]. rewrite H1, H2. unfold logged_states, worker_resume.
  rewrite !length_fmap, <-!list_fmap_compose. done.
Qed.
End Resume.

(** ** Concrete runs *)

Definition raw_u (ty : string) (p : option string) (n : option RawAmount) : RawAction :=
  {| ra_type := ty; ra_tableId := Some "u"; ra_playerId := p; ra_amount := n |}.
Definition seat_b : Client := {| cl_id := "s2"; cl_userId := Some "b"; cl_ip := "1.2.3.4" |}.
(** What a room answers to a time-out. *)
Definition after_timeout : SeenState :=
  Public {| pub_phase := BETTING_ROUND; pub_street := flop; pub_pot := 3; pub_sidePots := []; pub_currentBet := 0;
            pub_players := []; pub_communityCards := [1; 2; 3] |}.
(** Forty-nine time-outs at the table t, then a hand at the table u, whose first state is the fiftieth. *)
Definition busy_house : list GatewayOp :=
  repeat (OpTimeout "t" (Some after_timeout) false) 49
  ++ [OpStart "u" [5] [6] ["a"; "b"]; OpConnect client_a (Some "a"); OpConnect seat_b (Some "b");
      OpAction client_a (raw_u "postBlind" (Some "a") (Some (RInt 1))) "1";
      OpAction seat_b (raw_u "postBlind" (Some "b") (Some (RInt 2))) "2"].
Definition end_of_hand : list GatewayOp := [
  OpAction seat_b (raw_u "next" None None) "3"; OpAction client_a (raw_u "fold" (Some "a") None) "4";
  OpAction seat_b (raw_u "next" None None) "5"].
Definition phase_of (s : option SeenState) : option HandPhase :=
  match s with Some (Internal s) => Some (g_phase s) | _ => None end.

Lemma restart_restores_tables_witness :
  let g := gateway_run gateway_env busy_house empty_gateway in
  phase_of (gw_states g !! "u") = Some DEAL ∧ gw_tick (restart_gateway g) = 51 ∧ phase_of (gw_states (restart_gateway g) !! "u") = Some DEAL.
Proof.
  assert (Forall keeps_states busy_house) as Hops by repeat constructor.
  destruct (restart_restores_tables gateway_env busy_house empty_gateway) as [Ht Hs]; [vm_compute; reflexivity..|done|exact Hops|].
  split; [vm_compute; reflexivity|]. split; [rewrite Ht; vm_compute; reflexivity|]. rewrite Hs. vm_compute. reflexivity.
Defined.

(** A hand that is over comes back from its snapshot, and the table t, whose state is an answer of its room, is lost. *)
Example finished_hand_comes_back :
  let g := gateway_run gateway_env (busy_house ++ end_of_hand) empty_gateway in
  gw_states g !! "u" = None ∧ phase_of (gw_states (restart_gateway g) !! "u") = Some WAIT_BLINDS
  ∧ is_Some (gw_states g !! "t") ∧ gw_states (restart_gateway g) !! "t" = None.
Proof. split_and!; [vm_compute; reflexivity..| |vm_compute; reflexivity]. vm_compute. by eexists. Qed.
