(* ===== verification/WireSchemas.v ===== *)
(** * What the server answers and what a page reads

    The schemas of shared/types.ts, shared/wallet.schema.ts, shared/transactions.schema.ts,
    shared/schemas and backend/src/schemas that the routes ([HttpRoutes]) parse their answers
    with and the pages ([ApiCalls]) read them with. A schema that only checks and drops, lets
    through what it let through before, so an answer that passes on the server passes unchanged
    on the page. Answers that a handler builds and parses with nothing are here as values. Numbers are
    those of [Schemas]: the whole ones. *)

From S2P Require Import Prelude JsText Schemas AuditLog AuthRoutes WalletRoutes UserRoutes Bonus HandAccess History TournamentRoutes ApiClient HttpRoutes ApiCalls.
#[local] Open Scope string_scope.
#[local] Open Scope list_scope.
#[local] Open Scope Z_scope.

(** ** Schemas that parse twice as once *)

(** It answers what it was given. *)
Definition exact (s : schema) : bool :=
  match s with ZString _ | ZNumber _ | ZBoolean | ZEnum _ | ZUnknown => true | _ => false end.
(** A default that is a value of its schema. *)
Definition default_ok (s : schema) (d : jsval) : bool :=
  match s, d with
  | ZBoolean, VBool _ => true
  | ZNumber cs, VNum n => forallb (number_ok n) cs
  | ZString [], VStr _ => true
  | _, _ => false
  end.
Definition distinct (l : list string) : bool := bool_decide (NoDup l).
Fixpoint stable (s : schema) : bool :=
  match s with
  | ZString _ | ZNumber _ | ZBoolean | ZEnum _ | ZUnknown => true
  | ZArray s | ZArrayOf _ s | ZNonempty s | ZRecord s | ZOptional s | ZNullable s => stable s
  | ZDefault s d => stable s && default_ok s d
  | ZUnion l => forallb exact l
  | ZObject _ shape => distinct shape.*1 && forallb (λ p, stable p.2) shape
  | ZIntersection _ _ | ZStrict _ => false
  end.

Section Twice.
Context {ZO : ZodOps} {ZL : ZodLaws}.

Definition twice (s : schema) : Prop := ∀ v v', z_parse s v = Some v' → z_parse s v' = Some v'.

Lemma exact_same s v v' : exact s = true → z_parse s v = Some v' → v' = v.
Proof.
  destruct s; try done; intros _.
  - rewrite parse_string. destruct v; try done. destruct (forallb _ _); by intros [= <-].
  - rewrite parse_number. destruct v; try done. destruct (forallb _ _); by intros [= <-].
  - rewrite parse_boolean. destruct v; by intros [= <-].
  - rewrite parse_enum. destruct v; try done. case_bool_decide; by intros [= <-].
  - rewrite parse_unknown. by intros [= <-].
Qed.
Lemma exact_twice s : exact s = true → twice s.
Proof. intros Hs v v' H. pose proof (exact_same s v v' Hs H) as ->. exact H. Qed.
Lemma union_twice l : forallb exact l = true → twice (ZUnion l).
Proof.
  intros Hl v v'. rewrite !parse_union. intros H. assert (v' = v) as ->; [|exact H]. revert Hl H.
  induction l as [|s l IH]; cbn; [done|]. intros [Hs Hl]%andb_prop.
  destruct (z_parse s v) as [x|] eqn:E; [intros [= <-]; by apply (exact_same s)|by apply IH].
Qed.
Lemma mapM_twice (f : jsval → option jsval) l l' : (∀ v v', f v = Some v' → f v' = Some v') → mapM f l = Some l' → mapM f l' = Some l'.
Proof.
  intros Hf. revert l'. induction l as [|x l IH]; intros l'; cbn; [by intros [= <-]|].
  destruct (f x) as [y|] eqn:E; [|done]. cbn. destruct (mapM f l) as [ys|] eqn:E'; [|done]. cbn. intros [= <-].
  cbn. rewrite (Hf _ _ E). cbn. by rewrite (IH ys eq_refl).
Qed.
Lemma mapM_some_nil {A B} (f : A → option B) l l' : mapM f l = Some l' → l' = [] → l = [].
Proof. intros H ->. apply length_mapM in H. by destruct l. Qed.
Lemma array_twice s : twice s → twice (ZArray s).
Proof.
  intros Hs v v'. rewrite !parse_array. destruct v as [| | | | |l| |]; try done. destruct (mapM (z_parse s) l) as [l'|] eqn:E; [|done].
  cbn. intros [= <-]. by rewrite (mapM_twice _ _ _ Hs E).
Qed.
Lemma array_of_twice n s : twice s → twice (ZArrayOf n s).
Proof.
  intros Hs v v'. rewrite !parse_array_of. destruct v as [| | | | |l| |]; try done.
  destruct (Nat.eqb_spec (length l) n); [|done]. destruct (mapM (z_parse s) l) as [l'|] eqn:E; [|done].
  cbn. intros [= <-]. rewrite <-(length_mapM _ _ _ E). destruct (Nat.eqb_spec (length l) n); [|done].
  by rewrite (mapM_twice _ _ _ Hs E).
Qed.
Lemma nonempty_twice s : twice s → twice (ZNonempty s).
Proof.
  intros Hs v v'. rewrite !parse_nonempty. destruct v as [| | | | |l| |]; try done. case_bool_decide as Hl; [done|].
  destruct (mapM (z_parse s) l) as [l'|] eqn:E; [|done]. cbn. intros [= <-].
  rewrite bool_decide_false by (intros ->; by eapply Hl, mapM_some_nil). by rewrite (mapM_twice _ _ _ Hs E).
Qed.
Lemma record_twice s : twice s → twice (ZRecord s).
Proof.
  intros Hs v v'. rewrite parse_record. destruct v as [| | | | | |fs|]; try done.
  destruct (mapM _ fs) as [gs|] eqn:E; [|done]. cbn. intros [= <-]. apply record_accepted. revert gs E.
  induction fs as [|[k x] fs IH]; intros gs; cbn; [by intros [= <-]|].
  destruct (z_parse s x) as [y|] eqn:Ex; [|done]. cbn. destruct (mapM _ fs) as [gs'|]; [|done]. cbn. intros [= <-].
  constructor; [cbn; by eapply Hs|by apply IH].
Qed.
Lemma optional_twice s : twice s → twice (ZOptional s).
Proof. intros Hs v v'. rewrite !parse_optional. destruct v; [by intros [= <-]|..]; intros H%Hs; by destruct v'. Qed.
Lemma nullable_twice s : twice s → twice (ZNullable s).
Proof. intros Hs v v'. rewrite !parse_nullable. destruct v; [|by intros [= <-]|..]; intros H%Hs; by destruct v'. Qed.
Lemma default_twice s d : default_ok s d = true → twice (ZDefault s d).
Proof.
  intros Hd. assert (exact s = true) as He by by destruct s. assert (z_parse s d = Some d) as Hsd.
  { destruct s as [[|]|cs| | | | | | | | | | | | | |], d; try done; cbn in Hd.
    - by rewrite parse_string.
    - rewrite parse_number. by rewrite Hd.
    - by rewrite parse_boolean. }
  intros v v'. rewrite !parse_default. destruct v; [intros [= <-]; by destruct d|..];
    intros H; pose proof (exact_same s _ _ He H) as ->; exact H.
Qed.

(** Objects: what was parsed stands under its key, what was passed through under a key the shape does not have. *)
Lemma field_app k (xs ys : list (string * jsval)) : k ∉ ys.*1 → field k (xs ++ ys) = field k xs.
Proof.
  intros Hk. induction xs as [|[k' v] xs IH]; cbn; [by apply field_absent|]. by rewrite IH.
Qed.
Lemma shape_twice shape fs r rest :
  NoDup shape.*1 → Forall (λ p, twice p.2) shape → parse_shape z_parse shape fs = Some r → (∀ k, k ∈ rest.*1 → k ∉ shape.*1) →
  parse_shape z_parse shape (r ++ rest) = Some r.
Proof.
  intros Hn Hs Hr Hrest. rewrite <-Hr.
  assert (∀ p, p ∈ shape → z_parse p.2 (field p.1 (r ++ rest)) = z_parse p.2 (field p.1 fs)) as Heq.
  { intros [k s] Hin. cbn. pose proof (parse_shape_field _ _ _ _ _ _ Hr Hn Hin) as H.
    rewrite field_app by (intros Hk; eapply Hrest; [exact Hk|by apply (list_elem_of_fmap_2 fst _ (k, s))]).
    rewrite H. rewrite Forall_forall in Hs. by eapply (Hs (k, s)). }
  clear Hr Hn Hs Hrest. induction shape as [|[k s] shape IH]; [done|]. cbn.
  pose proof (Heq (k, s) ltac:(by left)) as H. cbn in H. rewrite H, IH; [done|]. intros p Hp. apply Heq. by right.
Qed.
Lemma filter_none {A} (P : A → Prop) `{!∀ x, Decision (P x)} (l : list A) : (∀ x, x ∈ l → ¬ P x) → filter P l = [].
Proof.
  induction l as [|x l IH]; [done|]. intros Hn. rewrite filter_cons, decide_False by (apply Hn; by left).
  apply IH. intros y Hy. apply Hn. by right.
Qed.
Lemma object_twice pass shape : NoDup shape.*1 → Forall (λ p, twice p.2) shape → twice (ZObject pass shape).
Proof.
  intros Hn Hs v v'. rewrite parse_object. destruct v as [| | | | | |fs|]; try done.
  destruct (parse_shape z_parse shape fs) as [r|] eqn:Er; [|done]. cbn. set (rest := if pass then _ else []).
  intros [= <-]. rewrite parse_object.
  assert (∀ k, k ∈ rest.*1 → k ∉ shape.*1) as Hrest.
  { unfold rest. destruct pass; [|by intros k ?%elem_of_nil]. by intros k (p & -> & [Hp _]%list_elem_of_filter)%list_elem_of_fmap. }
  rewrite (shape_twice _ _ _ _ Hn Hs Er Hrest). cbn. do 3 f_equal. destruct pass; [|done]. subst rest.
  rewrite filter_app, (filter_none _ r), list_filter_filter_l; [done|done|].
  intros p Hp Hk. apply Hk. eapply parse_shape_keys; [exact Er|]. by apply list_elem_of_fmap_2.
Qed.

Lemma stable_twice s : stable s = true → twice s.
Proof.
  revert s. fix IH 1. intros s.
  assert (∀ l : list (string * schema), forallb (λ p, stable p.2) l = true → Forall (λ p, twice p.2) l) as Hl.
  { induction l as [|p l IHl]; cbn; [constructor|]. intros [Hp H]%andb_prop. constructor; [|by apply IHl]. apply IH, Hp. }
  destruct s as [| | | |s|n s|s|s| |s|s|s d|l|a b|pass shape|shape]; cbn [stable]; intros Hs; try done; try by apply exact_twice.
  - by apply array_twice, IH.
  - by apply array_of_twice, IH.
  - by apply nonempty_twice, IH.
  - by apply record_twice, IH.
  - by apply optional_twice, IH.
  - by apply nullable_twice, IH.
  - apply andb_prop in Hs as [_ Hd]. by apply default_twice.
  - by apply union_twice.
  - apply andb_prop in Hs as [Hn Hs]. apply bool_decide_eq_true in Hn. apply object_twice; [done|by apply Hl].
Qed.
End Twice.

(** ** shared/types.ts *)

Definition s_int : schema := ZNumber [CInt].
Definition s_count : schema := ZNumber [CInt; CNonnegative].
Definition s_url : schema := ZString [CUrl].
Definition LanguageSchema : schema := s_object [("code", s_str); ("label", s_str)].
Definition LanguagesResponseSchema : schema := ZArray LanguageSchema.
Definition NavIconSchema : schema := s_object [("name", s_str); ("svg", s_str)].
Definition NavIconsResponseSchema : schema := ZArray NavIconSchema.
Definition NavItemSchema : schema := s_object [
  ("flag", s_str); ("href", s_str); ("label", s_str); ("icon", ZOptional s_str); ("order", s_int)].
Definition NavItemsResponseSchema : schema := ZArray NavItemSchema.
Definition ChartPaletteResponseSchema : schema := ZArray s_str.
Definition ChipDenominationsResponseSchema : schema := s_object [("denoms", ZNonempty (ZNumber [CPositive]))].
Definition TableThemeResponseSchema : schema := s_object [
  ("hairline", s_str); ("positions", ZRecord (s_object [("color", s_str); ("glow", s_str); ("badge", ZOptional s_str)]))].
Definition DashboardMetricsSchema : schema := s_object [
  ("online", s_num); ("revenue", s_num); ("activity", ZArray s_num); ("errors", ZArray s_num)].
Definition PromotionProgressSchema : schema := s_object [
  ("current", s_num); ("total", s_num); ("label", s_str); ("barColorClass", s_str)].
Definition PromotionBreakdownItemSchema : schema := s_object [("label", s_str); ("value", s_num)].
Definition PromotionSchema : schema := s_object [
  ("id", s_str); ("category", s_str); ("title", s_str); ("description", s_str); ("reward", s_str); ("unlockText", ZOptional s_str);
  ("statusText", ZOptional s_str); ("progress", ZOptional PromotionProgressSchema);
  ("breakdown", ZArray PromotionBreakdownItemSchema); ("eta", ZOptional s_str)].
Definition PromotionsResponseSchema : schema := ZArray PromotionSchema.
Definition UserStatusSchema : schema := ZEnum ["Active"; "Frozen"; "Banned"].
Definition UserRoleOptionSchema : schema := s_object [("value", UserRoleSchema); ("label", s_str)].
Definition UserStatusOptionSchema : schema := s_object [("value", UserStatusSchema); ("label", s_str)].
Definition UserMetaResponseSchema : schema := s_object [
  ("roles", ZArray UserRoleOptionSchema); ("statuses", ZArray UserStatusOptionSchema)].

(** ** backend/src/schemas *)

Definition SidebarItemSchema : schema := s_object [
  ("id", s_str); ("label", s_str); ("icon", s_str); ("component", s_str); ("path", ZOptional s_str); ("disabled", ZOptional ZBoolean)].
Definition SidebarItemsResponseSchema : schema := ZArray SidebarItemSchema.
Definition AdminTabSchema : schema := s_object [
  ("id", s_str); ("title", s_str); ("component", s_str); ("icon", ZOptional s_str); ("source", ZOptional (ZEnum ["config"; "database"]))].
Definition AdminTabResponseSchema : schema := ZArray AdminTabSchema.
Definition AdminTabMetaSchema : schema := s_object [
  ("id", s_str); ("title", s_str); ("component", s_str); ("enabled", ZBoolean); ("message", s_str)].
Definition AdminEventsResponseSchema : schema := ZArray AdminEventSchema.

Definition AntiCheatReviewStatusSchema : schema := ZEnum ["flagged"; "warn"; "restrict"; "ban"].
Definition AntiCheatReviewActionSchema : schema := ZEnum ["warn"; "restrict"; "ban"].
Definition AntiCheatHistoryEntrySchema : schema := s_object [
  ("action", AntiCheatReviewActionSchema); ("timestamp", s_count); ("reviewerId", s_str)].
Definition AntiCheatFlagSchema : schema := s_object [
  ("id", s_str); ("users", ZArray s_str); ("status", AntiCheatReviewStatusSchema); ("history", ZArray AntiCheatHistoryEntrySchema)].
Definition AntiCheatFlagsResponseSchema : schema := ZArray AntiCheatFlagSchema.
Definition AntiCheatNextActionResponseSchema : schema := s_object [("next", ZNullable AntiCheatReviewActionSchema)].

Definition LoginResponseSchema : schema := s_object [("token", s_str)].
Definition MessageResponseSchema : schema := s_object [("message", s_str); ("contractVersion", s_str)].
Definition AuthProviderSchema : schema := s_object [("name", s_str); ("url", s_url); ("label", s_str)].
Definition AuthProvidersResponseSchema : schema := ZArray AuthProviderSchema.

Definition BonusStatsResponseSchema : schema := s_object [
  ("activeBonuses", s_count); ("weeklyClaims", s_count); ("completedPayouts", ZNumber [CNonnegative]);
  ("currency", ZString [CLength 3]); ("conversionRate", ZNumber [CNonnegative])].
Definition BotProfileSchema : schema := s_object [("name", s_str); ("proportion", s_num); ("bustMultiplier", s_num)].
Definition BotProfilesResponseSchema : schema := ZArray BotProfileSchema.
Definition BroadcastTypeSchema : schema := ZEnum ["announcement"; "alert"; "notice"].
Definition BroadcastSchema : schema := s_object [
  ("id", s_str); ("type", BroadcastTypeSchema); ("text", s_str); ("timestamp", s_datetime); ("urgent", ZBoolean)].
Definition BroadcastsResponseSchema : schema := s_object [("broadcasts", ZArray BroadcastSchema)].
Definition BroadcastTemplatesResponseSchema : schema := s_object [
  ("templates", s_object [("maintenance", s_str); ("tournament", s_str)])].
Definition DefaultAvatarResponseSchema : schema := s_object [("defaultAvatar", s_url)].
Definition PerformanceThresholdsResponseSchema : schema := s_object [("INP", s_num); ("LCP", s_num); ("CLS", s_num)].
Definition CTAVariantSchema : schema := ZEnum ["primary"; "outline"; "danger"; "ghost"; "secondary"; "chipBlue"; "chipYellow"].
Definition CTASchema : schema := s_object [("id", s_str); ("label", s_str); ("href", s_str); ("variant", CTAVariantSchema)].
Definition CTAsResponseSchema : schema := ZArray CTASchema.
Definition FeatureFlagSchema : schema := s_object [("key", s_str); ("value", ZBoolean)].
Definition FeatureFlagsResponseSchema : schema := ZRecord ZBoolean.
Definition GameTypeSchema : schema := ZEnum ["texas"; "omaha"; "allin"; "tournaments"].
Definition GameTypeWithLabelSchema : schema := s_object [("id", GameTypeSchema); ("label", s_str)].
Definition GameTypeListSchema : schema := ZArray GameTypeWithLabelSchema.

Definition HandStateResponse : schema := s_object [
  ("street", street_schema); ("pot", s_num); ("sidePots", ZArray SidePotSchema); ("currentBet", s_num);
  ("players", ZArray (s_object PlayerStateShape))].
Definition HandReplayResponse : schema := ZArray HandReplayFrame.
Definition HandProofsResponse : schema := ZArray (s_object [("id", s_str); ("proof", HandProofSchema)]).

Definition LeaderboardEntrySchema : schema := s_object [
  ("playerId", s_str); ("rank", s_int); ("points", s_num); ("rd", s_num); ("volatility", s_num); ("net", s_num); ("bb100", s_num);
  ("hours", s_num); ("roi", s_num); ("finishes", ZRecord s_int)].
Definition LeaderboardResponseSchema : schema := ZArray LeaderboardEntrySchema.
Definition LeaderboardRangesResponseSchema : schema := s_object [("ranges", ZArray s_str)].
Definition LeaderboardModesResponseSchema : schema := s_object [("modes", ZArray s_str)].
Definition LeaderboardConfigSchema : schema := s_object [("range", s_str); ("mode", s_str)].
Definition LeaderboardConfigListResponseSchema : schema := s_object [("configs", ZArray LeaderboardConfigSchema)].

Definition AdminMessageSchema : schema := s_object [
  ("id", s_int); ("sender", s_str); ("userId", s_str); ("avatar", s_str); ("subject", s_str); ("preview", s_str); ("content", s_str);
  ("time", s_str); ("read", ZBoolean)].
Definition AdminMessagesResponseSchema : schema := s_object [("messages", ZArray AdminMessageSchema)].
Definition SiteMetadataResponseSchema : schema := s_object [
  ("title", s_str); ("description", s_str); ("imagePath", s_str); ("defaultAvatar", s_url)].
Definition NotificationSchema : schema := s_object [
  ("id", s_str); ("type", NotificationTypeSchema); ("title", s_str); ("message", s_str); ("timestamp", s_datetime); ("read", ZBoolean)].
Definition NotificationFilterSchema : schema := s_object [("label", s_str); ("value", NotificationTypeSchema)].
Definition NotificationsResponseSchema : schema := s_object [("contractVersion", s_str); ("notifications", ZArray NotificationSchema)].
Definition NotificationFiltersResponseSchema : schema := s_object [("contractVersion", s_str); ("filters", ZArray NotificationFilterSchema)].
Definition UnreadCountResponseSchema : schema := s_object [("contractVersion", s_str); ("count", s_count)].

Definition range_shape : schema := s_object [("min", s_num); ("max", s_num)].
Definition TableSchema : schema := s_object [
  ("id", s_str); ("tableName", s_str); ("gameType", GameTypeSchema); ("stakes", s_object [("small", s_num); ("big", s_num)]);
  ("startingStack", s_num); ("players", s_object [("current", s_num); ("max", s_num)]); ("buyIn", range_shape);
  ("stats", s_object [("handsPerHour", s_num); ("avgPot", s_num); ("rake", s_num)]); ("createdAgo", s_str)].
Definition TableListSchema : schema := ZArray TableSchema.
(** The pair of cards is a tuple. *)
Definition PlayerSchema : schema := s_object [
  ("id", s_num); ("username", s_str); ("avatar", s_str); ("chips", s_num); ("committed", ZOptional s_num);
  ("isActive", ZOptional ZBoolean); ("isFolded", ZOptional ZBoolean); ("sittingOut", ZOptional ZBoolean);
  ("isAllIn", ZOptional ZBoolean); ("isWinner", ZOptional ZBoolean); ("timeLeft", ZOptional s_num);
  ("cards", ZOptional (ZArrayOf 2 s_str)); ("pos", ZOptional s_str); ("lastAction", ZOptional s_str)].
Definition ChatMessageSchema : schema := s_object [
  ("id", s_num); ("username", s_str); ("avatar", s_str); ("text", s_str); ("time", s_str)].
Definition ChatMessagesSchema : schema := ZArray ChatMessageSchema.
Definition TableDataSchema : schema := s_object [
  ("smallBlind", s_num); ("bigBlind", s_num); ("pot", s_num); ("communityCards", ZArray s_str); ("players", ZArray PlayerSchema);
  ("chatMessages", ZArray ChatMessageSchema); ("stateAvailable", ZBoolean)].
Definition TableSeatSchema : schema := s_object [
  ("id", s_num); ("name", s_str); ("avatar", s_str); ("balance", s_num); ("inHand", ZBoolean)].
Definition TableStateSchema : schema := s_object [
  ("handId", s_str); ("seats", ZArray TableSeatSchema); ("pot", s_object [("main", s_num); ("sidePots", ZArray s_num)]);
  ("street", ZEnum ["pre"; "flop"; "turn"; "river"]); ("serverTime", s_num)].
Definition TabKeySchema : schema := ZEnum ["history"; "chat"; "notes"].
Definition TableTabsResponseSchema : schema := ZArray TabKeySchema.

Definition TierSchema : schema := s_object [("name", s_str); ("min", s_count); ("max", ZNullable s_count)].
Definition TiersSchema : schema := ZArray TierSchema.
Definition TournamentFormatSchema : schema := ZString [CMin 1].
Definition TournamentFormatOptionSchema : schema := s_object [("id", ZString [CMin 1]); ("label", ZString [CMin 1])].
Definition AdminTournamentStatusSchema : schema := ZEnum ["scheduled"; "running"; "finished"; "cancelled"; "auto-start"].
Definition AdminTournamentSchema : schema := s_object [
  ("id", s_num); ("name", s_str); ("gameType", s_str); ("buyin", s_num); ("fee", s_num); ("prizePool", s_num); ("date", s_str);
  ("time", s_str); ("format", TournamentFormatSchema); ("seatCap", ZOptional (ZUnion [ZNumber [CInt; CPositive]; ZEnum [""]]));
  ("description", ZOptional s_str); ("rebuy", ZBoolean); ("addon", ZBoolean); ("status", AdminTournamentStatusSchema)].
Definition AdminTournamentFilterIdSchema : schema := ZUnion [ZEnum ["all"]; AdminTournamentStatusSchema].
Definition AdminTournamentFilterOptionSchema : schema := s_object [
  ("id", AdminTournamentFilterIdSchema); ("label", ZString [CMin 1]); ("colorClass", ZOptional (ZString [CMin 1]))].
Definition AdminTournamentFiltersResponseSchema : schema := ZArray AdminTournamentFilterOptionSchema.
Definition TournamentFormatsResponseSchema : schema := ZArray TournamentFormatOptionSchema.
Definition TournamentFilterSchema : schema := ZEnum ["active"; "upcoming"; "past"].
Definition TournamentFilterOptionSchema : schema := s_object [("label", s_str); ("value", TournamentFilterSchema)].
Definition TournamentFiltersResponseSchema : schema := ZArray TournamentFilterOptionSchema.
Definition TournamentSimulateResponseSchema : schema := s_object [("averageDuration", s_num); ("durationVariance", s_num)].
Definition CalculatePrizesResponseSchema : schema := s_object [
  ("prizes", ZArray s_num); ("bountyPool", ZOptional s_num); ("seats", ZOptional s_num); ("remainder", ZOptional s_num)].
Definition TournamentInfoSchema : schema := s_object [("title", s_str); ("description", s_str)].
Definition TranslationsResponseSchema : schema := s_object [("messages", ZRecord s_str)].
Definition ProfileStatsResponseSchema : schema := s_object [
  ("handsPlayed", s_num); ("winRate", s_num); ("tournamentsPlayed", s_num); ("topThreeRate", s_num)].

(** ** shared/schemas *)

Definition MonitoringAcceptedResponseSchema : schema := s_object [("status", ZEnum ["accepted"])].
Definition AuditLogEntrySchema : schema := s_object [
  ("id", s_str); ("timestamp", s_datetime); ("type", s_str); ("description", s_str); ("user", s_str); ("ip", s_str);
  ("reviewed", ZBoolean); ("reviewedBy", ZNullable s_str); ("reviewedAt", ZNullable s_datetime)].
Definition AuditLogsResponseSchema : schema := s_object [("logs", ZArray AuditLogEntrySchema); ("total", s_int)].
Definition AuditLogTypesResponseSchema : schema := s_object [("types", ZArray s_str)].
Definition LogTypeClassesSchema : schema := ZRecord s_str.
Definition LogTypeClassSchema : schema := s_object [("type", ZString [CMin 1]); ("className", ZString [CMin 1])].
Definition LogTypeClassOverrideListSchema : schema := ZArray LogTypeClassSchema.
Definition AuditSummarySchema : schema := s_object [("total", s_int); ("errors", s_int); ("logins", s_int)].
Definition SecurityAlertsResponseSchema : schema := ZArray AlertItemSchema.
Definition RevenueStreamSchema : schema := s_object [("label", s_str); ("pct", s_num); ("value", ZOptional s_num)].
Definition ActivityResponseSchema : schema := s_object [("labels", ZArray s_str); ("data", ZArray s_num)].
Definition ErrorCategoriesResponseSchema : schema := s_object [("labels", ZArray s_str); ("counts", ZArray s_num)].
Definition PaginatedResponseSchema (s : schema) : schema := s_object [
  ("items", ZArray s); ("nextCursor", ZNullable s_str); ("total", ZOptional s_count)].
Definition GameHistoryEntrySchema : schema := s_object [
  ("id", s_str); ("type", s_str); ("stakes", s_str); ("buyin", s_str); ("date", s_str); ("profit", ZBoolean); ("amount", s_num);
  ("currency", CurrencySchema)].
Definition TournamentHistoryEntrySchema : schema := s_object [
  ("id", s_str); ("name", s_str); ("place", s_str); ("buyin", s_str); ("prize", s_str); ("duration", s_str)].
Definition TransactionEntrySchema : schema := s_object [
  ("date", s_str); ("type", s_str); ("amount", s_num); ("currency", CurrencySchema); ("status", s_str)].
Definition HistoryTabItemSchema : schema := s_object [("key", s_str); ("label", s_str)].
Definition HistoryTabsResponseSchema : schema := s_object [("tabs", ZArray HistoryTabItemSchema)].
Definition PrecacheListResponseSchema : schema := ZArray s_str.

(** ** shared/wallet.schema.ts *)

Definition WalletStatusSchema : schema := s_object [
  ("kycVerified", ZBoolean); ("denialReason", ZOptional s_str); ("realBalance", s_num); ("creditBalance", s_num);
  ("currency", CurrencySchema)].
Definition KycDenialResponseSchema : schema := s_object [("accountId", s_str); ("reason", ZNullable s_str)].
Definition BaseTransactionSchema : schema := s_object [
  ("id", s_str); ("type", s_str); ("amount", s_int); ("currency", CurrencySchema); ("status", s_str); ("createdAt", s_datetime)].
Definition WalletTransactionsResponseSchema : schema := s_object [
  ("realBalance", s_num); ("creditBalance", s_num); ("transactions", ZArray BaseTransactionSchema)].
Definition BankDetailsSchema : schema := s_object [("bankName", s_str); ("accountNumber", s_str); ("routingCode", s_str)].
Definition BankTransferDepositResponseSchema : schema := s_object [("reference", s_str); ("bank", BankDetailsSchema)].
Definition PendingDepositSchema : schema := s_object [
  ("id", s_str); ("userId", s_str); ("amount", s_int); ("currency", CurrencySchema); ("reference", s_str);
  ("status", ZEnum ["pending"; "confirmed"; "rejected"]); ("actionRequired", ZBoolean); ("expiresAt", s_datetime);
  ("avatar", s_str); ("method", s_str); ("confirmedBy", ZOptional s_str); ("confirmedAt", ZOptional s_datetime);
  ("rejectedBy", ZOptional s_str); ("rejectedAt", ZOptional s_datetime); ("rejectionReason", ZOptional s_str);
  ("createdAt", s_datetime); ("updatedAt", s_datetime)].
Definition PendingDepositsResponseSchema : schema := s_object [("deposits", ZArray PendingDepositSchema)].
Definition PendingWithdrawalSchema : schema := s_object [
  ("id", s_str); ("userId", s_str); ("amount", s_int); ("currency", CurrencySchema);
  ("status", ZEnum ["pending"; "completed"; "rejected"]); ("createdAt", s_datetime); ("avatar", s_str); ("bank", s_str);
  ("maskedAccount", s_str); ("bankInfo", ZOptional s_str)].
Definition PendingWithdrawalsResponseSchema : schema := s_object [("withdrawals", ZArray PendingWithdrawalSchema)].
Definition WalletReconcileMismatchSchema : schema := s_object [
  ("account", s_str); ("balance", s_num); ("journal", s_num); ("delta", s_num); ("date", s_datetime)].
Definition WalletReconcileMismatchesResponseSchema : schema := s_object [("mismatches", ZArray WalletReconcileMismatchSchema)].
Definition WalletReconcileMismatchAcknowledgementSchema : schema := s_object [
  ("account", s_str); ("acknowledgedBy", s_str); ("acknowledgedAt", s_datetime)].
Definition IbanResponseSchema : schema := s_object [
  ("iban", s_str); ("masked", s_str); ("holder", s_str); ("instructions", s_str); ("updatedBy", s_str); ("updatedAt", s_datetime)].
Definition IbanHistoryEntrySchema : schema := s_object [
  ("date", s_str); ("oldIban", s_str); ("newIban", s_str); ("by", s_str); ("notes", s_str)].
Definition IbanHistoryResponseSchema : schema := s_object [("history", ZArray IbanHistoryEntrySchema)].
Definition IbanDetailsSchema : schema := s_object [
  ("ibanMasked", s_str); ("ibanFull", s_str); ("holder", s_str); ("instructions", s_str); ("history", ZArray IbanHistoryEntrySchema);
  ("lastUpdatedBy", s_str); ("lastUpdatedAt", s_datetime); ("bankName", s_str); ("bankAddress", s_str)].
Definition TransactionTabSchema : schema := s_object [
  ("id", ZEnum ["all"; "deposits"; "withdrawals"; "manual"]); ("label", s_str)].
Definition TransactionTabsResponseSchema : schema := ZArray TransactionTabSchema.

(** ** shared/transactions.schema.ts *)

Definition TransactionTypeSchema : schema := s_object [("id", s_str); ("label", s_str)].
Definition TransactionTypesResponseSchema : schema := ZArray TransactionTypeSchema.
Definition TransactionLogEntrySchema : schema := s_object [
  ("datetime", s_str); ("action", s_str); ("amount", s_int); ("by", s_str); ("notes", s_str); ("status", s_str)].
Definition TransactionLogResponseSchema : schema := ZArray TransactionLogEntrySchema.
Definition AdminTransactionEntrySchema : schema := s_object [
  ("date", s_str); ("action", s_str); ("amount", s_num); ("performedBy", s_str); ("notes", s_str);
  ("status", ZEnum ["Completed"; "Pending"; "Rejected"])].
Definition AdminTransactionEntriesSchema : schema := ZArray AdminTransactionEntrySchema.
Definition FilterOptionsSchema : schema := s_object [
  ("types", ZArray s_str); ("performedBy", ZArray s_str); ("typePlaceholder", ZOptional s_str); ("performedByPlaceholder", ZOptional s_str)].
Definition StatusInfoSchema : schema := s_object [("label", s_str); ("style", s_str)].
Definition TransactionStatusesResponseSchema : schema := ZRecord StatusInfoSchema.
Definition TransactionColumnSchema : schema := s_object [("id", s_str); ("label", s_str)].
Definition TransactionColumnsResponseSchema : schema := ZArray TransactionColumnSchema.

(** ** The table of names *)

Definition wire_schemas : list (string * schema) := [
  ("ActivityResponseSchema", ActivityResponseSchema); ("AdminEventsResponseSchema", AdminEventsResponseSchema);
  ("AdminMessageSchema", AdminMessageSchema); ("AdminMessagesResponseSchema", AdminMessagesResponseSchema);
  ("AdminPlayerSchema", AdminPlayerSchema); ("AdminTabMetaSchema", AdminTabMetaSchema);
  ("AdminTabResponseSchema", AdminTabResponseSchema); ("AdminTabSchema", AdminTabSchema);
  ("AdminTournamentFiltersResponseSchema", AdminTournamentFiltersResponseSchema);
  ("AdminTournamentSchema", AdminTournamentSchema); ("AdminTransactionEntriesSchema", AdminTransactionEntriesSchema);
  ("AlertItemSchema", AlertItemSchema); ("AuditLogEntrySchema", AuditLogEntrySchema);
  ("AuditLogTypesResponseSchema", AuditLogTypesResponseSchema); ("AuditLogsResponseSchema", AuditLogsResponseSchema);
  ("AuditSummarySchema", AuditSummarySchema); ("AuthProvidersResponseSchema", AuthProvidersResponseSchema);
  ("BankTransferDepositResponseSchema", BankTransferDepositResponseSchema);
  ("BonusDefaultsResponseSchema", BonusDefaultsResponseSchema); ("BonusOptionsResponseSchema", BonusOptionsResponseSchema);
  ("BonusSchema", BonusSchema); ("BonusStatsResponseSchema", BonusStatsResponseSchema);
  ("BonusesResponseSchema", BonusesResponseSchema); ("BotProfilesResponseSchema", BotProfilesResponseSchema);
  ("BroadcastSchema", BroadcastSchema); ("BroadcastTemplatesResponseSchema", BroadcastTemplatesResponseSchema);
  ("BroadcastsResponseSchema", BroadcastsResponseSchema); ("CTASchema", CTASchema);
  ("CTAsResponseSchema", CTAsResponseSchema); ("CalculatePrizesResponseSchema", CalculatePrizesResponseSchema);
  ("ChartPaletteResponseSchema", ChartPaletteResponseSchema); ("ChatMessagesSchema", ChatMessagesSchema);
  ("ChipDenominationsResponseSchema", ChipDenominationsResponseSchema); ("DashboardMetricsSchema", DashboardMetricsSchema);
  ("DashboardUserSchema", DashboardUserSchema); ("DefaultAvatarResponseSchema", DefaultAvatarResponseSchema);
  ("ErrorCategoriesResponseSchema", ErrorCategoriesResponseSchema); ("FeatureFlagSchema", FeatureFlagSchema);
  ("FeatureFlagsResponseSchema", FeatureFlagsResponseSchema); ("FilterOptionsSchema", FilterOptionsSchema);
  ("GameTypeListSchema", GameTypeListSchema); ("HandProofResponseSchema", HandProofSchema);
  ("HandProofsResponseSchema", HandProofsResponse); ("HandReplayResponse", HandReplayResponse);
  ("HandReplayResponseSchema", HandReplayResponse); ("HandStateResponse", HandStateResponse);
  ("HistoryTabItemSchema", HistoryTabItemSchema); ("HistoryTabsResponseSchema", HistoryTabsResponseSchema);
  ("IbanDetailsSchema", IbanDetailsSchema); ("IbanHistoryResponseSchema", IbanHistoryResponseSchema);
  ("IbanResponseSchema", IbanResponseSchema); ("KycDenialResponseSchema", KycDenialResponseSchema);
  ("LanguagesResponseSchema", LanguagesResponseSchema);
  ("LeaderboardConfigListResponseSchema", LeaderboardConfigListResponseSchema);
  ("LeaderboardEntrySchema", LeaderboardEntrySchema); ("LeaderboardModesResponseSchema", LeaderboardModesResponseSchema);
  ("LeaderboardRangesResponseSchema", LeaderboardRangesResponseSchema);
  ("LeaderboardResponseSchema", LeaderboardResponseSchema);
  ("LogTypeClassDefaultListSchema", LogTypeClassOverrideListSchema); ("LogTypeClassDefaultSchema", LogTypeClassSchema);
  ("LogTypeClassOverrideListSchema", LogTypeClassOverrideListSchema); ("LogTypeClassOverrideSchema", LogTypeClassSchema);
  ("LogTypeClassesSchema", LogTypeClassesSchema); ("LoginResponseSchema", LoginResponseSchema);
  ("MeResponseSchema", MeResponseSchema); ("MessageResponseSchema", MessageResponseSchema);
  ("MonitoringAcceptedResponseSchema", MonitoringAcceptedResponseSchema); ("NavIconSchema", NavIconSchema);
  ("NavIconsResponseSchema", NavIconsResponseSchema); ("NavItemSchema", NavItemSchema);
  ("NavItemsResponseSchema", NavItemsResponseSchema);
  ("NotificationFiltersResponseSchema", NotificationFiltersResponseSchema);
  ("NotificationsResponseSchema", NotificationsResponseSchema);
  ("PaginatedResponseSchema(GameHistoryEntrySchema)", PaginatedResponseSchema GameHistoryEntrySchema);
  ("PaginatedResponseSchema(TournamentHistoryEntrySchema)", PaginatedResponseSchema TournamentHistoryEntrySchema);
  ("PaginatedResponseSchema(TransactionEntrySchema)", PaginatedResponseSchema TransactionEntrySchema);
  ("PendingWithdrawalsResponseSchema", PendingWithdrawalsResponseSchema);
  ("PerformanceThresholdsResponseSchema", PerformanceThresholdsResponseSchema);
  ("PrecacheListResponseSchema", PrecacheListResponseSchema); ("ProfileStatsResponseSchema", ProfileStatsResponseSchema);
  ("PromotionSchema", PromotionSchema); ("PromotionsResponseSchema", PromotionsResponseSchema);
  ("ServiceStatusResponseSchema", ServiceStatusResponseSchema); ("SiteMetadataResponseSchema", SiteMetadataResponseSchema);
  ("StatusResponseSchema", ServiceStatusResponseSchema); ("TableDataSchema", TableDataSchema);
  ("TableListSchema", TableListSchema); ("TableSchema", TableSchema); ("TableStateSchema", TableStateSchema);
  ("TableTabsResponseSchema", TableTabsResponseSchema); ("TableThemeResponseSchema", TableThemeResponseSchema);
  ("TiersSchema", TiersSchema); ("TournamentBracketResponseSchema", TournamentBracketResponseSchema);
  ("TournamentFiltersResponseSchema", TournamentFiltersResponseSchema);
  ("TournamentFormatsResponseSchema", TournamentFormatsResponseSchema); ("TournamentSchema", TournamentSchema);
  ("TournamentSimulateResponseSchema", TournamentSimulateResponseSchema);
  ("TransactionColumnsResponseSchema", TransactionColumnsResponseSchema);
  ("TransactionLogResponseSchema", TransactionLogResponseSchema);
  ("TransactionStatusesResponseSchema", TransactionStatusesResponseSchema);
  ("TransactionTabsResponseSchema", TransactionTabsResponseSchema);
  ("TransactionTypesResponseSchema", TransactionTypesResponseSchema);
  ("TranslationsResponseSchema", TranslationsResponseSchema); ("UnreadCountResponseSchema", UnreadCountResponseSchema);
  ("UserMetaResponseSchema", UserMetaResponseSchema); ("UserProfileSchema", UserProfileSchema); ("UserSchema", UserSchema);
  ("WalletReconcileMismatchAcknowledgementSchema", WalletReconcileMismatchAcknowledgementSchema);
  ("WalletReconcileMismatchesResponseSchema", WalletReconcileMismatchesResponseSchema);
  ("WalletStatusSchema", WalletStatusSchema); ("WalletTransactionsResponseSchema", WalletTransactionsResponseSchema)].
(** Names of the same schema: a list of a schema, and modules that export one under another name. *)
Definition canonical (key : string * bool) : string * bool :=
  match key with
  | ("DashboardUserListSchema", false) => ("DashboardUserSchema", true)
  | ("LeaderboardResponseSchema", false) => ("LeaderboardEntrySchema", true)
  | ("CTAsResponseSchema", false) => ("CTASchema", true)
  | ("PromotionClaimResponseSchema", false) => ("MessageResponseSchema", false)
  | ("HandProofResponse", false) => ("HandProofResponseSchema", false)
  | ("HandReplayResponse", false) => ("HandReplayResponseSchema", false)
  | _ => key
  end.
Definition answer_key (a : RouteAnswer) : option (string * bool) :=
  match a with AShape n => Some (canonical (n, false)) | AListOf n => Some (canonical (n, true)) | _ => None end.
Definition expect_key (e : Expects) : option (string * bool) :=
  match e with EShape n => Some (canonical (n, false)) | EListOf n => Some (canonical (n, true)) | _ => None end.
Definition wire (key : string * bool) : option schema :=
  (λ p, if key.2 then ZArray p.2 else p.2) <$> find (λ p, String.eqb p.1 key.1) wire_schemas.
Definition answer_schema (a : RouteAnswer) : option schema := answer_key a ≫= wire.
Definition expect_schema (e : Expects) : option schema := expect_key e ≫= wire.

(** ** From the handler to the page *)

(** Calls whose answer is not parsed with a schema of the table: there is none, it is a text, the row is sent as it is,
    the page reads a part of it with another schema, or the schema rewrites what it lets through. *)
Definition other_answers : list string := [
  "deleteAdminTab"; "fetchBlockedCountries"; "createBlockedCountry"; "updateBlockedCountry"; "deleteBlockedCountry";
  "updateFeatureFlag (false)"; "fetchHandLog"; "fetchHandState"; "fetchTournamentDetails"; "deleteNavItem"; "sendChatMessage"; "deleteTable"].
(** Calls whose handler puts the answer together and parses it with nothing. *)
Definition built_calls : list string := [
  "login"; "requestPasswordReset"; "verifyResetCode"; "resetPassword"; "useLeaderboardRanges"; "useLeaderboardModes";
  "fetchUnreadCount"; "updateChartPalette"].
(** The same, of what a configuration, a cache or a table holds. *)
Definition unparsed_calls : list string := ["fetchAuthProviders"; "fetchLeaderboard"; "fetchChipDenominations"].

(** The page reads the answer with the schema the handler parsed it with, and the status is that of an answer with a body. *)
Definition answers_alike (c : ApiCall) (r : option Route) : bool :=
  match r with
  | Some r =>
      bool_decide (answer_key (rt_answer r) = expect_key (ac_expects c))
      && match answer_schema (rt_answer r) with Some s => stable s | None => false end
      && ((200 <=? rt_status r) && (rt_status r <=? 299) && negb (rt_status r =? 204))
  | None => false
  end.
Definition parsed_alike (c : ApiCall) : bool :=
  fate_eqb (known_fate (ac_name c)) Fits && negb (bool_decide (ac_name c ∈ other_answers ++ built_calls ++ unparsed_calls)).

(** Checked once for the whole table. *)
Lemma answers_checked :
  let rs := routes_of controllers in
  forallb (λ c, implb (parsed_alike c) (answers_alike c (find (accepts_call c) rs))) page_calls = true.
Proof. vm_compute. reflexivity. Qed.
Lemma answer_of_call c : c ∈ page_calls → known_fate (ac_name c) = Fits → ac_name c ∉ other_answers ++ built_calls ++ unparsed_calls →
  ∃ r s, route_of_call c = Some r ∧ answer_schema (rt_answer r) = Some s ∧ expect_schema (ac_expects c) = Some s
         ∧ stable s = true ∧ 200 <= rt_status r <= 299 ∧ rt_status r ≠ 204.
Proof.
  intros Hc Hf Ho. pose proof answers_checked as H. cbv zeta in H. rewrite forallb_forall in H.
  specialize (H c (proj1 (list_elem_of_In _ _) Hc)). unfold parsed_alike in H.
  rewrite Hf, bool_decide_false in H by done. change (answers_alike c (route_of_call c) = true) in H.
  destruct (route_of_call c) as [r|]; [|done]. cbn [answers_alike] in H. exists r.
  destruct (answer_schema (rt_answer r)) as [s|] eqn:Es; [|by rewrite andb_false_r in H].
  apply andb_prop in H as [[Hk Hs]%andb_prop H]. apply bool_decide_eq_true in Hk. exists s.
  unfold answer_schema in Es. rewrite Hk in Es. by repeat split; try done; lia.
Qed.

(** The answer of the handler on the wire: the JSON of what its schema let through, under the status of the route. *)
Definition sent (status : Z) (statusText : string) (v : jsval) : Response :=
  {| rs_status := status; rs_statusText := statusText; rs_contentType := Some "application/json; charset=utf-8";
     rs_read := Ret (TJson v) |}.
Lemma read_sent `{ZO : ZodOps} string_text status statusText s v v' : 200 <= status <= 299 → status ≠ 204 →
  z_parse s v = Some v' → read_response string_text (sent status statusText v) s = Resolved v'.
Proof.
  intros Hs Hn Hp. unfold read_response, sent, rs_ok. cbn [rs_status rs_contentType rs_read rs_statusText].
  destruct (Z.eqb_spec status 204); [done|]. replace ((200 <=? status) && (status <=? 299)) with true by lia.
  change (is_json _) with true. cbn. by rewrite Hp.
Qed.

(** *** Answers that are built and not parsed *)

Definition strings (l : list string) : jsval := VArr (VStr <$> l).
(** [return { token: tokens.accessToken }] *)
Definition token_answer (accessToken : string) : jsval := VObj [("token", VStr accessToken)].
(** [return { message: ..., contractVersion: API_CONTRACT_VERSION }] *)
Definition message_answer (message version : string) : jsval :=
  VObj [("message", VStr message); ("contractVersion", VStr version)].
(** [getRanges] and [getModes] of the leaderboard's service *)
Definition ranges_answer (ranges : list string) : jsval := VObj [("ranges", strings ranges)].
Definition modes_answer (modes : list string) : jsval := VObj [("modes", strings modes)].
(** [return { count, contractVersion: API_CONTRACT_VERSION }] *)
Definition unread_answer (count : Z) (version : string) : jsval :=
  VObj [("count", VNum count); ("contractVersion", VStr version)].
(** [setChartPalette] of the settings' service *)
Definition palette_answer (colors : list string) : jsval := strings colors.

(** What the handler of a call answers. *)
Definition built_answer (name : string) (v : jsval) : Prop :=
  match name with
  | "login" => ∃ token, v = token_answer token
  | "requestPasswordReset" => ∃ version, v = message_answer "reset requested" version
  | "verifyResetCode" => ∃ version, v = message_answer "code verified" version
  | "resetPassword" => ∃ version, v = message_answer "password reset" version
  | "useLeaderboardRanges" => ∃ l, v = ranges_answer l
  | "useLeaderboardModes" => ∃ l, v = modes_answer l
  | "fetchUnreadCount" => ∃ count version, 0 <= count ∧ v = unread_answer count version
  | "updateChartPalette" => ∃ l, v = palette_answer l
  | _ => False
  end.
(** The same but for the order of fields, which a schema sets. *)
Definition same_value (v v' : jsval) : Prop :=
  v' = v ∨ ∃ fs fs', v = VObj fs ∧ v' = VObj fs' ∧ fs' ≡ₚ fs.

Definition typed_schema (a : RouteAnswer) : option schema := match a with ATyped n => wire (canonical (n, false)) | _ => None end.
Definition typed_alike (c : ApiCall) (r : option Route) : bool :=
  match r with
  | Some r =>
      match rt_answer r with ATyped n => bool_decide (Some (canonical (n, false)) = expect_key (ac_expects c)) | _ => false end
      && ((200 <=? rt_status r) && (rt_status r <=? 299) && negb (rt_status r =? 204))
  | None => false
  end.
Definition built_schema (name : string) : string :=
  match name with
  | "login" => "LoginResponseSchema"
  | "useLeaderboardRanges" => "LeaderboardRangesResponseSchema"
  | "useLeaderboardModes" => "LeaderboardModesResponseSchema"
  | "fetchUnreadCount" => "UnreadCountResponseSchema"
  | "updateChartPalette" => "ChartPaletteResponseSchema"
  | _ => "MessageResponseSchema"
  end.
Lemma built_checked :
  forallb (λ c, implb (bool_decide (ac_name c ∈ built_calls))
    (typed_alike c (find (accepts_call c) (routes_of controllers))
     && bool_decide (expect_key (ac_expects c) = Some (built_schema (ac_name c), false)))) page_calls = true.
Proof. vm_compute. reflexivity. Qed.

Section Built.
Context {ZO : ZodOps} {ZL : ZodLaws}.
Lemma parse_plain_string v : z_parse s_str (VStr v) = Some (VStr v).
Proof. unfold s_str. by rewrite parse_string. Qed.
Lemma parse_strings l : z_parse (ZArray s_str) (strings l) = Some (strings l).
Proof.
  unfold strings. rewrite parse_array. assert (mapM (z_parse s_str) (VStr <$> l) = Some (VStr <$> l)) as ->; [|done].
  induction l as [|x l IH]; [done|]. cbn. rewrite parse_plain_string. cbn. cbn in IH. by rewrite IH.
Qed.
(** Each of the answers passes the schema of its type. *)
Lemma built_passes name v : name ∈ built_calls → built_answer name v →
  ∃ s v', wire (built_schema name, false) = Some s ∧ z_parse s v = Some v' ∧ same_value v v'.
Proof.
  intros Hn Hv.
  assert (∀ m version, ∃ s v', wire ("MessageResponseSchema", false) = Some s
            ∧ z_parse s (message_answer m version) = Some v' ∧ same_value (message_answer m version) v') as Hmsg.
  { intros m version. exists MessageResponseSchema, (message_answer m version). split; [reflexivity|]. split; [|by left].
    unfold MessageResponseSchema, s_object. rewrite parse_object. cbn. by rewrite !parse_plain_string. }
  repeat (apply elem_of_cons in Hn as [->|Hn]); [..|by apply elem_of_nil in Hn]; cbn in Hv.
  - destruct Hv as [t ->]. exists LoginResponseSchema, (token_answer t). split; [reflexivity|]. split; [|by left].
    unfold LoginResponseSchema, s_object. rewrite parse_object. cbn. by rewrite parse_plain_string.
  - destruct Hv as [t ->]. apply Hmsg.
  - destruct Hv as [t ->]. apply Hmsg.
  - destruct Hv as [t ->]. apply Hmsg.
  - destruct Hv as [l ->]. exists LeaderboardRangesResponseSchema, (ranges_answer l). split; [reflexivity|]. split; [|by left].
    unfold LeaderboardRangesResponseSchema, s_object. rewrite parse_object. cbn. by rewrite parse_strings.
  - destruct Hv as [l ->]. exists LeaderboardModesResponseSchema, (modes_answer l). split; [reflexivity|]. split; [|by left].
    unfold LeaderboardModesResponseSchema, s_object. rewrite parse_object. cbn. by rewrite parse_strings.
  - destruct Hv as (n & t & Hle & ->). exists UnreadCountResponseSchema, (VObj [("contractVersion", VStr t); ("count", VNum n)]).
    split; [reflexivity|]. split.
    + unfold UnreadCountResponseSchema, s_object, s_count. rewrite parse_object. cbn. rewrite parse_plain_string, parse_number. cbn.
      by rewrite (proj2 (Z.leb_le 0 n) Hle).
    + right. do 2 eexists. split; [reflexivity|]. split; [reflexivity|]. apply Permutation_swap.
  - destruct Hv as [l ->]. exists ChartPaletteResponseSchema, (palette_answer l). split; [reflexivity|]. split; [|by left].
    apply parse_strings.
Qed.
End Built.

(** C24: What a handler answers is what the page gets. Take a call of the pages that reaches its handler with a fitting
    body and reads the answer, other than the twelve and the three listed. Either its handler parses the answer: then
    the page reads it with the very schema the handler parsed it with, and whatever value that schema lets through
    on the server, the call resolves on the page to that same value; reading it a second time drops nothing, changes
    nothing and refuses nothing. Or it is one of the eight whose handler puts the answer together and parses it with
    nothing: then the answer is of the type of the schema the page reads it with, and the call resolves to what the
    handler put together, but for the order of its fields. *)
Theorem fitting_answers_reach_the_page `{ZO : ZodOps} {ZL : ZodLaws} c :
  c ∈ page_calls → known_fate (ac_name c) = Fits → ac_name c ∉ other_answers ++ unparsed_calls →
  ∃ r s, route_of_call c = Some r ∧ expect_schema (ac_expects c) = Some s
  ∧ (∀ string_text network statusText base token path o answer read,
       z_parse s answer = Some read → (∀ rq, network rq = Ret (sent (rt_status r) statusText answer)) →
       apiClient string_text network base token path s o = Resolved read)
  ∧ if bool_decide (ac_name c ∈ built_calls)
    then typed_schema (rt_answer r) = Some s
         ∧ ∀ answer, built_answer (ac_name c) answer → ∃ read, z_parse s answer = Some read ∧ same_value answer read
    else answer_schema (rt_answer r) = Some s
         ∧ ∀ result answer, z_parse s result = Some answer → z_parse s answer = Some answer.
Proof.
  intros Hc Hf Ho. case_bool_decide as Hb.
  - pose proof built_checked as H. rewrite forallb_forall in H. specialize (H c (proj1 (list_elem_of_In _ _) Hc)).
    rewrite bool_decide_true in H by done. apply andb_prop in H as [H He%bool_decide_eq_true].
    change (typed_alike c (route_of_call c) = true) in H. destruct (route_of_call c) as [r|]; [|done].
    cbn [typed_alike] in H. apply andb_prop in H as [Ht Hst]. exists r.
    assert (∃ s, wire (built_schema (ac_name c), false) = Some s) as [s Hs].
    { clear -Hb. repeat (apply elem_of_cons in Hb as [->|Hb]; [by eexists|]). by apply elem_of_nil in Hb. }
    exists s. unfold expect_schema, typed_schema. rewrite He. split_and!; [done|exact Hs| | |].
    + intros string_text network statusText base token path o answer read Hp Hnet.
      unfold apiClient, fetchJson. rewrite Hnet. apply read_sent; [lia|lia|done].
    + destruct (rt_answer r); try done. apply bool_decide_eq_true in Ht. rewrite He in Ht. apply (inj Some) in Ht.
      change (wire (canonical (schema, false)) = Some s). by rewrite Ht.
    + intros answer Hans. destruct (built_passes _ _ Hb Hans) as (s' & v' & Hs' & Hp & Hv). rewrite Hs in Hs'.
      injection Hs' as <-. by exists v'.
  - destruct (answer_of_call c Hc Hf) as (r & s & Hr & Ha & He & Hs & Hst & Hn).
    { rewrite !elem_of_app in *. tauto. }
    exists r, s. split_and!; [done..| |done|].
    + intros string_text network statusText base token path o answer read Hp Hnet.
      unfold apiClient, fetchJson. rewrite Hnet. by apply read_sent.
    + intros result answer Hp. by eapply (stable_twice s).
Qed.

(** ** Instances *)

Definition a_state : jsval := VObj [
  ("handId", VStr "h1");
  ("seats", VArr [VObj [("id", VNum 1); ("name", VStr "Ann"); ("avatar", VStr "a.png"); ("balance", VNum 100); ("inHand", VBool true)]]);
  ("pot", VObj [("main", VNum 30); ("sidePots", VArr [])]); ("street", VStr "flop"); ("serverTime", VNum 1700000000000)].
(** The handler's result has a field more, which neither side sees. *)
Definition a_result : jsval := match a_state with VObj fs => VObj (fs ++ [("deck", VStr "secret")]) | v => v end.
Lemma fitting_answers_reach_the_page_witness :
  a_table ∈ page_calls
  ∧ apiClient (ZO := zod0) TRaw (λ _, Ret (sent 200 "OK" a_state)) "http://localhost:3001" None "/api/tables/T1/state" TableStateSchema
      {| co_method := None; co_body := NoBody; co_headers := ∅ |} = Resolved a_state.
Proof.
  assert (a_table ∈ page_calls) as Hc by (apply (list_elem_of_lookup_2 page_calls 104); reflexivity).
  split; [exact Hc|].
  destruct (fitting_answers_reach_the_page (ZO := zod0) (ZL := zod0_laws) a_table) as (r & s & Hr & He & H & Hp);
    [exact Hc | reflexivity | apply (bool_decide_eq_true_1 (_ ∉ _)); vm_compute; reflexivity |].
  rewrite bool_decide_eq_false_2 in Hp by (apply (bool_decide_eq_true_1 (_ ∉ _)); vm_compute; reflexivity).
  destruct Hp as [_ Hp].
  assert (s = TableStateSchema) as -> by (vm_compute in He; injection He as <-; reflexivity).
  assert (rt_status r = 200) as Hst.
  { assert (option_map rt_status (route_of_call a_table) = Some 200) as E by (vm_compute; reflexivity). rewrite Hr in E. by injection E. }
  rewrite <-Hst. apply (H TRaw _ "OK" _ _ _ _ a_state a_state);
    [apply (Hp a_result a_state); vm_compute; reflexivity | reflexivity].
Defined.
