(* ===== verification/Transactions.v ===== *)
(** * The log of transactions

    backend/src/wallet/transactions.service.ts behind routes/transactions.controller.ts, over the rows of
    wallet/transaction*.entity.ts, with services/translations.service.ts and wallet/revenue.service.ts.
    Guards are in [HttpRoutes]. Rows with equal dates are listed in one fixed order, which SQL leaves
    open. [Number] of a JSON value, where it is a whole number, and the time the cache keeps an entry for a
    given ttl are parameters. *)

From S2P Require Import Prelude Store JsText JsNum Schemas AuditLog WireSchemas.
#[local] Open Scope string_scope.
#[local] Open Scope list_scope.
#[local] Open Scope Z_scope.

(** ** Rows *)

Record TransactionType := { ty_id : string; ty_label : string }.
Record Transaction := {
  tr_id : string; tr_userId : string; tr_typeId : string; tr_amount : Z; tr_performedBy : string; tr_notes : string;
  tr_status : string; tr_createdAt : Z }.
Record TransactionStatus := { tst_id : string; tst_label : string; tst_style : string }.
Record TransactionTabEntity := { tab_id : string; tab_label : string }.
Record TransactionColumnEntity := { col_id : string; col_label : string; col_position : Z }.
Record TranslationEntity := { wd_lang : string; wd_key : string; wd_value : string }.
#[export] Instance TransactionColumn_entity : Entity TransactionColumnEntity := { row_id := col_id; row_clash _ _ := false }.

Record TransactionColumn := { tc_id : string; tc_label : string }.
Definition column_value (c : TransactionColumn) : jsval := VObj [("id", VStr (tc_id c)); ("label", VStr (tc_label c))].
Definition TransactionColumnsUpdateSchema : schema := s_object [("columns", ZArray TransactionColumnSchema)].

(** Messages of a language. *)
Abbreviation messages := (gmap string string).
Definition CACHE_TTL : Z := 3600.

Section Transactions.
Context {ZO : ZodOps} {T : Type → Type} `{!TableOps T}.
Context (parse_date : string → option Z) (to_number : jsval → option Z) (ttl_ms : Z → Z).

(** The cache of translations: messages and when they end, in milliseconds. *)
Record TransactionsStore := {
  ts_types : list TransactionType; ts_rows : list Transaction; ts_statuses : list TransactionStatus;
  ts_tabs : list TransactionTabEntity; ts_columns : T TransactionColumnEntity;
  ts_words : list TranslationEntity; ts_cache : gmap string (messages * Z) }.
Abbreviation TM := (M TransactionsStore).
Definition on_columns (f : T TransactionColumnEntity → T TransactionColumnEntity) (s : TransactionsStore) : TransactionsStore :=
  {| ts_types := ts_types s; ts_rows := ts_rows s; ts_statuses := ts_statuses s; ts_tabs := ts_tabs s;
     ts_columns := f (ts_columns s); ts_words := ts_words s; ts_cache := ts_cache s |}.
Definition on_cache (f : gmap string (messages * Z) → gmap string (messages * Z)) (s : TransactionsStore) : TransactionsStore :=
  {| ts_types := ts_types s; ts_rows := ts_rows s; ts_statuses := ts_statuses s; ts_tabs := ts_tabs s;
     ts_columns := ts_columns s; ts_words := ts_words s; ts_cache := f (ts_cache s) |}.
Definition answer (s : schema) (v : jsval) : TM jsval := lift (match z_parse s v with Some v => Ret v | None => Throw "ZodError" end).

(** ** translations.service.ts *)

Definition translations_key (lang : string) : string := "translations:" +:+ lang.
Definition loadFromDb (lang : string) (s : TransactionsStore) : messages :=
  foldl (λ m r, <[wd_key r := wd_value r]> m) ∅ (filter (λ r, wd_lang r = lang) (ts_words s)).
(** [this.get('en')] is [english]. *)
Definition get_translations_with (english : TM messages) (now : Z) (lang : string) : TM messages :=
  let key := translations_key lang in
  c ← gets (λ s, ts_cache s !! key);
  let load :=
    found ← gets (loadFromDb lang);
    found ← (if bool_decide (found = ∅) && negb (bool_decide (lang = "en")) then english else mret found);
    modify (on_cache (insert key (found, now + ttl_ms CACHE_TTL))) ;; mret found in
  match c with Some (m, expires) => if expires <? now then load else mret m | None => load end.
Definition get_english (now : Z) : TM messages := get_translations_with (mret ∅) now "en".
Definition get_translations (now : Z) (lang : string) : TM messages := get_translations_with (get_english now) now lang.

(** ** transactions.service.ts *)

(** The eager join. *)
Definition type_of (t : Transaction) (s : TransactionsStore) : option TransactionType :=
  find (λ y, bool_decide (ty_id y = tr_typeId t)) (ts_types s).
(** [t.type.label] *)
Definition action_of (s : TransactionsStore) (t : Transaction) : outcome string :=
  match type_of t s with Some y => Ret (ty_label y) | None => Throw "TypeError" end.

Definition getFilterOptions (now : Z) (locale : string) : TM jsval :=
  types ← gets ts_types; by_ ← gets (λ s, remove_dups (tr_performedBy <$> ts_rows s));
  words ← get_translations now locale;
  answer FilterOptionsSchema (obj [
    ("types", VArr (VStr ∘ ty_label <$> types)); ("performedBy", VArr (VStr <$> by_));
    ("typePlaceholder", opt VStr (words !! "transactions.filters.allTypes"));
    ("performedByPlaceholder", opt VStr (words !! "transactions.filters.performedByAll"))]).
Definition getTransactionTypes : TM jsval :=
  types ← gets ts_types;
  answer TransactionTypesResponseSchema (VArr ((λ y, VObj [("id", VStr (ty_id y)); ("label", VStr (ty_label y))]) <$> types)).
Definition getTransactionStatuses : TM jsval :=
  rows ← gets ts_statuses;
  answer TransactionStatusesResponseSchema
    (VObj ((λ r, (tst_id r, VObj [("label", VStr (tst_label r)); ("style", VStr (tst_style r))])) <$> rows)).
Definition getTransactionTabs : TM jsval :=
  tabs ← gets ts_tabs;
  answer TransactionTabsResponseSchema (VArr ((λ t, VObj [("id", VStr (tab_id t)); ("label", VStr (tab_label t))]) <$> tabs)).

(** [order: { position: 'ASC' }] *)
Definition by_position (a b : TransactionColumnEntity) : bool := col_position a <=? col_position b.
Definition column_of (r : TransactionColumnEntity) : TransactionColumn := {| tc_id := col_id r; tc_label := col_label r |}.
Definition stored_columns (s : TransactionsStore) : list TransactionColumn := column_of <$> js_sort by_position (rows (ts_columns s)).
Definition getTransactionColumns : TM jsval :=
  columns ← gets stored_columns;
  answer TransactionColumnsResponseSchema (VArr (column_value <$> columns)).

(** The rows are inserted one after the other; the second of two with one key fails the transaction. *)
Definition column_rows (columns : list TransactionColumn) : list TransactionColumnEntity :=
  imap (λ i c, {| col_id := tc_id c; col_label := tc_label c; col_position := Z.of_nat i |}) columns.
Fixpoint insert_columns (rs : list TransactionColumnEntity) (t : T TransactionColumnEntity) : option (T TransactionColumnEntity) :=
  match rs with [] => Some t | r :: rs' => t' ← insert_row r t; insert_columns rs' t' end.
Definition read_columns (v : jsval) : option (list TransactionColumn) :=
  match v with
  | VObj fs =>
      match field "columns" fs with
      | VArr l => mapM (λ c, match c with
                             | VObj cs => match field "id" cs, field "label" cs with
                                          | VStr i, VStr l => Some {| tc_id := i; tc_label := l |}
                                          | _, _ => None
                                          end
                             | _ => None
                             end) l
      | _ => None
      end
  | _ => None
  end.
Definition updateTransactionColumns (columns : jsval) : TM jsval :=
  match z_parse TransactionColumnsUpdateSchema (VObj [("columns", columns)]) ≫= read_columns with
  | None => throw "ZodError"
  | Some parsed =>
      s ← gets id;
      match insert_columns (column_rows parsed) (delete_where (λ _, true) (ts_columns s)) with
      | None => throw "QueryFailedError"
      | Some t => modify (on_columns (λ _, t)) ;; getTransactionColumns
      end
  end.

(** [order: { createdAt: 'DESC' }] *)
Definition newest (a b : Transaction) : bool := tr_createdAt b <=? tr_createdAt a.
Definition user_entry (s : TransactionsStore) (t : Transaction) : outcome jsval :=
  action ← action_of s t;
  Ret (VObj [("date", VStr (iso_time (tr_createdAt t))); ("action", VStr action); ("amount", VNum (tr_amount t));
             ("performedBy", VStr (tr_performedBy t)); ("notes", VStr (tr_notes t)); ("status", VStr (tr_status t))]).
Fixpoint each {A B} (f : A → outcome B) (l : list A) : outcome (list B) :=
  match l with [] => Ret [] | x :: l' => y ← f x; ys ← each f l'; Ret (y :: ys) end.
Definition getUserTransactions (userId : string) : TM jsval :=
  s ← gets id;
  entries ← lift (each (user_entry s) (js_sort newest (filter (λ t, tr_userId t = userId) (ts_rows s))));
  answer AdminTransactionEntriesSchema (VArr entries).

(** [TransactionLogQuerySchema] *)
Record TransactionLogQuery := {
  lq_playerId : option string; lq_type : option string; lq_startDate : option string; lq_endDate : option string;
  lq_page : Z; lq_pageSize : Z }.
Definition opt_text (v : jsval) : option (option string) :=
  match v with VUndefined => Some None | VStr s => Some (Some s) | _ => None end.
Definition coerced (low : Z) (high : option Z) (otherwise : Z) (v : jsval) : option Z :=
  match v with
  | VUndefined => Some otherwise
  | _ => n ← to_number v; if (low <=? n) && match high with Some h => n <=? h | None => true end then Some n else None
  end.
Definition TransactionLogQuerySchema (v : jsval) : option TransactionLogQuery :=
  match v with
  | VObj fs =>
      playerId ← opt_text (field "playerId" fs); type ← opt_text (field "type" fs);
      startDate ← opt_text (field "startDate" fs); endDate ← opt_text (field "endDate" fs);
      page ← coerced 1 None 1 (field "page" fs); pageSize ← coerced 1 (Some 100) 10 (field "pageSize" fs);
      Some {| lq_playerId := playerId; lq_type := type; lq_startDate := startDate; lq_endDate := endDate;
              lq_page := page; lq_pageSize := pageSize |}
  | _ => None
  end.
(** A filter that is missing or empty lets every row through. *)
Definition given (o : option string) : option string := match o with None | Some "" => None | _ => o end.
(** The dates of the query: an invalid one fails the query. *)
Definition date_of (o : option string) : outcome (option Z) :=
  match given o with
  | None => Ret None
  | Some d => match parse_date d with Some t => Ret (Some t) | None => Throw "QueryFailedError" end
  end.
Definition in_log (playerId type : option string) (from to : option Z) (t : Transaction) : bool :=
  match playerId with Some p => bool_decide (tr_userId t = p) | None => true end
  && match type with Some y => bool_decide (tr_typeId t = y) | None => true end
  && match from with Some d => d <=? tr_createdAt t | None => true end
  && match to with Some d => tr_createdAt t <=? d | None => true end.
Definition log_rows (q : TransactionLogQuery) (s : TransactionsStore) : outcome (list Transaction) :=
  from ← date_of (lq_startDate q); to ← date_of (lq_endDate q);
  Ret (js_sort newest (filter (λ t, in_log (given (lq_playerId q)) (given (lq_type q)) from to t) (ts_rows s))).
(** [skip] and [take] *)
Definition page_of {A} (page pageSize : Z) (l : list A) : list A := take (Z.to_nat pageSize) (drop (Z.to_nat ((page - 1) * pageSize)) l).
Definition log_entry (s : TransactionsStore) (t : Transaction) : outcome jsval :=
  action ← action_of s t;
  Ret (VObj [("datetime", VStr (iso_time (tr_createdAt t))); ("action", VStr action); ("amount", VNum (tr_amount t));
             ("by", VStr (tr_performedBy t)); ("notes", VStr (tr_notes t)); ("status", VStr (tr_status t))]).
Definition getTransactionsLog (q : TransactionLogQuery) : TM jsval :=
  s ← gets id;
  l ← lift (log_rows q s);
  entries ← lift (each (log_entry s) (page_of (lq_page q) (lq_pageSize q) l));
  answer TransactionLogResponseSchema (VArr entries).

(** ** transactions.controller.ts *)

Inductive TransactionRequest :=
| TTabs | TFilters (acceptLanguage : option string) | TTypes | TStatuses | TColumns | TUpdateColumns (body : jsval)
| TList (query : jsval) | TUser (id : string).
(** [preferred?.split(',')[0]?.trim() ?? 'en'] *)
Definition locale_of (acceptLanguage : option string) : string :=
  match acceptLanguage with
  | Some h => js_trim (default "" (head (js_split "," h)))
  | None => "en"
  end.
Definition transaction_route (now : Z) (r : TransactionRequest) : TM jsval :=
  match r with
  | TTabs => v ← getTransactionTabs; answer TransactionTabsResponseSchema v
  | TFilters h => v ← getFilterOptions now (locale_of h); answer FilterOptionsSchema v
  | TTypes => v ← getTransactionTypes; answer TransactionTypesResponseSchema v
  | TStatuses => v ← getTransactionStatuses; answer TransactionStatusesResponseSchema v
  | TColumns => v ← getTransactionColumns; answer TransactionColumnsResponseSchema v
  | TUpdateColumns body =>
      match z_parse TransactionColumnsUpdateSchema body with
      | Some (VObj fs) => v ← updateTransactionColumns (field "columns" fs); answer TransactionColumnsResponseSchema v
      | _ => throw "ZodError"
      end
  | TList query =>
      match TransactionLogQuerySchema query with
      | Some q => v ← getTransactionsLog q; answer TransactionLogResponseSchema v
      | None => throw "ZodError"
      end
  | TUser id => v ← getUserTransactions id; answer AdminTransactionEntriesSchema v
  end.

(** ** revenue.service.ts *)

Inductive TimeRange := Today | Week | Month | AllTime.
(** [setUTCHours(0, 0, 0, 0)], and the days and months of the calendar; [days_of_civil] lets days and months run over. *)
Definition days_of_civil (y m d : Z) : Z :=
  let y' := y + (m - 1) / 12 in
  let m' := (m - 1) mod 12 + 1 in
  let a := if m' <=? 2 then y' - 1 else y' in
  let era := a / 400 in
  let yoe := a - era * 400 in
  let doy := (153 * (if 2 <? m' then m' - 3 else m' + 9) + 2) / 5 in
  let doe := yoe * 365 + yoe / 4 - yoe / 100 + doy in
  era * 146097 + doe - 719468 + (d - 1).
Definition getStartDate (now : Z) (range : TimeRange) : option Z :=
  let day := now / ms_per_day in
  match range with
  | Today => Some (day * ms_per_day)
  | Week => Some (now - 7 * ms_per_day)
  | Month =>
      let '(y, m, d) := civil_of_days day in
      Some (days_of_civil y (m - 1) d * ms_per_day + now mod ms_per_day)
  | AllTime => None
  end.
(** An object as a list of its entries, labels in the order they were first assigned. *)
Definition add_total (label : string) (amount : Z) (totals : list (string * Z)) : list (string * Z) :=
  if existsb (λ p, bool_decide (p.1 = label)) totals
  then (λ p, if bool_decide (p.1 = label) then (p.1, p.2 + amount) else p) <$> totals
  else totals ++ [(label, amount)].
Record Stream := { sm_label : string; sm_pct : double; sm_value : Z }.
Definition pct_of (total value : Z) : double :=
  if total =? 0 then dbl_of_Z 0 else dbl_mul (dbl_div (dbl_of_Z value) (dbl_of_Z total)) (dbl_of_Z 100).
Definition revenue_totals (rs : list (string * Z)) : list (string * Z) := foldl (λ m r, add_total r.1 r.2 m) [] rs.
Definition getBreakdown (now : Z) (range : TimeRange) : TM (list Stream) :=
  s ← gets id;
  let filtered := match getStartDate now range with
                  | Some start => filter (λ t, start <=? tr_createdAt t) (ts_rows s)
                  | None => ts_rows s
                  end in
  rs ← lift (each (λ t, label ← action_of s t; Ret (label, tr_amount t)) filtered);
  let total := sum_by tr_amount filtered in
  mret ((λ p, {| sm_label := p.1; sm_pct := pct_of total p.2; sm_value := p.2 |}) <$> revenue_totals rs).
End Transactions.

(** ** Facts *)

Section Facts.
Context {ZO : ZodOps} {ZL : ZodLaws} {T : Type → Type} `{!TableOps T, !TableLaws T}.
Context (parse_date : string → option Z) (to_number : jsval → option Z) (ttl_ms : Z → Z).
Abbreviation Store := (TransactionsStore (T := T)).

(** *** Columns *)

Lemma column_rows_from n cs :
  let rs := imap (λ i c, {| col_id := tc_id c; col_label := tc_label c; col_position := Z.of_nat (n + i) |}) cs in
  column_of <$> rs = cs ∧ StronglySorted (λ x y, col_position x < col_position y) rs
  ∧ Forall (λ r, Z.of_nat n <= col_position r) rs.
Proof.
  revert n. induction cs as [|c cs IH]; intros n; cbn; [repeat constructor|].
  destruct (IH (S n)) as (Hc & Hs & Hf).
  assert (imap ((λ i c, {| col_id := tc_id c; col_label := tc_label c; col_position := Z.of_nat (n + i) |}) ∘ S) cs
    = imap (λ i c, {| col_id := tc_id c; col_label := tc_label c; col_position := Z.of_nat (S n + i) |}) cs) as ->.
  { apply imap_ext. intros i x _. cbn. do 2 f_equal. lia. }
  rewrite Hc. destruct c as [i l]. split_and!; [done|constructor; [done|]|constructor; [cbn; lia|]].
  - eapply Forall_impl; [exact Hf|]. cbn. intros r ?. lia.
  - eapply Forall_impl; [exact Hf|]. cbn. intros r ?. lia.
Qed.
Lemma column_rows_facts cs :
  column_of <$> column_rows cs = cs ∧ StronglySorted (λ x y, col_position x < col_position y) (column_rows cs)
  ∧ row_id <$> column_rows cs = tc_id <$> cs.
Proof.
  destruct (column_rows_from 0 cs) as (Hc & Hs & _). split_and!; [done|done|].
  rewrite <-Hc at 2. rewrite <-list_fmap_compose. by apply list_fmap_ext; intros i [] _.
Qed.
Lemma insert_columns_unique rs (t t' : T TransactionColumnEntity) :
  insert_columns rs t = Some t' → NoDup (row_id <$> rs) ∧ ∀ r x, r ∈ rs → x ∈ rows t → row_id x ≠ row_id r.
Proof.
  revert t. induction rs as [|r rs IH]; intros t; cbn; [split; [constructor|]; by intros ? ? ?%elem_of_nil|].
  destruct (insert_row r t) as [t1|] eqn:E; [|done]. cbn. intros [Hn Hd]%IH. pose proof (rows_insert _ _ _ E) as Hr.
  split.
  - apply NoDup_cons. split; [|done]. intros (x & Hid & Hx)%list_elem_of_fmap.
    apply (Hd x r Hx); [rewrite Hr; by left|done].
  - intros y x Hy Hx. apply elem_of_cons in Hy as [->|Hy]; [|apply Hd; [done|rewrite Hr; by right]].
    intros Hid. assert (insert_row r t = None) as E'; [|congruence]. apply insert_clash. exists x. split; [done|by left].
Qed.
Lemma insert_columns_all rs (t : T TransactionColumnEntity) :
  NoDup (row_id <$> rs) → (∀ r x, r ∈ rs → x ∈ rows t → row_id x ≠ row_id r) →
  ∃ t', insert_columns rs t = Some t' ∧ rows t' ≡ₚ rs ++ rows t.
Proof.
  revert t. induction rs as [|r rs IH]; intros t; cbn; [by intros _ _; exists t|]. intros [Hn Hnd]%NoDup_cons Hd.
  destruct (insert_row r t) as [t1|] eqn:E; cbn.
  - pose proof (rows_insert _ _ _ E) as Hr. destruct (IH t1 Hnd) as (t' & -> & Ht').
    { intros y x Hy Hx. rewrite Hr in Hx. apply elem_of_cons in Hx as [->|Hx]; [|apply Hd; [by right|done]].
      intros Hid. apply Hn. change (row_id r ∈ row_id <$> rs). rewrite Hid. by apply list_elem_of_fmap_2. }
    exists t'. split; [done|]. by rewrite Ht', Hr, <-Permutation_middle.
  - apply insert_clash in E as (x & Hx & [Hid|Hc]); [|done]. exfalso. eapply (Hd r x); [by left|done|done].
Qed.

Lemma columns_accepted cs :
  z_parse TransactionColumnsResponseSchema (VArr (column_value <$> cs)) = Some (VArr (column_value <$> cs)).
Proof.
  apply array_accepted, Forall_fmap, Forall_forall. intros [i l] _. unfold column_value, TransactionColumnSchema. cbn.
  rewrite object_accepted; [done|]. repeat constructor; cbn; auto with zod.
Qed.
Lemma update_parsed cs : z_parse TransactionColumnsUpdateSchema (VObj [("columns", VArr (column_value <$> cs))]) =
  Some (VObj [("columns", VArr (column_value <$> cs))]).
Proof. unfold TransactionColumnsUpdateSchema. rewrite object_accepted; [done|]. repeat constructor. cbn. apply columns_accepted. Qed.
Lemma columns_read cs : read_columns (VObj [("columns", VArr (column_value <$> cs))]) = Some cs.
Proof. cbn. induction cs as [|[i l] cs IH]; [done|]. cbn. by rewrite IH. Qed.

Definition with_columns (t : T TransactionColumnEntity) (s : Store) : Store := on_columns (λ _, t) s.
Lemma update_columns_eq cs (s : Store) :
  updateTransactionColumns (VArr (column_value <$> cs)) s =
    match insert_columns (column_rows cs) (delete_where (λ _, true) (ts_columns s)) with
    | None => (Throw "QueryFailedError", s)
    | Some t => getTransactionColumns (with_columns t s)
    end.
Proof.
  unfold updateTransactionColumns. rewrite update_parsed. cbn [mbind option_bind]. rewrite columns_read.
  rewrite bind_eq. cbn [gets id]. by destruct (insert_columns _ _).
Qed.
Lemma get_columns_eq (s : Store) : getTransactionColumns s = (Ret (VArr (column_value <$> stored_columns s)), s).
Proof. unfold getTransactionColumns. rewrite bind_eq. cbn [gets]. unfold answer. by rewrite columns_accepted. Qed.
Lemma update_columns_parses v (s : Store) :
  (∃ cs, updateTransactionColumns v s = updateTransactionColumns (VArr (column_value <$> cs)) s)
  ∨ updateTransactionColumns v s = (Throw "ZodError", s).
Proof.
  unfold updateTransactionColumns at 1 3. destruct (_ ≫= read_columns) as [cs|] eqn:E; [left|by right].
  exists cs. unfold updateTransactionColumns. rewrite update_parsed. cbn [mbind option_bind]. by rewrite columns_read.
Qed.

(** Columns are replaced as a whole or not at all. An administrator's list whose keys differ is stored and served back in
    its order; whatever else is sent, the request fails and the columns are those before. *)
Lemma columns_replaced_or_kept (s : Store) v :
  match updateTransactionColumns v s with
  | (Ret a, s') => ∃ cs t, NoDup (tc_id <$> cs) ∧ s' = with_columns t s ∧ stored_columns s' = cs
                   ∧ a = VArr (column_value <$> cs) ∧ getTransactionColumns s' = (Ret a, s')
  | (Throw _, s') => s' = s
  end.
Proof.
  destruct (update_columns_parses v s) as [[cs ->] | ->]; [|done]. rewrite update_columns_eq.
  set (t0 := delete_where _ _). assert (rows t0 = []) as Ht0.
  { apply Permutation_nil_r. unfold t0. rewrite rows_delete. rewrite filter_none; [done|]. by intros x _ []. }
  destruct (insert_columns (column_rows cs) t0) as [t|] eqn:E; [|done].
  pose proof (insert_columns_unique _ _ _ E) as [Hn _].
  destruct (insert_columns_all (column_rows cs) t0 Hn) as (t' & E' & Ht); [rewrite Ht0; by intros ? ? _ ?%elem_of_nil|].
  rewrite E in E'. injection E' as <-. rewrite Ht0, app_nil_r in Ht.
  destruct (column_rows_facts cs) as (Hc & Hs & Hid).
  assert (stored_columns (with_columns t s) = cs) as Hst.
  { unfold stored_columns. change (ts_columns _) with t. by rewrite (js_sort_by_key _ col_position (column_rows cs)). }
  rewrite get_columns_eq, Hst. exists cs, t. rewrite Hid in Hn. by rewrite get_columns_eq, Hst.
Qed.
Lemma distinct_columns_stored (s : Store) cs : NoDup (tc_id <$> cs) →
  (updateTransactionColumns (VArr (column_value <$> cs)) s).1 = Ret (VArr (column_value <$> cs)).
Proof.
  intros Hn. pose proof (columns_replaced_or_kept s (VArr (column_value <$> cs))) as H. rewrite update_columns_eq in H |- *.
  destruct (column_rows_facts cs) as (Hc & Hs & Hid). rewrite <-Hid in Hn.
  destruct (insert_columns_all (column_rows cs) (delete_where (λ _, true) (ts_columns s)) Hn) as (t & E & Ht).
  { intros r x _ Hx. rewrite rows_delete, filter_none in Hx; [by apply elem_of_nil in Hx|by intros ? _ []]. }
  rewrite E in H |- *. rewrite get_columns_eq in H |- *. destruct H as (cs' & t' & _ & _ & _ & Ha & _).
  cbn. unfold stored_columns. change (ts_columns _) with t. rewrite rows_delete, filter_none, app_nil_r in Ht by by intros ? _ [].
  by rewrite (js_sort_by_key _ col_position (column_rows cs)), Hc.
Qed.

(** *** The log *)

Lemma each_ret {A B} (f : A → outcome B) l l' : each f l = Ret l' ↔ Forall2 (λ x y, f x = Ret y) l l'.
Proof.
  revert l'. induction l as [|x l IH]; intros l'; cbn.
  - split; [intros [= <-]; constructor|by inversion 1].
  - destruct (f x) as [y|e] eqn:E; cbn.
    + destruct (each f l) as [ys|e]; cbn.
      * split; [intros [= <-]; constructor; [done|by apply IH]|]. inversion 1 as [|? ? ? ? Hy Hl]; subst.
        rewrite E in Hy. injection Hy as <-. apply IH in Hl. by injection Hl as <-.
      * split; [done|]. inversion 1 as [|? ? ? ? Hy Hl]; subst. by apply IH in Hl.
    + split; [done|]. inversion 1; subst. congruence.
Qed.
Definition typed (s : Store) : Prop := ∀ t, t ∈ ts_rows s → is_Some (type_of t s).
(** What the table shows of a row. *)
Definition shown (s : Store) (t : Transaction) : jsval :=
  VObj [("datetime", VStr (iso_time (tr_createdAt t))); ("action", VStr (from_option ty_label "" (type_of t s)));
        ("amount", VNum (tr_amount t)); ("by", VStr (tr_performedBy t)); ("notes", VStr (tr_notes t)); ("status", VStr (tr_status t))].
Lemma each_map {A B} (f : A → outcome B) (g : A → B) l : (∀ x, x ∈ l → f x = Ret (g x)) → each f l = Ret (g <$> l).
Proof.
  induction l as [|x l IH]; intros H; [done|]. cbn. rewrite H by (by left). cbn. rewrite IH; [done|].
  intros y Hy. apply H. by right.
Qed.
Lemma log_entries (s : Store) l : typed s → (∀ t, t ∈ l → t ∈ ts_rows s) → each (log_entry s) l = Ret (shown s <$> l).
Proof.
  intros Ht Hl. apply each_map. intros t H%Hl%Ht. unfold log_entry, action_of, shown. by destruct H as [y ->].
Qed.
Lemma shown_accepted (s : Store) l : z_parse TransactionLogResponseSchema (VArr (shown s <$> l)) = Some (VArr (shown s <$> l)).
Proof.
  apply array_accepted, Forall_fmap, Forall_forall. intros t _. unfold TransactionLogEntrySchema, shown. cbn.
  rewrite object_accepted; [done|]. repeat constructor; cbn; unfold s_int; auto with zod.
Qed.
Lemma log_rows_in q (s : Store) l t : log_rows parse_date q s = Ret l → t ∈ l → t ∈ ts_rows s.
Proof.
  unfold log_rows. destruct (date_of _ (lq_startDate q)) as [from|]; [|done]. destruct (date_of _ (lq_endDate q)) as [to|]; [|done].
  cbn. intros [= <-]. rewrite js_sort_perm. by intros [_ H]%list_elem_of_filter.
Qed.
Lemma page_of_in {A} page n (l : list A) x : x ∈ page_of page n l → x ∈ l.
Proof. unfold page_of. intros H. eapply elem_of_submseteq; [exact H|]. apply sublist_submseteq. etrans; [apply sublist_take|apply sublist_drop]. Qed.
Lemma log_page q (s : Store) l : typed s → log_rows parse_date q s = Ret l →
  getTransactionsLog parse_date q s = (Ret (VArr (shown s <$> page_of (lq_page q) (lq_pageSize q) l)), s).
Proof.
  intros Ht Hl. unfold getTransactionsLog. rewrite bind_eq. cbn [gets id]. rewrite bind_eq. unfold lift at 1. rewrite Hl.
  rewrite bind_eq. unfold lift at 1. rewrite log_entries; [|done|].
  - unfold answer. by rewrite shown_accepted.
  - intros t H%page_of_in. by apply (log_rows_in q s l).
Qed.

(** One row whose status is none of the three hides all transactions of its user. *)
Lemma odd_status_hides_all (s : Store) t userId :
  t ∈ ts_rows s → tr_userId t = userId → tr_status t ∉ ["Completed"; "Pending"; "Rejected"] →
  is_ret (getUserTransactions userId s).1 = false.
Proof.
  intros Ht Hu Hst. unfold getUserTransactions. rewrite bind_eq. cbn [gets id]. rewrite bind_eq. unfold lift at 1.
  destruct (each _ _) as [l|e] eqn:E; [|done]. apply each_ret in E.
  assert (t ∈ js_sort newest (filter (λ t, tr_userId t = userId) (ts_rows s))) as Hin
    by (rewrite js_sort_perm; by apply list_elem_of_filter).
  apply list_elem_of_lookup in Hin as [i Hi]. destruct (Forall2_lookup_l _ _ _ _ _ E Hi) as (v & Hv & Hr).
  unfold answer, AdminTransactionEntriesSchema. cbn. rewrite (element_refused _ v); [done|by eapply list_elem_of_lookup_2|].
  unfold user_entry in Hr. destruct (action_of s t) as [a|]; [|done]. cbn in Hr. injection Hr as <-.
  unfold AdminTransactionEntrySchema, s_object. rewrite parse_object.
  erewrite shape_refused; [done|by do 5 right; left|]. cbn. rewrite parse_enum. by rewrite bool_decide_false.
Qed.

(** *** Revenue *)

Definition total_of (label : string) (rs : list (string * Z)) : Z := sum_by snd (filter (λ r, r.1 = label) rs).
Lemma add_known_sum label amount (m : list (string * Z)) : NoDup m.*1 → label ∈ m.*1 →
  sum_by snd ((λ p, if bool_decide (p.1 = label) then (p.1, p.2 + amount) else p) <$> m) = sum_by snd m + amount.
Proof.
  induction m as [|[k v] m IH]; [by intros _ ?%elem_of_nil|]. cbn [fmap list_fmap fst]. intros [Hk Hm]%NoDup_cons Hl.
  rewrite !sum_by_cons. case_bool_decide as E; cbn [fst snd] in *.
  - subst k. rewrite (sum_by_ext _ (λ p : string * Z, p.2) _) by done. rewrite sum_by_fmap.
    rewrite (sum_by_ext _ snd m); [lia|]. intros [k' v'] Hin. cbn. rewrite bool_decide_false; [done|].
    cbn. intros ->. apply Hk. by apply (list_elem_of_fmap_2 fst _ (label, v')).
  - apply elem_of_cons in Hl as [->|Hl]; [done|]. rewrite IH by done. lia.
Qed.
Record totalled (rs m : list (string * Z)) : Prop := {
  to_once : NoDup m.*1; to_labels : ∀ l, l ∈ m.*1 ↔ l ∈ rs.*1;
  to_values : ∀ k v, (k, v) ∈ m → v = total_of k rs; to_sum : sum_by snd m = sum_by snd rs }.
Lemma total_snoc k rs r : total_of k (rs ++ [r]) = total_of k rs + if bool_decide (r.1 = k) then r.2 else 0.
Proof.
  unfold total_of. rewrite filter_app, sum_by_app. f_equal. rewrite filter_cons. case_bool_decide as E.
  - rewrite decide_True by done. unfold sum_by. cbn. lia.
  - by rewrite decide_False.
Qed.
Lemma add_totalled rs m r : totalled rs m → totalled (rs ++ [r]) (add_total r.1 r.2 m).
Proof.
  intros [Hn Hl Hv Hs]. destruct r as [label amount]. cbn [fst snd]. unfold add_total. destruct (existsb _ m) eqn:E.
  - apply existsb_exists in E as ([k v] & Hin%list_elem_of_In & Hk%bool_decide_eq_true). cbn in Hk. subst k.
    assert (label ∈ m.*1) as Hin' by by apply (list_elem_of_fmap_2 fst _ (label, v)).
    assert (((λ p, if bool_decide (p.1 = label) then (p.1, p.2 + amount) else p) <$> m).*1 = m.*1) as Hkeys.
    { rewrite <-list_fmap_compose. apply list_fmap_ext. intros i [k x] _. cbn. by case_bool_decide. }
    split.
    + by rewrite Hkeys.
    + intros l. rewrite Hkeys, Hl, fmap_app, elem_of_app. cbn. rewrite list_elem_of_singleton. split; [by left|]. intros [?| ->]; [done|by apply Hl].
    + intros k x ([k' x'] & Heq & Hx)%list_elem_of_fmap. rewrite total_snoc. cbn [fst snd] in *. apply Hv in Hx as ->.
      case_bool_decide as Ek; injection Heq as -> ->; [by rewrite bool_decide_true|rewrite bool_decide_false by done; lia].
    + rewrite add_known_sum by done. rewrite sum_by_app, Hs, sum_by_cons, sum_by_nil. cbn. lia.
  - assert (label ∉ m.*1) as Hnot.
    { intros ([k v] & -> & Hin)%list_elem_of_fmap. assert (existsb (λ p : string * Z, bool_decide (p.1 = k)) m = true); [|cbn in *; congruence].
      apply existsb_exists. exists (k, v). split; [by apply list_elem_of_In|]. by apply bool_decide_eq_true. }
    assert (∀ k, k ∉ rs.*1 → total_of k rs = 0) as Hzero.
    { intros k Hk. unfold total_of. rewrite filter_none; [done|]. intros [k' v] Hx E'. cbn in E'. subst k'. apply Hk.
      by apply (list_elem_of_fmap_2 fst _ (k, v)). }
    split.
    + rewrite fmap_app. apply NoDup_app. split; [done|]. split; [by intros k Hk ->%list_elem_of_singleton|apply NoDup_singleton].
    + intros l. by rewrite !fmap_app, !elem_of_app, Hl.
    + intros k v [Hin|[= -> ->]%list_elem_of_singleton]%elem_of_app; rewrite total_snoc; cbn [fst snd].
      * rewrite bool_decide_false; [apply Hv in Hin; lia|]. intros ->. apply Hnot. by apply (list_elem_of_fmap_2 fst _ (k, v)).
      * rewrite bool_decide_true by done. rewrite Hzero; [lia|]. by rewrite <-Hl.
    + rewrite !sum_by_app, Hs. done.
Qed.
Lemma fold_totalled rs d m : totalled d m → totalled (d ++ rs) (foldl (λ m r, add_total r.1 r.2 m) m rs).
Proof.
  revert d m. induction rs as [|r rs IH]; intros d m Hm; cbn; [by rewrite app_nil_r|].
  replace (d ++ r :: rs) with ((d ++ [r]) ++ rs) by by rewrite <-app_assoc. by apply IH, add_totalled.
Qed.
(** Every label once, with the sum of its transactions; together they are the sum of all. *)
Lemma revenue_totalled rs : totalled rs (revenue_totals rs).
Proof.
  apply (fold_totalled rs [] []). split; [constructor|done|by intros ? ? ?%elem_of_nil|done].
Qed.

(** *** Translations *)

(** A language without messages of its own gets the English ones; what was cached is served until it ends. *)
Lemma translations_fall_back now lang (s : Store) :
  ts_cache s !! translations_key lang = None → ts_cache s !! translations_key "en" = None →
  (get_translations ttl_ms now lang s).1 =
    Ret (if bool_decide (loadFromDb lang s = ∅) then loadFromDb "en" s else loadFromDb lang s).
Proof.
  intros Hl He. unfold get_translations, get_translations_with. rewrite bind_eq. cbn [gets]. rewrite Hl. rewrite bind_eq. cbn [gets].
  rewrite bind_eq. case_bool_decide as E1; case_bool_decide as E2; cbn [andb negb mret M_ret]; try done; [by subst lang|].
  unfold get_english, get_translations_with. rewrite bind_eq. cbn [gets]. rewrite He. rewrite bind_eq. cbn [gets]. rewrite bind_eq.
  by case_bool_decide.
Qed.
Lemma translations_are_cached now lang m expires (s : Store) :
  ts_cache s !! translations_key lang = Some (m, expires) → now <= expires → get_translations ttl_ms now lang s = (Ret m, s).
Proof.
  intros Hc Ht. unfold get_translations, get_translations_with. rewrite bind_eq. cbn [gets]. rewrite Hc.
  by destruct (Z.ltb_spec expires now); [lia|].
Qed.
End Facts.
