(* ===== verification/TransactionPages.v ===== *)
(** * The pages that show transactions

    frontend/src/components/common/use-transaction-history.ts with the table and the filters beside it
    (transaction-history-table.tsx, transaction-history-filters.tsx, use-transaction-history-columns.tsx,
    hooks/useTransactionFilterQueries.ts, lib/exportCsv.ts), the dashboard's list
    (components/dashboard/transactions/transaction-history.tsx) and the modal for one player
    (components/modals/transaction-history-modal.tsx), over the log of [Transactions]. Entries are JSON values.
    A query is answered at once; React's rendering is left out, the effect of the modal is a step. *)

From S2P Require Import Prelude Store JsText Schemas AuditLog WireSchemas Transactions.
#[local] Open Scope string_scope.
#[local] Open Scope list_scope.
#[local] Open Scope Z_scope.

(** ** Values as text *)

(** [String(v ?? '')]; lists and objects do not occur in entries. *)
Definition text_or_empty (v : jsval) : string :=
  match v with
  | VUndefined | VNull => ""
  | VBool b => if b then "true" else "false"
  | VNum n => str_of_Z n
  | VStr s => s
  | VArr _ | VObj _ | VFun _ => "[object Object]"
  end.
Abbreviation entry := (list (string * jsval)).
(** [a ?? b] *)
Definition coalesce (a b : jsval) : jsval := match a with VUndefined | VNull => b | _ => a end.

(** ** use-transaction-history.ts *)

Abbreviation filters := (gmap string string).
Record HistoryOptions := { ho_initial : filters; ho_pageSize : Z; ho_manual : bool; ho_paginated : bool }.
Record HistoryHook := { hk_filters : filters; hk_applied : filters; hk_page : Z }.

Section Hook.
Context (o : HistoryOptions).

Definition opened : HistoryHook := {| hk_filters := ho_initial o; hk_applied := ho_initial o; hk_page := 1 |}.
Definition effectiveFilters (h : HistoryHook) : filters := if ho_manual o then hk_applied h else hk_filters h.
Definition updateFilter (key value : string) (h : HistoryHook) : HistoryHook :=
  {| hk_filters := <[key := value]> (hk_filters h); hk_applied := hk_applied h; hk_page := if ho_manual o then hk_page h else 1 |}.
Definition replaceFilters (next : filters) (h : HistoryHook) : HistoryHook :=
  {| hk_filters := next; hk_applied := hk_applied h; hk_page := if ho_manual o then hk_page h else 1 |}.
Definition syncFilters (next : filters) : HistoryHook := {| hk_filters := next; hk_applied := next; hk_page := 1 |}.
Definition applyFilters (h : HistoryHook) : HistoryHook :=
  if ho_manual o then {| hk_filters := hk_filters h; hk_applied := hk_filters h; hk_page := 1 |} else h.
Definition setPage (next : Z) (h : HistoryHook) : HistoryHook :=
  {| hk_filters := hk_filters h; hk_applied := hk_applied h; hk_page := Z.max 1 next |}.
Definition hasMore (rawData : list jsval) : bool := ho_paginated o && (Z.of_nat (length rawData) =? ho_pageSize o).
End Hook.

(** ** The order of the table *)

Definition getTransactionTimestamp (row : entry) : jsval := coalesce (coalesce (field "date" row) (field "datetime" row)) (VStr "").
Definition timestamp (row : jsval) : string :=
  match row with VObj fs => text_or_empty (getTransactionTimestamp fs) | _ => "" end.
(** The table sorts the rows it is given; [before] is [localeCompare]. *)
Definition sortedItems (before : string → string → bool) (data : list jsval) : list jsval :=
  js_sort (λ a b, before (timestamp a) (timestamp b)) data.

(** ** The dashboard's list *)

Definition dashboard : HistoryOptions :=
  {| ho_initial := list_to_map [("startDate", ""); ("endDate", ""); ("playerId", ""); ("type", "")];
     ho_pageSize := 10; ho_manual := false; ho_paginated := true |}.
(** lib/api/transactions.ts: the query of a page, as the server reads it. *)
Definition param (key : string) (v : option string) : entry := match given v with Some s => [(key, VStr s)] | None => [] end.
Definition fetchTransactionsLog (f : filters) (page pageSize : Z) : jsval :=
  VObj (param "playerId" (f !! "playerId") ++ param "type" (f !! "type") ++ param "startDate" (f !! "startDate")
        ++ param "endDate" (f !! "endDate") ++ [("page", VStr (str_of_Z page)); ("pageSize", VStr (str_of_Z pageSize))]).

Section Dashboard.
Context (fetched : jsval → option (list jsval)) (before : string → string → bool).
(** What the query of a page brings, and what the table makes of it. *)
Definition page_data (h : HistoryHook) : option (list jsval) :=
  fetched (fetchTransactionsLog (effectiveFilters dashboard h) (hk_page h) (ho_pageSize dashboard)).
Definition shown_page (h : HistoryHook) : option (list jsval) := sortedItems before <$> page_data h.
(** The buttons, which are disabled on the first page and without more. *)
Definition press_next (h : HistoryHook) : HistoryHook := setPage (hk_page h + 1) h.
Definition press_previous (h : HistoryHook) : HistoryHook := setPage (hk_page h - 1) h.
(** The pages seen while Next can be pressed. *)
Fixpoint browse (fuel : nat) (h : HistoryHook) : option (list (list jsval)) :=
  match fuel with
  | O => None
  | S fuel =>
      rows ← page_data h; seen ← shown_page h;
      if hasMore dashboard rows then rest ← browse fuel (press_next h); Some (seen :: rest) else Some [seen]
  end.
End Dashboard.

(** ** The table *)

(** What a cell shows; amounts and states are given to their own components. *)
Definition column_cell (id : string) (row : entry) : jsval :=
  if bool_decide (id = "amount") then coalesce (field "amount" row) (VNum 0)
  else if bool_decide (id = "status") then VStr (text_or_empty (field "status" row))
  else if bool_decide (id = "date") || bool_decide (id = "datetime") then getTransactionTimestamp row
  else if bool_decide (id = "type") then coalesce (coalesce (field "type" row) (field "action" row)) (VStr "")
  else if bool_decide (id = "action") then coalesce (coalesce (field "action" row) (field "type" row)) (VStr "")
  else if bool_decide (id = "by") then coalesce (coalesce (field "by" row) (field "performedBy" row)) (VStr "")
  else if bool_decide (id = "performedBy") then coalesce (coalesce (field "performedBy" row) (field "by" row)) (VStr "")
  else coalesce (field id row) (VStr "").

(** ** The export *)

Definition quote : ascii := ascii_of_nat 34.
Definition newline : ascii := ascii_of_nat 10.
Definition needs_quotes (c : ascii) : bool := Ascii.eqb c quote || Ascii.eqb c "," || Ascii.eqb c newline.
(** A text is quoted when it has a quote, a comma or a line break; its quotes are doubled. *)
Definition doubled (l : list ascii) : list ascii := l ≫= (λ c, if Ascii.eqb c quote then [quote; quote] else [c]).
Definition quoted_cell (l : list ascii) : list ascii := if existsb needs_quotes l then quote :: doubled l ++ [quote] else l.
Definition normalizeCsvCell (v : jsval) : string :=
  String.string_of_list_ascii (quoted_cell (String.list_ascii_of_string (text_or_empty v))).
Definition defaultMapRow (e : entry) (currency : string) : list jsval :=
  let amountValue := text_or_empty (field "amount" e) in
  let amount := if bool_decide (currency = "") then amountValue else js_trim (currency +:+ " " +:+ amountValue) in
  [coalesce (coalesce (field "datetime" e) (field "date" e)) (VStr "");
   coalesce (coalesce (field "action" e) (field "type" e)) (VStr ""); VStr amount;
   coalesce (coalesce (field "by" e) (field "performedBy" e)) (VStr "");
   coalesce (field "notes" e) (VStr ""); coalesce (field "status" e) (VStr "")].
Definition defaultHeaders : list string := ["Date/Time"; "Action"; "Amount"; "By"; "Notes"; "Status"].
(** [.join(sep)] *)
Fixpoint js_join (sep : ascii) (l : list (list ascii)) : list ascii :=
  match l with [] => [] | [x] => x | x :: l' => x ++ sep :: js_join sep l' end.
Definition toCsv (header : list string) (rows : list (list string)) : string :=
  String.string_of_list_ascii (js_join newline (js_join ","%char ∘ fmap String.list_ascii_of_string <$> (header :: rows))).
(** The currency of the first entry, or dollars. *)
Definition currency_of (processedData rawData : list entry) : string :=
  match head processedData, head rawData with
  | Some e, _ | None, Some e => match field "currency" e with VStr c => c | _ => "USD" end
  | None, None => "USD"
  end.
Definition exportToCsv (processedData rawData : list entry) : string :=
  toCsv defaultHeaders ((λ e, normalizeCsvCell <$> defaultMapRow e (currency_of processedData rawData)) <$> processedData).

(** ** transaction-history-filters.tsx and useTransactionFilterQueries.ts *)

Record SelectOption := { so_value : string; so_label : string }.
Fixpoint buildSelectOptions {A} (getValue getLabel : A → string) (keep : A → bool) (seen : gset string) (data : list A) : list SelectOption :=
  match data with
  | [] => []
  | x :: data' =>
      if negb (keep x) || bool_decide (getValue x ∈ seen) then buildSelectOptions getValue getLabel keep seen data'
      else {| so_value := getValue x; so_label := getLabel x |}
           :: buildSelectOptions getValue getLabel keep ({[getValue x]} ∪ seen) data'
  end.
Record FilterOptions := {
  fo_types : list string; fo_performedBy : list string; fo_typePlaceholder : option string; fo_performedByPlaceholder : option string }.
Definition emptyFilterOptions : FilterOptions :=
  {| fo_types := []; fo_performedBy := []; fo_typePlaceholder := None; fo_performedByPlaceholder := None |}.
(** [a ?? b ?? c] of texts *)
Definition first_of (a b : option string) (c : string) : string := default c (match a with Some _ => a | None => b end).
Definition typePlaceholder (filterOptions : FilterOptions) (translations : gmap string string) : string :=
  first_of (fo_typePlaceholder filterOptions) (translations !! "transactions.filters.allTypes") "All Types".
Definition performedByPlaceholder (filterOptions : FilterOptions) (translations : gmap string string) : string :=
  first_of (fo_performedByPlaceholder filterOptions) (translations !! "transactions.filters.performedByAll") "Performed By: All".
(** The select of types when their list is not asked for, and that of performers: the placeholder is also a value. *)
Definition label_select (placeholder : string) (labels : list string) : SelectOption * list SelectOption :=
  ({| so_value := placeholder; so_label := placeholder |},
   buildSelectOptions id id (λ v, negb (bool_decide (v = placeholder))) ∅ labels).

(** ** The modal *)

Definition modal : HistoryOptions :=
  {| ho_initial := list_to_map [("start", ""); ("end", ""); ("type", ""); ("by", "")];
     ho_pageSize := 10; ho_manual := true; ho_paginated := false |}.
Definition of_filter (key : string) (f : filters) : string := default "" (f !! key).

Section Modal.
Context (parse_date : string → option Z).
(** [new Date(a) >= new Date(b)]: an invalid date is not comparable. *)
Definition not_before (a b : string) : bool :=
  match parse_date a, parse_date b with Some x, Some y => y <=? x | _, _ => false end.
Definition text_field (k : string) (e : entry) : string := text_or_empty (field k e).
Definition clientFilter (sentinelType sentinelBy : string) (allEntries : list entry) (f : filters) : list entry :=
  let set s := negb (bool_decide (s = "")) in
  let other v sentinel := set v && set sentinel && negb (bool_decide (v = sentinel)) in
  let data := if other (of_filter "type" f) sentinelType
              then filter (λ e, text_field "action" e = of_filter "type" f) allEntries else allEntries in
  let data := if other (of_filter "by" f) sentinelBy
              then filter (λ e, text_field "performedBy" e = of_filter "by" f) data else data in
  let data := if set (of_filter "start" f) then filter (λ e, not_before (text_field "date" e) (of_filter "start" f)) data else data in
  if set (of_filter "end" f) then filter (λ e, not_before (of_filter "end" f) (text_field "date" e)) data else data.
End Modal.
(** The effect that chooses the placeholders. *)
Definition choose_defaults (defaultType defaultBy : string) (h : HistoryHook) : HistoryHook :=
  let f := hk_filters h in
  let or_default v d := if bool_decide (v = "") then d else v in
  let nextType := or_default (of_filter "type" f) defaultType in
  let nextBy := or_default (of_filter "by" f) defaultBy in
  if bool_decide (nextType = "") && bool_decide (nextBy = "") then h
  else if bool_decide (nextType = of_filter "type" f) && bool_decide (nextBy = of_filter "by" f) then h
  else syncFilters (<["type" := nextType]> (<["by" := nextBy]> f)).

(** ** The dashboard shows the log *)

Section Browse.
Context {ZO : ZodOps} {ZL : ZodLaws} {T : Type → Type} `{!TableOps T}.
Context (parse_date : string → option Z) (to_number : jsval → option Z) (ttl_ms : Z → Z).
Context (before : string → string → bool).
Hypothesis number_of_text : ∀ n, 0 < n → to_number (VStr (str_of_Z n)) = Some n.
Implicit Types (s : TransactionsStore (T := T)).

(** What the route answers to a query. *)
Definition served s (query : jsval) : option (list jsval) :=
  match (transaction_route parse_date to_number ttl_ms 0 (TList query) s).1 with Ret (VArr l) => Some l | _ => None end.
Definition query_of (f : filters) (page pageSize : Z) : TransactionLogQuery :=
  {| lq_playerId := given (f !! "playerId"); lq_type := given (f !! "type"); lq_startDate := given (f !! "startDate");
     lq_endDate := given (f !! "endDate"); lq_page := page; lq_pageSize := pageSize |}.
(** The rows that match the filters, newest first, or the failure of the query. *)
Definition matching s (f : filters) : outcome (list Transaction) := log_rows parse_date (query_of f 1 10) s.

Lemma query_read f page : 0 < page → TransactionLogQuerySchema to_number (fetchTransactionsLog f page 10) = Some (query_of f page 10).
Proof.
  intros Hp. unfold fetchTransactionsLog, param, query_of.
  assert (coerced to_number 1 None 1 (VStr (str_of_Z page)) = Some page) as H1.
  { cbn. rewrite number_of_text by done. cbn. by destruct (Z.leb_spec 1 page); [|lia]. }
  assert (coerced to_number 1 (Some 100) 10 (VStr (str_of_Z 10)) = Some 10) as H2.
  { unfold coerced. by rewrite number_of_text. }
  by destruct (given (f !! "playerId")), (given (f !! "type")), (given (f !! "startDate")), (given (f !! "endDate"));
    cbn -[coerced str_of_Z]; rewrite H1; cbn -[coerced str_of_Z]; rewrite H2.
Qed.
Lemma served_page s f page l : typed s → matching s f = Ret l → 0 < page →
  served s (fetchTransactionsLog f page 10) = Some (shown s <$> page_of page 10 l).
Proof.
  intros Ht Hl Hp. unfold served. cbn [transaction_route]. rewrite query_read by done.
  rewrite bind_eq, (log_page _ _ _ l); [|done..]. unfold answer, lift. cbn [fst snd]. by rewrite shown_accepted.
Qed.
(** A list in pieces of ten, the last of them shorter. *)
Fixpoint tens {A} (fuel : nat) (l : list A) : list (list A) :=
  match fuel with
  | O => []
  | S fuel => if bool_decide (length l < 10)%nat then [l] else take 10 l :: tens fuel (drop 10 l)
  end.
Lemma concat_tens {A} fuel (l : list A) : (length l < 10 * fuel)%nat → concat (tens fuel l) = l.
Proof.
  revert l. induction fuel as [|fuel IH]; intros l Hl; [lia|]. cbn [tens]. case_bool_decide; [cbn; by rewrite app_nil_r|].
  cbn [concat]. rewrite IH by (rewrite length_drop; lia). apply take_drop.
Qed.
Lemma tens_length {A} fuel (l : list A) p : p ∈ tens fuel l → (length p <= 10)%nat.
Proof.
  revert l. induction fuel as [|fuel IH]; intros l; [by intros ?%elem_of_nil|]. cbn [tens]. case_bool_decide.
  - intros ->%list_elem_of_singleton. lia.
  - intros [->|Hp]%elem_of_cons; [rewrite length_take; lia|by eapply IH].
Qed.

Lemma browse_from s f l fuel h : typed s → matching s f = Ret l → hk_filters h = f → 0 < hk_page h →
  let rest := drop (Z.to_nat ((hk_page h - 1) * 10)) l in
  (length rest < 10 * fuel)%nat →
  browse (served s) before fuel h = Some ((λ p : list Transaction, sortedItems before (shown s <$> p)) <$> tens fuel rest).
Proof.
  intros Ht Hl. cbv zeta. revert h. induction fuel as [|fuel IH]; intros h Hf Hp Hfuel; [lia|].
  set (k := Z.to_nat ((hk_page h - 1) * 10)) in *. cbn [browse]. unfold shown_page, page_data.
  change (effectiveFilters dashboard h) with (hk_filters h). rewrite Hf. change (ho_pageSize dashboard) with 10.
  rewrite (served_page s f _ l) by done. cbn [mbind option_bind fmap option_fmap option_map]. unfold page_of.
  change (Z.to_nat 10) with 10%nat. fold k. cbn [tens].
  unfold hasMore. cbn [dashboard ho_paginated ho_pageSize andb]. rewrite length_fmap, length_take.
  destruct (Z.eqb_spec (Z.of_nat (10 `min` length (drop k l))) 10) as [Hm|Hm].
  - rewrite bool_decide_false by lia.
    assert (Z.to_nat ((hk_page (press_next h) - 1) * 10) = (k + 10)%nat) as Hk'.
    { unfold press_next. cbn [setPage hk_page]. lia. }
    rewrite IH; [|done|unfold press_next; cbn; lia|rewrite Hk', <-drop_drop, length_drop; lia].
    cbn [mbind option_bind]. by rewrite Hk', <-drop_drop.
  - rewrite bool_decide_true by lia. rewrite take_ge by lia. done.
Qed.

(** C25: An administrator who pages through the log sees all of it. After any change of a filter, pressing Next for as long as
    the button is enabled comes to an end. The pages are then the transactions that match the filters, newest
    first, in pieces of at most ten: each page is one of the pieces, every transaction on it once, sorted by the
    text of its time, the earliest on top, as the table sorts whatever page it is given. *)
Theorem dashboard_shows_whole_log s h key value l fuel :
  typed s → matching s (<[key := value]> (hk_filters h)) = Ret l → (length l < 10 * fuel)%nat →
  (∀ a b, before a b = true ∨ before b a = true) → (∀ a b c, before a b = true → before b c = true → before a c = true) →
  ∃ pages pieces, browse (served s) before fuel (updateFilter dashboard key value h) = Some pages
  ∧ concat pieces = shown s <$> l ∧ Forall (λ p, length p <= 10)%nat pieces
  ∧ Forall2 (λ page piece, page ≡ₚ piece
      ∧ StronglySorted (λ a b, before (timestamp a) (timestamp b) = true) page) pages pieces.
Proof.
  intros Ht Hl Hf Htot Htrans. exists ((λ p : list Transaction, sortedItems before (shown s <$> p)) <$> tens fuel l), ((λ p : list Transaction, shown s <$> p) <$> tens fuel l).
  split; [|split; [|split]].
  - rewrite (browse_from s _ l fuel (updateFilter dashboard key value h) Ht Hl); [|done|cbn; lia|by rewrite drop_0].
    cbn [updateFilter dashboard ho_manual hk_page]. by rewrite drop_0.
  - rewrite <-(concat_tens fuel l Hf) at 2. generalize (tens fuel l). induction l0 as [|p ps IH]; [done|]. cbn.
    by rewrite fmap_app, IH.
  - apply Forall_fmap, Forall_forall. intros p Hp%tens_length. cbn. by rewrite length_fmap.
  - generalize (tens fuel l). induction l0 as [|p ps IH]; constructor; [|done]. unfold sortedItems. split.
    + apply js_sort_perm.
    + apply (js_sort_sorted (λ a b, before (timestamp a) (timestamp b))); [by intros|].
      intros x y z. by apply Htrans.
Qed.
End Browse.

(** ** The export can be read back *)

(** A reader of comma separated values, for lines that end in a line feed. *)
Inductive CsvState := CsvStart | CsvPlain | CsvQuoted | CsvAfter.
Fixpoint csv_read (st : CsvState) (cell : list ascii) (row : list (list ascii)) (l : list ascii) : list (list (list ascii)) :=
  match l with
  | [] => [row ++ [cell]]
  | c :: l' =>
      match st with
      | CsvQuoted => if Ascii.eqb c quote then csv_read CsvAfter cell row l' else csv_read CsvQuoted (cell ++ [c]) row l'
      | _ =>
          if Ascii.eqb c "," then csv_read CsvStart [] (row ++ [cell]) l'
          else if Ascii.eqb c newline then (row ++ [cell]) :: csv_read CsvStart [] [] l'
          else if Ascii.eqb c quote then
            match st with CsvStart => csv_read CsvQuoted cell row l' | _ => csv_read CsvQuoted (cell ++ [c]) row l' end
          else csv_read CsvPlain (cell ++ [c]) row l'
      end
  end.

Lemma special_apart : Ascii.eqb quote ","%char = false ∧ Ascii.eqb quote newline = false ∧ Ascii.eqb newline "," = false
  ∧ Ascii.eqb newline quote = false ∧ Ascii.eqb ","%char quote = false.
Proof. by vm_compute. Qed.
(** What may follow a cell. *)
Definition ends (k : list ascii) : Prop := match k with [] => True | c :: _ => c = ","%char ∨ c = newline end.
Definition after_cell (cell : list ascii) (row : list (list ascii)) (k : list ascii) : list (list (list ascii)) :=
  match k with
  | [] => [row ++ [cell]]
  | c :: k' => if Ascii.eqb c "," then csv_read CsvStart [] (row ++ [cell]) k' else (row ++ [cell]) :: csv_read CsvStart [] [] k'
  end.
Lemma read_end st cell row k : ends k → st ≠ CsvQuoted → csv_read st cell row k = after_cell cell row k.
Proof. destruct k as [|c k]; [done|]. cbn [ends]. intros [->| ->] Hst; by destruct st. Qed.
Lemma read_plain st cell row x k : ends k → existsb needs_quotes x = false → st ≠ CsvQuoted →
  csv_read st cell row (x ++ k) = after_cell (cell ++ x) row k.
Proof.
  intros Hk. revert st cell. induction x as [|c x IH]; intros st cell Hx Hst; [rewrite app_nil_r; by apply read_end|].
  cbn [existsb] in Hx. apply orb_false_iff in Hx as [Hc Hx]. unfold needs_quotes in Hc.
  apply orb_false_iff in Hc as [[Hq Hcomma]%orb_false_iff Hn].
  assert (csv_read st cell row ((c :: x) ++ k) = csv_read CsvPlain (cell ++ [c]) row (x ++ k)) as ->.
  { cbn [app csv_read]. rewrite Hq, Hcomma, Hn. by destruct st. }
  rewrite IH by done. by rewrite <-app_assoc.
Qed.
Lemma read_doubled cell row x k : csv_read CsvQuoted cell row (doubled x ++ quote :: k) = csv_read CsvAfter (cell ++ x) row k.
Proof.
  revert cell. induction x as [|c x IH]; intros cell; [rewrite app_nil_r; cbn [doubled mbind list_bind app csv_read]; by rewrite Ascii.eqb_refl|].
  change (doubled (c :: x)) with ((if Ascii.eqb c quote then [quote; quote] else [c]) ++ doubled x).
  destruct (Ascii.eqb_spec c quote) as [->|Hc]; cbn [app csv_read].
  - rewrite Ascii.eqb_refl. destruct special_apart as (-> & -> & _). rewrite IH. by rewrite <-app_assoc.
  - destruct (Ascii.eqb_spec c quote); [done|]. rewrite IH. by rewrite <-app_assoc.
Qed.
Lemma read_cell row x k : ends k → csv_read CsvStart [] row (quoted_cell x ++ k) = after_cell x row k.
Proof.
  intros Hk. unfold quoted_cell. destruct (existsb needs_quotes x) eqn:E; [|by apply read_plain].
  cbn [app csv_read]. destruct special_apart as (-> & -> & _). rewrite Ascii.eqb_refl.
  rewrite <-app_assoc. cbn [app]. rewrite read_doubled. by apply read_end.
Qed.
(** The rest of a line, and the lines after it. *)
Lemma read_line row cells k : cells ≠ [] → (match k with [] => True | c :: _ => c = newline end) →
  csv_read CsvStart [] row (js_join "," (quoted_cell <$> cells) ++ k) =
    (row ++ cells) :: match k with [] => [] | _ :: k' => csv_read CsvStart [] [] k' end.
Proof.
  intros Hne Hk. revert row. induction cells as [|x cells IH]; intros row; [done|]. destruct cells as [|y cells].
  - cbn [fmap list_fmap js_join]. rewrite read_cell; [|destruct k; [done|by right]].
    destruct k as [|c k]; [done|]. cbn in Hk. subst c. done.
  - change (js_join "," (quoted_cell <$> x :: y :: cells)) with (quoted_cell x ++ ","%char :: js_join "," (quoted_cell <$> y :: cells)).
    rewrite <-app_assoc. cbn [app]. rewrite read_cell by by left. cbn [after_cell]. rewrite Ascii.eqb_refl.
    rewrite IH by done. by rewrite <-app_assoc.
Qed.
Lemma read_lines lines : lines ≠ [] → Forall (λ cells, cells ≠ []) lines →
  csv_read CsvStart [] [] (js_join newline (js_join "," ∘ fmap quoted_cell <$> lines)) = lines.
Proof.
  intros Hne Hl. induction Hl as [|cells lines Hc Hl IH]; [done|]. destruct lines as [|next lines].
  - cbn [fmap list_fmap js_join]. pose proof (read_line [] cells [] Hc I) as H. by rewrite app_nil_r in H.
  - change (js_join newline _) with ((js_join "," (quoted_cell <$> cells)) ++ newline :: js_join newline (js_join "," ∘ fmap quoted_cell <$> next :: lines)).
    rewrite read_line by done. cbn [app]. f_equal. by apply IH.
Qed.

(** The file of an export holds what the table has. Read as comma separated values, the export of any transactions is the
    line of headers and one line per transaction, in order, whose cells are the texts of the row, whatever
    quotes, commas and line feeds they hold. *)
Lemma export_reads_back data rawData :
  csv_read CsvStart [] [] (String.list_ascii_of_string (exportToCsv data rawData)) =
    (String.list_ascii_of_string <$> defaultHeaders)
    :: ((λ e, String.list_ascii_of_string ∘ text_or_empty <$> defaultMapRow e (currency_of data rawData)) <$> data).
Proof.
  unfold exportToCsv, toCsv. rewrite String.list_ascii_of_string_of_list_ascii.
  set (cells := λ e, String.list_ascii_of_string ∘ text_or_empty <$> defaultMapRow e (currency_of data rawData)).
  rewrite <-(read_lines ((String.list_ascii_of_string <$> defaultHeaders) :: (cells <$> data))); [|done|].
  - f_equal. f_equal. cbn [fmap list_fmap]. f_equal. rewrite <-!list_fmap_compose. apply list_fmap_ext. intros i e _. cbn.
    unfold normalizeCsvCell. rewrite !String.list_ascii_of_string_of_list_ascii. done.
  - constructor; [done|]. apply Forall_fmap, Forall_forall. by intros e _.
Qed.

(** ** Filters *)

(** Choices are offered once, in the order of the data. *)
Lemma options_once {A} (getValue getLabel : A → string) keep seen data :
  NoDup (so_value <$> buildSelectOptions getValue getLabel keep seen data)
  ∧ ∀ v, v ∈ so_value <$> buildSelectOptions getValue getLabel keep seen data ↔
      v ∉ seen ∧ ∃ x, x ∈ data ∧ keep x = true ∧ getValue x = v.
Proof.
  revert seen. induction data as [|x data IH]; intros seen; cbn [buildSelectOptions].
  { split; [constructor|]. intros v. split; [by intros ?%elem_of_nil|]. by intros (_ & x & ?%elem_of_nil & _). }
  destruct (keep x) eqn:Hk; cbn [negb orb]; [case_bool_decide as Hs|].
  - destruct (IH seen) as [Hn Hv]. split; [done|]. intros v. rewrite Hv. split.
    + intros (Hv' & y & Hy & H). split; [done|]. exists y. split; [by right|done].
    + intros (Hv' & y & [->|Hy]%elem_of_cons & Hky & Hgy); [by subst v|]. split; [done|]. by exists y.
  - destruct (IH ({[getValue x]} ∪ seen)) as [Hn Hv]. cbn [fmap list_fmap so_value]. split.
    + apply NoDup_cons. split; [|done]. rewrite Hv. intros [H _]. apply H. set_solver.
    + intros v. rewrite elem_of_cons, Hv. split.
      * intros [->|(Hv' & y & Hy & H)]; [split; [done|]; exists x; split; [by left|done]|].
        split; [set_solver|]. exists y. split; [by right|done].
      * intros (Hv' & y & [->|Hy]%elem_of_cons & Hky & Hgy); [by left|].
        destruct (decide (v = getValue x)) as [->|Hne]; [by left|]. right. split; [set_solver|]. by exists y.
  - destruct (IH seen) as [Hn Hv]. split; [done|]. intros v. rewrite Hv. split.
    + intros (Hv' & y & Hy & H). split; [done|]. exists y. split; [by right|done].
    + intros (Hv' & y & [->|Hy]%elem_of_cons & Hky & Hgy); [congruence|]. split; [done|]. by exists y.
Qed.

(** ** Instances *)

Definition number0 (v : jsval) : option Z := match v with VNum n => Some n | VStr x => js_number x | _ => None end.
Definition a_transaction (n : Z) : Transaction :=
  {| tr_id := str_of_Z n; tr_userId := "ann"; tr_typeId := "bonus"; tr_amount := n; tr_performedBy := "root"; tr_notes := "";
     tr_status := "Completed"; tr_createdAt := 1700000000000 + n |}.
Definition a_log (n : nat) : TransactionsStore (T := list) :=
  {| ts_types := [{| ty_id := "bonus"; ty_label := "Bonus" |}]; ts_rows := a_transaction ∘ Z.of_nat <$> seq 0 n; ts_statuses := [];
     ts_tabs := []; ts_columns := []; ts_words := []; ts_cache := ∅ |}.
Definition pages_of (n : nat) : option (list nat) :=
  map length <$> browse (served (ZO := zod0) (λ _, None) number0 id (a_log n)) String.leb 3 (updateFilter dashboard "type" "bonus" (opened dashboard)).
(** Twelve transactions are two pages; ten are a full page and an empty one. *)
Example twelve_are_two_pages : pages_of 12 = Some [10; 2]%nat ∧ pages_of 10 = Some [10; 0]%nat.
Proof. by vm_compute. Qed.
(** The order of the codes, on which [localeCompare] agrees for times in UTC. *)
Lemma leb_trans a b c : String.leb a b = true → String.leb b c = true → String.leb a c = true.
Proof.
  revert b c. induction a as [|x a IH]; intros [|y b] [|z c]; try done. unfold String.leb, Ascii.compare in *. cbn.
  unfold Ascii.compare. intros H1 H2. specialize (IH b c).
  destruct (N.compare_spec (N_of_ascii x) (N_of_ascii y)) as [E1|E1|E1], (N.compare_spec (N_of_ascii y) (N_of_ascii z)) as [E2|E2|E2];
    try done; destruct (N.compare_spec (N_of_ascii x) (N_of_ascii z)); try done; try lia. by apply IH.
Qed.
Lemma dashboard_shows_whole_log_witness :
  ∃ pages pieces, browse (served (ZO := zod0) (λ _, None) number0 id (a_log 12)) String.leb 3
                    (updateFilter dashboard "type" "bonus" (opened dashboard)) = Some pages
           ∧ length (concat (A := jsval) pieces) = 12%nat ∧ Forall2 (λ page piece : list jsval, page ≡ₚ piece) pages pieces.
Proof.
  destruct (dashboard_shows_whole_log (ZO := zod0) (ZL := zod0_laws) (T := list) (λ _, None) number0 id String.leb) with
    (s := a_log 12) (h := opened dashboard) (key := "type") (value := "bonus") (l := reverse (ts_rows (a_log 12))) (fuel := 3%nat)
    as (pages & pieces & Hb & Hc & _ & Hp).
  - intros n Hn. cbn. apply js_number_str. lia.
  - intros t Ht. apply list_elem_of_fmap in Ht as (n & -> & _). eexists. reflexivity.
  - vm_compute. reflexivity.
  - vm_compute. lia.
  - apply String.leb_total.
  - apply leb_trans.
  - exists pages, pieces. split; [exact Hb|]. split; [rewrite Hc, length_fmap; vm_compute; reflexivity|].
    eapply Forall2_impl; [exact Hp|]. by intros ? ? [? _].
Defined.

(** The table turns a page of the log around: newest pages first, but on each the oldest entry on top. *)
Example pages_are_turned_around :
  let at_ d := VObj [("datetime", VStr d)] in
  sortedItems String.leb [at_ "2024-01-03T00:00:00.000Z"; at_ "2024-01-02T00:00:00.000Z"]
  = [at_ "2024-01-02T00:00:00.000Z"; at_ "2024-01-03T00:00:00.000Z"].
Proof. by vm_compute. Qed.
(** When the server's placeholder comes after the built-in one was chosen, it is taken for a type: nothing is shown. *)
Example late_placeholder_hides_all :
  let h := choose_defaults "All Types" "Performed By: All" (opened modal) in
  let h := choose_defaults "Todos los tipos" "Todos los responsables" h in
  clientFilter (λ _, None) "Todos los tipos" "Todos los responsables"
    [[("action", VStr "Bonus"); ("performedBy", VStr "root"); ("date", VStr "2024-01-03T00:00:00.000Z")]]
    (effectiveFilters modal h) = [].
Proof. by vm_compute. Qed.
(** A day as the end of a range ends it at its midnight: the day itself is not in it. *)
Example last_day_is_left_out :
  let parse_date d := if bool_decide (d = "2024-01-31") then Some 1706659200000
                      else if bool_decide (d = "2024-01-31T09:00:00.000Z") then Some 1706691600000 else None in
  clientFilter parse_date "All Types" "" [[("action", VStr "Bonus"); ("date", VStr "2024-01-31T09:00:00.000Z")]]
    (list_to_map [("end", "2024-01-31")]) = [].
Proof. by vm_compute. Qed.
