(* ===== verification/SiteTables.v ===== *)
(** * The tables of the site

    What administrators edit and every page reads: navigation (backend/src/nav/nav.service.ts,
    services/nav-icons.service.ts), the tabs of the administration (services/admin-tabs.service.ts,
    services/sidebar-icon.util.ts, the tab routes of routes/admin.controller.ts), calls to action (routes/ctas.controller.ts),
    palette, chips, avatar, theme and thresholds (services/settings.service.ts, chip-denoms.service.ts,
    default-avatar.service.ts, table-theme.service.ts, performance-thresholds.service.ts behind
    routes/settings.controller.ts and routes/config.controller.ts), the modes of the leaderboard
    (leaderboard/leaderboard-config.service.ts), messages (notifications/admin-messages.service.ts behind
    routes/admin-messages.controller.ts) and broadcasts (messaging/broadcasts.service.ts). Guards are those of [HttpRoutes]. *)

From S2P Require Import Prelude Store JsText JsNum Schemas AuditLog Kyc AuthRoutes WireSchemas.
#[local] Open Scope string_scope.
#[local] Open Scope list_scope.
#[local] Open Scope Z_scope.

(** ** Rows *)

Record NavItemEntity := { nv_flag : string; nv_href : string; nv_label : string; nv_icon : option string; nv_order : Z }.
Record NavIconEntity := { ni_name : string; ni_svg : string }.
Record AdminTabEntity := { at_id : string; at_label : string; at_icon : string; at_component : string; at_source : string }.
Record CTA := { cta_id : string; cta_label : string; cta_href : string; cta_variant : string }.
Record ChartPaletteEntity := { cp_id : Z; cp_color : string }.
Record ChipDenominationEntity := { cd_id : Z; cd_value : Z }.
Record DefaultAvatarEntity := { da_id : Z; da_url : string }.
Record TableThemeEntity := { th_id : Z; th_hairline : string; th_positions : jsval }.
Record PerformanceThresholdEntity := { pt_metric : string; pt_value : double }.
Record AdminMessageEntity := {
  am_id : Z; am_sender : string; am_userId : string; am_avatar : string; am_subject : string; am_preview : string;
  am_content : string; am_time : Z; am_read : bool }.
Record BroadcastEntity := { bc_id : string; bc_type : string; bc_text : string; bc_timestamp : Z; bc_urgent : bool }.
#[export] Instance NavItem_entity : Entity NavItemEntity := { row_id := nv_flag; row_clash _ _ := false }.
#[export] Instance NavIcon_entity : Entity NavIconEntity := { row_id := ni_name; row_clash _ _ := false }.
#[export] Instance AdminTab_entity : Entity AdminTabEntity := { row_id := at_id; row_clash _ _ := false }.
#[export] Instance CTA_entity : Entity CTA := { row_id := cta_id; row_clash _ _ := false }.
#[export] Instance PerformanceThreshold_entity : Entity PerformanceThresholdEntity := { row_id := pt_metric; row_clash _ _ := false }.
#[export] Instance AdminMessage_entity : Entity AdminMessageEntity := { row_id r := str_of_Z (am_id r); row_clash _ _ := false }.
#[export] Instance Broadcast_entity : Entity BroadcastEntity := { row_id := bc_id; row_clash _ _ := false }.

(** Fields of a parsed body. *)
Definition str_at (k : string) (fs : list (string * jsval)) : string := match field k fs with VStr s => s | _ => "" end.
Definition num_at (k : string) (fs : list (string * jsval)) : Z := match field k fs with VNum n => n | _ => 0 end.
Definition bool_at (k : string) (fs : list (string * jsval)) : bool := match field k fs with VBool b => b | _ => false end.
(** A four-byte integer column. *)
Definition int4 (n : Z) : bool := (- 2 ^ 31 <=? n) && (n <? 2 ^ 31).

(** ** Rows by key *)

Section Keyed.
Context {ZO : ZodOps} {T : Type → Type} `{!TableOps T} {Row : Type} `{!Entity Row}.

Definition row_of (id : string) (t : T Row) : option Row := find_row (λ r, bool_decide (row_id r = id)) t.
(** [findOne], a merge, and [save]: [fits] are the columns' types. *)
Definition update_keyed (missing : string) (fits : Row → bool) (change : Row → Row) (id : string) : M (T Row) Row :=
  existing ← gets (row_of id);
  match existing with
  | None => throw missing
  | Some r => throw_if (negb (fits (change r))) "QueryFailedError" ;; modify (save_row (change r)) ;; mret (change r)
  end.
(** [create] and [save]: a column that the body lacks keeps its value in a row with that key. *)
Definition create_keyed (fits : Row → bool) (row : option Row → Row) (id : string) : M (T Row) Row :=
  existing ← gets (row_of id);
  throw_if (negb (fits (row existing))) "QueryFailedError" ;; modify (save_row (row existing)) ;; mret (row None).
Definition remove_keyed (id : string) : M (T Row) unit := modify (delete_where (λ r, bool_decide (row_id r = id))).
End Keyed.

Section Services.
Context {ZO : ZodOps} {T : Type → Type} `{!TableOps T}.

Definition body_of {S} (s : schema) (v : jsval) : M S (list (string * jsval)) :=
  match z_parse s v with Some (VObj fs) => mret fs | _ => throw "ZodError" end.
Definition reply_with {S} (s : schema) (v : jsval) : M S jsval :=
  match z_parse s v with Some v => mret v | None => throw "ZodError" end.

(** *** nav.service.ts and admin-nav.controller.ts *)

Definition NavItemRequestSchema : schema := NavItemSchema.
Definition truthy_icon (o : option string) : list (string * jsval) := match o with None | Some "" => [] | Some i => [("icon", VStr i)] end.
Definition nav_value (r : NavItemEntity) : jsval :=
  VObj ([("flag", VStr (nv_flag r)); ("href", VStr (nv_href r)); ("label", VStr (nv_label r)); ("order", VNum (nv_order r))]
        ++ truthy_icon (nv_icon r)).
Definition nav_icon (fs : list (string * jsval)) : option string := match field "icon" fs with VStr i => Some i | _ => None end.
(** [{ ...existing, ...item }]: an item without icon keeps the old one. *)
Definition nav_row (fs : list (string * jsval)) (old : option NavItemEntity) : NavItemEntity :=
  {| nv_flag := str_at "flag" fs; nv_href := str_at "href" fs; nv_label := str_at "label" fs;
     nv_icon := match nav_icon fs with Some i => Some i | None => old ≫= nv_icon end; nv_order := num_at "order" fs |}.
Definition nav_fits (r : NavItemEntity) : bool := int4 (nv_order r).
Definition nav_list : M (T NavItemEntity) jsval :=
  items ← gets (λ t, js_sort (λ a b, nv_order a <=? nv_order b) (rows t));
  reply_with NavItemsResponseSchema (VArr (nav_value <$> items)).
Definition nav_create (body : jsval) : M (T NavItemEntity) jsval :=
  fs ← body_of NavItemRequestSchema body;
  r ← create_keyed nav_fits (nav_row fs) (str_at "flag" fs); reply_with NavItemSchema (nav_value r).
Definition nav_update (flag : string) (body : jsval) : M (T NavItemEntity) jsval :=
  fs ← body_of NavItemRequestSchema body;
  r ← update_keyed "Nav item not found" nav_fits (λ r, nav_row fs (Some r)) flag; reply_with NavItemSchema (nav_value r).

(** *** nav-icons.service.ts and admin-nav-icons.controller.ts *)

Definition icon_value (r : NavIconEntity) : jsval := VObj [("name", VStr (ni_name r)); ("svg", VStr (ni_svg r))].
Definition icon_row (fs : list (string * jsval)) : NavIconEntity := {| ni_name := str_at "name" fs; ni_svg := str_at "svg" fs |}.
Definition icons_list : M (T NavIconEntity) jsval := l ← gets rows; reply_with NavIconsResponseSchema (VArr (icon_value <$> l)).
Definition icon_create (body : jsval) : M (T NavIconEntity) jsval :=
  fs ← body_of NavIconSchema body;
  r ← create_keyed (λ _, true) (λ _, icon_row fs) (str_at "name" fs); reply_with NavIconSchema (icon_value r).
Definition icon_update (name : string) (body : jsval) : M (T NavIconEntity) jsval :=
  fs ← body_of NavIconSchema body;
  r ← update_keyed "Nav icon not found" (λ _, true) (λ _, icon_row fs) name; reply_with NavIconSchema (icon_value r).

(** *** ctas.controller.ts *)

Definition cta_value (r : CTA) : jsval :=
  VObj [("id", VStr (cta_id r)); ("label", VStr (cta_label r)); ("href", VStr (cta_href r)); ("variant", VStr (cta_variant r))].
Definition cta_row (fs : list (string * jsval)) : CTA :=
  {| cta_id := str_at "id" fs; cta_label := str_at "label" fs; cta_href := str_at "href" fs; cta_variant := str_at "variant" fs |}.
Definition ctas_list : M (T CTA) jsval := l ← gets rows; reply_with CTAsResponseSchema (VArr (cta_value <$> l)).
Definition cta_create (body : jsval) : M (T CTA) jsval :=
  fs ← body_of CTASchema body; r ← create_keyed (λ _, true) (λ _, cta_row fs) (str_at "id" fs); reply_with CTASchema (cta_value r).
Definition cta_update (id : string) (body : jsval) : M (T CTA) jsval :=
  fs ← body_of CTASchema body;
  r ← update_keyed "CTA not found" (λ _, true) (λ _, cta_row fs) id; reply_with CTASchema (cta_value r).

(** *** admin-tabs.service.ts and the tab routes of admin.controller.ts *)

Definition capitalized (part : string) : string :=
  match String.list_ascii_of_string part with [] => "" | c :: l => String.string_of_list_ascii (upper_ascii c :: l) end.
Definition normalizeSidebarIcon (name : string) : string :=
  if bool_decide (name = "") then name else if String.prefix "fa" name then name
  else "fa" +:+ String.concat "" (capitalized <$> js_split "-" name).
Definition AdminTabUpdateRequestSchema : schema := s_object [("title", s_str); ("icon", s_str); ("component", s_str)].
Definition AdminTabCreateRequestSchema : schema := s_object [("id", s_str); ("title", s_str); ("icon", s_str); ("component", s_str)].
Definition tab_value (r : AdminTabEntity) : jsval :=
  VObj [("id", VStr (at_id r)); ("title", VStr (at_label r)); ("icon", VStr (normalizeSidebarIcon (at_icon r)));
        ("component", VStr (at_component r)); ("source", VStr (at_source r))].
Definition tab_row (id : string) (fs : list (string * jsval)) : AdminTabEntity :=
  {| at_id := id; at_label := str_at "title" fs; at_icon := normalizeSidebarIcon (str_at "icon" fs);
     at_component := str_at "component" fs; at_source := "database" |}.
Definition tabs_list : M (T AdminTabEntity) jsval :=
  l ← gets (λ t, js_sort (λ a b, String.leb (at_id a) (at_id b)) (rows t));
  reply_with AdminTabResponseSchema (VArr (tab_value <$> l)).
Definition tab_create (body : jsval) : M (T AdminTabEntity) jsval :=
  fs ← body_of AdminTabCreateRequestSchema body;
  r ← create_keyed (λ _, true) (λ _, tab_row (str_at "id" fs) fs) (str_at "id" fs); reply_with AdminTabSchema (tab_value r).
Definition tab_update (id : string) (body : jsval) : M (T AdminTabEntity) jsval :=
  fs ← body_of AdminTabUpdateRequestSchema body;
  r ← update_keyed "Admin tab not found" (λ _, true) (λ r, tab_row (at_id r) fs) id; reply_with AdminTabSchema (tab_value r).
(** [id.split(/[-_]/).filter(Boolean)], each capitalized *)
Definition tab_title (id : string) : string :=
  let parts := js_split "-" (map_string (λ c, if Ascii.eqb c "_" then "-"%char else c) id) in
  let title := String.concat " " (capitalized <$> filter (λ p, p ≠ "") parts) in
  if bool_decide (title = "") then id else title.
Definition tab_meta (id : string) : M (T AdminTabEntity) jsval :=
  dbTab ← gets (row_of id);
  reply_with AdminTabMetaSchema
    match dbTab with
    | Some r => VObj [("id", VStr (at_id r)); ("title", VStr (at_label r)); ("component", VStr (at_component r));
                      ("enabled", VBool true); ("message", VStr "")]
    | None => VObj [("id", VStr id); ("title", VStr (tab_title id)); ("component", VStr ""); ("enabled", VBool false);
                    ("message", VStr "This section is coming soon.")]
    end.

(** *** settings.service.ts *)

(** Rows with generated identifiers: the rows, and the next identifier. *)
Definition set_rows {R} (l : list R) (next : Z) (s : list R * Z) : list R * Z := (l, next).
Definition numbered {A R} (make : Z → A → R) (next : Z) (l : list A) : list R := imap (λ i x, make (next + Z.of_nat i) x) l.
Definition getChartPalette (DEFAULT_PALETTE : list string) : M (list ChartPaletteEntity * Z) jsval :=
  entities ← gets (λ s, js_sort (λ a b, cp_id a <=? cp_id b) s.1);
  let colors := match entities with [] => DEFAULT_PALETTE | _ => cp_color <$> entities end in
  reply_with ChartPaletteResponseSchema (VArr (VStr <$> colors)).
Definition strings_of (v : jsval) : list string :=
  match v with VArr l => omap (λ x, match x with VStr s => Some s | _ => None end) l | _ => [] end.
Definition numbers_of (v : jsval) : list Z :=
  match v with VArr l => omap (λ x, match x with VNum n => Some n | _ => None end) l | _ => [] end.
Definition setChartPalette (body : jsval) : M (list ChartPaletteEntity * Z) jsval :=
  v ← reply_with ChartPaletteResponseSchema body;
  let colors := strings_of v in
  s ← gets id;
  modify (set_rows [] s.2) ;;
  modify (set_rows (numbered Build_ChartPaletteEntity s.2 colors) (s.2 + Z.of_nat (length colors))) ;;
  mret (VArr (VStr <$> colors)).

(** *** chip-denoms.service.ts *)

Definition getChips : M (list ChipDenominationEntity * Z) (list Z) :=
  l ← gets (λ s, js_sort (λ a b, cd_value b <=? cd_value a) s.1); mret (cd_value <$> l).
Definition chips_value (l : list Z) : jsval := VObj [("denoms", VArr (VNum <$> l))].
(** The old rows are gone before the new ones are inserted. *)
Definition updateChips (body : jsval) : M (list ChipDenominationEntity * Z) jsval :=
  fs ← body_of ChipDenominationsResponseSchema body;
  let denoms := numbers_of (field "denoms" fs) in
  s ← gets id;
  modify (set_rows [] s.2) ;;
  throw_if (negb (forallb int4 denoms)) "QueryFailedError" ;;
  modify (set_rows (numbered Build_ChipDenominationEntity s.2 denoms) (s.2 + Z.of_nat (length denoms))) ;;
  l ← getChips; mret (chips_value l).

(** *** default-avatar.service.ts and table-theme.service.ts *)

Definition getAvatar : M (list DefaultAvatarEntity * Z) string := gets (λ s, from_option da_url "" (head s.1)).
Definition avatar_value (url : string) : jsval := VObj [("defaultAvatar", VStr url)].
Definition updateAvatar (body : jsval) : M (list DefaultAvatarEntity * Z) jsval :=
  fs ← body_of DefaultAvatarResponseSchema body;
  let url := str_at "defaultAvatar" fs in
  s ← gets id;
  match s.1 with
  | [] => modify (set_rows [Build_DefaultAvatarEntity s.2 url] (s.2 + 1))
  | e :: rest => modify (set_rows (Build_DefaultAvatarEntity (da_id e) url :: rest) s.2)
  end ;; mret (avatar_value url).
Definition theme_value (hairline : string) (positions : jsval) : jsval := VObj [("hairline", VStr hairline); ("positions", positions)].
Definition getTheme : M (list TableThemeEntity * Z) jsval :=
  e ← gets (λ s, head s.1);
  match e with None => throw "Table theme not found" | Some e => mret (theme_value (th_hairline e) (th_positions e)) end.
Definition updateTheme (body : jsval) : M (list TableThemeEntity * Z) jsval :=
  fs ← body_of TableThemeResponseSchema body;
  let hairline := str_at "hairline" fs in
  let positions := field "positions" fs in
  s ← gets id;
  match s.1 with
  | [] => modify (set_rows [Build_TableThemeEntity s.2 hairline positions] (s.2 + 1))
  | e :: rest => modify (set_rows (Build_TableThemeEntity (th_id e) hairline positions :: rest) s.2)
  end ;; mret (theme_value hairline positions).

(** *** performance-thresholds.service.ts *)

Definition metrics : list string := ["INP"; "LCP"; "CLS"].
Definition DEFAULTS (metric : string) : double :=
  if bool_decide (metric = "INP") then dbl_of_Z 150 else if bool_decide (metric = "LCP") then dbl_of_Z 2500
  else dbl_div (dbl_of_Z 5) (dbl_of_Z 100).
Definition is_finite (d : double) : bool := match d with S754_zero _ | S754_finite _ _ _ => true | _ => false end.
(** [env metric] is [Number] of the variable, unless it is not set or blank. *)
Definition readEnv (env : string → option double) (metric : string) : double :=
  match env metric with Some d => if is_finite d then d else DEFAULTS metric | None => DEFAULTS metric end.
Definition stored_threshold (metric : string) (t : T PerformanceThresholdEntity) : option double :=
  match row_of metric t with Some r => if is_finite (pt_value r) then Some (pt_value r) else None | None => None end.
Definition getThresholds (env : string → option double) : M (T PerformanceThresholdEntity) (list (string * double)) :=
  t ← gets id;
  let result := (λ m, (m, default (readEnv env m) (stored_threshold m t))) <$> metrics in
  for_each (filter (λ p : string * double, stored_threshold p.1 t = None) result)
    (λ p, modify (save_row {| pt_metric := p.1; pt_value := p.2 |})) ;;
  mret result.
Definition updateThresholds (env : string → option double) (body : jsval) : M (T PerformanceThresholdEntity) (list (string * double)) :=
  fs ← body_of PerformanceThresholdsResponseSchema body;
  for_each metrics (λ m, modify (save_row {| pt_metric := m; pt_value := dbl_of_Z (num_at m fs) |})) ;;
  getThresholds env.

(** *** leaderboard-config.service.ts *)

(** Pairs of a range and a mode, the primary key; and the lists the service keeps. *)
Record LeaderboardConfig := { lc_rows : list (string * string); lc_ranges : list string; lc_modes : list string }.
(** [[...new Set(l)]] *)
Fixpoint js_distinct (l : list string) : list string :=
  match l with [] => [] | x :: l' => x :: filter (λ y, y ≠ x) (js_distinct l') end.
Definition load_config : M LeaderboardConfig unit :=
  modify (λ s, {| lc_rows := lc_rows s; lc_ranges := js_distinct (lc_rows s).*1; lc_modes := js_distinct (lc_rows s).*2 |}).
Definition with_config (l : list (string * string)) (s : LeaderboardConfig) : LeaderboardConfig :=
  {| lc_rows := l; lc_ranges := lc_ranges s; lc_modes := lc_modes s |}.
Definition config_value (r : string * string) : jsval := VObj [("range", VStr r.1); ("mode", VStr r.2)].
Definition config_list : M LeaderboardConfig jsval :=
  l ← gets lc_rows; reply_with LeaderboardConfigListResponseSchema (VObj [("configs", VArr (config_value <$> l))]).
Definition pair_at (range mode : string) (fs : list (string * jsval)) : string * string := (str_at range fs, str_at mode fs).
Definition config_create (body : jsval) : M LeaderboardConfig jsval :=
  fs ← body_of LeaderboardConfigSchema body;
  let entry := pair_at "range" "mode" fs in
  l ← gets lc_rows;
  throw_if (bool_decide (entry ∈ l)) "QueryFailedError" ;;
  modify (with_config (l ++ [entry])) ;; load_config ;; config_list.
Definition LeaderboardConfigUpdateSchema : schema :=
  s_object [("range", s_str); ("mode", s_str); ("newRange", s_str); ("newMode", s_str)].
Definition config_update (body : jsval) : M LeaderboardConfig jsval :=
  fs ← body_of LeaderboardConfigUpdateSchema body;
  let criteria := pair_at "range" "mode" fs in
  let entry := pair_at "newRange" "newMode" fs in
  l ← gets lc_rows;
  throw_if (bool_decide (criteria ∈ l ∧ entry ∈ l ∧ entry ≠ criteria)) "QueryFailedError" ;;
  modify (with_config ((λ r, if bool_decide (r = criteria) then entry else r) <$> l)) ;; load_config ;; config_list.
Definition config_remove (body : jsval) : M LeaderboardConfig jsval :=
  fs ← body_of LeaderboardConfigSchema body;
  l ← gets lc_rows;
  modify (with_config (filter (λ r, r ≠ pair_at "range" "mode" fs) l)) ;; load_config ;; config_list.

(** *** admin-messages.service.ts and admin-messages.controller.ts *)

Definition message_value (r : AdminMessageEntity) : jsval :=
  VObj [("id", VNum (am_id r)); ("sender", VStr (am_sender r)); ("userId", VStr (am_userId r)); ("avatar", VStr (am_avatar r));
        ("subject", VStr (am_subject r)); ("preview", VStr (am_preview r)); ("content", VStr (am_content r));
        ("time", VStr (iso_time (am_time r))); ("read", VBool (am_read r))].
Definition message_read (r : AdminMessageEntity) : AdminMessageEntity :=
  {| am_id := am_id r; am_sender := am_sender r; am_userId := am_userId r; am_avatar := am_avatar r; am_subject := am_subject r;
     am_preview := am_preview r; am_content := am_content r; am_time := am_time r; am_read := true |}.
Definition messages_list : M (T AdminMessageEntity) jsval :=
  items ← gets (λ t, js_sort (λ a b, am_time b <=? am_time a) (rows t));
  reply_with AdminMessagesResponseSchema (VObj [("messages", VArr (message_value <$> items))]).
(** [number] is [Number(id)]; anything but an integer fails in the query. *)
Definition message_id (number : string → option Z) (id : string) : M (T AdminMessageEntity) string :=
  match number id with Some n => mret (str_of_Z n) | None => throw "QueryFailedError" end.
Definition markRead (number : string → option Z) (id : string) : M (T AdminMessageEntity) AdminMessageEntity :=
  i ← message_id number id; update_keyed "Message not found" (λ _, true) message_read i.
(** [ReplyMessageRequestSchema]: the text is trimmed and has one to a thousand characters. *)
Definition ReplyMessageRequestSchema (body : jsval) : option string :=
  match body with
  | VObj fs => match field "reply" fs with
               | VStr s => let t := js_trim s in if (1 <=? String.length t)%nat && (String.length t <=? 1000)%nat then Some t else None
               | _ => None
               end
  | _ => None
  end.
Definition message_reply (number : string → option Z) (id : string) (body : jsval) : M (T AdminMessageEntity) jsval :=
  match ReplyMessageRequestSchema body with
  | None => throw "ZodError"
  | Some _ =>
      i ← message_id number id;
      msg ← gets (row_of i);
      match msg with
      | None => throw "Message not found"
      | Some _ => markRead number id ;;
          reply_with MessageResponseSchema (VObj [("message", VStr "sent"); ("contractVersion", VStr API_CONTRACT_VERSION)])
      end
  end.
Definition message_mark (number : string → option Z) (id : string) : M (T AdminMessageEntity) jsval :=
  r ← markRead number id; reply_with AdminMessageSchema (message_value r).

(** *** broadcasts.service.ts and broadcasts.controller.ts *)

Definition broadcast_value (r : BroadcastEntity) : jsval :=
  VObj [("id", VStr (bc_id r)); ("type", VStr (bc_type r)); ("text", VStr (bc_text r));
        ("timestamp", VStr (iso_time (bc_timestamp r))); ("urgent", VBool (bc_urgent r))].
Definition broadcasts_list : M (T BroadcastEntity) jsval :=
  l ← gets (λ t, js_sort (λ a b, bc_timestamp b <=? bc_timestamp a) (rows t));
  reply_with BroadcastsResponseSchema (VObj [("broadcasts", VArr (broadcast_value <$> l))]).
Definition SendBroadcastRequestSchema : schema :=
  s_object [("type", BroadcastTypeSchema); ("text", ZString [CMin 1]); ("urgent", ZBoolean); ("sound", ZBoolean)].
(** The database draws [id] and takes [now]; the text has at most 500 characters. *)
Definition broadcast_send (id : string) (now : Z) (body : jsval) : M (T BroadcastEntity) jsval :=
  fs ← body_of SendBroadcastRequestSchema body;
  throw_if (500 <? String.length (str_at "text" fs))%nat "ZodError" ;;
  let r := {| bc_id := id; bc_type := str_at "type" fs; bc_text := str_at "text" fs; bc_timestamp := now; bc_urgent := bool_at "urgent" fs |} in
  modify (save_row r) ;; reply_with BroadcastSchema (broadcast_value r).
(** The last template of a name counts. *)
Definition listTemplates (l : list (string * string)) : M (T BroadcastEntity) jsval :=
  let acc := foldl (λ m p, <[p.1 := p.2]> m) (∅ : gmap string string) l in
  reply_with BroadcastTemplatesResponseSchema
    (VObj [("templates", VObj ((λ p, (p.1, VStr p.2)) <$> map_to_list acc))]).
End Services.

(** ** The site and its specification *)

Section Site.
Context {ZO : ZodOps} {T : Type → Type} `{!TableOps T}.

Record Site := {
  si_nav : T NavItemEntity; si_icons : T NavIconEntity; si_tabs : T AdminTabEntity; si_ctas : T CTA;
  si_palette : list ChartPaletteEntity * Z; si_chips : list ChipDenominationEntity * Z;
  si_avatar : list DefaultAvatarEntity * Z; si_theme : list TableThemeEntity * Z; si_config : LeaderboardConfig }.
(** A request that changes a table. *)
Inductive SiteRequest :=
| SNavCreate (body : jsval) | SNavUpdate (flag : string) (body : jsval) | SNavRemove (flag : string)
| SIconCreate (body : jsval) | SIconUpdate (name : string) (body : jsval) | SIconRemove (name : string)
| STabCreate (body : jsval) | STabUpdate (id : string) (body : jsval) | STabRemove (id : string)
| SCtaCreate (body : jsval) | SCtaUpdate (id : string) (body : jsval)
| SPalette (body : jsval) | SChips (body : jsval) | SAvatar (body : jsval) | STheme (body : jsval)
| SConfigCreate (body : jsval) | SConfigUpdate (body : jsval) | SConfigRemove (body : jsval).
Definition site_step (r : SiteRequest) (s : Site) : Site :=
  let nav {A} (m : M (T NavItemEntity) A) := Build_Site (m (si_nav s)).2 (si_icons s) (si_tabs s) (si_ctas s) (si_palette s) (si_chips s) (si_avatar s) (si_theme s) (si_config s) in
  let icons {A} (m : M (T NavIconEntity) A) := Build_Site (si_nav s) (m (si_icons s)).2 (si_tabs s) (si_ctas s) (si_palette s) (si_chips s) (si_avatar s) (si_theme s) (si_config s) in
  let tabs {A} (m : M (T AdminTabEntity) A) := Build_Site (si_nav s) (si_icons s) (m (si_tabs s)).2 (si_ctas s) (si_palette s) (si_chips s) (si_avatar s) (si_theme s) (si_config s) in
  let ctas {A} (m : M (T CTA) A) := Build_Site (si_nav s) (si_icons s) (si_tabs s) (m (si_ctas s)).2 (si_palette s) (si_chips s) (si_avatar s) (si_theme s) (si_config s) in
  let config {A} (m : M LeaderboardConfig A) := Build_Site (si_nav s) (si_icons s) (si_tabs s) (si_ctas s) (si_palette s) (si_chips s) (si_avatar s) (si_theme s) (m (si_config s)).2 in
  match r with
  | SNavCreate b => nav (nav_create b) | SNavUpdate f b => nav (nav_update f b) | SNavRemove f => nav (remove_keyed f)
  | SIconCreate b => icons (icon_create b) | SIconUpdate n b => icons (icon_update n b) | SIconRemove n => icons (remove_keyed n)
  | STabCreate b => tabs (tab_create b) | STabUpdate i b => tabs (tab_update i b) | STabRemove i => tabs (remove_keyed i)
  | SCtaCreate b => ctas (cta_create b) | SCtaUpdate i b => ctas (cta_update i b)
  | SPalette b => Build_Site (si_nav s) (si_icons s) (si_tabs s) (si_ctas s) (setChartPalette b (si_palette s)).2 (si_chips s) (si_avatar s) (si_theme s) (si_config s)
  | SChips b => Build_Site (si_nav s) (si_icons s) (si_tabs s) (si_ctas s) (si_palette s) (updateChips b (si_chips s)).2 (si_avatar s) (si_theme s) (si_config s)
  | SAvatar b => Build_Site (si_nav s) (si_icons s) (si_tabs s) (si_ctas s) (si_palette s) (si_chips s) (updateAvatar b (si_avatar s)).2 (si_theme s) (si_config s)
  | STheme b => Build_Site (si_nav s) (si_icons s) (si_tabs s) (si_ctas s) (si_palette s) (si_chips s) (si_avatar s) (updateTheme b (si_theme s)).2 (si_config s)
  | SConfigCreate b => config (config_create b) | SConfigUpdate b => config (config_update b) | SConfigRemove b => config (config_remove b)
  end.

(** What the site promises: rows under their keys, lists of values, and the one avatar and theme. *)
Record SiteSpec := {
  sp_nav : gmap string NavItemEntity; sp_icons : gmap string NavIconEntity; sp_tabs : gmap string AdminTabEntity;
  sp_ctas : gmap string CTA; sp_palette : list string; sp_chips : list Z; sp_avatar : option string;
  sp_theme : option (string * jsval); sp_config : list (string * string) }.
Definition parsed_fields (s : schema) (b : jsval) : option (list (string * jsval)) :=
  match z_parse s b with Some (VObj fs) => Some fs | _ => None end.
(** Created under its key; changed in place, or put under its new key beside the old row. *)
Definition created {R} (s : schema) (b : jsval) (fits : R → bool) (key : list (string * jsval) → string)
    (row : list (string * jsval) → option R → R) (m : gmap string R) : gmap string R :=
  match parsed_fields s b with
  | Some fs => let r := row fs (m !! key fs) in if fits r then <[key fs := r]> m else m
  | None => m
  end.
Definition updated {R} (s : schema) (b : jsval) (fits : R → bool) (key : R → string) (change : list (string * jsval) → R → R)
    (id : string) (m : gmap string R) : gmap string R :=
  match parsed_fields s b, m !! id with
  | Some fs, Some old => let r := change fs old in if fits r then <[key r := r]> m else m
  | _, _ => m
  end.
Definition descending (l : list Z) : list Z := js_sort (λ a b, b <=? a) l.
Definition site_effect (r : SiteRequest) (p : SiteSpec) : SiteSpec :=
  let nav m := Build_SiteSpec m (sp_icons p) (sp_tabs p) (sp_ctas p) (sp_palette p) (sp_chips p) (sp_avatar p) (sp_theme p) (sp_config p) in
  let icons m := Build_SiteSpec (sp_nav p) m (sp_tabs p) (sp_ctas p) (sp_palette p) (sp_chips p) (sp_avatar p) (sp_theme p) (sp_config p) in
  let tabs m := Build_SiteSpec (sp_nav p) (sp_icons p) m (sp_ctas p) (sp_palette p) (sp_chips p) (sp_avatar p) (sp_theme p) (sp_config p) in
  let ctas m := Build_SiteSpec (sp_nav p) (sp_icons p) (sp_tabs p) m (sp_palette p) (sp_chips p) (sp_avatar p) (sp_theme p) (sp_config p) in
  let config l := Build_SiteSpec (sp_nav p) (sp_icons p) (sp_tabs p) (sp_ctas p) (sp_palette p) (sp_chips p) (sp_avatar p) (sp_theme p) l in
  match r with
  | SNavCreate b => nav (created NavItemRequestSchema b nav_fits (str_at "flag") nav_row (sp_nav p))
  | SNavUpdate f b => nav (updated NavItemRequestSchema b nav_fits nv_flag (λ fs r, nav_row fs (Some r)) f (sp_nav p))
  | SNavRemove f => nav (delete f (sp_nav p))
  | SIconCreate b => icons (created NavIconSchema b (λ _, true) (str_at "name") (λ fs _, icon_row fs) (sp_icons p))
  | SIconUpdate n b => icons (updated NavIconSchema b (λ _, true) ni_name (λ fs _, icon_row fs) n (sp_icons p))
  | SIconRemove n => icons (delete n (sp_icons p))
  | STabCreate b => tabs (created AdminTabCreateRequestSchema b (λ _, true) (str_at "id") (λ fs _, tab_row (str_at "id" fs) fs) (sp_tabs p))
  | STabUpdate i b => tabs (updated AdminTabUpdateRequestSchema b (λ _, true) at_id (λ fs r, tab_row (at_id r) fs) i (sp_tabs p))
  | STabRemove i => tabs (delete i (sp_tabs p))
  | SCtaCreate b => ctas (created CTASchema b (λ _, true) (str_at "id") (λ fs _, cta_row fs) (sp_ctas p))
  | SCtaUpdate i b => ctas (updated CTASchema b (λ _, true) cta_id (λ fs _, cta_row fs) i (sp_ctas p))
  | SPalette b => Build_SiteSpec (sp_nav p) (sp_icons p) (sp_tabs p) (sp_ctas p)
      (match z_parse ChartPaletteResponseSchema b with Some v => strings_of v | None => sp_palette p end)
      (sp_chips p) (sp_avatar p) (sp_theme p) (sp_config p)
  | SChips b => Build_SiteSpec (sp_nav p) (sp_icons p) (sp_tabs p) (sp_ctas p) (sp_palette p)
      (match parsed_fields ChipDenominationsResponseSchema b with
       | Some fs => let denoms := numbers_of (field "denoms" fs) in if forallb int4 denoms then descending denoms else []
       | None => sp_chips p
       end) (sp_avatar p) (sp_theme p) (sp_config p)
  | SAvatar b => Build_SiteSpec (sp_nav p) (sp_icons p) (sp_tabs p) (sp_ctas p) (sp_palette p) (sp_chips p)
      (match parsed_fields DefaultAvatarResponseSchema b with Some fs => Some (str_at "defaultAvatar" fs) | None => sp_avatar p end)
      (sp_theme p) (sp_config p)
  | STheme b => Build_SiteSpec (sp_nav p) (sp_icons p) (sp_tabs p) (sp_ctas p) (sp_palette p) (sp_chips p) (sp_avatar p)
      (match parsed_fields TableThemeResponseSchema b with Some fs => Some (str_at "hairline" fs, field "positions" fs) | None => sp_theme p end)
      (sp_config p)
  | SConfigCreate b => config
      match parsed_fields LeaderboardConfigSchema b with
      | Some fs => let e := pair_at "range" "mode" fs in if bool_decide (e ∈ sp_config p) then sp_config p else sp_config p ++ [e]
      | None => sp_config p
      end
  | SConfigUpdate b => config
      match parsed_fields LeaderboardConfigUpdateSchema b with
      | Some fs => let c := pair_at "range" "mode" fs in let e := pair_at "newRange" "newMode" fs in
          if bool_decide (c ∈ sp_config p ∧ e ∈ sp_config p ∧ e ≠ c) then sp_config p
          else (λ r, if bool_decide (r = c) then e else r) <$> sp_config p
      | None => sp_config p
      end
  | SConfigRemove b => config
      match parsed_fields LeaderboardConfigSchema b with
      | Some fs => filter (λ r, r ≠ pair_at "range" "mode" fs) (sp_config p)
      | None => sp_config p
      end
  end.

(** What the tables hold. *)
Definition table_map {R} `{!Entity R} (t : T R) : gmap string R := list_to_map ((λ r, (row_id r, r)) <$> rows t).
Definition spec_of (s : Site) : SiteSpec := {|
  sp_nav := table_map (si_nav s); sp_icons := table_map (si_icons s); sp_tabs := table_map (si_tabs s); sp_ctas := table_map (si_ctas s);
  sp_palette := cp_color <$> js_sort (λ a b, cp_id a <=? cp_id b) (si_palette s).1;
  sp_chips := descending (cd_value <$> (si_chips s).1); sp_avatar := da_url <$> head (si_avatar s).1;
  sp_theme := (λ e, (th_hairline e, th_positions e)) <$> head (si_theme s).1; sp_config := lc_rows (si_config s) |}.
End Site.

(** ** Rows by key are a map *)

Section KeyedFacts.
Context {ZO : ZodOps} {T : Type → Type} `{!TableOps T, !TableLaws T} {Row : Type} `{!Entity Row}.
Implicit Types (t : T Row) (r : Row).

Lemma table_map_lookup t k r : unique_ids t → table_map t !! k = Some r ↔ r ∈ rows t ∧ row_id r = k.
Proof.
  intros Hu. unfold table_map. rewrite <-elem_of_list_to_map.
  - split; [by intros (x & [= -> ->] & Hx)%list_elem_of_fmap|]. intros [Hr <-]. by apply (list_elem_of_fmap_2 (λ r, (row_id r, r))).
  - rewrite <-list_fmap_compose. exact Hu.
Qed.
Lemma row_of_map t k : unique_ids t → row_of k t = table_map t !! k.
Proof.
  intros Hu. unfold row_of. destruct (find_row _ t) as [r|] eqn:E; symmetry.
  - apply find_row_Some in E as [Hr Hk%bool_decide_eq_true]. by apply table_map_lookup.
  - apply eq_None_not_Some. intros [r [Hr Hk]%table_map_lookup]; [|done]. pose proof (find_row_None _ _ E r Hr) as H.
    by apply bool_decide_eq_false in H.
Qed.
Lemma table_map_save t r : unique_ids t → table_map (save_row r t) = <[row_id r := r]> (table_map t).
Proof.
  intros Hu. apply map_eq. intros k. apply option_eq. intros x. rewrite table_map_lookup by by apply unique_ids_save.
  rewrite rows_save, elem_of_cons, list_elem_of_filter, lookup_insert_Some, table_map_lookup by done. split.
  - intros [[->|[Hne Hx]] Hk]; [by left|right]. split; [congruence|done].
  - intros [[<- <-]|[Hne [Hx Hk]]]; [by split; [left|]|]. split; [right; split; [congruence|done]|done].
Qed.
Lemma table_map_delete t k : unique_ids t → table_map (delete_where (λ r, bool_decide (row_id r = k)) t) = delete k (table_map t).
Proof.
  intros Hu. apply map_eq. intros j. apply option_eq. intros x. rewrite table_map_lookup by by apply unique_ids_delete.
  rewrite rows_delete, list_elem_of_filter, lookup_delete_Some, table_map_lookup by done. rewrite bool_decide_spec. split.
  - intros [[Hne Hx] Hk]. split; [congruence|done].
  - intros [Hne [Hx Hk]]. split; [split; [congruence|done]|done].
Qed.

(** A table that follows a map. *)
Definition follows t (m : gmap string Row) : Prop := unique_ids t ∧ table_map t = m.
Lemma keyed_save_follows t m r : follows t m → follows (save_row r t) (<[row_id r := r]> m).
Proof. intros [Hu <-]. split; [by apply unique_ids_save|by apply table_map_save]. Qed.
Lemma remove_follows t m k : follows t m → follows (remove_keyed k t).2 (delete k m).
Proof. intros [Hu <-]. split; [by apply unique_ids_delete|by apply table_map_delete]. Qed.
Lemma reply_state {S} (s : schema) v (x : S) : (reply_with s v x).2 = x.
Proof. unfold reply_with. by destruct (z_parse s v). Qed.
Lemma bind_reply {S A} (m : M S A) (s : schema) (f : A → jsval) (x : S) : ((m ≫= λ a, reply_with s (f a)) x).2 = (m x).2.
Proof. rewrite bind_eq. destruct (m x) as [[a|e] x']; [apply reply_state|done]. Qed.

Lemma create_follows t m s s' b fits key (row : list (string * jsval) → option Row → Row) (value : Row → jsval) :
  (∀ fs o, row_id (row fs o) = key fs) → follows t m →
  follows ((fs ← body_of s b; r ← create_keyed fits (row fs) (key fs); reply_with s' (value r)) t).2 (created s b fits key row m).
Proof.
  intros Hkey Ht. rewrite bind_eq. unfold body_of, created, parsed_fields.
  destruct (z_parse s b) as [[| | | | | |fs|]|]; try done. cbn [mret M_ret]. rewrite bind_reply.
  unfold create_keyed. rewrite bind_eq. cbn [gets]. destruct Ht as [Hu <-]. rewrite row_of_map by done.
  destruct (fits (row fs (table_map t !! key fs))) eqn:E; [|by split]. cbn.
  set (r := row fs (table_map t !! key fs)). replace (key fs) with (row_id r) by apply Hkey. by apply keyed_save_follows.
Qed.
Lemma update_follows t m s s' b missing fits key (change : list (string * jsval) → Row → Row) id (value : Row → jsval) :
  (∀ r, row_id r = key r) → follows t m →
  follows ((fs ← body_of s b; r ← update_keyed missing fits (change fs) id; reply_with s' (value r)) t).2
    (updated s b fits key change id m).
Proof.
  intros Hkey Ht. rewrite bind_eq. unfold body_of, updated, parsed_fields.
  destruct (z_parse s b) as [[| | | | | |fs|]|]; try done. cbn [mret M_ret]. rewrite bind_reply.
  unfold update_keyed. rewrite bind_eq. cbn [gets]. destruct Ht as [Hu <-]. rewrite row_of_map by done.
  destruct (table_map t !! id) as [old|]; [|by split]. destruct (fits (change fs old)) eqn:E; [|by split].
  cbn. rewrite <-Hkey. by apply keyed_save_follows.
Qed.
End KeyedFacts.

(** ** Lists of values *)

Lemma numbered_from {A R} (make : Z → A → R) (key : R → Z) (n : Z) (l : list A) : (∀ i x, key (make i x) = i) →
  StronglySorted (λ x y, key x < key y) (numbered make n l) ∧ Forall (λ r, n <= key r) (numbered make n l).
Proof.
  intros Hk. unfold numbered. revert n. induction l as [|x l IH]; intros n; cbn [imap]; [split; constructor|].
  assert (imap ((λ i y, make (n + Z.of_nat i) y) ∘ S) l = imap (λ i y, make (n + 1 + Z.of_nat i) y) l) as ->.
  { apply imap_ext. intros i y _. cbn. f_equal. lia. }
  destruct (IH (n + 1)) as [Hs Hf]. split; constructor; [done| |rewrite Hk; lia|].
  - eapply Forall_impl; [exact Hf|]. cbn. intros r ?. rewrite Hk. lia.
  - eapply Forall_impl; [exact Hf|]. cbn. lia.
Qed.
Lemma numbered_sorted {A R} (make : Z → A → R) (key : R → Z) (n : Z) (l : list A) :
  (∀ i x, key (make i x) = i) → js_sort (λ a b, key a <=? key b) (numbered make n l) = numbered make n l.
Proof. intros Hk. apply (js_sort_by_key _ key); [done|done|]. by apply numbered_from. Qed.
Lemma numbered_values {A R} (make : Z → A → R) (value : R → A) (n : Z) (l : list A) :
  (∀ i x, value (make i x) = x) → value <$> numbered make n l = l.
Proof.
  intros Hv. unfold numbered. rewrite fmap_imap. transitivity (imap (λ _ x, x) l).
  - apply imap_ext. intros i x _. apply Hv.
  - clear. induction l as [|x l IH]; [done|]. cbn. f_equal. exact IH.
Qed.

(** ** The leaderboard's lists *)

Record config_ok (c : LeaderboardConfig) : Prop := {
  co_once : NoDup (lc_rows c); co_ranges : lc_ranges c = js_distinct (lc_rows c).*1; co_modes : lc_modes c = js_distinct (lc_rows c).*2 }.

Section Refinement.
Context {ZO : ZodOps} {T : Type → Type} `{!TableOps T, !TableLaws T}.

Record site_ok (s : Site (T := T)) : Prop := {
  so_nav : unique_ids (si_nav s); so_icons : unique_ids (si_icons s); so_tabs : unique_ids (si_tabs s);
  so_ctas : unique_ids (si_ctas s); so_config : config_ok (si_config s) }.

Lemma loaded_ok c : NoDup (lc_rows c) → config_ok (load_config c).2.
Proof. by intros Hn. Qed.
Lemma config_create_ok c b : config_ok c → config_ok (config_create b c).2 ∧
  lc_rows (config_create b c).2 = match parsed_fields LeaderboardConfigSchema b with
    | Some fs => let e := pair_at "range" "mode" fs in if bool_decide (e ∈ lc_rows c) then lc_rows c else lc_rows c ++ [e]
    | None => lc_rows c end.
Proof.
  intros Hc. unfold config_create, parsed_fields. rewrite bind_eq. unfold body_of.
  destruct (z_parse _ b) as [[| | | | | |fs|]|]; try done. cbn [mret M_ret]. rewrite bind_eq. cbn [gets].
  cbv zeta. rewrite bind_eq. case_bool_decide as He; [done|]. cbn [throw_if mret M_ret]. rewrite bind_eq. cbn [modify]. rewrite bind_eq.
  unfold load_config at 1 2. cbn [modify]. unfold config_list. rewrite !bind_reply. cbn [gets snd]. split; [|done].
  apply (loaded_ok (with_config _ c)). cbn. apply NoDup_app. split; [apply Hc|]. split; [by intros x Hx ->%list_elem_of_singleton|apply NoDup_singleton].
Qed.
Lemma update_pairs_once (c e : string * string) (l : list (string * string)) :
  NoDup l → ¬ (c ∈ l ∧ e ∈ l ∧ e ≠ c) → NoDup ((λ r, if bool_decide (r = c) then e else r) <$> l).
Proof.
  intros Hn Hce. destruct (decide (e = c)) as [->|Hne].
  { rewrite (list_fmap_ext _ id), list_fmap_id; [done|]. intros i r _. by case_bool_decide. }
  destruct (decide (c ∈ l)) as [Hc|Hc].
  - apply NoDup_fmap_2_strong; [|done]. assert (e ∉ l) as He by by intros He; apply Hce.
    intros x y Hx Hy. repeat case_bool_decide; intros; subst; done.
  - rewrite (list_fmap_ext _ id), list_fmap_id; [done|]. intros i r Hr. rewrite bool_decide_false; [done|]. intros ->.
    apply Hc. by eapply list_elem_of_lookup_2.
Qed.
Lemma config_update_ok c b : config_ok c → config_ok (config_update b c).2 ∧
  lc_rows (config_update b c).2 = match parsed_fields LeaderboardConfigUpdateSchema b with
    | Some fs => let k := pair_at "range" "mode" fs in let e := pair_at "newRange" "newMode" fs in
        if bool_decide (k ∈ lc_rows c ∧ e ∈ lc_rows c ∧ e ≠ k) then lc_rows c
        else (λ r, if bool_decide (r = k) then e else r) <$> lc_rows c
    | None => lc_rows c end.
Proof.
  intros Hc. unfold config_update, parsed_fields. rewrite bind_eq. unfold body_of.
  destruct (z_parse _ b) as [[| | | | | |fs|]|]; try done. cbn [mret M_ret]. rewrite bind_eq. cbn [gets].
  cbv zeta. rewrite bind_eq. case_bool_decide as He; [done|]. cbn [throw_if mret M_ret]. rewrite bind_eq. cbn [modify]. rewrite bind_eq.
  unfold load_config at 1 2. cbn [modify]. unfold config_list. rewrite !bind_reply. cbn [gets snd]. split; [|done].
  apply (loaded_ok (with_config _ c)). apply update_pairs_once; [apply Hc|done].
Qed.
Lemma config_remove_ok c b : config_ok c → config_ok (config_remove b c).2 ∧
  lc_rows (config_remove b c).2 = match parsed_fields LeaderboardConfigSchema b with
    | Some fs => filter (λ r, r ≠ pair_at "range" "mode" fs) (lc_rows c) | None => lc_rows c end.
Proof.
  intros Hc. unfold config_remove, parsed_fields. rewrite bind_eq. unfold body_of.
  destruct (z_parse _ b) as [[| | | | | |fs|]|]; try done. cbn [mret M_ret]. rewrite bind_eq. cbn [gets].
  rewrite bind_eq. cbn [modify]. rewrite bind_eq.
  unfold load_config at 1 2. cbn [modify]. unfold config_list. rewrite !bind_reply. cbn [gets snd]. split; [|done].
  apply (loaded_ok (with_config _ c)). apply NoDup_filter, Hc.
Qed.

(** *** Palette, chips, avatar and theme *)

Lemma palette_effect b x : cp_color <$> js_sort (λ a b, cp_id a <=? cp_id b) (setChartPalette b x).2.1 =
  match z_parse ChartPaletteResponseSchema b with Some v => strings_of v | None => cp_color <$> js_sort (λ a b, cp_id a <=? cp_id b) x.1 end.
Proof.
  unfold setChartPalette. rewrite bind_eq. unfold reply_with. destruct (z_parse _ b) as [v|]; [|done].
  cbn [mret M_ret]. rewrite bind_eq. cbn [gets id]. rewrite bind_eq. cbn [modify]. rewrite bind_eq. cbn [modify set_rows fst snd].
  unfold mret, M_ret. cbn -[numbered js_sort]. rewrite (numbered_sorted _ cp_id) by done. by apply numbered_values.
Qed.
Lemma descending_unique l l' : l ≡ₚ l' → descending l = descending l'.
Proof. apply js_sort_unique; intros *; rewrite ?Z.leb_le; lia. Qed.
Lemma chips_effect b x : descending (cd_value <$> (updateChips b x).2.1) =
  match parsed_fields ChipDenominationsResponseSchema b with
  | Some fs => let denoms := numbers_of (field "denoms" fs) in if forallb int4 denoms then descending denoms else []
  | None => descending (cd_value <$> x.1) end.
Proof.
  unfold updateChips, parsed_fields. rewrite bind_eq. unfold body_of.
  destruct (z_parse _ b) as [[| | | | | |fs|]|]; try done. cbn [mret M_ret]. rewrite bind_eq. cbn [gets id]. rewrite bind_eq. cbn [modify].
  rewrite bind_eq. cbv zeta. destruct (forallb int4 _); [|done].
  cbn [throw_if negb mret M_ret]. rewrite bind_eq. cbn [modify]. rewrite bind_eq. cbn [getChips fst snd set_rows].
  change (getChips ?y) with (getChips y). unfold getChips. rewrite bind_eq. cbn [gets mret M_ret fst snd set_rows]. by rewrite numbered_values.
Qed.
Lemma avatar_effect b x : da_url <$> head (updateAvatar b x).2.1 =
  match parsed_fields DefaultAvatarResponseSchema b with Some fs => Some (str_at "defaultAvatar" fs) | None => da_url <$> head x.1 end.
Proof.
  unfold updateAvatar, parsed_fields. rewrite bind_eq. unfold body_of.
  destruct (z_parse _ b) as [[| | | | | |fs|]|]; try done. destruct x as [[|e l] n]; done.
Qed.
Lemma theme_effect b x : (λ e, (th_hairline e, th_positions e)) <$> head (updateTheme b x).2.1 =
  match parsed_fields TableThemeResponseSchema b with
  | Some fs => Some (str_at "hairline" fs, field "positions" fs) | None => (λ e, (th_hairline e, th_positions e)) <$> head x.1 end.
Proof.
  unfold updateTheme, parsed_fields. rewrite bind_eq. unfold body_of.
  destruct (z_parse _ b) as [[| | | | | |fs|]|]; try done. destruct x as [[|e l] n]; done.
Qed.

(** *** The whole *)

Definition refines (s : Site (T := T)) (p : SiteSpec) : Prop := site_ok s ∧ spec_of s = p.
Lemma nav_create_follows b (t : T NavItemEntity) m : follows t m →
  follows (nav_create b t).2 (created NavItemRequestSchema b nav_fits (str_at "flag") nav_row m).
Proof. by apply create_follows. Qed.
Lemma nav_update_follows f b (t : T NavItemEntity) m : follows t m →
  follows (nav_update f b t).2 (updated NavItemRequestSchema b nav_fits nv_flag (λ fs r, nav_row fs (Some r)) f m).
Proof. by apply (update_follows t m _ _ b _ nav_fits nv_flag (λ fs r, nav_row fs (Some r))). Qed.
Lemma icon_create_follows b (t : T NavIconEntity) m : follows t m →
  follows (icon_create b t).2 (created NavIconSchema b (λ _, true) (str_at "name") (λ fs _, icon_row fs) m).
Proof. by apply (create_follows t m _ _ b _ _ (λ fs _, icon_row fs)). Qed.
Lemma icon_update_follows n b (t : T NavIconEntity) m : follows t m →
  follows (icon_update n b t).2 (updated NavIconSchema b (λ _, true) ni_name (λ fs _, icon_row fs) n m).
Proof. by apply (update_follows t m _ _ b _ _ ni_name (λ fs _, icon_row fs)). Qed.
Lemma tab_create_follows b (t : T AdminTabEntity) m : follows t m →
  follows (tab_create b t).2 (created AdminTabCreateRequestSchema b (λ _, true) (str_at "id") (λ fs _, tab_row (str_at "id" fs) fs) m).
Proof. by apply (create_follows t m _ _ b _ _ (λ fs _, tab_row (str_at "id" fs) fs)). Qed.
Lemma tab_update_follows i b (t : T AdminTabEntity) m : follows t m →
  follows (tab_update i b t).2 (updated AdminTabUpdateRequestSchema b (λ _, true) at_id (λ fs r, tab_row (at_id r) fs) i m).
Proof. by apply (update_follows t m _ _ b _ _ at_id (λ fs r, tab_row (at_id r) fs)). Qed.
Lemma cta_create_follows b (t : T CTA) m : follows t m →
  follows (cta_create b t).2 (created CTASchema b (λ _, true) (str_at "id") (λ fs _, cta_row fs) m).
Proof. by apply (create_follows t m _ _ b _ _ (λ fs _, cta_row fs)). Qed.
Lemma cta_update_follows i b (t : T CTA) m : follows t m →
  follows (cta_update i b t).2 (updated CTASchema b (λ _, true) cta_id (λ fs _, cta_row fs) i m).
Proof. by apply (update_follows t m _ _ b _ _ cta_id (λ fs _, cta_row fs)). Qed.

Ltac spec_by X := let E := fresh in pose proof X as E; destruct E as [? E]; split; [by split|]; unfold spec_of; cbn -[table_map created updated remove_keyed]; by f_equal.
Lemma step_refines r s : site_ok s → refines (site_step r s) (site_effect r (spec_of s)).
Proof.
  intros [Hn Hi Ht Hc Hg]. assert (follows (si_nav s) (table_map (si_nav s))) as Fn by done.
  assert (follows (si_icons s) (table_map (si_icons s))) as Fi by done. assert (follows (si_tabs s) (table_map (si_tabs s))) as Ft by done.
  assert (follows (si_ctas s) (table_map (si_ctas s))) as Fc by done.
  destruct r as [b|k b|k|b|k b|k|b|k b|k|b|k b|b|b|b|b|b|b|b].
  - spec_by (nav_create_follows b _ _ Fn).
  - spec_by (nav_update_follows k b _ _ Fn).
  - spec_by (remove_follows _ _ k Fn).
  - spec_by (icon_create_follows b _ _ Fi).
  - spec_by (icon_update_follows k b _ _ Fi).
  - spec_by (remove_follows _ _ k Fi).
  - spec_by (tab_create_follows b _ _ Ft).
  - spec_by (tab_update_follows k b _ _ Ft).
  - spec_by (remove_follows _ _ k Ft).
  - spec_by (cta_create_follows b _ _ Fc).
  - spec_by (cta_update_follows k b _ _ Fc).
  - split; [by split|]. unfold spec_of. cbn. f_equal. apply palette_effect.
  - split; [by split|]. unfold spec_of. cbn. f_equal. apply chips_effect.
  - split; [by split|]. unfold spec_of. cbn. f_equal. apply avatar_effect.
  - split; [by split|]. unfold spec_of. cbn. f_equal. apply theme_effect.
  - spec_by (config_create_ok _ b Hg).
  - spec_by (config_update_ok _ b Hg).
  - spec_by (config_remove_ok _ b Hg).
Qed.

(** C26: The tables that administrators edit are what they wrote. Whatever requests come, in whatever order, well formed or
    not, the tables hold exactly what the requests put there by the specification: rows under their keys for
    navigation, icons, tabs and calls to action, the last palette, chips, avatar and theme, and the
    leaderboard's pairs, whose ranges and modes the service serves; no key is held twice. *)
Theorem site_follows_spec rs s :
  site_ok s →
  let s' := foldl (λ s r, site_step r s) s rs in
  spec_of s' = foldl (λ p r, site_effect r p) (spec_of s) rs ∧ site_ok s'.
Proof.
  revert s. induction rs as [|r rs IH]; intros s Hs; [done|]. cbn [foldl]. cbv zeta.
  destruct (step_refines r s Hs) as [Hs' <-]. by apply IH.
Qed.
End Refinement.

(** *** What the pages are served *)

Section Served.
Context {ZO : ZodOps} {ZL : ZodLaws} {T : Type → Type} `{!TableOps T, !TableLaws T}.

Lemma strings_accepted l : z_parse ChartPaletteResponseSchema (VArr (VStr <$> l)) = Some (VArr (VStr <$> l)).
Proof. apply array_accepted, Forall_fmap, Forall_forall. intros x _. apply str_accepted. Qed.
Lemma palette_served DEFAULT_PALETTE (s : Site (T := T)) : (getChartPalette DEFAULT_PALETTE (si_palette s)).1 =
  Ret (VArr (VStr <$> match sp_palette (spec_of s) with [] => DEFAULT_PALETTE | l => l end)).
Proof.
  unfold getChartPalette. rewrite bind_eq. cbn [gets]. unfold reply_with. rewrite strings_accepted. cbn [mret M_ret fst spec_of sp_palette].
  by destruct (js_sort _ _).
Qed.
Lemma chips_served (s : Site (T := T)) : (getChips (si_chips s)).1 = Ret (sp_chips (spec_of s)).
Proof.
  unfold getChips. rewrite bind_eq. cbn. f_equal. generalize (si_chips s).1. unfold descending. induction l as [|c l IH]; [done|].
  cbn [fmap list_fmap js_sort foldr]. fold (js_sort (λ a b, cd_value b <=? cd_value a) l).
  change (foldr (sort_insert (λ a b, b <=? a)) [] (cd_value <$> l)) with (js_sort (λ a b, b <=? a) (cd_value <$> l)). rewrite <-IH.
  generalize (js_sort (λ a b, cd_value b <=? cd_value a) l). clear. induction l as [|d l IH]; [done|]. cbn.
  destruct (cd_value d <=? cd_value c); [done|]. cbn. by rewrite IH.
Qed.
Lemma avatar_served (s : Site (T := T)) : (getAvatar (si_avatar s)).1 = Ret (default "" (sp_avatar (spec_of s))).
Proof. unfold getAvatar. cbn. by destruct (head (si_avatar s).1). Qed.
End Served.

(** ** Instances *)

Definition empty_site : Site (T := list) :=
  {| si_nav := []; si_icons := []; si_tabs := []; si_ctas := []; si_palette := ([], 1); si_chips := ([], 1); si_avatar := ([], 1);
     si_theme := ([], 1); si_config := {| lc_rows := []; lc_ranges := []; lc_modes := [] |} |}.
Definition a_nav (flag label : string) (icon : option string) : jsval :=
  VObj ([("flag", VStr flag); ("href", VStr "/x"); ("label", VStr label); ("order", VNum 1)]
        ++ match icon with Some i => [("icon", VStr i)] | None => [] end).
Definition a_config (range mode : string) : jsval := VObj [("range", VStr range); ("mode", VStr mode)].
Definition some_requests : list SiteRequest := [
  SNavCreate (a_nav "lobby" "Lobby" None); SNavUpdate "lobby" (a_nav "lobby" "Games" None); SPalette (VArr [VStr "red"; VStr "blue"]);
  SPalette (VNum 3); SChips (VObj [("denoms", VArr [VNum 5; VNum 100; VNum 25])]);
  SConfigCreate (a_config "week" "cash"); SConfigCreate (a_config "month" "cash"); SConfigCreate (a_config "week" "cash")].
Lemma site_follows_spec_witness :
  let s := foldl (λ s r, site_step (ZO := zod0) r s) empty_site some_requests in
  sp_palette (spec_of s) = ["red"; "blue"] ∧ sp_chips (spec_of s) = [100; 25; 5] ∧ nv_label <$> sp_nav (spec_of s) !! "lobby" = Some "Games"
  ∧ lc_ranges (si_config s) = ["week"; "month"] ∧ lc_modes (si_config s) = ["cash"].
Proof.
  assert (site_ok empty_site) as Hok by (repeat constructor).
  destruct (site_follows_spec (ZO := zod0) some_requests empty_site Hok) as [Hs [_ _ _ _ [_ Hr Hm]]].
  cbv zeta in Hs |- *. rewrite Hs. split; [vm_compute; reflexivity|]. split; [vm_compute; reflexivity|]. split; [vm_compute; reflexivity|].
  split; vm_compute; reflexivity.
Defined.

(** A row that is updated under another key stays beside the new one. *)
Example renamed_row_stays :
  let s := foldl (λ s r, site_step (ZO := zod0) r s) empty_site
             [SNavCreate (a_nav "lobby" "Lobby" None); SNavUpdate "lobby" (a_nav "games" "Games" None)] in
  nv_flag <$> si_nav s = ["lobby"; "games"].
Proof. by vm_compute. Qed.
(** The icon of an item cannot be taken away; creating an existing item replaces it without a word. *)
Example icon_stays :
  let s := foldl (λ s r, site_step (ZO := zod0) r s) empty_site
             [SNavCreate (a_nav "lobby" "Lobby" (Some "home")); SNavUpdate "lobby" (a_nav "lobby" "Lobby" None);
              SNavCreate (a_nav "lobby" "Other" None)] in
  (λ r, (nv_label r, nv_icon r)) <$> si_nav s = [("Other", Some "home")].
Proof. by vm_compute. Qed.
(** One chip the column cannot hold, and no chips are left. *)
Example bad_chip_empties_chips :
  let s := foldl (λ s r, site_step (ZO := zod0) r s) empty_site
             [SChips (VObj [("denoms", VArr [VNum 5; VNum 100])]); SChips (VObj [("denoms", VArr [VNum 5; VNum 3000000000])])] in
  (getChips (si_chips s)).1 = Ret [].
Proof. by vm_compute. Qed.
(** An empty palette is the default one again. *)
Example empty_palette_is_the_default :
  let s := foldl (λ s r, site_step (ZO := zod0) r s) empty_site [SPalette (VArr [VStr "red"]); SPalette (VArr [])] in
  (getChartPalette (ZO := zod0) ["green"] (si_palette s)).1 = Ret (VArr [VStr "green"]).
Proof. by vm_compute. Qed.
(** The text of a reply goes nowhere: every reply leaves the same table. *)
Lemma reply_is_dropped `{ZO : ZodOps} {T : Type → Type} `{!TableOps T} number id a b (t : T AdminMessageEntity) :
  is_Some (ReplyMessageRequestSchema a) → is_Some (ReplyMessageRequestSchema b) →
  message_reply number id a t = message_reply number id b t.
Proof. unfold message_reply. by intros [x ->] [y ->]. Qed.
Example a_tab_name : tab_title "audit-log_types" = "Audit Log Types" ∧ normalizeSidebarIcon "chart-line" = "faChartLine".
Proof. by vm_compute. Qed.
