(* ===== verification/AdminCrud.v ===== *)
(** * The administrators' pages of lists

    frontend/src/hooks/admin/useAdminCrud.tsx and useCrudState.ts with the page around them
    (components/dashboard/common/admin-crud-page.tsx), and the pages of navigation items and of tabs made from
    app/admin/shared/adminCrudConfigs.tsx. A page is a state that clicks, keys, answers and fetched lists change; after
    each the effect of the form runs when what it depends on has changed. The query cache keeps a list that is
    fetched again and is equal; while there is no list, the default is a new empty one at every render and the
    effect runs at every render. Markup is left out. *)

From S2P Require Import Prelude Store JsText Schemas AuditLog Kyc ApiClient WireSchemas SiteTables.
#[local] Open Scope string_scope.
#[local] Open Scope list_scope.
#[local] Open Scope Z_scope.

(** ** Errors *)

Inductive CrudAction := ActCreate | ActUpdate | ActDelete.
Definition action_word (a : CrudAction) : string := match a with ActCreate => "create" | ActUpdate => "update" | ActDelete => "delete" end.
(** What is caught: an [Error], a text, the error of a schema with its message and that of its first issue, or another object. *)
Inductive Caught :=
| CaughtError (message : string) | CaughtText (s : string) | CaughtZod (message : string) (first : option string) | CaughtObject (message : string).
(** The client throws its own errors as plain objects. *)
Definition caught (e : ClientError) : Caught :=
  match e with ApiError m _ _ _ => CaughtObject m | Thrown m => CaughtError m end.
Definition defaultListErrorFormatter (e : Caught) : string :=
  match e with CaughtError m | CaughtZod m _ => m | CaughtText s => s | CaughtObject _ => "Unknown error" end.
Definition defaultActionErrorFormatter (action : CrudAction) (e : Caught) : string :=
  match e with
  | CaughtZod _ first => default ("Failed to " +:+ action_word action +:+ " item due to invalid input.") first
  | CaughtError m => m
  | CaughtText s => s
  | CaughtObject _ => "Failed to " +:+ action_word action +:+ " item."
  end.
(** adminCrudConfigs.tsx *)
Definition normalizeError (e : Caught) : string :=
  match e with CaughtError m | CaughtZod m _ => m | CaughtText s => s | CaughtObject _ => "Unknown error" end.
Definition formatActionError (itemLabel : string) (action : CrudAction) (e : Caught) : string :=
  "Failed to " +:+ action_word action +:+ " " +:+ itemLabel +:+ ": " +:+ normalizeError e.

(** ** The form *)

Inductive SubmitPreparation (C U : Type) := PrepError (e : string) | PrepCreate (payload : C) | PrepUpdate (payload : U).
Arguments PrepError {C U}. Arguments PrepCreate {C U}. Arguments PrepUpdate {C U}.

(** [fc_initial] is [{ ...emptyForm, ...computeInitialForm(items) }]; the buttons of an item are disabled by whether
    the page is submitting and whether the item is being deleted. *)
Record FormConfig (Item Form C U Id : Type) := {
  fc_initial : list Item → Form; fc_formFromItem : Item → Form; fc_prepareSubmit : Form → option Item → SubmitPreparation C U;
  fc_getItemId : Item → Id; fc_formatActionError : CrudAction → Caught → string;
  fc_disableEdit : bool → bool → bool; fc_disableDelete : bool → bool → bool }.
Arguments fc_initial {Item Form C U Id}. Arguments fc_formFromItem {Item Form C U Id}. Arguments fc_prepareSubmit {Item Form C U Id}.
Arguments fc_getItemId {Item Form C U Id}. Arguments fc_formatActionError {Item Form C U Id}.
Arguments fc_disableEdit {Item Form C U Id}. Arguments fc_disableDelete {Item Form C U Id}.

Section Form.
Context {Item Form C U Id : Type} `{!EqDecision Item} `{!EqDecision Id}.
Context (cfg : FormConfig Item Form C U Id).

(** A request in flight, with what its handler closed over. *)
Inductive CrudPending :=
| PendCreate (payload : C)
| PendUpdate (item : Item) (payload : U)
| PendDelete (identifier : Id) (editingThen : option Id).
Record CrudPage := {
  pg_form : Form; pg_actionError : option string; pg_editingId : option Id; pg_deletingId : option Id;
  pg_data : option (nat * list Item); pg_seen : option (option Item * nat); pg_pending : list CrudPending }.

Definition pg_items (s : CrudPage) : list Item := match pg_data s with Some (_, l) => l | None => [] end.
Definition find_item (id : Id) (l : list Item) : option Item := find (λ x, bool_decide (fc_getItemId cfg x = id)) l.
Definition editingItem (s : CrudPage) : option Item := pg_editingId s ≫= λ id, find_item id (pg_items s).
Definition with_form (f : Form) (seen : option (option Item * nat)) (s : CrudPage) : CrudPage :=
  Build_CrudPage f (pg_actionError s) (pg_editingId s) (pg_deletingId s) (pg_data s) seen (pg_pending s).
Definition with_error (e : option string) (s : CrudPage) : CrudPage :=
  Build_CrudPage (pg_form s) e (pg_editingId s) (pg_deletingId s) (pg_data s) (pg_seen s) (pg_pending s).
Definition with_editing (id : option Id) (s : CrudPage) : CrudPage :=
  Build_CrudPage (pg_form s) (pg_actionError s) id (pg_deletingId s) (pg_data s) (pg_seen s) (pg_pending s).
Definition with_deleting (id : option Id) (s : CrudPage) : CrudPage :=
  Build_CrudPage (pg_form s) (pg_actionError s) (pg_editingId s) id (pg_data s) (pg_seen s) (pg_pending s).
Definition with_pending (l : list CrudPending) (s : CrudPage) : CrudPage :=
  Build_CrudPage (pg_form s) (pg_actionError s) (pg_editingId s) (pg_deletingId s) (pg_data s) (pg_seen s) l.
Definition with_data (d : option (nat * list Item)) (s : CrudPage) : CrudPage :=
  Build_CrudPage (pg_form s) (pg_actionError s) (pg_editingId s) (pg_deletingId s) d (pg_seen s) (pg_pending s).

(** The effect: the form of the item that is edited, or the initial one. *)
Definition form_for (s : CrudPage) : Form :=
  match editingItem s with Some x => fc_formFromItem cfg x | None => fc_initial cfg (pg_items s) end.
Definition run_effect (s : CrudPage) : CrudPage :=
  match pg_data s with
  | None => with_form (form_for s) None s
  | Some (v, _) => if bool_decide (pg_seen s = Some (editingItem s, v)) then s else with_form (form_for s) (Some (editingItem s, v)) s
  end.

Definition setFormValue (change : Form → Form) (s : CrudPage) : CrudPage :=
  with_error None (with_form (change (pg_form s)) (pg_seen s) s).
Definition startEdit (item : Item) (s : CrudPage) : CrudPage := with_error None (with_editing (Some (fc_getItemId cfg item)) s).
Definition cancelEdit (s : CrudPage) : CrudPage := with_error None (with_editing None s).
Definition submitting (s : CrudPage) : bool := existsb (λ p, match p with PendDelete _ _ => false | _ => true end) (pg_pending s).
Definition handleSubmit (s : CrudPage) : CrudPage :=
  match fc_prepareSubmit cfg (pg_form s) (editingItem s) with
  | PrepError e => with_error (Some e) s
  | PrepCreate c => with_pending (pg_pending s ++ [PendCreate c]) s
  | PrepUpdate u =>
      match editingItem s with
      | None => with_error (Some (fc_formatActionError cfg ActUpdate (CaughtError "No item selected for update"))) s
      | Some x => with_pending (pg_pending s ++ [PendUpdate x u]) s
      end
  end.
Definition handleDelete (identifier : Id) (s : CrudPage) : CrudPage :=
  with_pending (pg_pending s ++ [PendDelete identifier (pg_editingId s)]) (with_error None (with_deleting (Some identifier) s)).
(** The answer to the [n]th request in flight. *)
Definition mutation_settled (n : nat) (r : option Caught) (s : CrudPage) : CrudPage :=
  match pg_pending s !! n with
  | None => s
  | Some p =>
      let s := with_pending (delete n (pg_pending s)) s in
      match p, r with
      | PendCreate _, None => with_error None s
      | PendCreate _, Some e => with_error (Some (fc_formatActionError cfg ActCreate e)) s
      | PendUpdate _ _, None => with_error None (with_editing None s)
      | PendUpdate _ _, Some e => with_error (Some (fc_formatActionError cfg ActUpdate e)) s
      | PendDelete i editingThen, None => with_deleting None (if bool_decide (editingThen = Some i) then with_editing None s else s)
      | PendDelete _ _, Some e => with_deleting None (with_error (Some (fc_formatActionError cfg ActDelete e)) s)
      end
  end.
(** A fetched list; an equal one is kept. *)
Definition fetched_list (l : list Item) (s : CrudPage) : CrudPage :=
  match pg_data s with
  | Some (v, old) => if bool_decide (old = l) then s else with_data (Some (S v, l)) s
  | None => with_data (Some (0%nat, l)) s
  end.

Inductive CrudEvent :=
| EvType (change : Form → Form) | EvSubmit | EvEdit (item : Item) | EvCancel | EvDelete (identifier : Id)
| EvSettled (n : nat) (r : option Caught) | EvFetched (l : list Item).
(** The buttons are disabled while they must not be pressed, and the items are those shown. *)
Definition can_happen (e : CrudEvent) (s : CrudPage) : bool :=
  match e with
  | EvSubmit => negb (submitting s)
  | EvEdit item =>
      negb (fc_disableEdit cfg (submitting s) (bool_decide (pg_deletingId s = Some (fc_getItemId cfg item)))) && bool_decide (item ∈ pg_items s)
  | EvCancel => negb (submitting s) && match editingItem s with Some _ => true | None => false end
  | EvDelete i =>
      negb (fc_disableDelete cfg (submitting s) (bool_decide (pg_deletingId s = Some i))) && bool_decide (i ∈ fc_getItemId cfg <$> pg_items s)
  | _ => true
  end.
Definition crud_step (e : CrudEvent) (s : CrudPage) : CrudPage :=
  if can_happen e s then
    run_effect match e with
      | EvType change => setFormValue change s
      | EvSubmit => handleSubmit s
      | EvEdit item => startEdit item s
      | EvCancel => cancelEdit s
      | EvDelete i => handleDelete i s
      | EvSettled n r => mutation_settled n r s
      | EvFetched l => fetched_list l s
      end
  else s.
Definition crud_opened : CrudPage := run_effect (Build_CrudPage (fc_initial cfg []) None None None None None []).
End Form.
Arguments CrudPending : clear implicits. Arguments CrudPage : clear implicits. Arguments CrudEvent : clear implicits.

(** ** The page of navigation items *)

(** lib/api/nav.ts: an item as the page has it. *)
Record UiNavItem := { un_flag : string; un_href : string; un_label : string; un_order : Z; un_iconName : option string }.
#[export] Instance UiNavItem_eq_dec : EqDecision UiNavItem.
Proof. solve_decision. Defined.
Definition fetchNavItem (r : NavItemEntity) : UiNavItem :=
  {| un_flag := nv_flag r; un_href := nv_href r; un_label := nv_label r; un_order := nv_order r;
     un_iconName := match nv_icon r with None | Some "" => None | i => i end |}.
(** An empty icon is not sent; what is drawn for an icon is left out. *)
Definition fetchNavItems (rows : list NavItemEntity) : list UiNavItem := js_sort (λ a b, bool_decide (un_order a <= un_order b)) (fetchNavItem <$> rows).
Record NavFormState := { nf_flag : string; nf_href : string; nf_label : string; nf_icon : string; nf_order : string }.
Definition NAV_EMPTY_FORM : NavFormState := {| nf_flag := ""; nf_href := ""; nf_label := ""; nf_icon := ""; nf_order := "1" |}.
Record NavItemRequest := { nr_flag : string; nr_href : string; nr_label : string; nr_order : Z; nr_icon : option string }.
Record NavUpdateInput := { nu_id : string; nu_payload : NavItemRequest }.

Abbreviation NavPage := (CrudPage UiNavItem NavFormState NavItemRequest NavUpdateInput string).

Section Nav.
(** [Number] of a text, when it is an integer. *)
Context (to_integer : string → option Z).
Definition prepareNavSubmit (f : NavFormState) (item : option UiNavItem) : SubmitPreparation NavItemRequest NavUpdateInput :=
  let flag := js_trim (nf_flag f) in let href := js_trim (nf_href f) in let label := js_trim (nf_label f) in
  let icon := js_trim (nf_icon f) in
  match to_integer (nf_order f) with
  | None => PrepError "Order must be an integer"
  | Some order =>
      if bool_decide (flag = "") || bool_decide (href = "") || bool_decide (label = "") then PrepError "Flag, href, and label are required"
      else
        let payload := {| nr_flag := flag; nr_href := href; nr_label := label; nr_order := order;
                          nr_icon := if bool_decide (icon = "") then None else Some icon |} in
        match item with Some x => PrepUpdate {| nu_id := un_flag x; nu_payload := payload |} | None => PrepCreate payload end
  end.
Definition computeNavDefaults (items : list UiNavItem) : string := match last items with None => "1" | Some x => str_of_Z (un_order x + 1) end.
Definition nav_formFromItem (x : UiNavItem) : NavFormState :=
  {| nf_flag := un_flag x; nf_href := un_href x; nf_label := un_label x; nf_icon := default "" (un_iconName x); nf_order := str_of_Z (un_order x) |}.
Definition createNavCrudConfig : FormConfig UiNavItem NavFormState NavItemRequest NavUpdateInput string := {|
  fc_initial l := {| nf_flag := ""; nf_href := ""; nf_label := ""; nf_icon := ""; nf_order := computeNavDefaults l |};
  fc_formFromItem := nav_formFromItem; fc_prepareSubmit := prepareNavSubmit; fc_getItemId := un_flag;
  fc_formatActionError := formatActionError "nav item";
  fc_disableEdit submitting _ := submitting; fc_disableDelete submitting deleting := submitting || deleting |}.
(** The inputs; the flag is read-only while an item is edited. *)
Inductive NavField := NFlag | NHref | NLabel | NIcon | NOrder.
Definition type_into (field : NavField) (value : string) (f : NavFormState) : NavFormState :=
  match field with
  | NFlag => Build_NavFormState value (nf_href f) (nf_label f) (nf_icon f) (nf_order f)
  | NHref => Build_NavFormState (nf_flag f) value (nf_label f) (nf_icon f) (nf_order f)
  | NLabel => Build_NavFormState (nf_flag f) (nf_href f) value (nf_icon f) (nf_order f)
  | NIcon => Build_NavFormState (nf_flag f) (nf_href f) (nf_label f) value (nf_order f)
  | NOrder => Build_NavFormState (nf_flag f) (nf_href f) (nf_label f) (nf_icon f) value
  end.
Inductive NavEvent := NType (field : NavField) (value : string) | NOther (e : CrudEvent UiNavItem NavFormState string).
Definition is_typing (e : CrudEvent UiNavItem NavFormState string) : bool := match e with EvType _ => true | _ => false end.
Definition nav_step (e : NavEvent) (s : NavPage) : NavPage :=
  match e with
  | NType field value =>
      match field, editingItem createNavCrudConfig s with
      | NFlag, Some _ => s
      | _, _ => crud_step createNavCrudConfig (EvType (type_into field value)) s
      end
  | NOther e => if is_typing e then s else crud_step createNavCrudConfig e s
  end.
(** The body of a request. *)
Definition nav_body (r : NavItemRequest) : jsval :=
  VObj ([("flag", VStr (nr_flag r)); ("href", VStr (nr_href r)); ("label", VStr (nr_label r)); ("order", VNum (nr_order r))]
        ++ match nr_icon r with Some i => [("icon", VStr i)] | None => [] end).
End Nav.

(** ** The page of tabs *)

Record UiAdminTab := { ut_id : string; ut_title : string; ut_component : string; ut_icon : option string }.
Record AdminTabFormState := { tf_id : string; tf_title : string; tf_component : string; tf_icon : string }.
Record CreateAdminTabRequest := { ct_id : string; ct_title : string; ct_component : string; ct_icon : string }.
Record UpdateAdminTabRequest := { pt_title : string; pt_component : string; pt_icon : string }.
Record AdminTabUpdateInput := { tu_id : string; tu_payload : UpdateAdminTabRequest }.
Definition prepareAdminTabSubmit (f : AdminTabFormState) (item : option UiAdminTab) : SubmitPreparation CreateAdminTabRequest AdminTabUpdateInput :=
  let id := js_trim (tf_id f) in let title := js_trim (tf_title f) in let component := js_trim (tf_component f) in
  let icon := js_trim (tf_icon f) in
  if bool_decide (title = "") || bool_decide (component = "") || match item with None => bool_decide (id = "") | Some _ => false end
  then PrepError "ID, title, component, and icon are required"
  else if bool_decide (icon = "") then PrepError "Icon is required"
  else match item with
       | Some x => PrepUpdate {| tu_id := ut_id x; tu_payload := {| pt_title := title; pt_component := component; pt_icon := icon |} |}
       | None => PrepCreate {| ct_id := id; ct_title := title; ct_component := component; ct_icon := icon |}
       end.
Definition createAdminTabCrudConfig : FormConfig UiAdminTab AdminTabFormState CreateAdminTabRequest AdminTabUpdateInput string := {|
  fc_initial _ := {| tf_id := ""; tf_title := ""; tf_component := ""; tf_icon := "" |};
  fc_formFromItem x := {| tf_id := ut_id x; tf_title := ut_title x; tf_component := ut_component x; tf_icon := default "" (ut_icon x) |};
  fc_prepareSubmit := prepareAdminTabSubmit; fc_getItemId := ut_id; fc_formatActionError := formatActionError "admin tab";
  fc_disableEdit submitting deleting := submitting || deleting; fc_disableDelete _ deleting := deleting |}.

(** ** The page with a table and modals *)

Section TableModals.
Context {Item Id : Type} `{!EqDecision Id} (getItemId : Item → Id) (enabled : CrudAction → bool).
Inductive CrudModalMode := ModeCreate | ModeEdit | ModeDelete.
Record CrudTableState := {
  tm_modal : option (CrudModalMode * option Item); tm_formError : option string; tm_lastSelected : option Item; tm_instance : nat }.
Definition tm_close (s : CrudTableState) : CrudTableState := Build_CrudTableState None None None (tm_instance s).
Definition openCreate (s : CrudTableState) : CrudTableState := Build_CrudTableState (Some (ModeCreate, None)) None None (tm_instance s).
Definition openEdit (item : Item) (s : CrudTableState) : CrudTableState := Build_CrudTableState (Some (ModeEdit, Some item)) None (Some item) (tm_instance s).
(** The error of another modal stays. *)
Definition openDelete (item : Item) (s : CrudTableState) : CrudTableState :=
  Build_CrudTableState (Some (ModeDelete, Some item)) (tm_formError s) (Some item) (tm_instance s).
Definition tm_failed (message : string) (s : CrudTableState) : CrudTableState :=
  Build_CrudTableState (tm_modal s) (Some message) (tm_lastSelected s) (tm_instance s).
(** [resetTableState(); close()] *)
Definition tm_done (s : CrudTableState) : CrudTableState := tm_close (Build_CrudTableState (tm_modal s) (tm_formError s) (tm_lastSelected s) (S (tm_instance s))).
Definition deriveActionMessage (errorMessages : CrudAction → option string) (format : CrudAction → Caught → string) (a : CrudAction) (e : Caught) : string :=
  match e with
  | CaughtZod _ (Some first) => first
  | _ => default (format a e) (errorMessages a)
  end.
(** Creating and updating start without an error, if they are configured. *)
Definition submit_start (a : CrudAction) (s : CrudTableState) : option CrudTableState :=
  if enabled a then Some (Build_CrudTableState (tm_modal s) None (tm_lastSelected s) (tm_instance s)) else None.
(** What [submitDelete] deletes. *)
Definition delete_target (identifier : option Id) (s : CrudTableState) : option Id :=
  if enabled ActDelete then
    match identifier with
    | Some i => Some i
    | None => match tm_modal s with Some (_, Some item) => Some (getItemId item) | _ => None end
    end
  else None.
End TableModals.

(** ** Facts *)

Section FormFacts.
Context {Item Form C U Id : Type} `{!EqDecision Item} `{!EqDecision Id}.
Context (cfg : FormConfig Item Form C U Id).
Implicit Types (s : CrudPage Item Form C U Id).

(** After the effect the form has seen the item and the list of the page. *)
Definition seen_all s : Prop := pg_seen s = match pg_data s with Some (v, _) => Some (editingItem cfg s, v) | None => None end.
Lemma effect_fields s : pg_data (run_effect cfg s) = pg_data s ∧ pg_editingId (run_effect cfg s) = pg_editingId s
  ∧ pg_pending (run_effect cfg s) = pg_pending s ∧ editingItem cfg (run_effect cfg s) = editingItem cfg s.
Proof. unfold run_effect. destruct (pg_data s) as [[v l]|] eqn:E; [case_bool_decide|]; unfold editingItem, pg_items; cbn; by rewrite ?E. Qed.
Lemma effect_sees s : seen_all (run_effect cfg s).
Proof.
  unfold seen_all. destruct (effect_fields s) as (-> & _ & _ & ->). unfold run_effect.
  destruct (pg_data s) as [[v l]|]; [by case_bool_decide|done].
Qed.
(** The form shows the item last seen, in what [shows] looks at. *)
Definition form_of_seen (shows : Item → Form → Prop) s : Prop := ∀ x v, pg_seen s = Some (Some x, v) → shows x (pg_form s).
Lemma effect_shows shows s : (∀ x, shows x (fc_formFromItem cfg x)) → form_of_seen shows s → form_of_seen shows (run_effect cfg s).
Proof.
  intros Hs Hf. unfold run_effect. destruct (pg_data s) as [[v l]|]; [case_bool_decide; [done|]|by intros x v].
  intros x w [= Hx _]. cbn. unfold form_for. rewrite Hx. apply Hs.
Qed.

(** While there is no list nothing can be typed: every key is undone at once. *)
Lemma nothing_typed_without_list change s : pg_data s = None →
  pg_form (crud_step cfg (EvType change) s) = fc_initial cfg [].
Proof.
  intros Hd. unfold crud_step. cbn [can_happen]. unfold run_effect. cbn. rewrite Hd. cbn. unfold form_for, editingItem, pg_items. cbn. rewrite Hd.
  cbn. by destruct (pg_editingId s).
Qed.
(** Opening an item fills the form with it. *)
Lemma edit_opens_item item s : NoDup (fc_getItemId cfg <$> pg_items s) → seen_all s → pg_data s ≠ None →
  can_happen cfg (EvEdit item) s = true → item ∈ pg_items s → editingItem cfg s ≠ Some item →
  pg_form (crud_step cfg (EvEdit item) s) = fc_formFromItem cfg item ∧ editingItem cfg (crud_step cfg (EvEdit item) s) = Some item.
Proof.
  intros Hn Hseen Hd Hsub Hin Hne. unfold crud_step. rewrite Hsub.
  destruct (effect_fields (startEdit cfg item s)) as (_ & _ & _ & ->).
  assert (editingItem cfg (startEdit cfg item s) = Some item) as He.
  { unfold editingItem, startEdit, find_item. cbn. change (pg_items _) with (pg_items s). destruct (find _ (pg_items s)) as [y|] eqn:E.
    - apply find_some in E as [Hy Hid%bool_decide_eq_true]. f_equal. apply (NoDup_fmap_inj_in (fc_getItemId cfg) (pg_items s)); [done| |done|done].
      by apply list_elem_of_In.
    - pose proof (find_none _ _ E item (proj1 (list_elem_of_In _ _) Hin)) as H. by apply bool_decide_eq_false in H. }
  split; [|done]. unfold run_effect. change (pg_data (startEdit cfg item s)) with (pg_data s). rewrite He.
  destruct (pg_data s) as [[v l]|] eqn:E; [|done]. change (pg_seen (startEdit cfg item s)) with (pg_seen s).
  unfold seen_all in Hseen. rewrite E in Hseen. rewrite bool_decide_false by congruence. cbn. unfold form_for. by rewrite He.
Qed.
End FormFacts.

Section NavFacts.
Context (to_integer : string → option Z).
Abbreviation cfg := (createNavCrudConfig to_integer).
Implicit Types (s : NavPage).

Definition plain_flags (l : list UiNavItem) : Prop := Forall (λ x, js_trim (un_flag x) = un_flag x) l.
Definition nav_event_ok (e : NavEvent) : Prop := match e with NOther (EvFetched l) => plain_flags l | _ => True end.
Definition keeps_key (p : CrudPending UiNavItem NavItemRequest NavUpdateInput string) : Prop :=
  match p with PendUpdate x u => nu_id u = un_flag x ∧ nr_flag (nu_payload u) = un_flag x | _ => True end.
Definition same_flag (x : UiNavItem) (f : NavFormState) : Prop := nf_flag f = un_flag x.
Record nav_inv s : Prop := {
  ni_pending : Forall keeps_key (pg_pending s); ni_plain : plain_flags (pg_items s);
  ni_seen : seen_all cfg s; ni_form : form_of_seen same_flag s }.

Lemma editing_in s x : editingItem cfg s = Some x → x ∈ pg_items s.
Proof. unfold editingItem, find_item. destruct (pg_editingId s) as [i|]; [|done]. cbn. intros [H _]%find_some. by apply list_elem_of_In. Qed.
Lemma after_effect s : Forall keeps_key (pg_pending s) → plain_flags (pg_items s) → form_of_seen same_flag s → nav_inv (run_effect cfg s).
Proof.
  intros Hp Hl Hf. destruct (effect_fields cfg s) as (Hd & _ & Hpend & _). split.
  - by rewrite Hpend.
  - unfold pg_items. by rewrite Hd.
  - apply effect_sees.
  - by apply effect_shows.
Qed.
Lemma editing_flag s x : nav_inv s → editingItem cfg s = Some x → nf_flag (pg_form s) = un_flag x.
Proof.
  intros [_ _ Hs Hf] Hx. unfold seen_all in Hs. destruct (pg_data s) as [[v l]|] eqn:E; [by apply (Hf x v); rewrite Hs, Hx|].
  apply editing_in in Hx. unfold pg_items in Hx. rewrite E in Hx. by apply elem_of_nil in Hx.
Qed.
Lemma submit_inv s : nav_inv s → nav_inv (run_effect cfg (handleSubmit cfg s)).
Proof.
  intros Hs. unfold handleSubmit. cbn [fc_prepareSubmit createNavCrudConfig]. unfold prepareNavSubmit.
  destruct (to_integer _) as [order|]; [|by apply after_effect; apply Hs]. destruct (_ || _ || _); [by apply after_effect; apply Hs|].
  destruct (editingItem cfg s) as [x|] eqn:Hx; apply after_effect; try apply Hs; cbn; apply Forall_app; (split; [apply Hs|]); repeat constructor.
  cbn. rewrite (editing_flag s x Hs Hx). pose proof (ni_plain s Hs) as Hp. unfold plain_flags in Hp. rewrite Forall_forall in Hp.
  apply Hp. by apply editing_in.
Qed.
Lemma typed_inv field value s : nav_inv s → (field = NFlag → editingItem cfg s = None) →
  nav_inv (crud_step cfg (EvType (type_into field value)) s).
Proof.
  intros Hs Hflag. unfold crud_step. cbn [can_happen]. apply after_effect; try apply Hs. intros x v Hseen. cbn in Hseen.
  pose proof (ni_form s Hs x v Hseen) as Hf. destruct field; try exact Hf. pose proof (ni_seen s Hs) as H. unfold seen_all in H.
  destruct (pg_data s) as [[w l]|]; rewrite H in Hseen; [|done]. rewrite Hflag in Hseen; done.
Qed.
Lemma settled_inv n r s : nav_inv s → nav_inv (run_effect cfg (mutation_settled cfg n r s)).
Proof.
  intros Hs. unfold mutation_settled. destruct (pg_pending s !! n) as [p|]; [|by apply after_effect; apply Hs].
  assert (Forall keeps_key (delete n (pg_pending s))) as Hd.
  { apply (Forall_sublist_keep _ _ (pg_pending s)); [apply sublist_delete|apply Hs]. }
  destruct p, r; try case_bool_decide; apply after_effect; try apply Hs; exact Hd.
Qed.
Lemma nav_step_inv e s : nav_event_ok e → nav_inv s → nav_inv (nav_step to_integer e s).
Proof.
  intros He Hs. destruct e as [field value|e]; cbn [nav_step].
  - destruct field; try by apply typed_inv. destruct (editingItem cfg s) as [x|] eqn:E; [done|]. by apply typed_inv.
  - destruct (is_typing e) eqn:Et; [done|]. unfold crud_step. destruct (can_happen cfg e s); [|done].
    destruct e as [f| |item| |i|n r|l]; try done.
    + by apply submit_inv.
    + apply after_effect; apply Hs.
    + apply after_effect; apply Hs.
    + apply after_effect; try apply Hs. cbn. apply Forall_app. split; [apply Hs|by repeat constructor].
    + by apply settled_inv.
    + unfold fetched_list. destruct (pg_data s) as [[v old]|] eqn:E; [case_bool_decide|]; apply after_effect; try apply Hs; exact He.
Qed.
Lemma opened_inv : nav_inv (crud_opened cfg).
Proof. apply after_effect; [by constructor|by constructor|by intros x v]. Qed.

(** The body is read on the server as it was sent. *)
Lemma nav_body_read `{ZO : ZodOps} {ZL : ZodLaws} r : ∃ fs, parsed_fields NavItemRequestSchema (nav_body r) = Some fs ∧ str_at "flag" fs = nr_flag r.
Proof.
  unfold parsed_fields, NavItemRequestSchema, NavItemSchema, nav_body. destruct r as [flag href label order [icon|]]; cbn [nr_icon];
    (rewrite object_accepted; [eexists; split; [reflexivity|reflexivity]|]); repeat constructor; cbn; unfold s_int; auto with zod.
Qed.
Lemma update_keeps_keys `{ZO : ZodOps} {ZL : ZodLaws} {T : Type → Type} `{!TableOps T, !TableLaws T} (t : T NavItemEntity) r :
  unique_ids t →
  dom (table_map (nav_update (nr_flag r) (nav_body r) t).2) = dom (table_map t).
Proof.
  intros Hu. destruct (nav_update_follows (nr_flag r) (nav_body r) t (table_map t)) as [_ ->]; [done|]. unfold updated.
  destruct (nav_body_read r) as (fs & -> & Hflag). destruct (table_map t !! nr_flag r) as [old|] eqn:E; [|done].
  destruct (nav_fits _); [|done]. cbn [nav_row nv_flag]. rewrite Hflag. apply dom_insert_lookup_L. by rewrite E.
Qed.

(** C27: Editing on the page of navigation never makes a second row, as long as the flags that the server sends have no
    blanks around them ([spaced_flag_doubled] below is what happens to one that has). Whatever an administrator types and clicks, however late
    the answers come and whatever lists are fetched meanwhile, every update that the page sends names its item
    by the flag it has, in the path and in the body: on the server, whatever its table holds, the update is in
    place and the flags of the table stay what they are. *)
Theorem page_edits_in_place `{ZO : ZodOps} {ZL : ZodLaws} {T : Type → Type} `{!TableOps T, !TableLaws T} es x u (t : T NavItemEntity) :
  Forall nav_event_ok es →
  PendUpdate x u ∈ pg_pending (foldl (λ s e, nav_step to_integer e s) (crud_opened cfg) es) → unique_ids t →
  nu_id u = un_flag x ∧ dom (table_map (nav_update (nu_id u) (nav_body (nu_payload u)) t).2) = dom (table_map t).
Proof.
  intros Hes Hin Hu. assert (nav_inv (foldl (λ s e, nav_step to_integer e s) (crud_opened cfg) es)) as Hs.
  { apply foldl_invariant; [|apply opened_inv]. intros s e He Hs. apply nav_step_inv; [|done]. by eapply Forall_forall in He. }
  pose proof (ni_pending _ Hs) as Hp. rewrite Forall_forall in Hp. destruct (Hp _ Hin) as [Hid Hflag].
  split; [done|]. rewrite Hid, <-Hflag. by apply update_keeps_keys.
Qed.

(** What the page opens for an item and sends back untouched is the item. *)
Lemma untouched_edit_sends_item r : to_integer (str_of_Z (nv_order r)) = Some (nv_order r) →
  js_trim (nv_flag r) = nv_flag r → js_trim (nv_href r) = nv_href r → js_trim (nv_label r) = nv_label r →
  js_trim (default "" (nv_icon r)) = default "" (nv_icon r) → nv_flag r ≠ "" → nv_href r ≠ "" → nv_label r ≠ "" →
  prepareNavSubmit to_integer (nav_formFromItem (fetchNavItem r)) (Some (fetchNavItem r))
  = PrepUpdate {| nu_id := nv_flag r;
                  nu_payload := Build_NavItemRequest (nv_flag r) (nv_href r) (nv_label r) (nv_order r) (un_iconName (fetchNavItem r)) |}.
Proof.
  destruct r as [flag href label icon order]. unfold prepareNavSubmit, fetchNavItem, nav_formFromItem.
  cbn [nv_order nv_flag nv_href nv_label nv_icon un_order un_flag un_href un_label un_iconName nf_flag nf_href nf_label nf_icon nf_order].
  intros -> -> -> -> Hi Hf Hh Hl. rewrite !bool_decide_false by done. cbn [orb]. do 3 f_equal.
  destruct icon as [i|]; [|done]. cbn in Hi. destruct (decide (i = "")) as [->|Hne]; [done|].
  assert (match Some i with None | Some "" => None | j => j end = Some i) as -> by (by destruct i). cbn. rewrite Hi. by rewrite bool_decide_false.
Qed.
(** … and the server keeps its table. *)
Lemma untouched_edit_keeps_table `{ZO : ZodOps} {ZL : ZodLaws} {T : Type → Type} `{!TableOps T, !TableLaws T} (t : T NavItemEntity) r :
  unique_ids t → table_map t !! nv_flag r = Some r →
  table_map (nav_update (nv_flag r) (nav_body (Build_NavItemRequest (nv_flag r) (nv_href r) (nv_label r) (nv_order r) (un_iconName (fetchNavItem r)))) t).2
  = table_map t.
Proof.
  intros Hu Hr. set (b := nav_body _).
  destruct (nav_update_follows (nv_flag r) b t (table_map t)) as [_ ->]; [done|]. unfold updated.
  destruct (parsed_fields _ _) as [fs|] eqn:E; [|done]. rewrite Hr.
  assert (nav_row fs (Some r) = r) as ->; [|destruct (nav_fits r); [by apply insert_id|done]].
  revert E. unfold b, parsed_fields, NavItemRequestSchema, NavItemSchema, nav_body, nav_row. destruct r as [flag href label icon order].
  cbn [nv_order nv_flag nv_href nv_label nv_icon nr_icon nr_flag nr_href nr_label nr_order fetchNavItem un_iconName].
  destruct icon as [[|c i]|]; cbn [app];
    (rewrite object_accepted; [by intros [= <-]|]); repeat constructor; cbn; unfold s_int; auto with zod.
Qed.
End NavFacts.

(** ** Concrete pages *)

Definition lobby : UiNavItem := {| un_flag := "lobby"; un_href := "/"; un_label := "Lobby"; un_order := 1; un_iconName := None |}.
Definition wallet : UiNavItem := {| un_flag := "wallet"; un_href := "/wallet"; un_label := "Wallet"; un_order := 2; un_iconName := Some "coins" |}.
Definition on_page (es : list NavEvent) : NavPage := foldl (λ s e, nav_step js_number e s) (crud_opened (createNavCrudConfig js_number)) es.
Definition lobby_row : NavItemEntity := {| nv_flag := "lobby"; nv_href := "/"; nv_label := "Lobby"; nv_icon := None; nv_order := 1 |}.
Definition relabelled : NavItemRequest := {| nr_flag := "lobby"; nr_href := "/"; nr_label := "Games"; nr_order := 1; nr_icon := None |}.

Lemma page_edits_in_place_witness :
  let t := [lobby_row] in let u := {| nu_id := "lobby"; nu_payload := relabelled |} in
  nu_id u = un_flag lobby ∧ dom (table_map (nav_update (ZO := zod0) (T := list) (nu_id u) (nav_body (nu_payload u)) t).2) = dom (table_map t).
Proof.
  cbv zeta. apply (page_edits_in_place js_number (ZO := zod0) (ZL := zod0_laws) (T := list)
    [NOther (EvFetched [lobby; wallet]); NOther (EvEdit lobby); NType NLabel "Games "; NOther EvSubmit] lobby).
  - repeat constructor.
  - change (PendUpdate lobby {| nu_id := "lobby"; nu_payload := relabelled |} ∈ [PendUpdate lobby {| nu_id := "lobby"; nu_payload := relabelled |}
      : CrudPending UiNavItem NavItemRequest NavUpdateInput string]). apply list_elem_of_here.
  - repeat constructor; set_solver.
Defined.

(** The page opens for the item after the last. *)
Example next_order : nf_order (pg_form (on_page [NOther (EvFetched [lobby; wallet])])) = "3". Proof. reflexivity. Qed.
(** The error of the server is replaced by a phrase. *)
Example server_error_hidden :
  pg_actionError (on_page [NOther (EvFetched [lobby]); NOther (EvEdit lobby); NOther EvSubmit;
    NOther (EvSettled 0 (Some (caught (ApiError "Nav item not found" None (Some 404) None))))])
  = Some "Failed to update nav item: Unknown error".
Proof. reflexivity. Qed.
(** A list that is fetched again and is the same leaves what was typed; a change of another item takes it away. *)
Example refetch_drops_typed :
  let busy := Build_UiNavItem "wallet" "/wallet" "Money" 2 (Some "coins") in
  let typed := [NOther (EvFetched [lobby; wallet]); NOther (EvEdit lobby); NType NLabel "Games"] in
  nf_label (pg_form (on_page typed)) = "Games" ∧ nf_label (pg_form (on_page (typed ++ [NOther (EvFetched [lobby; wallet])]))) = "Games"
  ∧ nf_label (pg_form (on_page (typed ++ [NOther (EvFetched [lobby; busy])]))) = "Lobby".
Proof. split_and!; reflexivity. Qed.
(** A deletion that ends late closes the form of another item and forgets what was typed. *)
Example late_deletion_closes :
  let es := [NOther (EvFetched [lobby; wallet]); NOther (EvEdit lobby); NOther (EvDelete "lobby"); NOther (EvEdit wallet); NType NLabel "Money"] in
  editingItem (createNavCrudConfig js_number) (on_page es) = Some wallet
  ∧ editingItem (createNavCrudConfig js_number) (on_page (es ++ [NOther (EvSettled 0 None)])) = None.
Proof. split; reflexivity. Qed.
(** A flag that the table has with a blank at its end is trimmed on the way: the row of the item stays beside the new one. *)
Example spaced_flag_doubled :
  let r := {| nv_flag := "lobby "; nv_href := "/"; nv_label := "Lobby"; nv_icon := None; nv_order := 1 |} in
  match prepareNavSubmit js_number (nav_formFromItem (fetchNavItem r)) (Some (fetchNavItem r)) with
  | PrepUpdate u => nv_flag <$> (nav_update (ZO := zod0) (T := list) (nu_id u) (nav_body (nu_payload u)) [r]).2
  | _ => []
  end = ["lobby "; "lobby"].
Proof. reflexivity. Qed.
(** An icon that is cleared is not sent and stays. *)
Example icon_not_cleared :
  let r := {| nv_flag := "lobby"; nv_href := "/"; nv_label := "Lobby"; nv_icon := Some "home"; nv_order := 1 |} in
  match prepareNavSubmit js_number (type_into NIcon "" (nav_formFromItem (fetchNavItem r))) (Some (fetchNavItem r)) with
  | PrepUpdate u => (nav_update (ZO := zod0) (T := list) (nu_id u) (nav_body (nu_payload u)) [r]).2 = [r]
  | _ => False
  end.
Proof. reflexivity. Qed.
(** The modal of a deletion opens with the error of the one before. *)
Example error_of_another_modal (item : UiNavItem) :
  tm_formError (openDelete item (tm_failed "Failed to create bonus" (openCreate (Build_CrudTableState (Item := UiNavItem) None None None 0))))
  = Some "Failed to create bonus".
Proof. reflexivity. Qed.
