(* ===== verification/PageCache.v ===== *)
(** * Changes shown before they are made

    frontend/src/hooks/useInvalidateMutation.ts, and useUpdateTransactionColumns.ts, which does the same and keeps the
    answer: a change is shown at once in the list that the page has fetched, taken back when it fails, and the list is
    fetched again when it has ended. Here is the page with its server: changes in flight, a list on its way, answers in
    any order, lost answers, failed fetches. The query cache is a package: a class of operations on the entry of a
    query, with laws that say what is documented of them. A fetch is given up when a change begins and started over
    when one has ended, unless there is no list yet. *)

From S2P Require Import Prelude Store Consumers.
#[local] Open Scope string_scope.
#[local] Open Scope list_scope.

(** ** The query cache *)

Inductive Fetch (C : Type) := NoFetch | Asked | Answered (c : C).
Arguments NoFetch {C}. Arguments Asked {C}. Arguments Answered {C}.
(** What can be seen of an entry: its data, whether they count as stale, and the fetch on its way. *)
Record QueryView (C : Type) := { qv_data : option C; qv_stale : bool; qv_fetch : Fetch C }.
Arguments qv_data {C}. Arguments qv_stale {C}. Arguments qv_fetch {C}. Arguments Build_QueryView {C}.
Class QueryOps (Q : Type → Type) := {
  q_view {C} : Q C → QueryView C;
  q_new {C} : Q C;
  q_set {C} : C → Q C → Q C;
  q_cancel {C} : Q C → Q C;
  q_invalidate {C} : Q C → Q C;
  q_fetch {C} : Q C → Q C;
  q_answer {C} : C → Q C → Q C;
  q_arrive {C} : Q C → Q C;
  q_fail {C} : Q C → Q C }.
Class QueryLaws (Q : Type → Type) `{!QueryOps Q} := {
  (** A page that opens fetches. *)
  view_new {C} : q_view (q_new : Q C) = Build_QueryView None true Asked;
  (** What is set counts as fresh. *)
  view_set {C} (c : C) (q : Q C) : q_view (q_set c q) = Build_QueryView (Some c) false (qv_fetch (q_view q));
  view_cancel {C} (q : Q C) : q_view (q_cancel q) = Build_QueryView (qv_data (q_view q)) (qv_stale (q_view q)) NoFetch;
  (** A fetch on its way is started over, but for the first one. *)
  view_invalidate {C} (q : Q C) : q_view (q_invalidate q) = Build_QueryView (qv_data (q_view q)) true
    match qv_data (q_view q), qv_fetch (q_view q) with None, (Asked | Answered _) as f => f | _, _ => Asked end;
  view_fetch {C} (q : Q C) : q_view (q_fetch q) = Build_QueryView (qv_data (q_view q)) (qv_stale (q_view q))
    match qv_fetch (q_view q) with NoFetch => Asked | f => f end;
  view_answer {C} (c : C) (q : Q C) : q_view (q_answer c q) = Build_QueryView (qv_data (q_view q)) (qv_stale (q_view q))
    match qv_fetch (q_view q) with Asked => Answered c | f => f end;
  view_arrive {C} (q : Q C) : q_view (q_arrive q) =
    match qv_fetch (q_view q) with Answered c => Build_QueryView (Some c) false NoFetch | _ => q_view q end;
  view_fail {C} (q : Q C) : q_view (q_fail q) = Build_QueryView (qv_data (q_view q)) (qv_stale (q_view q)) NoFetch }.
Create Rewrite HintDb query.
#[export] Hint Rewrite @view_new @view_set @view_cancel @view_invalidate @view_fetch @view_answer @view_arrive @view_fail using typeclasses eauto : query.

(** An entry that is what is seen of it. *)
#[export] Instance query_ops0 : QueryOps QueryView := {
  q_view _ q := q;
  q_new _ := Build_QueryView None true Asked;
  q_set _ c q := Build_QueryView (Some c) false (qv_fetch q);
  q_cancel _ q := Build_QueryView (qv_data q) (qv_stale q) NoFetch;
  q_invalidate _ q := Build_QueryView (qv_data q) true
    match qv_data q, qv_fetch q with None, (Asked | Answered _) as f => f | _, _ => Asked end;
  q_fetch _ q := Build_QueryView (qv_data q) (qv_stale q) match qv_fetch q with NoFetch => Asked | f => f end;
  q_answer _ c q := Build_QueryView (qv_data q) (qv_stale q) match qv_fetch q with Asked => Answered c | f => f end;
  q_arrive _ q := match qv_fetch q with Answered c => Build_QueryView (Some c) false NoFetch | _ => q end;
  q_fail _ q := Build_QueryView (qv_data q) (qv_stale q) NoFetch }.
#[export] Instance query_laws0 : QueryLaws QueryView.
Proof. by split. Qed.

(** ** Changes *)

Section Cache.
Context {Q : Type → Type} `{!QueryOps Q}.
(** The server's state, what the page fetches of it, and what a change does to it and whether it is answered well. *)
Context {S C V : Type} (view : S → C) (act : V → S → bool * S).

(** [update]; and whether the answer to a change is kept as the list. *)
Record MutationHooks := { hk_update : option (V → C → C); hk_keep_answer : bool }.
Context (hooks : MutationHooks).

(** A change in flight: what was shown before it, and what the server made of it, once it has. *)
Record Change := { ch_variables : V; ch_previous : option C; ch_answer : option (option C) }.
Record CachedPage := { pc_server : S; pc_query : Q C; pc_flight : list Change; pc_toasts : list bool }.
Definition pc_data (p : CachedPage) : option C := qv_data (q_view (pc_query p)).
Definition pc_stale (p : CachedPage) : bool := qv_stale (q_view (pc_query p)).
Definition pc_fetch (p : CachedPage) : Fetch C := qv_fetch (q_view (pc_query p)).
Definition on_query (f : Q C → Q C) (p : CachedPage) : CachedPage := Build_CachedPage (pc_server p) (f (pc_query p)) (pc_flight p) (pc_toasts p).
Definition with_flight (l : list Change) (p : CachedPage) : CachedPage := Build_CachedPage (pc_server p) (pc_query p) l (pc_toasts p).
Definition with_toast (ok : bool) (p : CachedPage) : CachedPage := Build_CachedPage (pc_server p) (pc_query p) (pc_flight p) (pc_toasts p ++ [ok]).

(** [onMutate], when the hook shows changes at once. *)
Definition onMutate (v : V) (p : CachedPage) : CachedPage :=
  match hk_update hooks with
  | None => with_flight (pc_flight p ++ [Build_Change v None None]) p
  | Some update =>
      let p := on_query q_cancel p in
      let previous := pc_data p in
      let p := match previous with Some c => on_query (q_set (update v c)) p | None => p end in
      with_flight (pc_flight p ++ [Build_Change v previous None]) p
  end.
(** The server takes a change or refuses it. *)
Definition server_acts (n : nat) (p : CachedPage) : CachedPage :=
  match pc_flight p !! n with
  | Some {| ch_variables := v; ch_previous := previous; ch_answer := None |} =>
      let '(ok, s') := act v (pc_server p) in
      Build_CachedPage s' (pc_query p) (<[n := Build_Change v previous (Some (if ok then Some (view s') else None))]> (pc_flight p)) (pc_toasts p)
  | _ => p
  end.
(** [onSuccess] or [onError], [onSettled] and the toast. *)
Definition ended (n : nat) (lost : bool) (p : CachedPage) : CachedPage :=
  match pc_flight p !! n with
  | None => p
  | Some ch =>
      let p := with_flight (delete n (pc_flight p)) p in
      match ch_answer ch, lost with
      | Some (Some c), false => with_toast true (on_query q_invalidate (if hk_keep_answer hooks then on_query (q_set c) p else p))
      | _, _ =>
          let p := match hk_update hooks, ch_previous ch with Some _, Some c => on_query (q_set c) p | _, _ => p end in
          with_toast false (on_query q_invalidate p)
      end
  end.

(** Fetches are begun by the page, by coming back to it or by [invalidateQueries]. *)
Inductive ChangeEvent :=
| Changed (v : V) | ServerActs (n : nat) | Ended (n : nat) (lost : bool) | FetchStarts | ServerReads | FetchArrives | FetchFails.
Definition change_step (e : ChangeEvent) (p : CachedPage) : CachedPage :=
  match e with
  | Changed v => onMutate v p | ServerActs n => server_acts n p | Ended n lost => ended n lost p
  | FetchStarts => on_query q_fetch p | ServerReads => on_query (q_answer (view (pc_server p))) p
  | FetchArrives => on_query q_arrive p | FetchFails => on_query q_fail p
  end.
Definition cache_opened (s : S) : CachedPage := Build_CachedPage s q_new [] [].
Definition run_cache (es : list ChangeEvent) (p : CachedPage) : CachedPage := foldl (λ p e, change_step e p) p es.

(** ** Facts *)

Context `{!QueryLaws Q}.

(** A change begins when the list is shown. *)
Definition shown_first (e : ChangeEvent) (p : CachedPage) : Prop := match e with Changed _ => is_Some (pc_data p) | _ => True end.
Fixpoint all_shown_first (es : list ChangeEvent) (p : CachedPage) : Prop :=
  match es with [] => True | e :: es' => shown_first e p ∧ all_shown_first es' (change_step e p) end.
Record cache_inv (p : CachedPage) : Prop := {
  cv_loaded : pc_flight p ≠ [] → is_Some (pc_data p);
  cv_fresh : pc_flight p = [] → pc_stale p = false → pc_data p = None ∨ pc_data p = Some (view (pc_server p));
  cv_fetch c : pc_flight p = [] → pc_fetch p = Answered c → c = view (pc_server p) }.

Lemma app_one_ne {A} (l : list A) x : l ++ [x] ≠ [].
Proof. by destruct l. Qed.
(** An entry is what is seen of it. *)
Ltac see := unfold pc_data, pc_stale, pc_fetch in *; cbn in *; autorewrite with query in *; cbn in *.
Lemma mutate_inv v p : is_Some (pc_data p) → cache_inv (onMutate v p).
Proof.
  intros [c Hc]. unfold onMutate. destruct (hk_update hooks) as [f|]; [|split; see; [by rewrite Hc; eexists|by intros ?%app_one_ne|by intros ? ?%app_one_ne]].
  cbv zeta. assert (pc_data (on_query q_cancel p) = Some c) as -> by (see; by rewrite Hc).
  split; see; [by eexists|by intros ?%app_one_ne|by intros ? ?%app_one_ne].
Qed.
Lemma ended_inv n lost p : cache_inv p → cache_inv (ended n lost p).
Proof.
  intros [Hl Hf Hr]. unfold ended. destruct (pc_flight p !! n) as [ch|] eqn:E; [|done].
  assert (is_Some (pc_data p)) as [c Hc]; [apply Hl; by intros H; rewrite H in E|]. clear Hl Hf Hr.
  destruct (ch_answer ch) as [[a|]|], lost, (hk_keep_answer hooks), (hk_update hooks), (ch_previous ch);
    split; see; rewrite ?Hc; try done; intros; try discriminate; by eexists.
Qed.
Lemma acts_inv n p : cache_inv p → cache_inv (server_acts n p).
Proof.
  intros [Hl Hf Hr]. unfold server_acts. destruct (pc_flight p !! n) as [[v previous [a|]]|] eqn:E; try done. destruct (act v (pc_server p)) as [ok s'].
  assert (pc_flight p ≠ []) as Hne by (by intros H; rewrite H in E).
  assert (∀ x, <[n := x]> (pc_flight p) ≠ []) as Hi by (intros x; destruct (pc_flight p); [done|by destruct n]).
  split; [by intros _; apply Hl|by intros ?%Hi|by intros c ?%Hi].
Qed.
Lemma step_inv e p : shown_first e p → cache_inv p → cache_inv (change_step e p).
Proof.
  intros Hs Hp. destruct e as [v|n|n lost| | | |]; cbn [change_step].
  - by apply mutate_inv.
  - by apply acts_inv.
  - by apply ended_inv.
  - destruct Hp as [Hl Hf Hr]. split; see; try done. intros c Hn. destruct (qv_fetch _); try done. by apply Hr.
  - destruct Hp as [Hl Hf Hr]. split; see; try done. intros c Hn. destruct (qv_fetch _); try done; [by intros [= <-]|by apply Hr].
  - destruct Hp as [Hl Hf Hr]. split; see; destruct (qv_fetch _) as [| |c] eqn:E; cbn; rewrite ?E; try done. intros Hn _. right. f_equal. by apply Hr.
  - destruct Hp as [Hl Hf Hr]. by split; see.
Qed.
Lemma run_inv es p : all_shown_first es p → cache_inv p → cache_inv (run_cache es p).
Proof. revert p. induction es as [|e es IH]; intros p; [done|]. intros [He Hes] Hp. apply IH; [done|by apply step_inv]. Qed.
Lemma cache_opened_inv s : cache_inv (cache_opened s).
Proof. by split; see. Qed.

Lemma settled_page_shows_server p : cache_inv p → pc_flight p = [] →
  pc_data (run_cache [FetchStarts; ServerReads; FetchArrives] p) = Some (view (pc_server p)).
Proof. intros [_ Hf Hr] Hn. see. destruct (qv_fetch _) as [| |c]; try done. cbn. f_equal. by apply Hr. Qed.

(** C28: A page that shows changes before they are made ends at what the server has. Whatever changes are made while the list
    is shown, in whatever order they reach the server, are refused or lose their answers, whatever fetches begin and
    fail in between: when no change is in flight, a list that counts as fresh is the server's, and one fetch that
    succeeds shows it. *)
Theorem page_ends_at_server (s : S) es (p := run_cache es (cache_opened s)) :
  all_shown_first es (cache_opened s) → pc_flight p = [] →
  (pc_stale p = false → pc_data p = None ∨ pc_data p = Some (view (pc_server p)))
  ∧ pc_data (run_cache [FetchStarts; ServerReads; FetchArrives] p) = Some (view (pc_server p)).
Proof.
  intros Hes Hn. assert (cache_inv p) as Hp by (apply run_inv; [done|by apply cache_opened_inv]).
  split; [by apply Hp|by apply settled_page_shows_server].
Qed.
End Cache.

(** ** The page of notifications *)

(** hooks/notifications.ts: the list with its count, and marking one or all as read. The list is in the order of the
    table. *)
Record NotificationsPage := { np_notifications : list Notification; np_unread : nat }.
Definition read_update (id : option string) (previous : NotificationsPage) : NotificationsPage :=
  {| np_notifications := (λ n, match id with
                               | None => set_read n
                               | Some i => if bool_decide (nt_id n = i) then set_read n else n
                               end) <$> np_notifications previous;
     np_unread := np_unread previous |}.
Definition useMarkRead : MutationHooks (C := NotificationsPage) (V := option string) := {| hk_update := Some read_update; hk_keep_answer := false |}.
Section Notifications.
Context {T : Type → Type} `{!TableOps T} (userId : string).
Definition notifications_page (t : T Notification) : NotificationsPage :=
  {| np_notifications := find_rows (λ n, bool_decide (nt_userId n = userId)) t; np_unread := countUnread userId t |}.
Definition mark_as_read (id : option string) (t : T Notification) : bool * T Notification :=
  (true, match id with None => markAllRead userId t | Some i => markRead i userId t end).
End Notifications.

Definition greeting (id : string) (read : bool) : Notification :=
  {| nt_id := id; nt_userId := "u"; nt_type := "system"; nt_title := "system"; nt_message := "hi"; nt_read := read |}.
Definition two_greetings : list Notification := [greeting "a" false; greeting "b" false].
Definition notifications_run (es : list (ChangeEvent (V := option string))) : CachedPage (Q := QueryView) (S := list Notification) (C := NotificationsPage) (V := option string) :=
  run_cache (notifications_page "u") (mark_as_read "u") useMarkRead es (cache_opened two_greetings).
Definition lost_answer : list (ChangeEvent (V := option string)) :=
  [ServerReads; FetchArrives; Changed (Some "a"); Changed (Some "b"); ServerActs 1; ServerActs 0; Ended 0 true; ServerReads; Ended 0 false; FetchFails].

(** The answer to the first of two changes is lost and the fetch fails: the page does not count as fresh, and the next fetch
    shows both changes. *)
Lemma page_ends_at_server_witness :
  let p := notifications_run lost_answer in
  pc_stale p = true ∧ nt_read <$> pc_server p = [true; true]
  ∧ pc_data (run_cache (notifications_page "u") (mark_as_read "u") useMarkRead [FetchStarts; ServerReads; FetchArrives] p)
    = Some (notifications_page "u" (pc_server p)).
Proof.
  cbv zeta. split; [reflexivity|]. split; [reflexivity|].
  apply (page_ends_at_server (notifications_page "u") (mark_as_read "u") useMarkRead two_greetings lost_answer); [|reflexivity].
  vm_compute. repeat split; by eexists.
Defined.
(** The count is not changed with the list. *)
Example count_lags_behind : (λ d, (nt_read <$> np_notifications d, np_unread d)) <$> pc_data (notifications_run [ServerReads; FetchArrives; Changed None])
  = Some ([true; true], 2%nat).
Proof. reflexivity. Qed.
