(* ===== verification/BonusPage.v ===== *)
(** * The page of bonuses

    frontend/src/components/dashboard/bonus-manager.tsx with its form, bonus-update-payload.ts and
    common/admin-table-manager.tsx, over the service of [Bonus] and the changes of [PageCache]. A bonus on the page has
    the fields of its row, numbers are whole, and a body is parsed twice with one schema, before it is sent and on
    the server; here it is once. The end of a day where the page runs is a parameter ([end_of_day]). Markup,
    formatted dates and amounts are left out. *)

From S2P Require Import Prelude Store JsText Schemas AuditLog Kyc Bonus PageCache.
#[local] Open Scope string_scope.
#[local] Open Scope list_scope.
#[local] Open Scope Z_scope.

(** ** Forms *)

(** What the inputs hold: an empty number is NaN, which the schema takes for none. *)
Inductive NumberInput := InputNaN | InputNumber (n : Z).
Record BonusFormInput := {
  fi_name : string; fi_type : string; fi_description : string; fi_bonusPercent : NumberInput; fi_maxBonusUsd : NumberInput;
  fi_expiryDate : option string; fi_eligibility : string; fi_status : string }.
Record BonusFormValues := {
  bv_name : string; bv_type : string; bv_description : string; bv_bonusPercent : option Z; bv_maxBonusUsd : option Z;
  bv_expiryDate : option string; bv_eligibility : string; bv_status : string }.
Definition coerceOptionalNumber (v : NumberInput) : option Z := match v with InputNaN => None | InputNumber n => Some n end.
Definition bonusFormSchema (f : BonusFormInput) : list string + BonusFormValues :=
  match (if bool_decide (fi_name f = "") then ["Promotion name is required"] else [])
        ++ (if bool_decide (fi_description f = "") then ["Description is required"] else []) with
  | [] => inr {| bv_name := fi_name f; bv_type := fi_type f; bv_description := fi_description f;
                 bv_bonusPercent := coerceOptionalNumber (fi_bonusPercent f); bv_maxBonusUsd := coerceOptionalNumber (fi_maxBonusUsd f);
                 bv_expiryDate := fi_expiryDate f; bv_eligibility := fi_eligibility f; bv_status := fi_status f |}
  | errors => inl errors
  end.
(** A payload has every field of a bonus; one that is undefined is not sent. *)
Definition buildBonusUpdatePayload (d : BonusFormValues) : BonusBase :=
  {| bb_name := bv_name d; bb_type := bv_type d; bb_description := bv_description d; bb_bonusPercent := bv_bonusPercent d;
     bb_maxBonusUsd := bv_maxBonusUsd d; bb_expiryDate := truthy_text (bv_expiryDate d);
     bb_eligibility := bv_eligibility d; bb_status := bv_status d |}.
Definition toDefaultsRequest (d : BonusFormValues) : BonusBase := buildBonusUpdatePayload d.
(** [createPromotion] *)
Definition creation_payload (d : BonusFormValues) : BonusBase :=
  let b := buildBonusUpdatePayload d in
  {| bb_name := if bool_decide (bv_name d = "") then "Untitled Promotion" else bv_name d; bb_type := bb_type b;
     bb_description := bb_description b; bb_bonusPercent := bb_bonusPercent b; bb_maxBonusUsd := bb_maxBonusUsd b;
     bb_expiryDate := bb_expiryDate b; bb_eligibility := bb_eligibility b; bb_status := bb_status b |}.
(** [openEdit] *)
Definition edit_form (r : BonusEntity) : BonusFormInput :=
  let number o := match o with Some n => InputNumber n | None => InputNaN end in
  let b := bo_base r in
  {| fi_name := bb_name b; fi_type := bb_type b; fi_description := bb_description b; fi_bonusPercent := number (bb_bonusPercent b);
     fi_maxBonusUsd := number (bb_maxBonusUsd b); fi_expiryDate := Some (default "" (bb_expiryDate b));
     fi_eligibility := bb_eligibility b; fi_status := bb_status b |}.

(** ** Changes *)

Inductive BonusChange :=
| ShowCreated (b : BonusBase) (now : Z) | ShowUpdated (id : Z) (b : BonusBase) | ShowDeleted (id : Z) | ShowStatus (id : Z) (status : string).
Definition with_base (b : BonusBase) (r : BonusEntity) : BonusEntity :=
  {| bo_id := bo_id r; bo_base := b; bo_claimsTotal := bo_claimsTotal r; bo_claimsWeek := bo_claimsWeek r |}.
Definition with_row_status (status : string) (r : BonusEntity) : BonusEntity :=
  let b := bo_base r in
  with_base {| bb_name := bb_name b; bb_type := bb_type b; bb_description := bb_description b; bb_bonusPercent := bb_bonusPercent b;
    bb_maxBonusUsd := bb_maxBonusUsd b; bb_expiryDate := bb_expiryDate b; bb_eligibility := bb_eligibility b; bb_status := status |} r.
(** What the page shows of a change at once. *)
Definition show_change (c : BonusChange) (previous : list BonusEntity) : list BonusEntity :=
  match c with
  | ShowCreated b now => {| bo_id := now; bo_base := b; bo_claimsTotal := 0; bo_claimsWeek := 0 |} :: previous
  | ShowUpdated id b => (λ r, if bool_decide (bo_id r = id) then with_base b r else r) <$> previous
  | ShowDeleted id => filter (λ r, bo_id r ≠ id) previous
  | ShowStatus id status => (λ r, if bool_decide (bo_id r = id) then with_row_status status r else r) <$> previous
  end.

(** The modals of pausing and resuming. *)
Inductive StatusMode := ModePause | ModeResume.
Definition mode_status (m : StatusMode) : string := match m with ModePause => "paused" | ModeResume => "active" end.
Definition quoted (s : string) : string := String (ascii_of_nat 34) (s +:+ String (ascii_of_nat 34) EmptyString).
Definition toggle_toast (status name : string) : string :=
  if bool_decide (status = "paused") then "Paused " +:+ quoted name else "Resumed " +:+ quoted name.

Section Server.
Context {ZO : ZodOps} {T : Type → Type} `{!TableOps T}.
Context (pg_date : string → option string).
Abbreviation Store := (BonusStore (T := T)).

Definition shown_bonuses (s : Store) : list BonusEntity := js_sort newer (rows (bs_bonuses s)).
Definition was_answered {A} (r : outcome A * Store) : bool * Store := match r with (Ret _, s') => (true, s') | (Throw _, s') => (false, s') end.
(** The requests. *)
Definition make_change (c : BonusChange) (s : Store) : bool * Store :=
  match c with
  | ShowCreated b _ => was_answered (create pg_date (mapBonusBaseFields b) s)
  | ShowUpdated id b => was_answered (update pg_date id (mapBonusBaseFields b) s)
  | ShowDeleted id => was_answered (remove id s)
  | ShowStatus id status => was_answered (update pg_date id (VObj [("status", VStr status)]) s)
  end.
Definition bonus_hooks : MutationHooks (C := list BonusEntity) (V := BonusChange) := {| hk_update := Some show_change; hk_keep_answer := false |}.
Definition bonus_page {Q : Type → Type} `{!QueryOps Q} (es : list (ChangeEvent (V := BonusChange))) (s : Store) : CachedPage (Q := Q) (S := Store) (C := list BonusEntity) (V := BonusChange) :=
  run_cache shown_bonuses make_change bonus_hooks es (cache_opened s).

(** Saving defaults: created, or updated when there are some. *)
Definition saveDefaults (b : BonusBase) (s : Store) : outcome jsval * Store :=
  match createDefaults pg_date (mapBonusBaseFields b) s with
  | (Throw e, s') => if bool_decide (e = "Bonus defaults already exist") then updateDefaults pg_date (mapBonusBaseFields b) s' else (Throw e, s')
  | r => r
  end.
(** Resetting them: what is fetched after the deletion. *)
Definition resetDefaults (s : Store) : outcome jsval * Store := getDefaults (deleteDefaults s).2.
End Server.

(** ** Lists *)

Section Lists.
Context (end_of_day : string → option Z) (now : Z).
(** A date that does not parse never expires. *)
Definition page_isExpired (iso : option string) : bool :=
  match iso with None | Some "" => false | Some d => match end_of_day d with Some t => t <? now | None => false end end.
Definition row_expired (r : BonusEntity) : bool := page_isExpired (bb_expiryDate (bo_base r)).
Definition filteredByStatus (statusFilter : string) (bonuses : list BonusEntity) : list BonusEntity :=
  filter (λ r, (if bool_decide (statusFilter = "all") then true
                else if bool_decide (statusFilter = "expired") then row_expired r
                else bool_decide (bb_status (bo_base r) = statusFilter)) = true) bonuses.
Definition activeBonuses (stats : option Z) (bonuses : list BonusEntity) : Z :=
  default (Z.of_nat (length (filter (λ r, bb_status (bo_base r) = "active" ∧ row_expired r = false) bonuses))) stats.
Definition weeklyClaims (stats : option Z) (bonuses : list BonusEntity) : Z := default (sum_by bo_claimsWeek bonuses) stats.
Definition status_label (r : BonusEntity) : string := if row_expired r then "EXPIRED" else toUpperCase (bb_status (bo_base r)).
Inductive RowAction := RowEdit | RowPause | RowResume.
Definition status_actions (r : BonusEntity) : list RowAction :=
  [RowEdit] ++ (if negb (row_expired r) && bool_decide (bb_status (bo_base r) = "active") then [RowPause] else [])
  ++ (if negb (row_expired r) && bool_decide (bb_status (bo_base r) = "paused") then [RowResume] else []).
End Lists.
Definition bonus_search (r : BonusEntity) (q : string) : bool :=
  let tt_ := to_lower (bb_name (bo_base r) +:+ " " +:+ bb_description (bo_base r) +:+ " " +:+ bb_type (bo_base r)) in
  bool_decide (q = "") || js_includes q tt_.

(** common/admin-table-manager.tsx: search and pages. *)
Definition table_filtered {A} (searchFilter : A → string → bool) (search : string) (items : list A) : list A :=
  let q := to_lower (js_trim search) in filter (λ x, searchFilter x q = true) items.
Definition pageCount (pageSize len : nat) : nat := Nat.max 1 ((len + pageSize - 1) / pageSize).
Definition pageItems {A} (pageSize page : nat) (filtered : list A) : list A := take (page * pageSize - (page - 1) * pageSize) (drop ((page - 1) * pageSize) filtered).
Definition previousPage (page : nat) : nat := Nat.max 1 (page - 1).
Definition nextPage (count page : nat) : nat := Nat.min count (page + 1).

(** ** Facts *)

(** An untouched form is the bonus it was opened for. *)
Lemma untouched_form_is_bonus r : bb_name (bo_base r) ≠ "" → bb_description (bo_base r) ≠ "" → bb_expiryDate (bo_base r) ≠ Some "" →
  ∃ d, bonusFormSchema (edit_form r) = inr d ∧ buildBonusUpdatePayload d = bo_base r.
Proof.
  intros Hn Hd He. unfold bonusFormSchema, edit_form. cbn [fi_name fi_description]. rewrite !bool_decide_false by done. eexists. split; [done|].
  destruct r as [id [n t d p m e el st] ct cw]. unfold buildBonusUpdatePayload. cbn in *. f_equal; [by destruct p|by destruct m|].
  destruct e as [e|]; [|done]. cbn. by destruct e.
Qed.

(** The pages of a table show every row that was found, once and in order. *)
Lemma pages_show_all {A} (n : nat) (l : list A) : (0 < n)%nat → mjoin ((λ p, pageItems n p l) <$> seq 1 (pageCount n (length l))) = l.
Proof.
  intros Hn. assert (∀ k, mjoin ((λ p, pageItems n p l) <$> seq 1 k) = take (k * n) l) as H.
  { induction k as [|k IH]; [done|]. rewrite seq_S, fmap_app, join_app, IH. cbn. rewrite app_nil_r. unfold pageItems.
    replace (k - 0)%nat with k by lia. rewrite take_take_drop. f_equal. lia. }
  rewrite H. apply take_ge. unfold pageCount.
  pose proof (Nat.div_mod (length l + n - 1) n ltac:(lia)) as Hd. pose proof (Nat.mod_upper_bound (length l + n - 1) n ltac:(lia)). nia.
Qed.

Section ServerFacts.
Context {ZO : ZodOps} {ZL : ZodLaws} {T : Type → Type} `{!TableOps T, !TableLaws T}.
Context (pg_date : string → option string).
Implicit Types (s : BonusStore (T := T)).

Definition at_id (id : Z) (f : BonusEntity → BonusEntity) (r : BonusEntity) : BonusEntity := if bool_decide (bo_id r = id) then f r else r.
Lemma replaced_row f r (l : list BonusEntity) : NoDup (bo_id <$> l) → r ∈ l →
  f r :: filter (λ r', str_of_Z (bo_id r') ≠ str_of_Z (bo_id r)) l ≡ₚ at_id (bo_id r) f <$> l.
Proof.
  intros Hn Hin. induction l as [|x l IH]; [by apply elem_of_nil in Hin|]. apply NoDup_cons in Hn as [Hx Hn].
  rewrite filter_cons, fmap_cons. unfold at_id at 1. apply elem_of_cons in Hin as [->|Hin].
  - rewrite decide_False by (intros H; by apply H). rewrite bool_decide_true by done. constructor.
    rewrite filter_all.
    + rewrite <-(list_fmap_id l) at 1. apply reflexive_eq, list_fmap_ext. intros i y Hy. unfold at_id.
      rewrite bool_decide_false; [done|]. intros He. apply Hx. rewrite <-He. apply list_elem_of_fmap_2. by eapply list_elem_of_lookup_2.
    + intros y Hy He%str_of_Z_inj. apply Hx. rewrite <-He. by apply list_elem_of_fmap_2.
  - assert (bo_id x ≠ bo_id r) as Hne by (intros He; apply Hx; rewrite He; by apply list_elem_of_fmap_2).
    rewrite decide_True by (intros He%str_of_Z_inj; done). rewrite bool_decide_false by done.
    rewrite Permutation_swap. constructor. by apply IH.
Qed.

Lemma newer_key a b : newer a b = (- bo_id a <=? - bo_id b).
Proof. unfold newer. destruct (Z.leb_spec (bo_id b) (bo_id a)), (Z.leb_spec (- bo_id a) (- bo_id b)); lia || done. Qed.
Lemma shown_sorted s : bonus_ok s → StronglySorted (λ a b, - bo_id a < - bo_id b) (shown_bonuses s).
Proof.
  intros Hs. eapply (sorted_strictly (λ a b, newer a b = true) _ (λ r, - bo_id r)).
  - intros a b. rewrite newer_key. lia.
  - apply js_sort_sorted; unfold newer; intros; lia.
  - unfold shown_bonuses. rewrite js_sort_perm.
    rewrite (list_fmap_compose bo_id Z.opp). assert (Inj eq eq Z.opp) by (intros x y; lia). apply NoDup_fmap_2; [done|apply Hs].
Qed.
Lemma shown_mapped f s (l' : list BonusEntity) : bonus_ok s → (∀ x, bo_id (f x) = bo_id x) → l' ≡ₚ f <$> rows (bs_bonuses s) →
  js_sort newer l' = f <$> shown_bonuses s.
Proof.
  intros Hs Hf Hp. apply (js_sort_by_key _ (λ r, - bo_id r)); [apply newer_key| |].
  - rewrite Hp. unfold shown_bonuses. by rewrite js_sort_perm.
  - pose proof (shown_sorted s Hs) as H. induction H as [|x l H IH Hx]; [constructor|]. rewrite fmap_cons. constructor; [done|].
    apply Forall_fmap. eapply Forall_impl; [exact Hx|]. intros y Hy. cbn. by rewrite !Hf.
Qed.
(** A change of one row that the server keeps as it is is seen where the row is. *)
Lemma change_in_place id body fs s r f : z_parse BonusUpdateRequestSchema body = Some (VObj fs) → find_bonus id s = Some r → bonus_ok s →
  merge (toBonusEntityInput fs) r = f r → (∀ x, bo_id (f x) = bo_id x) → pg_row pg_date (f r) = Some (f r) →
  shown_bonuses (update pg_date id body s).2 = at_id id f <$> shown_bonuses s.
Proof.
  intros Hp Hr Hs Hm Hf Hk. pose proof (find_row_Some _ _ _ Hr) as [Hin Hid%bool_decide_eq_true]. rewrite <-Hm in Hk.
  destruct (update_merges pg_date id body s fs r _ Hp Hr Hs Hk) as [_ Hrows]. rewrite Hm in Hrows. unfold shown_bonuses at 1.
  apply shown_mapped; [done| |].
  - intros x. unfold at_id. by case_bool_decide.
  - rewrite Hrows, Hf, <-Hid. apply replaced_row; [apply Hs|done].
Qed.

(** Pausing, resuming and deleting are made as they are shown, and so is an edit that clears nothing and whose date the
    database keeps as it is written. *)
Definition clears_nothing (b : BonusBase) (r : BonusEntity) : Prop :=
  (bb_bonusPercent b = None → bb_bonusPercent (bo_base r) = None) ∧ (bb_maxBonusUsd b = None → bb_maxBonusUsd (bo_base r) = None)
  ∧ (bb_expiryDate b = None → bb_expiryDate (bo_base r) = None).
Definition shown_as_made (c : BonusChange) s : Prop :=
  match c with
  | ShowCreated _ _ => False
  | ShowUpdated id b => pg_base pg_date b = Some b ∧ ∀ r, r ∈ rows (bs_bonuses s) → bo_id r = id → clears_nothing b r
  | _ => True
  end.
Lemma status_read st : ∃ fs, z_parse BonusUpdateRequestSchema (VObj [("status", VStr st)]) = Some (VObj fs)
  ∧ ∀ r, merge (toBonusEntityInput fs) r = with_row_status st r.
Proof.
  unfold BonusUpdateRequestSchema. cbn [create_shape base_shape app fmap list_fmap]. rewrite object_accepted; [|repeat constructor; cbn; auto with zod].
  eexists. split; [reflexivity|]. by intros [id [] ct cw].
Qed.
Lemma payload_read b : ∃ fs, z_parse BonusUpdateRequestSchema (mapBonusBaseFields b) = Some (VObj fs)
  ∧ ∀ r, clears_nothing b r → merge (toBonusEntityInput fs) r = with_base b r.
Proof.
  destruct b as [n t d p m e el st]. unfold mapBonusBaseFields, base_fields, obj. cbn [bb_name bb_type bb_description bb_bonusPercent bb_maxBonusUsd bb_expiryDate bb_eligibility bb_status].
  unfold BonusUpdateRequestSchema. cbn [create_shape base_shape app fmap list_fmap].
  destruct p, m, e; (rewrite object_accepted; [|repeat constructor; cbn; auto with zod]); (eexists; split; [reflexivity|]);
    intros [id [n' t' d' p' m' e' el' st'] ct cw] (Hp & Hm & He); cbn in Hp, Hm, He;
    try rewrite (Hp eq_refl); try rewrite (Hm eq_refl); try rewrite (He eq_refl); reflexivity.
Qed.
Lemma kept_row b r : pg_row pg_date r = Some r → pg_base pg_date b = Some b → pg_row pg_date (with_base b r) = Some (with_base b r).
Proof.
  unfold pg_row. intros Hr Hb. cbn. rewrite Hb. cbn. destruct (pg_base _ (bo_base r)); [|done]. cbn in Hr. by destruct (_ && _).
Qed.
Lemma kept_base r : pg_row pg_date r = Some r → pg_base pg_date (bo_base r) = Some (bo_base r).
Proof. unfold pg_row. destruct (pg_base _ (bo_base r)); [|done]. cbn. destruct (_ && _); [|done]. by intros [= <-]. Qed.
Lemma kept_status st r : pg_row pg_date r = Some r → pg_row pg_date (with_row_status st r) = Some (with_row_status st r).
Proof.
  intros Hr. apply kept_row; [done|]. apply kept_base in Hr. revert Hr. destruct r as [id [n t d p m [e|] el st'] ct cw]; [|done].
  unfold pg_base. cbn. destruct (pg_date e) as [e'|]; [|done]. by intros [= ->].
Qed.
Lemma shown_change_is_made c s : bonus_ok s → (∀ r, r ∈ rows (bs_bonuses s) → pg_row pg_date r = Some r) → shown_as_made c s →
  (make_change pg_date c s).1 = true → shown_bonuses (make_change pg_date c s).2 = show_change c (shown_bonuses s).
Proof.
  intros Hs Hkept Hc Hok. assert (∀ A (r : outcome A * BonusStore (T := T)), (was_answered r).2 = r.2) as Ha by (by intros ? [[] ?]).
  destruct c as [b now|id b|id|id st]; cbn [make_change show_change] in *; [done| | |].
  - destruct Hc as [Hb Hc]. destruct (payload_read b) as (fs & Hfs & Hm). rewrite Ha. rewrite update_eq, Hfs in Hok.
    destruct (find_bonus id s) as [r|] eqn:Er; [|done]. pose proof (find_row_Some _ _ _ Er) as [Hin Hid%bool_decide_eq_true].
    apply (change_in_place id _ fs s r (with_base b)); try done; [by apply Hm, Hc|by apply kept_row, Hb; apply Hkept].
  - unfold shown_bonuses at 1. cbn [remove modify was_answered snd on_bonuses bs_bonuses]. apply (js_sort_by_key _ (λ r, - bo_id r)); [apply newer_key| |].
    + rewrite rows_delete. unfold shown_bonuses. rewrite js_sort_perm. apply reflexive_eq, list_filter_iff. intros r. destruct (bool_decide_reflect (bo_id r = id)); cbn; naive_solver.
    + apply sorted_filter, shown_sorted, Hs.
  - destruct (status_read st) as (fs & Hfs & Hm). rewrite Ha. rewrite update_eq, Hfs in Hok.
    destruct (find_bonus id s) as [r|] eqn:Er; [|done]. pose proof (find_row_Some _ _ _ Er) as [Hin _].
    apply (change_in_place id _ fs s r (with_row_status st)); try done. apply kept_status, Hkept, Hin.
Qed.

(** Saving defaults sets every field, whether there were some or not. *)
Lemma defaults_read b : ∃ fs, z_parse BonusDefaultsRequestSchema (mapBonusBaseFields b) = Some (VObj fs)
  ∧ z_parse BonusDefaultsRequestSchema (VObj fs) = Some (VObj fs)
  ∧ new_base (toBonusDefaultsInput fs) = Some b ∧ ∀ b', merge_base (toBonusDefaultsInput fs) b' = b.
Proof.
  destruct b as [n t d p m e el st]. unfold mapBonusBaseFields, base_fields, obj. cbn [bb_name bb_type bb_description bb_bonusPercent bb_maxBonusUsd bb_expiryDate bb_eligibility bb_status].
  unfold BonusDefaultsRequestSchema, BonusDefaultsResponseSchema. cbn [base_shape].
  destruct p, m, e; (rewrite object_accepted; [|repeat constructor; cbn; auto with zod]); (eexists; split; [reflexivity|]);
    (rewrite object_accepted; [|repeat constructor; cbn; auto with zod]); done.
Qed.
Lemma save_defaults_eq e next s v : z_parse BonusDefaultsResponseSchema (mapBonusBaseFields (bf_base e)) = Some v →
  (saved ← save_defaults pg_date e next; lift (mapBonusDefaults (Some saved) BONUS_DEFAULTS)) s =
  match pg_base pg_date (bf_base e) with
  | Some b => (Ret v, on_defaults (save_row {| bf_id := bf_id e; bf_base := b |}) next s)
  | None => (Throw "QueryFailedError", s)
  end.
Proof.
  intros Hv. rewrite bind_eq. unfold save_defaults. destruct (pg_base _ _) as [b|]; [|done].
  rewrite bind_eq. cbn [modify mret M_ret]. unfold lift, mapBonusDefaults. by rewrite Hv.
Qed.
Lemma one_row_saved (e : BonusDefaultEntity) (t : T BonusDefaultEntity) : (∀ x, x ∈ rows t → row_id x = row_id e) → rows (save_row e t) = [e].
Proof.
  intros H. apply Permutation_singleton_r. rewrite rows_save.
  assert (filter (λ r, row_id r ≠ row_id e) (rows t) = []) as ->; [|done].
  apply elem_of_nil_inv. intros x [Hne Hx]%list_elem_of_filter. by apply Hne, H.
Qed.
Lemma defaults_saved b s : (length (rows (bs_defaults s)) <= 1)%nat →
  match saveDefaults pg_date b s with
  | (Ret _, s') => ∃ e, rows (bs_defaults s') = [e] ∧ pg_base pg_date b = Some (bf_base e)
  | (Throw _, s') => s' = s
  end.
Proof.
  intros Hl. destruct (defaults_read b) as (fs & Hp & Hp' & Hn & Hm). unfold saveDefaults, createDefaults, updateDefaults, parsed.
  rewrite Hp. rewrite bind_eq. cbn [mret M_ret]. rewrite bind_eq. cbn [gets]. rewrite bind_eq.
  destruct (rows (bs_defaults s)) as [|e [|]] eqn:Er; [| |cbn in Hl; lia].
  - cbn [length Nat.ltb Nat.leb throw_if mret M_ret]. rewrite Hn, bind_eq. cbn [gets]. rewrite (save_defaults_eq _ _ _ (VObj fs)) by done. cbn [bf_base bf_id].
    destruct (pg_base _ b) as [b'|] eqn:Eb; [|by rewrite bool_decide_false]. exists {| bf_id := bs_nextDefault s; bf_base := b' |}. split; [|reflexivity]. cbn. apply one_row_saved.
    rewrite Er. by intros x ?%elem_of_nil.
  - cbn [length Nat.ltb Nat.leb throw_if throw]. rewrite bool_decide_true by done. rewrite bind_eq. cbn [mret M_ret]. rewrite bind_eq. cbn [gets].
    unfold first_defaults. rewrite Er. cbn [js_sort foldr sort_insert head]. rewrite bind_eq. cbn [gets]. rewrite Hm.
    rewrite (save_defaults_eq _ _ _ (VObj fs)) by done. cbn [bf_base bf_id].
    destruct (pg_base _ b) as [b'|] eqn:Eb; [|done]. exists {| bf_id := bf_id e; bf_base := b' |}. split; [|reflexivity]. cbn. apply one_row_saved.
    rewrite Er. by intros x ->%list_elem_of_singleton.
Qed.
End ServerFacts.

(** ** Concrete pages *)

Definition welcome : BonusBase := {| bb_name := "Welcome"; bb_type := "deposit"; bb_description := "d"; bb_bonusPercent := Some 50;
  bb_maxBonusUsd := None; bb_expiryDate := None; bb_eligibility := "all"; bb_status := "active" |}.
Definition two_bonuses : BonusStore (T := list) := {|
  bs_bonuses := [Build_BonusEntity 1 welcome 0 0; Build_BonusEntity 2 welcome 0 0]; bs_nextBonus := 3; bs_defaults := []; bs_nextDefault := 1;
  bs_options := [] |}.
Definition two_page (es : list (ChangeEvent (V := BonusChange))) := bonus_page (ZO := zod0) (Q := QueryView) Some es two_bonuses.
Definition of_page (f : BonusEntity → string) (es : list (ChangeEvent (V := BonusChange))) : option (list string) := (λ l : list BonusEntity, f <$> l) <$> pc_data (two_page es).
Definition loaded : list (ChangeEvent (V := BonusChange)) := [ServerReads; FetchArrives].
Definition two_changes : list (ChangeEvent (V := BonusChange)) :=
  loaded ++ [Changed (ShowStatus 1 "paused"); Changed (ShowDeleted 2); ServerActs 1; ServerActs 0; Ended 0 true; ServerReads; Ended 0 false; FetchFails].

(** The answer to the first of two changes is lost and the fetch fails: the page does not count as fresh, and the next fetch
    shows both changes. *)
Lemma bonus_page_settles :
  let p := two_page two_changes in
  pc_stale p = true ∧ (λ r, (bo_id r, bb_status (bo_base r))) <$> shown_bonuses (pc_server p) = [(1, "paused")]
  ∧ pc_data (run_cache shown_bonuses (make_change (ZO := zod0) Some) bonus_hooks [FetchStarts; ServerReads; FetchArrives] p)
    = Some (shown_bonuses (pc_server p)).
Proof.
  cbv zeta. split; [reflexivity|]. split; [reflexivity|].
  refine (settled_page_shows_server _ _ _ _ _ _); [|reflexivity].
  apply (run_inv _ _ _ two_changes); [vm_compute; repeat split; by eexists|by apply cache_opened_inv].
Qed.

Definition percent_text (r : BonusEntity) : string := match bb_bonusPercent (bo_base r) with Some n => str_of_Z n | None => "" end.
Definition cleared : BonusBase := {| bb_name := "Welcome"; bb_type := "deposit"; bb_description := "d"; bb_bonusPercent := None;
  bb_maxBonusUsd := None; bb_expiryDate := None; bb_eligibility := "all"; bb_status := "active" |}.
(** A percentage that is cleared disappears, is said to be saved, and comes back. *)
Example cleared_percent_comes_back :
  let es := loaded ++ [Changed (ShowUpdated 1 cleared)] in
  let es' := es ++ [ServerActs 0; Ended 0 false; ServerReads; FetchArrives] in
  of_page percent_text es = Some ["50"; ""] ∧ pc_toasts (two_page es') = [true] ∧ of_page percent_text es' = Some ["50"; "50"].
Proof. split_and!; vm_compute; reflexivity. Qed.
(** A change that fails takes with it what was shown of a later one that is still in flight. *)
Example failure_hides_later_change :
  let es := loaded ++ [Changed (ShowStatus 1 "paused"); Changed (ShowStatus 2 "paused")] in
  let status r := bb_status (bo_base r) in
  of_page status es = Some ["paused"; "paused"] ∧ of_page status (es ++ [Ended 0 true]) = Some ["active"; "active"].
Proof. split; vm_compute; reflexivity. Qed.
(** A promotion that is created while the first list is on its way is not in it, and the list counts as fresh. *)
Example early_promotion_missed :
  let p := two_page [Changed (ShowCreated welcome 0); FetchStarts; ServerReads; ServerActs 0; Ended 0 false; FetchArrives] in
  (λ l : list BonusEntity, bo_id <$> l) <$> pc_data p = Some [2; 1] ∧ bo_id <$> shown_bonuses (pc_server p) = [3; 2; 1] ∧ pc_stale p = false ∧ pc_toasts p = [true].
Proof. split_and!; vm_compute; reflexivity. Qed.
(** The filter of active bonuses shows expired ones, and a bonus says so. *)
Example active_filter_shows_expired :
  let r := Build_BonusEntity 1 {| bb_name := "Old"; bb_type := "deposit"; bb_description := "d"; bb_bonusPercent := None; bb_maxBonusUsd := None;
    bb_expiryDate := Some "2020-01-01"; bb_eligibility := "all"; bb_status := "active" |} 0 0 in
  let end_of_day := λ _, Some 0 in
  filteredByStatus end_of_day 1 "active" [r] = [r] ∧ status_label end_of_day 1 r = "EXPIRED" ∧ activeBonuses end_of_day 1 None [r] = 0
  ∧ status_actions end_of_day 1 r = [RowEdit].
Proof. split_and!; vm_compute; reflexivity. Qed.
