(* ===== verification/SettingsPage.v ===== *)
(** * The page of settings

    frontend/src/components/dashboard/settings.tsx with useTransactionColumns.ts and useUpdateTransactionColumns.ts: the editor
    of the columns of the transaction table, over the changes of [PageCache] and the log of [Transactions], and
    the reading of denominations and thresholds. The draft is taken over from the list whenever the list changes or a
    failed fetch is made good; an equal list is kept by the cache. [Number] of a text is a parameter. Markup is left
    out. *)

From S2P Require Import Prelude Store JsText JsNum Schemas Transactions SiteTables PageCache.
#[local] Open Scope string_scope.
#[local] Open Scope list_scope.
#[local] Open Scope Z_scope.

#[export] Instance TransactionColumn_eq_dec : EqDecision TransactionColumn.
Proof. solve_decision. Defined.

(** ** The columns *)

Section Columns.
Context {ZO : ZodOps} {T : Type → Type} `{!TableOps T} {Q : Type → Type} `{!QueryOps Q}.
Abbreviation columns := (list TransactionColumn).
Abbreviation ColumnsCache := (CachedPage (Q := Q) (S := TransactionsStore (T := T)) (C := columns) (V := columns)).

(** The request, and the hook: the list of the request is shown, and the answer is kept. *)
Definition save_columns (cs : columns) (s : TransactionsStore (T := T)) : bool * TransactionsStore (T := T) :=
  match updateTransactionColumns (VArr (column_value <$> cs)) s with (Ret _, s') => (true, s') | (Throw _, s') => (false, s') end.
Definition useUpdateTransactionColumns : MutationHooks (C := columns) (V := columns) := {| hk_update := Some (λ cs _, cs); hk_keep_answer := true |}.

Record SettingsPage := { sp_draft : columns; sp_validation : option string; sp_failed : bool; sp_cache : ColumnsCache }.
Definition transactionColumns (p : SettingsPage) : columns := default [] (pc_data (sp_cache p)).
Definition isSavingColumns (p : SettingsPage) : bool := match pc_flight (sp_cache p) with [] => false | _ => true end.
Definition columnsDirty (p : SettingsPage) : bool := negb (bool_decide (sp_draft p = transactionColumns p)).
Definition canSaveColumns (p : SettingsPage) : bool := negb (bool_decide (sp_draft p = [])) && columnsDirty p.
Definition with_draft (d : columns) (p : SettingsPage) : SettingsPage := Build_SettingsPage d None (sp_failed p) (sp_cache p).

Definition handleColumnIdChange (index : nat) (id : string) (p : SettingsPage) : SettingsPage :=
  with_draft (alter (λ c, {| tc_id := id; tc_label := tc_label c |}) index (sp_draft p)) p.
Definition handleColumnLabelChange (index : nat) (label : string) (p : SettingsPage) : SettingsPage :=
  with_draft (alter (λ c, {| tc_id := tc_id c; tc_label := label |}) index (sp_draft p)) p.
(** [next[index]] and [next[targetIndex]] change places. *)
Definition swap (i j : nat) (l : columns) : columns :=
  match l !! i, l !! j with Some x, Some y => <[j := x]> (<[i := y]> l) | _, _ => l end.
Definition moveColumn (index : nat) (direction : Z) (p : SettingsPage) : SettingsPage :=
  let target := Z.of_nat index + direction in
  with_draft (if (target <? 0) || (Z.of_nat (length (sp_draft p)) <=? target) then sp_draft p else swap index (Z.to_nat target) (sp_draft p)) p.
Definition removeColumn (index : nat) (p : SettingsPage) : SettingsPage := with_draft (delete index (sp_draft p)) p.
(** The first number whose name is free. *)
Definition candidate (counter : nat) : string := "column_" +:+ str_of_Z (Z.of_nat counter).
Fixpoint free_name (fuel counter : nat) (existingIds : list string) : string :=
  match fuel with
  | O => candidate counter
  | S fuel' => if bool_decide (candidate counter ∈ existingIds) then free_name fuel' (S counter) existingIds else candidate counter
  end.
Definition addColumn (p : SettingsPage) : SettingsPage :=
  let prev := sp_draft p in
  with_draft (prev ++ [{| tc_id := free_name (length prev) (S (length prev)) (tc_id <$> prev); tc_label := "" |}]) p.
Definition resetColumns (p : SettingsPage) : SettingsPage := with_draft (transactionColumns p) p.

Definition normalized (l : columns) : columns := (λ c, {| tc_id := js_trim (tc_id c); tc_label := js_trim (tc_label c) |}) <$> l.
Definition columns_problem (l : columns) : option string :=
  if bool_decide (l = []) then Some "Add at least one column before saving."
  else if existsb (λ c, bool_decide (tc_id c = "") || bool_decide (tc_label c = "")) l then Some "Column ID and label are required for every column."
  else if bool_decide (NoDup (tc_id <$> l)) then None else Some "Column IDs must be unique.".
Definition handleColumnsSubmit (p : SettingsPage) : SettingsPage :=
  let n := normalized (sp_draft p) in
  match columns_problem n with
  | Some message => Build_SettingsPage (sp_draft p) (Some message) (sp_failed p) (sp_cache p)
  | None => Build_SettingsPage n None (sp_failed p) (onMutate useUpdateTransactionColumns n (sp_cache p))
  end.

(** The effect that takes over the list; [failed] is whether the last fetch failed. *)
Definition take_over (before : SettingsPage) (p : SettingsPage) : SettingsPage :=
  match pc_data (sp_cache p) with
  | Some l =>
      if negb (sp_failed p) && (sp_failed before || negb (bool_decide (pc_data (sp_cache before) = Some l)))
      then Build_SettingsPage l (sp_validation p) (sp_failed p) (sp_cache p) else p
  | None => p
  end.
Definition cache_event (e : ChangeEvent (V := columns)) (p : SettingsPage) : SettingsPage :=
  let failed := match e, pc_fetch (sp_cache p) with
                | FetchFails, (Asked | Answered _) => true
                | FetchArrives, Answered _ | Ended _ _, _ => false
                | _, _ => sp_failed p
                end in
  Build_SettingsPage (sp_draft p) (sp_validation p) failed (change_step stored_columns save_columns useUpdateTransactionColumns e (sp_cache p)).

Inductive ColumnsEvent :=
| TypeId (index : nat) (id : string) | TypeLabel (index : nat) (label : string) | Move (index : nat) (direction : Z) | Remove (index : nat)
| Add | Reset | Submit | Cached (e : ChangeEvent (V := columns)).
(** The form is there when there is a list and no error, and its buttons are disabled while a list is saved. *)
Definition form_shown (p : SettingsPage) : bool := match pc_data (sp_cache p) with Some _ => negb (sp_failed p) | None => false end.
Definition allowed (e : ColumnsEvent) (p : SettingsPage) : bool :=
  match e with
  | TypeId _ _ | TypeLabel _ _ => form_shown p
  | Move _ _ | Remove _ | Add => form_shown p && negb (isSavingColumns p)
  | Reset => form_shown p && columnsDirty p && negb (isSavingColumns p)
  | Submit => form_shown p && canSaveColumns p && negb (isSavingColumns p)
  | Cached (Changed _) => false
  | Cached _ => true
  end.
Definition columns_step (e : ColumnsEvent) (p : SettingsPage) : SettingsPage :=
  if allowed e p then
    take_over p match e with
      | TypeId i id => handleColumnIdChange i id p | TypeLabel i l => handleColumnLabelChange i l p
      | Move i d => moveColumn i d p | Remove i => removeColumn i p | Add => addColumn p | Reset => resetColumns p
      | Submit => handleColumnsSubmit p | Cached e => cache_event e p
      end
  else p.
Definition settings_opened (s : TransactionsStore (T := T)) : SettingsPage := Build_SettingsPage [] None false (cache_opened s).
Definition on_settings (es : list ColumnsEvent) (s : TransactionsStore (T := T)) : SettingsPage := foldl (λ p e, columns_step e p) (settings_opened s) es.
End Columns.

(** ** Denominations and thresholds *)

Section Numbers.
(** [Number] of a text: a whole number, for denominations; a double, for thresholds. *)
Context (to_integer : string → option Z) (to_double : string → double).
Definition is_separator (c : ascii) : bool := is_blank c || Ascii.eqb c ",".
(** The non-empty parts between separators. *)
Fixpoint words (part : list ascii) (l : list ascii) : list string :=
  let flush := match part with [] => [] | _ => [str_rev_append part] end in
  match l with
  | [] => flush
  | c :: l' => if is_separator c then flush ++ words [] l' else words (c :: part) l'
  end.
Definition INVALID_MESSAGE : string := "Denominations must be positive integers sorted from largest to smallest.".
Fixpoint not_rising (l : list Z) : bool := match l with x :: (y :: _) as l' => (y <=? x) && not_rising l' | _ => true end.
Definition positive_number (s : string) : option Z := n ← to_integer s; if 0 <? n then Some n else None.
Definition parseDenominations (input : string) : string + list Z :=
  match words [] (String.list_ascii_of_string input) with
  | [] => inl "Enter at least one denomination."
  | parts =>
      match mapM positive_number parts with
      | None => inl INVALID_MESSAGE
      | Some denoms => if not_rising denoms then inr denoms else inl INVALID_MESSAGE
      end
  end.
(** What the form shows of stored ones. *)
Definition shown_denoms (l : list Z) : string := String.concat ", " (str_of_Z <$> l).

Record ThresholdField := { tf_metric : string; tf_name : string; tf_min : option double; tf_max : option double }.
Definition THRESHOLD_FIELDS : list ThresholdField := [
  {| tf_metric := "INP"; tf_name := "Interaction to Next Paint (INP)"; tf_min := Some (dbl_of_Z 0); tf_max := None |};
  {| tf_metric := "LCP"; tf_name := "Largest Contentful Paint (LCP)"; tf_min := Some (dbl_of_Z 0); tf_max := None |};
  {| tf_metric := "CLS"; tf_name := "Cumulative Layout Shift (CLS)"; tf_min := Some (dbl_of_Z 0); tf_max := Some (dbl_of_Z 1) |}].
Definition read_threshold (field : ThresholdField) (raw : string) : string + double :=
  let trimmed := js_trim raw in
  if bool_decide (trimmed = "") then inl ("Enter a value for " +:+ tf_name field +:+ ".")
  else
    let value := to_double trimmed in
    let below := match tf_min field with Some m => dbl_ltb value m | None => false end in
    let above := match tf_max field with Some m => dbl_ltb m value | None => false end in
    if negb (is_finite value) then inl (tf_name field +:+ " must be a valid number.")
    else if below then inl (tf_name field +:+ " must be at least 0.")
    else if above then inl (tf_name field +:+ " must be at most 1.")
    else inr value.
(** [onThresholdSubmit]: what is sent, or the messages by field. *)
Definition read_thresholds (values : list string) : list (string * string) + list (string * double) :=
  let results := zip_with (λ f raw, (tf_metric f, read_threshold f raw)) THRESHOLD_FIELDS values in
  match omap (λ r : string * (string + double), match r.2 with inl m => Some (r.1, m) | inr _ => None end) results with
  | [] => inr (omap (λ r : string * (string + double), match r.2 with inr d => Some (r.1, d) | inl _ => None end) results)
  | messages => inl messages
  end.
End Numbers.

(** ** Facts *)

Lemma candidate_inj i j : candidate i = candidate j → i = j.
Proof. unfold candidate. intros [= H%str_of_Z_inj]. lia. Qed.
Lemma free_name_taken ids fuel c : free_name fuel c ids ∈ ids → ∀ i, (i <= fuel)%nat → candidate (c + i) ∈ ids.
Proof.
  revert c. induction fuel as [|fuel IH]; intros c; cbn [free_name].
  - intros H i Hi. by replace (c + i)%nat with c by lia.
  - case_bool_decide as Hc; [|done]. intros H [|i] Hi; [by rewrite Nat.add_0_r|].
    replace (c + S i)%nat with (S c + i)%nat by lia. apply IH; [done|lia].
Qed.
(** The search for a free name ends within as many rounds as there are columns, at a name that is free. *)
Lemma free_name_free ids : free_name (length ids) (S (length ids)) ids ∉ ids.
Proof.
  intros H. pose proof (free_name_taken _ _ _ H) as Ht.
  assert (candidate <$> seq (S (length ids)) (S (length ids)) ⊆+ ids) as Hsub%submseteq_length.
  { apply NoDup_submseteq.
    - assert (Inj eq eq candidate) by (intros ? ?; apply candidate_inj). apply NoDup_fmap_2; [done|apply NoDup_seq].
    - intros x (i & -> & Hi%elem_of_seq)%list_elem_of_fmap. replace i with (S (length ids) + (i - S (length ids)))%nat by lia. apply Ht. lia. }
  rewrite length_fmap, length_seq in Hsub. lia.
Qed.
(** Moving a column keeps the columns. *)
Lemma swap_perm i j l : swap i j l ≡ₚ l.
Proof. unfold swap. destruct (l !! i) as [x|] eqn:Ei; [|done]. destruct (l !! j) as [y|] eqn:Ej; [|done]. by apply Permutation_insert_swap. Qed.

Section ColumnsFacts.
Context {ZO : ZodOps} {ZL : ZodLaws} {T : Type → Type} `{!TableOps T, !TableLaws T} {Q : Type → Type} `{!QueryOps Q, !QueryLaws Q}.
Abbreviation columns := (list TransactionColumn).
Implicit Types (p : SettingsPage (T := T) (Q := Q)).

Lemma add_keeps_names_apart p : NoDup (tc_id <$> sp_draft p) → NoDup (tc_id <$> sp_draft (addColumn p)).
Proof.
  intros Hn. cbn. rewrite fmap_app. apply NoDup_app. split_and!; [done| |apply NoDup_singleton].
  intros x Hx ->%list_elem_of_singleton. revert Hx. pose proof (free_name_free (tc_id <$> sp_draft p)) as H. by rewrite length_fmap in H.
Qed.
Lemma move_keeps_columns i d p : sp_draft (moveColumn i d p) ≡ₚ sp_draft p.
Proof. cbn. destruct (_ || _); [done|]. apply swap_perm. Qed.

(** A list without problem is taken by the server as it is. *)
Lemma sound_columns_saved (cs : columns) (s : TransactionsStore (T := T)) : columns_problem cs = None →
  (save_columns cs s).1 = true ∧ stored_columns (save_columns cs s).2 = cs.
Proof.
  unfold columns_problem. case_bool_decide as Hne; [done|]. destruct (existsb _ _); [done|]. case_bool_decide as Hn; [|done]. intros _.
  pose proof (distinct_columns_stored s cs Hn) as Ha. pose proof (columns_replaced_or_kept s (VArr (column_value <$> cs))) as H.
  unfold save_columns. destruct (updateTransactionColumns _ s) as [[a|e] s']; [|done]. cbn in Ha. injection Ha as ->. split; [done|].
  destruct H as (cs' & t & _ & _ & Hst & Ha & _). cbn. rewrite Hst. injection Ha as Ha.
  revert Ha. clear. revert cs'. induction cs as [|[i l] cs IH]; intros [|[i' l'] cs']; try done. cbn. intros [= -> -> H]. f_equal. by apply IH.
Qed.

Definition sound_change (ch : Change (C := columns) (V := columns)) : Prop :=
  columns_problem (ch_variables ch) = None ∧ ∃ d, ch_variables ch = normalized d.
Record settings_inv p : Prop := {
  si_sound : Forall sound_change (pc_flight (sp_cache p)); si_cache : cache_inv stored_columns (sp_cache p) }.
Abbreviation hooks := useUpdateTransactionColumns.
Lemma flight_sound e (p : CachedPage (Q := Q)) : match e with Changed cs => columns_problem cs = None ∧ ∃ d, cs = normalized d | _ => True end →
  Forall sound_change (pc_flight p) → Forall sound_change (pc_flight (change_step (Q := Q) (S := TransactionsStore (T := T)) stored_columns save_columns hooks e p)).
Proof.
  intros He Hp. destruct e as [cs|n|n lost| | | |]; cbn [change_step].
  - unfold onMutate. cbn. destruct (pc_data _); cbn; apply Forall_app; (split; [done|]); repeat constructor; apply He.
  - unfold server_acts. destruct (pc_flight p !! n) as [[v previous [a|]]|] eqn:E; try done. destruct (save_columns v _) as [ok s']. cbn.
    apply Forall_insert; [done|]. by apply (Forall_lookup_1 _ _ _ _ Hp E).
  - unfold ended. destruct (pc_flight p !! n) as [ch|] eqn:E; [|done].
    assert (Forall sound_change (delete n (pc_flight p))) as Hd by (apply Forall_delete; exact Hp).
    destruct (ch_answer ch) as [[a|]|], lost, (ch_previous ch); exact Hd.
  - done.
  - done.
  - done.
  - done.
Qed.
Lemma take_over_cache before p : sp_cache (take_over before p) = sp_cache p.
Proof. unfold take_over. destruct (pc_data _); [|done]. by destruct (_ && _). Qed.
Lemma settings_step_inv e p : settings_inv p → settings_inv (columns_step e p).
Proof.
  intros [Hs Hc]. unfold columns_step. destruct (allowed e p) eqn:Ha; [|done].
  split; rewrite take_over_cache; destruct e as [i id|i l|i d|i| | | |e]; try done; cbn in Ha.
  - unfold handleColumnsSubmit. destruct (columns_problem _) eqn:E; [done|]. apply (flight_sound (Changed _)); [|done]. by eauto.
  - apply flight_sound; [by destruct e|done].
  - unfold handleColumnsSubmit. destruct (columns_problem _) eqn:E; [done|]. cbn.
    apply (step_inv stored_columns save_columns hooks (Changed _)); [|done]. cbn. unfold form_shown in Ha. by destruct (pc_data _).
  - apply (step_inv stored_columns save_columns hooks e); [by destruct e|exact Hc].
Qed.

(** C29: What the page of settings saves is what it showed. Whatever is typed, moved, added and removed, however late answers
    come and whatever lists are fetched meanwhile: every list on its way has columns with texts and keys of their own,
    the server takes it whatever it holds and serves it back in its order; and when nothing is on its way, a list
    that counts as fresh is the server's. *)
Theorem saved_columns_are_served es s (p := on_settings (T := T) (Q := Q) es s) :
  (∀ ch store, ch ∈ pc_flight (sp_cache p) → columns_problem (ch_variables ch) = None ∧ (save_columns (ch_variables ch) store).1 = true
               ∧ stored_columns (save_columns (ch_variables ch) store).2 = ch_variables ch)
  ∧ (pc_flight (sp_cache p) = [] → pc_stale (sp_cache p) = false →
     pc_data (sp_cache p) = None ∨ pc_data (sp_cache p) = Some (stored_columns (pc_server (sp_cache p)))).
Proof.
  assert (settings_inv p) as [Hs Hc].
  { unfold p, on_settings. apply (foldl_invariant settings_inv); [intros; by apply settings_step_inv|]. split; [constructor|by apply cache_opened_inv]. }
  split; [|apply Hc]. intros ch store Hch. rewrite Forall_forall in Hs. destruct (Hs ch Hch) as [H _].
  split; [done|]. by apply sound_columns_saved.
Qed.
End ColumnsFacts.

(** *** Denominations *)

Lemma words_part w part rest : Forall (λ c, is_separator c = false) w → words part (w ++ rest) = words (rev w ++ part) rest.
Proof.
  intros H. revert part. induction H as [|c w Hc _ IH]; intros part; [done|]. cbn [app words]. rewrite Hc, IH. cbn [rev]. by rewrite <-app_assoc.
Qed.
Lemma digits_plain acc l z : parse_digits acc l = Some z → Forall (λ c, is_separator c = false) l.
Proof.
  revert acc. induction l as [|c l IH]; intros acc; [by constructor|]. cbn [parse_digits]. destruct (digit_val c) as [d|] eqn:E; [|done].
  intros H. constructor; [|by eapply IH]. revert E. by destruct c as [[] [] [] [] [] [] [] []].
Qed.
Lemma shown_number_plain n : 0 < n → Forall (λ c, is_separator c = false) (String.list_ascii_of_string (str_of_Z n)) ∧ str_of_Z n ≠ "".
Proof.
  intros Hn. pose proof (js_number_str n ltac:(lia)) as H. split; [by eapply digits_plain|]. intros E. rewrite E in H. injection H as H. lia.
Qed.
Lemma words_of_shown l : Forall (λ n, 0 < n) l → words [] (String.list_ascii_of_string (shown_denoms l)) = str_of_Z <$> l.
Proof.
  intros H. induction H as [|n l Hn Hl IH]; [done|]. destruct (shown_number_plain n Hn) as [Hp Hne].
  assert (∀ part, part ≠ [] → words part [] = [str_rev_append part]) as Hend by by intros [].
  assert (rev (String.list_ascii_of_string (str_of_Z n)) ≠ []) as Hr.
  { intros E. apply Hne. pose proof (str_rev_append_rev (str_of_Z n)) as H. rewrite E in H. by rewrite <-H. }
  pose proof (str_rev_append_rev (str_of_Z n)) as Hs.
  unfold shown_denoms in *. destruct l as [|m l].
  - cbn [fmap list_fmap String.concat]. rewrite <-(app_nil_r (String.list_ascii_of_string _)), words_part, app_nil_r by done. by rewrite Hend, Hs.
  - change (String.concat ", " (str_of_Z <$> n :: m :: l)) with (str_of_Z n +:+ ", " +:+ String.concat ", " (str_of_Z <$> m :: l)).
    rewrite !list_ascii_of_app, words_part, app_nil_r by done. rewrite (fmap_cons str_of_Z n (m :: l)).
    destruct (rev _) as [|c w] eqn:Er; [done|]. cbn [String.list_ascii_of_string app words is_separator]. 
    change (is_separator ",") with true. change (is_separator " ") with true. cbv iota. cbn [app]. by rewrite Hs, IH.
Qed.
(** What the form shows of stored denominations is read as them. *)
Lemma shown_denominations_read (to_integer : string → option Z) l : (∀ n, 0 < n → to_integer (str_of_Z n) = Some n) →
  l ≠ [] → Forall (λ n, 0 < n) l → not_rising l = true → parseDenominations to_integer (shown_denoms l) = inr l.
Proof.
  intros Hto Hne Hl Hs. unfold parseDenominations. rewrite words_of_shown by done. destruct l as [|n l]; [done|].
  change (str_of_Z <$> n :: l) with (str_of_Z n :: (str_of_Z <$> l)) at 1. cbv iota.
  assert (mapM (positive_number to_integer) (str_of_Z <$> n :: l) = Some (n :: l)) as Hm.
  { clear Hne Hs. induction Hl as [|x xs Hx _ IH]; [done|]. rewrite fmap_cons.
    assert (positive_number to_integer (str_of_Z x) = Some x) as Hp.
    { unfold positive_number. rewrite Hto by done. cbn. by rewrite (proj2 (Z.ltb_lt 0 x)). }
    cbn [mapM]. rewrite Hp. cbn [mbind option_bind]. by rewrite IH. }
  change (str_of_Z n :: (str_of_Z <$> l)) with (str_of_Z <$> n :: l). by rewrite Hm, Hs.
Qed.
(** What is sent is a list of positive numbers that does not rise. *)
Lemma read_denominations_sound (to_integer : string → option Z) input l : parseDenominations to_integer input = inr l →
  l ≠ [] ∧ Forall (λ n, 0 < n) l ∧ not_rising l = true.
Proof.
  unfold parseDenominations. destruct (words _ _) as [|w ws] eqn:Ew; [done|]. destruct (mapM _ _) as [denoms|] eqn:Em; [|done].
  destruct (not_rising denoms) eqn:Es; [|done]. intros [= <-]. split_and!; [|..|done].
  - apply mapM_Some_1 in Em. by inversion Em.
  - apply mapM_Some_1 in Em. eapply Forall2_Forall_r; [exact Em|]. apply Forall_forall. intros s _ n. unfold positive_number.
    destruct (to_integer s) as [m|]; [|done]. cbn. destruct (Z.ltb_spec 0 m); [|done]. by intros [= <-].
Qed.

(** ** Concrete pages *)

Definition date_column : TransactionColumn := {| tc_id := "date"; tc_label := "Date" |}.
Definition amount_column : TransactionColumn := {| tc_id := "amount"; tc_label := "Amount" |}.
Definition two_columns : TransactionsStore (T := list) := {|
  ts_types := []; ts_rows := []; ts_statuses := []; ts_tabs := []; ts_columns := column_rows [date_column; amount_column]; ts_words := []; ts_cache := ∅ |}.
Definition settings_run (es : list ColumnsEvent) : SettingsPage (T := list) (Q := QueryView) := on_settings (ZO := zod0) es two_columns.
Definition list_loaded : list ColumnsEvent := [Cached ServerReads; Cached FetchArrives].
Definition when_typed : list ColumnsEvent := list_loaded ++ [TypeLabel 0 " When "; Move 0 1].

Lemma saved_columns_are_served_witness :
  let cs := [amount_column; {| tc_id := "date"; tc_label := "When" |}] in
  ch_variables <$> pc_flight (sp_cache (settings_run (when_typed ++ [Submit]))) = [cs]
  ∧ (save_columns (ZO := zod0) cs two_columns).1 = true ∧ stored_columns (save_columns (ZO := zod0) cs two_columns).2 = cs.
Proof.
  cbv zeta. split; [vm_compute; reflexivity|].
  destruct (saved_columns_are_served (ZO := zod0) (ZL := zod0_laws) (Q := QueryView) (when_typed ++ [Submit]) two_columns) as [H _].
  apply (H (Build_Change [amount_column; {| tc_id := "date"; tc_label := "When" |}] (Some [date_column; amount_column]) None) two_columns).
  vm_compute. apply list_elem_of_here.
Defined.

(** A name that is taken is passed over. *)
Example next_free_name : free_name 2 3 ["date"; "column_3"] = "column_4". Proof. reflexivity. Qed.
(** A save that fails takes what was typed with it. *)
Example failed_save_drops_draft :
  sp_draft (settings_run (when_typed ++ [Submit; Cached (ServerActs 0); Cached (Ended 0 true)])) = [date_column; amount_column].
Proof. vm_compute. reflexivity. Qed.
(** So does a fetch in the background that fails, once the next one succeeds. *)
Example failed_fetch_drops_draft :
  sp_draft (settings_run (when_typed ++ [Cached FetchStarts; Cached FetchFails; Cached FetchStarts; Cached ServerReads; Cached FetchArrives]))
  = [date_column; amount_column].
Proof. vm_compute. reflexivity. Qed.
(** What is typed while a list is saved stays when the answer comes. *)
Example typing_while_saving :
  sp_draft (settings_run (when_typed ++ [Submit; TypeLabel 0 "Sum"; Cached (ServerActs 0); Cached (Ended 0 false); Cached ServerReads; Cached FetchArrives]))
  = [{| tc_id := "amount"; tc_label := "Sum" |}; {| tc_id := "date"; tc_label := "When" |}].
Proof. vm_compute. reflexivity. Qed.
Example denominations_read : parseDenominations js_number " 1000, 500 100,,25" = inr [1000; 500; 100; 25] ∧ parseDenominations js_number "25 100" = inl INVALID_MESSAGE
  ∧ parseDenominations js_number "100 100" = inr [100; 100].
Proof. split_and!; reflexivity. Qed.
