(* ===== verification/AccountForms.v ===== *)
(** * The forms of an account

    frontend/src/components/auth/forgot-password-form.tsx and login-form.tsx, hooks/useLogout.ts and stores/auth-store.ts, over
    the routes of [AuthRoutes]. A form is a package with a resolver from another one: what its handler is given are the
    values that the resolver read ([FormLaws]), and a schema of an object drops the keys it does not name. Markup and the
    avatar of the store are left out. *)

From S2P Require Import Prelude Store JsText Schemas AuditLog Auth AuthSafety UserRoutes AuthRoutes ApiClient.
#[local] Open Scope string_scope.
#[local] Open Scope list_scope.
#[local] Open Scope Z_scope.

(** ** Forms *)

Abbreviation values := (list (string * jsval)).
(** What a handler is given, of the values in the form and those the resolver read. *)
Class FormOps := { handed_on : values → values → values }.
Class FormLaws `{!FormOps} := { handed_on_read raw read : handed_on raw read = read }.
#[export] Instance form_ops0 : FormOps := { handed_on _ read := read }.
#[export] Instance form_laws0 : FormLaws.
Proof. by split. Qed.

Abbreviation problems := (list (string * string)).

(** [parseApiError]: the message and the errors by field. *)
Definition parseApiError (e : ClientError) : string * jsval :=
  match e with
  | Thrown m => (m, VUndefined)
  | ApiError m (Some errors) _ _ => (m, errors)
  | ApiError m None _ details =>
      match details with
      | Some t =>
          match json_parse t with
          | Ret (VObj fs) =>
              (match field "message" fs with VStr m' => if bool_decide (m = "") then m' else m | _ => m end,
               if is_object (field "errors" fs) then field "errors" fs else VUndefined)
          | _ => (m, VUndefined)
          end
      | None => (m, VUndefined)
      end
  end.
Definition error_of (k : string) (errors : jsval) : option string :=
  match errors with VObj fs => match field k fs with VStr s => Some s | _ => None end | _ => None end.
Definition or_text (a b : string) : string := if bool_decide (a = "") then b else a.
Definition field_message (k fallback : string) (e : ClientError) : string :=
  let '(message, errors) := parseApiError e in or_text (default "" (error_of k errors)) (or_text message fallback).

(** ** Resetting a password *)

Section Reset.
Context {ZO : ZodOps} `{!FormOps}.

Inductive ResetStep := EnterEmail | EnterCode | EnterPassword.
Inductive ResetCall :=
| CallRequest (email : jsval) (previous : string)
| CallVerify (email code : jsval) (previous : string)
| CallReset (email code newPassword : jsval) (previous : string).
Record ResetForm := {
  rf_step : ResetStep; rf_email : string; rf_code : string; rf_newPassword : string; rf_confirm : string;
  rf_status : string; rf_errors : problems; rf_calls : list ResetCall }.
Definition reset_opened : ResetForm := Build_ResetForm EnterEmail "" "" "" "" "" [] [].

Definition six_digits (s : string) : bool :=
  (String.length s =? 6)%nat && forallb (λ c, match digit_val c with Some _ => true | None => false end) (String.list_ascii_of_string s).
(** The schemas of the steps: problems, or what was read. *)
Definition step1Schema (email : string) : problems + values :=
  let e := js_trim email in
  if bool_decide (e = "") then inl [("email", "Email is required")]
  else if z_email e then inr [("email", VStr e)] else inl [("email", "Invalid email address")].
Definition step2Schema (code : string) : problems + values :=
  let c := js_trim code in
  if bool_decide (c = "") then inl [("code", "Code is required")]
  else if six_digits c then inr [("code", VStr c)] else inl [("code", "Code must be 6 digits")].
Definition step3Schema (newPassword confirmPassword : string) : problems + values :=
  let first := if bool_decide (newPassword = "") then [("newPassword", "Password is required")]
               else if (String.length newPassword <? 6)%nat then [("newPassword", "Password must be at least 6 characters")] else [] in
  let second := if bool_decide (confirmPassword = "") then [("confirmPassword", "Please confirm password")] else [] in
  match first ++ second with
  | [] => if bool_decide (newPassword = confirmPassword) then inr [("newPassword", VStr newPassword); ("confirmPassword", VStr confirmPassword)]
          else inl [("confirmPassword", "Passwords do not match")]
  | found => inl found
  end.
Definition resolver (f : ResetForm) : problems + values :=
  match rf_step f with
  | EnterEmail => step1Schema (rf_email f)
  | EnterCode => step2Schema (rf_code f)
  | EnterPassword => step3Schema (rf_newPassword f) (rf_confirm f)
  end.
(** Every value of the form. *)
Definition raw_values (f : ResetForm) : values := [
  ("step", VNum (match rf_step f with EnterEmail => 1 | EnterCode => 2 | EnterPassword => 3 end)); ("email", VStr (rf_email f));
  ("code", VStr (rf_code f)); ("newPassword", VStr (rf_newPassword f)); ("confirmPassword", VStr (rf_confirm f)); ("formStatus", VStr (rf_status f))].

Definition with_calls (l : list ResetCall) (f : ResetForm) : ResetForm :=
  Build_ResetForm (rf_step f) (rf_email f) (rf_code f) (rf_newPassword f) (rf_confirm f) (rf_status f) (rf_errors f) l.
Definition with_errors (l : problems) (f : ResetForm) : ResetForm :=
  Build_ResetForm (rf_step f) (rf_email f) (rf_code f) (rf_newPassword f) (rf_confirm f) (rf_status f) l (rf_calls f).
Definition setError (k m : string) (f : ResetForm) : ResetForm := with_errors ((k, m) :: filter (λ p, p.1 ≠ k) (rf_errors f)) f.
Definition show_step (step : ResetStep) (status : string) (f : ResetForm) : ResetForm :=
  Build_ResetForm step (rf_email f) (rf_code f) (rf_newPassword f) (rf_confirm f) status (rf_errors f) (rf_calls f).
(** [submitEmail], [submitCode] and [submitReset], each with the [onMutate] of its mutation. *)
Definition submit (f : ResetForm) : ResetForm :=
  match resolver f with
  | inl found => with_errors found f
  | inr read =>
      let data := handed_on (raw_values f) read in
      let f := with_errors [] f in
      let previous := rf_status f in
      match rf_step f with
      | EnterEmail => show_step EnterCode "Verification code sent to your email." (with_calls (rf_calls f ++ [CallRequest (field "email" data) previous]) f)
      | EnterCode => show_step EnterPassword "Code verified successfully."
                       (with_calls (rf_calls f ++ [CallVerify (field "email" data) (field "code" data) previous]) f)
      | EnterPassword => show_step EnterPassword "Password reset successfully."
                           (with_calls (rf_calls f ++ [CallReset (field "email" data) (field "code" data) (field "newPassword" data) previous]) f)
      end
  end.
(** A button is disabled while its own call is on its way. *)
Definition may_submit (f : ResetForm) : bool :=
  negb (existsb (λ c, match rf_step f, c with EnterEmail, CallRequest _ _ | EnterCode, CallVerify _ _ _ | EnterPassword, CallReset _ _ _ _ => true | _, _ => false end)
          (rf_calls f)).
(** What is sent; a field that is undefined is not. *)
Definition call_route (c : ResetCall) : AuthRoute :=
  match c with
  | CallRequest email _ => ARequestReset (VObj (present [("email", email)]))
  | CallVerify email code _ => AVerifyResetCode (VObj (present [("email", email); ("code", code)]))
  | CallReset email code pw _ => AResetPassword (VObj (present [("email", email); ("code", code); ("password", pw)]))
  end.
(** [onError] and [onSuccess]. *)
Definition call_ended (n : nat) (r : ClientError + string) (f : ResetForm) : ResetForm :=
  match rf_calls f !! n with
  | None => f
  | Some c =>
      let f := with_calls (delete n (rf_calls f)) f in
      match c, r with
      | CallRequest _ _, inr message => show_step (rf_step f) (or_text message "Verification code sent to your email.") f
      | CallVerify _ _ _, inr message => show_step (rf_step f) (or_text message "Code verified successfully.") f
      | CallReset _ _ _ _, inr message => show_step (rf_step f) (or_text message "Password reset successfully.") f
      | CallRequest _ previous, inl e => setError "email" (field_message "email" "Failed to send code" e) (show_step EnterEmail previous f)
      | CallVerify _ _ previous, inl e => setError "code" (field_message "code" "Invalid or expired code" e) (show_step EnterCode previous f)
      | CallReset _ _ _ _, inl e =>
          let '(message, errors) := parseApiError e in
          let f := match error_of "password" errors with Some m => setError "newPassword" m f | None => f end in
          show_step (rf_step f) (or_text message "Failed to reset password") f
      end
  end.

Inductive ResetField := RfEmail | RfCode | RfNewPassword | RfConfirm.
Definition type_reset (k : ResetField) (v : string) (f : ResetForm) : ResetForm :=
  match k with
  | RfEmail => Build_ResetForm (rf_step f) v (rf_code f) (rf_newPassword f) (rf_confirm f) (rf_status f) (rf_errors f) (rf_calls f)
  | RfCode => Build_ResetForm (rf_step f) (rf_email f) v (rf_newPassword f) (rf_confirm f) (rf_status f) (rf_errors f) (rf_calls f)
  | RfNewPassword => Build_ResetForm (rf_step f) (rf_email f) (rf_code f) v (rf_confirm f) (rf_status f) (rf_errors f) (rf_calls f)
  | RfConfirm => Build_ResetForm (rf_step f) (rf_email f) (rf_code f) (rf_newPassword f) v (rf_status f) (rf_errors f) (rf_calls f)
  end.
Inductive ResetEvent := ResetTyped (k : ResetField) (v : string) | ResetSubmitted | ResetEnded (n : nat) (r : ClientError + string).
Definition reset_step (e : ResetEvent) (f : ResetForm) : ResetForm :=
  match e with
  | ResetTyped k v => type_reset k v f
  | ResetSubmitted => if may_submit f then submit f else f
  | ResetEnded n r => call_ended n r f
  end.
Definition on_reset_form (es : list ResetEvent) : ResetForm := foldl (λ f e, reset_step e f) reset_opened es.
End Reset.

(** ** Logging in and out *)

(** The token of the store, and that of the query cache. *)
Record PageSession := { ps_token : option string; ps_cached : option string }.
Definition same_token (t : option string) : PageSession := Build_PageSession t t.
Definition truthy_token (t : option string) : option string := match t with Some "" | None => None | t => t end.
Definition loginSchema `{ZO : ZodOps} (email password : string) : problems + values :=
  let e := js_trim email in
  let first := if bool_decide (e = "") then [("email", "Email is required")] else if z_email e then [] else [("email", "Invalid email address")] in
  let second := if bool_decide (password = "") then [("password", "Password is required")]
                else if (String.length password <? 6)%nat then [("password", "Password must be at least 6 characters")] else [] in
  match first ++ second with [] => inr [("email", VStr e); ("password", VStr password)] | found => inl found end.
(** [onMutate]: the token is [pending] until the answer is there. *)
Definition login_begins (s : PageSession) : PageSession * option string := (same_token (Some "pending"), ps_cached s).
Definition login_ends (previousToken : option string) (r : ClientError + string) : PageSession :=
  match r with inr token => same_token (Some token) | inl _ => same_token (truthy_token previousToken) end.
Definition login_problems (e : ClientError) : problems :=
  let '(message, errors) := parseApiError e in
  from_option (λ m, [("email", m)]) [] (error_of "email" errors) ++ from_option (λ m, [("password", m)]) [] (error_of "password" errors) ++ [("root", message)].
Definition logout_begins (s : PageSession) : PageSession * option string := (same_token None, ps_token s).
Definition logout_ends (previousToken : option string) (failed : bool) (s : PageSession) : PageSession :=
  if failed then match truthy_token previousToken with Some t => same_token (Some t) | None => s end else s.

(** ** Facts *)

Section ResetFacts.
Context {ZO : ZodOps} {ZL : ZodLaws} `{!FormOps, !FormLaws}.
Implicit Types (f : ResetForm).

(** What a call sends: a request an e-mail address; the others none. *)
Definition call_as_sent (c : ResetCall) : Prop :=
  match c with
  | CallRequest email _ => ∃ e, email = VStr e ∧ z_email e = true
  | CallVerify email _ _ | CallReset email _ _ _ => email = VUndefined
  end.
Lemma step1_read email read : step1Schema email = inr read → ∃ e, field "email" read = VStr e ∧ z_email e = true.
Proof.
  unfold step1Schema. case_bool_decide; [done|]. destruct (z_email _) eqn:E; [|done]. intros [= <-]. by eexists.
Qed.
Lemma step2_read code read : step2Schema code = inr read → field "email" read = VUndefined.
Proof. unfold step2Schema. case_bool_decide; [done|]. destruct (six_digits _); [|done]. by intros [= <-]. Qed.
Lemma step3_read pw confirm read : step3Schema pw confirm = inr read → field "email" read = VUndefined.
Proof. unfold step3Schema. destruct (_ ++ _); [|done]. case_bool_decide; [|done]. by intros [= <-]. Qed.
Lemma submit_sent f : Forall call_as_sent (rf_calls f) → Forall call_as_sent (rf_calls (submit f)).
Proof.
  intros Hf. unfold submit, resolver. destruct (rf_step f) eqn:Es.
  - destruct (step1Schema _) as [found|read] eqn:E; [done|]. cbn. rewrite Es. apply Forall_app. split; [done|]. repeat constructor.
    cbn. rewrite handed_on_read. by eapply step1_read.
  - destruct (step2Schema _) as [found|read] eqn:E; [done|]. cbn. rewrite Es. apply Forall_app. split; [done|]. repeat constructor.
    cbn. rewrite handed_on_read. by eapply step2_read.
  - destruct (step3Schema _ _) as [found|read] eqn:E; [done|]. cbn. rewrite Es. apply Forall_app. split; [done|]. repeat constructor.
    cbn. rewrite handed_on_read. by eapply step3_read.
Qed.
Lemma ended_sent n r f : Forall call_as_sent (rf_calls f) → Forall call_as_sent (rf_calls (call_ended n r f)).
Proof.
  intros Hf. unfold call_ended. destruct (rf_calls f !! n) as [c|]; [|done].
  assert (Forall call_as_sent (delete n (rf_calls f))) as Hd by (by apply Forall_delete).
  destruct c, r; cbn; try done. destruct (parseApiError c) as [m errors]. by destruct (error_of _ _).
Qed.
Lemma reset_step_sent e f : Forall call_as_sent (rf_calls f) → Forall call_as_sent (rf_calls (reset_step e f)).
Proof.
  intros Hf. destruct e as [[] v| |n r]; cbn [reset_step]; try done; [|by apply ended_sent].
  destruct (may_submit f); [|done]. by apply submit_sent.
Qed.

Section Server.
Context {T : Type → Type} `{!TableOps T} {R : Type} `{!RedisOps R AuthValue, !RedisKeysOps R}.
Context (C : Crypto) (cfg : AuthConfig) (geo : GeoEnv) (providers : list (string * string * string)).

(** C30: No password is reset from the page. Whatever is typed and submitted, in whatever order answers come: the request for a
    code is sent with an address that the server's schema takes; but the later steps read only the fields of their own
    step, so every code to be verified and every password to be set is sent without an address, and the server
    refuses it, whatever its state, and stays as it is. *)
Theorem reset_form_never_resets es c : c ∈ rf_calls (on_reset_form es) →
  match call_route c with
  | ARequestReset body => is_Some (z_parse RequestResetSchema body)
  | r => ∀ req (s : AuthStore (T := T) (R := R)), auth_route C cfg geo providers req r s = (Throw "ZodError", s)
  end.
Proof.
  intros Hc. assert (Forall call_as_sent (rf_calls (on_reset_form es))) as Hall.
  { unfold on_reset_form. apply (foldl_invariant (λ f, Forall call_as_sent (rf_calls f))); [intros; by apply reset_step_sent|constructor]. }
  rewrite Forall_forall in Hall. specialize (Hall c Hc). destruct c as [email previous|email code previous|email code pw previous]; cbn in Hall |- *.
  - destruct Hall as (e & -> & He). unfold RequestResetSchema. cbn. rewrite object_accepted; [by eexists|]. repeat constructor. cbn.
    unfold s_email. rewrite parse_string. cbn. by rewrite He.
  - subst email. intros req s. unfold parsed, VerifyResetCodeSchema, s_object. rewrite parse_object. cbn. unfold s_email.
    by destruct code; cbn; rewrite parse_string.
  - subst email. intros req s. unfold parsed, ResetPasswordSchema, s_object. rewrite parse_object. cbn. unfold s_email.
    by destruct code, pw; cbn; rewrite parse_string.
Qed.

(** Logging out is refused, and the page has its token again. *)
Lemma log_out_puts_token_back req (s : AuthStore (T := T) (R := R)) t : t ≠ "" →
  auth_route C cfg geo providers req (ALogout VUndefined) s = (Throw "ZodError", s)
  ∧ let '(p, previous) := logout_begins (same_token (Some t)) in ps_token p = None ∧ logout_ends previous true p = same_token (Some t).
Proof. intros Ht. split; [by apply logout_needs_a_body|]. cbn. split; [done|]. by destruct t. Qed.
End Server.
End ResetFacts.

(** A log-in that fails leaves the token that was there. *)
Lemma failed_login_keeps_token t e : t ≠ Some "" → let '(p, previous) := login_begins (same_token t) in
  ps_token p = Some "pending" ∧ login_ends previous (inl e) = same_token t.
Proof. intros Ht. cbn. split; [done|]. destruct t as [[]|]; done. Qed.

(** ** Concrete forms *)

Definition asking : list ResetEvent := [ResetTyped RfEmail " ann@x.org "; ResetSubmitted; ResetEnded 0 (inr "reset requested"); ResetTyped RfCode "123456"; ResetSubmitted].
Definition reset_run (es : list ResetEvent) : ResetForm := on_reset_form (ZO := zod0) es.

Lemma reset_form_never_resets_witness :
  rf_calls (reset_run asking) = [CallVerify VUndefined (VStr "123456") "reset requested"]
  ∧ ∀ req s, auth_route (ZO := zod0) (T := list) (R := map_redis AuthValue) crypto0 cfg0 geo0 [] req (AVerifyResetCode (VObj [("code", VStr "123456")])) s = (Throw "ZodError", s).
Proof.
  split; [vm_compute; reflexivity|].
  apply (reset_form_never_resets (ZO := zod0) (ZL := zod0_laws) crypto0 cfg0 geo0 [] asking (CallVerify VUndefined (VStr "123456") "reset requested")).
  vm_compute. apply list_elem_of_here.
Defined.
(** The page says that the code is right before it is checked, and then that it is wrong. *)
Example code_always_refused :
  rf_status (reset_run asking) = "Code verified successfully."
  ∧ let f := reset_run (asking ++ [ResetEnded 0 (inl (ApiError "Bad Request" None (Some 400) None))]) in
    rf_step f = EnterCode ∧ rf_errors f = [("code", "Bad Request")] ∧ rf_status f = "reset requested".
Proof. cbv zeta. split_and!; vm_compute; reflexivity. Qed.
(** A request that fails late takes the page back from the step it had shown. *)
Example late_failure_goes_back :
  let f := reset_run [ResetTyped RfEmail "ann@x.org"; ResetSubmitted; ResetTyped RfCode "12"; ResetEnded 0 (inl (Thrown "offline"))] in
  rf_step f = EnterEmail ∧ rf_errors f = [("email", "offline")] ∧ rf_code f = "12".
Proof. cbv zeta. split_and!; vm_compute; reflexivity. Qed.
